(* ===== verification/_CoqProject ===== *)
-Q . S2P
Prelude.v
Machine.v
Csprng.v
Sector.v
Text.v
Fat.v
FatDisk.v
FatEquiv.v
FatTable.v
FatFile.v
FatWrite.v
FatDir.v
FatInv.v
PageAlloc.v
Vmm.v
VmmProofs.v
VmmUnmap.v
Ipc.v
Task.v
Sched.v
SchedInv.v
SchedProps.v
SchedComm.v
SpawnProofs.v
Heap.v
Elf.v
ElfProofs.v
Syscall.v
SyscallProofs.v
SyscallMem.v
Vfs.v
VfsPipe.v
VfsInv.v
NetState.v
NetLink.v
NetConf.v
Tcp.v
Net.v
NetFrames.v
NetInv.v
TcpRing.v
TcpInv.v
NetSafe.v
NetWire.v
TcpStream.v
TcpSend.v
TcpPair.v
NetServices.v
NetDns.v
Stream.v
Ws.v
WsProofs.v
Httpd.v
Http.v
HttpProofs.v
X509.v
X509Proofs.v
X509Encode.v
X509Time.v
Dtb.v
DtbProofs.v
DtbTree.v
Semantic.v
SemanticInv.v
SemanticProofs.v
SemanticSearch.v
Config.v
ConfigProofs.v
SemanticService.v
HttpdProofs.v
WasmParse.v
WasmParseProofs.v
WasmLoad.v
WasmMem.v
WasmNum.v
WasmScan.v
WasmInterp.v
WasmSafe.v
WasmRuns.v
WasmStruct.v
