(* ===== verification/Prelude.v ===== *)
(** * Aeglos OS kernel: verification library (root file)

    Aeglos is a capability-based AArch64 kernel in Rust.  This library models
    the core of it as executable definitions and proves what they guarantee.

    ** The program and its model

    Boot hands the kernel a range of RAM.  The page allocator divides it, the
    virtual memory manager builds translation tables in pages it takes from the
    allocator, the scheduler owns sixteen task slots with their stacks, tables
    and mailboxes, the ELF loader fills memory and spawns tasks, and the system
    call layer lets EL0 tasks reach all of these through a capability check.
    WASM modules are a second executable format.  Files live on a FAT32 volume
    behind a descriptor table; a network stack polls the card and serves DHCP,
    DNS, ping and TCP, and an HTTP server and client run on TCP; a semantic store
    keeps blobs by hash on blocks of the disk.

    - [Prelude] (this file): machine integers and their wrap-around, the monad
      [outcome] ([Done] or the kernel panic [Panic]), [result] for Rust's
      [Result], counted loops with early exit, byte memory, shared tactics.
    - [Machine]: the high/low address split of memory/vmm.rs and raw access to
      physical memory.
    - [Csprng]: csprng.rs, the ChaCha20 generator over the class [Entropy] of the
      hardware sources.
    - [Sector]: the sector cache of fs/fat32.rs.  The block driver is the class
      [BlockDevice]; the file system reaches sectors through the class [Sectors],
      of which the cache and the bare disk are instances.
    - [Fat]: fs/fat32.rs over [Sectors].  [fatfs] holds its statics; every
      operation is a computation that answers, panics or finds no answer.
      [FatDisk] is a small volume to evaluate it on.
    - [FatEquiv], [FatTable], [FatFile], [FatWrite], [FatDir], [FatInv]: the cache
      against the bare disk; the allocation table and its chains; reading and
      seeking; writing; directory entries, deletion and truncation; the type
      invariant.
    - [Vfs], [VfsPipe], [VfsInv]: fs/mod.rs, the descriptor table over FAT32 files,
      generated nodes and pipes.
    - [Text]: byte strings, literals and slices with their panics.
    - [NetState], [NetLink], [NetConf], [Tcp], [Net]: net/mod.rs, arp.rs, udp.rs,
      icmp.rs, ndp.rs, icmpv6.rs, dhcp.rs, dns.rs and tcp.rs.  [net] holds their
      statics; the cards and the clocks are the class [NetHost].
    - [NetFrames], [NetInv], [TcpRing], [TcpInv], [NetSafe], [NetWire],
      [TcpStream], [TcpSend], [TcpPair], [NetServices], [NetDns]: the theorems on
      them, from the checksums and rings to two stacks joined by their frames.
    - [Stream]: what the protocols above TCP use of it, the class [Stream], and
      its laws, the class [StreamSpec].  A connection is an instance of both
      while its card is silent ([QuietHost]), a buffer in memory always.
    - [Ws], [WsProofs]: net/ws.rs; [Httpd], [HttpdProofs]: net/httpd.rs, with the
      scheduler and the clocks as the class [HttpHost]; [Http], [HttpProofs]:
      net/http.rs.
    - [X509], [X509Proofs], [X509Encode], [X509Time]: net/x509.rs.
    - [Dtb], [DtbProofs], [DtbTree]: dtb.rs.
    - [Config], [ConfigProofs]: config.rs over the class [Files], which the FAT32
      volume and a store in memory implement; the store in memory is shown to
      keep the laws [FilesSpec] that the theorems assume.
    - [Semantic], [SemanticInv], [SemanticProofs], [SemanticSearch],
      [SemanticService]: the crate semantic, its store, searches and message loop.
    - [PageAlloc]: memory/page.rs.  [pages] holds its statics; [init],
      [alloc_pages], [free_page], [release_pages] and the counters are the
      functions of the same names.
    - [Vmm], [VmmProofs], [VmmUnmap]: memory/vmm.rs.  Tables live in the byte
      memory of [machine]; [hw_walk] is the walk the MMU performs and [pt_wf]
      the tree invariant.  Barriers and TLB maintenance are a list of events.
    - [Heap]: memory/heap.rs, over the type class [GlobalAlloc] that stands for
      the crate linked_list_allocator.
    - [Ipc]: ipc/mod.rs and its contract, the class [Fifo].
    - [Task]: process/task.rs, the control block and the initial trap frame.
    - [Sched], [SchedInv], [SchedProps], [SchedComm], [SpawnProofs]:
      process/scheduler.rs.  [kernel] holds its statics; each operation is one
      atomic function because the source runs it under SCHED_LOCK with
      interrupts masked.  [exec] and [reach] are the step relation over all
      operations.
    - [Elf], [ElfProofs]: process/elf.rs.
    - [Syscall], [SyscallProofs], [SyscallMem]: syscall/mod.rs and the SVC and
      abort paths of arch/aarch64/exceptions.rs.  Handlers run in the monad [K]
      over the kernel state and the C heap; [dispatch] is the dispatcher with
      its allowlist and capability gates.  Calls into parts that are not
      modelled are typed requests [svc] answered by an instance of [Services].
    - [WasmParse], [WasmParseProofs], [WasmLoad]: wasm/mod.rs, the decoder of
      WASM binaries.
    - [WasmMem]: wasm/memory.rs, the linear memory of a module.
    - [WasmNum], [WasmScan], [WasmInterp]: wasm/interp.rs.  [WasmNum] holds the
      rows of the integer instructions, [WasmScan] the scanners [find_end] and
      [find_else], [WasmInterp] the frames, labels and operand stack, every arm
      of [step_frame] (one round is [instr]), the host imports, [call] and
      [call_export].  Computations run in the monad [I] over the interpreter,
      the kernel and the class [WasmHost], which stands for the console, FAT32,
      HTTP, the cycle counter and the other cores.
    - [WasmSafe], [WasmRuns], [WasmStruct]: its theorems.

    ** What the theorems show

    - Memory: allocation is first-fit and live blocks never overlap; mapping and
      unmapping change the MMU's translation exactly as asked; a process table
      holds its segments and nothing else; the C shims return aligned blocks and
      give back exactly what they took.
    - Tasks: the scheduler invariant holds after every sequence of operations
      and no operation panics; a timer tick meets a full specification;
      ticks alone keep the CPUs on distinct tasks; slices, progress, message
      order, exit and wait, and signals behave as documented; a spawned task is
      confined to its segments, its stack and its capabilities.
    - Random numbers: requests read one ChaCha20 keystream, no block input is
      used twice, and the rounds are injective.
    - Loading: a valid ELF image ends up in memory exactly as its program
      headers say; a WASM module survives encoding and loading; the WASM loader
      returns on every input.
    - WASM execution: a module whose functions have bodies cannot panic the
      kernel, and changes no memory but its linear memory and heap blocks made
      for it; the scanners find the block structure; running flat bytecode with
      labels computes what an evaluator over the syntax tree does.
    - Files: the sector cache cannot be observed; reading returns the bytes of the
      chain, writing changes them and nothing else, and what is written reads
      back; allocation takes a free cluster whenever there is one; deletion frees
      exactly the chain; every state is well typed.  A pipe is a bounded queue and
      no descriptor dangles.
    - System calls: a blocked or unprivileged call changes nothing; no sequence
      of calls lets a task gain a capability that no caller held; messages carry
      the true sender; anonymous memory is fresh and private.
    - Network: no sequence of well-formed frames, timers and calls panics the
      stack; the bytes one stack sends are the bytes the other's connection
      receives, in order; a lease and a DNS answer are taken as they are encoded.
    - Above TCP: a WebSocket frame is received as it was sent, Base64 decodes
      whole groups, a request reaches its page as it was written, and the client
      reads what the server answers.
    - Certificates: the check answers on every input, and accepts an encoded
      certificate exactly when its validity and its names allow it; times are
      counted by the Gregorian calendar.
    - Device tree: the walker computes what an evaluation of the tree does, and
      ends on every blob with a reserve map that ends.
    - Configuration: set and remove act as on a map of 32 keys, and the table is
      there after a restart when its text fits the file.
    - Semantic store: it answers as a map from hashes to contents, over restarts
      and over messages; a similarity search returns the best matches.
    - Some theorems record where the code does less than it means to: a yielding
      task can run on two CPUs, a wait can free a stack in use, the privileged
      capability gate admits every task, a few bounds checks wrap, WASM stores
      swap their operands, a file never outgrows its first cluster, a read after a
      cluster boundary repeats the cluster, a created file's directory entry
      names another cluster, two kinds of malformed packets and a request with a
      long body panic the kernel, a full semantic store is overwritten after a
      restart, and neither /mem nor the search page can talk to that store.

    ** Bounds and fuel

    [usize] is 64 bits.  The kernel is built in release mode, so arithmetic
    wraps and an index out of range panics; both are explicit.  Counted loops
    run their Rust bound.  The other loops take fuel and answer [Panic] when it
    ends: the slot scan gets [MAX_TASKS] rounds, one per slot; the RAM loop of
    [Vmm.init] one round per gigabyte; LEB128 one round per byte it may read;
    the WASM section loops one round per input byte, as every section takes at
    least two, and the scanners one round per byte of code.  Execution of WASM
    code need not end, so [step_frame], [run] and the wait for the inference
    service take a number of rounds and answer [Wait] when it ends, which is no
    answer; the loops over cluster chains of [Fat] likewise take [rounds] and are
    [Stuck] when these end, because the code follows a cyclic chain for ever, and
    the theorems ask for as many rounds as the chain is long; reading and writing
    take one round per byte.  The WASM safety theorem holds for every number of
    rounds, and structured execution shows that enough rounds give the result.
    The theorems that an operation returns [Done] show that the fuel suffices.
    The waits of the network stack and of the HTTP server take [rounds], since a
    peer need not answer; the loops of the certificate parser have one round per
    byte, those of the device tree one per token of at least four bytes, and
    [X509Proofs] and [DtbProofs] show that they suffice; the readers of requests, frames and files have one round per byte of
    their buffers.

    ** What is not modelled

    The TLS client and the inference service wrap libraries outside the
    repository.  The drivers, the interrupt controllers, the timer and the start
    of the machine are device and system-register access.  The shell, the desktop,
    the installer and the boot loader are user interfaces and firmware calls.  Of
    modelled files: [read_file_alloc] of the file system, the endless accept loop
    of the HTTP server, and the two system calls of config.rs.  The timer's poll of
    the network does not interleave with a blocking call.  The spinlock and
    memory-ordering effects between CPUs are abstracted by the atomicity of each
    operation.  Every raw access reaches physical memory: a fault by the kernel on
    an unmapped low address is outside the model. *)

From stdpp Require Import base numbers list gmap strings.
From Stdlib Require Import ZArith Lia Bool.

Declare Scope aeglos_scope.
Delimit Scope aeglos_scope with aeglos.
#[global] Open Scope Z_scope.

(** ** Machine integers

    A Rust [uN] is a [Z] in [0, 2^N); an [iN] is a [Z] in [-2^(N-1), 2^(N-1)).
    [usize] is 64 bits wide on AArch64.  The kernel is built in release mode,
    where [+], [-] and [*] wrap around. *)

Definition wrap (w z : Z) : Z := z mod 2 ^ w.

Definition as_u8 (z : Z) : Z := wrap 8 z.
Definition as_u16 (z : Z) : Z := wrap 16 z.
Definition as_u32 (z : Z) : Z := wrap 32 z.
Definition as_u64 (z : Z) : Z := wrap 64 z.

(** Two's complement reinterpretation of the low [w] bits. *)
Definition signed (w z : Z) : Z :=
  let m := wrap w z in if m <? 2 ^ (w - 1) then m else m - 2 ^ w.

Definition as_i8 (z : Z) : Z := signed 8 z.
Definition as_i16 (z : Z) : Z := signed 16 z.
Definition as_i32 (z : Z) : Z := signed 32 z.
Definition as_i64 (z : Z) : Z := signed 64 z.

Definition u64_max : Z := 2 ^ 64 - 1.

Notation "a +u b" := (as_u64 (a + b)) (at level 50, left associativity) : aeglos_scope.
Notation "a -u b" := (as_u64 (a - b)) (at level 50, left associativity) : aeglos_scope.
Notation "a *u b" := (as_u64 (a * b)) (at level 40, left associativity) : aeglos_scope.
#[global] Open Scope aeglos_scope.

(** [rotate_left] and [rotate_right] of a [w]-bit word. *)
Definition rotate_left (w x n : Z) : Z :=
  let k := n mod w in Z.lor (wrap w (Z.shiftl x k)) (Z.shiftr x (w - k)).
Definition rotate_right (w x n : Z) : Z :=
  let k := n mod w in Z.lor (Z.shiftr x k) (wrap w (Z.shiftl x (w - k))).

(** [!x] at 64 bits. *)
Definition not64 (x : Z) : Z := Z.lxor x u64_max.
Definition not32 (x : Z) : Z := Z.lxor x (2 ^ 32 - 1).

Definition is_u8 (z : Z) : Prop := 0 <= z < 2 ^ 8.
Definition is_u32 (z : Z) : Prop := 0 <= z < 2 ^ 32.
Definition is_u64 (z : Z) : Prop := 0 <= z < 2 ^ 64.

(** ** Outcomes

    [outcome A] is a computation that may hit a Rust panic (index out of range,
    [expect], [unwrap]); [result] is Rust's [Result]. *)

Inductive outcome (A : Type) : Type :=
| Done (a : A)
| Panic.
Arguments Done {A} a.
Arguments Panic {A}.

#[export] Instance outcome_ret : MRet outcome := fun A a => Done a.
#[export] Instance outcome_bind : MBind outcome :=
  fun A B f m => match m with Done a => f a | Panic => Panic end.

Inductive result (A E : Type) : Type :=
| Ok (a : A)
| Err (e : E).
Arguments Ok {A E} a.
Arguments Err {A E} e.

(** ** Loops

    [for_loop n i body s] is [for j in i .. i+n { body }] over the loop state
    [s]; the body either continues with a new state ([inl]) or leaves the loop
    with a value ([inr]: [return], [break] with a result, or a panic). *)

Fixpoint for_loop {St R : Type} (n : nat) (i : Z) (body : Z -> St -> St + R) (s : St)
  : St + R :=
  match n with
  | O => inl s
  | S n' => match body i s with
            | inl s' => for_loop n' (i + 1) body s'
            | inr r => inr r
            end
  end.

(** ** Arrays

    Rust arrays and slices as lists: indexing out of range panics. *)

Definition arr_get {A : Type} (l : list A) (i : Z) : outcome A :=
  if i <? 0 then Panic
  else match l !! Z.to_nat i with Some a => Done a | None => Panic end.

Definition arr_set {A : Type} (l : list A) (i : Z) (a : A) : outcome (list A) :=
  if (0 <=? i) && (i <? Z.of_nat (length l)) then Done (<[Z.to_nat i := a]> l) else Panic.

(** ** Byte-addressed memory

    Physical RAM as a finite map from addresses to bytes; an address that was
    never written holds 0.  Kernel code reaches it through the high-VA alias or
    through the identity map, both of which name the same bytes. *)

Definition ldb (m : gmap Z Z) (a : Z) : Z := default 0 (m !! a).
Definition stb (m : gmap Z Z) (a v : Z) : gmap Z Z := <[a := v]> m.

(** Little-endian load and store of [n] bytes ([from_le_bytes], [to_le_bytes]). *)
Fixpoint ld (n : nat) (m : gmap Z Z) (a : Z) : Z :=
  match n with
  | O => 0
  | S n' => ldb m a + 256 * ld n' m (a + 1)
  end.

Fixpoint st (n : nat) (m : gmap Z Z) (a v : Z) : gmap Z Z :=
  match n with
  | O => m
  | S n' => stb (st n' m (a + 1) (v / 256)) a (v mod 256)
  end.

(** [ptr::write_bytes(lo, 0, len)]. *)
Definition zero_range (lo len : Z) (m : gmap Z Z) : gmap Z Z :=
  filter (fun kv : Z * Z => ~ (lo <= kv.1 < lo + len)) m.

(** [ptr::copy_nonoverlapping] of a byte slice to [dst]. *)
Fixpoint store_bytes (m : gmap Z Z) (dst : Z) (l : list Z) : gmap Z Z :=
  match l with
  | [] => m
  | b :: l' => stb (store_bytes m (dst + 1) l') dst b
  end.

(** A slice of [n] bytes read from memory. *)
Fixpoint load_bytes (n : nat) (m : gmap Z Z) (a : Z) : list Z :=
  match n with
  | O => []
  | S n' => ldb m a :: load_bytes n' m (a + 1)
  end.

Definition mem_bytes (m : gmap Z Z) : Prop := forall a, is_u8 (ldb m a).

(** Little-endian decoding of a byte list. *)
Fixpoint le_bytes (l : list Z) : Z :=
  match l with
  | [] => 0
  | b :: l' => b + 256 * le_bytes l'
  end.

Fixpoint to_le_bytes (n : nat) (v : Z) : list Z :=
  match n with
  | O => []
  | S n' => v mod 256 :: to_le_bytes n' (v / 256)
  end.

(** ** Automation *)

Create HintDb aeglos.
Create Rewrite HintDb aeglos_rw.

Ltac znorm := repeat match goal with
  | H : (_ <? _) = true |- _ => apply Z.ltb_lt in H
  | H : (_ <? _) = false |- _ => apply Z.ltb_ge in H
  | H : (_ <=? _) = true |- _ => apply Z.leb_le in H
  | H : (_ <=? _) = false |- _ => apply Z.leb_gt in H
  | H : (_ =? _) = true |- _ => apply Z.eqb_eq in H
  | H : (_ =? _) = false |- _ => apply Z.eqb_neq in H
  | H : negb _ = true |- _ => apply negb_true_iff in H
  | H : negb _ = false |- _ => apply negb_false_iff in H
  | H : _ && _ = true |- _ => apply andb_true_iff in H as [? ?]
  | H : _ || _ = false |- _ => apply orb_false_iff in H as [? ?]
  | H : _ && _ = false |- _ => apply andb_false_iff in H
  | H : _ || _ = true |- _ => apply orb_true_iff in H
  end.

(** Destruct the boolean tests the goal is stuck on. *)
Ltac case_if := match goal with
  | |- context [if ?b then _ else _] => destruct b eqn:?
  end.

Ltac case_ifs := repeat (case_if; znorm).

(** ** Generic lemmas: machine integers *)

Lemma wrap_small w z : 0 <= z < 2 ^ w -> wrap w z = z.
Proof. intros. apply Z.mod_small. lia. Qed.

Lemma wrap_range w z : 0 <= w -> 0 <= wrap w z < 2 ^ w.
Proof. intros. apply Z.mod_pos_bound. lia. Qed.

Lemma as_u64_small z : is_u64 z -> as_u64 z = z.
Proof. apply wrap_small. Qed.

Lemma as_u64_range z : is_u64 (as_u64 z).
Proof. apply wrap_range. lia. Qed.

Lemma as_u32_small z : is_u32 z -> as_u32 z = z.
Proof. apply wrap_small. Qed.

Lemma as_u32_range z : is_u32 (as_u32 z).
Proof. apply wrap_range. lia. Qed.

Lemma as_u8_range z : is_u8 (as_u8 z).
Proof. apply wrap_range. lia. Qed.

Lemma signed_range w z : 1 <= w -> - 2 ^ (w - 1) <= signed w z < 2 ^ (w - 1).
Proof.
  intros Hw. unfold signed. pose proof (wrap_range w z ltac:(lia)) as Hr.
  assert (E : 2 ^ w = 2 * 2 ^ (w - 1)).
  { rewrite <- Z.pow_succ_r by lia. f_equal. lia. }
  case_ifs; lia.
Qed.

Lemma wrap_signed w z : 0 < w -> wrap w (signed w z) = wrap w z.
Proof.
  intros Hw. unfold signed, wrap. case_if.
  - apply Z.mod_mod. lia.
  - rewrite <- (Z.mod_add _ 1) by lia.
    replace (z mod 2 ^ w - 2 ^ w + 1 * 2 ^ w) with (z mod 2 ^ w) by lia.
    apply Z.mod_mod. lia.
Qed.

Lemma testbit_high w x n : 0 <= x < 2 ^ w -> w <= n -> Z.testbit x n = false.
Proof.
  intros Hx Hn. destruct (Z.le_gt_cases 0 w).
  - rewrite <- (Z.mod_small x (2 ^ w)) by lia. apply Z.mod_pow2_bits_high. lia.
  - rewrite Z.pow_neg_r in Hx by lia. lia.
Qed.

Lemma lt_pow2_by_bits w v : 0 <= w -> 0 <= v ->
  (forall n, w <= n -> Z.testbit v n = false) -> v < 2 ^ w.
Proof.
  intros Hw Hv Hb. destruct (Z.eq_dec v 0) as [->|Hnz]; [lia|].
  apply Z.log2_lt_pow2; [lia|].
  destruct (Z.lt_ge_cases (Z.log2 v) w) as [|Hge]; [done|].
  pose proof (Z.bit_log2 v ltac:(lia)) as Hl. rewrite Hb in Hl by done. done.
Qed.

(** Adding bits above the ones already there. *)
Lemma lor_high a x s : 0 <= s -> 0 <= a < 2 ^ s -> Z.lor a (x * 2 ^ s) = a + x * 2 ^ s.
Proof.
  intros Hs Ha. assert (Hl : Z.land a (x * 2 ^ s) = 0).
  { apply Z.bits_inj'. intros n Hn. rewrite Z.land_spec, Z.bits_0.
    destruct (Z.lt_ge_cases n s).
    - rewrite Z.mul_pow2_bits_low by done. apply andb_false_r.
    - by rewrite (testbit_high s) by done. }
  rewrite Z.add_nocarry_lxor by done. by rewrite Z.lxor_lor.
Qed.

Lemma lor_u64 a b : is_u64 a -> is_u64 b -> is_u64 (Z.lor a b).
Proof.
  unfold is_u64. intros Ha Hb. split; [apply Z.lor_nonneg; lia|].
  apply lt_pow2_by_bits; [lia|apply Z.lor_nonneg; lia|].
  intros n Hn. rewrite Z.lor_spec, (testbit_high 64 a), (testbit_high 64 b) by lia. done.
Qed.

Lemma land_u64_l a b : is_u64 a -> is_u64 (Z.land a b).
Proof.
  unfold is_u64. intros Ha. assert (0 <= Z.land a b) by (apply Z.land_nonneg; lia).
  split; [done|]. apply lt_pow2_by_bits; [lia|done|].
  intros n Hn. rewrite Z.land_spec, (testbit_high 64 a) by lia. done.
Qed.

(** Masking with a complement clears the bits of the mask. *)
Lemma land_not64 x m : is_u64 x -> Z.land x (not64 m) = Z.ldiff x m.
Proof.
  intros Hx. apply Z.bits_inj'. intros n Hn. unfold not64, u64_max.
  rewrite Z.land_spec, Z.ldiff_spec, Z.lxor_spec.
  replace (2 ^ 64 - 1) with (Z.ones 64) by reflexivity.
  rewrite Z.testbit_ones_nonneg by lia.
  destruct (Z.ltb_spec n 64).
  - by rewrite xorb_true_r.
  - by rewrite (testbit_high 64 x n) by (unfold is_u64 in *; lia).
Qed.

(** Alignment by masking: [x & !(2^k - 1)] rounds down. *)
Lemma land_not_ones k x : 0 <= k -> is_u64 x ->
  Z.land x (not64 (2 ^ k - 1)) = x - x mod 2 ^ k.
Proof.
  intros Hk Hx. rewrite land_not64 by done.
  replace (2 ^ k - 1) with (Z.ones k) by (rewrite Z.ones_equiv; lia).
  rewrite Z.ldiff_ones_r, Z.shiftl_mul_pow2, Z.shiftr_div_pow2 by lia.
  pose proof (Z.div_mod x (2 ^ k) ltac:(lia)). lia.
Qed.

Lemma land_ones_mod k x : 0 <= k -> Z.land x (2 ^ k - 1) = x mod 2 ^ k.
Proof.
  intros Hk. replace (2 ^ k - 1) with (Z.ones k) by (rewrite Z.ones_equiv; lia).
  by apply Z.land_ones.
Qed.

(** [x & (1 << b)] is nonzero exactly when bit [b] is set. *)
Lemma shiftr_12 x : Z.shiftr x 12 = x / 4096.
Proof. by rewrite Z.shiftr_div_pow2. Qed.

Lemma land_bit x b : 0 <= b -> Z.land x (2 ^ b) = if Z.testbit x b then 2 ^ b else 0.
Proof.
  intros Hb. apply Z.bits_inj'. intros n Hn.
  rewrite Z.land_spec, Z.pow2_bits_eqb by lia.
  destruct (Z.eqb_spec b n) as [->|Hne].
  - destruct (Z.testbit x n); rewrite ?Z.pow2_bits_true, ?Z.bits_0 by lia; done.
  - rewrite andb_false_r. destruct (Z.testbit x b); [|by rewrite Z.bits_0].
    by rewrite Z.pow2_bits_false by lia.
Qed.

Lemma land_bit_eqb x b : 0 <= b -> (Z.land x (2 ^ b) =? 0) = negb (Z.testbit x b).
Proof.
  intros Hb. rewrite land_bit by done.
  destruct (Z.testbit x b); [|done]. apply Z.eqb_neq. lia.
Qed.

(** ** Generic lemmas: loops *)

Section ForLoop.
Context {St R : Type} (body : Z -> St -> St + R).

(** Invariant rule: [P] holds before each iteration, [Q] of an early exit. *)
Lemma for_loop_inv (P : Z -> St -> Prop) (Q : R -> Prop) n i s :
  P i s ->
  (forall j s', i <= j < i + Z.of_nat n -> P j s' ->
     match body j s' with inl s'' => P (j + 1) s'' | inr r => Q r end) ->
  match for_loop n i body s with
  | inl s' => P (i + Z.of_nat n) s'
  | inr r => Q r
  end.
Proof.
  revert i s. induction n as [|n IH]; intros i s HP Hb; simpl.
  - by rewrite Z.add_0_r.
  - pose proof (Hb i s ltac:(lia) HP) as H1.
    destruct (body i s) as [s'|r]; [|done].
    replace (i + Z.of_nat (S n)) with ((i + 1) + Z.of_nat n) by lia.
    apply IH; [done|]. intros j s'' Hj HP'. apply Hb; [lia|done].
Qed.

(** A loop split at any point. *)
Lemma for_loop_app n1 n2 i s :
  for_loop (n1 + n2) i body s =
  match for_loop n1 i body s with
  | inl s' => for_loop n2 (i + Z.of_nat n1) body s'
  | inr r => inr r
  end.
Proof.
  revert i s. induction n1 as [|n IH]; intros i s; cbn [for_loop Nat.add].
  - by rewrite Z.add_0_r.
  - destruct (body i s); [|done]. rewrite IH.
    replace (i + Z.of_nat (S n)) with (i + 1 + Z.of_nat n) by lia. done.
Qed.
End ForLoop.

(** [for_inv P Q H] proves by the invariant rule that the loop in the goal keeps
    [P] and leaves only with [Q]: the two premises first, then the goal with [H]. *)
Ltac for_inv P Q H :=
  match goal with
  | |- context [for_loop ?n ?i ?f ?s] =>
      unshelve (epose proof (for_loop_inv f P Q n i s _ _) as H);
      [| |rewrite ?Z2Nat.id, ?Z.add_0_l in H by lia]
  end.

(** ** Generic lemmas: arrays *)

Lemma arr_get_some {A} (l : list A) i a : 0 <= i -> l !! Z.to_nat i = Some a -> arr_get l i = Done a.
Proof. intros Hi Hl. unfold arr_get. rewrite (proj2 (Z.ltb_ge _ _)), Hl by lia. done. Qed.

Lemma arr_get_ok {A} (l : list A) i :
  0 <= i < Z.of_nat (length l) -> exists a, arr_get l i = Done a /\ l !! Z.to_nat i = Some a.
Proof.
  intros Hi. destruct (lookup_lt_is_Some_2 l (Z.to_nat i)) as [a Ha]; [lia|].
  exists a. split; [|done]. apply arr_get_some; [lia|done].
Qed.

Lemma arr_get_inv {A} (l : list A) i a :
  arr_get l i = Done a -> 0 <= i /\ l !! Z.to_nat i = Some a.
Proof.
  unfold arr_get. destruct (Z.ltb_spec i 0); [done|].
  destruct (l !! Z.to_nat i) eqn:E; [|done]. intros [= ->]. done.
Qed.

Lemma arr_set_ok {A} (l : list A) i a :
  0 <= i < Z.of_nat (length l) -> arr_set l i a = Done (<[Z.to_nat i := a]> l).
Proof.
  intros Hi. unfold arr_set.
  rewrite (proj2 (Z.leb_le _ _)), (proj2 (Z.ltb_lt _ _)) by lia. done.
Qed.

(** ** Generic lemmas: memory *)

Lemma ldb_stb m a v b : ldb (stb m a v) b = if decide (a = b) then v else ldb m b.
Proof. unfold ldb, stb. rewrite lookup_insert. by case_decide. Qed.

Lemma ldb_zero_range lo len m a :
  ldb (zero_range lo len m) a = if decide (lo <= a < lo + len) then 0 else ldb m a.
Proof.
  unfold ldb, zero_range. rewrite map_lookup_filter. case_decide as Ha.
  - destruct (m !! a) as [v|]; simpl; [|done].
    rewrite option_guard_False; [done|simpl; tauto].
  - destruct (m !! a) as [v|]; simpl; [|done].
    rewrite option_guard_True; [done|simpl; tauto].
Qed.

Lemma ld_ext n m m' a :
  (forall b, a <= b < a + Z.of_nat n -> ldb m b = ldb m' b) -> ld n m a = ld n m' a.
Proof.
  revert a. induction n as [|n IH]; intros a H; simpl; [done|].
  rewrite H by lia. rewrite (IH (a + 1)); [done|]. intros b Hb. apply H. lia.
Qed.

Lemma ldb_st_other n m a v b : ~ (a <= b < a + Z.of_nat n) -> ldb (st n m a v) b = ldb m b.
Proof.
  revert a v. induction n as [|n IH]; intros a v H; simpl; [done|].
  rewrite ldb_stb. case_decide; [lia|]. apply IH. lia.
Qed.

Lemma ld_st_same n m a v : ld n (st n m a v) a = v mod 256 ^ Z.of_nat n.
Proof.
  revert a v. induction n as [|n IH]; intros a v; simpl ld.
  - by rewrite Z.mod_1_r.
  - simpl st. rewrite ldb_stb. rewrite decide_True by done.
    rewrite (ld_ext n _ (st n m (a + 1) (v / 256))).
    2: { intros b Hb. rewrite ldb_stb. case_decide; [lia|done]. }
    rewrite IH, Nat2Z.inj_succ, Z.pow_succ_r by lia.
    rewrite Z.rem_mul_r by lia. lia.
Qed.

Lemma ld_st_other n k m a b v :
  a + Z.of_nat n <= b \/ b + Z.of_nat k <= a -> ld k (st n m a v) b = ld k m b.
Proof. intros H. apply ld_ext. intros c Hc. apply ldb_st_other. lia. Qed.

Lemma ld_zero_range n lo len m a :
  lo <= a -> a + Z.of_nat n <= lo + len -> ld n (zero_range lo len m) a = 0.
Proof.
  revert a. induction n as [|n IH]; intros a H1 H2; simpl; [done|].
  rewrite ldb_zero_range, decide_True by lia. rewrite IH by lia. done.
Qed.

Lemma ld_zero_range_other n lo len m a :
  a + Z.of_nat n <= lo \/ lo + len <= a -> ld n (zero_range lo len m) a = ld n m a.
Proof.
  intros H. apply ld_ext. intros b Hb. rewrite ldb_zero_range. case_decide; [lia|done].
Qed.

Lemma ld_range n m a : mem_bytes m -> 0 <= ld n m a < 256 ^ Z.of_nat n.
Proof.
  intros Hm. revert a. induction n as [|n IH]; intros a; simpl ld; [lia|].
  rewrite Nat2Z.inj_succ, Z.pow_succ_r by lia.
  pose proof (Hm a) as Ha. unfold is_u8 in Ha. specialize (IH (a + 1)). lia.
Qed.

Lemma mem_bytes_st n m a v : mem_bytes m -> mem_bytes (st n m a v).
Proof.
  revert a v. induction n as [|n IH]; intros a v Hm; simpl; [done|].
  intros b. rewrite ldb_stb. case_decide; [|by apply IH].
  unfold is_u8. apply Z.mod_pos_bound. lia.
Qed.

Lemma mem_bytes_zero_range lo len m : mem_bytes m -> mem_bytes (zero_range lo len m).
Proof. intros Hm a. rewrite ldb_zero_range. case_decide; [by split|apply Hm]. Qed.

Lemma mem_bytes_empty : mem_bytes ∅.
Proof. intros a. unfold ldb. by rewrite lookup_empty. Qed.

Lemma mem_bytes_stb m a v : is_u8 v -> mem_bytes m -> mem_bytes (stb m a v).
Proof. intros Hv Hm b. rewrite ldb_stb. by case_decide. Qed.

#[export] Hint Resolve mem_bytes_st mem_bytes_zero_range mem_bytes_empty
  as_u64_range as_u32_range as_u8_range lor_u64 land_u64_l : aeglos.

Lemma ldb_store_bytes m dst l a :
  ldb (store_bytes m dst l) a =
  if decide (dst <= a < dst + Z.of_nat (length l))
  then nth (Z.to_nat (a - dst)) l 0 else ldb m a.
Proof.
  revert dst. induction l as [|b l IH]; intros dst; simpl.
  - rewrite decide_False by lia. done.
  - rewrite ldb_stb, IH. repeat case_decide; try lia; try done.
    + subst. by rewrite Z.sub_diag.
    + replace (Z.to_nat (a - dst)) with (S (Z.to_nat (a - (dst + 1)))) by lia. done.
Qed.

Lemma mem_bytes_store_bytes m dst l : mem_bytes m -> Forall is_u8 l -> mem_bytes (store_bytes m dst l).
Proof.
  intros Hm Hl a. rewrite ldb_store_bytes. case_decide; [|done].
  destruct (nth_in_or_default (Z.to_nat (a - dst)) l 0) as [Hin| ->]; [|by split].
  by eapply List.Forall_forall in Hl.
Qed.

Lemma find_app {A} (P : A -> bool) l1 l2 : List.find P (l1 ++ l2) = match List.find P l1 with Some x => Some x | None => List.find P l2 end.
Proof. induction l1 as [|x l1 IH]; [done|]. cbn. destruct (P x); [done|exact IH]. Qed.

Lemma length_load_bytes n m a : length (load_bytes n m a) = n.
Proof. revert a. induction n; intros; simpl; auto. Qed.

Lemma nth_load_bytes n m a k : (k < n)%nat -> nth k (load_bytes n m a) 0 = ldb m (a + Z.of_nat k).
Proof.
  revert a k. induction n as [|n IH]; intros a k Hk; [lia|].
  destruct k as [|k]; simpl; [by rewrite Z.add_0_r|].
  rewrite IH by lia. f_equal. lia.
Qed.

Lemma load_store_bytes m dst l : load_bytes (length l) (store_bytes m dst l) dst = l.
Proof.
  apply (nth_ext _ _ 0 0); [apply length_load_bytes|].
  intros k Hk. rewrite length_load_bytes in Hk. rewrite nth_load_bytes by done.
  rewrite ldb_store_bytes, decide_True by lia. f_equal. lia.
Qed.

Lemma length_to_le_bytes n v : length (to_le_bytes n v) = n.
Proof. revert v. induction n; intros; simpl; auto. Qed.

Lemma le_to_le_bytes n v : le_bytes (to_le_bytes n v) = v mod 256 ^ Z.of_nat n.
Proof.
  revert v. induction n as [|n IH]; intros v; simpl le_bytes.
  - by rewrite Z.mod_1_r.
  - rewrite IH, Nat2Z.inj_succ, Z.pow_succ_r, Z.rem_mul_r by lia. lia.
Qed.

Lemma le_bytes_load n m a : le_bytes (load_bytes n m a) = ld n m a.
Proof. revert a. induction n as [|n IH]; intros a; simpl; [done|]. by rewrite IH. Qed.

#[global] Arguments ld : simpl never.
#[global] Arguments st : simpl never.
#[global] Arguments for_loop : simpl never.
#[global] Arguments store_bytes : simpl never.
#[global] Arguments load_bytes : simpl never.
