(* ===== verification/Machine.v ===== *)
(** * The machine the kernel runs on

    Address arithmetic of kernel/src/memory/vmm.rs (the TTBR0/TTBR1 split) and
    the physical memory that every component shares. *)

From stdpp Require Import base numbers list gmap.
From Stdlib Require Import ZArith Lia.
From S2P Require Import Prelude.

(** Offset added to a physical address to obtain the kernel virtual address. *)
Definition KERNEL_VA_OFFSET : Z := 0xFFFF000000000000.

Definition phys_to_virt (pa : Z) : Z := pa +u KERNEL_VA_OFFSET.

Definition virt_to_phys (va : Z) : Z := va -u KERNEL_VA_OFFSET.

Definition to_dma_addr (ptr : Z) : Z :=
  if KERNEL_VA_OFFSET <=? ptr then ptr - KERNEL_VA_OFFSET else ptr.

(** Loads and stores of EL1 code through a kernel pointer: a high VA goes
    through TTBR1 (PA = VA - offset), a low one through the identity map. *)
Definition kld (n : nat) (m : gmap Z Z) (va : Z) : Z := ld n m (to_dma_addr va).
Definition kst (n : nat) (m : gmap Z Z) (va v : Z) : gmap Z Z := st n m (to_dma_addr va) v.
Definition kzero (m : gmap Z Z) (va len : Z) : gmap Z Z := zero_range (to_dma_addr va) len m.
Definition kcopy (m : gmap Z Z) (va : Z) (l : list Z) : gmap Z Z :=
  store_bytes m (to_dma_addr va) l.

Lemma virt_to_phys_to_virt pa : is_u64 pa -> virt_to_phys (phys_to_virt pa) = pa.
Proof.
  intros H. unfold virt_to_phys, phys_to_virt, as_u64, wrap.
  rewrite Zminus_mod_idemp_l. replace (pa + _ - _) with pa by lia.
  by apply Z.mod_small.
Qed.

Lemma phys_to_virt_to_phys va : is_u64 va -> phys_to_virt (virt_to_phys va) = va.
Proof.
  intros H. unfold virt_to_phys, phys_to_virt, as_u64, wrap.
  rewrite Zplus_mod_idemp_l. replace (va - _ + _) with va by lia.
  by apply Z.mod_small.
Qed.

(** Physical addresses are below 2^48, so their alias does not wrap. *)
Definition is_pa (a : Z) : Prop := 0 <= a < 2 ^ 48.

Lemma phys_to_virt_pa pa : is_pa pa -> phys_to_virt pa = pa + KERNEL_VA_OFFSET.
Proof.
  intros H. apply as_u64_small. unfold is_pa, is_u64, KERNEL_VA_OFFSET in *. lia.
Qed.

Lemma to_dma_phys_to_virt pa : is_pa pa -> to_dma_addr (phys_to_virt pa) = pa.
Proof.
  intros H. rewrite phys_to_virt_pa by done. unfold to_dma_addr, is_pa, KERNEL_VA_OFFSET in *.
  case_ifs; lia.
Qed.

Lemma to_dma_low pa : is_pa pa -> to_dma_addr pa = pa.
Proof. intros H. unfold to_dma_addr, is_pa, KERNEL_VA_OFFSET in *. case_ifs; lia. Qed.

#[export] Hint Rewrite to_dma_phys_to_virt to_dma_low using done : aeglos_rw.
