(* ===== verification/Csprng.v ===== *)
(** * The random number generator

    csprng.rs: entropy collection, the ChaCha20 block function and the generator
    that serves [fill_bytes].  The hardware sources are the class [Entropy]. *)

From stdpp Require Import base numbers list.
From Stdlib Require Import ZArith Lia.
From S2P Require Import Prelude.

(** ** ChaCha20 *)

Definition SIGMA : list Z := [0x61707865; 0x3320646e; 0x79622d32; 0x6b206574].

(** [x[i]] of an array the index is always inside of. *)
Definition word (x : list Z) (i : nat) : Z := nth i x 0.

(** The macro [qr!] on the working array. *)
Definition qr (x : list Z) (a b c d : nat) : list Z :=
  let x := <[a := as_u32 (word x a + word x b)]> x in
  let x := <[d := Z.lxor (word x d) (word x a)]> x in
  let x := <[d := rotate_left 32 (word x d) 16]> x in
  let x := <[c := as_u32 (word x c + word x d)]> x in
  let x := <[b := Z.lxor (word x b) (word x c)]> x in
  let x := <[b := rotate_left 32 (word x b) 12]> x in
  let x := <[a := as_u32 (word x a + word x b)]> x in
  let x := <[d := Z.lxor (word x d) (word x a)]> x in
  let x := <[d := rotate_left 32 (word x d) 8]> x in
  let x := <[c := as_u32 (word x c + word x d)]> x in
  let x := <[b := Z.lxor (word x b) (word x c)]> x in
  <[b := rotate_left 32 (word x b) 7]> x.

(** Column rounds, then diagonal rounds. *)
Definition double_round (x : list Z) : list Z :=
  let x := qr x 0 4 8 12 in
  let x := qr x 1 5 9 13 in
  let x := qr x 2 6 10 14 in
  let x := qr x 3 7 11 15 in
  let x := qr x 0 5 10 15 in
  let x := qr x 1 6 11 12 in
  let x := qr x 2 7 8 13 in
  qr x 3 4 9 14.

Definition chacha20_block (state : list Z) : list Z :=
  let x := Nat.iter 10 double_round state in
  let x := zip_with (fun a b => as_u32 (a + b)) x state in
  concat (to_le_bytes 4 <$> x).

(** ** Entropy *)

(** The counter, the feature register, the RNDR instruction and the stack pointer. *)
Class Entropy (W : Type) := {
  read_counter : W -> Z * W;
  id_aa64isar0 : Z;
  read_rndr : W -> (Z * bool) * W;
  stack_pointer : W -> Z;
}.

Record Drbg := mk_drbg { state : list Z; keystream : list Z; pos : nat }.

(** [DRBG] and [DRBG_READY]. *)
Record csprng := mk_csprng { DRBG : Drbg; DRBG_READY : bool }.

Definition csprng0 : csprng := mk_csprng (mk_drbg (replicate 16 0) (replicate 64 0) 64) false.

Section Csprng.
Context {W : Type} `{!Entropy W}.

Definition has_rndr : bool := negb (Z.land (Z.shiftr id_aa64isar0 60) 0xF =? 0).

Fixpoint jitter (n : nat) (acc : Z) (w : W) : Z * W :=
  match n with
  | O => (acc, w)
  | S n' =>
      let '(t, w) := read_counter w in
      let feedback := Z.land (Z.lxor (Z.lxor (Z.lxor (Z.shiftr acc 63) (Z.shiftr acc 62)) (Z.shiftr acc 60))
        (Z.shiftr acc 59)) 1 in
      let acc := Z.lor (as_u64 (Z.shiftl acc 1)) feedback in
      jitter n' (Z.lxor acc t) w
  end.

Definition timer_jitter_entropy (w : W) : Z * W :=
  let '(t, w) := read_counter w in jitter 1024 (t *u 0x9e3779b97f4a7c15) w.

(** Eight draws; the counter stands in when RNDR is not ready. *)
Fixpoint rndr_word (n : nat) (v : Z) (w : W) : Z * W :=
  match n with
  | O => (v, w)
  | S n' =>
      let '((r, ok), w) := read_rndr w in
      if ok : bool then rndr_word n' (Z.lxor v r) w
      else let '(t, w) := read_counter w in rndr_word n' (Z.lxor v t) w
  end.

(** [for w in words.iter_mut()] *)
Fixpoint collect_words (n : nat) (source : W -> Z * W) (w : W) : list Z * W :=
  match n with
  | O => ([], w)
  | S n' => let '(v, w) := source w in let '(l, w) := collect_words n' source w in (v :: l, w)
  end.

Definition collect_seed (w : W) : list Z * W :=
  let '(words, w) := collect_words 4 (if has_rndr then rndr_word 8 0 else timer_jitter_entropy) w in
  let '(t, w) := read_counter w in
  let sp := stack_pointer w in
  let w0 := Z.lxor (word words 0) (t *u 0x517cc1b727220a95) in
  let w1 := Z.lxor (word words 1) (sp *u 0x6c62272e07bb0142) in
  let w2 := Z.lxor (word words 2) (Z.lxor (rotate_right 64 t 17) (rotate_left 64 sp 13)) in
  let w3 := Z.lxor (word words 3) ((t +u sp) *u 0xbf58476d1ce4e5b9) in
  let w0 := Z.lxor w0 (rotate_left 64 w3 31) in
  let w1 := Z.lxor w1 (rotate_left 64 w0 17) in
  let w2 := Z.lxor w2 (rotate_left 64 w1 13) in
  let w3 := Z.lxor w3 (rotate_left 64 w2 29) in
  (concat (to_le_bytes 8 <$> [w0; w1; w2; w3]), w).

(** ** The generator *)

(** [u32::from_le_bytes(seed[i*4..i*4+4])] for [i] in [0..8]. *)
Definition seed_words (seed : list Z) : list Z := (fun i => le_bytes (take 4 (drop (i * 4) seed))) <$> seq 0 8.

Definition init (s : csprng) (w : W) : csprng * W :=
  let '(seed, w) := collect_seed w in
  let '(t, w) := read_counter w in
  let sp := stack_pointer w in
  let nonce := [Z.lxor (as_u32 t) (as_u32 (Z.shiftr sp 16)); Z.lxor (as_u32 (Z.shiftr t 32)) (as_u32 sp)] in
  (mk_csprng (mk_drbg (SIGMA ++ seed_words seed ++ [0; 0] ++ nonce) (keystream (DRBG s)) 64) true, w).

Definition reseed (s : csprng) (w : W) : csprng * W :=
  let '(extra, w) := collect_seed w in
  let st := foldl (fun st '(i, x) => alter (fun v => Z.lxor v x) (4 + i)%nat st) (state (DRBG s))
    (imap pair (seed_words extra)) in
  let st := alter (fun v => as_u32 (v + 1)) 14%nat st in
  (mk_csprng (mk_drbg st (keystream (DRBG s)) 64) (DRBG_READY s), w).

(** The output before [init]. *)
Fixpoint fallback (n : nat) (i t : Z) : list Z :=
  match n with
  | O => []
  | S n' =>
      let t := Z.lxor t (i *u 0x6c62272e07bb0142) in
      let t := rotate_left 64 t 13 +u 0x517cc1b727220a95 in
      Z.shiftr t 56 :: fallback n' (i + 1) t
  end.

(** A new block when the old one is used up. *)
Definition refill (d : Drbg) : Drbg :=
  if (64 <=? pos d)%nat then
    let ks := chacha20_block (state d) in
    let st := alter (fun v => as_u32 (v + 1)) 12%nat (state d) in
    let st := if word st 12 =? 0 then alter (fun v => as_u32 (v + 1)) 13%nat st else st in
    mk_drbg st ks 0
  else d.

Definition next_byte (d : Drbg) : Z * Drbg :=
  let d := refill d in (word (keystream d) (pos d), mk_drbg (state d) (keystream d) (S (pos d))).

(** [for b in buf.iter_mut()] *)
Fixpoint drbg_bytes (n : nat) (d : Drbg) : list Z * Drbg :=
  match n with
  | O => ([], d)
  | S n' => let '(b, d) := next_byte d in let '(l, d) := drbg_bytes n' d in (b :: l, d)
  end.

Definition fill_bytes (n : nat) (s : csprng) (w : W) : list Z * (csprng * W) :=
  if negb (DRBG_READY s) then
    let '(t, w) := read_counter w in (fallback n 0 (t *u 0x9e3779b97f4a7c15), (s, w))
  else
    let '(l, d) := drbg_bytes n (DRBG s) in (l, (mk_csprng d (DRBG_READY s), w)).

Definition random_bytes_32 (s : csprng) (w : W) : list Z * (csprng * W) := fill_bytes 32 s w.

End Csprng.

(** ** One keystream *)

(** The block counter in words 12 and 13. *)
Definition at_counter (st : list Z) (c : Z) : list Z := <[12%nat := c mod 2 ^ 32]> (<[13%nat := c / 2 ^ 32 mod 2 ^ 32]> st).

(** Byte [i] of the ChaCha20 stream that starts in [st] at counter [c]. *)
Definition stream_byte (st : list Z) (c : Z) (i : nat) : Z :=
  word (chacha20_block (at_counter st (c + Z.of_nat (i / 64)))) (i mod 64).

Lemma at_counter_inc st c : length st = 16%nat ->
  let st' := alter (fun v => as_u32 (v + 1)) 12%nat (at_counter st c) in
  (if word st' 12 =? 0 then alter (fun v => as_u32 (v + 1)) 13%nat st' else st') = at_counter st (c + 1).
Proof.
  intros Hl. do 16 (destruct st as [|? st]; [done|]). destruct st; [|done]. cbn -[Z.pow Z.modulo Z.div].
  unfold as_u32, wrap.
  pose proof (Z.div_mod c (2 ^ 32)) as E1. pose proof (Z.mod_pos_bound c (2 ^ 32)) as B1.
  pose proof (Z.div_mod (c + 1) (2 ^ 32)) as E2. pose proof (Z.mod_pos_bound (c + 1) (2 ^ 32)) as B2.
  rewrite Zplus_mod_idemp_l. destruct (Z.eqb_spec ((c + 1) mod 2 ^ 32) 0) as [E|E]; cbn -[Z.pow Z.modulo Z.div].
  - rewrite Zplus_mod_idemp_l. replace (c / 2 ^ 32 + 1) with ((c + 1) / 2 ^ 32) by lia. done.
  - replace (c / 2 ^ 32) with ((c + 1) / 2 ^ 32) by lia. done.
Qed.

#[local] Opaque chacha20_block.

Section Stream.
Context (st : list Z) (c : Z) (Hst : length st = 16%nat).

(** The generator is at byte [i] of the stream. *)
Definition at_byte (i : nat) (d : Drbg) : Prop :=
  let k := c + Z.of_nat (i / 64) in
  refill d = mk_drbg (at_counter st (k + 1)) (chacha20_block (at_counter st k)) (i mod 64).

Lemma at_byte_block i ks : (i mod 64 = 0)%nat ->
  at_byte i (mk_drbg (at_counter st (c + Z.of_nat (i / 64))) ks 64).
Proof.
  intros E. unfold at_byte, refill. cbn [pos Nat.leb state]. cbv zeta.
  pose proof (at_counter_inc st (c + Z.of_nat (i / 64)) Hst) as Hi. cbv zeta in Hi. by rewrite Hi, E.
Qed.

Lemma next_byte_stream i d : at_byte i d ->
  (next_byte d).1 = stream_byte st c i /\ at_byte (S i) (next_byte d).2.
Proof.
  intros E. unfold next_byte. rewrite E. cbn [fst snd pos state keystream]. split; [done|].
  pose proof (Nat.div_mod i 64 ltac:(lia)). pose proof (Nat.mod_upper_bound i 64 ltac:(lia)).
  destruct (decide (i mod 64 = 63)%nat) as [E63|].
  - assert (S i / 64 = S (i / 64))%nat as E1 by (symmetry; apply (Nat.div_unique _ _ _ 0); lia).
    replace (c + Z.of_nat (i / 64) + 1) with (c + Z.of_nat (S i / 64)) by lia. rewrite E63.
    apply at_byte_block. symmetry. apply (Nat.mod_unique _ _ (S (i / 64))); lia.
  - unfold at_byte, refill. cbn [pos]. rewrite (proj2 (Nat.leb_gt _ _)) by lia.
    replace (S i / 64)%nat with (i / 64)%nat by (apply (Nat.div_unique _ _ _ (S (i mod 64))); lia).
    f_equal. apply (Nat.mod_unique _ _ (i / 64)%nat); lia.
Qed.

Lemma drbg_bytes_stream n i d : at_byte i d ->
  (drbg_bytes n d).1 = stream_byte st c <$> seq i n /\ at_byte (i + n) (drbg_bytes n d).2.
Proof.
  revert i d. induction n as [|n IH]; intros i d Hd; cbn [drbg_bytes seq fmap list_fmap]; [by rewrite Nat.add_0_r|].
  destruct (next_byte_stream i d Hd) as [Hb Hn]. destruct (next_byte d) as [b d1]. cbn [fst snd] in *.
  destruct (IH _ _ Hn) as [Hl Hd']. destruct (drbg_bytes n d1) as [l d2]. cbn [fst snd] in *. subst.
  split; [done|]. by rewrite Nat.add_succ_r.
Qed.
End Stream.

Section Requests.
Context {W : Type} `{!Entropy W}.

(** A sequence of requests, each of some number of bytes. *)
Fixpoint fills (ns : list nat) (s : csprng) (w : W) : list (list Z) :=
  match ns with
  | [] => []
  | n :: ns' => let '(l, (s, w)) := fill_bytes n s w in l :: fills ns' s w
  end.

Lemma fills_stream st c i ns s w : length st = 16%nat -> DRBG_READY s = true -> at_byte st c i (DRBG s) ->
  concat (fills ns s w) = stream_byte st c <$> seq i (sum_list ns).
Proof.
  intros Hst. revert i s w. induction ns as [|n ns IH]; intros i s w Hr Hd; [done|]. cbn [fills].
  unfold fill_bytes. rewrite Hr. cbn [negb]. destruct (drbg_bytes_stream st c Hst n i (DRBG s) Hd) as [Hl Hd'].
  destruct (drbg_bytes n (DRBG s)) as [l d]. cbn [fst snd concat] in *.
  rewrite (IH (i + n)%nat) by done. cbn [sum_list sum_list_with]. by rewrite Hl, seq_app, fmap_app.
Qed.

(** C33: the generator serves one keystream.  After [init], with whatever the
    entropy sources deliver, the bytes handed out by any sequence of requests are
    together the ChaCha20 keystream of the seeded state from block 0 on, each byte
    once and in order: how the requests split it makes no difference, and the
    64-bit counter carries from word 12 to word 13. *)
Theorem one_keystream (s0 : csprng) (w0 : W) ns :
  let '(s, w) := init s0 w0 in
  concat (fills ns s w) = stream_byte (state (DRBG s)) 0 <$> seq 0 (sum_list ns).
Proof.
  unfold init. destruct (collect_seed w0) as [seed w1]. destruct (read_counter w1) as [t w].
  apply fills_stream; [done..|]. set (st := SIGMA ++ _). cbn [DRBG state].
  replace st with (at_counter st 0) at 2 by reflexivity. by apply (at_byte_block st 0).
Qed.

(** ** No block is computed twice *)

(** The inputs of the block function while [n] bytes are served. *)
Fixpoint block_inputs (n : nat) (d : Drbg) : list (list Z) :=
  match n with
  | O => []
  | S n' => (if (64 <=? pos d)%nat then [state d] else []) ++ block_inputs n' (next_byte d).2
  end.

Inductive rng_op := Fill (n : nat) | Reseed.

Fixpoint run_inputs (ops : list rng_op) (s : csprng) (w : W) : list (list Z) :=
  match ops with
  | [] => []
  | Fill n :: ops' => let '(_, (s', w)) := fill_bytes n s w in block_inputs n (DRBG s) ++ run_inputs ops' s' w
  | Reseed :: ops' => let '(s, w) := reseed s w in run_inputs ops' s w
  end.

Definition counter (st : list Z) : Z := word st 12 + 2 ^ 32 * word st 13.

(** The generator is about to use counter [k]. *)
Definition at_count (k : Z) (d : Drbg) : Prop := exists st, length st = 16%nat /\ state d = at_counter st k.

Lemma counter_at st k : length st = 16%nat -> counter (at_counter st k) = k mod 2 ^ 64.
Proof.
  intros Hl. do 16 (destruct st as [|? st]; [done|]). unfold counter, at_counter. cbn -[Z.pow Z.modulo Z.div Z.mul Z.add].
  change (2 ^ 64) with (2 ^ 32 * 2 ^ 32). by rewrite Z.rem_mul_r.
Qed.

Lemma next_byte_count k d : at_count k d ->
  at_count (if (64 <=? pos d)%nat then k + 1 else k) (next_byte d).2.
Proof.
  intros (st & Hl & E). unfold next_byte, refill. exists st. split; [done|].
  destruct (64 <=? pos d)%nat; cbn [snd state]; rewrite E; [by apply at_counter_inc|done].
Qed.

Lemma drbg_bytes_S n d : (drbg_bytes (S n) d).2 = (drbg_bytes n (next_byte d).2).2.
Proof. cbn [drbg_bytes]. destruct (next_byte d) as [b d1]. cbn [snd]. by destruct (drbg_bytes n d1). Qed.

(** The counters of consecutive blocks. *)
Definition counts (k : Z) (n : nat) : list Z := (fun i => (k + Z.of_nat i) mod 2 ^ 64) <$> seq 0 n.

Lemma counts_app k n m : counts k (n + m) = counts k n ++ counts (k + Z.of_nat n) m.
Proof.
  unfold counts. rewrite seq_app, fmap_app. f_equal. cbn [plus]. rewrite <- (Nat.add_0_r n) at 1.
  rewrite <- fmap_add_seq, <- list_fmap_compose. apply list_fmap_ext. intros i x _. cbn. f_equal. lia.
Qed.

Lemma block_inputs_count n d k : at_count k d ->
  let l := block_inputs n d in
  counter <$> l = counts k (length l) /\ at_count (k + Z.of_nat (length l)) (drbg_bytes n d).2.
Proof.
  revert d k. induction n as [|n IH]; intros d k Hd; cbn zeta.
  { cbn. by rewrite Z.add_0_r. }
  rewrite drbg_bytes_S. cbn [block_inputs]. apply next_byte_count in Hd as Hn. apply IH in Hn as [H1 H2].
  rewrite fmap_app, length_app, counts_app, Nat2Z.inj_add, Z.add_assoc, H1.
  destruct Hd as (st & Hl & E). destruct (64 <=? pos d)%nat; cbn [length fmap list_fmap] in *; [|by rewrite Z.add_0_r].
  rewrite E, counter_at by done. split; [|done]. cbn. by rewrite Z.add_0_r.
Qed.

(** Mixing the key leaves the counter. *)
Definition mix_key (extra : list Z) (st : list Z) : list Z :=
  alter (fun v => as_u32 (v + 1)) 14%nat
    (foldl (fun st '(i, x) => alter (fun v => Z.lxor v x) (4 + i)%nat st) st (imap pair (seed_words extra))).

Lemma mix_key_at extra st k : length st = 16%nat ->
  length (mix_key extra st) = 16%nat /\ mix_key extra (at_counter st k) = at_counter (mix_key extra st) k.
Proof. intros Hl. do 16 (destruct st as [|? st]; [done|]). by destruct st. Qed.

Lemma reseed_count k s w : at_count k (DRBG s) -> at_count k (DRBG (reseed s w).1).
Proof.
  intros (st & Hl & E). unfold reseed. destruct (collect_seed w) as [extra w']. exists (mix_key extra st).
  cbn [fst DRBG state]. rewrite E. destruct (mix_key_at extra st k Hl) as [H1 H2]. split; [done|exact H2].
Qed.

Lemma run_inputs_count ops s w k : DRBG_READY s = true -> at_count k (DRBG s) ->
  let l := run_inputs ops s w in counter <$> l = counts k (length l).
Proof.
  revert s w k. induction ops as [|[n|] ops IH]; intros s w k Hr Hc; cbn zeta; [done|..]; cbn [run_inputs].
  - unfold fill_bytes. rewrite Hr. cbn [negb]. destruct (block_inputs_count n (DRBG s) k Hc) as [H1 H2].
    destruct (drbg_bytes n (DRBG s)) as [l d]. cbn [snd] in H2.
    rewrite fmap_app, length_app, counts_app, H1. f_equal. by apply IH.
  - pose proof (reseed_count k s w Hc) as Hc'. destruct (reseed s w) as [s' w'] eqn:E.
    apply IH; [|done]. unfold reseed in E. destruct (collect_seed w) as [extra w'']. by injection E as <- _.
Qed.

Lemma counts_nodup k n : Z.of_nat n <= 2 ^ 64 -> NoDup (counts k n).
Proof.
  intros Hn. unfold counts. apply NoDup_fmap_2_strong; [|apply NoDup_seq]. intros i j Hi Hj E.
  apply elem_of_seq in Hi, Hj.
  assert ((Z.of_nat i - Z.of_nat j) mod 2 ^ 64 = 0) as E'.
  { replace (Z.of_nat i - Z.of_nat j) with ((k + Z.of_nat i) - (k + Z.of_nat j)) by lia.
    rewrite Zminus_mod, E, Z.sub_diag. done. }
  apply Z.mod_divide in E' as [q Hq]; [|lia]. nia.
Qed.

(** no block input is used twice.  After [init], over any sequence of requests
    and reseeds that needs at most 2^64 blocks, the states handed to the ChaCha20
    block function are pairwise different: the counter goes on across requests and
    reseeds and is never set back. *)
Theorem block_inputs_distinct (s0 s : csprng) (w0 w : W) ops :
  init s0 w0 = (s, w) -> Z.of_nat (length (run_inputs ops s w)) <= 2 ^ 64 -> NoDup (run_inputs ops s w).
Proof.
  unfold init. destruct (collect_seed w0) as [seed w1]. destruct (read_counter w1) as [t w2]. intros [= <- <-] Hn.
  apply (NoDup_fmap_1 counter). rewrite (run_inputs_count _ _ _ 0); [by apply counts_nodup|done|].
  eexists. by split; [|by apply (eq_refl (at_counter (SIGMA ++ seed_words seed ++ [0; 0] ++ [_; _]) 0))].
Qed.

End Requests.

(** A counter that ticks once per read and no RNDR. *)
#[export] Instance ticking : Entropy Z := {
  read_counter := fun t => (t, t + 1);
  id_aa64isar0 := 0;
  read_rndr := fun t => ((0, false), t);
  stack_pointer := fun _ => 0x40080000;
}.

(** Four blocks: two for 70 bytes, one after the reseed, one more for 70 bytes. *)
Lemma block_inputs_distinct_witness :
  let ops := [Fill 70; Reseed; Fill 10; Fill 70] in
  let s := (init csprng0 0).1 in let w := (init csprng0 0).2 in
  length (run_inputs ops s w) = 4%nat /\ NoDup (run_inputs ops s w).
Proof.
  intros ops s w. assert (length (run_inputs ops s w) = 4%nat) as E by (vm_compute; reflexivity).
  split; [exact E|]. apply (block_inputs_distinct csprng0 s 0 w); [apply surjective_pairing|]. rewrite E. lia.
Defined.

(** ** The rounds lose nothing *)

Lemma rotate_left_bit w x k n : 0 < k < w -> 0 <= x < 2 ^ w -> 0 <= n < w ->
  Z.testbit (rotate_left w x k) n = if n <? k then Z.testbit x (n + (w - k)) else Z.testbit x (n - k).
Proof.
  intros Hk Hx Hn. unfold rotate_left, wrap. rewrite (Z.mod_small k w), Z.lor_spec, Z.mod_pow2_bits_low, Z.shiftl_spec, Z.shiftr_spec by lia.
  destruct (Z.ltb_spec n k).
  - by rewrite (Z.testbit_neg_r x (n - k)) by lia.
  - by rewrite (testbit_high w x (n + (w - k))), orb_false_r by lia.
Qed.

Lemma rotate_left_inj w x y k : 0 < k < w -> 0 <= x < 2 ^ w -> 0 <= y < 2 ^ w ->
  rotate_left w x k = rotate_left w y k -> x = y.
Proof.
  intros Hk Hx Hy E. apply Z.bits_inj'. intros n Hn. destruct (Z.lt_ge_cases n w); [|by rewrite !(testbit_high w)].
  destruct (Z.lt_ge_cases n (w - k)).
  - apply (f_equal (fun z => Z.testbit z (n + k))) in E. rewrite !rotate_left_bit in E by lia.
    rewrite (proj2 (Z.ltb_ge _ _)) in E by lia. by replace (n + k - k) with n in E by lia.
  - apply (f_equal (fun z => Z.testbit z (n - (w - k)))) in E. rewrite !rotate_left_bit in E by lia.
    rewrite (proj2 (Z.ltb_lt _ _)) in E by lia. by replace (n - (w - k) + (w - k)) with n in E by lia.
Qed.

Lemma rotate_left_range w x k : 0 < k < w -> 0 <= x < 2 ^ w -> 0 <= rotate_left w x k < 2 ^ w.
Proof.
  intros Hk Hx. unfold rotate_left. assert (0 <= Z.shiftr x (w - k mod w)) by (apply Z.shiftr_nonneg; lia).
  pose proof (wrap_range w (Z.shiftl x (k mod w)) ltac:(lia)).
  split; [apply Z.lor_nonneg; lia|]. apply lt_pow2_by_bits; [lia|apply Z.lor_nonneg; lia|]. intros n Hn.
  rewrite Z.lor_spec, (testbit_high w) by lia. rewrite Z.shiftr_spec by lia. rewrite Z.mod_small by lia.
  apply (testbit_high w); lia.
Qed.

Lemma lxor_u32 a b : is_u32 a -> is_u32 b -> is_u32 (Z.lxor a b).
Proof.
  intros Ha Hb. assert (0 <= Z.lxor a b) by (apply Z.lxor_nonneg; unfold is_u32 in *; lia). split; [done|].
  apply lt_pow2_by_bits; [lia|done|]. intros n Hn. by rewrite Z.lxor_spec, !(testbit_high 32).
Qed.

Lemma lxor_inj a b c : Z.lxor a c = Z.lxor b c -> a = b.
Proof. intros E. apply (f_equal (fun z => Z.lxor z c)) in E. by rewrite !Z.lxor_assoc, Z.lxor_nilpotent, !Z.lxor_0_r in E. Qed.

Lemma add32_inj a b c : is_u32 a -> is_u32 b -> as_u32 (a + c) = as_u32 (b + c) -> a = b.
Proof.
  unfold is_u32, as_u32, wrap. intros Ha Hb E.
  assert ((a - b) mod 2 ^ 32 = 0) as E' by (replace (a - b) with (a + c - (b + c)) by lia; rewrite Zminus_mod, E, Z.sub_diag; done).
  apply Z.mod_divide in E' as [q Hq]; [|lia]. nia.
Qed.

(** The quarter round on four words. *)
Definition qr4 (a b c d : Z) : Z * Z * Z * Z :=
  let a1 := as_u32 (a + b) in let d1 := rotate_left 32 (Z.lxor d a1) 16 in
  let c1 := as_u32 (c + d1) in let b1 := rotate_left 32 (Z.lxor b c1) 12 in
  let a2 := as_u32 (a1 + b1) in let d2 := rotate_left 32 (Z.lxor d1 a2) 8 in
  let c2 := as_u32 (c1 + d2) in let b2 := rotate_left 32 (Z.lxor b1 c2) 7 in
  (a2, b2, c2, d2).

Lemma rot_u32 x y k : 0 < k < 32 -> is_u32 x -> is_u32 y -> is_u32 (rotate_left 32 (Z.lxor x y) k).
Proof. intros Hk Hx Hy. apply rotate_left_range; [done|by apply lxor_u32]. Qed.

Lemma rot_inj x y x' k : 0 < k < 32 -> is_u32 x -> is_u32 x' -> is_u32 y ->
  rotate_left 32 (Z.lxor x y) k = rotate_left 32 (Z.lxor x' y) k -> x = x'.
Proof.
  intros Hk Hx Hx' Hy E. apply rotate_left_inj in E; [by apply lxor_inj in E|done|by apply lxor_u32..].
Qed.

Create HintDb u32.
#[local] Hint Resolve as_u32_range rot_u32 : u32.
#[local] Hint Extern 1 (_ < _ < _) => lia : u32.

Lemma qr4_inj a b c d a' b' c' d' : is_u32 a -> is_u32 b -> is_u32 c -> is_u32 d ->
  is_u32 a' -> is_u32 b' -> is_u32 c' -> is_u32 d' ->
  qr4 a b c d = qr4 a' b' c' d' -> (a, b, c, d) = (a', b', c', d').
Proof.
  intros Ha Hb Hc Hd Ha' Hb' Hc' Hd' E. unfold qr4 in E. cbv zeta in E. injection E as E1 E2 E3 E4.
  rewrite <- E3 in E2. apply rot_inj in E2; [|auto 10 with u32..].
  rewrite <- E4 in E3. apply add32_inj in E3; [|auto 10 with u32..].
  rewrite <- E1 in E4. apply rot_inj in E4; [|auto 10 with u32..].
  rewrite <- E2 in E1. apply add32_inj in E1; [|auto 10 with u32..].
  rewrite <- E3 in E2. apply rot_inj in E2; [|auto 10 with u32..].
  rewrite <- E4 in E3. apply add32_inj in E3; [|auto 10 with u32..].
  rewrite <- E1 in E4. apply rot_inj in E4; [|auto 10 with u32..]. subst.
  apply add32_inj in E1; [|auto 10 with u32..]. by subst.
Qed.

Lemma word_same x i v : (i < length x)%nat -> word (<[i := v]> x) i = v.
Proof. intros Hi. unfold word. apply nth_lookup_Some. by apply list_lookup_insert_eq. Qed.

Lemma word_other x i j v : i <> j -> word (<[i := v]> x) j = word x j.
Proof. intros Hi. unfold word. rewrite !nth_lookup. by rewrite list_lookup_insert_ne. Qed.

Lemma words_ext x y : length x = length y -> (forall j, word x j = word y j) -> x = y.
Proof.
  intros Hl E. apply (nth_ext _ _ 0 0 Hl). intros j _. apply E.
Qed.

(** A quarter round is four steps of the form [a += b; d ^= a; d <<<= k]. *)
Definition half (x : list Z) (a b d : nat) (k : Z) : list Z :=
  let x := <[a := as_u32 (word x a + word x b)]> x in
  let x := <[d := Z.lxor (word x d) (word x a)]> x in
  <[d := rotate_left 32 (word x d) k]> x.

Lemma half_words x a b d k : a <> b -> a <> d -> (a < length x)%nat -> (d < length x)%nat ->
  let q := half x a b d k in
  word q a = as_u32 (word x a + word x b) /\ word q d = rotate_left 32 (Z.lxor (word x d) (word q a)) k /\
  (forall j, j <> a -> j <> d -> word q j = word x j) /\ length q = length x.
Proof.
  intros Hab Had Ha Hd q. subst q. unfold half. cbv zeta. split_and!.
  - by rewrite !word_other, word_same by done.
  - rewrite !word_same by (rewrite ?length_insert; done). rewrite !(word_other _ d a), !(word_other _ a d), word_same by done.
    done.
  - intros j Hja Hjd. by rewrite !word_other by done.
  - by rewrite !length_insert.
Qed.

Lemma qr_half x a b c d : qr x a b c d = half (half (half (half x a b d 16) c d b 12) a b d 8) c d b 7.
Proof. unfold qr, half. cbv zeta. reflexivity. Qed.

Definition state_wf (x : list Z) : Prop := length x = 16%nat /\ Forall is_u32 x.

Lemma words_u32 x : Forall is_u32 x <-> forall j, is_u32 (word x j).
Proof.
  unfold word. split.
  - intros Hx j. destruct (nth_in_or_default j x 0) as [Hi| ->]; [|unfold is_u32; lia].
    by apply (proj1 (List.Forall_forall _ _) Hx).
  - intros Hj. apply List.Forall_forall. intros v (j & _ & <-)%(In_nth _ _ 0). apply Hj.
Qed.

Section Quarter.
Context (a b c d : nat) (Hd : NoDup [a; b; c; d]).

(** The quarter round changes four words, as [qr4] says. *)
Lemma qr_words x : (a < length x)%nat -> (b < length x)%nat -> (c < length x)%nat -> (d < length x)%nat ->
  let q := qr x a b c d in
  (word q a, word q b, word q c, word q d) = qr4 (word x a) (word x b) (word x c) (word x d) /\
  length q = length x /\ forall j, j ∉ [a; b; c; d] -> word q j = word x j.
Proof.
  intros Ha Hb Hc Hdl q. assert (a <> b /\ a <> c /\ a <> d /\ b <> c /\ b <> d /\ c <> d) as (? & ? & ? & ? & ? & ?).
  { rewrite !NoDup_cons, !not_elem_of_cons in Hd. destruct Hd as ((? & ? & ? & _) & (? & ? & _) & (? & _) & _). done. }
  unfold q. clear q. rewrite qr_half.
  destruct (half_words x a b d 16) as (Ea1 & Ed1 & O1 & L1); [done..|].
  destruct (half_words (half x a b d 16) c d b 12) as (Ec1 & Eb1 & O2 & L2); [done || lia..|].
  set (x2 := half (half x a b d 16) c d b 12) in *.
  destruct (half_words x2 a b d 8) as (Ea2 & Ed2 & O3 & L3); [done || lia..|].
  destruct (half_words (half x2 a b d 8) c d b 7) as (Ec2 & Eb2 & O4 & L4); [done || lia..|].
  set (x4 := half (half x2 a b d 8) c d b 7) in *. split; [|split; [lia|]].
  - unfold qr4. cbv zeta. rewrite (O4 a), (O4 d), Eb2, Ec2, (O3 c), (O3 b), Ed2, Ea2, (O2 a), (O2 d), Eb1, Ec1, (O1 c), (O1 b), Ed1, Ea1 by done.
    done.
  - intros j Hj. rewrite !not_elem_of_cons in Hj. destruct Hj as (? & ? & ? & ? & _). by rewrite O4, O3, O2, O1.
Qed.

(** ** States of sixteen words *)

Hypothesis Hr : (a < 16 /\ b < 16 /\ c < 16 /\ d < 16)%nat.

Lemma qr_wf x : state_wf x -> state_wf (qr x a b c d).
Proof.
  intros [Hl Hx]. destruct (qr_words x) as (E & L & O); [lia..|]. split; [lia|]. apply words_u32. intros j.
  pose proof (proj1 (words_u32 x) Hx) as Hw. unfold qr4 in E. cbv zeta in E. injection E as E1 E2 E3 E4.
  destruct (decide (j ∈ [a; b; c; d])) as [Hj|Hj]; [|by rewrite O].
  rewrite !elem_of_cons, elem_of_nil in Hj.
  destruct Hj as [->|[->|[->|[->|[]]]]]; [rewrite E1|rewrite E2|rewrite E3|rewrite E4]; auto 10 with u32.
Qed.

Lemma qr_inj x y : state_wf x -> state_wf y -> qr x a b c d = qr y a b c d -> x = y.
Proof.
  intros [Hlx Hx] [Hly Hy] E. destruct (qr_words x) as (Ex & _ & Ox); [lia..|].
  destruct (qr_words y) as (Ey & _ & Oy); [lia..|].
  pose proof (proj1 (words_u32 x) Hx) as Hwx. pose proof (proj1 (words_u32 y) Hy) as Hwy.
  rewrite E, Ey in Ex. apply qr4_inj in Ex as [= E1 E2 E3 E4]; [|done..].
  apply words_ext; [lia|]. intros j. destruct (decide (j ∈ [a; b; c; d])) as [Hj|Hj].
  - rewrite !elem_of_cons, elem_of_nil in Hj. by destruct Hj as [->|[->|[->|[->|[]]]]].
  - by rewrite <- Ox, <- Oy, E.
Qed.
End Quarter.

Ltac quarter_side := first [lia|apply (bool_decide_unpack _); vm_compute; exact I].

Lemma double_round_wf x : state_wf x -> state_wf (double_round x).
Proof. intros Hx. unfold double_round. cbv zeta. do 8 (apply qr_wf; [quarter_side..|]). done. Qed.

Lemma double_round_inj x y : state_wf x -> state_wf y -> double_round x = double_round y -> x = y.
Proof.
  intros Hx Hy. unfold double_round. cbv zeta. intros E.
  do 8 (apply qr_inj in E; [|quarter_side|quarter_side|repeat (apply qr_wf; [quarter_side..|]); done|repeat (apply qr_wf; [quarter_side..|]); done]).
  done.
Qed.

Lemma rounds_wf n x : state_wf x -> state_wf (Nat.iter n double_round x).
Proof. intros Hx. induction n as [|n IH]; [done|]. by apply double_round_wf. Qed.

#[local] Opaque double_round.

(** the rounds lose nothing.  On states of sixteen 32-bit words the rounds of
    the block function, ten times the column and diagonal rounds, are injective:
    no two states, so no two keys, counters or nonces, are merged by them. *)
Theorem rounds_injective x y : state_wf x -> state_wf y ->
  Nat.iter 10 double_round x = Nat.iter 10 double_round y -> x = y.
Proof.
  intros Hx Hy. generalize 10%nat as n. intros n. induction n as [|n IH]; [done|]. cbn [Nat.iter]. intros E.
  apply IH, double_round_inj; [by apply rounds_wf..|exact E].
Qed.

Lemma rounds_injective_witness : Nat.iter 10 double_round (replicate 16 1) <> Nat.iter 10 double_round (replicate 16 2).
Proof.
  intros E. apply rounds_injective in E; [discriminate|..];
    (split; [reflexivity|]; apply Forall_replicate; unfold is_u32; lia).
Defined.

(** The test vector of RFC 8439, section 2.3.2. *)
Lemma rfc8439_block :
  chacha20_block (SIGMA ++ [0x03020100; 0x07060504; 0x0b0a0908; 0x0f0e0d0c; 0x13121110; 0x17161514; 0x1b1a1918; 0x1f1e1d1c]
    ++ [1; 0x09000000; 0x4a000000; 0]) =
  [0x10; 0xf1; 0xe7; 0xe4; 0xd1; 0x3b; 0x59; 0x15; 0x50; 0x0f; 0xdd; 0x1f; 0xa3; 0x20; 0x71; 0xc4;
   0xc7; 0xd1; 0xf4; 0xc7; 0x33; 0xc0; 0x68; 0x03; 0x04; 0x22; 0xaa; 0x9a; 0xc3; 0xd4; 0x6c; 0x4e;
   0xd2; 0x82; 0x64; 0x46; 0x07; 0x9f; 0xaa; 0x09; 0x14; 0xc2; 0xd7; 0x05; 0xd9; 0x8b; 0x02; 0xa2;
   0xb5; 0x12; 0x9c; 0xd1; 0xde; 0x16; 0x4e; 0xb9; 0xcb; 0xd0; 0x83; 0xe8; 0xa2; 0x50; 0x3c; 0x4e].
Proof. vm_compute. reflexivity. Qed.
