(* ===== verification/Sector.v ===== *)
(** * Sectors and the sector cache

    The block device below fs/fat32.rs (drivers/virtio.rs completes a request or
    panics; a device that completes every request is assumed), the interface through which the file
    system reaches sectors, the direct-mapped write-through cache of fat32.rs
    as one implementation of it and the device itself as the other. *)

From stdpp Require Import base numbers list gmap.
From Stdlib Require Import ZArith Lia.
From S2P Require Import Prelude.

(** ** Computations *)

(** A value, a kernel panic, or no answer. *)
Inductive fout (A : Type) := Got (a : A) | Crashed | Stuck.
Arguments Got {A}.
Arguments Crashed {A}.
Arguments Stuck {A}.

#[export] Instance fout_ret : MRet fout := fun A a => Got a.
#[export] Instance fout_bind : MBind fout := fun A B f m =>
  match m with Got a => f a | Crashed => Crashed | Stuck => Stuck end.

(** Computations on a state [S]. *)
Definition SM (S A : Type) : Type := S -> fout (A * S).
#[export] Instance SM_ret S : MRet (SM S) := fun A a s => Got (a, s).
#[export] Instance SM_bind S : MBind (SM S) := fun A B f m s =>
  match m s with Got (a, s') => f a s' | Crashed => Crashed | Stuck => Stuck end.
Definition lift_f {S A} (m : fout A) : SM S A := fun s => match m with Got a => Got (a, s) | Crashed => Crashed | Stuck => Stuck end.
Definition crash_s {S A} : SM S A := fun _ => Crashed.
Definition stuck_s {S A} : SM S A := fun _ => Stuck.

(** ** The device *)

(** [virtio::read_block] and [virtio::write_block]. *)
Class BlockDevice (D : Type) := {
  read_block : D -> Z -> list Z;
  write_block : D -> Z -> list Z -> D;
}.

Definition SECTOR_SIZE : nat := 512.

(** A read returns the sector last written there. *)
Class BlockDeviceSpec (D : Type) `{!BlockDevice D} := {
  read_block_length d lba : length (read_block d lba) = SECTOR_SIZE;
  read_write_same d lba s : length s = SECTOR_SIZE -> read_block (write_block d lba s) lba = s;
  read_write_other d lba lba' s : lba <> lba' -> read_block (write_block d lba s) lba' = read_block d lba';
}.

(** A disk as a finite map, unwritten sectors being zero. *)
Definition zeros : list Z := replicate SECTOR_SIZE 0.
Definition full_sector (s : list Z) : list Z := take SECTOR_SIZE (s ++ zeros).

#[export] Instance map_disk : BlockDevice (gmap Z (list Z)) := {
  read_block := fun d lba => full_sector (default [] (d !! lba));
  write_block := fun d lba s => <[lba := s]> d;
}.

#[export] Instance map_disk_spec : BlockDeviceSpec (gmap Z (list Z)).
Proof.
  split; cbn [read_block write_block map_disk].
  - intros d lba. unfold full_sector, zeros. rewrite length_take, length_app, length_replicate. lia.
  - intros d lba s Hs. rewrite lookup_insert_eq. change (default [] (Some s)) with s. unfold full_sector. by rewrite take_app_le, take_ge by lia.
  - intros d lba lba' s Hne. by rewrite lookup_insert_ne.
Qed.

(** ** The interface of the file system *)

(** [b[off .. off + data.len()].copy_from_slice(data)] *)
Definition splice (off : nat) (data b : list Z) : list Z := take off b ++ data ++ drop (off + length data) b.

(** [csec], [wsec], the read-modify-write of part of a sector, which panics when
    the part is not inside the sector, and the zeroing of a sector of a new cluster. *)
Class Sectors (C : Type) := {
  s_read : Z -> C -> fout (list Z * C);
  s_write : Z -> list Z -> C -> fout C;
  s_patch : Z -> nat -> list Z -> C -> fout C;
  s_zero : Z -> C -> fout C;
}.

(** ** The cache *)

Definition CACHE_SLOTS : Z := 16.
(** The tag of an empty slot. *)
Definition NO_LBA : Z := u64_max.

Record cache (D : Type) := mk_cache { CTAG : list Z; CDATA : list (list Z); dev : D }.
Arguments mk_cache {D}.
Arguments CTAG {D}.
Arguments CDATA {D}.
Arguments dev {D}.

Definition slot (lba : Z) : nat := Z.to_nat (lba mod CACHE_SLOTS).

Section Cache.
Context {D : Type} `{!BlockDevice D}.

Definition tag_at (c : cache D) (s : nat) : Z := nth s (CTAG c) 0.
Definition data_at (c : cache D) (s : nat) : list Z := nth s (CDATA c) [].

(** A slot takes [data] of sector [lba]. *)
Definition fill_slot (lba : Z) (data : list Z) (c : cache D) : cache D :=
  mk_cache (<[slot lba := lba]> (CTAG c)) (<[slot lba := data]> (CDATA c)) (dev c).

Definition csec (lba : Z) (c : cache D) : list Z * cache D :=
  let s := slot lba in
  let c := if tag_at c s =? lba then c else fill_slot lba (read_block (dev c) lba) c in
  (data_at c s, c).

Definition disk_write (lba : Z) (data : list Z) (c : cache D) : cache D :=
  mk_cache (CTAG c) (CDATA c) (write_block (dev c) lba data).

Definition wsec (lba : Z) (data : list Z) (c : cache D) : cache D :=
  let data := splice 0 (take SECTOR_SIZE data) (data_at c (slot lba)) in
  disk_write lba data (fill_slot lba data c).

Definition cinval (lba : Z) (c : cache D) : cache D :=
  let s := slot lba in
  if tag_at c s =? lba then mk_cache (<[s := NO_LBA]> (CTAG c)) (CDATA c) (dev c) else c.

(** Load the sector, change part of the cached copy, write it through. *)
Definition patch_sec (lba : Z) (off : nat) (data : list Z) (c : cache D) : cache D :=
  let '(sec, c) := csec lba c in
  let sec := splice off data sec in
  disk_write lba sec (fill_slot lba sec c).

(** Zero a sector on disk and drop it from the cache. *)
Definition zero_sec (lba : Z) (c : cache D) : cache D := cinval lba (disk_write lba zeros c).

#[export] Instance cached : Sectors (cache D) := {
  s_read := fun lba c => Got (csec lba c);
  s_write := fun lba data c => Got (wsec lba data c);
  s_patch := fun lba off data c =>
    if (off + length data <=? SECTOR_SIZE)%nat then Got (patch_sec lba off data c) else Crashed;
  s_zero := fun lba c => Got (zero_sec lba c);
}.

(** The cache at boot. *)
Definition cache0 (d : D) : cache D :=
  mk_cache (replicate 16 NO_LBA) (replicate 16 zeros) d.

End Cache.

(** ** The device without a cache

    The reference: every access goes to the disk.  The sector number that marks an
    empty slot is not an address. *)
Record direct (D : Type) := mk_direct { disk : D }.
Arguments mk_direct {D}.
Arguments disk {D}.

Section Direct.
Context {D : Type} `{!BlockDevice D}.

Definition on_disk {A} (lba : Z) (a : A) : fout A := if lba =? NO_LBA then Stuck else Got a.

#[export] Instance uncached : Sectors (direct D) := {
  s_read := fun lba c => on_disk lba (read_block (disk c) lba, c);
  s_write := fun lba data c =>
    if (length data =? SECTOR_SIZE)%nat then on_disk lba (mk_direct (write_block (disk c) lba data)) else Stuck;
  s_patch := fun lba off data c =>
    if (off + length data <=? SECTOR_SIZE)%nat
    then on_disk lba (mk_direct (write_block (disk c) lba (splice off data (read_block (disk c) lba)))) else Crashed;
  s_zero := fun lba c => on_disk lba (mk_direct (write_block (disk c) lba zeros));
}.

End Direct.

(** ** Coherence *)

Section Coherence.
Context {D : Type} `{!BlockDevice D} `{!BlockDeviceSpec D}.

(** Every tagged slot holds what the disk holds. *)
Record coherent (c : cache D) : Prop := {
  co_tags : length (CTAG c) = 16%nat;
  co_slots : length (CDATA c) = 16%nat;
  co_sizes : forall s, (s < 16)%nat -> length (data_at c s) = SECTOR_SIZE;
  co_data : forall s, (s < 16)%nat -> tag_at c s <> NO_LBA -> data_at c s = read_block (dev c) (tag_at c s);
  co_place : forall s, (s < 16)%nat -> tag_at c s <> NO_LBA -> slot (tag_at c s) = s;
}.

Lemma slot_lt lba : (slot lba < 16)%nat.
Proof. unfold slot, CACHE_SLOTS. pose proof (Z.mod_pos_bound lba 16). lia. Qed.

Lemma nth_insert {A} (l : list A) i j a d : (i < length l)%nat ->
  nth j (<[i := a]> l) d = if decide (i = j) then a else nth j l d.
Proof.
  intros Hi. rewrite !nth_lookup. case_decide as E; [subst; by rewrite list_lookup_insert_eq|].
  by rewrite list_lookup_insert_ne.
Qed.

Lemma nth_replicate {A} n i (a d : A) : (i < n)%nat -> nth i (replicate n a) d = a.
Proof. intros Hi. rewrite nth_lookup, lookup_replicate_2; done. Qed.

Lemma length_splice off data b : (off + length data <= length b)%nat -> length (splice off data b) = length b.
Proof. intros Hl. unfold splice. rewrite !length_app, length_take, length_drop. lia. Qed.

Lemma coherent0 d : coherent (cache0 d).
Proof.
  split; try done; unfold tag_at, data_at; cbn [cache0 CTAG CDATA dev]; intros s Hs.
  - by rewrite nth_replicate.
  - intros Hn. by rewrite nth_replicate in Hn.
  - intros Hn. by rewrite nth_replicate in Hn.
Qed.

(** A slot filled with what the disk then holds. *)
Lemma coherent_fill lba data c d : coherent c -> lba <> NO_LBA -> length data = SECTOR_SIZE ->
  read_block d lba = data -> (forall lba', lba' <> lba -> read_block d lba' = read_block (dev c) lba') ->
  coherent (mk_cache (<[slot lba := lba]> (CTAG c)) (<[slot lba := data]> (CDATA c)) d).
Proof.
  intros [H1 H2 H3 H4 H5] Hne Hl Hd Hk. pose proof (slot_lt lba).
  split; unfold tag_at, data_at in *; cbn [CTAG CDATA dev]; rewrite ?length_insert; try done;
    intros s Hs; rewrite !nth_insert by lia; case_decide as E; auto.
  intros Ht. rewrite H4 by done. symmetry. apply Hk. intros E'. apply E. rewrite <- E'. by apply H5.
Qed.

Lemma csec_coherent lba c : coherent c -> lba <> NO_LBA ->
  exists c', csec lba c = (read_block (dev c) lba, c') /\ coherent c' /\ dev c' = dev c /\
    tag_at c' (slot lba) = lba /\ data_at c' (slot lba) = read_block (dev c) lba.
Proof.
  intros Hc Hne. pose proof (slot_lt lba). unfold csec. destruct (Z.eqb_spec (tag_at c (slot lba)) lba) as [E|E].
  - exists c. destruct Hc as [H1 H2 H3 H4 H5]. rewrite (H4 (slot lba)), E by (done || congruence).
    by split_and!.
  - exists (fill_slot lba (read_block (dev c) lba) c). unfold fill_slot.
    assert (Ht : tag_at (fill_slot lba (read_block (dev c) lba) c) (slot lba) = lba).
    { unfold tag_at, fill_slot. cbn [CTAG]. rewrite nth_insert, decide_True; [done..|rewrite co_tags; done]. }
    assert (Hd : data_at (fill_slot lba (read_block (dev c) lba) c) (slot lba) = read_block (dev c) lba).
    { unfold data_at, fill_slot. cbn [CDATA]. rewrite nth_insert, decide_True; [done..|rewrite co_slots; done]. }
    unfold fill_slot in *. rewrite Hd. split_and!; try done.
    apply coherent_fill; [done|done|apply read_block_length|done|done].
Qed.

(** The cache stands for the disk behind it. *)
Definition stands_for (c : cache D) (d : direct D) : Prop := coherent c /\ dev c = disk d.

Lemma stands_for_write lba data c : coherent c -> lba <> NO_LBA -> length data = SECTOR_SIZE ->
  stands_for (disk_write lba data (fill_slot lba data c)) (mk_direct (write_block (dev c) lba data)).
Proof.
  intros Hc Hne Hl. split; [|done]. apply coherent_fill; [done..|by apply read_write_same|].
  intros lba' Hn. by apply read_write_other.
Qed.

Lemma coherent_zero lba c : coherent c -> coherent (zero_sec lba c).
Proof.
  intros [H1 H2 H3 H4 H5]. pose proof (slot_lt lba). unfold zero_sec, cinval, disk_write. cbn [tag_at CTAG].
  change (tag_at _ (slot lba)) with (tag_at c (slot lba)).
  destruct (Z.eqb_spec (tag_at c (slot lba)) lba) as [E|E];
    split; unfold tag_at, data_at in *; cbn [CTAG CDATA dev]; rewrite ?length_insert; try done; intros s Hs.
  - rewrite nth_insert by lia. case_decide as Es; [done|]. intros Hn. rewrite H4, read_write_other; [done| |done..].
    intros ->. apply Es. by apply H5.
  - rewrite nth_insert by lia. case_decide as Es; [done|]. by apply H5.
  - intros Hn. rewrite H4, read_write_other; [done| |done..]. intros E'. apply E.
    assert (slot lba = s) as -> by (rewrite E'; by apply H5). done.
Qed.

Lemma read_stands lba c d : stands_for c d -> lba <> NO_LBA ->
  exists c', csec lba c = (read_block (disk d) lba, c') /\ stands_for c' d.
Proof.
  intros [Hc E] Hn. destruct (csec_coherent lba c Hc Hn) as (c' & -> & Hc' & Hd & _). exists c'.
  split; [by rewrite E|]. split; [done|congruence].
Qed.

Lemma patch_stands lba off data c d : stands_for c d -> lba <> NO_LBA -> (off + length data <= SECTOR_SIZE)%nat ->
  stands_for (patch_sec lba off data c) (mk_direct (write_block (disk d) lba (splice off data (read_block (disk d) lba)))).
Proof.
  intros [Hc E] Hn Hl. unfold patch_sec. destruct (csec_coherent lba c Hc Hn) as (c' & -> & Hc' & Hd & _).
  rewrite <- E, <- Hd. apply stands_for_write; [done..|]. by rewrite length_splice; rewrite read_block_length.
Qed.

Lemma write_stands lba data c d : stands_for c d -> lba <> NO_LBA -> length data = SECTOR_SIZE ->
  stands_for (wsec lba data c) (mk_direct (write_block (disk d) lba data)).
Proof.
  intros [Hc E] Hn Hl. unfold wsec.
  assert (splice 0 (take SECTOR_SIZE data) (data_at c (slot lba)) = data) as ->.
  { unfold splice. rewrite take_0, (take_ge data) by lia. cbn [app plus].
    rewrite drop_ge by (rewrite (co_sizes _ Hc) by apply slot_lt; lia). apply app_nil_r. }
  rewrite <- E. by apply stands_for_write.
Qed.

Lemma zero_stands lba c d : stands_for c d ->
  stands_for (zero_sec lba c) (mk_direct (write_block (disk d) lba zeros)).
Proof.
  intros [Hc E]. split; [by apply coherent_zero|]. rewrite <- E. unfold zero_sec, cinval. by destruct (_ =? _).
Qed.

End Coherence.
