(* ===== verification/Text.v ===== *)
(** * Byte strings

    Literals, indexing and slicing with the panics of the language, and searches. *)

From stdpp Require Import base numbers list strings.
From Stdlib Require Import ZArith Lia Bool Ascii.
From S2P Require Import Prelude Sector.

(** The bytes of a literal. *)
Fixpoint lit (s : string) : list Z :=
  match s with EmptyString => [] | String c s' => Z.of_nat (nat_of_ascii c) :: lit s' end.

(** [l[i]] and [&l[a..b]]. *)
Definition at_idx {A} (l : list A) (i : nat) : fout A := match l !! i with Some b => Got b | None => Crashed end.
Definition byte_at : list Z -> nat -> fout Z := at_idx.
Definition subslice (l : list Z) (a b : nat) : fout (list Z) :=
  if (a <=? b)%nat && (b <=? length l)%nat then Got (take (b - a) (drop a l)) else Crashed.

Definition is_digit (b : Z) : bool := (48 <=? b) && (b <=? 57).
Definition to_ascii_lowercase (b : Z) : Z := if (65 <=? b) && (b <=? 90) then b + 32 else b.

(** [l.iter().position(|&b| b == c)] *)
Fixpoint find_byte (c : Z) (l : list Z) : option nat :=
  match l with [] => None | b :: l' => if b =? c then Some O else S <$> find_byte c l' end.

(** [a.eq_ignore_ascii_case(b)] *)
Definition ascii_eq_ci (a b : list Z) : bool :=
  (length a =? length b)%nat && forallb (fun p => to_ascii_lowercase p.1 =? to_ascii_lowercase p.2) (zip a b).

(** [l.starts_with(p)] *)
Definition has_prefix (p l : list Z) : bool := bool_decide (take (length p) l = p).

(** Without a carriage return at the end. *)
Definition strip_cr (l : list Z) : list Z := if bool_decide (last l = Some 13) then take (length l - 1) l else l.

(** ** Lemmas *)

Lemma at_idx_some {A} (l : list A) i : (i < length l)%nat -> exists b, at_idx l i = Got b.
Proof. intros H. unfold at_idx. destruct (lookup_lt_is_Some_2 l i H) as [b ->]. eauto. Qed.

Lemma byte_at_some l i : (i < length l)%nat -> exists b, byte_at l i = Got b.
Proof. apply at_idx_some. Qed.

Lemma subslice_some l a b : (a <= b <= length l)%nat -> subslice l a b = Got (take (b - a) (drop a l)).
Proof. intros H. unfold subslice. by rewrite (proj2 (Nat.leb_le a b)), (proj2 (Nat.leb_le b (length l))) by lia. Qed.

Definition lower (l : list Z) : list Z := to_ascii_lowercase <$> l.

Lemma ascii_eq_ci_lower a b : ascii_eq_ci a b = true <-> lower a = lower b.
Proof.
  unfold ascii_eq_ci, lower. revert b. induction a as [|x a IH]; intros [|y b]; try done. cbn [length zip zip_with forallb fst snd fmap list_fmap].
  specialize (IH b). rewrite andb_true_iff in IH. rewrite !andb_true_iff, Nat.eqb_eq, Z.eqb_eq in *. cbn in *. split.
  - intros (E & Hx & Hr). f_equal; [done|]. apply IH. split; [lia|done].
  - intros [= Hx Hr]. apply IH in Hr as [? ?]. split_and!; [lia|done|done].
Qed.

Lemma find_byte_spec c h k : find_byte c h = Some k -> exists a r, h = a ++ c :: r /\ (c ∉ a) /\ k = length a.
Proof.
  revert k. induction h as [|b h IH]; intros k; cbn; [done|]. destruct (Z.eqb_spec b c) as [->|Hb]; [intros [= <-]; exists [], h; split_and!; [done|apply not_elem_of_nil|done]|].
  destruct (find_byte c h) as [j|]; cbn; [|done]. intros [= <-]. destruct (IH j eq_refl) as (a & r & -> & Hl & ->). exists (b :: a), r.
  split_and!; [done| |done]. apply not_elem_of_cons. split; [congruence|done].
Qed.

Lemma find_byte_app c a r : c ∉ a -> find_byte c (a ++ c :: r) = Some (length a).
Proof.
  induction a as [|b l IH]; [cbn; by rewrite Z.eqb_refl|]. intros [Hb Hl]%not_elem_of_cons. cbn. destruct (Z.eqb_spec b c); [congruence|]. by rewrite IH.
Qed.

Lemma find_byte_none c l : c ∉ l -> find_byte c l = None.
Proof. induction l as [|b l IH]; [done|]. intros [Hb Hl]%not_elem_of_cons. cbn. destruct (Z.eqb_spec b c); [congruence|]. by rewrite IH. Qed.

Lemma has_prefix_app p l : has_prefix p (p ++ l) = true.
Proof. unfold has_prefix. apply bool_decide_eq_true_2. apply take_app_length. Qed.

(** ** Computations that end *)

Definition total {A} (m : fout A) : Prop := exists a, m = Got a.

Lemma total_ret {A} (a : A) : total (mret a).
Proof. by exists a. Qed.

Lemma total_bind {A B} (m : fout A) (k : A -> fout B) : total m -> (forall a, m = Got a -> total (k a)) -> total (m ≫= k).
Proof. intros [a ->] H. by apply H. Qed.
