(* ===== verification/Fat.v ===== *)
(** * The FAT32 file system

    fs/fat32.rs over the interface [Sectors].  Every operation of the driver is
    a computation on [fatfs]: the volume geometry, the allocation hint, the table
    of open files and the sector store.  Sectors are lists of 512 bytes; every
    index the driver uses into one is below 512.  Loops over cluster chains take
    [rounds] and are [Stuck] when these end.  Console messages are left out. *)

From stdpp Require Import base numbers list.
From Stdlib Require Import ZArith Lia.
From S2P Require Import Prelude Sector.

(** ** Constants *)

Definition MAX_OPEN : nat := 8.
Definition ATTR_VOLUME_ID : Z := 0x08.
Definition ATTR_DIRECTORY : Z := 0x10.
Definition ATTR_ARCHIVE : Z := 0x20.
(** [ATTR_READ_ONLY | ATTR_HIDDEN | ATTR_SYSTEM | ATTR_VOLUME_ID] *)
Definition ATTR_LONG_NAME : Z := 0x0F.
Definition FAT_EOC_MIN : Z := 0x0FFFFFF8.
Definition FAT_FREE : Z := 0.
Definition FAT_MASK : Z := 0x0FFFFFFF.

(** ** State *)

(** The statics set by [init]. *)
Record volume := mk_volume {
  READY : bool;
  PART_LBA : Z;
  BYTES_PER_SEC : Z;
  SECS_PER_CLUSTER : Z;
  FAT_START : Z;
  DATA_START : Z;
  ROOT_CLUSTER : Z;
  TOTAL_CLUSTERS : Z;
}.

Definition volume0 : volume := mk_volume false 0 512 1 0 0 2 0.

Record OpenFile := mk_file {
  used : bool;
  writable : bool;
  fsize : Z;
  start_cluster : Z;
  cur_cluster : Z;
  cur_clus_idx : Z;
  offset : Z;
  dir_lba : Z;
  dir_entry_off : nat;
}.

Definition EMPTY_FILE : OpenFile := mk_file false false 0 0 0 0 0 0 0.

Record fatfs (C : Type) := mk_fat {
  vol : volume;
  FREE_HINT : Z;
  OPEN_FILES : list OpenFile;
  store : C;
}.
Arguments mk_fat {C}.
Arguments vol {C}.
Arguments FREE_HINT {C}.
Arguments OPEN_FILES {C}.
Arguments store {C}.

Definition fat0 {C} (c : C) : fatfs C := mk_fat volume0 3 (replicate MAX_OPEN EMPTY_FILE) c.

(** ** Bytes and names *)

(** [u8at], [u16at], [u32at] *)
Definition u8at (b : list Z) (o : nat) : Z := nth o b 0.
Definition u16at (b : list Z) (o : nat) : Z := le_bytes (take 2 (drop o b)).
Definition u32at (b : list Z) (o : nat) : Z := le_bytes (take 4 (drop o b)).

Definition is_eoc (v : Z) : bool := (FAT_EOC_MIN <=? Z.land v FAT_MASK) || (Z.land v FAT_MASK =? 0).

Definition to_ascii_lowercase (b : Z) : Z := if (65 <=? b) && (b <=? 90) then b + 32 else b.
Definition to_ascii_uppercase (b : Z) : Z := if (97 <=? b) && (b <=? 122) then b - 32 else b.

(** [while n > 0 && raw[n - 1] == b' ' { n -= 1; }], the bytes left *)
Fixpoint trim_spaces (l : list Z) : list Z :=
  match l with
  | [] => []
  | b :: l' => match trim_spaces l' with
               | [] => if b =? 32 then [] else [b]
               | t => b :: t
               end
  end.

Definition short_name (raw : list Z) : list Z :=
  let name := to_ascii_lowercase <$> trim_spaces (take 8 raw) in
  match trim_spaces (take 3 (drop 8 raw)) with
  | [] => name
  | ext => name ++ 46 :: (to_ascii_lowercase <$> ext)
  end.

Definition lfn_POS : list nat := [1; 3; 5; 7; 9; 14; 16; 18; 20; 22; 24; 28; 30]%nat.

(** The loop of [lfn_chars]: the buffer and the number of characters written. *)
Fixpoint lfn_chars (ps : list nat) (ent buf : list Z) (off n : nat) : list Z * nat :=
  match ps with
  | [] => (buf, n)
  | p :: ps' =>
      let lo := u8at ent p in
      let hi := u8at ent (S p) in
      if (lo =? 0xFF) && (hi =? 0xFF) then (buf, n)
      else if (lo =? 0) && (hi =? 0) then (buf, n)
      else
        let pos := (off + n)%nat in
        if (pos <? 255)%nat then
          lfn_chars ps' ent (<[pos := if (hi =? 0) && (lo <? 128) then lo else 63]> buf) off (S n)
        else lfn_chars ps' ent buf off n
  end.

Definition name_eq (a b : list Z) : bool :=
  bool_decide (to_ascii_lowercase <$> a = to_ascii_lowercase <$> b).

(** [path.split('/').filter(|s| !s.is_empty())] *)
Fixpoint split_slash (l : list Z) : list (list Z) :=
  match l with
  | [] => [[]]
  | b :: l' =>
      match split_slash l' with
      | [] => [[]]
      | p :: ps => if b =? 47 then [] :: p :: ps else (b :: p) :: ps
      end
  end.
Definition path_parts (path : list Z) : list (list Z) := filter (fun p => p <> []) (split_slash path).

(** [l.rfind(c)] *)
Fixpoint rfind (c : Z) (l : list Z) : option nat :=
  match l with
  | [] => None
  | b :: l' => match rfind c l' with
               | Some i => Some (S i)
               | None => if b =? c then Some 0%nat else None
               end
  end.

(** The UTF-8 encodings of the white space that [str::trim] removes. *)
Definition white_space : list (list Z) :=
  [[9]; [10]; [11]; [12]; [13]; [32]; [0xC2; 0x85]; [0xC2; 0xA0]; [0xE1; 0x9A; 0x80]] ++
  ((fun k => [0xE2; 0x80; 0x80 + Z.of_nat k]) <$> seq 0 11) ++
  [[0xE2; 0x80; 0xA8]; [0xE2; 0x80; 0xA9]; [0xE2; 0x80; 0xAF]; [0xE2; 0x81; 0x9F]; [0xE3; 0x80; 0x80]].

Fixpoint starts_with (p l : list Z) : bool :=
  match p, l with
  | [], _ => true
  | a :: p', b :: l' => (a =? b) && starts_with p' l'
  | _, [] => false
  end.

Fixpoint trim_front (n : nat) (ws : list (list Z)) (l : list Z) : list Z :=
  match n with
  | O => l
  | S n' => match List.find (fun w => starts_with w l) ws with
            | Some w => trim_front n' ws (drop (length w) l)
            | None => l
            end
  end.

Definition trim (l : list Z) : list Z :=
  let l := trim_front (length l) white_space l in
  reverse (trim_front (length l) (reverse <$> white_space) (reverse l)).

(** ** Directory entries *)

(** What the callback of [scan_dir] receives. *)
Record dirent := mk_dirent {
  de_name : list Z;
  de_attr : Z;
  de_cluster : Z;
  de_size : Z;
  de_lba : Z;
  de_off : nat;
}.

Record lfn := mk_lfn { lfn_buf : list Z; lfn_len : nat; lfn_active : bool }.
Definition lfn0 : lfn := mk_lfn (replicate 256 0) 0 false.

(** One 32-byte entry: no more entries, nothing to report, an entry to report, or
    a slice out of range. *)
Inductive entry_kind :=
| NoMore
| Quiet (l : lfn)
| Entry (name : list Z) (l : lfn)
| BadName.

Definition parse_entry (e : list Z) (l : lfn) : entry_kind :=
  let first := u8at e 0 in
  let attr := u8at e 11 in
  if first =? 0 then NoMore
  else if first =? 0xE5 then Quiet (mk_lfn (lfn_buf l) 0 false)
  else if attr =? ATTR_LONG_NAME then
    let seq := Z.land first 0x1F in
    let l := if negb (Z.land first 0x40 =? 0) then mk_lfn (replicate 256 0) 0 true else l in
    if lfn_active l && (1 <=? seq) then
      let base_pos := (Z.to_nat (seq - 1) * 13)%nat in
      let '(buf, added) := lfn_chars lfn_POS e (lfn_buf l) base_pos 0 in
      Quiet (mk_lfn buf (Nat.max (lfn_len l) (base_pos + added)) true)
    else Quiet l
  else if negb (Z.land attr ATTR_VOLUME_ID =? 0) || (first =? 46) then Quiet (mk_lfn (lfn_buf l) (lfn_len l) false)
  else
    let l' := mk_lfn (lfn_buf l) 0 false in
    if lfn_active l && (0 <? lfn_len l)%nat then
      if (256 <=? lfn_len l)%nat then BadName else Entry (take (lfn_len l) (lfn_buf l)) l'
    else Entry (short_name (take 11 e)) l'.

Definition entry_cluster (e : list Z) : Z := Z.lor (Z.shiftl (u16at e 20) 16) (u16at e 26).

(** The walk over the entries of a sector: go on, stop, or panic. *)
Inductive walk (T : Type) := GoOn (l : lfn) (s : T) | Finished (s : T) | Broken.
Arguments GoOn {T}.
Arguments Finished {T}.
Arguments Broken {T}.

Section Callback.
Context {T : Type} (cb : dirent -> T -> T * bool).

(** [n] entries of sector [sec] from byte [off] on. *)
Fixpoint scan_entries (n : nat) (sec : list Z) (lba : Z) (off : nat) (l : lfn) (s : T) : walk T :=
  match n with
  | O => GoOn l s
  | S n' =>
      let e := take 32 (drop off sec) in
      match parse_entry e l with
      | NoMore => Finished s
      | BadName => Broken
      | Quiet l => scan_entries n' sec lba (off + 32) l s
      | Entry name l =>
          let '(s, stop) := cb (mk_dirent name (u8at e 11) (entry_cluster e) (u32at e 28) lba off) s in
          if stop : bool then Finished s else scan_entries n' sec lba (off + 32) l s
      end
  end.
End Callback.

(** The 11 bytes of an 8.3 name, upper case and padded. *)
Definition pad (n : nat) (l : list Z) : list Z :=
  let l := take n (to_ascii_uppercase <$> l) in l ++ replicate (n - length l) 32.

Definition name_83 (fname : list Z) : list Z :=
  let '(name_part, ext_part) :=
    match rfind 46 fname with Some i => (take i fname, drop (S i) fname) | None => (fname, []) end in
  pad 8 name_part ++ pad 3 ext_part.

(** The entry [create] writes. *)
Definition new_entry (fname : list Z) (c : Z) : list Z :=
  name_83 fname ++ [ATTR_ARCHIVE] ++ replicate 8 0 ++ [as_u8 (Z.shiftr c 24); as_u8 (Z.shiftr c 16)] ++
  replicate 4 0 ++ [as_u8 (Z.shiftr c 8); as_u8 c] ++ to_le_bytes 4 0.

(** The entry [rename] writes. *)
Definition moved_entry (fname : list Z) (c size : Z) : list Z :=
  name_83 fname ++ [ATTR_ARCHIVE] ++ replicate 8 0 ++ [as_u8 (Z.shiftr c 16); as_u8 (Z.shiftr c 24)] ++
  replicate 4 0 ++ [as_u8 c; as_u8 (Z.shiftr c 8)] ++ to_le_bytes 4 size.

(** [match path.rfind('/')] of [create] and [rename]: parent and file name. *)
Definition split_path (path : list Z) : list Z * list Z :=
  match rfind 47 path with
  | Some i => (take (Nat.max i 1) path, drop (S i) path)
  | None => ([47], path)
  end.

(** fs::DirEntry *)
Record DirEntry := mk_direntry { d_name : list Z; d_is_dir : Z; d_size : Z }.
Definition NAME_MAX : nat := 255.

(** ** Computations *)

Definition F (C A : Type) : Type := fatfs C -> fout (A * fatfs C).
#[export] Instance F_ret C : MRet (F C) := fun A a s => Got (a, s).
#[export] Instance F_bind C : MBind (F C) := fun A B f m s =>
  match m s with Got (a, s') => f a s' | Crashed => Crashed | Stuck => Stuck end.

Section Ops.
Context {C : Type} `{!Sectors C}.
Variable rounds : nat.

Local Abbreviation M := (F C).

Definition crash {A} : M A := fun _ => Crashed.
Definition stuck {A} : M A := fun _ => Stuck.
Definition volume_of : M volume := fun s => Got (vol s, s).
Definition hint : M Z := fun s => Got (FREE_HINT s, s).
Definition set_hint (h : Z) : M unit := fun s => Got (tt, mk_fat (vol s) h (OPEN_FILES s) (store s)).
Definition files : M (list OpenFile) := fun s => Got (OPEN_FILES s, s).
Definition set_files (l : list OpenFile) : M unit := fun s => Got (tt, mk_fat (vol s) (FREE_HINT s) l (store s)).
Definition with_store (s : fatfs C) (c : C) : fatfs C := mk_fat (vol s) (FREE_HINT s) (OPEN_FILES s) c.

Definition read_sec (lba : Z) : M (list Z) := fun s =>
  '(sec, c) ← s_read lba (store s); Got (sec, with_store s c).
Definition write_sec (lba : Z) (data : list Z) : M unit := fun s =>
  c ← s_write lba data (store s); Got (tt, with_store s c).
Definition patch (lba : Z) (off : nat) (data : list Z) : M unit := fun s =>
  c ← s_patch lba off data (store s); Got (tt, with_store s c).
Definition zero (lba : Z) : M unit := fun s =>
  c ← s_zero lba (store s); Got (tt, with_store s c).

(** ** The FAT *)

(** The sector and the place in it of the entry of [cluster]. *)
Definition fat_place (v : volume) (cluster : Z) : Z * nat :=
  let byte_off := cluster * 4 in
  (FAT_START v +u byte_off / BYTES_PER_SEC v, Z.to_nat (byte_off mod BYTES_PER_SEC v)).

Definition fat_get (cluster : Z) : M Z :=
  v ← volume_of;
  let '(lba, in_sec) := fat_place v cluster in
  sec ← read_sec lba;
  mret (Z.land (u32at sec in_sec) FAT_MASK).

Definition fat_put (cluster value : Z) : M unit :=
  v ← volume_of;
  let '(lba, in_sec) := fat_place v cluster in
  patch lba in_sec (to_le_bytes 4 (Z.land value FAT_MASK)).

Definition cluster_lba (v : volume) (n : Z) : Z := DATA_START v +u (n -u 2) *u SECS_PER_CLUSTER v.

(** [for s in 0..SECS_PER_CLUSTER] of [alloc_cluster]. *)
Fixpoint zero_sectors (n : nat) (lba : Z) : M unit :=
  match n with
  | O => mret tt
  | S n' => _ ← zero lba; zero_sectors n' (lba +u 1)
  end.

(** One pass over [n] clusters from [c]. *)
Fixpoint find_free (n : nat) (c : Z) : M (option Z) :=
  match n with
  | O => mret None
  | S n' =>
      e ← fat_get c;
      if e =? FAT_FREE then
        _ ← fat_put c 0x0FFFFFFF;
        _ ← set_hint (as_u32 (c + 1));
        v ← volume_of;
        _ ← zero_sectors (Z.to_nat (SECS_PER_CLUSTER v)) (cluster_lba v c);
        mret (Some c)
      else find_free n' (c + 1)
  end.

Definition alloc_cluster : M Z :=
  start ← hint;
  v ← volume_of;
  r ← find_free (Z.to_nat (as_u32 (TOTAL_CLUSTERS v + 2) - start)) start;
  match r with
  | Some c => mret c
  | None => r ← find_free (Z.to_nat (start - 3)) 3; mret (default 0 r)
  end.

(** [while !is_eoc(c) && c >= least], freeing each cluster. *)
Fixpoint free_chain (least : Z) (n : nat) (c : Z) : M unit :=
  if is_eoc c || (c <? least) then mret tt
  else match n with
  | O => stuck
  | S n' => next ← fat_get c; _ ← fat_put c FAT_FREE; free_chain least n' next
  end.

(** [while !is_eoc(fat_get(c)) { c = fat_get(c); }] *)
Fixpoint chain_tail (n : nat) (c : Z) : M Z :=
  e ← fat_get c;
  if is_eoc e then mret c
  else match n with
  | O => stuck
  | S n' => c ← fat_get c; chain_tail n' c
  end.

(** ** Mounting *)

Definition init (partition_lba : Z) : M bool := fun s =>
  (sec ← read_sec partition_lba;
   let bps := u16at sec 11 in
   let spc := u8at sec 13 in
   let reserved := u16at sec 14 in
   let num_fats := u8at sec 16 in
   if negb (u8at sec 510 =? 0x55) || negb (u8at sec 511 =? 0xAA) then mret false
   else if negb (bps =? 512) then mret false
   else if negb (u16at sec 22 =? 0) || negb (u16at sec 19 =? 0) then mret false
   else if negb (bool_decide (take 5 (drop 82 sec) = [70; 65; 84; 51; 50])) then mret false
   else
     let fat_start_sec := partition_lba +u reserved in
     let data_start_sec := fat_start_sec +u num_fats *u u32at sec 36 in
     if spc =? 0 then crash
     else
       let total := as_u32 (u32at sec 32 - as_u32 (data_start_sec -u partition_lba)) / spc in
       fun s => Got (true, mk_fat (mk_volume true partition_lba bps spc fat_start_sec data_start_sec (u32at sec 44) total)
         3 (OPEN_FILES s) (store s))) s.

(** ** Directories *)

Section Scan.
Context {T : Type} (cb : dirent -> T -> T * bool).

(** [n] sectors from [lba] on; [None] for the state of names when the scan ends. *)
Fixpoint scan_sectors (n : nat) (lba : Z) (l : lfn) (s : T) : M (option lfn * T) :=
  match n with
  | O => mret (Some l, s)
  | S n' =>
      sec ← read_sec lba;
      match scan_entries cb 16 sec lba 0 l s with
      | GoOn l s => scan_sectors n' (lba +u 1) l s
      | Finished s => mret (None, s)
      | Broken => crash
      end
  end.

Fixpoint scan_clusters (n : nat) (cluster : Z) (l : lfn) (s : T) : M T :=
  if (cluster <? 2) || is_eoc cluster then mret s
  else match n with
  | O => stuck
  | S n' =>
      v ← volume_of;
      '(l, s) ← scan_sectors (Z.to_nat (SECS_PER_CLUSTER v)) (cluster_lba v cluster) l s;
      match l with
      | None => mret s
      | Some l => cluster ← fat_get cluster; scan_clusters n' cluster l s
      end
  end.

Definition scan_dir (dir_cluster : Z) (s : T) : M T := scan_clusters rounds dir_cluster lfn0 s.
End Scan.

(** What [resolve] answers. *)
Record found := mk_found { fd_cluster : Z; fd_size : Z; fd_is_dir : bool; fd_lba : Z; fd_off : nat }.

Definition is_directory (d : dirent) : bool := negb (Z.land (de_attr d) ATTR_DIRECTORY =? 0).

Definition match_name (component : list Z) (d : dirent) (r : option found) : option found * bool :=
  if name_eq (de_name d) component
  then (Some (mk_found (de_cluster d) (de_size d) (is_directory d) (de_lba d) (de_off d)), true)
  else (r, false).

Fixpoint resolve_parts (parts : list (list Z)) (dir_cluster : Z) (result : option found) : M (option found) :=
  match parts with
  | [] => mret result
  | p :: ps =>
      r ← scan_dir (match_name p) dir_cluster None;
      match r with
      | None => mret None
      | Some f => resolve_parts ps (if fd_is_dir f then fd_cluster f else dir_cluster) (Some f)
      end
  end.

Definition resolve (path : list Z) : M (option found) :=
  v ← volume_of;
  match path_parts path with
  | [] => mret (Some (mk_found (ROOT_CLUSTER v) 0 true 0 0))
  | ps => resolve_parts ps (ROOT_CLUSTER v) None
  end.

(** ** Open files *)

(** [OPEN_FILES.iter().position(|f| !f.used)?], then the slot is taken. *)
Definition open_slot (f : OpenFile) : M (option nat) :=
  l ← files;
  match list_find (fun f => used f = false) l with
  | None => mret None
  | Some (fd, _) => _ ← set_files (<[fd := f]> l); mret (Some fd)
  end.

Definition open (path : list Z) : M (option nat) :=
  v ← volume_of;
  if negb (READY v) then mret None
  else
    r ← resolve path;
    match r with
    | None => mret None
    | Some f =>
        if fd_is_dir f then mret None
        else open_slot (mk_file true false (fd_size f) (fd_cluster f) (fd_cluster f) 0 0 (fd_lba f) (fd_off f))
    end.

(** The first free entry of a directory. *)
Fixpoint free_entry (n : nat) (sec : list Z) (off : nat) : option nat :=
  match n with
  | O => None
  | S n' => if (u8at sec off =? 0) || (u8at sec off =? 0xE5) then Some off else free_entry n' sec (off + 32)
  end.

Fixpoint slot_sectors (n : nat) (lba : Z) : M (option (Z * nat)) :=
  match n with
  | O => mret None
  | S n' =>
      sec ← read_sec lba;
      match free_entry 16 sec 0 with
      | Some off => mret (Some (lba, off))
      | None => slot_sectors n' (lba +u 1)
      end
  end.

(** [u64::MAX] is the sentinel for no place. *)
Fixpoint find_free_slot (n : nat) (cluster : Z) : M (option (Z * nat)) :=
  if (cluster <? 2) || is_eoc cluster then mret None
  else match n with
  | O => stuck
  | S n' =>
      v ← volume_of;
      r ← slot_sectors (Z.to_nat (SECS_PER_CLUSTER v)) (cluster_lba v cluster);
      match r with
      | Some (lba, off) => mret (if lba =? NO_LBA then None else Some (lba, off))
      | None => c ← fat_get cluster; find_free_slot n' c
      end
  end.

(** The cluster of the parent directory of [create] and [rename]. *)
Definition parent_cluster (parent : list Z) : M (option Z) :=
  v ← volume_of;
  if bool_decide (parent = [47]) || bool_decide (parent = []) then mret (Some (ROOT_CLUSTER v))
  else
    r ← resolve parent;
    mret (match r with Some f => if fd_is_dir f then Some (fd_cluster f) else None | None => None end).

(** [buf.copy_from_slice(sec)], change, [wsec]. *)
Definition update_sec (lba : Z) (off : nat) (data : list Z) : M unit :=
  sec ← read_sec lba; write_sec lba (splice off data sec).

Definition create (path : list Z) : M (option nat) :=
  v ← volume_of;
  if negb (READY v) then mret None
  else
    let '(parent, fname) := split_path path in
    let fname := trim fname in
    if bool_decide (fname = []) || (11 <? length fname)%nat then mret None
    else
      p ← parent_cluster parent;
      match p with
      | None => mret None
      | Some pc =>
          new_cluster ← alloc_cluster;
          if new_cluster =? 0 then mret None
          else
            place ← find_free_slot rounds pc;
            place ← match place with
                    | Some x => mret (Some x)
                    | None =>
                        new_dir_cluster ← alloc_cluster;
                        if new_dir_cluster =? 0 then _ ← fat_put new_cluster FAT_FREE; mret None
                        else
                          c ← chain_tail rounds pc;
                          _ ← fat_put c new_dir_cluster;
                          mret (Some (cluster_lba v new_dir_cluster, 0%nat))
                    end;
            match place with
            | None => mret None
            | Some (lba, off) =>
                _ ← update_sec lba off (new_entry fname new_cluster);
                open_slot (mk_file true true 0 new_cluster new_cluster 0 0 lba off)
            end
      end.

Definition open_write (path : list Z) : M (option nat) :=
  v ← volume_of;
  if negb (READY v) then mret None
  else
    r ← resolve path;
    match r with
    | None => create path
    | Some f =>
        if fd_is_dir f then mret None
        else
          c ← fat_get (fd_cluster f);
          _ ← free_chain 0 rounds c;
          _ ← fat_put (fd_cluster f) 0x0FFFFFFF;
          _ ← update_sec (fd_lba f) (fd_off f + 28) [0; 0; 0; 0];
          open_slot (mk_file true true 0 (fd_cluster f) (fd_cluster f) 0 0 (fd_lba f) (fd_off f))
    end.

(** ** Reading and writing *)

Definition cluster_bytes (v : volume) : Z := SECS_PER_CLUSTER v * 512.

(** The open file [fd], if it is one. *)
Definition file_at (fd : Z) : M (option OpenFile) :=
  l ← files;
  mret (if fd <? Z.of_nat MAX_OPEN
        then match l !! Z.to_nat fd with Some f => if used f then Some f else None | None => None end
        else None).
Definition put_file (fd : Z) (f : OpenFile) : M unit := l ← files; set_files (<[Z.to_nat fd := f]> l).

Definition at_offset (f : OpenFile) (o : Z) : OpenFile :=
  mk_file (used f) (writable f) (fsize f) (start_cluster f) (cur_cluster f) (cur_clus_idx f) o (dir_lba f) (dir_entry_off f).
Definition at_cluster (f : OpenFile) (c i : Z) : OpenFile :=
  mk_file (used f) (writable f) (fsize f) (start_cluster f) c i (offset f) (dir_lba f) (dir_entry_off f).

(** [if f.offset > f.size { f.size = f.offset; }] *)
Definition extend (f : OpenFile) : OpenFile :=
  if fsize f <? offset f
  then mk_file (used f) (writable f) (offset f) (start_cluster f) (cur_cluster f) (cur_clus_idx f) (offset f)
         (dir_lba f) (dir_entry_off f)
  else f.

(** The sector and the byte in it of the current offset. *)
Definition position (v : volume) (f : OpenFile) : Z * nat :=
  let offset_in_cluster := offset f mod cluster_bytes v in
  (cluster_lba v (cur_cluster f) +u offset_in_cluster / 512, Z.to_nat (offset_in_cluster mod 512)).

(** [while done < want] with [want - done] bytes to go. *)
Fixpoint read_loop (n : nat) (left : nat) (f : OpenFile) : M (list Z * OpenFile) :=
  if (left =? 0)%nat then mret ([], f)
  else if (cur_cluster f <? 2) || is_eoc (cur_cluster f) then mret ([], f)
  else match n with
  | O => stuck
  | S n' =>
      v ← volume_of;
      let '(lba, o) := position v f in
      sec ← read_sec lba;
      let chunk := Nat.min left (SECTOR_SIZE - o) in
      let bytes := take chunk (drop o sec) in
      let f := at_offset f (as_u32 (offset f + Z.of_nat chunk)) in
      let left := (left - chunk)%nat in
      f ← (if (offset f mod cluster_bytes v =? 0) && (0 <? left)%nat
           then c ← fat_get (cur_cluster f); mret (at_cluster f c (as_u32 (cur_clus_idx f + 1)))
           else mret f);
      '(rest, f) ← read_loop n' left f;
      mret (bytes ++ rest, f)
  end.

(** The count, and the bytes put at the start of the buffer. *)
Definition read (fd : Z) (len : nat) : M (Z * list Z) :=
  f ← file_at fd;
  match f with
  | None => mret (-1, [])
  | Some f =>
      let remaining := Z.max 0 (fsize f - offset f) in
      if remaining =? 0 then mret (0, [])
      else
        let want := Nat.min len (Z.to_nat remaining) in
        '(bytes, f) ← read_loop want want f;
        _ ← put_file fd f;
        mret (Z.of_nat (length bytes), bytes)
  end.

(** A cluster for the current position, if there is none; false when the disk is full. *)
Definition ensure_cluster (f : OpenFile) : M (option OpenFile) :=
  if is_eoc (cur_cluster f) || (cur_cluster f <? 2) then
    new_c ← alloc_cluster;
    if new_c =? 0 then mret None
    else if start_cluster f <? 2 then
      mret (Some (mk_file (used f) (writable f) (fsize f) new_c new_c (cur_clus_idx f) (offset f) (dir_lba f) (dir_entry_off f)))
    else
      tail ← chain_tail rounds (start_cluster f);
      _ ← fat_put tail new_c;
      mret (Some (at_cluster f new_c (cur_clus_idx f)))
  else mret (Some f).

Fixpoint write_loop (n : nat) (buf : list Z) (f : OpenFile) : M (nat * OpenFile) :=
  match buf with
  | [] => mret (0%nat, f)
  | _ =>
      match n with
      | O => stuck
      | S n' =>
          r ← ensure_cluster f;
          match r with
          | None => mret (0%nat, f)
          | Some f =>
              v ← volume_of;
              let '(lba, o) := position v f in
              let chunk := Nat.min (length buf) (SECTOR_SIZE - o) in
              _ ← patch lba o (take chunk buf);
              let f := extend (at_offset f (as_u32 (offset f + Z.of_nat chunk))) in
              f ← (if offset f mod cluster_bytes v =? 0 then
                     next ← fat_get (cur_cluster f);
                     mret (if negb (is_eoc next) then at_cluster f next (as_u32 (cur_clus_idx f + 1)) else f)
                   else mret f);
              '(k, f) ← write_loop n' (drop chunk buf) f;
              mret ((chunk + k)%nat, f)
          end
      end
  end.

(** The size in the directory entry. *)
Definition flush_size (f : OpenFile) : M unit :=
  if dir_lba f =? 0 then mret tt else patch (dir_lba f) (dir_entry_off f + 28) (to_le_bytes 4 (fsize f)).

Definition write (fd : Z) (buf : list Z) : M Z :=
  f ← file_at fd;
  match f with
  | Some f =>
      if negb (writable f) then mret (-1)
      else
        '(k, f) ← write_loop (length buf) buf f;
        _ ← put_file fd f;
        _ ← flush_size f;
        mret (Z.of_nat k)
  | None => mret (-1)
  end.

Definition close (fd : Z) : M unit :=
  f ← file_at fd;
  match f with
  | None => mret tt
  | Some f => _ ← (if writable f then flush_size f else mret tt); put_file fd EMPTY_FILE
  end.

(** [while idx < target && !is_eoc(c)] *)
Fixpoint seek_loop (n : nat) (c idx : Z) : M (Z * Z) :=
  match n with
  | O => mret (c, idx)
  | S n' => if is_eoc c then mret (c, idx) else c ← fat_get c; seek_loop n' c (idx + 1)
  end.

Definition seek (fd off : Z) : M Z :=
  f ← file_at fd;
  match f with
  | None => mret (-1)
  | Some f =>
      if fsize f <? off then mret (-1)
      else
        v ← volume_of;
        let target := off / cluster_bytes v in
        let '(c, idx) := if cur_clus_idx f <=? target then (cur_cluster f, cur_clus_idx f) else (start_cluster f, 0) in
        '(c, idx) ← seek_loop (Z.to_nat (target - idx)) c idx;
        _ ← put_file fd (at_offset (at_cluster f c idx) off);
        mret 0
  end.

(** ** Listing, deleting and renaming *)

Definition list_entry (d : dirent) (out : list DirEntry * nat) : (list DirEntry * nat) * bool :=
  let '(l, count) := out in
  match l !! count with
  | None => (out, true)
  | Some e =>
      let name := take NAME_MAX (de_name d) in
      let e := mk_direntry (splice 0 (name ++ [0]) (d_name e)) (if is_directory d then 1 else 0) (de_size d) in
      ((<[count := e]> l, S count), false)
  end.

Definition readdir (path : list Z) (out : list DirEntry) : M (list DirEntry * nat) :=
  v ← volume_of;
  if negb (READY v) then mret (out, 0%nat)
  else
    dir ← parent_cluster path;
    match dir with
    | None => mret (out, 0%nat)
    | Some c => scan_dir list_entry c (out, 0%nat)
    end.

(** Free the chain and mark the directory entry deleted. *)
Definition delete_entry (f : found) : M unit :=
  _ ← free_chain 2 rounds (fd_cluster f);
  update_sec (fd_lba f) (fd_off f) [0xE5].

Definition unlink (path : list Z) : M bool :=
  v ← volume_of;
  if negb (READY v) then mret false
  else
    r ← resolve path;
    match r with
    | None => mret false
    | Some f => if fd_is_dir f then mret false else _ ← delete_entry f; mret true
    end.

Definition rename (src dst : list Z) : M bool :=
  v ← volume_of;
  if negb (READY v) then mret false
  else
    r ← resolve src;
    match r with
    | None => mret false
    | Some f =>
        let parent_src := (split_path src).1 in
        let '(parent_dst, dst_fname) := split_path dst in
        let dst_fname := trim dst_fname in
        if fd_is_dir f || negb (name_eq parent_src parent_dst) then mret false
        else if bool_decide (dst_fname = []) || (11 <? length dst_fname)%nat then mret false
        else
          d ← resolve dst;
          _ ← match d with
              | Some d => if fd_is_dir d then mret tt else delete_entry d
              | None => mret tt
              end;
          p ← parent_cluster parent_src;
          match p with
          | None => mret false
          | Some pc =>
              place ← find_free_slot rounds pc;
              match place with
              | None => mret false
              | Some (lba, off) =>
                  _ ← update_sec lba off (moved_entry dst_fname (fd_cluster f) (fd_size f));
                  _ ← update_sec (fd_lba f) (fd_off f) [0xE5];
                  mret true
              end
          end
    end.

End Ops.
