(* ===== verification/FatDisk.v ===== *)
(** * A small volume

    A FAT32 volume of 38 one-sector clusters with one file in its root directory,
    of two clusters and with a long name, on which the theorems of the file system
    are evaluated. *)

From stdpp Require Import base numbers list gmap.
From Stdlib Require Import ZArith Lia.
From S2P Require Import Prelude Sector Fat.

(** A sector with these fields and zeros elsewhere. *)
Definition sector_with (fields : list (nat * list Z)) : list Z :=
  foldl (fun b '(o, x) => splice o x b) zeros fields.

Definition sample_boot : list Z := sector_with
  [(11%nat, [0; 2]); (13%nat, [1]); (14%nat, [1; 0]); (16%nat, [1]); (32%nat, to_le_bytes 4 40); (36%nat, to_le_bytes 4 1);
   (44%nat, to_le_bytes 4 2); (82%nat, [70; 65; 84; 51; 50]); (510%nat, [0x55; 0xAA])].

(** Cluster 2 is the root directory, 3 and 4 the file. *)
Definition sample_table : list Z := sector_with
  [(0%nat, to_le_bytes 4 0x0FFFFFF8); (4%nat, to_le_bytes 4 0x0FFFFFFF); (8%nat, to_le_bytes 4 0x0FFFFFFF);
   (12%nat, to_le_bytes 4 4); (16%nat, to_le_bytes 4 0x0FFFFFFF)].

(** The long name [notes] and the short entry [NOTES~1], cluster 3, 1000 bytes. *)
Definition sample_root : list Z := sector_with
  [(0%nat, [0x41; 110; 0; 111; 0; 116; 0; 101; 0; 115; 0; ATTR_LONG_NAME]);
   (32%nat, [78; 79; 84; 69; 83; 126; 49; 32; 32; 32; 32; ATTR_ARCHIVE]); (58%nat, [3; 0]); (60%nat, to_le_bytes 4 1000)].

Definition sample_disk : gmap Z (list Z) :=
  list_to_map [(0, sample_boot); (1, sample_table); (2, sample_root); (3, replicate 512 65); (4, replicate 512 66)].

Definition sample_volume : volume := mk_volume true 0 512 1 1 2 2 38.

(** The file opened for writing, at byte [o] of cluster [c], the [i]th of the chain. *)
Definition sample_file (c i o : Z) : OpenFile := mk_file true true 1000 3 c i o 2 32.
Definition sample_state (f : OpenFile) : fatfs (direct (gmap Z (list Z))) :=
  mk_fat sample_volume 3 (f :: replicate 7 EMPTY_FILE) (mk_direct sample_disk).

(** The path [/notes]. *)
Definition sample_path : list Z := [47; 110; 111; 116; 101; 115].

(** Mounting the volume and opening the file gives this state, but for the right to write. *)
Lemma sample_opened :
  ('(_, s) ← init 0 (fat0 (mk_direct sample_disk)); open 8 sample_path s) =
  Got (Some 0%nat, sample_state (mk_file true false 1000 3 3 0 0 2 32)).
Proof. vm_compute. reflexivity. Qed.
