(* ===== verification/FatEquiv.v ===== *)
(** * The sector cache is transparent

    Every operation of fat32.rs run over the cache does what it does run over
    the disk without one, and so does every sequence of operations from boot.
    A relation between computations is closed under the monad's operations, and
    each operation of [Fat] is related to itself by following its shape. *)

From stdpp Require Import base numbers list gmap.
From Stdlib Require Import ZArith Lia.
From S2P Require Import Prelude Sector Fat FatDisk.

(** ** Requests *)

(** The public operations of fat32.rs. *)
Inductive request :=
| Init (partition_lba : Z)
| Open (path : list Z)
| OpenWrite (path : list Z)
| Create (path : list Z)
| Read (fd : Z) (len : nat)
| Write (fd : Z) (buf : list Z)
| Close (fd : Z)
| Seek (fd off : Z)
| Readdir (path : list Z) (out : list DirEntry)
| Unlink (path : list Z)
| Rename (src dst : list Z).

(** What the caller sees. *)
Inductive reply :=
| Flag (b : bool)
| Descriptor (fd : option nat)
| Count (n : Z)
| Bytes (n : Z) (bytes : list Z)
| Unit
| Listing (entries : list DirEntry) (n : nat).

Section Requests.
Context {C : Type} `{!Sectors C}.
Variable rounds : nat.

Definition perform (r : request) : F C reply :=
  match r with
  | Init lba => b ← init lba; mret (Flag b)
  | Open p => fd ← open rounds p; mret (Descriptor fd)
  | OpenWrite p => fd ← open_write rounds p; mret (Descriptor fd)
  | Create p => fd ← create rounds p; mret (Descriptor fd)
  | Read fd len => '(n, b) ← read fd len; mret (Bytes n b)
  | Write fd buf => n ← write rounds fd buf; mret (Count n)
  | Close fd => _ ← close fd; mret Unit
  | Seek fd off => n ← seek fd off; mret (Count n)
  | Readdir p out => '(l, n) ← readdir rounds p out; mret (Listing l n)
  | Unlink p => b ← unlink rounds p; mret (Flag b)
  | Rename a b => ok ← rename rounds a b; mret (Flag ok)
  end.

Fixpoint perform_all (rs : list request) : F C (list reply) :=
  match rs with
  | [] => mret []
  | r :: rs' => a ← perform r; l ← perform_all rs'; mret (a :: l)
  end.

End Requests.

(** ** Simulation *)

Section Simulation.
Context {D : Type} `{!BlockDevice D} `{!BlockDeviceSpec D}.

(** The same volume, hint and open files, over a cache that stands for the disk. *)
Record related (s : fatfs (cache D)) (t : fatfs (direct D)) : Prop := {
  rel_vol : vol s = vol t;
  rel_hint : FREE_HINT s = FREE_HINT t;
  rel_files : OPEN_FILES s = OPEN_FILES t;
  rel_store : stands_for (store s) (store t);
}.

(** From related states the first computation does what the second does, where
    the second has an answer. *)
Definition sim {A} (m : F (cache D) A) (k : F (direct D) A) : Prop :=
  forall s t, related s t ->
    match k t with
    | Got (a, t') => exists s', m s = Got (a, s') /\ related s' t'
    | Crashed => m s = Crashed
    | Stuck => True
    end.

Lemma fsim_ret {A} (a : A) : sim (mret a) (mret a).
Proof. intros s t H. by exists s. Qed.

Lemma sim_bind {A B} (m : F (cache D) A) k (f : A -> F (cache D) B) g :
  sim m k -> (forall a, sim (f a) (g a)) -> sim (m ≫= f) (k ≫= g).
Proof.
  intros H1 H2 s t H. specialize (H1 s t H). unfold mbind, F_bind. destruct (k t) as [[a t']| |]; [|by rewrite H1|done].
  destruct H1 as (s' & -> & H'). by apply H2.
Qed.

Lemma sim_crash {A} : sim (A := A) crash crash.
Proof. by intros s t H. Qed.

Lemma sim_stuck {A} (m : F (cache D) A) : sim m stuck.
Proof. by intros s t H. Qed.

Lemma sim_volume_of : sim volume_of volume_of.
Proof. intros s t H. exists s. unfold volume_of. by rewrite (rel_vol _ _ H). Qed.

Lemma sim_hint : sim hint hint.
Proof. intros s t H. exists s. unfold hint. by rewrite (rel_hint _ _ H). Qed.

Lemma sim_files : sim files files.
Proof. intros s t H. exists s. unfold files. by rewrite (rel_files _ _ H). Qed.

Lemma sim_set_hint h : sim (set_hint h) (set_hint h).
Proof. intros s t []. eexists. by split. Qed.

Lemma sim_set_files l : sim (set_files l) (set_files l).
Proof. intros s t []. eexists. by split. Qed.

Lemma related_store s t c d : related s t -> stands_for c d -> related (with_store s c) (with_store t d).
Proof. by intros [] ?. Qed.

Lemma sim_read_sec lba : sim (read_sec lba) (read_sec lba).
Proof.
  intros s t H. unfold read_sec, mbind, fout_bind, s_read. cbn [cached uncached]. unfold on_disk.
  destruct (Z.eqb_spec lba NO_LBA) as [|Hn]; [done|].
  destruct (read_stands lba (store s) (store t) (rel_store _ _ H) Hn) as (c & -> & Hc).
  eexists. split; [done|]. by apply related_store.
Qed.

Lemma sim_write_sec lba data : sim (write_sec lba data) (write_sec lba data).
Proof.
  intros s t H. unfold write_sec, mbind, fout_bind, s_write. cbn [cached uncached]. unfold on_disk.
  destruct (Nat.eqb_spec (length data) SECTOR_SIZE) as [Hl|]; [|done].
  destruct (Z.eqb_spec lba NO_LBA) as [|Hn]; [done|].
  eexists. split; [done|]. apply related_store, write_stands; [done|apply H|done..].
Qed.

Lemma sim_patch lba off data : sim (patch lba off data) (patch lba off data).
Proof.
  intros s t H. unfold patch, mbind, fout_bind, s_patch. cbn [cached uncached]. unfold on_disk.
  destruct (Nat.leb_spec (off + length data) SECTOR_SIZE) as [Hl|]; [|done].
  destruct (Z.eqb_spec lba NO_LBA) as [|Hn]; [done|].
  eexists. split; [done|]. apply related_store, patch_stands; [done|apply H|done..].
Qed.

Lemma sim_zero lba : sim (zero lba) (zero lba).
Proof.
  intros s t H. unfold zero, mbind, fout_bind, s_zero. cbn [cached uncached]. unfold on_disk.
  destruct (Z.eqb_spec lba NO_LBA) as [|Hn]; [done|].
  eexists. split; [done|]. apply related_store, zero_stands; [done|apply H].
Qed.

End Simulation.

Create HintDb sim discriminated.
#[export] Hint Resolve fsim_ret sim_crash sim_stuck sim_volume_of sim_hint sim_files sim_set_hint
  sim_set_files sim_read_sec sim_write_sec sim_patch sim_zero : sim.

(** Follow the shape of two computations. *)
Ltac sim_step :=
  match goal with
  | |- sim (if ?b then _ else _) _ => destruct b
  | |- sim (match ?x with _ => _ end) _ => destruct x
  | |- sim (_ ≫= _) _ => apply sim_bind; [|intros ?]
  | |- sim _ _ => solve [eauto with sim nocore]
  end.
Ltac sim := repeat sim_step.

Section Operations.
Context {D : Type} `{!BlockDevice D} `{!BlockDeviceSpec D}.
Local Abbreviation simulates f := (sim (D := D) f f).

Lemma sim_fat_get c : simulates (fat_get c).
Proof. unfold fat_get. sim. Qed.

Lemma sim_fat_put c x : simulates (fat_put c x).
Proof. unfold fat_put. sim. Qed.
#[local] Hint Resolve sim_fat_get sim_fat_put : sim.

Lemma sim_zero_sectors n lba : simulates (zero_sectors n lba).
Proof. revert lba. induction n; intros lba; cbn [zero_sectors]; sim. Qed.
#[local] Hint Resolve sim_zero_sectors : sim.

Lemma sim_find_free n c : simulates (find_free n c).
Proof. revert c. induction n; intros c; cbn [find_free]; sim. Qed.
#[local] Hint Resolve sim_find_free : sim.

Lemma sim_alloc_cluster : simulates alloc_cluster.
Proof. unfold alloc_cluster. sim. Qed.
#[local] Hint Resolve sim_alloc_cluster : sim.

Lemma sim_free_chain least n c : simulates (free_chain least n c).
Proof. revert c. induction n; intros c; cbn [free_chain]; sim. Qed.

Lemma sim_chain_tail n c : simulates (chain_tail n c).
Proof. revert c. induction n; intros c; cbn [chain_tail]; sim. Qed.
#[local] Hint Resolve sim_free_chain sim_chain_tail : sim.

Lemma sim_init lba : simulates (init lba).
Proof.
  unfold init. apply sim_bind; [sim|intros sec]. cbv zeta. sim.
  intros s t []. eexists. by split.
Qed.

(** *** Directories *)

Section Scan.
Context {T : Type} (cb : dirent -> T -> T * bool).

Lemma sim_scan_sectors n lba l s : simulates (scan_sectors cb n lba l s).
Proof. revert lba l s. induction n; intros lba l s; cbn [scan_sectors]; sim. Qed.
#[local] Hint Resolve sim_scan_sectors : sim.

Lemma sim_scan_clusters n c l s : simulates (scan_clusters cb n c l s).
Proof. revert c l s. induction n; intros c l s; cbn [scan_clusters]; sim. Qed.
End Scan.
#[local] Hint Resolve sim_init sim_scan_clusters : sim.

Lemma sim_scan_dir {T} rounds (cb : dirent -> T -> T * bool) c s : simulates (scan_dir rounds cb c s).
Proof. unfold scan_dir. sim. Qed.
#[local] Hint Resolve sim_scan_dir : sim.

Lemma sim_resolve_parts rounds ps c r : simulates (resolve_parts rounds ps c r).
Proof. revert c r. induction ps; intros c r; cbn [resolve_parts]; sim. Qed.
#[local] Hint Resolve sim_resolve_parts : sim.

Lemma sim_resolve rounds p : simulates (resolve rounds p).
Proof. unfold resolve. sim. Qed.

Lemma sim_open_slot f : simulates (open_slot f).
Proof. unfold open_slot. sim. Qed.

Lemma sim_slot_sectors n lba : simulates (slot_sectors n lba).
Proof. revert lba. induction n; intros lba; cbn [slot_sectors]; sim. Qed.
#[local] Hint Resolve sim_resolve sim_open_slot sim_slot_sectors : sim.

Lemma sim_find_free_slot n c : simulates (find_free_slot n c).
Proof. revert c. induction n; intros c; cbn [find_free_slot]; sim. Qed.

Lemma sim_parent_cluster rounds p : simulates (parent_cluster rounds p).
Proof. unfold parent_cluster. sim. Qed.

Lemma sim_update_sec lba off data : simulates (update_sec lba off data).
Proof. unfold update_sec. sim. Qed.
#[local] Hint Resolve sim_find_free_slot sim_parent_cluster sim_update_sec : sim.

(** *** Files *)

Lemma sim_create rounds p : simulates (create rounds p).
Proof. unfold create. sim. Qed.
#[local] Hint Resolve sim_create : sim.

Lemma sim_file_at fd : simulates (file_at fd).
Proof. unfold file_at. sim. Qed.

Lemma sim_put_file fd f : simulates (put_file fd f).
Proof. unfold put_file. sim. Qed.

Lemma sim_read_loop n left f : simulates (read_loop n left f).
Proof. revert left f. induction n; intros left f; cbn [read_loop]; sim. Qed.

Lemma sim_ensure_cluster rounds f : simulates (ensure_cluster rounds f).
Proof. unfold ensure_cluster. sim. Qed.
#[local] Hint Resolve sim_file_at sim_put_file sim_read_loop sim_ensure_cluster : sim.

Lemma sim_write_loop rounds n buf f : simulates (write_loop rounds n buf f).
Proof. revert buf f. induction n; intros buf f; cbn [write_loop]; sim. Qed.

Lemma sim_flush_size f : simulates (flush_size f).
Proof. unfold flush_size. sim. Qed.

Lemma sim_seek_loop n c i : simulates (seek_loop n c i).
Proof. revert c i. induction n; intros c i; cbn [seek_loop]; sim. Qed.

Lemma sim_delete_entry rounds f : simulates (delete_entry rounds f).
Proof. unfold delete_entry. sim. Qed.
#[local] Hint Resolve sim_write_loop sim_flush_size sim_seek_loop sim_delete_entry : sim.

Lemma sim_perform rounds r : simulates (perform rounds r).
Proof.
  destruct r; cbn [perform]; unfold open, open_write, read, write, close, seek, readdir, unlink, rename; sim.
Qed.
#[local] Hint Resolve sim_perform : sim.

Lemma sim_perform_all rounds rs : simulates (perform_all rounds rs).
Proof. induction rs; cbn [perform_all]; sim. Qed.

Lemma related_boot d : related (fat0 (cache0 d)) (fat0 (mk_direct d)).
Proof. split; try done. split; [apply coherent0|done]. Qed.

(** C9: The sector cache cannot be observed.  Any sequence of calls of the file
    system from boot gives, over the 16-slot write-through cache, the replies it
    gives on the bare disk, panics where it panics there, and leaves the same
    disk, mounted volume, allocation hint and open files.  The calls are those
    the bare disk answers: none loops for ever on a cyclic chain and none
    addresses sector [u64::MAX], the tag of an empty slot. *)
Theorem cache_transparent rounds rs d :
  perform_all rounds rs (fat0 (mk_direct d)) <> Stuck ->
  match perform_all rounds rs (fat0 (mk_direct d)) with
  | Got (replies, t) => exists s, perform_all rounds rs (fat0 (cache0 d)) = Got (replies, s) /\
      coherent (store s) /\ dev (store s) = disk (store t) /\
      vol s = vol t /\ FREE_HINT s = FREE_HINT t /\ OPEN_FILES s = OPEN_FILES t
  | Crashed => perform_all rounds rs (fat0 (cache0 d)) = Crashed
  | Stuck => False
  end.
Proof.
  intros Hn. pose proof (sim_perform_all rounds rs _ _ (related_boot d)) as H.
  destruct (perform_all rounds rs (fat0 (mk_direct d))) as [[l t]| |]; [|done|done].
  destruct H as (s & Hs & [H1 H2 H3 [H4 H5]]). by exists s.
Qed.

End Operations.

(** A run over the sample volume: mount, read the file, create one, write to it,
    delete the first. *)
Definition sample_calls : list request :=
  [Init 0; Open sample_path; Read 0 600; Create [47; 97]; Write 1 [1; 2; 3]; Close 1; Close 0; Unlink sample_path;
   Readdir [47] [mk_direntry (replicate 256 0) 0 0]].

(** The number of replies, where there are replies. *)
Definition replies_of {C} (r : fout (list reply * fatfs C)) : nat := match r with Got (l, _) => length l | _ => 0%nat end.

Lemma cache_transparent_witness : exists replies s,
  perform_all 8 sample_calls (fat0 (cache0 sample_disk)) = Got (replies, s) /\ coherent (store s) /\ length replies = 9%nat.
Proof.
  assert (Hn : replies_of (perform_all 8 sample_calls (fat0 (mk_direct sample_disk))) = 9%nat) by (vm_compute; reflexivity).
  pose proof (cache_transparent 8 sample_calls sample_disk) as H.
  destruct (perform_all 8 sample_calls (fat0 (mk_direct sample_disk))) as [[l t]| |]; [|discriminate Hn|discriminate Hn].
  destruct (H ltac:(discriminate)) as (s & Hs & Hc & _). exists l, s. split; [exact Hs|split; [exact Hc|exact Hn]].
Defined.
