(* ===== verification/FatTable.v ===== *)
(** * The allocation table

    [fat_get] and [fat_put] as lookup and update of a table of 28-bit entries on
    the disk, [alloc_cluster] as the search for a free entry and [free_chain] as
    the release of a chain, over the disk without a cache ([FatEquiv] carries
    what is shown here over to the cache). *)

From stdpp Require Import base numbers list gmap.
From Stdlib Require Import ZArith Lia.
From S2P Require Import Prelude Sector Fat FatDisk.

(** ** Volumes *)

(** What a formatted volume satisfies after [init]: the allocation table lies
    before the data, the data before the end of the address space. *)
Record geometry (v : volume) : Prop := {
  geo_bps : BYTES_PER_SEC v = 512;
  geo_spc : 1 <= SECS_PER_CLUSTER v <= 255;
  geo_total : 1 <= TOTAL_CLUSTERS v < 0x0FFFFFF0;
  geo_fat : 0 <= FAT_START v;
  geo_between : FAT_START v + (TOTAL_CLUSTERS v + 129) / 128 <= DATA_START v;
  geo_data : DATA_START v + TOTAL_CLUSTERS v * SECS_PER_CLUSTER v <= u64_max;
}.

(** A cluster with an entry in the table; one with data. *)
Definition has_entry (v : volume) (c : Z) : Prop := 0 <= c < TOTAL_CLUSTERS v + 2.
Definition data_cluster (v : volume) (c : Z) : Prop := 2 <= c < TOTAL_CLUSTERS v + 2.

(** ** Sectors *)

Lemma nth_splice off data b k d : (off + length data <= length b)%nat ->
  nth k (splice off data b) d =
    if decide (off <= k < off + length data)%nat then nth (k - off) data d else nth k b d.
Proof.
  intros Hl. unfold splice. rewrite !nth_lookup. rewrite lookup_app.
  case_decide as Hk.
  - rewrite lookup_take_ge by lia. rewrite length_take, lookup_app_l by lia. repeat f_equal; lia.
  - destruct (decide (k < off)%nat).
    + rewrite lookup_take_lt by lia. destruct (lookup_lt_is_Some_2 b k) as [x ->]; [lia|done].
    + rewrite lookup_take_ge by lia. rewrite length_take, lookup_app_r by lia. rewrite lookup_drop. repeat f_equal; lia.
Qed.

Lemma slice_nth n o (b : list Z) : (o + n <= length b)%nat -> take n (drop o b) = (fun k => nth k b 0) <$> seq o n.
Proof.
  intros Hl. apply list_eq_same_length with n; [by rewrite length_fmap, length_seq|rewrite length_take, length_drop; lia|].
  intros i x y Hi H1 H2. rewrite lookup_take_lt, lookup_drop in H1 by lia.
  rewrite list_lookup_fmap, lookup_seq_lt in H2 by lia. simplify_eq/=. by rewrite nth_lookup, H1.
Qed.

Lemma u32at_splice_same o data b : length data = 4%nat -> (o + 4 <= length b)%nat ->
  u32at (splice o data b) o = le_bytes data.
Proof.
  intros Hd Hb. unfold u32at, splice. rewrite drop_app_le by (rewrite length_take; lia).
  rewrite drop_ge by (rewrite length_take; lia). cbn [app]. by rewrite take_app_le, take_ge by lia.
Qed.

Lemma u32at_splice_other o o' data b : (o + length data <= length b)%nat -> (o' + 4 <= length b)%nat ->
  (o' + 4 <= o \/ o + length data <= o')%nat -> u32at (splice o data b) o' = u32at b o'.
Proof.
  intros Hd Hb Hn. unfold u32at. rewrite !slice_nth by (rewrite ?length_splice; lia).
  f_equal. apply list_fmap_ext. intros i k Hk. apply lookup_seq in Hk. rewrite nth_splice, decide_False by lia. done.
Qed.

(** ** Entries *)

Section Table.
Context {D : Type} `{!BlockDevice D} `{!BlockDeviceSpec D}.
Implicit Types (d : D) (s t : fatfs (direct D)) (v : volume).

(** The disk of a state, and the state with another disk. *)
Definition disk_of s : D := disk (store s).
Definition on s d : fatfs (direct D) := with_store s (mk_direct d).

Lemma with_own_store s : with_store s (store s) = s.
Proof. by destruct s. Qed.

Lemma on_disk_of s : on s (disk_of s) = s.
Proof. by destruct s as [? ? ? [?]]. Qed.

Lemma read_sec_eq lba s : lba <> NO_LBA -> read_sec lba s = Got (read_block (disk_of s) lba, s).
Proof.
  intros Hn. unfold read_sec, s_read, mbind, fout_bind. cbn [uncached]. unfold on_disk.
  by rewrite (proj2 (Z.eqb_neq _ _) Hn), with_own_store.
Qed.

(** A sector with [data] put at [off]. *)
Definition patched d lba off data : D := write_block d lba (splice off data (read_block d lba)).

Lemma patch_eq lba off data s : lba <> NO_LBA -> (off + length data <= SECTOR_SIZE)%nat ->
  patch lba off data s = Got (tt, on s (patched (disk_of s) lba off data)).
Proof.
  intros Hn Ho. unfold patch, s_patch, mbind, fout_bind. cbn [uncached]. apply Nat.leb_le in Ho. rewrite Ho. unfold on_disk.
  by rewrite (proj2 (Z.eqb_neq _ _) Hn).
Qed.

Lemma update_sec_eq lba off data s : lba <> NO_LBA -> (off + length data <= SECTOR_SIZE)%nat ->
  update_sec lba off data s = Got (tt, on s (patched (disk_of s) lba off data)).
Proof.
  intros Hn Ho. unfold update_sec, mbind, F_bind. rewrite read_sec_eq by done.
  unfold write_sec, s_write, mbind, fout_bind. cbn [uncached].
  rewrite length_splice, read_block_length by (rewrite read_block_length; done). cbn [Nat.eqb].
  unfold on_disk. by rewrite (proj2 (Z.eqb_neq _ _) Hn).
Qed.

Lemma read_patched d lba off data lba' : (off + length data <= SECTOR_SIZE)%nat ->
  read_block (patched d lba off data) lba' =
    if decide (lba' = lba) then splice off data (read_block d lba) else read_block d lba'.
Proof.
  intros Ho. unfold patched. case_decide as E; [subst|apply read_write_other; done].
  apply read_write_same. by rewrite length_splice; rewrite read_block_length.
Qed.

Definition fat_lba v c : Z := FAT_START v + c / 128.
Definition fat_off c : nat := Z.to_nat (c mod 128 * 4).

Definition entry v d c : Z := Z.land (u32at (read_block d (fat_lba v c)) (fat_off c)) FAT_MASK.
Definition put_entry v d c x : D :=
  patched d (fat_lba v c) (fat_off c) (to_le_bytes 4 (Z.land x FAT_MASK)).

Lemma fat_off_le c : (fat_off c + 4 <= SECTOR_SIZE)%nat.
Proof. unfold fat_off, SECTOR_SIZE. pose proof (Z.mod_pos_bound c 128). lia. Qed.

Lemma fat_lba_range v c : geometry v -> has_entry v c -> 0 <= fat_lba v c < DATA_START v.
Proof.
  intros [] Hc. unfold has_entry, fat_lba in *. split; [pose proof (Z.div_pos c 128); lia|].
  enough (c / 128 + 1 <= (TOTAL_CLUSTERS v + 129) / 128) by lia.
  replace (c / 128 + 1) with ((c + 1 * 128) / 128) by (rewrite Z.div_add; lia). apply Z.div_le_mono; lia.
Qed.

Lemma fat_place_eq v c : geometry v -> has_entry v c -> fat_place v c = (fat_lba v c, fat_off c).
Proof.
  intros Hg Hc. pose proof (fat_lba_range v c Hg Hc) as Hr. destruct Hg. unfold fat_place.
  rewrite geo_bps0. change 512 with (128 * 4). rewrite Z.div_mul_cancel_r, Z.mul_mod_distr_r by lia.
  rewrite as_u64_small; [done|]. unfold fat_lba in Hr. unfold is_u64, u64_max in *. nia.
Qed.

Lemma fat_lba_addr v c : geometry v -> has_entry v c -> fat_lba v c <> NO_LBA.
Proof. intros Hg Hc. pose proof (fat_lba_range v c Hg Hc). destruct Hg. unfold NO_LBA in *. nia. Qed.

Lemma fat_get_eq s c : geometry (vol s) -> has_entry (vol s) c ->
  fat_get c s = Got (entry (vol s) (disk_of s) c, s).
Proof.
  intros Hg Hc. unfold fat_get, mbind, F_bind, volume_of. rewrite fat_place_eq by done.
  by rewrite read_sec_eq by by apply fat_lba_addr.
Qed.

Lemma fat_put_eq s c x : geometry (vol s) -> has_entry (vol s) c ->
  fat_put c x s = Got (tt, on s (put_entry (vol s) (disk_of s) c x)).
Proof.
  intros Hg Hc. unfold fat_put, mbind, F_bind, volume_of. rewrite fat_place_eq by done.
  apply patch_eq; [by apply fat_lba_addr|]. rewrite length_to_le_bytes. apply fat_off_le.
Qed.

Lemma land_mask x : Z.land x FAT_MASK = x mod 2 ^ 28.
Proof. apply (land_ones_mod 28). lia. Qed.

Lemma read_set_fat v d c x lba :
  read_block (put_entry v d c x) lba =
    if decide (lba = fat_lba v c)
    then splice (fat_off c) (to_le_bytes 4 (Z.land x FAT_MASK)) (read_block d (fat_lba v c)) else read_block d lba.
Proof. apply read_patched. rewrite length_to_le_bytes. apply fat_off_le. Qed.

Lemma entry_put_same v d c x : entry v (put_entry v d c x) c = Z.land x FAT_MASK.
Proof.
  pose proof (fat_off_le c). unfold entry. rewrite read_set_fat, decide_True by done.
  rewrite u32at_splice_same by (rewrite ?length_to_le_bytes, ?read_block_length; lia).
  rewrite le_to_le_bytes, !land_mask. change (256 ^ Z.of_nat 4) with (2 ^ 32).
  pose proof (Z.mod_pos_bound x (2 ^ 28)). rewrite (Z.mod_small (x mod 2 ^ 28) (2 ^ 32)) by lia. by rewrite Z.mod_mod.
Qed.

Lemma entry_put_other v d c c' x : 0 <= c -> 0 <= c' -> c <> c' -> entry v (put_entry v d c x) c' = entry v d c'.
Proof.
  intros H1 H2 Hne. pose proof (fat_off_le c) as Ho. pose proof (fat_off_le c') as Ho'. unfold entry.
  rewrite read_set_fat. case_decide as E; [|done]. rewrite <- E.
  apply f_equal2; [|done]. apply u32at_splice_other; [rewrite ?length_to_le_bytes, ?read_block_length; lia..|].
  rewrite length_to_le_bytes. unfold fat_lba, fat_off in *.
  assert (c mod 128 <> c' mod 128).
  { intros E'. apply Hne. rewrite (Z.div_mod c 128), (Z.div_mod c' 128) by lia. rewrite E'. nia. }
  pose proof (Z.mod_pos_bound c 128). pose proof (Z.mod_pos_bound c' 128). lia.
Qed.

Lemma entry_put v d c c' x : 0 <= c -> 0 <= c' ->
  entry v (put_entry v d c x) c' = if decide (c' = c) then Z.land x FAT_MASK else entry v d c'.
Proof. intros ? ?. case_decide; [subst; apply entry_put_same|by apply entry_put_other]. Qed.

(** The data sectors are not touched. *)
Lemma read_set_entry v d c x lba : geometry v -> has_entry v c -> DATA_START v <= lba ->
  read_block (put_entry v d c x) lba = read_block d lba.
Proof. intros Hg Hc Hl. pose proof (fat_lba_range v c Hg Hc). rewrite read_set_fat. by rewrite decide_False by lia. Qed.

(** ** Clusters *)

Definition cluster_start v c : Z := DATA_START v + (c - 2) * SECS_PER_CLUSTER v.
Definition in_cluster v c lba : Prop := cluster_start v c <= lba < cluster_start v c + SECS_PER_CLUSTER v.

Lemma data_has_entry v c : data_cluster v c -> has_entry v c.
Proof. unfold data_cluster, has_entry. lia. Qed.

Lemma cluster_range v c lba : geometry v -> data_cluster v c -> in_cluster v c lba -> DATA_START v <= lba < u64_max.
Proof. intros [] [] []. unfold cluster_start in *. nia. Qed.

Lemma data_start_pos v : geometry v -> 0 <= DATA_START v.
Proof. intros []. pose proof (Z.div_pos (TOTAL_CLUSTERS v + 129) 128). lia. Qed.

Lemma cluster_lba_eq v c : geometry v -> data_cluster v c -> cluster_lba v c = cluster_start v c.
Proof.
  intros Hg Hc. pose proof (data_start_pos v Hg). destruct Hg, Hc. unfold cluster_lba, cluster_start, u64_max in *.
  rewrite (as_u64_small (c - 2)) by (unfold is_u64; lia).
  rewrite (as_u64_small (_ * _)) by (unfold is_u64; nia). apply as_u64_small. unfold is_u64. nia.
Qed.

(** Two clusters share no sector. *)
Lemma cluster_disjoint v c c' lba : geometry v -> in_cluster v c lba -> in_cluster v c' lba -> c = c'.
Proof. intros [] [] []. unfold cluster_start in *. nia. Qed.

(** [n] sectors zeroed from [lba] on. *)
Fixpoint zero_run (n : nat) (lba : Z) d : D :=
  match n with O => d | S n' => zero_run n' (lba + 1) (write_block d lba zeros) end.

Lemma read_zero_run n lba d l :
  read_block (zero_run n lba d) l = if decide (lba <= l < lba + Z.of_nat n) then zeros else read_block d l.
Proof.
  revert lba d. induction n as [|n IH]; intros lba d; cbn [zero_run]; [by rewrite decide_False by lia|].
  rewrite IH. destruct (decide (l = lba)) as [->|].
  - rewrite decide_False, decide_True by lia. by apply read_write_same.
  - destruct (decide (lba + 1 <= l < lba + 1 + Z.of_nat n)); [by rewrite decide_True by lia|].
    rewrite decide_False by lia. by apply read_write_other.
Qed.

Lemma zero_sectors_eq n lba s : 0 <= lba -> lba + Z.of_nat n <= u64_max ->
  zero_sectors n lba s = Got (tt, on s (zero_run n lba (disk_of s))).
Proof.
  revert lba s. induction n as [|n IH]; intros lba s H0 Hl; cbn [zero_sectors zero_run]; [by rewrite on_disk_of|].
  unfold mbind, F_bind, zero, s_zero, mbind, fout_bind. cbn [uncached]. unfold on_disk.
  rewrite (proj2 (Z.eqb_neq lba NO_LBA)) by (unfold NO_LBA; lia).
  rewrite as_u64_small by (unfold is_u64, u64_max in *; lia). apply IH; lia.
Qed.

(** ** Allocation *)

(** The state after cluster [c] is taken. *)
Definition taken s c : fatfs (direct D) :=
  mk_fat (vol s) (c + 1) (OPEN_FILES s)
    (mk_direct (zero_run (Z.to_nat (SECS_PER_CLUSTER (vol s))) (cluster_start (vol s) c)
       (put_entry (vol s) (disk_of s) c 0x0FFFFFFF))).

Definition free s c : Prop := entry (vol s) (disk_of s) c = FAT_FREE.

Lemma find_free_spec n c s : geometry (vol s) -> 2 <= c -> c + Z.of_nat n <= TOTAL_CLUSTERS (vol s) + 2 ->
  (exists c', c <= c' < c + Z.of_nat n /\ free s c' /\ (forall k, c <= k < c' -> ~ free s k) /\
     find_free n c s = Got (Some c', taken s c')) \/
  ((forall k, c <= k < c + Z.of_nat n -> ~ free s k) /\ find_free n c s = Got (None, s)).
Proof.
  intros Hg. revert c. induction n as [|n IH]; intros c Hc Hn; cbn [find_free]; [right; split; [lia|done]|].
  assert (Hd : data_cluster (vol s) c) by (unfold data_cluster; lia). pose proof (data_has_entry _ _ Hd) as He.
  unfold mbind, F_bind. rewrite fat_get_eq by done.
  destruct (Z.eqb_spec (entry (vol s) (disk_of s) c) FAT_FREE) as [E|E].
  - left. exists c. split_and!; [lia|lia|done|lia|]. rewrite fat_put_eq by done.
    cbn [set_hint volume_of vol on with_store]. rewrite cluster_lba_eq by done.
    pose proof (data_start_pos _ Hg). destruct Hg, Hd.
    rewrite zero_sectors_eq; [|unfold cluster_start; nia|unfold cluster_start; rewrite Z2Nat.id by lia; nia].
    unfold taken, on, with_store. cbn. rewrite as_u32_small by (unfold is_u32; lia). done.
  - destruct (IH (c + 1)) as [(c' & H1 & H2 & H3 & H4)|[H1 H2]]; [lia|lia|left|right].
    + exists c'. split_and!; [lia|lia|done| |done]. intros k Hk. destruct (decide (k = c)) as [->|]; [done|apply H3; lia].
    + split; [|done]. intros k Hk. destruct (decide (k = c)) as [->|]; [done|apply H1; lia].
Qed.

(** What taking cluster [c] does to the disk and to the table. *)
Record allocates s c s' : Prop := {
  al_range : 3 <= c < TOTAL_CLUSTERS (vol s) + 2;
  al_was_free : free s c;
  al_entry : entry (vol s) (disk_of s') c = 0x0FFFFFFF;
  al_others : forall k, has_entry (vol s) k -> k <> c -> entry (vol s) (disk_of s') k = entry (vol s) (disk_of s) k;
  al_zeroed : forall lba, in_cluster (vol s) c lba -> read_block (disk_of s') lba = zeros;
  al_data : forall lba, DATA_START (vol s) <= lba -> ~ in_cluster (vol s) c lba ->
    read_block (disk_of s') lba = read_block (disk_of s) lba;
  al_hint : FREE_HINT s' = c + 1;
  al_vol : vol s' = vol s;
  al_files : OPEN_FILES s' = OPEN_FILES s;
}.

Lemma entry_zero_run v d n lba c : geometry v -> has_entry v c -> DATA_START v <= lba ->
  entry v (zero_run n lba d) c = entry v d c.
Proof. intros Hg Hc Hl. pose proof (fat_lba_range v c Hg Hc). unfold entry. by rewrite read_zero_run, decide_False by lia. Qed.

Lemma taken_allocates s c : geometry (vol s) -> 3 <= c < TOTAL_CLUSTERS (vol s) + 2 -> free s c ->
  allocates s c (taken s c).
Proof.
  intros Hg Hc Hf. assert (has_entry (vol s) c) by (unfold has_entry; lia). pose proof (geo_spc _ Hg).
  assert (DATA_START (vol s) <= cluster_start (vol s) c) by (unfold cluster_start; nia).
  split; [done|done|..|done|done|done]; unfold disk_of; cbn [taken store disk].
  - rewrite entry_zero_run by done. apply entry_put_same.
  - intros k Hk Hn. rewrite entry_zero_run by done. apply entry_put_other; [lia|unfold has_entry in Hk; lia|done].
  - intros lba Hl. rewrite read_zero_run, decide_True; [done|]. unfold in_cluster in Hl. lia.
  - intros lba Hd Hl. rewrite read_zero_run, decide_False by (unfold in_cluster in Hl; lia). by apply read_set_entry.
Qed.

Lemma alloc_cluster_cases s :
  geometry (vol s) -> 3 <= FREE_HINT s <= TOTAL_CLUSTERS (vol s) + 2 ->
  (exists c s', alloc_cluster s = Got (c, s') /\ allocates s c s') \/
  (alloc_cluster s = Got (0, s) /\ forall c, 3 <= c < TOTAL_CLUSTERS (vol s) + 2 -> ~ free s c).
Proof.
  intros Hg Hh. pose proof (geo_total _ Hg). unfold alloc_cluster, mbind, F_bind. cbn [hint volume_of].
  rewrite as_u32_small by (unfold is_u32; lia).
  destruct (find_free_spec (Z.to_nat (TOTAL_CLUSTERS (vol s) + 2 - FREE_HINT s)) (FREE_HINT s) s)
    as [(c & H1 & H2 & _ & ->)|[H1 ->]]; [done|lia|lia| |].
  { left. exists c, (taken s c). split; [done|]. apply taken_allocates; [done|lia|done]. }
  destruct (find_free_spec (Z.to_nat (FREE_HINT s - 3)) 3 s) as [(c & H2 & H3 & _ & ->)|[H2 ->]]; [done|lia|lia| |].
  - left. exists c, (taken s c). split; [done|]. apply taken_allocates; [done|lia|done].
  - right. split; [done|]. intros c Hc. destruct (decide (c < FREE_HINT s)); [apply H2; lia|apply H1; lia].
Qed.

(** Allocation takes a free cluster whenever there is one.  [alloc_cluster]
    always ends; it returns a cluster that was free, now marked as the end of a
    chain, with all its sectors zeroed, every other entry and every other data
    sector untouched and the hint just behind it; or it returns 0 and changes
    nothing, and then no cluster from 3 on is free. *)
Theorem alloc_cluster_correct s :
  geometry (vol s) -> 3 <= FREE_HINT s <= TOTAL_CLUSTERS (vol s) + 2 ->
  (exists c s', alloc_cluster s = Got (c, s') /\ allocates s c s') \/
  (alloc_cluster s = Got (0, s) /\ forall c, 3 <= c < TOTAL_CLUSTERS (vol s) + 2 -> ~ free s c).
Proof. apply alloc_cluster_cases. Qed.

(** ** Chains *)

(** [l] are the clusters of the chain that starts at [c]. *)
Fixpoint chain v d (c : Z) (l : list Z) : Prop :=
  match l with
  | [] => is_eoc c = true
  | x :: l' => x = c /\ data_cluster v c /\ chain v d (entry v d c) l'
  end.

Lemma data_not_eoc v c : geometry v -> data_cluster v c -> is_eoc c = false.
Proof.
  intros Hg Hc. pose proof (geo_total _ Hg). destruct Hc. unfold is_eoc, FAT_EOC_MIN. rewrite land_mask, Z.mod_small by lia.
  apply orb_false_intro; [apply Z.leb_gt|apply Z.eqb_neq]; lia.
Qed.

Lemma chain_det v d c l l' : geometry v -> chain v d c l -> chain v d c l' -> l = l'.
Proof.
  intros Hg. revert c l'. induction l as [|x l IH]; intros c [|y l']; cbn [chain]; [done|..].
  - intros He (_ & Hc & _). by rewrite (data_not_eoc v c) in He.
  - intros (_ & Hc & _) He. by rewrite (data_not_eoc v c) in He.
  - intros (-> & _ & H1) (-> & _ & H2). f_equal. by eapply IH.
Qed.

Lemma chain_suffix v d c l1 x l2 : chain v d c (l1 ++ x :: l2) -> chain v d x (x :: l2).
Proof.
  revert c. induction l1 as [|y l1 IH]; intros c; cbn [app chain]; [by intros (-> & ? & ?)|].
  intros (_ & _ & H). by eapply IH.
Qed.

(** A chain that ends has no cluster twice. *)
Lemma chain_NoDup v d c l : geometry v -> chain v d c l -> NoDup l.
Proof.
  intros Hg. revert c. induction l as [|x l IH]; intros c H; [constructor|].
  assert (Hx : chain v d x (x :: l)) by (destruct H as (-> & ?); done).
  destruct H as (-> & Hc & H). constructor; [|by eapply IH]. intros (l1 & l2 & ->)%list_elem_of_split.
  pose proof (chain_suffix v d _ _ _ _ H) as Hs. pose proof (chain_det v d c _ _ Hg Hx Hs) as E.
  apply (f_equal length) in E. cbn in E. rewrite length_app in E. cbn in E. lia.
Qed.

Lemma chain_data v d c l x : chain v d c l -> x ∈ l -> data_cluster v x.
Proof.
  revert c. induction l as [|y l IH]; intros c; cbn [chain]; [set_solver|].
  intros (-> & Hc & H) [->|Hx]%elem_of_cons; [done|by eapply IH].
Qed.

(** A chain depends on the entries of its clusters only. *)
Lemma chain_ext v d d' c l : (forall x, x ∈ l -> entry v d' x = entry v d x) -> chain v d c l -> chain v d' c l.
Proof.
  revert c. induction l as [|y l IH]; intros c He; cbn [chain]; [done|]. intros (-> & Hc & H).
  rewrite He by set_solver. split_and!; [done|apply Hc..|]. apply IH; [|done]. intros x Hx. apply He. set_solver.
Qed.

Definition free_all v d (l : list Z) : D := foldl (fun d c => put_entry v d c FAT_FREE) d l.

Lemma entry_free_all v d l k : Forall (data_cluster v) l -> has_entry v k ->
  entry v (free_all v d l) k = if decide (k ∈ l) then FAT_FREE else entry v d k.
Proof.
  intros Hl Hk. revert d. induction Hl as [|c l Hc Hl IH]; intros d; cbn [free_all foldl]; [by rewrite decide_False by set_solver|].
  fold (free_all v (put_entry v d c FAT_FREE) l). rewrite IH. unfold data_cluster, has_entry in *.
  rewrite entry_put by lia. repeat case_decide; set_solver.
Qed.

Lemma read_free_all v d l lba : geometry v -> Forall (data_cluster v) l -> DATA_START v <= lba ->
  read_block (free_all v d l) lba = read_block d lba.
Proof.
  intros Hg Hl Hb. revert d. induction Hl as [|c l Hc Hl IH]; intros d; [done|]. cbn [free_all foldl].
  fold (free_all v (put_entry v d c FAT_FREE) l). rewrite IH. apply read_set_entry; [done|by apply data_has_entry|done].
Qed.

(** The loop frees the clusters of the chain and ends. *)
Lemma free_chain_eq least n c l s : geometry (vol s) -> chain (vol s) (disk_of s) c l -> least <= 2 ->
  (length l <= n)%nat -> free_chain least n c s = Got (tt, on s (free_all (vol s) (disk_of s) l)).
Proof.
  intros Hg H Hle. revert c n s Hg H. induction l as [|x l IH]; intros c n s Hg H Hn.
  - cbn [chain] in H. cbn [free_all foldl]. rewrite on_disk_of. destruct n; cbn [free_chain]; by rewrite H.
  - pose proof (chain_NoDup _ _ _ _ Hg H) as [Hx _]%NoDup_cons. destruct H as (-> & Hc & H).
    pose proof (data_has_entry _ _ Hc) as He. destruct n as [|n]; cbn in Hn; [lia|]. cbn [free_chain].
    rewrite (data_not_eoc (vol s)), (proj2 (Z.ltb_ge c least)) by (done || (destruct Hc; lia)). cbn [orb].
    unfold mbind, F_bind. rewrite fat_get_eq by done. rewrite fat_put_eq by done.
    rewrite (IH _ n (on s (put_entry (vol s) (disk_of s) c FAT_FREE))); [done|done| |lia].
    eapply chain_ext; [|done]. intros y Hy. cbn. pose proof (chain_data _ _ _ _ _ H Hy) as Hd.
    unfold data_cluster in *. apply entry_put_other; [lia|lia|]. by intros ->.
Qed.

End Table.

(** ** The sample volume *)

Lemma sample_geometry : geometry sample_volume.
Proof. split; vm_compute; (done || split; done). Qed.

Lemma alloc_cluster_correct_witness :
  exists s', alloc_cluster (sample_state EMPTY_FILE) = Got (5, s') /\ allocates (sample_state EMPTY_FILE) 5 s'.
Proof.
  destruct (alloc_cluster_correct (sample_state EMPTY_FILE)) as [(c & s' & E & Ha)|[E _]].
  - exact sample_geometry.
  - vm_compute. split; discriminate.
  - assert (c = 5) as -> by (vm_compute in E; by injection E as <- _). by exists s'.
  - vm_compute in E. discriminate.
Defined.
