(* ===== verification/FatFile.v ===== *)
(** * Reading, seeking and writing

    The contents of a file are the bytes of the clusters of its chain, in order.
    [read], [seek] and [write] are related to them: what is read, where a file
    stands afterwards, and what a write changes. *)

From stdpp Require Import base numbers list gmap.
From Stdlib Require Import ZArith Lia.
From S2P Require Import Prelude Sector Fat FatDisk FatTable.

Section File.
Context {D : Type} `{!BlockDevice D} `{!BlockDeviceSpec D}.
Implicit Types (d : D) (s t : fatfs (direct D)) (v : volume) (l : list Z) (f : OpenFile).

(** ** Contents *)

(** The sector that holds byte [i] of the file with clusters [l]. *)
Definition file_sector v l (i : Z) : Z :=
  cluster_start v (nth (Z.to_nat (i / cluster_bytes v)) l 0) + i mod cluster_bytes v / 512.
Definition file_byte v d l (i : Z) : Z := nth (Z.to_nat (i mod 512)) (read_block d (file_sector v l i)) 0.

Definition capacity v l : Z := Z.of_nat (length l) * cluster_bytes v.

(** The current cluster is the one of the chain with the index the file records. *)
Record on_chain v d l f : Prop := {
  oc_chain : chain v d (start_cluster f) l;
  oc_idx : 0 <= cur_clus_idx f;
  oc_cur : l !! Z.to_nat (cur_clus_idx f) = Some (cur_cluster f);
}.

(** And that index is the one of the current offset. *)
Definition positioned v d l f : Prop :=
  on_chain v d l f /\ 0 <= offset f /\ cur_clus_idx f = offset f / cluster_bytes v.

Lemma cluster_bytes_pos v : geometry v -> 512 <= cluster_bytes v <= 130560.
Proof. intros []. unfold cluster_bytes. lia. Qed.

Lemma same_block v i j : geometry v -> 0 <= i -> 0 <= j -> i / 512 = j / 512 -> i / cluster_bytes v = j / cluster_bytes v.
Proof.
  intros [] Hi Hj E. unfold cluster_bytes. rewrite (Z.mul_comm _ 512), <- !Z.div_div by lia. by rewrite E.
Qed.

Lemma mod_block v i : geometry v -> 0 <= i -> i mod cluster_bytes v / 512 = i / 512 mod SECS_PER_CLUSTER v.
Proof.
  intros [] Hi. unfold cluster_bytes. rewrite (Z.mul_comm _ 512), Z.rem_mul_r by lia.
  rewrite (Z.mul_comm 512), Z.div_add by lia. rewrite Z.div_small by (pose proof (Z.mod_pos_bound i 512); lia). lia.
Qed.

Lemma mod_cluster_512 v i : geometry v -> i mod cluster_bytes v mod 512 = i mod 512.
Proof.
  intros []. unfold cluster_bytes. rewrite (Z.mul_comm _ 512), Z.rem_mul_r by lia.
  rewrite (Z.mul_comm 512), Z.mod_add by lia. by rewrite Z.mod_mod.
Qed.

Lemma file_sector_same v l i j : geometry v -> 0 <= i -> 0 <= j -> i / 512 = j / 512 ->
  file_sector v l i = file_sector v l j.
Proof. intros Hg Hi Hj E. unfold file_sector. rewrite (same_block v i j), !mod_block, E by done. done. Qed.

(** Every byte below the capacity is in a sector of a cluster of the chain. *)
Lemma file_sector_in v d c l i : geometry v -> chain v d c l -> 0 <= i < capacity v l ->
  exists x, l !! Z.to_nat (i / cluster_bytes v) = Some x /\ data_cluster v x /\ in_cluster v x (file_sector v l i).
Proof.
  intros Hg Hc Hi. pose proof (cluster_bytes_pos v Hg). unfold capacity in Hi.
  assert (i / cluster_bytes v < Z.of_nat (length l)) by (apply Z.div_lt_upper_bound; lia).
  pose proof (Z.div_pos i (cluster_bytes v)).
  destruct (lookup_lt_is_Some_2 l (Z.to_nat (i / cluster_bytes v))) as [x Hx]; [lia|].
  exists x. split_and!; [done|eapply chain_data; [done|by eapply list_elem_of_lookup_2]..|];
    unfold in_cluster, file_sector; rewrite nth_lookup, Hx, mod_block by (done || lia); cbn;
    destruct Hg; pose proof (Z.mod_pos_bound (i / 512) (SECS_PER_CLUSTER v)); lia.
Qed.

Lemma on_chain_data v d l f : on_chain v d l f -> data_cluster v (cur_cluster f).
Proof. intros [Hc Hi Hx]. eapply chain_data; [done|by eapply list_elem_of_lookup_2]. Qed.

(** The sector of the current cluster that the offset falls into. *)
Definition cur_sector v f : Z := cluster_start v (cur_cluster f) + offset f mod cluster_bytes v / 512.

Lemma cur_position v f : geometry v -> data_cluster v (cur_cluster f) -> 0 <= offset f ->
  position v f = (cur_sector v f, Z.to_nat (offset f mod 512)) /\ in_cluster v (cur_cluster f) (cur_sector v f).
Proof.
  intros Hg Hd Ho. pose proof (geo_spc _ Hg).
  assert (Hin : in_cluster v (cur_cluster f) (cur_sector v f)).
  { unfold in_cluster, cur_sector. rewrite mod_block by done.
    pose proof (Z.mod_pos_bound (offset f / 512) (SECS_PER_CLUSTER v)). lia. }
  split; [|done]. unfold position. rewrite cluster_lba_eq, mod_cluster_512 by done. f_equal.
  pose proof (cluster_range v _ _ Hg Hd Hin). pose proof (data_start_pos v Hg).
  apply as_u64_small. fold (cur_sector v f). unfold is_u64, u64_max in *. lia.
Qed.

Lemma position_eq v d l f : geometry v -> positioned v d l f ->
  position v f = (file_sector v l (offset f), Z.to_nat (offset f mod 512)) /\
  is_eoc (cur_cluster f) = false /\ 2 <= cur_cluster f.
Proof.
  intros Hg [Hoc [Ho E]]. pose proof (on_chain_data _ _ _ _ Hoc) as Hd.
  split_and!; [|by apply (data_not_eoc v)|apply Hd]. destruct (cur_position v f Hg Hd Ho) as [-> _].
  unfold file_sector, cur_sector. by rewrite <- E, nth_lookup, (oc_cur _ _ _ _ Hoc).
Qed.

(** The chain goes on where the list does. *)
Lemma chain_next v d c l i x : chain v d c l -> l !! i = Some x ->
  match l !! S i with Some y => entry v d x = y | None => is_eoc (entry v d x) = true end.
Proof.
  revert c i. induction l as [|a l IH]; intros c i; [done|]. cbn [chain]. intros (-> & _ & H) Hx.
  destruct i as [|i]; cbn in *; [simplify_eq|by eapply IH]. destruct l as [|y l]; cbn in *; [done|]. by destruct H as (-> & _).
Qed.

(** ** Reading *)

(** The file after [k] bytes: at the cluster of the last byte read. *)
Definition advanced v l f (k : Z) : OpenFile :=
  if k =? 0 then f
  else let i := (offset f + k - 1) / cluster_bytes v in
       at_offset (at_cluster f (nth (Z.to_nat i) l 0) i) (offset f + k).

Lemma chunk_bytes v d l o n : geometry v -> 0 <= o -> o mod 512 + Z.of_nat n <= 512 ->
  take n (drop (Z.to_nat (o mod 512)) (read_block d (file_sector v l o))) = file_byte v d l <$> seqZ o (Z.of_nat n).
Proof.
  intros Hg Ho Hn. pose proof (Z.mod_pos_bound o 512).
  rewrite slice_nth by (rewrite read_block_length; unfold SECTOR_SIZE; lia).
  replace (seq _ n) with (Nat.add (Z.to_nat (o mod 512)) <$> seq 0 n) by (rewrite fmap_add_seq; f_equal; lia).
  unfold seqZ. rewrite Nat2Z.id, <- !list_fmap_compose. apply list_fmap_ext. intros i k [Ek Hk]%lookup_seq.
  cbn. unfold file_byte.
  assert (E : (Z.of_nat k + o) / 512 = o / 512 /\ (Z.of_nat k + o) mod 512 = o mod 512 + Z.of_nat k).
  { pose proof (Z.div_mod o 512).
    split; symmetry; [apply (Z.div_unique _ _ _ (o mod 512 + Z.of_nat k))|apply (Z.mod_unique _ _ (o / 512))]; lia. }
  destruct E as [E1 E2]. rewrite (file_sector_same v l (Z.of_nat k + o) o), E2 by (done || lia). f_equal. lia.
Qed.

(** One more chunk: either a byte of the same cluster or the first of the next is next. *)
Lemma next_offset v o n : geometry v -> 0 <= o -> 0 < n -> o mod 512 + n <= 512 ->
  (o + n - 1) / cluster_bytes v = o / cluster_bytes v /\
  (o + n) / cluster_bytes v = if (o + n) mod cluster_bytes v =? 0 then o / cluster_bytes v + 1 else o / cluster_bytes v.
Proof.
  intros Hg Ho Hn Hm. pose proof (cluster_bytes_pos v Hg) as Hb.
  assert (H : (o + n - 1) / cluster_bytes v = o / cluster_bytes v).
  { apply same_block; [done|lia|lia|]. symmetry. pose proof (Z.div_mod o 512). pose proof (Z.mod_pos_bound o 512).
    apply (Z.div_unique _ _ _ (o mod 512 + n - 1)); lia. }
  split; [done|]. rewrite <- H. pose proof (Z.div_mod (o + n) (cluster_bytes v)) as E.
  pose proof (Z.mod_pos_bound (o + n) (cluster_bytes v)). case (Z.eqb_spec ((o + n) mod cluster_bytes v) 0) as [Ez|Ez].
  - rewrite <- (Z.div_unique (o + n - 1) (cluster_bytes v) ((o + n) / cluster_bytes v - 1) (cluster_bytes v - 1)); lia.
  - apply (Z.div_unique (o + n - 1) (cluster_bytes v) _ ((o + n) mod cluster_bytes v - 1)); lia.
Qed.

Lemma positioned_next v d l f n : geometry v -> positioned v d l f -> 0 < n -> offset f mod 512 + n <= 512 ->
  offset f + n < capacity v l ->
  positioned v d l (if (offset f + n) mod cluster_bytes v =? 0
                    then at_cluster (at_offset f (offset f + n)) (entry v d (cur_cluster f)) (cur_clus_idx f + 1)
                    else at_offset f (offset f + n)).
Proof.
  intros Hg [[Hc Hi Hx] [Ho E]] Hn Hm Hcap. pose proof (next_offset v (offset f) n Hg Ho Hn Hm) as [_ E2].
  pose proof (cluster_bytes_pos v Hg) as Hb. pose proof (chain_next _ _ _ _ _ _ Hc Hx) as Hy.
  destruct (Z.eqb_spec ((offset f + n) mod cluster_bytes v) 0) as [Ez|Ez]; [|split; [by split|cbn; lia]].
  split; [|cbn; lia]. split; cbn; [done|lia|].
  assert (Hlt : (offset f + n) / cluster_bytes v < Z.of_nat (length l))
    by (apply Z.div_lt_upper_bound; unfold capacity in Hcap; lia).
  replace (Z.to_nat (cur_clus_idx f + 1)) with (S (Z.to_nat (cur_clus_idx f))) by lia.
  destruct (lookup_lt_is_Some_2 l (S (Z.to_nat (cur_clus_idx f)))) as [y Hl]; [lia|]. rewrite Hl in *. by rewrite Hy.
Qed.

Lemma advanced_trans v l f f' n k : 0 <= offset f -> 0 < n -> 0 < k ->
  f' = at_cluster (at_offset f (offset f + n)) (cur_cluster f') (cur_clus_idx f') ->
  advanced v l f' k = advanced v l f (n + k).
Proof.
  intros Ho Hn Hk ->. unfold advanced. cbn.
  rewrite (proj2 (Z.eqb_neq k 0)), (proj2 (Z.eqb_neq (n + k) 0)) by lia. by rewrite Z.add_assoc.
Qed.

(** Within one sector the cluster stays. *)
Lemma advanced_chunk v d l f n : geometry v -> positioned v d l f -> 0 < n -> offset f mod 512 + n <= 512 ->
  advanced v l f n = at_offset f (offset f + n).
Proof.
  intros Hg [[Hc Hi Hx] [Ho E]] Hn Hm. unfold advanced. rewrite (proj2 (Z.eqb_neq n 0)) by lia.
  destruct (next_offset v (offset f) n Hg Ho Hn Hm) as [-> _]. rewrite <- E, nth_lookup, Hx. by destruct f.
Qed.

Lemma index_u32 v o : geometry v -> 0 <= o < 2 ^ 32 -> is_u32 (o / cluster_bytes v + 1).
Proof.
  intros Hg Ho. pose proof (cluster_bytes_pos v Hg). unfold is_u32. pose proof (Z.div_pos o (cluster_bytes v)).
  assert (o / cluster_bytes v < 2 ^ 31) by (apply Z.div_lt_upper_bound; lia). lia.
Qed.

Lemma read_loop_eq n left l f s : geometry (vol s) -> positioned (vol s) (disk_of s) l f ->
  offset f + Z.of_nat left <= capacity (vol s) l -> offset f + Z.of_nat left < 2 ^ 32 -> (left <= n)%nat ->
  read_loop n left f s =
    Got (file_byte (vol s) (disk_of s) l <$> seqZ (offset f) (Z.of_nat left), advanced (vol s) l f (Z.of_nat left), s).
Proof.
  intros Hg. revert left f. induction n as [|n IH]; intros left f Hp Hcap Hu Hn.
  { by assert (left = 0%nat) as -> by lia. }
  destruct (decide (left = 0%nat)) as [->|Hl]; [done|]. cbn [read_loop].
  destruct (position_eq _ _ _ _ Hg Hp) as (Ep & Ee & E2). pose proof (proj1 (proj2 Hp)) as Ho.
  destruct (file_sector_in _ _ _ _ (offset f) Hg (oc_chain _ _ _ _ (proj1 Hp))) as (x & _ & Hxd & Hxi); [lia|].
  pose proof (cluster_range _ _ _ Hg Hxd Hxi) as Hr.
  rewrite (proj2 (Nat.eqb_neq _ _) Hl), Ee, (proj2 (Z.ltb_ge _ _) E2). cbn [orb]. unfold mbind, F_bind. cbn [volume_of].
  rewrite Ep, read_sec_eq by (unfold NO_LBA; lia). pose proof (Z.mod_pos_bound (offset f) 512) as Hm.
  set (chunk := Nat.min left (SECTOR_SIZE - Z.to_nat (offset f mod 512))).
  assert (Hch : (0 < chunk)%nat /\ (chunk <= left)%nat /\ offset f mod 512 + Z.of_nat chunk <= 512)
    by (unfold chunk, SECTOR_SIZE; lia).
  destruct Hch as (Hc1 & Hc2 & Hc3). rewrite as_u32_small by (unfold is_u32; lia). cbn [at_offset offset].
  rewrite (chunk_bytes (vol s) (disk_of s) l (offset f) chunk) by done.
  replace (Z.of_nat left) with (Z.of_nat chunk + Z.of_nat (left - chunk)) by lia.
  rewrite seqZ_app, fmap_app by lia.
  destruct (decide (left - chunk = 0)%nat) as [E0|E0].
  - rewrite E0, andb_false_r, Z.add_0_r. cbn [mret F_ret]. rewrite (advanced_chunk _ (disk_of s)) by (done || lia).
    by destruct n.
  - rewrite (proj2 (Nat.ltb_lt 0 (left - chunk))), andb_true_r by lia.
    pose proof (positioned_next _ _ _ _ (Z.of_nat chunk) Hg Hp ltac:(lia) Hc3 ltac:(lia)) as Hp'.
    destruct (_ =? 0).
    + rewrite fat_get_eq by (done || exact (data_has_entry _ _ (on_chain_data _ _ _ _ (proj1 Hp)))). cbn [mret F_ret].
      change (cur_clus_idx (at_offset f _)) with (cur_clus_idx f). change (cur_cluster (at_offset f _)) with (cur_cluster f).
      rewrite (as_u32_small (cur_clus_idx f + 1)) by (destruct Hp as [_ [_ ->]]; apply index_u32; [done|lia]).
      rewrite IH; [|done|cbn; lia..]. cbn [mret F_ret]. rewrite (advanced_trans _ _ f _ (Z.of_nat chunk)) by (done || lia). done.
    + cbn [mret F_ret]. rewrite IH; [|done|cbn; lia..]. cbn [mret F_ret].
      rewrite (advanced_trans _ _ f _ (Z.of_nat chunk)) by (done || lia). done.
Qed.

(** ** Open files *)

Definition open_at s (fd : Z) f : Prop :=
  0 <= fd < Z.of_nat MAX_OPEN /\ OPEN_FILES s !! Z.to_nat fd = Some f /\ used f = true.
Definition with_file s (fd : Z) f : fatfs (direct D) :=
  mk_fat (vol s) (FREE_HINT s) (<[Z.to_nat fd := f]> (OPEN_FILES s)) (store s).

Lemma file_at_eq s fd f : open_at s fd f -> file_at fd s = Got (Some f, s).
Proof.
  intros (Hr & Hf & Hu). unfold file_at, mbind, F_bind, files. cbn [mret F_ret].
  by rewrite (proj2 (Z.ltb_lt fd _)), Hf, Hu by lia.
Qed.

Lemma put_file_eq s fd f : put_file fd f s = Got (tt, with_file s fd f).
Proof. done. Qed.

Lemma open_with_file s fd f f' : open_at s fd f -> used f' = true -> open_at (with_file s fd f') fd f'.
Proof.
  intros (Hr & Hf & Hu) Hu'. split_and!; [lia|lia|cbn|done]. rewrite list_lookup_insert_eq; [done|].
  by eapply lookup_lt_Some.
Qed.

Lemma with_own_file s fd f : open_at s fd f -> with_file s fd f = s.
Proof. intros (_ & Hf & _). unfold with_file. rewrite list_insert_id by done. by destruct s. Qed.

(** The file's size is one its clusters can hold. *)
Definition fits v l f : Prop := 0 <= fsize f < 2 ^ 32 /\ fsize f <= capacity v l.

(** How many bytes a read of [len] gives. *)
Definition readable f (len : nat) : Z := Z.min (Z.of_nat len) (Z.max 0 (fsize f - offset f)).

Lemma read_eq s fd f l len : geometry (vol s) -> open_at s fd f -> positioned (vol s) (disk_of s) l f ->
  fits (vol s) l f ->
  read fd len s = Got (readable f len, file_byte (vol s) (disk_of s) l <$> seqZ (offset f) (readable f len),
                       with_file s fd (advanced (vol s) l f (readable f len))).
Proof.
  intros Hg Hf Hp [Hu Hc]. pose proof (proj1 (proj2 Hp)) as Ho. unfold read, mbind, F_bind. rewrite (file_at_eq _ _ _ Hf).
  destruct (Z.eqb_spec (Z.max 0 (fsize f - offset f)) 0) as [E|E].
  { unfold readable. rewrite E, Z.min_r by lia. cbn [advanced Z.eqb seqZ]. by rewrite with_own_file. }
  set (want := Nat.min len _). assert (Hw : Z.of_nat want = readable f len) by (unfold want, readable; lia).
  unfold readable in Hw. rewrite (read_loop_eq _ _ l) by (done || lia). rewrite Hw. cbn [mret F_ret put_file].
  rewrite put_file_eq. rewrite length_fmap, length_seqZ. unfold readable. by rewrite Z2Nat.id by lia.
Qed.

Lemma advanced_positioned v d l f k : geometry v -> positioned v d l f -> 0 <= k -> offset f + k <= capacity v l ->
  k = 0 \/ (offset f + k) mod cluster_bytes v <> 0 -> positioned v d l (advanced v l f k).
Proof.
  intros Hg Hp Hk Hcap Hb. unfold advanced. destruct (Z.eqb_spec k 0) as [|Hn]; [done|]. destruct Hb as [|Hb]; [done|].
  pose proof (cluster_bytes_pos v Hg). destruct Hp as [[Hc Hi Hx] [Ho E]].
  set (q := (offset f + k - 1) / cluster_bytes v).
  assert (Hq : q = (offset f + k) / cluster_bytes v).
  { symmetry. pose proof (Z.div_mod (offset f + k) (cluster_bytes v)).
    pose proof (Z.mod_pos_bound (offset f + k) (cluster_bytes v)).
    rewrite (Z.div_unique (offset f + k - 1) (cluster_bytes v) ((offset f + k) / cluster_bytes v)
      ((offset f + k) mod cluster_bytes v - 1)) at 1; [done|lia..]. }
  assert (0 <= q < Z.of_nat (length l)).
  { split; [apply Z.div_pos; lia|]. apply Z.div_lt_upper_bound; unfold capacity in Hcap; lia. }
  split; [|cbn; lia]. split; cbn; [done|lia|]. rewrite nth_lookup.
  destruct (lookup_lt_is_Some_2 l (Z.to_nat q)) as [x ->]; [lia|done].
Qed.


(** A file that has just read to the end of a cluster is still there. *)
Lemma advanced_boundary v d l f k : geometry v -> positioned v d l f -> 0 < k -> offset f + k <= capacity v l ->
  (offset f + k) mod cluster_bytes v = 0 ->
  advanced v l f k = at_offset (advanced v l f k) (offset f + k) /\
  positioned v d l (at_offset (advanced v l f k) (offset f + k - cluster_bytes v)).
Proof.
  intros Hg [[Hc Hi Hx] [Ho E]] Hk Hcap Hb. pose proof (cluster_bytes_pos v Hg).
  unfold advanced. rewrite (proj2 (Z.eqb_neq k 0)) by lia. split; [done|].
  set (q := (offset f + k - 1) / cluster_bytes v). pose proof (Z.div_mod (offset f + k) (cluster_bytes v)) as Ed.
  assert (Hq : q = (offset f + k) / cluster_bytes v - 1).
  { symmetry. apply (Z.div_unique _ _ _ (cluster_bytes v - 1)); lia. }
  assert (0 <= q < Z.of_nat (length l)).
  { split; [apply Z.div_pos; lia|]. apply Z.div_lt_upper_bound; unfold capacity in Hcap; lia. }
  assert (Eo : offset f + k - cluster_bytes v = q * cluster_bytes v) by nia.
  split; cbn; [|rewrite Eo, Z.div_mul by lia; lia]. split; cbn; [done|lia|]. rewrite nth_lookup.
  destruct (lookup_lt_is_Some_2 l (Z.to_nat q)) as [x ->]; [lia|done].
Qed.

Lemma position_shift v f o : geometry v -> position v (at_offset f (o - cluster_bytes v)) = position v (at_offset f o).
Proof.
  intros Hg. pose proof (cluster_bytes_pos v Hg). unfold position. cbn.
  replace (o - cluster_bytes v) with (o + (-1) * cluster_bytes v) by lia. by rewrite Z.mod_add by lia.
Qed.

(** Up to a sector read at such a place comes from the cluster before. *)
Lemma read_loop_stale l f o m s : geometry (vol s) -> o mod cluster_bytes (vol s) = 0 ->
  positioned (vol s) (disk_of s) l (at_offset f (o - cluster_bytes (vol s))) -> o - cluster_bytes (vol s) < capacity (vol s) l ->
  (0 < m <= SECTOR_SIZE)%nat -> exists f',
  read_loop m m (at_offset f o) s =
    Got (file_byte (vol s) (disk_of s) l <$> seqZ (o - cluster_bytes (vol s)) (Z.of_nat m), f', s).
Proof.
  intros Hg Hb Hp Hcap Hm. destruct m as [|m]; [lia|]. pose proof (proj1 (proj2 Hp)) as Ho. cbn [at_offset offset] in Ho.
  destruct (position_eq _ _ _ _ Hg Hp) as (Ep & Ee & E2). rewrite position_shift in Ep by done.
  destruct (file_sector_in _ _ _ _ (o - cluster_bytes (vol s)) Hg (oc_chain _ _ _ _ (proj1 Hp))) as (x & _ & Hxd & Hxi); [lia|].
  pose proof (cluster_range _ _ _ Hg Hxd Hxi) as Hr.
  set (o' := o - cluster_bytes (vol s)) in *. cbn [at_offset offset cur_cluster] in Ep, Ee, E2. cbn [read_loop Nat.eqb].
  change (cur_cluster (at_offset f o)) with (cur_cluster f). rewrite Ee, (proj2 (Z.ltb_ge _ _) E2). cbn [orb].
  unfold mbind, F_bind. cbn [volume_of]. fold (at_offset f o) in *. rewrite Ep, read_sec_eq by (unfold NO_LBA; lia).
  assert (E0 : o' mod 512 = 0).
  { unfold o', cluster_bytes in *. pose proof (geo_spc _ Hg). apply Z.mod_divide in Hb as [q ->]; [|lia].
    replace (q * (SECS_PER_CLUSTER (vol s) * 512) - SECS_PER_CLUSTER (vol s) * 512)
      with ((q - 1) * SECS_PER_CLUSTER (vol s) * 512) by lia. apply Z.mod_mul. lia. }
  rewrite <- (chunk_bytes (vol s) (disk_of s) l o' (S m)) by (done || unfold SECTOR_SIZE in Hm; lia).
  rewrite E0. change (SECTOR_SIZE - Z.to_nat 0)%nat with SECTOR_SIZE. rewrite Nat.min_l by lia. rewrite Nat.sub_diag, andb_false_r. cbn [mret F_ret].
  replace (read_loop m 0 _ s) with (Got (A := list Z * OpenFile * fatfs (direct D)) ([], at_offset (at_offset f o)
    (as_u32 (offset (at_offset f o) + Z.of_nat (S m))), s)) by by destruct m.
  cbn [mret F_ret]. rewrite app_nil_r. by eexists.
Qed.

(** A read after one that ended at the end of a cluster repeats that cluster.
    [read] moves to the next cluster only while it still wants bytes; when a read
    ends exactly at a cluster boundary inside the file, the next one (up to a
    sector) returns, as bytes of the file at the new offset, the bytes one cluster
    before it. *)
Theorem read_repeats_cluster s fd f l k m :
  geometry (vol s) -> open_at s fd f -> positioned (vol s) (disk_of s) l f -> fits (vol s) l f ->
  (0 < k)%nat -> (offset f + Z.of_nat k) mod cluster_bytes (vol s) = 0 ->
  (0 < m <= SECTOR_SIZE)%nat -> offset f + Z.of_nat k + Z.of_nat m <= fsize f ->
  exists s1 s2,
    read fd k s = Got (Z.of_nat k, file_byte (vol s) (disk_of s) l <$> seqZ (offset f) (Z.of_nat k), s1) /\
    read fd m s1 = Got (Z.of_nat m, file_byte (vol s) (disk_of s) l <$>
                          seqZ (offset f + Z.of_nat k - cluster_bytes (vol s)) (Z.of_nat m), s2).
Proof.
  intros Hg Hf Hp Hs Hk Hb Hm Hle. pose proof (proj1 (proj2 Hp)) as Ho. destruct Hs as [Hu Hc].
  pose proof (read_eq s fd f l k Hg Hf Hp (conj Hu Hc)) as Hr.
  assert (readable f k = Z.of_nat k) as E by (unfold readable; lia). rewrite E in Hr.
  destruct (advanced_boundary _ _ _ f (Z.of_nat k) Hg Hp) as [Ea Hp']; [lia|lia|done|].
  set (g := advanced (vol s) l f (Z.of_nat k)) in *. set (o := offset f + Z.of_nat k) in *.
  assert (Hsz : fsize g = fsize f) by (unfold g, advanced; by destruct (_ =? _)).
  assert (Hug : used g = true) by (unfold g, advanced; destruct (_ =? _); apply Hf).
  destruct (read_loop_stale l g o m (with_file s fd g)) as [f' Hl]; [done|done|done|cbn; pose proof (cluster_bytes_pos _ Hg); lia|done|].
  rewrite <- Ea in Hl. eexists _, (with_file (with_file s fd g) fd f'). split; [exact Hr|].
  unfold read, mbind, F_bind. rewrite (file_at_eq _ _ g) by (by eapply open_with_file).
  assert (Hog : offset g = o) by (rewrite Ea; done). rewrite Hog, Hsz, (proj2 (Z.eqb_neq _ 0)), Nat.min_l by lia.
  rewrite Hl, put_file_eq. cbn [mret F_ret]. by rewrite length_fmap, length_seqZ, Nat2Z.id.
Qed.

(** ** Seeking *)

Lemma seek_loop_eq n i c l x s : geometry (vol s) -> chain (vol s) (disk_of s) x l -> l !! i = Some c ->
  (i + n < length l)%nat ->
  seek_loop n c (Z.of_nat i) s = Got (nth (i + n) l 0, Z.of_nat (i + n), s).
Proof.
  intros Hg Hc. revert i c. induction n as [|n IH]; intros i c Hi Hn; cbn [seek_loop].
  { by rewrite Nat.add_0_r, nth_lookup, Hi. }
  assert (Hd : data_cluster (vol s) c) by (eapply chain_data; [done|by eapply list_elem_of_lookup_2]).
  rewrite (data_not_eoc (vol s)) by done. unfold mbind, F_bind. rewrite fat_get_eq by (done || by apply data_has_entry).
  pose proof (chain_next _ _ _ _ _ _ Hc Hi) as Hy.
  destruct (lookup_lt_is_Some_2 l (S i)) as [y Hl]; [lia|]. rewrite Hl in Hy. rewrite Hy.
  replace (Z.of_nat i + 1) with (Z.of_nat (S i)) by lia. rewrite (IH _ _ Hl) by lia. by rewrite Nat.add_succ_r.
Qed.

(** The file moved to [off]. *)
Definition sought v l f (off : Z) : OpenFile :=
  at_offset (at_cluster f (nth (Z.to_nat (off / cluster_bytes v)) l 0) (off / cluster_bytes v)) off.

Lemma seek_eq s fd f l off : geometry (vol s) -> open_at s fd f -> on_chain (vol s) (disk_of s) l f ->
  0 <= off <= fsize f -> off < capacity (vol s) l ->
  seek fd off s = Got (0, with_file s fd (sought (vol s) l f off)) /\
  positioned (vol s) (disk_of s) l (sought (vol s) l f off).
Proof.
  intros Hg Hf [Hc Hi Hx] Hr Hcap. pose proof (cluster_bytes_pos _ Hg).
  set (q := off / cluster_bytes (vol s)). assert (Hq : 0 <= q < Z.of_nat (length l)).
  { split; [apply Z.div_pos; lia|]. apply Z.div_lt_upper_bound; unfold capacity in Hcap; lia. }
  assert (Hat : exists x, l !! Z.to_nat q = Some x) by (apply lookup_lt_is_Some_2; lia). destruct Hat as [x Hq'].
  split; [|split; [split|cbn; lia]; cbn; [done|lia|fold q; by rewrite nth_lookup, Hq']].
  unfold seek, mbind, F_bind. rewrite (file_at_eq _ _ _ Hf), (proj2 (Z.ltb_ge _ _)) by lia. cbn [volume_of]. fold q.
  assert (Hl0 : l !! 0%nat = Some (start_cluster f)) by (destruct l; [cbn in Hq; lia|cbn; by destruct Hc as [-> _]]).
  destruct (Z.leb_spec (cur_clus_idx f) q).
  - rewrite <- (Z2Nat.id (cur_clus_idx f)) at 2 by done.
    rewrite (seek_loop_eq _ _ _ l (start_cluster f)) by (done || lia). rewrite put_file_eq.
    replace (Z.to_nat (cur_clus_idx f) + Z.to_nat (q - cur_clus_idx f))%nat with (Z.to_nat q) by lia.
    rewrite Z2Nat.id by lia. done.
  - pose proof (seek_loop_eq (Z.to_nat q) 0 (start_cluster f) l (start_cluster f) s Hg Hc Hl0 ltac:(lia)) as E.
    cbn [plus] in E. change (Z.of_nat 0) with 0 in E. rewrite Z.sub_0_r, E, Z2Nat.id by lia. done.
Qed.

End File.

(** ** The sample volume *)

Lemma sample_chain : chain sample_volume sample_disk 3 [3; 4].
Proof. cbn [chain]. split_and!; vm_compute; done. Qed.

Lemma sample_open_at f : used f = true -> open_at (sample_state f) 0 f.
Proof. done. Qed.

Lemma sample_positioned : positioned sample_volume sample_disk [3; 4] (sample_file 3 0 0).
Proof. split; [split; [exact sample_chain|done|done]|done]. Qed.

Lemma sample_fits : fits sample_volume [3; 4] (sample_file 3 0 0).
Proof. vm_compute. repeat split; discriminate. Qed.


Lemma read_repeats_cluster_witness : exists s1 s2,
  read 0 512 (sample_state (sample_file 3 0 0)) = Got (512, replicate 512 65, s1) /\
  read 0 100 s1 = Got (100, replicate 100 65, s2).
Proof.
  destruct (read_repeats_cluster (sample_state (sample_file 3 0 0)) 0 (sample_file 3 0 0) [3; 4] 512 100
    sample_geometry (sample_open_at (sample_file 3 0 0) eq_refl) sample_positioned sample_fits) as (s1 & s2 & H1 & H2).
  - lia.
  - reflexivity.
  - unfold SECTOR_SIZE. lia.
  - vm_compute. discriminate.
  - exists s1, s2. rewrite H1, H2. split; reflexivity.
Defined.
