(* ===== verification/FatWrite.v ===== *)
(** * Writing

    What [write] changes: the bytes of the file at its offset and nothing else,
    as long as the chain is long enough; and that it never makes a chain longer.
    Writing, seeking back and reading gives the bytes written. *)

From stdpp Require Import base numbers list gmap.
From Stdlib Require Import ZArith Lia.
From S2P Require Import Prelude Sector Fat FatDisk FatTable FatFile.

Section Write.
Context {D : Type} `{!BlockDevice D} `{!BlockDeviceSpec D}.
Implicit Types (d : D) (s t : fatfs (direct D)) (v : volume) (l : list Z) (f : OpenFile).

(** ** What a write leaves alone *)

(** The table and every sector outside the clusters [l]. *)
Record confined v l d d' : Prop := {
  cf_table : forall c, has_entry v c -> entry v d' c = entry v d c;
  cf_outside : forall lba, (forall x, x ∈ l -> ~ in_cluster v x lba) -> read_block d' lba = read_block d lba;
}.

Lemma confined_refl v l d : confined v l d d.
Proof. by split. Qed.

Lemma confined_disk_trans v l d1 d2 d3 : confined v l d1 d2 -> confined v l d2 d3 -> confined v l d1 d3.
Proof. intros [H1 H2] [H3 H4]. split; intros; [by rewrite H3, H1|by rewrite H4, H2]. Qed.

Lemma confined_patched v l d c x lba off data : geometry v -> chain v d c l -> x ∈ l -> in_cluster v x lba ->
  (off + length data <= SECTOR_SIZE)%nat -> confined v l d (patched d lba off data).
Proof.
  intros Hg Hc Hx Hin Hl. pose proof (cluster_range v x lba Hg (chain_data _ _ _ _ _ Hc Hx) Hin).
  split; [intros k Hk|intros lba' Hn].
  - pose proof (fat_lba_range v k Hg Hk). unfold entry. rewrite read_patched, decide_False by (done || lia). done.
  - rewrite read_patched by done. rewrite decide_False; [done|]. intros ->. by apply (Hn x).
Qed.

Lemma chain_confined v l d d' c : confined v l d d' -> chain v d c l -> chain v d' c l.
Proof.
  intros [H _] Hc. eapply chain_ext; [|done]. intros x Hx. apply H, data_has_entry. by eapply chain_data.
Qed.

Lemma on_chain_confined v l d d' f : confined v l d d' -> on_chain v d l f -> on_chain v d' l f.
Proof. intros H []. split; [by eapply chain_confined|done..]. Qed.

(** A chain has at most one entry per cluster. *)
Lemma chain_length v d c l : geometry v -> chain v d c l -> Z.of_nat (length l) <= TOTAL_CLUSTERS v.
Proof.
  intros Hg Hc. pose proof (geo_total _ Hg). assert (Hs : l ⊆+ seqZ 2 (TOTAL_CLUSTERS v)).
  { apply NoDup_submseteq; [by eapply chain_NoDup|]. intros x Hx%(chain_data _ _ _ _ _ Hc).
    apply elem_of_seqZ. destruct Hx. lia. }
  apply submseteq_length in Hs. rewrite length_seqZ in Hs. lia.
Qed.

(** ** One round of the loop *)

(** The file after [k] more bytes in the same cluster. *)
Definition grown f (k : Z) : OpenFile :=
  mk_file (used f) (writable f) (Z.max (fsize f) (offset f + k)) (start_cluster f) (cur_cluster f) (cur_clus_idx f)
    (offset f + k) (dir_lba f) (dir_entry_off f).

(** And in the next cluster, if that one is full and the chain has a next one. *)
Definition stepped v d f (k : Z) : OpenFile :=
  if ((offset f + k) mod cluster_bytes v =? 0) && negb (is_eoc (entry v d (cur_cluster f)))
  then at_cluster (grown f k) (entry v d (cur_cluster f)) (cur_clus_idx f + 1) else grown f k.

Definition chunk_of f (buf : list Z) : nat := Nat.min (length buf) (SECTOR_SIZE - Z.to_nat (offset f mod 512)).
Definition put_chunk v d f (buf : list Z) : D :=
  patched d (cur_sector v f) (Z.to_nat (offset f mod 512)) (take (chunk_of f buf) buf).

Lemma chunk_of_range f buf : buf <> [] ->
  (0 < chunk_of f buf <= length buf)%nat /\ offset f mod 512 + Z.of_nat (chunk_of f buf) <= 512 /\
  length (take (chunk_of f buf) buf) = chunk_of f buf.
Proof.
  intros Hb. assert (0 < length buf)%nat by (destruct buf; cbn; [done|lia]). pose proof (Z.mod_pos_bound (offset f) 512).
  rewrite length_take. unfold chunk_of, SECTOR_SIZE. lia.
Qed.

Lemma put_chunk_confined v d l f buf : geometry v -> on_chain v d l f -> 0 <= offset f -> buf <> [] ->
  confined v l d (put_chunk v d f buf).
Proof.
  intros Hg Hoc Ho Hb. destruct (chunk_of_range f buf Hb) as (Hc1 & Hc2 & Hc3).
  eapply confined_patched; [done|apply Hoc|eapply list_elem_of_lookup_2, Hoc| |].
  - eapply cur_position; [done|by eapply on_chain_data|done].
  - rewrite Hc3. unfold SECTOR_SIZE. pose proof (Z.mod_pos_bound (offset f) 512). lia.
Qed.

Lemma grown_eq f k : extend (at_offset f (offset f + k)) = grown f k.
Proof.
  destruct f as [u w z a c i o x y]. unfold grown, extend, at_offset. cbn -[Z.max Z.ltb].
  destruct (Z.ltb_spec z (o + k)); f_equal; lia.
Qed.

Lemma write_loop_step rounds n b buf f l s : geometry (vol s) -> on_chain (vol s) (disk_of s) l f ->
  0 <= offset f -> offset f + Z.of_nat (length (b :: buf)) < 2 ^ 32 ->
  write_loop rounds (S n) (b :: buf) f s =
  match write_loop rounds n (drop (chunk_of f (b :: buf)) (b :: buf)) (stepped (vol s) (disk_of s) f (Z.of_nat (chunk_of f (b :: buf))))
          (on s (put_chunk (vol s) (disk_of s) f (b :: buf))) with
  | Got (k, f', s') => Got ((chunk_of f (b :: buf) + k)%nat, f', s')
  | Crashed => Crashed
  | Stuck => Stuck
  end.
Proof.
  intros Hg Hoc Ho Hu. pose proof (on_chain_data _ _ _ _ Hoc) as Hd. cbn [write_loop].
  destruct (chunk_of_range f (b :: buf)) as (Hc1 & Hc2 & Hc3); [done|].
  destruct (cur_position (vol s) f Hg Hd Ho) as [Ep Hin]. pose proof (cluster_range _ _ _ Hg Hd Hin).
  pose proof (Z.mod_pos_bound (offset f) 512).
  unfold mbind, F_bind, ensure_cluster.
  rewrite (data_not_eoc (vol s)), (proj2 (Z.ltb_ge _ _)) by (done || (destruct Hd; lia)). cbn [orb mret F_ret volume_of].
  rewrite Ep. fold (chunk_of f (b :: buf)). set (chunk := chunk_of f (b :: buf)) in *.
  rewrite patch_eq by (unfold NO_LBA; rewrite ?Hc3; unfold SECTOR_SIZE; lia).
  change (patched (disk_of s) _ _ _) with (put_chunk (vol s) (disk_of s) f (b :: buf)).
  rewrite as_u32_small, grown_eq by (unfold is_u32; lia). unfold stepped.
  change (offset (grown f _)) with (offset f + Z.of_nat chunk). change (cur_cluster (grown f _)) with (cur_cluster f).
  change (cur_clus_idx (grown f _)) with (cur_clus_idx f).
  pose proof (chain_length _ _ _ _ Hg (oc_chain _ _ _ _ Hoc)). pose proof (geo_total _ Hg).
  pose proof (lookup_lt_Some _ _ _ (oc_cur _ _ _ _ Hoc)). pose proof (oc_idx _ _ _ _ Hoc).
  destruct (_ mod _ =? 0); cbn [andb]; [|cbn [mret F_ret]; by destruct (write_loop _ _ _ _ _) as [[[k g] t]| |]].
  assert (He : has_entry (vol s) (cur_cluster f)) by by apply data_has_entry.
  rewrite fat_get_eq by done. cbn [vol on with_store].
  change (disk_of (on s ?d)) with d. rewrite (cf_table _ _ _ _ (put_chunk_confined (vol s) (disk_of s) l f (b :: buf) Hg Hoc Ho ltac:(done)) _ He).
  rewrite as_u32_small by (unfold is_u32; lia).
  destruct (is_eoc _); cbn [negb mret F_ret]; by destruct (write_loop _ _ _ _ _) as [[[k g] t]| |].
Qed.

Lemma stepped_offset v d f k : offset (stepped v d f k) = offset f + k.
Proof. unfold stepped. by destruct (_ && _). Qed.

Lemma stepped_on_chain v d l f k : on_chain v d l f -> on_chain v d l (stepped v d f k).
Proof.
  intros [Hc Hi Hx]. unfold stepped. pose proof (chain_next _ _ _ _ _ _ Hc Hx) as Hy.
  destruct (_ =? _); [|by split]. destruct (is_eoc (entry v d (cur_cluster f))) eqn:He; [by split|]. split; cbn; [done|lia|].
  replace (Z.to_nat (cur_clus_idx f + 1)) with (S (Z.to_nat (cur_clus_idx f))) by lia.
  destruct (l !! S (Z.to_nat (cur_clus_idx f))) as [y|]; [by rewrite Hy|by rewrite Hy in He].
Qed.

Lemma stepped_positioned v d l f k : geometry v -> positioned v d l f -> 0 < k -> offset f mod 512 + k <= 512 ->
  offset f + k < capacity v l -> positioned v d l (stepped v d f k).
Proof.
  intros Hg Hp Hk Hm Hcap. pose proof (proj1 Hp) as Hoc. pose proof (stepped_on_chain v d l f k Hoc) as Hs.
  split; [done|]. rewrite stepped_offset. pose proof (positioned_next _ _ _ _ k Hg Hp Hk Hm Hcap) as [Hn [Ho E]].
  destruct Hp as [_ [Hf Ef]]. split; [lia|]. unfold stepped. destruct (_ =? 0); [|done].
  rewrite (data_not_eoc v) by (done || exact (on_chain_data _ _ _ _ Hn)). done.
Qed.

(** ** The loop *)

(** What writing [n] bytes has done. *)
Record wrote v l d f d' f' (n : Z) : Prop := {
  wr_confined : confined v l d d';
  wr_on : on_chain v d' l f';
  wr_offset : offset f' = offset f + n;
  wr_size : fsize f' = if n =? 0 then fsize f else Z.max (fsize f) (offset f + n);
  wr_same : used f' = used f /\ writable f' = writable f /\ start_cluster f' = start_cluster f /\
    dir_lba f' = dir_lba f /\ dir_entry_off f' = dir_entry_off f;
}.

Lemma wrote_step v l d f buf : geometry v -> on_chain v d l f -> 0 <= offset f -> buf <> [] ->
  wrote v l d f (put_chunk v d f buf) (stepped v d f (Z.of_nat (chunk_of f buf))) (Z.of_nat (chunk_of f buf)).
Proof.
  intros Hg Hoc Ho Hb. destruct (chunk_of_range f buf Hb) as (Hc1 & _ & _).
  pose proof (put_chunk_confined v d l f buf Hg Hoc Ho Hb) as Hcf.
  split; [done|by eapply on_chain_confined, stepped_on_chain|apply stepped_offset|..].
  - rewrite (proj2 (Z.eqb_neq _ _)) by lia. unfold stepped. by destruct (_ && _).
  - unfold stepped. by destruct (_ && _).
Qed.

Lemma wrote_trans v l d1 f1 d2 f2 d3 f3 n m : 0 < n -> 0 <= m ->
  wrote v l d1 f1 d2 f2 n -> wrote v l d2 f2 d3 f3 m -> wrote v l d1 f1 d3 f3 (n + m).
Proof.
  intros Hn Hm [A1 A2 A3 A4 A5] [B1 B2 B3 B4 B5]. split; [by eapply confined_disk_trans|done|lia| |intuition congruence].
  rewrite (proj2 (Z.eqb_neq _ _)) in A4 by lia. rewrite (proj2 (Z.eqb_neq (n + m) 0)) by lia.
  rewrite B4. destruct (Z.eqb_spec m 0); lia.
Qed.

(** The contents after [buf] is put at [o]. *)
Definition puts v l d d' (o : Z) (buf : list Z) : Prop :=
  forall i, 0 <= i < capacity v l ->
    file_byte v d' l i = if decide (o <= i < o + Z.of_nat (length buf)) then nth (Z.to_nat (i - o)) buf 0 else file_byte v d l i.

Lemma puts_app v l d1 d2 d3 o b1 b2 :
  puts v l d1 d2 o b1 -> puts v l d2 d3 (o + Z.of_nat (length b1)) b2 -> puts v l d1 d3 o (b1 ++ b2).
Proof.
  intros H1 H2 i Hi. rewrite H2 by done. rewrite length_app.
  destruct (decide (o + Z.of_nat (length b1) <= i < o + Z.of_nat (length b1) + Z.of_nat (length b2))).
  - rewrite decide_True by lia. rewrite app_nth2 by lia. f_equal. lia.
  - rewrite H1 by done. case_decide; [rewrite decide_True by lia; rewrite app_nth1 by lia; done|].
    by rewrite decide_False by lia.
Qed.

(** Different sectors of a file are different sectors of the disk. *)
Lemma file_sector_inj v d c l i j : geometry v -> chain v d c l -> 0 <= i < capacity v l -> 0 <= j < capacity v l ->
  file_sector v l i = file_sector v l j -> i / 512 = j / 512.
Proof.
  intros Hg Hc Hi Hj E. pose proof (cluster_bytes_pos v Hg).
  destruct (file_sector_in v d c l i Hg Hc Hi) as (x & Hx & _ & Hxi).
  destruct (file_sector_in v d c l j Hg Hc Hj) as (y & Hy & _ & Hyj). rewrite E in Hxi.
  pose proof (cluster_disjoint v x y _ Hg Hxi Hyj). subst y.
  pose proof (NoDup_lookup _ _ _ _ (chain_NoDup _ _ _ _ Hg Hc) Hx Hy) as En.
  pose proof (Z.div_pos i (cluster_bytes v)). pose proof (Z.div_pos j (cluster_bytes v)).
  assert (Eq : i / cluster_bytes v = j / cluster_bytes v) by lia.
  unfold file_sector in E. rewrite Eq, !mod_block in E by (done || lia).
  pose proof (geo_spc _ Hg). unfold cluster_bytes in Eq. rewrite (Z.mul_comm _ 512), <- !Z.div_div in Eq by lia.
  rewrite (Z.div_mod (i / 512) (SECS_PER_CLUSTER v)), (Z.div_mod (j / 512) (SECS_PER_CLUSTER v)) by lia. lia.
Qed.

Lemma put_chunk_puts v d l f buf : geometry v -> positioned v d l f -> offset f < capacity v l -> buf <> [] ->
  puts v l d (put_chunk v d f buf) (offset f) (take (chunk_of f buf) buf).
Proof.
  intros Hg Hp Hcap Hb i Hi. destruct (chunk_of_range f buf Hb) as (Hc1 & Hc2 & Hc3). rewrite Hc3.
  pose proof Hp as [Hoc [Ho E]]. pose proof (Z.mod_pos_bound (offset f) 512) as Hm. pose proof (Z.mod_pos_bound i 512) as Hmi.
  assert (Es : cur_sector v f = file_sector v l (offset f))
    by (unfold cur_sector, file_sector; by rewrite <- E, nth_lookup, (oc_cur _ _ _ _ Hoc)).
  unfold file_byte, put_chunk. rewrite Es, read_patched by (rewrite Hc3; unfold SECTOR_SIZE; lia).
  pose proof (Z.div_mod i 512). pose proof (Z.div_mod (offset f) 512).
  destruct (decide (file_sector v l i = file_sector v l (offset f))) as [Ei|Ei].
  - pose proof (file_sector_inj v d _ l i (offset f) Hg (oc_chain _ _ _ _ Hoc) Hi ltac:(lia) Ei).
    rewrite nth_splice by (rewrite Hc3, read_block_length; unfold SECTOR_SIZE; lia). rewrite Hc3, Ei.
    repeat case_decide; try lia; f_equal; lia.
  - case_decide; [|done]. destruct Ei. apply file_sector_same; [done|lia|lia|]. symmetry.
    apply (Z.div_unique _ _ _ (offset f mod 512 + (i - offset f))); lia.
Qed.

Lemma write_loop_eq rounds n buf f l s : geometry (vol s) -> on_chain (vol s) (disk_of s) l f ->
  0 <= offset f -> offset f + Z.of_nat (length buf) < 2 ^ 32 -> (length buf <= n)%nat ->
  exists d' f', write_loop rounds n buf f s = Got (length buf, f', on s d') /\
    wrote (vol s) l (disk_of s) f d' f' (Z.of_nat (length buf)) /\
    (buf = [] \/ positioned (vol s) (disk_of s) l f -> offset f + Z.of_nat (length buf) <= capacity (vol s) l ->
     puts (vol s) l (disk_of s) d' (offset f) buf).
Proof.
  intros Hg. revert buf f s Hg. induction n as [|n IH]; intros buf f s Hg Hoc Ho Hu Hn;
    (destruct buf as [|b buf];
     [exists (disk_of s), f; rewrite on_disk_of; split; [done|split; [split; cbn; [apply confined_refl|done|lia|done|done]|
       by intros _ _ i _; rewrite decide_False by (cbn; lia)]]|]).
  { cbn in Hn. lia. }
  rewrite (write_loop_step _ _ _ _ _ l) by done. destruct (chunk_of_range f (b :: buf)) as (Hc1 & Hc2 & Hc3); [done|].
  pose proof (wrote_step (vol s) l (disk_of s) f (b :: buf) Hg Hoc Ho ltac:(done)) as Hw.
  set (k := chunk_of f (b :: buf)) in *. set (d1 := put_chunk _ _ _ _) in *. set (f1 := stepped _ _ _ _) in *.
  assert (Hl : length (drop k (b :: buf)) = (length (b :: buf) - k)%nat) by apply length_drop.
  destruct (IH (drop k (b :: buf)) f1 (on s d1)) as (d' & f' & -> & Hw' & Hp'); [done|apply Hw|rewrite (wr_offset _ _ _ _ _ _ _ Hw)..|lia|];
    [lia|lia|]. change (disk_of (on s d1)) with d1 in *. change (vol (on s d1)) with (vol s) in *. exists d', f'.
  replace (Z.of_nat (length (b :: buf))) with (Z.of_nat k + Z.of_nat (length (drop k (b :: buf)))) by lia.
  split; [|split; [by eapply wrote_trans; [lia|lia|..]|]].
  - f_equal. do 2 f_equal. lia.
  - intros [|Hp] Hcap; [done|]. rewrite <- (take_drop k (b :: buf)) at 1.
    eapply puts_app; [apply put_chunk_puts; [done|done|cbn in *; lia|done]|]. fold k. rewrite Hc3.
    rewrite <- (wr_offset _ _ _ _ _ _ _ Hw). apply Hp'; [|rewrite (wr_offset _ _ _ _ _ _ _ Hw); lia].
    destruct (decide (drop k (b :: buf) = [])) as [|E0]; [by left|right].
    assert (length (drop k (b :: buf)) <> 0)%nat by (by intros ?%nil_length_inv).
    destruct (stepped_positioned (vol s) (disk_of s) l f (Z.of_nat k)) as [H1 H2]; [done|done|lia|done|lia|].
    split; [|done]. eapply on_chain_confined; [apply Hw|done].
Qed.

(** ** [write] *)

(** The directory entry of the file is in a sector of its own. *)
Definition entry_apart v l f : Prop :=
  dir_lba f = 0 \/
  (DATA_START v <= dir_lba f < u64_max /\ (dir_entry_off f + 32 <= SECTOR_SIZE)%nat /\
   forall x, x ∈ l -> ~ in_cluster v x (dir_lba f)).

(** The disk with the size of [f] in its directory entry. *)
Definition flushed d f : D :=
  if dir_lba f =? 0 then d else patched d (dir_lba f) (dir_entry_off f + 28) (to_le_bytes 4 (fsize f)).

Lemma flush_size_eq v l f s : vol s = v -> entry_apart v l f -> flush_size f s = Got (tt, on s (flushed (disk_of s) f)).
Proof.
  intros <- Ha. unfold flush_size, flushed. destruct (Z.eqb_spec (dir_lba f) 0); [by rewrite on_disk_of|].
  destruct Ha as [|(Ha & Hb & _)]; [done|]. apply patch_eq; [unfold NO_LBA; lia|]. rewrite length_to_le_bytes. lia.
Qed.

Lemma read_flushed v l d f lba : entry_apart v l f -> lba <> dir_lba f -> read_block (flushed d f) lba = read_block d lba.
Proof.
  intros Ha Hn. unfold flushed. destruct (Z.eqb_spec (dir_lba f) 0); [done|]. destruct Ha as [|(Ha & Hb & _)]; [done|].
  rewrite read_patched by (rewrite length_to_le_bytes; lia). by rewrite decide_False.
Qed.

Lemma entry_flushed v l d f c : geometry v -> entry_apart v l f -> has_entry v c ->
  entry v (flushed d f) c = entry v d c.
Proof.
  intros Hg Ha Hc. destruct (decide (dir_lba f = 0)) as [E|E]; [unfold flushed; by rewrite E|].
  pose proof (fat_lba_range v c Hg Hc). unfold entry. destruct Ha as [|Ha]; [done|].
  rewrite (read_flushed v l); [done|by right|lia].
Qed.

Lemma byte_flushed v l d c f i : geometry v -> chain v d c l -> entry_apart v l f -> 0 <= i < capacity v l ->
  file_byte v (flushed d f) l i = file_byte v d l i.
Proof.
  intros Hg Hc Ha Hi. destruct (file_sector_in v d c l i Hg Hc Hi) as (x & Hx & Hd & Hin). unfold file_byte.
  destruct (decide (dir_lba f = 0)) as [E|E]; [unfold flushed; by rewrite E|].
  destruct Ha as [|Ha]; [done|]. rewrite (read_flushed v l); [done|by right|]. intros E'.
  destruct Ha as (_ & _ & Ha). apply (Ha x); [by eapply list_elem_of_lookup_2|by rewrite <- E'].
Qed.

(** All that a [write] of [buf] does, whether or not the chain is long enough. *)
Lemma write_eq rounds s fd f l buf : geometry (vol s) -> open_at s fd f -> writable f = true ->
  on_chain (vol s) (disk_of s) l f -> 0 <= offset f -> offset f + Z.of_nat (length buf) < 2 ^ 32 ->
  entry_apart (vol s) l f ->
  exists d' f', write rounds fd buf s = Got (Z.of_nat (length buf), with_file (on s (flushed d' f')) fd f') /\
    wrote (vol s) l (disk_of s) f d' f' (Z.of_nat (length buf)) /\ entry_apart (vol s) l f' /\
    (buf = [] \/ positioned (vol s) (disk_of s) l f -> offset f + Z.of_nat (length buf) <= capacity (vol s) l ->
     puts (vol s) l (disk_of s) d' (offset f) buf).
Proof.
  intros Hg Hf Hw Hoc Ho Hu Ha. destruct (write_loop_eq rounds (length buf) buf f l s) as (d' & f' & Hl & Hr & Hp); [done..|].
  assert (Ha' : entry_apart (vol s) l f').
  { unfold entry_apart in *. by destruct (wr_same _ _ _ _ _ _ _ Hr) as (_ & _ & _ & -> & ->). }
  exists d', f'. split; [|done]. unfold write, mbind, F_bind. rewrite (file_at_eq _ _ _ Hf), Hw. cbn [negb].
  rewrite Hl, put_file_eq. rewrite (flush_size_eq (vol s) l) by done. done.
Qed.

(** C10: A write changes the file's bytes and nothing else.  A write inside the
    clusters of the chain returns the length of the buffer; afterwards byte [i] of
    the file is the buffer's where the buffer lay and what it was elsewhere, the
    allocation table is unchanged, no sector but those of the file and the one with
    its directory entry is touched, and the size is the larger of the old one and
    the end of the write. *)
Theorem write_correct rounds s fd f l buf :
  geometry (vol s) -> open_at s fd f -> writable f = true -> positioned (vol s) (disk_of s) l f ->
  offset f + Z.of_nat (length buf) <= capacity (vol s) l -> offset f + Z.of_nat (length buf) < 2 ^ 32 ->
  entry_apart (vol s) l f -> buf <> [] ->
  exists d' f', write rounds fd buf s = Got (Z.of_nat (length buf), with_file (on s d') fd f') /\
    puts (vol s) l (disk_of s) d' (offset f) buf /\
    (forall c, has_entry (vol s) c -> entry (vol s) d' c = entry (vol s) (disk_of s) c) /\
    (forall lba, (forall x, x ∈ l -> ~ in_cluster (vol s) x lba) -> lba <> dir_lba f ->
       read_block d' lba = read_block (disk_of s) lba) /\
    offset f' = offset f + Z.of_nat (length buf) /\ fsize f' = Z.max (fsize f) (offset f').
Proof.
  intros Hg Hf Hw [Hoc [Ho E]] Hcap Hu Ha Hb.
  destruct (write_eq rounds s fd f l buf) as (d' & f' & Hl & Hr & Ha' & Hp); [done..|].
  exists (flushed d' f'), f'. destruct Hr as [[R1 R2] R3 R4 R5 (_ & _ & _ & R6 & _)]. split_and!; [done|..].
  - intros i Hi. rewrite (byte_flushed _ _ _ (start_cluster f')) by (done || apply R3). by apply Hp; [right|..].
  - intros c Hc. rewrite (entry_flushed _ l) by done. by apply R1.
  - intros lba Hl' Hn. rewrite (read_flushed (vol s) l) by (done || congruence). by apply R2.
  - done.
  - rewrite (proj2 (Z.eqb_neq _ 0)) in R5 by (destruct buf; cbn; [done|lia]). by rewrite R5, R4.
Qed.

(** A write never makes a file's chain longer.  When the data runs past the
    last cluster the loop stays on that cluster and writes over its beginning: the
    call still reports every byte written and the size still grows, but the
    allocation table, and with it the chain, is what it was, and only sectors of
    the old clusters (and the directory entry) have changed. *)
Theorem write_never_extends rounds s fd f l buf :
  geometry (vol s) -> open_at s fd f -> writable f = true -> on_chain (vol s) (disk_of s) l f ->
  0 <= offset f -> capacity (vol s) l < offset f + Z.of_nat (length buf) < 2 ^ 32 ->
  entry_apart (vol s) l f -> buf <> [] ->
  exists d' f', write rounds fd buf s = Got (Z.of_nat (length buf), with_file (on s d') fd f') /\
    chain (vol s) d' (start_cluster f') l /\ capacity (vol s) l < fsize f' /\
    (forall c, has_entry (vol s) c -> entry (vol s) d' c = entry (vol s) (disk_of s) c) /\
    (forall lba, (forall x, x ∈ l -> ~ in_cluster (vol s) x lba) -> lba <> dir_lba f ->
       read_block d' lba = read_block (disk_of s) lba).
Proof.
  intros Hg Hf Hw Hoc Ho Hcap Ha Hb.
  destruct (write_eq rounds s fd f l buf) as (d' & f' & Hl & Hr & Ha' & _); [done|done|done|done|lia|lia|done|].
  exists (flushed d' f'), f'. destruct Hr as [[R1 R2] R3 R4 R5 (_ & _ & _ & R6 & _)].
  assert (Ht : forall c, has_entry (vol s) c -> entry (vol s) (flushed d' f') c = entry (vol s) (disk_of s) c)
    by (intros c Hc; rewrite (entry_flushed _ l) by done; by apply R1).
  split_and!; [done|..|done|].
  - eapply chain_ext; [|apply R3]. intros x Hx. apply (entry_flushed _ l); [done|done|].
    apply data_has_entry. eapply chain_data; [apply R3|done].
  - rewrite (proj2 (Z.eqb_neq _ 0)) in R5 by (destruct buf; cbn; [done|lia]). lia.
  - intros lba Hl' Hn. rewrite (read_flushed (vol s) l) by (done || congruence). by apply R2.
Qed.

(** What was written can be read back.  After writing a buffer that fits into
    the chain, seeking back to where it began and reading its length returns
    exactly the bytes of the buffer, across any number of sectors and clusters. *)
Theorem write_seek_read rounds s fd f l buf :
  geometry (vol s) -> open_at s fd f -> writable f = true -> positioned (vol s) (disk_of s) l f -> fits (vol s) l f ->
  offset f + Z.of_nat (length buf) <= capacity (vol s) l -> offset f + Z.of_nat (length buf) < 2 ^ 32 ->
  entry_apart (vol s) l f -> buf <> [] ->
  exists s1 s2 s3, write rounds fd buf s = Got (Z.of_nat (length buf), s1) /\
    seek fd (offset f) s1 = Got (0, s2) /\ read fd (length buf) s2 = Got (Z.of_nat (length buf), buf, s3).
Proof.
  intros Hg Hf Hw Hp [Hs1 Hs2] Hcap Hu Ha Hb. assert (0 < length buf)%nat by (destruct buf; cbn; [done|lia]).
  pose proof Hp as [Hoc [Ho _]].
  destruct (write_eq rounds s fd f l buf) as (d' & f' & Hl & Hr & Ha' & Hput); [done..|].
  specialize (Hput (or_intror Hp) Hcap). destruct Hr as [[R1 R2] R3 R4 R5 (R7 & _)].
  rewrite (proj2 (Z.eqb_neq _ 0)) in R5 by lia. set (s1 := with_file _ fd f') in Hl.
  assert (Hf1 : open_at s1 fd f') by (eapply open_with_file; [exact Hf|rewrite R7; apply Hf]).
  assert (Hoc1 : on_chain (vol s) (flushed d' f') l f').
  { destruct R3 as [R31 R32 R33]. split; [|done..]. eapply chain_ext; [|done]. intros x Hx.
    apply (entry_flushed _ l); [done|done|]. apply data_has_entry. by eapply chain_data. }
  destruct (seek_eq s1 fd f' l (offset f)) as [Hk Hp2]; [done|done|done|lia|cbn; lia|].
  set (f2 := sought (vol s1) l f' (offset f)) in *. eexists s1, (with_file s1 fd f2), _. split_and!; [done|done|].
  rewrite (read_eq (with_file s1 fd f2) fd f2 l); [|done|by eapply open_with_file; [|apply Hf1]|done|split; cbn; lia].
  assert (E : readable f2 (length buf) = Z.of_nat (length buf)) by (unfold readable; cbn; lia). rewrite E.
  do 3 f_equal. apply list_eq_same_length with (length buf); [done|by rewrite length_fmap, length_seqZ, Nat2Z.id|].
  intros i x y Hi Hx Hy. rewrite list_lookup_fmap, lookup_seqZ_lt in Hx by lia. cbn in Hx. simplify_eq.
  change (disk_of _) with (flushed d' f'). rewrite (byte_flushed _ _ _ (start_cluster f')) by (done || apply R3 || lia).
  rewrite Hput, decide_True by lia. rewrite nth_lookup. replace (Z.to_nat _) with i by lia. by rewrite Hy.
Qed.

End Write.

(** ** The sample volume *)

Lemma sample_apart : entry_apart sample_volume [3; 4] (sample_file 3 0 0).
Proof.
  right. split_and!; [vm_compute; discriminate|done|vm_compute; lia|]. intros x Hx [H1 H2].
  assert (x = 3 \/ x = 4) as [-> | ->] by set_solver; vm_compute in H1; by destruct H1.
Qed.

Lemma write_correct_witness : exists d' f',
  write 8 0 (replicate 600 7) (sample_state (sample_file 3 0 0)) =
    Got (600, with_file (on (sample_state (sample_file 3 0 0)) d') 0 f') /\ fsize f' = 1000.
Proof.
  destruct (write_correct 8 (sample_state (sample_file 3 0 0)) 0 (sample_file 3 0 0) [3; 4] (replicate 600 7)
    sample_geometry (sample_open_at (sample_file 3 0 0) eq_refl) eq_refl sample_positioned) as (d' & f' & H1 & _ & _ & _ & H2 & H3).
  - vm_compute. discriminate.
  - vm_compute. reflexivity.
  - exact sample_apart.
  - discriminate.
  - exists d', f'. split; [exact H1|]. rewrite H3, H2. reflexivity.
Defined.

Lemma write_never_extends_witness : exists d' f',
  write 8 0 (replicate 1100 7) (sample_state (sample_file 3 0 0)) =
    Got (1100, with_file (on (sample_state (sample_file 3 0 0)) d') 0 f') /\
  chain sample_volume d' (start_cluster f') [3; 4] /\ 1024 < fsize f'.
Proof.
  destruct (write_never_extends 8 (sample_state (sample_file 3 0 0)) 0 (sample_file 3 0 0) [3; 4] (replicate 1100 7)
    sample_geometry (sample_open_at (sample_file 3 0 0) eq_refl) eq_refl (proj1 sample_positioned)) as (d' & f' & H1 & H2 & H3 & _).
  - vm_compute. discriminate.
  - vm_compute. split; reflexivity.
  - exact sample_apart.
  - discriminate.
  - exists d', f'. split; [exact H1|split; [exact H2|exact H3]].
Defined.

Lemma write_seek_read_witness : exists s1 s2 s3,
  write 8 0 (replicate 600 7) (sample_state (sample_file 3 0 0)) = Got (600, s1) /\
  seek 0 0 s1 = Got (0, s2) /\ read 0 600 s2 = Got (600, replicate 600 7, s3).
Proof.
  destruct (write_seek_read 8 (sample_state (sample_file 3 0 0)) 0 (sample_file 3 0 0) [3; 4] (replicate 600 7)
    sample_geometry (sample_open_at (sample_file 3 0 0) eq_refl) eq_refl sample_positioned sample_fits) as (s1 & s2 & s3 & H).
  - vm_compute. discriminate.
  - vm_compute. reflexivity.
  - exact sample_apart.
  - discriminate.
  - exists s1, s2, s3. exact H.
Defined.
