(* ===== verification/FatDir.v ===== *)
(** * Directory entries, deletion and truncation

    8.3 names and their encoding, the entries [create] and [rename] write, and
    what [unlink] and [open_write] do to the chain of a file. *)

From stdpp Require Import base numbers list gmap.
From Stdlib Require Import ZArith Lia.
From S2P Require Import Prelude Sector Fat FatDisk FatTable FatFile.

(** ** Names *)

(** A byte of an 8.3 name. *)
Definition plain (b : Z) : Prop := b <> 32 /\ b <> 46.

(** [NAME.EXT], or [NAME] without an extension. *)
Definition join_name (name ext : list Z) : list Z := match ext with [] => name | _ => name ++ 46 :: ext end.

Lemma lower_upper b : to_ascii_lowercase (to_ascii_uppercase b) = to_ascii_lowercase b.
Proof. unfold to_ascii_lowercase, to_ascii_uppercase. repeat (case_if; znorm; try lia). Qed.

Lemma upper_space b : b <> 32 -> to_ascii_uppercase b <> 32.
Proof. unfold to_ascii_uppercase. intros H. case_if; znorm; lia. Qed.

Lemma rfind_none c l : Forall (fun b => b <> c) l -> rfind c l = None.
Proof. induction 1 as [|b l Hb Hl IH]; cbn [rfind]; [done|]. by rewrite IH, (proj2 (Z.eqb_neq _ _)). Qed.

Lemma rfind_last c l1 l2 : Forall (fun b => b <> c) l2 -> rfind c (l1 ++ c :: l2) = Some (length l1).
Proof.
  intros Hl. induction l1 as [|b l1 IH]; cbn [rfind app length].
  - by rewrite (rfind_none c l2), Z.eqb_refl.
  - by rewrite IH.
Qed.

Lemma trim_spaces_pad l n : Forall (fun b => b <> 32) l -> trim_spaces (l ++ replicate n 32) = l.
Proof.
  induction 1 as [|b l Hb Hl IH]; cbn [app trim_spaces].
  - induction n as [|n IH]; cbn; [done|]. by rewrite IH.
  - rewrite IH. destruct l; [by rewrite (proj2 (Z.eqb_neq _ _))|done].
Qed.

Lemma length_pad n l : length (pad n l) = n.
Proof. unfold pad. rewrite length_app, length_replicate, length_take. lia. Qed.

Lemma trim_pad n l : (length l <= n)%nat -> Forall (fun b => b <> 32) l -> trim_spaces (pad n l) = to_ascii_uppercase <$> l.
Proof.
  intros Hn Hl. unfold pad. rewrite take_ge by (by rewrite length_fmap). apply trim_spaces_pad.
  apply Forall_fmap. eapply Forall_impl; [done|]. apply upper_space.
Qed.

Lemma lower_upper_map (l : list Z) : to_ascii_lowercase <$> (to_ascii_uppercase <$> l) = to_ascii_lowercase <$> l.
Proof. rewrite <- list_fmap_compose. apply list_fmap_ext. intros _ b _. apply lower_upper. Qed.

Lemma name_83_join name ext : Forall plain name -> Forall plain ext -> name_83 (join_name name ext) = pad 8 name ++ pad 3 ext.
Proof.
  intros Hn He. unfold name_83, join_name. destruct ext as [|e ext].
  - rewrite rfind_none; [done|]. eapply Forall_impl; [done|]. by intros b [].
  - rewrite rfind_last by (eapply Forall_impl; [done|]; by intros b []).
    rewrite take_app_length. by rewrite drop_app_ge, Nat.sub_succ_l, Nat.sub_diag by lia.
Qed.

Lemma length_name_83 fname : length (name_83 fname) = 11%nat.
Proof. unfold name_83. destruct (rfind 46 fname); by rewrite length_app, !length_pad. Qed.

(** An 8.3 name survives its encoding.  Padding a name of up to eight bytes and
    an extension of up to three to the eleven upper-case bytes of a directory entry
    and decoding them with [short_name] gives the name back in lower case, so that
    [name_eq] finds the file under the name it was created with. *)
Theorem short_name_roundtrip name ext :
  Forall plain name -> Forall plain ext -> (length name <= 8)%nat -> (length ext <= 3)%nat ->
  short_name (name_83 (join_name name ext)) = to_ascii_lowercase <$> join_name name ext /\
  name_eq (short_name (name_83 (join_name name ext))) (join_name name ext) = true.
Proof.
  intros Hn He Ln Le.
  assert (Hp : forall l, Forall plain l -> Forall (fun b => b <> 32) l) by (intros l Hl; eapply Forall_impl; [done|]; by intros b []).
  assert (E : short_name (name_83 (join_name name ext)) = to_ascii_lowercase <$> join_name name ext).
  { rewrite name_83_join by done. unfold short_name.
    rewrite take_app_length', drop_app_length' by (by rewrite length_pad).
    rewrite (take_ge (pad 3 ext)) by (by rewrite length_pad). rewrite !trim_pad by auto. rewrite lower_upper_map.
    destruct ext as [|e ext]; [done|]. change (to_ascii_uppercase <$> e :: ext) with (to_ascii_uppercase e :: (to_ascii_uppercase <$> ext)).
    cbn [join_name]. rewrite fmap_app, !fmap_cons, lower_upper, lower_upper_map. done. }
  split; [done|]. rewrite E. unfold name_eq. apply bool_decide_eq_true. rewrite <- list_fmap_compose.
  apply list_fmap_ext. intros _ b _. unfold compose, to_ascii_lowercase. repeat (case_if; znorm; try lia).
Qed.

(** ** Entries *)

Lemma entry_cluster_eq e h l : u16at e 20 = h -> u16at e 26 = l -> 0 <= l < 2 ^ 16 -> entry_cluster e = l + h * 2 ^ 16.
Proof. intros <- <- Hl. unfold entry_cluster. rewrite Z.shiftl_mul_pow2, Z.lor_comm, lor_high by lia. done. Qed.

(** The bytes of a cluster number. *)
Lemma bytes_of c : is_u32 c ->
  c = as_u8 c + 256 * (as_u8 (Z.shiftr c 8) + 256 * (as_u8 (Z.shiftr c 16) + 256 * as_u8 (Z.shiftr c 24))).
Proof.
  intros Hc. unfold is_u32, as_u8, wrap in *. rewrite !Z.shiftr_div_pow2 by lia.
  change (2 ^ 8) with 256. change (2 ^ 16) with (256 * 256). change (2 ^ 24) with (256 * (256 * 256)).
  rewrite <- !Z.div_div by lia. rewrite (Z.mod_small (c / 256 / 256 / 256)) by (split; [|]; repeat first [apply Z.div_pos|apply Z.div_lt_upper_bound]; lia).
  pose proof (Z.div_mod c 256). pose proof (Z.div_mod (c / 256) 256). pose proof (Z.div_mod (c / 256 / 256) 256). lia.
Qed.

(** Reading past the name of an entry. *)
Lemma drop_name fname rest k : drop (11 + k) (name_83 fname ++ rest) = drop k rest.
Proof. rewrite drop_app_ge by (rewrite length_name_83; lia). rewrite length_name_83. f_equal. lia. Qed.

(** A renamed file keeps its contents.  The entry [rename] writes decodes to
    the cluster and the size it was given, so the moved file is the same chain with
    the same length. *)
Theorem moved_entry_roundtrip fname c size : is_u32 c -> is_u32 size ->
  entry_cluster (moved_entry fname c size) = c /\ u32at (moved_entry fname c size) 28 = size /\
  u8at (moved_entry fname c size) 11 = ATTR_ARCHIVE /\ take 11 (moved_entry fname c size) = name_83 fname.
Proof.
  intros Hc Hs. unfold moved_entry. pose proof (as_u8_range c). pose proof (as_u8_range (Z.shiftr c 8)). unfold is_u8 in *.
  split_and!.
  - rewrite (bytes_of c Hc) at 5. erewrite entry_cluster_eq; [|unfold u16at; change 20%nat with (11 + 9)%nat|
      unfold u16at; change 26%nat with (11 + 15)%nat|]; [|rewrite drop_name; cbn; done|rewrite drop_name; cbn; done|]; cbn; lia.
  - unfold u32at. change 28%nat with (11 + 17)%nat. rewrite drop_name.
    change (take 4 _) with (to_le_bytes 4 size). rewrite le_to_le_bytes. by apply Z.mod_small.
  - unfold u8at. rewrite app_nth2 by (rewrite length_name_83; lia). by rewrite length_name_83.
  - apply take_app_length'. by rewrite length_name_83.
Qed.

(** A created file cannot be found again.  [create] stores the bytes of the
    cluster number high byte first where every reader takes the low byte first:
    the entry decodes to the number with the bytes of each half exchanged, which is
    the cluster only when these bytes are equal.  In particular cluster [c] below
    256, as on a fresh volume, comes back as [256 * c]. *)
Theorem created_entry_swapped fname c : is_u32 c ->
  entry_cluster (new_entry fname c) =
    as_u8 (Z.shiftr c 8) + 256 * (as_u8 c + 256 * (as_u8 (Z.shiftr c 24) + 256 * as_u8 (Z.shiftr c 16))) /\
  (entry_cluster (new_entry fname c) = c <->
   as_u8 c = as_u8 (Z.shiftr c 8) /\ as_u8 (Z.shiftr c 16) = as_u8 (Z.shiftr c 24)) /\
  (c < 256 -> entry_cluster (new_entry fname c) = 256 * c).
Proof.
  intros Hc. pose proof (as_u8_range c). pose proof (as_u8_range (Z.shiftr c 8)).
  pose proof (as_u8_range (Z.shiftr c 16)). pose proof (as_u8_range (Z.shiftr c 24)). unfold is_u8 in *.
  assert (E : entry_cluster (new_entry fname c) = as_u8 (Z.shiftr c 8) + 256 * (as_u8 c + 256 * (as_u8 (Z.shiftr c 24) + 256 * as_u8 (Z.shiftr c 16)))).
  { unfold new_entry. erewrite entry_cluster_eq; [|unfold u16at; change 20%nat with (11 + 9)%nat|
      unfold u16at; change 26%nat with (11 + 15)%nat|]; [|rewrite drop_name; cbn; done|rewrite drop_name; cbn; done|]; cbn; lia. }
  split; [done|]. rewrite E. pose proof (bytes_of c Hc). split; [lia|]. intros Hs.
  assert (E0 : forall k, 8 <= k -> Z.shiftr c k = 0).
  { intros k Hk. rewrite Z.shiftr_div_pow2 by lia. apply Z.div_small. unfold is_u32 in Hc. split; [lia|].
    apply Z.lt_le_trans with (2 ^ 8); [lia|]. apply Z.pow_le_mono_r; lia. }
  rewrite !E0 in * by lia. change (as_u8 0) with 0 in *. lia.
Qed.

(** ** Deletion and truncation *)

Section Chains.
Context {D : Type} `{!BlockDevice D} `{!BlockDeviceSpec D}.
Implicit Types (d : D) (s t : fatfs (direct D)) (v : volume) (l : list Z).

(** The place of a directory entry. *)
Definition data_place v (lba : Z) (off : nat) : Prop := DATA_START v <= lba < u64_max /\ (off + 32 <= SECTOR_SIZE)%nat.

Lemma entry_patched v d lba off data c : geometry v -> has_entry v c -> DATA_START v <= lba ->
  (off + length data <= SECTOR_SIZE)%nat -> entry v (patched d lba off data) c = entry v d c.
Proof.
  intros Hg Hc Hl Ho. pose proof (fat_lba_range v c Hg Hc). unfold entry. rewrite read_patched by done.
  by rewrite decide_False by lia.
Qed.

Lemma delete_entry_eq rounds f l s : geometry (vol s) -> chain (vol s) (disk_of s) (fd_cluster f) l ->
  (length l <= rounds)%nat -> data_place (vol s) (fd_lba f) (fd_off f) ->
  delete_entry rounds f s = Got (tt, on s (patched (free_all (vol s) (disk_of s) l) (fd_lba f) (fd_off f) [0xE5])).
Proof.
  intros Hg Hc Hl [Hp Ho]. unfold delete_entry, mbind, F_bind. rewrite (free_chain_eq _ _ _ l) by (done || lia).
  rewrite update_sec_eq; [done|unfold NO_LBA; lia|cbn [length]; lia].
Qed.

(** Deleting a file frees exactly its clusters.  [unlink] of a path that
    resolves to a file returns true; afterwards the entries of the clusters of its
    chain are free, every other entry of the table is what it was, the first byte
    of the directory entry is the deletion mark and no other byte of a data sector
    has changed. *)
Theorem unlink_frees_chain rounds path s f l :
  geometry (vol s) -> READY (vol s) = true -> resolve rounds path s = Got (Some f, s) -> fd_is_dir f = false ->
  chain (vol s) (disk_of s) (fd_cluster f) l -> (length l <= rounds)%nat -> data_place (vol s) (fd_lba f) (fd_off f) ->
  exists d', unlink rounds path s = Got (true, on s d') /\
    (forall c, has_entry (vol s) c ->
       entry (vol s) d' c = if decide (c ∈ l) then FAT_FREE else entry (vol s) (disk_of s) c) /\
    (forall lba, DATA_START (vol s) <= lba -> lba <> fd_lba f -> read_block d' lba = read_block (disk_of s) lba) /\
    (forall k, u8at (read_block d' (fd_lba f)) k =
       if decide (k = fd_off f) then 0xE5 else u8at (read_block (disk_of s) (fd_lba f)) k).
Proof.
  intros Hg Hr Hres Hd Hc Hl Hp. pose proof (delete_entry_eq rounds f l s Hg Hc Hl Hp) as He. destruct Hp as [Hp Ho].
  assert (Hf : Forall (data_cluster (vol s)) l) by (apply Forall_forall; intros x Hx; by eapply chain_data).
  eexists. split; [|split_and!].
  - unfold unlink, mbind, F_bind. cbn [volume_of]. rewrite Hr. cbn [negb]. rewrite Hres, Hd, He. done.
  - intros c Hce. rewrite entry_patched by (done || cbn [length]; lia). by apply entry_free_all.
  - intros lba H1 H2. rewrite read_patched, decide_False by (done || cbn [length]; lia). by apply read_free_all.
  - intros k. rewrite read_patched, decide_True by (done || cbn [length]; lia). unfold u8at.
    rewrite nth_splice by (rewrite read_block_length; cbn [length]; lia). cbn [length].
    rewrite read_free_all by (done || lia). repeat case_decide; try lia.
    replace (k - fd_off f)%nat with 0%nat by lia. done.
Qed.

(** Opening for writing truncates.  [open_write] of an existing file, with a
    free descriptor, opens it with size 0 at its first cluster; that cluster is now
    the whole chain, the clusters after it are free, every other entry of the table
    is what it was, and the size in the directory entry is 0. *)
Theorem open_write_truncates rounds path s f l fd g :
  geometry (vol s) -> READY (vol s) = true -> resolve rounds path s = Got (Some f, s) -> fd_is_dir f = false ->
  chain (vol s) (disk_of s) (fd_cluster f) (fd_cluster f :: l) -> (length l <= rounds)%nat ->
  data_place (vol s) (fd_lba f) (fd_off f) -> list_find (fun h => used h = false) (OPEN_FILES s) = Some (fd, g) ->
  exists s', open_write rounds path s = Got (Some fd, s') /\
    OPEN_FILES s' = <[fd := mk_file true true 0 (fd_cluster f) (fd_cluster f) 0 0 (fd_lba f) (fd_off f)]> (OPEN_FILES s) /\
    chain (vol s) (disk_of s') (fd_cluster f) [fd_cluster f] /\
    (forall c, has_entry (vol s) c -> c <> fd_cluster f ->
       entry (vol s) (disk_of s') c = if decide (c ∈ l) then FAT_FREE else entry (vol s) (disk_of s) c) /\
    u32at (read_block (disk_of s') (fd_lba f)) (fd_off f + 28) = 0.
Proof.
  intros Hg Hr Hres Hd (_ & Hc & Hch) Hl [Hp Ho] Hfd. set (v := vol s) in *. set (x := fd_cluster f) in *.
  pose proof (data_has_entry _ _ Hc) as Hx.
  assert (Hf : Forall (data_cluster v) l) by (apply Forall_forall; intros y Hy; by eapply chain_data).
  set (d1 := put_entry v (free_all v (disk_of s) l) x 0x0FFFFFFF).
  set (d2 := patched d1 (fd_lba f) (fd_off f + 28) [0; 0; 0; 0]).
  set (fs := <[fd := mk_file true true 0 x x 0 0 (fd_lba f) (fd_off f)]> (OPEN_FILES s)).
  exists (mk_fat v (FREE_HINT s) fs (mk_direct d2)).
  assert (Ho2 : (fd_off f + 28 + length [0; 0; 0; 0] <= SECTOR_SIZE)%nat) by (cbn [length]; lia).
  assert (He : forall c, has_entry v c -> entry v d2 c = entry v d1 c) by (intros c H; apply entry_patched; [done|done|lia|done]).
  assert (Ex : entry v d2 x = 0x0FFFFFFF) by (rewrite He by done; apply entry_put_same).
  split_and!; [|done| | |].
  - unfold open_write, mbind, F_bind. cbn [volume_of]. fold v. rewrite Hr. cbn [negb]. rewrite Hres, Hd. fold x.
    rewrite fat_get_eq by done. rewrite (free_chain_eq _ _ _ l) by (done || lia).
    rewrite fat_put_eq by done. rewrite update_sec_eq by (done || unfold NO_LBA; lia).
    unfold open_slot, mbind, F_bind, files, set_files. cbn [on with_store OPEN_FILES]. rewrite Hfd. done.
  - cbn [chain]. change (disk_of (mk_fat v (FREE_HINT s) fs (mk_direct d2))) with d2. rewrite Ex. by split_and!.
  - intros c Hce Hn. change (disk_of (mk_fat v (FREE_HINT s) fs (mk_direct d2))) with d2. rewrite He by done. unfold has_entry, data_cluster in *.
    unfold d1. rewrite entry_put_other by (lia || done). by apply entry_free_all.
  - change (disk_of (mk_fat v (FREE_HINT s) fs (mk_direct d2))) with d2. unfold d2. rewrite read_patched, decide_True by done.
    rewrite u32at_splice_same by (rewrite ?read_block_length; cbn [length] in *; lia). done.
Qed.

End Chains.

(** ** The sample volume *)

(** The name [a.txt]. *)
Lemma short_name_roundtrip_witness : short_name (name_83 [65; 46; 116; 120; 116]) = [97; 46; 116; 120; 116].
Proof.
  destruct (short_name_roundtrip [65] [116; 120; 116]) as [H _].
  - repeat constructor; discriminate.
  - repeat constructor; discriminate.
  - cbn. lia.
  - cbn. lia.
  - exact H.
Defined.

Lemma moved_entry_roundtrip_witness : entry_cluster (moved_entry [97] 0x12345 1000) = 0x12345.
Proof.
  destruct (moved_entry_roundtrip [97] 0x12345 1000) as [H _].
  - unfold is_u32. lia.
  - unfold is_u32. lia.
  - exact H.
Defined.

Lemma created_entry_swapped_witness : entry_cluster (new_entry [97] 5) = 1280.
Proof.
  destruct (created_entry_swapped [97] 5) as (_ & _ & H).
  - unfold is_u32. lia.
  - apply H. lia.
Defined.

(** What the path of the file resolves to. *)
Definition sample_found : found := mk_found 3 1000 false 2 32.

Lemma sample_resolves : resolve 8 sample_path (sample_state EMPTY_FILE) = Got (Some sample_found, sample_state EMPTY_FILE).
Proof. vm_compute. reflexivity. Qed.

Lemma sample_place : data_place sample_volume 2 32.
Proof. split; [vm_compute; split; [discriminate|done]|unfold SECTOR_SIZE; lia]. Qed.

Lemma unlink_frees_chain_witness : exists d',
  unlink 8 sample_path (sample_state EMPTY_FILE) = Got (true, on (sample_state EMPTY_FILE) d') /\
  entry sample_volume d' 3 = FAT_FREE /\ entry sample_volume d' 4 = FAT_FREE.
Proof.
  destruct (unlink_frees_chain 8 sample_path (sample_state EMPTY_FILE) sample_found [3; 4]
    sample_geometry eq_refl sample_resolves eq_refl sample_chain ltac:(cbn; lia) sample_place) as (d' & H1 & H2 & _).
  exists d'. split; [exact H1|]. split.
  - rewrite H2 by (unfold has_entry; cbn; lia). reflexivity.
  - rewrite H2 by (unfold has_entry; cbn; lia). reflexivity.
Defined.

Lemma open_write_truncates_witness : exists s',
  open_write 8 sample_path (sample_state EMPTY_FILE) = Got (Some 0%nat, s') /\ chain sample_volume (disk_of s') 3 [3].
Proof.
  destruct (open_write_truncates 8 sample_path (sample_state EMPTY_FILE) sample_found [4] 0 EMPTY_FILE
    sample_geometry eq_refl sample_resolves eq_refl sample_chain ltac:(cbn; lia) sample_place eq_refl) as (s' & H1 & _ & H2 & _).
  exists s'. split; [exact H1|exact H2].
Defined.

(** A file created in the place of a deleted one takes over its long name: [unlink]
    marks the short entry only.  After deleting [notes] and creating [b], the
    directory lists [notes] and there is no [b]. *)
Example long_name_inherited :
  match unlink 8 sample_path (sample_state EMPTY_FILE) with
  | Got (_, s) => match create 8 [47; 98] s with
    | Got (fd, s) => match open 8 [47; 98] s, open 8 sample_path s with
      | Got (b, _), Got (notes, _) => (fd, b, notes) = (Some 0%nat, None, Some 1%nat)
      | _, _ => False
      end
    | _ => False
    end
  | _ => False
  end.
Proof. vm_compute. reflexivity. Qed.

(** Renaming a file to its own name frees its clusters: the new entry points to a
    chain that the allocator may hand out again. *)
Example rename_onto_itself :
  match rename 8 sample_path sample_path (sample_state EMPTY_FILE) with
  | Got (ok, s) => ok = true /\ entry sample_volume (disk_of s) 3 = FAT_FREE
  | _ => False
  end.
Proof. vm_compute. split; reflexivity. Qed.

(** An entry of a long name with sequence number 21 makes every lookup in its
    directory panic. *)
Example long_name_panics :
  scan_entries (fun _ u => (u, false)) 2 (sector_with [(0%nat, [0x55; 97; 0; 0; 0; 0; 0; 0; 0; 0; 0; ATTR_LONG_NAME]);
    (32%nat, [97; 32; 32; 32; 32; 32; 32; 32; 32; 32; 32; ATTR_ARCHIVE])]) 2 0 lfn0 tt = Broken.
Proof. vm_compute. reflexivity. Qed.
