(* ===== verification/FatInv.v ===== *)
(** * The type invariant of the file system

    Every field of the state stays in the range of its Rust type, every byte on
    the disk is a byte, the table of open files keeps its eight slots and every
    open file names a directory entry inside a sector.  From it: which operations
    cannot panic. *)

From stdpp Require Import base numbers list gmap.
From Stdlib Require Import ZArith Lia.
From S2P Require Import Prelude Sector Fat FatDisk FatEquiv FatTable FatDir.

(** ** Well-typed states *)

Definition u8s (l : list Z) : Prop := Forall is_u8 l.

(** The offset of one of the sixteen entries of a sector. *)
Definition entry_off (o : nat) : Prop := exists k, (k < 16 /\ o = k * 32)%nat.

Record volume_ok (v : volume) : Prop := {
  vo_part : is_u64 (PART_LBA v);
  vo_bps : BYTES_PER_SEC v = 512;
  vo_spc : 1 <= SECS_PER_CLUSTER v <= 255;
  vo_fat : is_u64 (FAT_START v);
  vo_data : is_u64 (DATA_START v);
  vo_root : is_u32 (ROOT_CLUSTER v);
  vo_total : is_u32 (TOTAL_CLUSTERS v);
}.

Record file_ok (f : OpenFile) : Prop := {
  fo_size : is_u32 (fsize f);
  fo_start : is_u32 (start_cluster f);
  fo_cur : is_u32 (cur_cluster f);
  fo_idx : is_u32 (cur_clus_idx f);
  fo_offset : is_u32 (offset f);
  fo_lba : is_u64 (dir_lba f);
  fo_entry : entry_off (dir_entry_off f);
}.

Definition files_ok (l : list OpenFile) : Prop := length l = MAX_OPEN /\ Forall file_ok l.

Section Typed.
Context {D : Type} `{!BlockDevice D} `{!BlockDeviceSpec D}.
Implicit Types (d : D) (s t : fatfs (direct D)).

Record fat_ok s : Prop := {
  ok_volume : volume_ok (vol s);
  ok_hint : is_u32 (FREE_HINT s);
  ok_files : files_ok (OPEN_FILES s);
  ok_disk : forall lba, u8s (read_block (disk_of s) lba);
}.

(** ** Triples *)

(** From a well-typed state [m] reaches one and answers in [Q]; where [c] is false
    it does not panic. *)
Definition typed {A} (c : bool) (Q : A -> Prop) (m : F (direct D) A) : Prop :=
  forall s, fat_ok s ->
    match m s with Got (a, s') => fat_ok s' /\ Q a | Crashed => c = true | Stuck => True end.

Lemma typed_ret {A} c (Q : A -> Prop) a : Q a -> typed c Q (mret a).
Proof. by intros Ha s Hs. Qed.

Lemma typed_bind {A B} c (Q : A -> Prop) (R : B -> Prop) m f :
  typed c Q m -> (forall a, Q a -> typed c R (f a)) -> typed c R (m ≫= f).
Proof.
  intros Hm Hf s Hs. specialize (Hm s Hs). unfold mbind, F_bind. destruct (m s) as [[a s']| |]; [|done|done].
  destruct Hm as [Hs' Ha]. exact (Hf a Ha s' Hs').
Qed.

Lemma typed_mono {A} c c' (Q R : A -> Prop) m : typed c Q m -> (c = true -> c' = true) -> (forall a, Q a -> R a) -> typed c' R m.
Proof.
  intros Hm Hc Hq s Hs. specialize (Hm s Hs). destruct (m s) as [[a s']| |]; [|by apply Hc|done].
  destruct Hm. by split; [|apply Hq].
Qed.

Lemma typed_true {A} c (Q : A -> Prop) m : typed false Q m -> typed c Q m.
Proof. intros H. by eapply typed_mono. Qed.

Lemma typed_any {A} c (Q : A -> Prop) m : typed c Q m -> typed c (fun _ => True) m.
Proof. intros H. by eapply typed_mono. Qed.

Lemma typed_crash {A} (Q : A -> Prop) : typed true Q crash.
Proof. by intros s Hs. Qed.

Lemma typed_stuck {A} c (Q : A -> Prop) : typed c Q stuck.
Proof. by intros s Hs. Qed.

Lemma typed_volume_of c : typed c volume_ok volume_of.
Proof. intros s Hs. split; [done|apply Hs]. Qed.

Lemma typed_hint c : typed c is_u32 hint.
Proof. intros s Hs. split; [done|apply Hs]. Qed.

Lemma typed_files c : typed c files_ok files.
Proof. intros s Hs. split; [done|apply Hs]. Qed.

Lemma typed_set_hint c h : is_u32 h -> typed c (fun _ => True) (set_hint h).
Proof. intros Hh s []. by split; [split|]. Qed.

Lemma typed_set_files c l : files_ok l -> typed c (fun _ => True) (set_files l).
Proof. intros Hl s []. by split; [split|]. Qed.

(** ** Sectors *)

Definition sector_ok (b : list Z) : Prop := length b = SECTOR_SIZE /\ u8s b.

Lemma splice_ok off data b : sector_ok b -> u8s data -> (off + length data <= SECTOR_SIZE)%nat ->
  sector_ok (splice off data b).
Proof.
  intros [Hl Hb] Hd Ho. split; [rewrite length_splice; lia|]. unfold splice, u8s in *.
  apply Forall_app; split; [by apply Forall_take|apply Forall_app; split; [done|by apply Forall_drop]].
Qed.

Lemma zeros_ok : sector_ok zeros.
Proof. split; [done|]. apply Forall_replicate. unfold is_u8. lia. Qed.

Lemma write_ok s lba b : fat_ok s -> sector_ok b -> fat_ok (with_store s (mk_direct (write_block (disk (store s)) lba b))).
Proof.
  intros [] [Hl Hb]. split; try done. intros lba'. cbn. destruct (decide (lba = lba')) as [<-|].
  - by rewrite read_write_same.
  - rewrite read_write_other by done. apply ok_disk0.
Qed.

Lemma typed_read_sec c lba : typed c sector_ok (read_sec lba).
Proof.
  intros s Hs. destruct (decide (lba = NO_LBA)) as [->|Hn]; [done|]. rewrite read_sec_eq by done.
  split; [done|]. split; [apply read_block_length|apply Hs].
Qed.

Lemma typed_write_sec c lba b : sector_ok b -> typed c (fun _ => True) (write_sec lba b).
Proof.
  intros Hb s Hs. unfold write_sec, s_write, mbind, fout_bind. cbn [uncached]. rewrite (proj1 Hb).
  rewrite Nat.eqb_refl. unfold on_disk. destruct (_ =? _); [done|]. split; [by apply write_ok|done].
Qed.

Lemma typed_patch c lba off data : u8s data -> (off + length data <= SECTOR_SIZE)%nat ->
  typed c (fun _ => True) (patch lba off data).
Proof.
  intros Hd Ho s Hs. destruct (decide (lba = NO_LBA)) as [->|Hn].
  - unfold patch, s_patch. cbn [uncached]. rewrite (proj2 (Nat.leb_le _ _) Ho). done.
  - rewrite patch_eq by done. split; [|done]. apply write_ok; [done|]. apply splice_ok; [|done..].
    split; [apply read_block_length|apply Hs].
Qed.

Lemma typed_zero c lba : typed c (fun _ => True) (zero lba).
Proof.
  intros s Hs. unfold zero, s_zero, mbind, fout_bind. cbn [uncached]. unfold on_disk. destruct (_ =? _); [done|].
  split; [|done]. apply write_ok; [done|apply zeros_ok].
Qed.

Lemma typed_update_sec c lba off data : u8s data -> (off + length data <= SECTOR_SIZE)%nat ->
  typed c (fun _ => True) (update_sec lba off data).
Proof.
  intros Hd Ho. eapply typed_bind; [apply typed_read_sec|]. intros sec Hs. apply typed_write_sec. by apply splice_ok.
Qed.

End Typed.

(** ** Values *)

Lemma le_bytes_range l : u8s l -> 0 <= le_bytes l < 256 ^ Z.of_nat (length l).
Proof.
  unfold u8s, is_u8. induction 1 as [|b l Hb Hl IH]; [done|]. cbn [le_bytes length].
  rewrite Nat2Z.inj_succ, Z.pow_succ_r by lia. nia.
Qed.

Lemma slice_range n o b : u8s b -> 0 <= le_bytes (take n (drop o b)) < 256 ^ Z.of_nat n.
Proof.
  intros Hb. pose proof (le_bytes_range (take n (drop o b))) as H. specialize (H (Forall_take _ _ _ (Forall_drop _ _ _ Hb))).
  split; [lia|]. eapply Z.lt_le_trans; [apply H|]. apply Z.pow_le_mono_r; [lia|]. rewrite length_take. lia.
Qed.

Lemma u32at_u32 b o : u8s b -> is_u32 (u32at b o).
Proof. intros Hb. exact (slice_range 4 o b Hb). Qed.

Lemma u16at_range b o : u8s b -> 0 <= u16at b o < 2 ^ 16.
Proof. intros Hb. exact (slice_range 2 o b Hb). Qed.

Lemma u8at_range b o : u8s b -> 0 <= u8at b o < 256.
Proof.
  intros Hb. unfold u8at. rewrite nth_lookup. destruct (b !! o) eqn:E; cbn; [|lia].
  exact (Forall_lookup_1 _ _ _ _ Hb E).
Qed.

Lemma mask_u32 x : is_u32 (Z.land x FAT_MASK).
Proof. rewrite land_mask. unfold is_u32. pose proof (Z.mod_pos_bound x (2 ^ 28)). lia. Qed.

Lemma entry_cluster_u32 e : u8s e -> is_u32 (entry_cluster e).
Proof.
  intros He. pose proof (u16at_range e 20 He). pose proof (u16at_range e 26 He). unfold entry_cluster, is_u32.
  rewrite Z.shiftl_mul_pow2, Z.lor_comm, lor_high by lia. lia.
Qed.

Lemma to_le_bytes_ok n x : u8s (to_le_bytes n x).
Proof.
  revert x. induction n as [|n IH]; intros x; cbn [to_le_bytes]; constructor; [|apply IH].
  unfold is_u8. pose proof (Z.mod_pos_bound x 256). lia.
Qed.

Lemma upper_ok l : u8s l -> u8s (to_ascii_uppercase <$> l).
Proof.
  intros Hl. apply Forall_fmap. eapply Forall_impl; [done|]. intros b Hb. unfold is_u8, compose, to_ascii_uppercase in *.
  case_if; znorm; lia.
Qed.

Lemma pad_ok n l : u8s l -> u8s (pad n l).
Proof.
  intros Hl. apply Forall_app. split; [by apply Forall_take, upper_ok|]. apply Forall_replicate. unfold is_u8. lia.
Qed.

Lemma name_83_ok l : u8s l -> u8s (name_83 l).
Proof.
  intros Hl. unfold name_83. destruct (rfind 46 l); apply Forall_app; split; apply pad_ok;
    try done; [by apply Forall_take|by apply Forall_drop|constructor].
Qed.

Lemma written_entry_ok name a b size : u8s name -> u8s a -> u8s b -> length a = 2%nat -> length b = 2%nat ->
  let e := name_83 name ++ [ATTR_ARCHIVE] ++ replicate 8 0 ++ a ++ replicate 4 0 ++ b ++ to_le_bytes 4 size in
  u8s e /\ length e = 32%nat.
Proof.
  intros Hn Ha Hb La Lb e. unfold e, u8s in *. split.
  - repeat (apply Forall_app; split); try done; try apply Forall_replicate; try apply name_83_ok; try apply to_le_bytes_ok;
      try done; repeat constructor; unfold is_u8, ATTR_ARCHIVE; lia.
  - rewrite !length_app, length_name_83, !length_replicate, length_to_le_bytes, La, Lb. done.
Qed.

Lemma new_entry_ok name c : u8s name -> u8s (new_entry name c) /\ length (new_entry name c) = 32%nat.
Proof. intros Hn. apply (written_entry_ok name [_; _] [_; _]); [done|repeat constructor; apply as_u8_range..|done|done]. Qed.

Lemma moved_entry_ok name c size : u8s name -> u8s (moved_entry name c size) /\ length (moved_entry name c size) = 32%nat.
Proof. intros Hn. apply (written_entry_ok name [_; _] [_; _]); [done|repeat constructor; apply as_u8_range..|done|done]. Qed.

Lemma trim_front_ok n ws l : u8s l -> u8s (trim_front n ws l).
Proof.
  revert l. induction n as [|n IH]; intros l Hl; cbn [trim_front]; [done|]. case_match; [|done]. apply IH. by apply Forall_drop.
Qed.

Lemma trim_ok l : u8s l -> u8s (trim l).
Proof. intros Hl. apply Forall_reverse, trim_front_ok, Forall_reverse. by apply trim_front_ok. Qed.

Lemma split_path_ok p : u8s p -> u8s (split_path p).1 /\ u8s (split_path p).2.
Proof.
  intros Hp. unfold split_path. case_match; cbn; split; try done;
    [by apply Forall_take|by apply Forall_drop|repeat constructor; unfold is_u8; lia].
Qed.

Lemma entry_off_le o : entry_off o -> (o + 32 <= SECTOR_SIZE)%nat.
Proof. intros (k & Hk & ->). unfold SECTOR_SIZE. lia. Qed.

Lemma div_u32 x y : is_u32 x -> 1 <= y -> is_u32 (x / y).
Proof.
  unfold is_u32. intros Hx Hy. split; [apply Z.div_pos; lia|]. apply Z.div_lt_upper_bound; nia.
Qed.

Create HintDb fat_typed discriminated.
#[export] Hint Resolve as_u32_range as_u64_range mask_u32 u32at_u32 to_le_bytes_ok entry_cluster_u32 : fat_typed.

(** ** Operations *)

Section Operations.
Context {D : Type} `{!BlockDevice D} `{!BlockDeviceSpec D}.
Local Abbreviation typed := (typed (D := D)).

(** Bind with the triple of the first computation. *)
Ltac step H := eapply typed_bind; [solve [apply H; auto with fat_typed]|].

Lemma typed_fat_get c k : typed c is_u32 (fat_get k).
Proof.
  unfold fat_get. step typed_volume_of. intros v Hv. destruct (fat_place v k). step typed_read_sec.
  intros sec _. apply typed_ret, mask_u32.
Qed.

Lemma typed_fat_put c k x : typed c (fun _ => True) (fat_put k x).
Proof.
  unfold fat_put. step typed_volume_of. intros v Hv. unfold fat_place. rewrite (vo_bps _ Hv).
  apply typed_patch; [apply to_le_bytes_ok|]. rewrite length_to_le_bytes. unfold SECTOR_SIZE.
  change 512 with (128 * 4). rewrite Z.mul_mod_distr_r by lia. pose proof (Z.mod_pos_bound k 128). lia.
Qed.

Lemma typed_zero_sectors c n lba : typed c (fun _ => True) (zero_sectors n lba).
Proof.
  revert lba. induction n as [|n IH]; intros lba; cbn [zero_sectors]; [by apply typed_ret|]. step typed_zero. intros _ _. apply IH.
Qed.

Definition option_ok {A} (Q : A -> Prop) (o : option A) : Prop := match o with Some a => Q a | None => True end.

Lemma typed_find_free c n k : 0 <= k -> k + Z.of_nat n <= 2 ^ 32 -> typed c (option_ok is_u32) (find_free n k).
Proof.
  revert k. induction n as [|n IH]; intros k H0 Hn; cbn [find_free]; [by apply typed_ret|]. step typed_fat_get. intros e _.
  destruct (_ =? _); [|apply IH; lia]. step typed_fat_put. intros _ _. step typed_set_hint. intros _ _.
  step typed_volume_of. intros v _. step typed_zero_sectors. intros _ _. apply typed_ret. cbn. unfold is_u32. lia.
Qed.

Lemma typed_alloc_cluster c : typed c is_u32 alloc_cluster.
Proof.
  unfold alloc_cluster. step typed_hint. intros h Hh. step typed_volume_of. intros v _.
  pose proof (as_u32_range (TOTAL_CLUSTERS v + 2)) as Ht. unfold is_u32 in *.
  eapply typed_bind; [apply typed_find_free; lia|]. intros [k|] Hk; [by apply typed_ret|].
  eapply typed_bind; [apply typed_find_free; lia|]. intros [j|] Hj; apply typed_ret; cbn in *; unfold is_u32 in *; lia.
Qed.

Lemma typed_free_chain c least n k : typed c (fun _ => True) (free_chain least n k).
Proof.
  revert k. induction n as [|n IH]; intros k; cbn [free_chain]; (destruct (_ || _); [by apply typed_ret|]); [apply typed_stuck|].
  step typed_fat_get. intros x _. step typed_fat_put. intros _ _. apply IH.
Qed.

Lemma typed_chain_tail c n k : typed c (fun _ => True) (chain_tail n k).
Proof.
  revert k. induction n as [|n IH]; intros k; cbn [chain_tail]; step typed_fat_get; intros e _;
    (destruct (is_eoc e); [by apply typed_ret|]); [apply typed_stuck|]. step typed_fat_get. intros x _. apply IH.
Qed.

Lemma typed_init lba : is_u64 lba -> typed true (fun _ => True) (init lba).
Proof.
  intros Hl. unfold init. step typed_read_sec. intros sec [Hn Hb]. cbv zeta.
  repeat (case_match; [first [by apply typed_ret|apply typed_crash]|]).
  intros s []. split; [|done]. split; [|unfold is_u32; cbn; lia|done|done].
  assert (Hs : 1 <= u8at sec 13 <= 255) by (pose proof (u8at_range sec 13 Hb); znorm; lia).
  split; cbn; [done| |done|apply as_u64_range|apply as_u64_range|by apply u32at_u32|].
  - znorm; [done].
  - apply div_u32; [apply as_u32_range|lia].
Qed.

(** *** Directories *)

Record dirent_ok (e : dirent) : Prop := {
  do_cluster : is_u32 (de_cluster e);
  do_size : is_u32 (de_size e);
  do_lba : is_u64 (de_lba e);
  do_off : entry_off (de_off e);
}.

Section Scan.
Context {T : Type} (cb : dirent -> T -> T * bool) (P : T -> Prop).
Hypothesis cb_ok : forall e x, dirent_ok e -> P x -> P (cb e x).1.

Definition walk_ok (w : walk T) : Prop := match w with GoOn _ x | Finished x => P x | Broken => True end.

Lemma scan_entries_ok n sec lba k l x : sector_ok sec -> is_u64 lba -> (n + k <= 16)%nat -> P x ->
  walk_ok (scan_entries cb n sec lba (k * 32) l x).
Proof.
  intros Hs Hl. revert k l x. induction n as [|n IH]; intros k l x Hn Hx; cbn [scan_entries]; [done|].
  set (e := take 32 (drop (k * 32) sec)). replace (k * 32 + 32)%nat with (S k * 32)%nat by lia.
  assert (He : u8s e) by (apply Forall_take, Forall_drop, Hs).
  destruct (parse_entry e l) as [|l'|name l'|]; [done|apply IH; [lia|done]| |done].
  set (de := mk_dirent _ _ _ _ _ _). assert (Hd : dirent_ok de).
  { split; cbn; [by apply entry_cluster_u32|by apply u32at_u32|done|]. exists k. lia. }
  pose proof (cb_ok de x Hd Hx) as Hc. destruct (cb de x) as [x' [|]]; cbn [fst] in Hc; [done|]. apply IH; [lia|done].
Qed.

Lemma typed_scan_sectors n lba l x : is_u64 lba -> P x -> typed true (fun r => P r.2) (scan_sectors cb n lba l x).
Proof.
  revert lba l x. induction n as [|n IH]; intros lba l x Hl Hx; cbn [scan_sectors]; [by apply typed_ret|].
  step typed_read_sec. intros sec Hs. pose proof (scan_entries_ok 16 sec lba 0 l x Hs Hl ltac:(lia) Hx) as Hw. cbn [Nat.mul] in Hw.
  destruct (scan_entries _ _ _ _ _ _) as [l' x'|x'|]; [apply IH; [apply as_u64_range|done]|by apply typed_ret|apply typed_crash].
Qed.

Lemma typed_scan_clusters n k l x : P x -> typed true P (scan_clusters cb n k l x).
Proof.
  revert k l x. induction n as [|n IH]; intros k l x Hx; cbn [scan_clusters]; (destruct (_ || _); [by apply typed_ret|]);
    [apply typed_stuck|]. step typed_volume_of. intros v Hv.
  eapply typed_bind; [apply typed_scan_sectors; [apply as_u64_range|done]|]. intros [[l'|] x'] Hx'; [|by apply typed_ret].
  step typed_fat_get. intros k' _. by apply IH.
Qed.

Lemma typed_scan_dir rounds k x : P x -> typed true P (scan_dir rounds cb k x).
Proof. apply typed_scan_clusters. Qed.
End Scan.

Record found_ok (f : found) : Prop := {
  fd_cluster_ok : is_u32 (fd_cluster f);
  fd_size_ok : is_u32 (fd_size f);
  fd_lba_ok : is_u64 (fd_lba f);
  fd_off_ok : entry_off (fd_off f);
}.

Lemma typed_resolve_parts rounds ps k r : option_ok found_ok r -> typed true (option_ok found_ok) (resolve_parts rounds ps k r).
Proof.
  revert k r. induction ps as [|p ps IH]; intros k r Hr; cbn [resolve_parts]; [by apply typed_ret|].
  eapply typed_bind; [apply (typed_scan_dir (match_name p) (option_ok found_ok)); [|done]|].
  - intros e x [] Hx. unfold match_name. destruct (name_eq _ _); [by split|done].
  - intros [f|] Hf; [by apply IH|by apply typed_ret].
Qed.

Lemma typed_resolve rounds p : typed true (option_ok found_ok) (resolve rounds p).
Proof.
  unfold resolve. step typed_volume_of. intros v Hv. destruct (path_parts p); [|by apply typed_resolve_parts].
  apply typed_ret. split; cbn; [apply Hv|unfold is_u32; lia|unfold is_u64; lia|]. exists 0%nat. lia.
Qed.

Lemma typed_open_slot c f : file_ok f -> typed c (fun _ => True) (open_slot f).
Proof.
  intros Hf. unfold open_slot. step typed_files. intros l [Hl Ha]. destruct (list_find _ l) as [[fd g]|]; [|by apply typed_ret].
  eapply typed_bind; [apply typed_set_files|intros _ _; by apply typed_ret].
  split; [by rewrite length_insert|by apply Forall_insert].
Qed.

Lemma free_entry_ok n sec k o : (n + k <= 16)%nat -> free_entry n sec (k * 32) = Some o -> entry_off o.
Proof.
  revert k. induction n as [|n IH]; intros k Hn; cbn [free_entry]; [done|]. destruct (_ || _).
  - intros [= <-]. exists k. lia.
  - replace (k * 32 + 32)%nat with (S k * 32)%nat by lia. apply IH. lia.
Qed.

Definition place_ok (p : Z * nat) : Prop := is_u64 p.1 /\ entry_off p.2.

Lemma typed_slot_sectors c n lba : is_u64 lba -> typed c (option_ok place_ok) (slot_sectors n lba).
Proof.
  revert lba. induction n as [|n IH]; intros lba Hl; cbn [slot_sectors]; [by apply typed_ret|]. step typed_read_sec. intros sec _.
  destruct (free_entry 16 sec 0) eqn:E; [|apply IH, as_u64_range]. apply typed_ret. split; [done|].
  eapply (free_entry_ok 16 sec 0); [lia|exact E].
Qed.

Lemma typed_find_free_slot c n k : typed c (option_ok place_ok) (find_free_slot n k).
Proof.
  revert k. induction n as [|n IH]; intros k; cbn [find_free_slot]; (destruct (_ || _); [by apply typed_ret|]); [apply typed_stuck|].
  step typed_volume_of. intros v Hv. eapply typed_bind; [apply typed_slot_sectors, as_u64_range|].
  intros [[lba off]|] Hp; [apply typed_ret; by destruct (lba =? NO_LBA)|]. step typed_fat_get. intros k' _. apply IH.
Qed.

Lemma typed_parent_cluster rounds p : typed true (option_ok is_u32) (parent_cluster rounds p).
Proof.
  unfold parent_cluster. step typed_volume_of. intros v Hv. destruct (_ || _); [apply typed_ret, Hv|].
  step typed_resolve. intros [f|] Hf; apply typed_ret; [|done]. destruct (fd_is_dir f); [apply Hf|done].
Qed.

(** *** Files *)

Lemma opened_ok w z c lba off : is_u32 z -> is_u32 c -> is_u64 lba -> entry_off off ->
  file_ok (mk_file true w z c c 0 0 lba off).
Proof. intros. split; cbn; try done; unfold is_u32; lia. Qed.

Lemma found_opened_ok w z f : is_u32 z -> found_ok f ->
  file_ok (mk_file true w z (fd_cluster f) (fd_cluster f) 0 0 (fd_lba f) (fd_off f)).
Proof. intros Hz []. by apply opened_ok. Qed.

Lemma u32_0 : is_u32 0.
Proof. unfold is_u32. lia. Qed.

Lemma typed_open rounds p : typed true (fun _ => True) (open rounds p).
Proof.
  unfold open. step typed_volume_of. intros v Hv. destruct (negb _); [by apply typed_ret|]. step typed_resolve.
  intros [f|] Hf; [|by apply typed_ret]. destruct (fd_is_dir f); [by apply typed_ret|].
  apply typed_open_slot. apply found_opened_ok; [apply Hf|done].
Qed.

Lemma typed_create rounds p : u8s p -> typed true (fun _ => True) (create rounds p).
Proof.
  intros Hp. unfold create. step typed_volume_of. intros v Hv. destruct (negb _); [by apply typed_ret|].
  destruct (split_path_ok p Hp) as [_ Hn]. destruct (split_path p) as [parent fname]. cbn [snd] in Hn.
  destruct (_ || _); [by apply typed_ret|]. step typed_parent_cluster. intros [pc|] _; [|by apply typed_ret].
  step typed_alloc_cluster. intros nc Hnc. destruct (nc =? 0); [by apply typed_ret|].
  eapply typed_bind; [apply typed_find_free_slot|]. intros place Hpl.
  apply typed_bind with (option_ok place_ok).
  - destruct place as [x|]; [by apply typed_ret|]. step typed_alloc_cluster. intros nd Hnd.
    destruct (nd =? 0); [step typed_fat_put; intros _ _; by apply typed_ret|].
    step typed_chain_tail. intros t _. step typed_fat_put. intros _ _. apply typed_ret. split; [apply as_u64_range|]. exists 0%nat. cbn. lia.
  - intros [[lba off]|] Hq; [|by apply typed_ret]. destruct Hq as [Hq1 Hq2]. cbn in Hq1, Hq2.
    destruct (new_entry_ok (trim fname) nc (trim_ok _ Hn)) as [He Hl].
    eapply typed_bind; [apply typed_update_sec; [done|rewrite Hl; by apply entry_off_le]|]. intros _ _.
    apply typed_open_slot. by apply opened_ok; [apply u32_0|..].
Qed.

Lemma typed_zeroed c f : found_ok f -> typed c (fun _ => True) (update_sec (fd_lba f) (fd_off f + 28) [0; 0; 0; 0]).
Proof.
  intros Hf. pose proof (entry_off_le _ (fd_off_ok _ Hf)). apply typed_update_sec; [repeat constructor; unfold is_u8; lia|].
  cbn [length]. lia.
Qed.

Lemma typed_open_write rounds p : u8s p -> typed true (fun _ => True) (open_write rounds p).
Proof.
  intros Hp. unfold open_write. step typed_volume_of. intros v Hv. destruct (negb _); [by apply typed_ret|]. step typed_resolve.
  intros [f|] Hf; [|by apply typed_create]. destruct (fd_is_dir f); [by apply typed_ret|]. step typed_fat_get. intros k _.
  step typed_free_chain. intros _ _. step typed_fat_put. intros _ _. step typed_zeroed. intros _ _.
  apply typed_open_slot. apply found_opened_ok; [apply u32_0|done].
Qed.

Lemma typed_file_at c fd : typed c (option_ok file_ok) (file_at fd).
Proof.
  unfold file_at. step typed_files. intros l [_ Hl]. apply typed_ret. destruct (_ <? _); [|done].
  destruct (l !! _) as [f|] eqn:E; [|done]. destruct (used f); [|done]. exact (Forall_lookup_1 _ _ _ _ Hl E).
Qed.

Lemma typed_put_file c fd f : file_ok f -> typed c (fun _ => True) (put_file fd f).
Proof.
  intros Hf. unfold put_file. step typed_files. intros l [Hl Ha]. apply typed_set_files.
  split; [by rewrite length_insert|by apply Forall_insert].
Qed.

Lemma at_offset_ok f o : file_ok f -> is_u32 o -> file_ok (at_offset f o).
Proof. by intros [] Ho. Qed.

Lemma at_cluster_ok f k i : file_ok f -> is_u32 k -> is_u32 i -> file_ok (at_cluster f k i).
Proof. by intros [] Hk Hi. Qed.

Lemma extend_ok f : file_ok f -> file_ok (extend f).
Proof. intros []. unfold extend. by destruct (_ <? _). Qed.
#[local] Hint Resolve at_offset_ok at_cluster_ok extend_ok : fat_typed.

Lemma typed_read_loop c n left f : file_ok f -> typed c (fun r => file_ok r.2) (read_loop n left f).
Proof.
  revert left f. induction n as [|n IH]; intros left f Hf; cbn [read_loop]; (destruct (_ =? _)%nat; [by apply typed_ret|]);
    (destruct (_ || _); [by apply typed_ret|]); [apply typed_stuck|]. step typed_volume_of. intros v Hv.
  destruct (position v f) as [lba o]. step typed_read_sec. intros sec _.
  apply typed_bind with file_ok.
  - destruct (_ && _); [|apply typed_ret; auto with fat_typed]. step typed_fat_get. intros k Hk. apply typed_ret. auto with fat_typed.
  - intros g Hg. eapply typed_bind; [by apply IH|]. intros [rest g'] Hg'. by apply typed_ret.
Qed.

Lemma typed_read c fd len : typed c (fun _ => True) (read fd len).
Proof.
  unfold read. eapply typed_bind; [apply typed_file_at|]. intros [f|] Hf; [|by apply typed_ret].
  destruct (_ =? _); [by apply typed_ret|]. eapply typed_bind; [by apply typed_read_loop|]. intros [b g] Hg.
  step typed_put_file. intros _ _. by apply typed_ret.
Qed.

Lemma typed_ensure_cluster c rounds f : file_ok f -> typed c (option_ok file_ok) (ensure_cluster rounds f).
Proof.
  intros Hf. unfold ensure_cluster. destruct (_ || _); [|by apply typed_ret]. step typed_alloc_cluster. intros k Hk.
  destruct (k =? 0); [by apply typed_ret|]. destruct (_ <? _); [apply typed_ret; destruct Hf; by split|].
  step typed_chain_tail. intros t _. step typed_fat_put. intros _ _. apply typed_ret. cbn. apply at_cluster_ok; [done|done|apply Hf].
Qed.

Lemma typed_write_loop c rounds n buf f : u8s buf -> file_ok f -> typed c (fun r => file_ok r.2) (write_loop rounds n buf f).
Proof.
  revert buf f. induction n as [|n IH]; intros buf f Hb Hf; cbn [write_loop]; (destruct buf as [|b buf]; [by apply typed_ret|]);
    [apply typed_stuck|]. eapply typed_bind; [by apply typed_ensure_cluster|]. intros [g|] Hg; [|by apply typed_ret].
  step typed_volume_of. intros v Hv. unfold position. pose proof (vo_spc _ Hv).
  eapply typed_bind; [apply typed_patch|intros _ _].
  - by apply Forall_take.
  - rewrite length_take. unfold SECTOR_SIZE. pose proof (Z.mod_pos_bound (offset g mod cluster_bytes v) 512). lia.
  - apply typed_bind with file_ok.
    + destruct (_ =? 0); [|apply typed_ret; auto with fat_typed]. step typed_fat_get. intros k Hk. apply typed_ret.
      destruct (negb _); auto with fat_typed.
    + intros g' Hg'. eapply typed_bind; [apply IH; [by apply Forall_drop|done]|]. intros [k g''] Hk. by apply typed_ret.
Qed.

Lemma typed_flush_size c f : file_ok f -> typed c (fun _ => True) (flush_size f).
Proof.
  intros Hf. unfold flush_size. destruct (_ =? _); [by apply typed_ret|]. pose proof (entry_off_le _ (fo_entry _ Hf)).
  apply typed_patch; [apply to_le_bytes_ok|]. rewrite length_to_le_bytes. lia.
Qed.

Lemma typed_write c rounds fd buf : u8s buf -> typed c (fun _ => True) (write rounds fd buf).
Proof.
  intros Hb. unfold write. eapply typed_bind; [apply typed_file_at|]. intros [f|] Hf; [|by apply typed_ret].
  destruct (negb _); [by apply typed_ret|]. eapply typed_bind; [by apply typed_write_loop|]. intros [k g] Hg.
  step typed_put_file. intros _ _. step typed_flush_size. intros _ _. by apply typed_ret.
Qed.

Lemma typed_close c fd : typed c (fun _ => True) (close fd).
Proof.
  unfold close. eapply typed_bind; [apply typed_file_at|]. intros [f|] Hf; [|by apply typed_ret].
  apply typed_bind with (fun _ => True); [destruct (writable f); [by apply typed_flush_size|by apply typed_ret]|].
  intros _ _. apply typed_put_file. split; cbn; unfold is_u32, is_u64; try lia. exists 0%nat. lia.
Qed.

Lemma typed_seek_loop c n k i : is_u32 k -> 0 <= i -> i + Z.of_nat n < 2 ^ 32 ->
  typed c (fun r => is_u32 r.1 /\ is_u32 r.2) (seek_loop n k i).
Proof.
  revert k i. induction n as [|n IH]; intros k i Hk Hi Hn; cbn [seek_loop]; [apply typed_ret; cbn; unfold is_u32 in *; lia|].
  destruct (is_eoc k); [apply typed_ret; cbn; unfold is_u32 in *; lia|]. step typed_fat_get. intros k' Hk'. apply IH; [done|lia|lia].
Qed.

Lemma typed_seek c fd off : is_u32 off -> typed c (fun _ => True) (seek fd off).
Proof.
  intros Ho. unfold seek. eapply typed_bind; [apply typed_file_at|]. intros [f|] Hf; [|by apply typed_ret].
  destruct (_ <? _); [by apply typed_ret|]. step typed_volume_of. intros v Hv. pose proof (vo_spc _ Hv) as Hs.
  pose proof (div_u32 off (cluster_bytes v) Ho ltac:(unfold cluster_bytes; lia)) as Hd.
  pose proof (fo_idx _ Hf). pose proof (fo_cur _ Hf). pose proof (fo_start _ Hf). unfold is_u32 in Hd, H.
  destruct (Z.leb_spec (cur_clus_idx f) (off / cluster_bytes v)).
  - eapply typed_bind; [apply typed_seek_loop; [done|lia|lia]|]. intros [k i] [Hk Hi]. step typed_put_file. intros _ _. by apply typed_ret.
  - eapply typed_bind; [apply typed_seek_loop; [done|lia|lia]|]. intros [k i] [Hk Hi]. step typed_put_file. intros _ _. by apply typed_ret.
Qed.

Lemma typed_readdir rounds p out : typed true (fun _ => True) (readdir rounds p out).
Proof.
  unfold readdir. step typed_volume_of. intros v _. destruct (negb _); [by apply typed_ret|]. step typed_parent_cluster.
  intros [k|] _; [|by apply typed_ret]. by apply (typed_scan_dir list_entry (fun _ => True)).
Qed.

Lemma typed_mark c f : found_ok f -> typed c (fun _ => True) (update_sec (fd_lba f) (fd_off f) [0xE5]).
Proof.
  intros Hf. pose proof (entry_off_le _ (fd_off_ok _ Hf)). apply typed_update_sec; [repeat constructor; unfold is_u8; lia|].
  cbn [length]. lia.
Qed.

Lemma typed_delete_entry c rounds f : found_ok f -> typed c (fun _ => True) (delete_entry rounds f).
Proof. intros Hf. unfold delete_entry. step typed_free_chain. intros _ _. by apply typed_mark. Qed.

Lemma typed_unlink rounds p : typed true (fun _ => True) (unlink rounds p).
Proof.
  unfold unlink. step typed_volume_of. intros v _. destruct (negb _); [by apply typed_ret|]. step typed_resolve.
  intros [f|] Hf; [|by apply typed_ret]. destruct (fd_is_dir f); [by apply typed_ret|]. step typed_delete_entry.
  intros _ _. by apply typed_ret.
Qed.

Lemma typed_rename rounds a b : u8s b -> typed true (fun _ => True) (rename rounds a b).
Proof.
  intros Hb. unfold rename. step typed_volume_of. intros v _. destruct (negb _); [by apply typed_ret|]. step typed_resolve.
  intros [f|] Hf; [|by apply typed_ret]. destruct (split_path_ok b Hb) as [_ Hn]. destruct (split_path b) as [pd fname]. cbn [snd] in Hn.
  destruct (_ || _); [by apply typed_ret|]. destruct (_ || _); [by apply typed_ret|]. step typed_resolve. intros g Hg.
  apply typed_bind with (fun _ => True).
  { destruct g as [g|]; [|by apply typed_ret]. destruct (fd_is_dir g); [by apply typed_ret|by apply typed_delete_entry]. }
  intros _ _. step typed_parent_cluster. intros [pc|] _; [|by apply typed_ret].
  eapply typed_bind; [apply typed_find_free_slot|]. intros [[lba off]|] Hp; [|by apply typed_ret]. destruct Hp as [Hp1 Hp2]. cbn in Hp2.
  destruct (moved_entry_ok (trim fname) (fd_cluster f) (fd_size f) (trim_ok _ Hn)) as [He Hl].
  eapply typed_bind; [apply typed_update_sec; [done|rewrite Hl; by apply entry_off_le]|]. intros _ _.
  step typed_mark. intros _ _. by apply typed_ret.
Qed.

(** *** All of them *)

(** The arguments of a call have their types. *)
Definition request_ok (r : request) : Prop :=
  match r with
  | Init lba => is_u64 lba
  | Create p | OpenWrite p | Rename _ p => u8s p
  | Write _ buf => u8s buf
  | Seek _ off => is_u32 off
  | _ => True
  end.

(** The calls that look at no directory. *)
Definition on_open_file (r : request) : bool :=
  match r with Read _ _ | Write _ _ | Close _ | Seek _ _ => true | _ => false end.

Lemma typed_perform rounds r : request_ok r -> typed (negb (on_open_file r)) (fun _ => True) (perform rounds r).
Proof.
  intros Hr. destruct r; cbn [perform on_open_file negb request_ok] in *;
    (eapply typed_bind; [first [by apply typed_init|apply typed_open|by apply typed_open_write|by apply typed_create|apply typed_read|
       by apply typed_write|apply typed_close|by apply typed_seek|apply typed_readdir|apply typed_unlink|by apply typed_rename]|]);
    intros a _; by repeat case_match; apply typed_ret.
Qed.

(** C12: The file system's state stays well typed.  Whatever call is made with
    arguments of their types, every field of the volume, of the hint and of the
    eight open files stays in the range of its Rust type, every sector stays 512
    bytes, every open file keeps a directory entry that lies inside its sector, and
    a cluster never has zero sectors; and [read], [write], [close] and [seek] do
    not panic: no slice is out of range and no division is by zero. *)
Theorem fat_calls_typed rounds r s : fat_ok s -> request_ok r ->
  match perform rounds r s with
  | Got (_, s') => fat_ok s'
  | Crashed => on_open_file r = false
  | Stuck => True
  end.
Proof.
  intros Hs Hr. pose proof (typed_perform rounds r Hr s Hs) as H. destruct (perform rounds r s) as [[a s']| |]; [apply H| |done].
  by apply negb_true_iff.
Qed.

End Operations.

(** ** The sample volume *)

Definition byte_list (l : list Z) : bool := forallb (fun b => (0 <=? b) && (b <? 256)) l.

Lemma byte_list_ok l : byte_list l = true -> u8s l.
Proof.
  intros H. apply List.Forall_forall. intros b Hb. pose proof (proj1 (List.forallb_forall _ _) H b Hb) as Hr.
  apply andb_true_iff in Hr as [?%Z.leb_le ?%Z.ltb_lt]. unfold is_u8. lia.
Qed.

Lemma sample_fat_ok : fat_ok (sample_state (sample_file 3 0 0)).
Proof.
  split; [split; vm_compute; repeat split; discriminate|vm_compute; repeat split; discriminate|split; [done|]|].
  - repeat (constructor; [split; try (vm_compute; repeat split; discriminate)|]); [..|constructor].
    all: first [exists 1%nat; cbn; lia|exists 0%nat; cbn; lia].
  - intros lba. change (u8s (full_sector (default [] (sample_disk !! lba)))). destruct (sample_disk !! lba) as [b|] eqn:E;
      [|apply byte_list_ok; vm_compute; reflexivity].
    apply elem_of_list_to_map_2 in E. apply Forall_take, Forall_app. split; [|apply byte_list_ok; vm_compute; reflexivity].
    repeat (apply elem_of_cons in E as [E|E]; [simplify_eq; apply byte_list_ok; vm_compute; reflexivity|]).
    by apply elem_of_nil in E.
Qed.

Lemma fat_calls_typed_witness : exists a s',
  perform 8 (Write 0 [1; 2; 3]) (sample_state (sample_file 3 0 0)) = Got (a, s') /\ fat_ok s'.
Proof.
  pose proof (fat_calls_typed 8 (Write 0 [1; 2; 3]) (sample_state (sample_file 3 0 0)) sample_fat_ok
    ltac:(repeat constructor; discriminate)) as H.
  assert (Hn : match perform 8 (Write 0 [1; 2; 3]) (sample_state (sample_file 3 0 0)) with Got _ => true | _ => false end = true)
    by (vm_compute; reflexivity).
  destruct (perform 8 (Write 0 [1; 2; 3]) (sample_state (sample_file 3 0 0))) as [[a s']| |]; [|discriminate Hn|discriminate Hn].
  exists a, s'. split; [reflexivity|exact H].
Defined.
