(* ===== verification/PageAlloc.v ===== *)
(** * Physical page allocator (kernel/src/memory/page.rs)

    The bitmap allocator: one bit per 4 KiB page, 1 = free.  The bitmap is a
    byte array of [BITMAP_BYTES] entries; an index past its end panics.  The
    abstract view is the predicate [page_free] on page numbers. *)

From stdpp Require Import base numbers list gmap.
From Stdlib Require Import ZArith Lia.
From S2P Require Import Prelude Machine.

Definition PAGE_SIZE : Z := 4096.
Definition MAX_RAM_END : Z := 0x440000000.
Definition MAX_PAGES : Z := (MAX_RAM_END - 0x40000000) / PAGE_SIZE.
Definition BITMAP_BYTES : Z := (MAX_PAGES + 7) / 8.

(** The statics of page.rs. *)
Record pages := mk_pages {
  BITMAP : gmap Z Z;
  PAGE_BASE : Z;
  NUM_PAGES : Z;
  RAM_TOP : Z;
}.

(** The allocator together with the RAM it hands out. *)
Record machine := mk_machine {
  pg : pages;
  ram : gmap Z Z;
}.

Definition with_bitmap (p : pages) (b : gmap Z Z) : pages :=
  mk_pages b (PAGE_BASE p) (NUM_PAGES p) (RAM_TOP p).

Definition page_align_up (addr : Z) : Z :=
  Z.land (addr +u PAGE_SIZE -u 1) (not64 (PAGE_SIZE - 1)).

(** [BITMAP[byte]] and [BITMAP[byte] = v], bounds-checked as Rust does. *)
Definition bitmap_get (b : gmap Z Z) (byte : Z) : outcome Z :=
  if byte <? BITMAP_BYTES then Done (ldb b byte) else Panic.

Definition bitmap_put (b : gmap Z Z) (byte v : Z) : outcome (gmap Z Z) :=
  if byte <? BITMAP_BYTES then Done (stb b byte v) else Panic.

(** [BITMAP[i / 8] & (1 << i % 8) != 0]. *)
Definition bit_is_free (b : gmap Z Z) (i : Z) : outcome bool :=
  v ← bitmap_get b (i / 8);
  Done (negb (Z.land v (Z.shiftl 1 (i mod 8)) =? 0)).

(** [BITMAP[i / 8] |= 1 << i % 8]. *)
Definition set_free (b : gmap Z Z) (i : Z) : outcome (gmap Z Z) :=
  v ← bitmap_get b (i / 8);
  bitmap_put b (i / 8) (Z.lor v (Z.shiftl 1 (i mod 8))).

(** [BITMAP[i / 8] &= !(1 << i % 8)], the complement taken at 8 bits. *)
Definition set_used (b : gmap Z Z) (i : Z) : outcome (gmap Z Z) :=
  v ← bitmap_get b (i / 8);
  bitmap_put b (i / 8) (Z.land v (Z.lxor (Z.shiftl 1 (i mod 8)) 255)).

(** A bitmap update as a loop body: continue, or leave the loop with a panic. *)
Definition step_or_panic {R} (o : outcome (gmap Z Z)) : gmap Z Z + outcome R :=
  match o with Done b => inl b | Panic => inr Panic end.

(** [for i in 0..num { set_free(i) }], the bitmap being the loop state. *)
Definition bitmap_loop (num : Z) (f : Z -> gmap Z Z -> outcome (gmap Z Z)) (b : gmap Z Z)
  : outcome (gmap Z Z) :=
  match for_loop (Z.to_nat num) 0 (fun i b => step_or_panic (R := gmap Z Z) (f i b)) b with
  | inl b' => Done b'
  | inr o => o
  end.

(** [page::init]; [kernel_end] is the linker symbol [__kernel_end].  The BSS
    bitmap starts zeroed. *)
Definition init (kernel_end ram_end : Z) (b0 : gmap Z Z) : outcome pages :=
  let ram_end := Z.min ram_end MAX_RAM_END in
  let base := page_align_up kernel_end in
  let num_pages := (ram_end -u base) / PAGE_SIZE in
  b ← bitmap_loop num_pages (fun i b => set_free b i) b0;
  Done (mk_pages b base num_pages ram_end).

(** One iteration of the first-fit scan; the loop state is
    [(consecutive, start_idx)], the early exit the start of the block. *)
Definition alloc_scan (b : gmap Z Z) (count : Z) (i : Z) (s : Z * Z) : Z * Z + outcome Z :=
  let '(consecutive, start_idx) := s in
  match bit_is_free b i with
  | Panic => inr Panic
  | Done true =>
      let start_idx := if consecutive =? 0 then i else start_idx in
      let consecutive := consecutive +u 1 in
      if consecutive =? count then inr (Done start_idx) else inl (consecutive, start_idx)
  | Done false => inl (0, start_idx)
  end.

Definition alloc_pages (m : machine) (count : Z) : outcome (option Z * machine) :=
  if count =? 0 then Done (None, m) else
  let p := pg m in
  match for_loop (Z.to_nat (NUM_PAGES p)) 0 (alloc_scan (BITMAP p) count) (0, 0) with
  | inl _ => Done (None, m)
  | inr Panic => Panic
  | inr (Done start_idx) =>
      b ← bitmap_loop count (fun k b => set_used b (start_idx +u k)) (BITMAP p);
      let addr := PAGE_BASE p +u start_idx *u PAGE_SIZE in
      Done (Some addr,
            mk_machine (with_bitmap p b) (kzero (ram m) (phys_to_virt addr) (count *u PAGE_SIZE)))
  end.

Definition alloc_page (m : machine) : outcome (option Z * machine) := alloc_pages m 1.

Definition free_page (p : pages) (addr : Z) : outcome pages :=
  if (addr <? PAGE_BASE p) || (RAM_TOP p <=? addr) then Done p
  else if negb (Z.land addr (PAGE_SIZE - 1) =? 0) then Done p
  else
    let index := (addr -u PAGE_BASE p) / PAGE_SIZE in
    if index <? NUM_PAGES p then
      b ← set_free (BITMAP p) index; Done (with_bitmap p b)
    else Done p.

Definition release_pages (p : pages) (base count : Z) : outcome pages :=
  match for_loop (Z.to_nat count) 0
          (fun i p => match free_page p (base +u i *u PAGE_SIZE) with
                      | Done p' => inl p' | Panic => inr Panic end) p with
  | inl p' => Done p'
  | inr o => o
  end.

Definition free_pages (p : pages) : outcome Z :=
  match for_loop (Z.to_nat (NUM_PAGES p)) 0
          (fun i n => match bit_is_free (BITMAP p) i with
                      | Done true => inl (n +u 1)
                      | Done false => inl n
                      | Panic => inr Panic end) 0 with
  | inl n => Done n
  | inr o => o
  end.

Definition used_pages (p : pages) : outcome Z :=
  n ← free_pages p; Done (NUM_PAGES p -u n).

Definition total_pages (p : pages) : Z := NUM_PAGES p.

(** ** Abstract view and invariant *)

(** Bit [i] of the bitmap: page [i] is free. *)
Definition bfree (b : gmap Z Z) (i : Z) : bool := Z.testbit (ldb b (i / 8)) (i mod 8).

Definition page_free (p : pages) (i : Z) : bool := bfree (BITMAP p) i.

Definition page_addr (p : pages) (i : Z) : Z := PAGE_BASE p + i * PAGE_SIZE.

Record pages_wf (p : pages) : Prop := {
  wf_base : 0 <= PAGE_BASE p;
  wf_align : PAGE_BASE p mod PAGE_SIZE = 0;
  wf_num : 0 <= NUM_PAGES p <= MAX_PAGES;
  wf_top : PAGE_BASE p + NUM_PAGES p * PAGE_SIZE <= RAM_TOP p;
  wf_max : RAM_TOP p <= MAX_RAM_END;
  wf_bytes : mem_bytes (BITMAP p);
}.

(** Pages [s .. s+count) are all free. *)
Definition free_run (b : gmap Z Z) (s count : Z) : Prop :=
  forall k, s <= k < s + count -> bfree b k = true.

(** [s] is the first page number that starts a free run of [count] pages. *)
Definition first_fit (p : pages) (count s : Z) : Prop :=
  0 <= s /\ s + count <= NUM_PAGES p /\ free_run (BITMAP p) s count /\
  forall j, 0 <= j < s -> ~ free_run (BITMAP p) j count.

(** ** Bitmap lemmas *)

Lemma MAX_PAGES_val : MAX_PAGES = 4194304. Proof. reflexivity. Qed.
Lemma BITMAP_BYTES_val : BITMAP_BYTES = 524288. Proof. reflexivity. Qed.

Lemma byte_in_bitmap i : 0 <= i < MAX_PAGES -> (i / 8 <? BITMAP_BYTES) = true.
Proof.
  rewrite MAX_PAGES_val, BITMAP_BYTES_val. intros. apply Z.ltb_lt.
  apply Z.div_lt_upper_bound; lia.
Qed.

Lemma bit_is_free_ok b i : 0 <= i < MAX_PAGES -> bit_is_free b i = Done (bfree b i).
Proof.
  intros Hi. unfold bit_is_free, bitmap_get. rewrite byte_in_bitmap by done. simpl.
  pose proof (Z.mod_pos_bound i 8 ltac:(lia)).
  rewrite Z.shiftl_1_l, land_bit_eqb by lia. by rewrite negb_involutive.
Qed.

Lemma page_split i j : i / 8 = j / 8 -> i mod 8 = j mod 8 -> i = j.
Proof. intros H1 H2. rewrite (Z.div_mod i 8), (Z.div_mod j 8) by lia. lia. Qed.

(** Updating one bit of one byte of the bitmap. *)
Lemma bfree_update b i j v (f : bool) :
  0 <= i -> 0 <= j ->
  (forall n, 0 <= n -> Z.testbit v n = if n =? i mod 8 then f else Z.testbit (ldb b (i / 8)) n) ->
  bfree (stb b (i / 8) v) j = if j =? i then f else bfree b j.
Proof.
  intros Hi Hj Hv. unfold bfree. rewrite ldb_stb.
  pose proof (Z.mod_pos_bound j 8 ltac:(lia)).
  case_decide as Hd.
  - rewrite Hv by lia. destruct (Z.eqb_spec (j mod 8) (i mod 8)).
    + rewrite (page_split j i) by lia. by rewrite Z.eqb_refl.
    + destruct (Z.eqb_spec j i); [congruence|]. by rewrite Hd.
  - destruct (Z.eqb_spec j i); [congruence|done].
Qed.

Lemma testbit_set v k n : 0 <= k -> 0 <= n ->
  Z.testbit (Z.lor v (Z.shiftl 1 k)) n = if n =? k then true else Z.testbit v n.
Proof.
  intros. rewrite Z.lor_spec, Z.shiftl_1_l, Z.pow2_bits_eqb by lia.
  rewrite Z.eqb_sym. destruct (n =? k); by rewrite ?orb_true_r, ?orb_false_r.
Qed.

Lemma testbit_clear8 v k n : 0 <= k < 8 -> 0 <= n -> is_u8 v ->
  Z.testbit (Z.land v (Z.lxor (Z.shiftl 1 k) 255)) n =
  if n =? k then false else Z.testbit v n.
Proof.
  intros Hk Hn Hv. rewrite Z.land_spec, Z.lxor_spec, Z.shiftl_1_l, Z.pow2_bits_eqb by lia.
  replace 255 with (Z.ones 8) by done. rewrite Z.testbit_ones_nonneg by lia.
  rewrite (Z.eqb_sym k n). destruct (Z.eqb_spec n k) as [->|].
  - destruct (Z.ltb_spec k 8); [by rewrite andb_false_r|lia].
  - destruct (Z.ltb_spec n 8); [by rewrite andb_true_r|].
    rewrite (testbit_high 8 v n) by (unfold is_u8 in *; lia). done.
Qed.

Lemma u8_by_bits v : 0 <= v -> (forall n, 8 <= n -> Z.testbit v n = false) -> is_u8 v.
Proof. intros Hv Hb. split; [done|]. by apply lt_pow2_by_bits. Qed.

Lemma set_free_ok b i : 0 <= i < MAX_PAGES -> mem_bytes b ->
  exists b', set_free b i = Done b' /\ mem_bytes b' /\
    forall j, 0 <= j -> bfree b' j = (j =? i) || bfree b j.
Proof.
  intros Hi Hb. unfold set_free, bitmap_put, bitmap_get. rewrite !byte_in_bitmap by done.
  pose proof (Z.mod_pos_bound i 8 ltac:(lia)) as Hm. pose proof (Hb (i / 8)) as Hv.
  eexists; split; [reflexivity|]; split.
  - intros a. rewrite ldb_stb. case_decide; [|apply Hb].
    apply u8_by_bits; [apply Z.lor_nonneg; split; [apply Hv|by apply Z.shiftl_nonneg]|].
    intros n Hn. rewrite testbit_set by lia. destruct (Z.eqb_spec n (i mod 8)); [lia|].
    apply (testbit_high 8); [apply Hv|lia].
  - intros j Hj. erewrite bfree_update with (f := true); [|lia..|].
    + by destruct (j =? i).
    + intros n Hn. apply testbit_set; lia.
Qed.

Lemma set_used_ok b i : 0 <= i < MAX_PAGES -> mem_bytes b ->
  exists b', set_used b i = Done b' /\ mem_bytes b' /\
    forall j, 0 <= j -> bfree b' j = negb (j =? i) && bfree b j.
Proof.
  intros Hi Hb. unfold set_used, bitmap_put, bitmap_get. rewrite !byte_in_bitmap by done.
  pose proof (Z.mod_pos_bound i 8 ltac:(lia)) as Hm. pose proof (Hb (i / 8)) as Hv.
  eexists; split; [reflexivity|]; split.
  - intros a. rewrite ldb_stb. case_decide; [|apply Hb].
    apply u8_by_bits; [apply Z.land_nonneg; left; apply Hv|].
    intros n Hn. rewrite testbit_clear8 by (done || lia). destruct (n =? i mod 8); [done|].
    apply (testbit_high 8); [apply Hv|lia].
  - intros j Hj. erewrite bfree_update with (f := false); [|lia..|].
    + by destruct (j =? i).
    + intros n Hn. apply testbit_clear8; [lia..|apply Hv].
Qed.

(** A [bitmap_loop] of bit updates [f k] at page [g k] sets exactly those bits. *)
Lemma bitmap_loop_ok num (f : Z -> gmap Z Z -> outcome (gmap Z Z)) (v : bool) s b :
  0 <= num -> 0 <= s -> mem_bytes b ->
  (forall k b, 0 <= k < num -> mem_bytes b ->
     exists b', f k b = Done b' /\ mem_bytes b' /\
       forall j, 0 <= j -> bfree b' j = if j =? s + k then v else bfree b j) ->
  exists b', bitmap_loop num f b = Done b' /\ mem_bytes b' /\
    forall j, 0 <= j -> bfree b' j = if (s <=? j) && (j <? s + num) then v else bfree b j.
Proof.
  intros Hn Hs Hb Hf. unfold bitmap_loop.
  for_inv (fun i b' => mem_bytes b' /\ forall j, 0 <= j ->
             bfree b' j = if (s <=? j) && (j <? s + i) then v else bfree b j)
    (fun _ : outcome (gmap Z Z) => False) H.
  - split; [done|]. intros j Hj. case_ifs; (done || lia).
  - intros k b1 Hk [Hm Hb1]. rewrite Z2Nat.id in Hk by lia.
    destruct (Hf k b1 ltac:(lia) Hm) as (b2 & -> & Hm2 & Hb2).
    simpl. split; [done|]. intros j Hj. rewrite Hb2, Hb1 by lia. case_ifs; done || lia.
  - destruct (for_loop _ _ _ b) as [b'|o]; [|done]. exists b'. by split.
Qed.

(** The scan finds the first fit or shows there is none. *)
Lemma alloc_scan_spec p count :
  pages_wf p -> 0 < count ->
  match for_loop (Z.to_nat (NUM_PAGES p)) 0 (alloc_scan (BITMAP p) count) (0, 0) with
  | inl _ => forall j, 0 <= j -> j + count <= NUM_PAGES p -> ~ free_run (BITMAP p) j count
  | inr (Done s) => first_fit p count s
  | inr Panic => False
  end.
Proof.
  intros Hwf Hc. set (b := BITMAP p). pose proof (wf_num _ Hwf) as Hnum.
  pose proof MAX_PAGES_val as HM.
  for_inv (fun i '(c, s) => 0 <= c < count /\ c <= i /\
       (0 < c -> s = i - c) /\ (forall k, i - c <= k < i -> bfree b k = true) /\
       (forall j, 0 <= j < i - c -> exists k, j <= k < j + count /\ k < i - c /\ bfree b k = false))
    (fun o => match o with Done s => first_fit p count s | Panic => False end) H.
  - repeat split; try lia; intros; lia.
  - intros i [c s] Hi (Hc1 & Hci & Hs & Hrun & Hno). rewrite Z2Nat.id in Hi by lia. unfold alloc_scan.
    rewrite bit_is_free_ok by lia. destruct (bfree b i) eqn:Hfi.
    + assert (Hw : c +u 1 = c + 1) by (apply as_u64_small; unfold is_u64; lia).
      rewrite Hw. destruct (Z.eqb_spec (c + 1) count) as [He|Hne].
      * assert (Hsi : (if c =? 0 then i else s) = i - c) by (case_ifs; lia).
        rewrite Hsi. unfold first_fit. split; [lia|]. split; [lia|]. split.
        -- intros k Hk. destruct (Z.eq_dec k i) as [->|]; [done|]. apply Hrun. lia.
        -- intros j Hj Hr. destruct (Hno j Hj) as (k & Hk1 & Hk2 & Hk3).
           rewrite Hr in Hk3 by lia. done.
      * replace (i + 1 - (c + 1)) with (i - c) by lia. repeat split; try lia; try done.
        -- intros _. case_ifs; lia.
        -- intros k Hk. destruct (Z.eq_dec k i) as [->|]; [done|]. apply Hrun. lia.
    + repeat split; try lia. intros j Hj.
      destruct (Z.lt_ge_cases j (i - c)) as [Hlt|Hge].
      * destruct (Hno j ltac:(lia)) as (k & ? & ? & ?). exists k. repeat split; lia || done.
      * exists i. repeat split; lia || done.
  - destruct (for_loop _ _ _ _) as [[c s]|o]; [|done].
    destruct H as (Hc1 & Hci & _ & _ & Hno). intros j Hj1 Hj2 Hr.
    destruct (Hno j ltac:(lia)) as (k & Hk1 & Hk2 & Hk3). rewrite Hr in Hk3 by lia. done.
Qed.

(** What one call of [alloc_pages] does to the allocator and to RAM. *)
Definition alloc_spec (m : machine) (count : Z) (r : option Z) (m' : machine) : Prop :=
  match r with
  | Some addr => exists s,
      first_fit (pg m) count s /\ addr = page_addr (pg m) s /\
      PAGE_BASE (pg m') = PAGE_BASE (pg m) /\ NUM_PAGES (pg m') = NUM_PAGES (pg m) /\
      RAM_TOP (pg m') = RAM_TOP (pg m) /\
      (forall j, 0 <= j -> page_free (pg m') j =
         negb ((s <=? j) && (j <? s + count)) && page_free (pg m) j) /\
      ram m' = zero_range addr (count * PAGE_SIZE) (ram m)
  | None => m' = m /\
      forall j, 0 <= j -> j + count <= NUM_PAGES (pg m) -> ~ free_run (BITMAP (pg m)) j count
  end.

Lemma page_addr_pa p i : pages_wf p -> 0 <= i <= NUM_PAGES p ->
  is_pa (page_addr p i) /\ page_addr p i <= MAX_RAM_END.
Proof.
  intros [] Hi. unfold is_pa, page_addr, PAGE_SIZE, MAX_RAM_END in *. nia.
Qed.

Lemma alloc_pages_correct m count :
  pages_wf (pg m) -> 0 < count < 2 ^ 64 ->
  exists r m', alloc_pages m count = Done (r, m') /\ alloc_spec m count r m' /\ pages_wf (pg m').
Proof.
  intros Hwf Hc. unfold alloc_pages. destruct (Z.eqb_spec count 0); [lia|].
  pose proof (alloc_scan_spec (pg m) count Hwf ltac:(lia)) as Hs.
  destruct (for_loop _ _ _ _) as [?|[s|]]; [|clear n|done].
  - exists None, m. done.
  - pose proof Hs as (Hs0 & Hs1 & Hrun & Hfirst). pose proof (wf_num _ Hwf) as Hnum.
    pose proof MAX_PAGES_val as HM.
    destruct (bitmap_loop_ok count (fun k b => set_used b (s +u k)) false s (BITMAP (pg m)))
      as (b' & -> & Hb' & Hbits); [lia..|apply Hwf| |].
    { intros k b Hk Hb. rewrite as_u64_small by (unfold is_u64; lia).
      destruct (set_used_ok b (s + k) ltac:(lia) Hb) as (b' & ? & ? & Hj).
      exists b'. split; [done|]. split; [done|]. intros j Hj0. rewrite Hj by done.
      destruct (j =? s + k); done. }
    simpl. pose proof (page_addr_pa _ s Hwf ltac:(lia)) as [Hpa _].
    destruct (page_addr_pa _ (s + count) Hwf ltac:(lia)) as [_ Htop].
    assert (Ha : PAGE_BASE (pg m) +u s *u PAGE_SIZE = page_addr (pg m) s).
    { unfold page_addr in *. unfold is_pa, PAGE_SIZE in *. pose proof (wf_base _ Hwf).
      rewrite (as_u64_small (s * 4096)) by (unfold is_u64; lia).
      apply as_u64_small. unfold is_u64. lia. }
    rewrite Ha. eexists _, _. split; [reflexivity|]. split.
    + exists s. simpl. repeat (split; [done|]). split.
      * intros j Hj. unfold page_free. simpl. rewrite Hbits by done. case_ifs; done.
      * unfold kzero. rewrite to_dma_phys_to_virt by done. f_equal.
        apply as_u64_small. unfold is_u64, page_addr, PAGE_SIZE, MAX_RAM_END in *.
        pose proof (wf_base _ Hwf). lia.
    + destruct Hwf. by constructor.
Qed.

(** ** Initialisation and release *)

Lemma page_align_up_spec a : 0 <= a -> a + PAGE_SIZE < 2 ^ 64 ->
  page_align_up a mod PAGE_SIZE = 0 /\ a <= page_align_up a < a + PAGE_SIZE.
Proof.
  unfold PAGE_SIZE. intros H0 H1. unfold page_align_up, PAGE_SIZE.
  rewrite (as_u64_small (a + 4096)) by (unfold is_u64; lia).
  rewrite (as_u64_small (a + 4096 - 1)) by (unfold is_u64; lia).
  change (4096 - 1) with (2 ^ 12 - 1). rewrite land_not_ones by (unfold is_u64; lia).
  change (2 ^ 12) with 4096. pose proof (Z.mod_pos_bound (a + 4096 - 1) 4096 ltac:(lia)).
  split; [|lia]. rewrite Zminus_mod_idemp_r, Z.sub_diag. done.
Qed.

Lemma init_correct kernel_end ram_end b0 :
  0x40000000 <= kernel_end -> kernel_end + PAGE_SIZE < 2 ^ 64 -> 0 <= ram_end ->
  page_align_up kernel_end <= Z.min ram_end MAX_RAM_END ->
  mem_bytes b0 -> (forall j, 0 <= j -> bfree b0 j = false) ->
  exists p, init kernel_end ram_end b0 = Done p /\ pages_wf p /\
    PAGE_BASE p = page_align_up kernel_end /\
    NUM_PAGES p = (Z.min ram_end MAX_RAM_END - page_align_up kernel_end) / PAGE_SIZE /\
    RAM_TOP p = Z.min ram_end MAX_RAM_END /\
    forall j, 0 <= j -> page_free p j = (j <? NUM_PAGES p).
Proof.
  intros Hk Hk' Hr Hle Hb Hz. unfold init.
  destruct (page_align_up_spec kernel_end ltac:(lia) Hk') as [Hal Hbd].
  set (base := page_align_up kernel_end) in *. set (top := Z.min ram_end MAX_RAM_END) in *.
  assert (Htop : top <= MAX_RAM_END) by lia.
  rewrite as_u64_small by (unfold is_u64, MAX_RAM_END, PAGE_SIZE in *; lia).
  set (num := (top - base) / PAGE_SIZE).
  assert (Hnum : 0 <= num <= MAX_PAGES /\ num * PAGE_SIZE <= top - base).
  { unfold num, MAX_PAGES, PAGE_SIZE in *. split; [split|].
    - apply Z.div_pos; lia.
    - apply Z.div_le_mono; lia.
    - rewrite Z.mul_comm. apply Z.mul_div_le. lia. }
  destruct (bitmap_loop_ok num (fun i b => set_free b i) true 0 b0)
    as (b & -> & Hm & Hbits); [lia..|done| |].
  { intros k b Hk1 Hb1. destruct (set_free_ok b k ltac:(lia) Hb1) as (b' & ? & ? & Hj).
    exists b'. repeat (split; [done|]). intros j Hj0. rewrite Hj, Z.add_0_l by done. by destruct (j =? k). }
  eexists. split; [reflexivity|]. split; [constructor; simpl; try done; lia|].
  repeat (split; [done|]). intros j Hj. unfold page_free. simpl. rewrite Hbits, Hz by done.
  rewrite Z.add_0_l, (proj2 (Z.leb_le 0 j) Hj). simpl. by destruct (j <? num).
Qed.

(** The pages [free_page] accepts. *)
Definition freeable (p : pages) (addr : Z) : bool :=
  (PAGE_BASE p <=? addr) && (addr <? RAM_TOP p) && (addr mod PAGE_SIZE =? 0) &&
  ((addr - PAGE_BASE p) / PAGE_SIZE <? NUM_PAGES p).

Definition same_geometry (p p' : pages) : Prop :=
  PAGE_BASE p' = PAGE_BASE p /\ NUM_PAGES p' = NUM_PAGES p /\ RAM_TOP p' = RAM_TOP p.

(** [free_page] frees the page of a valid address and ignores any other. *)
Lemma free_page_correct p addr :
  pages_wf p -> is_u64 addr ->
  exists p', free_page p addr = Done p' /\ pages_wf p' /\ same_geometry p p' /\
    forall j, 0 <= j -> page_free p' j =
      (freeable p addr && (j =? (addr - PAGE_BASE p) / PAGE_SIZE)) || page_free p j.
Proof.
  intros Hwf Ha. unfold free_page, freeable.
  change (PAGE_SIZE - 1) with (2 ^ 12 - 1). rewrite land_ones_mod by lia.
  change (2 ^ 12) with PAGE_SIZE. rewrite Z.ltb_antisym.
  destruct (Z.leb_spec (PAGE_BASE p) addr) as [H1|H1]; simpl;
    [|exists p; repeat (split; [done|]); done].
  rewrite Z.leb_antisym. destruct (Z.ltb_spec addr (RAM_TOP p)) as [H2|H2]; simpl;
    [|exists p; repeat (split; [done|]); done].
  destruct (Z.eqb_spec (addr mod PAGE_SIZE) 0) as [H3|H3]; simpl;
    [|exists p; repeat (split; [done|]); done].
  rewrite as_u64_small by (destruct Hwf; unfold is_u64 in *; lia).
  destruct (Z.ltb_spec ((addr - PAGE_BASE p) / PAGE_SIZE) (NUM_PAGES p)) as [H4|H4]; simpl;
    [|exists p; repeat (split; [done|]); done].
  assert (H5 : 0 <= (addr - PAGE_BASE p) / PAGE_SIZE) by (apply Z.div_pos; unfold PAGE_SIZE; lia).
  destruct (set_free_ok (BITMAP p) ((addr - PAGE_BASE p) / PAGE_SIZE)) as (b' & -> & Hb & Hj).
  { pose proof (wf_num _ Hwf). lia. } { apply Hwf. }
  eexists. split; [reflexivity|]. split; [destruct Hwf; by constructor|]. done.
Qed.

(** Whatever the arguments, releasing never panics and keeps the allocator. *)
Lemma release_pages_wf p base count :
  pages_wf p -> exists p', release_pages p base count = Done p' /\ pages_wf p' /\ same_geometry p p'.
Proof.
  intros Hwf. unfold release_pages.
  pose proof (for_loop_inv (fun i p => match free_page p (base +u i *u PAGE_SIZE) with
      | Done p' => inl p' | Panic => inr Panic end) (fun _ p' => pages_wf p' /\ same_geometry p p')
    (fun _ : outcome pages => False) (Z.to_nat count) 0 p) as H.
  destruct (for_loop _ _ _ p) as [p'|]; [exists p'; split; [done|]; apply H|exfalso; apply H]; [done| |done|].
  all: intros i p1 _ (Hwf1 & Hg1 & Hg2 & Hg3);
    destruct (free_page_correct p1 (base +u i *u PAGE_SIZE) Hwf1 (as_u64_range _))
      as (p2 & -> & Hwf2 & (Hg4 & Hg5 & Hg6) & _);
    (split; [done|]); (split; [congruence|]); split; congruence.
Qed.

Lemma page_addr_index p i : (page_addr p i - PAGE_BASE p) / PAGE_SIZE = i.
Proof.
  unfold page_addr. replace (_ + _ - _) with (i * PAGE_SIZE) by lia.
  apply Z.div_mul. done.
Qed.

Lemma page_addr_freeable p i : pages_wf p -> 0 <= i < NUM_PAGES p ->
  freeable p (page_addr p i) = true.
Proof.
  intros Hwf Hi. unfold freeable. rewrite page_addr_index.
  assert (page_addr p i mod PAGE_SIZE = 0) as ->.
  { unfold page_addr. rewrite Z.mod_add by done. apply Hwf. }
  destruct Hwf. unfold page_addr, PAGE_SIZE in *. rewrite Z.eqb_refl.
  rewrite (proj2 (Z.leb_le _ _)), !(proj2 (Z.ltb_lt _ _)) by lia. done.
Qed.

(** [release_pages] of a block of managed pages frees exactly that block. *)
Lemma release_pages_correct p s count :
  pages_wf p -> 0 <= s -> 0 <= count -> s + count <= NUM_PAGES p ->
  exists p', release_pages p (page_addr p s) count = Done p' /\ pages_wf p' /\
    same_geometry p p' /\
    forall j, 0 <= j -> page_free p' j = ((s <=? j) && (j <? s + count)) || page_free p j.
Proof.
  intros Hwf Hs Hc Hn. unfold release_pages.
  for_inv (fun i p' => pages_wf p' /\ same_geometry p p' /\ forall j, 0 <= j ->
             page_free p' j = ((s <=? j) && (j <? s + i)) || page_free p j)
    (fun _ : outcome pages => False) H.
  - split; [done|]. split; [done|]. intros j Hj. case_ifs; destruct (Z.leb_spec s j),
      (Z.ltb_spec j (s + 0)); simpl; lia || done.
  - intros i p1 Hi (Hwf1 & Hg & Hf). rewrite Z2Nat.id in Hi by lia.
    pose proof (page_addr_pa p (s + i) Hwf ltac:(lia)) as [Hpa _].
    assert (Hadd : page_addr p s +u i *u PAGE_SIZE = page_addr p1 (s + i)).
    { destruct Hg as (Hg1 & _ & _). unfold page_addr in *. rewrite Hg1.
      pose proof (wf_base _ Hwf). unfold is_pa, PAGE_SIZE in *.
      rewrite (as_u64_small (i * 4096)) by (unfold is_u64; lia).
      rewrite as_u64_small by (unfold is_u64; lia). lia. }
    assert (Hpe : page_addr p1 (s + i) = page_addr p (s + i)).
    { unfold page_addr. by destruct Hg as (-> & _). }
    rewrite Hadd. destruct (free_page_correct p1 (page_addr p1 (s + i)) Hwf1)
      as (p2 & -> & Hwf2 & Hg2 & Hf2).
    { rewrite Hpe. unfold is_pa, is_u64 in *. lia. }
    split; [done|]. split; [unfold same_geometry in *; intuition congruence|].
    intros j Hj. rewrite Hf2, Hf, page_addr_index by done.
    rewrite page_addr_freeable by (done || destruct Hg as (_ & -> & _); lia).
    destruct (Z.eqb_spec j (s + i)), (Z.leb_spec s j), (Z.ltb_spec j (s + i)),
      (Z.ltb_spec j (s + (i + 1))); simpl; lia || done.
  - destruct (for_loop _ _ _ _) as [p'|]; [|done]. exists p'. by split.
Qed.

(** ** Counting free pages *)

Fixpoint free_count (b : gmap Z Z) (n : nat) : Z :=
  match n with
  | O => 0
  | S n' => free_count b n' + (if bfree b (Z.of_nat n') then 1 else 0)
  end.

Lemma free_count_bound b n : 0 <= free_count b n <= Z.of_nat n.
Proof. induction n as [|n IH]; simpl free_count; [lia|]. case_ifs; lia. Qed.

Lemma free_pages_count p : pages_wf p ->
  free_pages p = Done (free_count (BITMAP p) (Z.to_nat (NUM_PAGES p))).
Proof.
  intros Hwf. unfold free_pages. pose proof (wf_num _ Hwf) as Hn. pose proof MAX_PAGES_val.
  for_inv (fun i n => n = free_count (BITMAP p) (Z.to_nat i)) (fun _ : outcome Z => False) HL.
  - done.
  - intros i n Hi ->. rewrite Z2Nat.id in Hi by lia. rewrite bit_is_free_ok by lia.
    pose proof (free_count_bound (BITMAP p) (Z.to_nat i)).
    replace (Z.to_nat (i + 1)) with (S (Z.to_nat i)) by lia. simpl.
    rewrite Z2Nat.id by lia. destruct (bfree _ i); [|lia].
    apply as_u64_small. unfold is_u64. lia.
  - destruct (for_loop _ _ _ _); [by subst|done].
Qed.

(** Clearing a run of free bits lowers the count by the run's length. *)
Lemma free_count_run b b' s c n :
  0 <= s -> 0 <= c -> free_run b s c ->
  (forall j, 0 <= j -> bfree b' j = negb ((s <=? j) && (j <? s + c)) && bfree b j) ->
  free_count b n = free_count b' n + Z.max 0 (Z.min (Z.of_nat n) (s + c) - s).
Proof.
  intros Hs Hc Hr Hb. induction n as [|n IH]; simpl free_count; [lia|].
  rewrite Hb, IH by lia.
  destruct (Z.leb_spec s (Z.of_nat n)), (Z.ltb_spec (Z.of_nat n) (s + c)); simpl;
    [rewrite Hr by lia| | |]; lia.
Qed.

(** ** Live blocks

    The allocator driven by its clients: [live] is the list of blocks handed out
    and not yet released. *)

Inductive pstep : machine * list (Z * Z) -> machine * list (Z * Z) -> Prop :=
| ps_alloc m live n addr m' :
    0 < n < 2 ^ 64 -> alloc_pages m n = Done (Some addr, m') ->
    pstep (m, live) (m', (addr, n) :: live)
| ps_fail m live n m' :
    0 < n < 2 ^ 64 -> alloc_pages m n = Done (None, m') -> pstep (m, live) (m', live)
| ps_release m live live' addr n p' :
    live ≡ₚ (addr, n) :: live' -> release_pages (pg m) addr n = Done p' ->
    pstep (m, live) (mk_machine p' (ram m), live')
| ps_write m live r' :
    pstep (m, live) (mk_machine (pg m) r', live).

Fixpoint pairwise {A} (R : A -> A -> Prop) (l : list A) : Prop :=
  match l with
  | [] => True
  | x :: l' => Forall (R x) l' /\ pairwise R l'
  end.

Lemma pairwise_perm {A} (R : A -> A -> Prop) l l' :
  (forall x y, R x y -> R y x) -> l ≡ₚ l' -> pairwise R l -> pairwise R l'.
Proof.
  intros Hsym HP. induction HP as [|x l l' HP IH|x y l|l1 l2 l3 _ IH1 _ IH2]; simpl; auto.
  - intros [H1 H2]. split; [by rewrite <- HP|auto].
  - intros ([Hyx Hy]%Forall_cons & Hx & Hl). rewrite Forall_cons. auto.
Qed.

Definition blocks_disjoint (x y : Z * Z) : Prop :=
  x.1 + x.2 * PAGE_SIZE <= y.1 \/ y.1 + y.2 * PAGE_SIZE <= x.1.

(** A live block: managed pages, none of them free. *)
Definition live_block (p : pages) (x : Z * Z) : Prop :=
  exists s, x.1 = page_addr p s /\ 0 <= s /\ 0 < x.2 /\ s + x.2 <= NUM_PAGES p /\
    forall k, s <= k < s + x.2 -> page_free p k = false.

Definition live_inv (st : machine * list (Z * Z)) : Prop :=
  pages_wf (pg st.1) /\ Forall (live_block (pg st.1)) st.2 /\ pairwise blocks_disjoint st.2.

Lemma live_block_mono p p' x :
  same_geometry p p' ->
  (forall k, 0 <= k -> page_addr p k >= x.1 -> page_addr p k < x.1 + x.2 * PAGE_SIZE ->
     page_free p k = false -> page_free p' k = false) ->
  live_block p x -> live_block p' x.
Proof.
  intros (Hb & Hn & _) Hf (s & Hx & Hs & Hc & Hle & Hu). exists s.
  unfold page_addr, PAGE_SIZE in *. rewrite Hb, Hn.
  repeat (split; [done|]). intros k Hk. apply Hf; [lia..|auto].
Qed.

Lemma alloc_live m live n addr m' :
  0 < n < 2 ^ 64 -> live_inv (m, live) -> alloc_pages m n = Done (Some addr, m') ->
  live_inv (m', (addr, n) :: live).
Proof.
  intros Hn (Hwf & Hl & Hp) Ha. simpl in *.
  destruct (alloc_pages_correct m n Hwf Hn) as (r & m1 & E & Hsp & Hwf'). rewrite E in Ha.
  injection Ha as -> ->. destruct Hsp as (s & Hff & -> & Hg1 & Hg2 & Hg3 & Hfree & _).
  destruct Hff as (Hs & Hle & Hrun & _).
  assert (Hgeo : same_geometry (pg m) (pg m')) by done.
  split; [done|]. split; simpl.
  - constructor.
    + exists s. simpl. unfold page_addr. rewrite Hg1, Hg2. repeat (split; [done || lia|]).
      intros k Hk. rewrite Hfree by lia.
      destruct (Z.leb_spec s k), (Z.ltb_spec k (s + n)); simpl; lia || done.
    + eapply Forall_impl; [exact Hl|]. intros x Hx. eapply live_block_mono; [done| |done].
      intros k Hk _ _ Hu. rewrite Hfree, Hu by done. apply andb_false_r.
  - split; [|done]. eapply Forall_impl; [exact Hl|].
    intros [a c] (s' & Hx & Hs' & Hc & Hle' & Hu). simpl in *. unfold blocks_disjoint. simpl.
    subst a. unfold page_addr, PAGE_SIZE.
    destruct (Z.le_gt_cases (s + n) s'); [lia|]. destruct (Z.le_gt_cases (s' + c) s); [lia|].
    exfalso. specialize (Hu (Z.max s s') ltac:(lia)). unfold page_free in Hu.
    rewrite (Hrun (Z.max s s')) in Hu by lia. done.
Qed.

Lemma blocks_disjoint_sym x y : blocks_disjoint x y -> blocks_disjoint y x.
Proof. unfold blocks_disjoint. tauto. Qed.

Lemma release_live m live live' addr n p' :
  live_inv (m, live) -> live ≡ₚ (addr, n) :: live' ->
  release_pages (pg m) addr n = Done p' -> live_inv (mk_machine p' (ram m), live').
Proof.
  intros (Hwf & Hl & Hp) HP Hr. simpl in *. rewrite HP in Hl.
  apply (pairwise_perm _ _ _ blocks_disjoint_sym HP) in Hp as [Hd Hp].
  apply Forall_cons in Hl as [(s & Hx & Hs & Hc & Hle & _) Hl]. simpl in *. subst addr.
  destruct (release_pages_correct (pg m) s n Hwf Hs ltac:(lia) Hle)
    as (p1 & E & Hwf' & Hgeo & Hfree). rewrite E in Hr. injection Hr as ->.
  split; [done|]. split; [|done]. simpl. rewrite Forall_forall in Hd, Hl |- *.
  intros y Hy. apply (live_block_mono (pg m)); [done| |by apply Hl].
  intros k Hk Hlo Hhi Hu. rewrite Hfree, Hu by done.
  specialize (Hd y Hy). unfold blocks_disjoint, page_addr, PAGE_SIZE in *. simpl in Hd.
  destruct (Z.leb_spec s k), (Z.ltb_spec k (s + n)); simpl; lia || done.
Qed.

Lemma pstep_inv st st' : pstep st st' -> live_inv st -> live_inv st'.
Proof.
  intros H Hi. destruct H as [m live n addr m' Hn E|m live n m' Hn E|m live live' addr n p' HP E|].
  - by eapply alloc_live.
  - destruct (alloc_pages_correct m n (proj1 Hi) Hn) as (r & m1 & E' & Hsp & _).
    rewrite E in E'. injection E' as <- <-. destruct Hsp as [-> _]. done.
  - by eapply release_live.
  - done.
Qed.

(** ** Properties *)

(** A 16-page machine with everything free, for the witnesses. *)
Definition demo_pages : pages :=
  mk_pages (stb (stb ∅ 0 255) 1 255) 0x41000000 16 0x41010000.

Lemma demo_pages_wf : pages_wf demo_pages.
Proof.
  constructor; simpl; try (done || lia).
  repeat apply mem_bytes_stb; [by split..|apply mem_bytes_empty].
Qed.

(** C7: [alloc_pages] never panics on a well-formed allocator, keeps it
    well-formed, and is first-fit: it returns the lowest run of [count] free
    pages, marks exactly that run used, zeroes exactly its bytes, and fails only
    when no such run exists (a request for 0 pages is refused). *)
Theorem alloc_pages_first_fit m count :
  pages_wf (pg m) -> is_u64 count ->
  exists r m', alloc_pages m count = Done (r, m') /\ pages_wf (pg m') /\
    (count = 0 -> r = None /\ m' = m) /\ (0 < count -> alloc_spec m count r m').
Proof.
  intros Hwf Hc. destruct (Z.eq_dec count 0) as [->|Hne].
  - exists None, m. split; [done|]. split; [done|]. split; [done|lia].
  - destruct (alloc_pages_correct m count Hwf) as (r & m' & E & Hsp & Hwf').
    { unfold is_u64 in Hc. lia. }
    exists r, m'. split; [done|]. split; [done|]. split; [lia|done].
Qed.

Lemma alloc_pages_first_fit_witness :
  exists r m', alloc_pages (mk_machine demo_pages ∅) 3 = Done (r, m') /\ pages_wf (pg m') /\
    (3 = 0 -> r = None /\ m' = mk_machine demo_pages ∅) /\
    (0 < 3 -> alloc_spec (mk_machine demo_pages ∅) 3 r m').
Proof. apply (alloc_pages_first_fit (mk_machine demo_pages ∅) 3); [apply demo_pages_wf|by split]. Defined.

(** from [init] on, whatever sequence of allocations, failed allocations,
    releases of live blocks and writes to RAM the kernel performs, live blocks
    never overlap, lie inside managed RAM, and none of their pages is free. *)
Theorem live_allocations_disjoint kernel_end ram_end b0 p r st :
  0x40000000 <= kernel_end -> kernel_end + PAGE_SIZE < 2 ^ 64 -> 0 <= ram_end ->
  page_align_up kernel_end <= Z.min ram_end MAX_RAM_END ->
  mem_bytes b0 -> (forall j, 0 <= j -> bfree b0 j = false) ->
  init kernel_end ram_end b0 = Done p ->
  rtc pstep (mk_machine p r, []) st ->
  pairwise blocks_disjoint st.2 /\ Forall (live_block (pg st.1)) st.2.
Proof.
  intros Hk Hk' Hr Hle Hb Hz Hi Hst.
  destruct (init_correct kernel_end ram_end b0 Hk Hk' Hr Hle Hb Hz) as (p1 & E & Hwf & _).
  rewrite E in Hi. injection Hi as ->.
  assert (H0 : live_inv (mk_machine p r, [])) by (split; [done|]; split; [constructor|done]).
  assert (H : live_inv st).
  { revert H0. induction Hst; [done|]. intros. apply IHHst. by eapply pstep_inv. }
  destruct H as (_ & ? & ?). done.
Qed.

Lemma live_allocations_disjoint_witness :
  exists p st, init 0x41000000 0x41010000 ∅ = Done p /\
    rtc pstep (mk_machine p ∅, []) st /\ length st.2 = 2%nat /\ pairwise blocks_disjoint st.2.
Proof.
  destruct (init 0x41000000 0x41010000 ∅) as [p|] eqn:E; [|vm_compute in E; discriminate].
  destruct (alloc_pages (mk_machine p ∅) 2) as [[[a|] m1]|] eqn:E1;
    [| vm_compute in E; injection E as <-; vm_compute in E1; discriminate ..].
  destruct (alloc_pages m1 3) as [[[b|] m2]|] eqn:E2;
    [| vm_compute in E; injection E as <-; vm_compute in E1; injection E1 as <- <-;
       vm_compute in E2; discriminate ..].
  exists p, (m2, [(b, 3); (a, 2)]). split; [done|].
  assert (S : rtc pstep (mk_machine p ∅, []) (m2, [(b, 3); (a, 2)])).
  { eapply rtc_l; [by apply (ps_alloc _ _ 2)|]. eapply rtc_l; [by apply (ps_alloc _ _ 3)|].
    apply rtc_refl. }
  split; [exact S|]. split; [done|].
  refine (proj1 (live_allocations_disjoint 0x41000000 0x41010000 ∅ p ∅ _ _ _ _ _ _ _ E S)).
  - lia.
  - done.
  - lia.
  - vm_compute. discriminate.
  - apply mem_bytes_empty.
  - intros j _. unfold bfree, ldb. rewrite lookup_empty. apply Z.bits_0.
Defined.

(** releasing a block right after it was allocated restores the allocator:
    every page is free or used exactly as before the allocation. *)
Theorem alloc_release_roundtrip m count addr m' :
  pages_wf (pg m) -> 0 < count < 2 ^ 64 ->
  alloc_pages m count = Done (Some addr, m') ->
  exists p, release_pages (pg m') addr count = Done p /\ pages_wf p /\
    same_geometry (pg m) p /\ forall j, 0 <= j -> page_free p j = page_free (pg m) j.
Proof.
  intros Hwf Hc Ha. destruct (alloc_pages_correct m count Hwf Hc) as (r & m1 & E & Hsp & Hwf').
  rewrite E in Ha. injection Ha as -> ->.
  destruct Hsp as (s & (Hs & Hle & Hrun & _) & -> & Hg1 & Hg2 & Hg3 & Hfree & _).
  destruct (release_pages_correct (pg m') s count Hwf') as (p & Hr & Hwfp & Hg & Hfp); [rewrite ?Hg2; lia..|].
  assert (page_addr (pg m') s = page_addr (pg m) s) as HA by (unfold page_addr; by rewrite Hg1).
  rewrite HA in Hr. exists p. split; [done|]. split; [done|].
  split; [unfold same_geometry in *; intuition congruence|].
  intros j Hj. rewrite Hfp, Hfree by done.
  destruct (Z.leb_spec s j), (Z.ltb_spec j (s + count)); simpl; try done.
  symmetry. apply Hrun. lia.
Qed.

Lemma alloc_release_roundtrip_witness :
  exists addr m', alloc_pages (mk_machine demo_pages ∅) 5 = Done (Some addr, m') /\
    exists p, release_pages (pg m') addr 5 = Done p /\ page_free p 0 = page_free demo_pages 0.
Proof.
  destruct (alloc_pages (mk_machine demo_pages ∅) 5) as [[[a|] m1]|] eqn:E;
    [|vm_compute in E; discriminate ..].
  exists a, m1. split; [done|].
  destruct (alloc_release_roundtrip (mk_machine demo_pages ∅) 5 a m1 demo_pages_wf ltac:(lia) E) as (p & Hr & _ & _ & Hf).
  exists p. split; [done|]. by apply Hf.
Defined.

(** page accounting: a successful allocation of [count] pages lowers
    [free_pages] by exactly [count] and raises [used_pages] by as much, so the two
    always add up to [total_pages]. *)
Theorem alloc_pages_accounting m count addr m' :
  pages_wf (pg m) -> 0 < count < 2 ^ 64 ->
  alloc_pages m count = Done (Some addr, m') ->
  exists f, free_pages (pg m) = Done f /\ free_pages (pg m') = Done (f - count) /\
    used_pages (pg m) = Done (total_pages (pg m) - f) /\
    used_pages (pg m') = Done (total_pages (pg m) - f + count).
Proof.
  intros Hwf Hc Ha. destruct (alloc_pages_correct m count Hwf Hc) as (r & m1 & E & Hsp & Hwf').
  rewrite E in Ha. injection Ha as -> ->.
  destruct Hsp as (s & (Hs & Hle & Hrun & _) & _ & _ & Hg2 & _ & Hfree & _).
  pose proof (wf_num _ Hwf) as Hn. pose proof MAX_PAGES_val as HM.
  pose proof (free_count_run (BITMAP (pg m)) (BITMAP (pg m')) s count
    (Z.to_nat (NUM_PAGES (pg m))) Hs ltac:(lia) Hrun Hfree) as Hcnt.
  rewrite Z2Nat.id in Hcnt by lia.
  pose proof (free_count_bound (BITMAP (pg m')) (Z.to_nat (NUM_PAGES (pg m)))) as Hb.
  rewrite Z2Nat.id in Hb by lia.
  unfold used_pages, total_pages. rewrite !free_pages_count by done. rewrite Hg2. simpl.
  set (f := free_count (BITMAP (pg m)) _) in *. set (f' := free_count (BITMAP (pg m')) _) in *.
  exists f. pose proof (free_count_bound (BITMAP (pg m)) (Z.to_nat (NUM_PAGES (pg m)))) as Hb2.
  rewrite Z2Nat.id in Hb2 by lia. fold f in Hb2.
  rewrite !as_u64_small by (unfold is_u64; lia). repeat split; f_equal; lia.
Qed.

Lemma alloc_pages_accounting_witness :
  exists addr m', alloc_pages (mk_machine demo_pages ∅) 5 = Done (Some addr, m') /\
    free_pages (pg m') = Done 11.
Proof.
  destruct (alloc_pages (mk_machine demo_pages ∅) 5) as [[[a|] m1]|] eqn:E;
    [|vm_compute in E; discriminate ..].
  exists a, m1. split; [done|].
  destruct (alloc_pages_accounting (mk_machine demo_pages ∅) 5 a m1 demo_pages_wf ltac:(lia) E) as (f & Hf & Hf' & _).
  vm_compute in Hf. injection Hf as <-. exact Hf'.
Defined.
