(* ===== verification/Vmm.v ===== *)
(** * Virtual memory manager (kernel/src/memory/vmm.rs)

    AArch64 four-level page tables with a 4 KiB granule, kept in the physical
    memory of [machine]: a table is a page of 512 little-endian 8-byte entries.
    Page-table memory comes from the page allocator; running out of it is the
    panic of [alloc_table].  TLB maintenance is recorded as a list of events. *)

From stdpp Require Import base numbers list gmap.
From Stdlib Require Import ZArith Lia.
From S2P Require Import Prelude Machine PageAlloc.

(** ** Descriptor bits *)

Definition PTE_VALID : Z := Z.shiftl 1 0.
Definition PTE_TABLE : Z := Z.shiftl 1 1.
Definition PTE_AF : Z := Z.shiftl 1 10.
Definition PTE_SH_INNER : Z := Z.shiftl 3 8.
Definition PTE_AP_RW : Z := Z.shiftl 0 6.
Definition PTE_AP_USER_RW : Z := Z.shiftl 1 6.
Definition PTE_UXN : Z := Z.shiftl 1 54.
Definition PTE_PXN : Z := Z.shiftl 1 53.
Definition ATTR_NORMAL : Z := Z.shiftl 0 2.
Definition ATTR_DEVICE : Z := Z.shiftl 1 2.
Definition BLOCK_DESC : Z := PTE_VALID.
Definition ENTRIES_PER_TABLE : Z := 512.
Definition L2_BLOCK_SIZE : Z := 2 * 1024 * 1024.

Definition ADDR_MASK : Z := 0x0000FFFFFFFFF000.
Definition BLOCK_MASK : Z := 0x0000FFFFFFE00000.

(** ** Table access *)

Definition alloc_table (m : machine) : outcome (Z * machine) :=
  r ← alloc_page m;
  match r with
  | (Some pa, m') => Done (pa, m')
  | (None, _) => Panic
  end.

(** [tbl(pa)]: the kernel pointer to the table at [pa]. *)
Definition tbl (pa : Z) : Z := phys_to_virt pa.

(** [&mut t.entries[i]] and the load and store through such a pointer. *)
Definition entry_ptr (t i : Z) : Z := t +u 8 * i.
Definition pte_load (m : machine) (ptr : Z) : Z := kld 8 (ram m) ptr.
Definition pte_store (m : machine) (ptr v : Z) : machine :=
  mk_machine (pg m) (kst 8 (ram m) ptr v).

Definition pt_index (shift va : Z) : Z := Z.land (Z.shiftr va shift) 0x1FF.

(** Return the next-level table, allocating it or splitting a 2 MiB block. *)
Definition get_or_alloc_subtable (m : machine) (entry : Z) : outcome (Z * machine) :=
  let e := pte_load m entry in
  if Z.land e PTE_VALID =? 0 then
    '(t, m) ← alloc_table m;
    Done (tbl t, pte_store m entry (Z.lor (Z.lor t PTE_VALID) PTE_TABLE))
  else if Z.land e PTE_TABLE =? 0 then
    let block_pa := Z.land e BLOCK_MASK in
    let page_flags := Z.lor (Z.land e (not64 BLOCK_MASK)) PTE_TABLE in
    '(t, m) ← alloc_table m;
    match for_loop (R := outcome (Z * machine)) 512 0 (fun i m =>
            let page_pa := block_pa +u i *u 4096 in
            inl (pte_store m (entry_ptr (tbl t) i)
                   (Z.lor (Z.land page_pa ADDR_MASK) page_flags))) m with
    | inl m => Done (tbl t, pte_store m entry (Z.lor (Z.lor t PTE_VALID) PTE_TABLE))
    | inr o => o
    end
  else
    let addr := Z.land e ADDR_MASK in
    Done (tbl addr, m).

(** Install one 4 KiB page descriptor. *)
Definition map_one_page (m : machine) (root pa va flags : Z) : outcome machine :=
  let l0_ptr := tbl root in
  let l0_idx := pt_index 39 va in
  let l1_idx := pt_index 30 va in
  let l2_idx := pt_index 21 va in
  let l3_idx := pt_index 12 va in
  '(l1, m) ← get_or_alloc_subtable m (entry_ptr l0_ptr l0_idx);
  '(l2, m) ← get_or_alloc_subtable m (entry_ptr l1 l1_idx);
  '(l3, m) ← get_or_alloc_subtable m (entry_ptr l2 l2_idx);
  let existing := pte_load m (entry_ptr l3 l3_idx) in
  let merged_flags :=
    if negb (Z.land existing PTE_VALID =? 0) && negb (Z.land existing PTE_AP_USER_RW =? 0) then
      let uxn := Z.land (Z.land existing PTE_UXN) (Z.land flags PTE_UXN) in
      Z.lor (Z.land flags (not64 PTE_UXN)) uxn
    else flags in
  Done (pte_store m (entry_ptr l3 l3_idx) (Z.lor (Z.land pa ADDR_MASK) merged_flags)).

(** Install one 2 MiB block descriptor at L2. *)
Definition map_block (m : machine) (root pa va flags : Z) : outcome machine :=
  let l0_ptr := tbl root in
  let l0_idx := pt_index 39 va in
  let l1_idx := pt_index 30 va in
  let l2_idx := pt_index 21 va in
  '(l1, m) ← get_or_alloc_subtable m (entry_ptr l0_ptr l0_idx);
  '(l2, m) ← get_or_alloc_subtable m (entry_ptr l1 l1_idx);
  Done (pte_store m (entry_ptr l2 l2_idx) (Z.lor (Z.land pa BLOCK_MASK) flags)).

(** Map a contiguous range of 4 KiB pages. *)
Definition map_pages (m : machine) (root pa va size flags : Z) : outcome machine :=
  let pa_base := Z.land pa (not64 0xFFF) in
  let va_base := Z.land va (not64 0xFFF) in
  let pages := (size +u (pa -u pa_base) +u 0xFFF) / 4096 in
  match for_loop (Z.to_nat pages) 0 (fun i m =>
          let page_pa := pa_base +u i *u 4096 in
          let page_va := va_base +u i *u 4096 in
          match map_one_page m root page_pa page_va flags with
          | Done m' => inl m'
          | Panic => inr Panic
          end) m with
  | inl m' => Done m'
  | inr o => o
  end.

Record ProcSegment := mk_seg {
  seg_pa : Z;
  seg_size : Z;
  seg_el0 : bool;
  seg_exec : bool;
  seg_dev : bool;
}.

(** The descriptor flags of a segment. *)
Definition seg_flags (seg : ProcSegment) : Z :=
  let attr := if seg_dev seg then ATTR_DEVICE else ATTR_NORMAL in
  let ap := if seg_el0 seg then PTE_AP_USER_RW else PTE_AP_RW in
  let uxn := if seg_exec seg then 0 else PTE_UXN in
  Z.lor (Z.lor (Z.lor (Z.lor (Z.lor (Z.lor (Z.lor PTE_VALID PTE_TABLE) PTE_AF)
    PTE_SH_INNER) attr) ap) uxn) PTE_PXN.

Fixpoint map_segments (m : machine) (root : Z) (segs : list ProcSegment) : outcome machine :=
  match segs with
  | [] => Done m
  | seg :: rest =>
      if seg_size seg =? 0 then map_segments m root rest else
      m' ← map_pages m root (seg_pa seg) (seg_pa seg) (seg_size seg) (seg_flags seg);
      map_segments m' root rest
  end.

Definition create_process_table (m : machine) (segs : list ProcSegment) : outcome (Z * machine) :=
  '(root, m) ← alloc_table m;
  m ← map_segments m root segs;
  Done (root, m).

Definition map_user_rw (m : machine) (root pa size : Z) : outcome machine :=
  let flags := Z.lor (Z.lor (Z.lor (Z.lor (Z.lor (Z.lor (Z.lor PTE_VALID PTE_TABLE) PTE_AF)
    PTE_SH_INNER) PTE_AP_USER_RW) ATTR_NORMAL) PTE_UXN) PTE_PXN in
  map_pages m root pa pa size flags.

(** ** Unmapping *)

(** Barriers and TLB invalidations issued by the code, in program order. *)
Inductive tlb_event :=
| Tlbi_vaae1 (page : Z)
| Dsb_sy
| Isb
| Msr_ttbr0 (v : Z).

(** One iteration of [unmap_pages] at [page_va]: [continue] leaves the state. *)
Definition unmap_one (m : machine) (root page_va : Z) : outcome (machine * list tlb_event) :=
  let l0_ptr := tbl root in
  let l0_idx := pt_index 39 page_va in
  let l1_idx := pt_index 30 page_va in
  let l2_idx := pt_index 21 page_va in
  let l3_idx := pt_index 12 page_va in
  let l0e := pte_load m (entry_ptr l0_ptr l0_idx) in
  if Z.land l0e PTE_VALID =? 0 then Done (m, []) else
  let l1 := tbl (Z.land l0e ADDR_MASK) in
  let l1e := pte_load m (entry_ptr l1 l1_idx) in
  if Z.land l1e PTE_VALID =? 0 then Done (m, []) else
  let l2 := tbl (Z.land l1e ADDR_MASK) in
  let l2e := pte_load m (entry_ptr l2 l2_idx) in
  if Z.land l2e PTE_VALID =? 0 then Done (m, []) else
  if Z.land l2e PTE_TABLE =? 0 then Done (m, []) else
  let l3 := tbl (Z.land l2e ADDR_MASK) in
  let l3e := pte_load m (entry_ptr l3 l3_idx) in
  if Z.land l3e PTE_VALID =? 0 then Done (m, []) else
  let m := pte_store m (entry_ptr l3 l3_idx) 0 in
  let pa := Z.land l3e ADDR_MASK in
  p ← free_page (pg m) pa;
  Done (mk_machine p (ram m), [Tlbi_vaae1 (Z.shiftr page_va 12)]).

Definition unmap_pages (m : machine) (root va size : Z) : outcome (machine * list tlb_event) :=
  let va_base := Z.land va (not64 0xFFF) in
  let pages := (size +u (va -u va_base) +u 0xFFF) / 4096 in
  match for_loop (Z.to_nat pages) 0 (fun i s =>
          let page_va := va_base +u i *u 4096 in
          match unmap_one s.1 root page_va with
          | Done (m', ev) => inl (m', s.2 ++ ev)
          | Panic => inr Panic
          end) (m, []) with
  | inl (m', ev) => Done (m', ev ++ [Dsb_sy; Isb])
  | inr o => o
  end.

(** ** Kernel tables *)

(** The statics of vmm.rs.  The three static L0 tables are BSS pages whose
    physical addresses the linker fixes. *)
Record vmm_state := mk_vmm {
  vm : machine;
  L0_pa : Z;
  L0_TTBR1_pa : Z;
  USER_L0_pa : Z;
  TTBR0_ADDR : Z;
  TTBR1_ADDR : Z;
  USER_TTBR0_ADDR : Z;
}.

Definition ttbr0 (v : vmm_state) : Z := TTBR0_ADDR v.
Definition ttbr1 (v : vmm_state) : Z := TTBR1_ADDR v.
Definition user_ttbr0 (v : vmm_state) : Z := USER_TTBR0_ADDR v.
Definition current_ttbr0 (v : vmm_state) : Z := TTBR0_ADDR v.

(** [l2.entries[i] = addr | flags; addr += 2 MiB] for one L2 table, stopping at
    [end_]; the loop state is the machine and [addr]. *)
Definition fill_l2 (l2 flags end_ : Z) (s : machine * Z) : machine * Z :=
  match for_loop (R := machine * Z) 512 0 (fun i s =>
          let '(m, addr) := s in
          if end_ <=? addr then inr (m, addr)
          else inl (pte_store m (entry_ptr l2 i) (Z.lor addr flags), addr +u L2_BLOCK_SIZE)) s with
  | inl s' => s'
  | inr s' => s'
  end.

(** [while addr < end]: one L2 table per GiB; [fuel] bounds the iterations, each
    of which advances [addr] by 1 GiB. *)
Fixpoint map_ram_blocks (fuel : nat) (l1 flags end_ : Z) (s : machine * Z) : outcome machine :=
  let '(m, addr) := s in
  if addr <? end_ then
    match fuel with
    | O => Panic
    | S fuel' =>
        let l1_idx := pt_index 30 addr in
        '(l2_pa, m) ← alloc_table m;
        let m := pte_store m (entry_ptr l1 l1_idx) (Z.lor (Z.lor l2_pa PTE_VALID) PTE_TABLE) in
        map_ram_blocks fuel' l1 flags end_ (fill_l2 (tbl l2_pa) flags end_ (m, addr))
    end
  else Done m.

Definition device_flags : Z :=
  Z.lor (Z.lor (Z.lor (Z.lor (Z.lor (Z.lor BLOCK_DESC PTE_AF) PTE_SH_INNER) PTE_AP_RW)
    ATTR_DEVICE) PTE_UXN) PTE_PXN.

Definition kernel_flags : Z :=
  Z.lor (Z.lor (Z.lor (Z.lor (Z.lor BLOCK_DESC PTE_AF) PTE_SH_INNER) PTE_AP_RW)
    ATTR_NORMAL) PTE_UXN.

Definition user_flags : Z :=
  Z.lor (Z.lor (Z.lor (Z.lor BLOCK_DESC PTE_AF) PTE_SH_INNER) PTE_AP_USER_RW) ATTR_NORMAL.

(** [vmm::init]: both L0 tables share one L1; MMIO and RAM as 2 MiB blocks. *)
Definition init (v : vmm_state) : outcome (vmm_state * (Z * Z)) :=
  let ttbr0_pa := L0_pa v in
  let ttbr1_pa := L0_TTBR1_pa v in
  '(l1_pa, m) ← alloc_table (vm v);
  let l1 := tbl l1_pa in
  let m := pte_store m (entry_ptr (tbl ttbr0_pa) 0) (Z.lor (Z.lor l1_pa PTE_VALID) PTE_TABLE) in
  let m := pte_store m (entry_ptr (tbl ttbr1_pa) 0) (Z.lor (Z.lor l1_pa PTE_VALID) PTE_TABLE) in
  '(l2_mmio_pa, m) ← alloc_table m;
  let l2_mmio := tbl l2_mmio_pa in
  let m := pte_store m (entry_ptr l1 0) (Z.lor (Z.lor l2_mmio_pa PTE_VALID) PTE_TABLE) in
  let mmio_base_idx := Z.shiftr 0x08000000 21 in
  match for_loop (R := outcome machine) 32 0 (fun i m =>
          let pa := Z.shiftl (mmio_base_idx + i) 21 in
          inl (pte_store m (entry_ptr l2_mmio (mmio_base_idx + i)) (Z.lor pa device_flags))) m with
  | inr _ => Panic
  | inl m =>
      m ← map_ram_blocks 16 l1 kernel_flags 0x440000000 (m, 0x40000000);
      Done (mk_vmm m (L0_pa v) (L0_TTBR1_pa v) (USER_L0_pa v) ttbr0_pa ttbr1_pa
              (USER_TTBR0_ADDR v), (ttbr0_pa, ttbr1_pa))
  end.

(** The legacy shared user table. *)
Definition create_user_table (v : vmm_state) : outcome (vmm_state * Z) :=
  let l0_pa := USER_L0_pa v in
  '(l1_pa, m) ← alloc_table (vm v);
  let l1 := tbl l1_pa in
  let m := pte_store m (entry_ptr (tbl l0_pa) 0) (Z.lor (Z.lor l1_pa PTE_VALID) PTE_TABLE) in
  m ← map_ram_blocks 16 l1 user_flags 0x440000000 (m, 0x40000000);
  Done (mk_vmm m (L0_pa v) (L0_TTBR1_pa v) (USER_L0_pa v) (TTBR0_ADDR v) (TTBR1_ADDR v) l0_pa,
        l0_pa).

(** Map a device region at its high VA, then invalidate the range. *)
Definition map_kernel_mmio (v : vmm_state) (pa size : Z) : outcome (vmm_state * list tlb_event) :=
  let root := TTBR1_ADDR v in
  if (root =? 0) || (size =? 0) then Done (v, []) else
  let flags := Z.lor (Z.lor (Z.lor (Z.lor (Z.lor (Z.lor (Z.lor PTE_VALID PTE_TABLE) PTE_AF)
    PTE_SH_INNER) PTE_AP_RW) ATTR_DEVICE) PTE_UXN) PTE_PXN in
  let va_base := Z.land (phys_to_virt pa) (not64 0xFFF) in
  m ← map_pages (vm v) root pa va_base size flags;
  let pages := (size +u 4095) / 4096 in
  match for_loop (R := outcome (vmm_state * list tlb_event)) (Z.to_nat pages) 0 (fun i ev =>
          let va := va_base +u i *u 4096 in
          inl (ev ++ [Tlbi_vaae1 (Z.shiftr va 12)])) [Dsb_sy] with
  | inl ev =>
      Done (mk_vmm m (L0_pa v) (L0_TTBR1_pa v) (USER_L0_pa v) (TTBR0_ADDR v) (TTBR1_ADDR v)
              (USER_TTBR0_ADDR v), ev ++ [Dsb_sy; Isb])
  | inr o => o
  end.
