(* ===== verification/VmmProofs.v ===== *)
(** * Correctness of the page-table code

    [hw_walk] is the reference: the translation the MMU performs (AArch64, 4 KiB
    granule, 48-bit VA).  [pt_wf] is the tree invariant of a table built by
    [map_one_page]; the theorems say what mapping does to [hw_walk]. *)

From stdpp Require Import base numbers list gmap.
From Stdlib Require Import ZArith Lia.
From S2P Require Import Prelude Machine PageAlloc Vmm.

(** ** The reference walk *)

(** Entry [i] of the table at physical address [t]. *)
Definition ent (r : gmap Z Z) (t i : Z) : Z := ld 8 r (t + 8 * i).

(** The index of [va] in a table of height [n] (3 = L0, 0 = L3). *)
Definition vidx (n : nat) (va : Z) : Z := pt_index (12 + 9 * Z.of_nat n) va.

(** The leaf descriptor that translates [va], with the height it was found at. *)
Fixpoint hw_walk (r : gmap Z Z) (n : nat) (t va : Z) : option (nat * Z) :=
  let e := ent r t (vidx n va) in
  if negb (Z.testbit e 0) then None else
  match n with
  | O => if Z.testbit e 1 then Some (O, e) else None
  | S n' => if Z.testbit e 1 then hw_walk r n' (Z.land e ADDR_MASK) va
            else if Nat.eqb n 3 then None else Some (n, e)
  end.

(** ** Bit and address facts *)

Lemma vidx_range n va : 0 <= vidx n va < 512.
Proof.
  unfold vidx, pt_index. change 0x1FF with (2 ^ 9 - 1). rewrite land_ones_mod by lia.
  apply Z.mod_pos_bound. lia.
Qed.

Lemma valid_bit e : (Z.land e PTE_VALID =? 0) = negb (Z.testbit e 0).
Proof. unfold PTE_VALID. rewrite Z.shiftl_1_l. by apply land_bit_eqb. Qed.

Lemma table_bit e : (Z.land e PTE_TABLE =? 0) = negb (Z.testbit e 1).
Proof. unfold PTE_TABLE. rewrite Z.shiftl_1_l. by apply land_bit_eqb. Qed.

Lemma user_bit e : (Z.land e PTE_AP_USER_RW =? 0) = negb (Z.testbit e 6).
Proof. unfold PTE_AP_USER_RW. rewrite Z.shiftl_1_l. by apply land_bit_eqb. Qed.

Lemma ADDR_MASK_bits n : 0 <= n -> Z.testbit ADDR_MASK n = (12 <=? n) && (n <? 48).
Proof.
  intros Hn. replace ADDR_MASK with (Z.shiftl (Z.ones 36) 12) by reflexivity.
  rewrite Z.shiftl_spec, Z.testbit_ones by lia.
  destruct (Z.leb_spec 0 (n - 12)), (Z.leb_spec 12 n), (Z.ltb_spec (n - 12) 36),
    (Z.ltb_spec n 48); simpl; lia || done.
Qed.

(** A page-aligned address below 2^48. *)
Definition page_pa (t : Z) : Prop := 0 <= t /\ t + 4096 <= 2 ^ 48 /\ t mod 4096 = 0.

Lemma page_pa_bits t n : page_pa t -> 0 <= n -> n < 12 \/ 48 <= n -> Z.testbit t n = false.
Proof.
  intros (H0 & H1 & H2) Hn [Hlt|Hge].
  - change 4096 with (2 ^ 12) in H2. rewrite <- (Z.mod_pow2_bits_low t 12 n) by lia.
    rewrite H2. apply Z.bits_0.
  - apply (testbit_high 48); lia.
Qed.

Lemma table_desc_addr t : page_pa t ->
  Z.land (Z.lor (Z.lor t PTE_VALID) PTE_TABLE) ADDR_MASK = t.
Proof.
  intros Ht. apply Z.bits_inj'. intros n Hn.
  rewrite Z.land_spec, !Z.lor_spec, ADDR_MASK_bits by done.
  unfold PTE_VALID, PTE_TABLE. rewrite !Z.shiftl_1_l, !Z.pow2_bits_eqb by lia.
  destruct (Z.leb_spec 12 n) as [H1|H1]; [destruct (Z.ltb_spec n 48) as [H2|H2]|].
  - rewrite (proj2 (Z.eqb_neq 0 n)), (proj2 (Z.eqb_neq 1 n)) by lia.
    by rewrite !orb_false_r, andb_true_r.
  - rewrite andb_false_r. symmetry. apply page_pa_bits; [done|lia..].
  - rewrite andb_false_r. symmetry. apply page_pa_bits; [done|lia..].
Qed.

Lemma table_desc_bits t :
  Z.testbit (Z.lor (Z.lor t PTE_VALID) PTE_TABLE) 0 = true /\
  Z.testbit (Z.lor (Z.lor t PTE_VALID) PTE_TABLE) 1 = true.
Proof. rewrite !Z.lor_spec. split; apply orb_true_iff; [left; apply orb_true_iff|]; by right. Qed.

Lemma table_desc_u64 t : page_pa t -> is_u64 (Z.lor (Z.lor t PTE_VALID) PTE_TABLE).
Proof.
  intros Ht. assert (H : Z.lor (Z.lor t PTE_VALID) PTE_TABLE = t + 3).
  { rewrite <- Z.lor_assoc. change (Z.lor PTE_VALID PTE_TABLE) with 3.
    rewrite <- Z.add_lor_land. rewrite (Z.bits_inj_0 (Z.land t 3)); [lia|].
    intros n. rewrite Z.land_spec. destruct (Z.lt_ge_cases n 0).
    { rewrite !Z.testbit_neg_r by done. done. }
    destruct (Z.lt_ge_cases n 12); [rewrite page_pa_bits by (done || lia); done|].
    rewrite (testbit_high 2 3) by lia. apply andb_false_r. }
  rewrite H. unfold page_pa, is_u64 in *. lia.
Qed.

Lemma entry_ptr_pa t i : page_pa t -> 0 <= i < 512 ->
  to_dma_addr (entry_ptr (tbl t) i) = t + 8 * i.
Proof.
  intros (H0 & H1 & _) Hi. unfold entry_ptr, tbl.
  rewrite phys_to_virt_pa by (unfold is_pa; lia).
  replace (t + KERNEL_VA_OFFSET + 8 * i) with ((t + 8 * i) + KERNEL_VA_OFFSET) by lia.
  apply (to_dma_phys_to_virt (t + 8 * i)). unfold is_pa. lia.
Qed.

Lemma pte_load_ent m t i : page_pa t -> 0 <= i < 512 ->
  pte_load m (entry_ptr (tbl t) i) = ent (ram m) t i.
Proof. intros. unfold pte_load, kld. by rewrite entry_ptr_pa. Qed.

Lemma ent_store r t i v t' i' :
  page_pa t -> page_pa t' -> 0 <= i < 512 -> 0 <= i' < 512 ->
  ent (st 8 r (t + 8 * i) v) t' i' =
  if decide (t = t' /\ i = i') then as_u64 v else ent r t' i'.
Proof.
  intros (H0 & _ & H1) (H2 & _ & H3) Hi Hi'. unfold ent. case_decide as Hd.
  - destruct Hd as [-> ->]. rewrite ld_st_same. done.
  - apply ld_st_other.
    assert (t = t' \/ t + 4096 <= t' \/ t' + 4096 <= t).
    { pose proof (Z.div_mod t 4096 ltac:(lia)). pose proof (Z.div_mod t' 4096 ltac:(lia)). lia. }
    destruct (Z.eq_dec t t') as [->|]; [|lia]. assert (i <> i') by (intros ->; by apply Hd). lia.
Qed.

Lemma ram_pte_store m t i v : page_pa t -> 0 <= i < 512 ->
  pte_store m (entry_ptr (tbl t) i) v = mk_machine (pg m) (st 8 (ram m) (t + 8 * i) v).
Proof. intros. unfold pte_store, kst. by rewrite entry_ptr_pa. Qed.

(** ** The tree invariant *)

(** Number of free pages, the budget for new tables. *)
Definition nfree (m : machine) : Z := free_count (BITMAP (pg m)) (Z.to_nat (NUM_PAGES (pg m))).

(** [t] is a managed page that is in use. *)
Definition used_page (p : pages) (t : Z) : Prop :=
  exists k, t = page_addr p k /\ 0 <= k < NUM_PAGES p /\ page_free p k = false.

(** [t] is a managed page that is free. *)
Definition free_page_at (p : pages) (t : Z) : Prop :=
  exists k, t = page_addr p k /\ 0 <= k < NUM_PAGES p /\ page_free p k = true.

(** Every table of [T'] is one of [T] or was taken from the free pages of [p]. *)
Definition new_tables (p : pages) (T T' : gmap Z nat) : Prop :=
  forall t n, T' !! t = Some n -> T !! t = Some n \/ free_page_at p t.

(** [T] maps every table page of the tree below [root] to its height. *)
Record pt_wf (m : machine) (T : gmap Z nat) (root : Z) : Prop := {
  pt_pages : pages_wf (pg m);
  pt_root : T !! root = Some 3%nat;
  pt_used : forall t n, T !! t = Some n -> used_page (pg m) t;
  pt_leaf : forall t i, T !! t = Some O -> 0 <= i < 512 ->
    Z.testbit (ent (ram m) t i) 0 = true -> Z.testbit (ent (ram m) t i) 1 = true;
  pt_child : forall t n i, T !! t = Some (S n) -> 0 <= i < 512 ->
    Z.testbit (ent (ram m) t i) 0 = true ->
    Z.testbit (ent (ram m) t i) 1 = true /\ T !! Z.land (ent (ram m) t i) ADDR_MASK = Some n;
  pt_uniq : forall t n i t' n' i', T !! t = Some (S n) -> T !! t' = Some (S n') ->
    0 <= i < 512 -> 0 <= i' < 512 ->
    Z.testbit (ent (ram m) t i) 0 = true -> Z.testbit (ent (ram m) t' i') 0 = true ->
    Z.land (ent (ram m) t i) ADDR_MASK = Z.land (ent (ram m) t' i') ADDR_MASK ->
    t = t' /\ i = i';
}.

Lemma used_page_pa p t : pages_wf p -> used_page p t -> page_pa t.
Proof.
  intros Hwf (k & -> & Hk & _). destruct (page_addr_pa p (k + 1) Hwf ltac:(lia)) as [_ H].
  pose proof (wf_base _ Hwf). pose proof (wf_align _ Hwf) as Ha.
  unfold page_pa, page_addr, PAGE_SIZE, MAX_RAM_END in *.
  split; [lia|]. split; [lia|]. rewrite Z.mod_add by lia. done.
Qed.

Lemma table_pa m T root t n : pt_wf m T root -> T !! t = Some n -> page_pa t.
Proof. intros H Ht. eapply used_page_pa; [apply H|by eapply pt_used]. Qed.

(** ** Allocating a table page *)

Lemma free_count_pos b n : 1 <= free_count b n -> exists j, 0 <= j < Z.of_nat n /\ bfree b j = true.
Proof.
  induction n as [|n IH]; simpl free_count; [lia|].
  destruct (bfree b (Z.of_nat n)) eqn:E.
  - exists (Z.of_nat n). split; [lia|done].
  - intros H. destruct IH as (j & ? & ?); [lia|]. exists j. split; [lia|done].
Qed.

Lemma alloc_table_ok m : pages_wf (pg m) -> 1 <= nfree m ->
  exists t m', alloc_table m = Done (t, m') /\ pages_wf (pg m') /\ same_geometry (pg m) (pg m') /\
    (exists k, t = page_addr (pg m) k /\ 0 <= k < NUM_PAGES (pg m) /\ page_free (pg m) k = true /\
       forall j, 0 <= j -> page_free (pg m') j = negb (j =? k) && page_free (pg m) j) /\
    ram m' = zero_range t 4096 (ram m) /\ nfree m' = nfree m - 1.
Proof.
  intros Hwf Hn. unfold alloc_table, alloc_page.
  destruct (alloc_pages_correct m 1 Hwf ltac:(lia)) as (r & m' & E & Hs & Hwf').
  rewrite E. simpl. destruct r as [t|].
  - destruct Hs as (k & (Hk0 & Hk1 & Hrun & Hfst) & -> & Hg1 & Hg2 & Hg3 & Hfree & Hram).
    eexists _, _. split; [reflexivity|]. split; [done|]. split; [done|].
    assert (Hj : forall j, 0 <= j -> page_free (pg m') j = negb (j =? k) && page_free (pg m) j).
    { intros j Hj. rewrite Hfree by done.
      destruct (Z.leb_spec k j), (Z.ltb_spec j (k + 1)), (Z.eqb_spec j k); simpl; lia || done. }
    split; [|split; [done|]].
    + exists k. split; [done|]. split; [lia|]. split; [apply Hrun; lia|done].
    + pose proof (wf_num _ Hwf). unfold nfree. rewrite Hg2.
      rewrite (free_count_run (BITMAP (pg m)) (BITMAP (pg m')) k 1) by (done || lia).
      rewrite Z2Nat.id by lia. lia.
  - exfalso. destruct Hs as [-> Hno]. unfold nfree in Hn.
    apply free_count_pos in Hn as (j & Hj & Hf). pose proof (wf_num _ Hwf).
    rewrite Z2Nat.id in Hj by lia. apply (Hno j); [lia..|].
    intros i Hi. by replace i with j by lia.
Qed.

(** ** What a mapping step may change *)

(** From [(m, T)] to [(m', T')]: the tree grew by fresh tables, no valid entry
    and no translation changed, at most [k] pages were taken, and memory outside
    the tables of [T'] is untouched. *)
Record grows (k : Z) (m : machine) (T : gmap Z nat) (m' : machine) (T' : gmap Z nat) : Prop := {
  gr_sub : T ⊆ T';
  gr_geo : same_geometry (pg m) (pg m');
  gr_free : nfree m - k <= nfree m';
  gr_ent : forall t n i, T !! t = Some n -> 0 <= i < 512 ->
    Z.testbit (ent (ram m) t i) 0 = true \/ n = O -> ent (ram m') t i = ent (ram m) t i;
  gr_walk : forall n t va, T !! t = Some n -> hw_walk (ram m') n t va = hw_walk (ram m) n t va;
  gr_frame : forall a, (forall t n, T' !! t = Some n -> ~ t <= a < t + 4096) ->
    ldb (ram m') a = ldb (ram m) a;
  gr_used : forall j, 0 <= j -> page_free (pg m) j = false -> page_free (pg m') j = false;
  gr_new : new_tables (pg m) T T';
}.

Lemma new_tables_trans m m1 T T1 T2 :
  same_geometry (pg m) (pg m1) ->
  (forall j, 0 <= j -> page_free (pg m) j = false -> page_free (pg m1) j = false) ->
  new_tables (pg m) T T1 -> new_tables (pg m1) T1 T2 -> new_tables (pg m) T T2.
Proof.
  intros (G1 & G2 & _) Hu H1 H2 t n Ht. destruct (H2 t n Ht) as [?|(k & -> & Hk & Hf)]; [by apply H1|].
  right. exists k. unfold page_addr. rewrite G1. split; [done|]. split; [lia|].
  destruct (page_free (pg m) k) eqn:E; [done|]. rewrite Hu in Hf by (done || lia). done.
Qed.

Lemma grows_refl m T : grows 0 m T m T.
Proof. constructor; try (done || lia). by left. Qed.

Lemma grows_trans k k' m T m1 T1 m2 T2 :
  grows k m T m1 T1 -> grows k' m1 T1 m2 T2 -> grows (k + k') m T m2 T2.
Proof.
  intros [] []. constructor.
  - by etransitivity.
  - unfold same_geometry in *. intuition congruence.
  - lia.
  - intros t n i Ht Hi Hb. pose proof (lookup_weaken _ _ _ _ Ht gr_sub0) as Ht1.
    rewrite <- (gr_ent0 t n i Ht Hi Hb). apply (gr_ent1 t n); [done..|].
    rewrite (gr_ent0 t n i Ht Hi Hb). done.
  - intros n t va Ht. rewrite (gr_walk1 n t va), (gr_walk0 n t va); [done..|].
    by eapply lookup_weaken.
  - intros a Ha. rewrite gr_frame1 by done. apply gr_frame0.
    intros t n Ht. apply (Ha t n). by eapply lookup_weaken.
  - auto.
  - by eapply new_tables_trans.
Qed.

(** ** Descending one level *)

Section NewTable.
(** A fresh table [c] of height [n], linked from the invalid entry [i] of [t]. *)
Context (m : machine) (T : gmap Z nat) (root t i c k : Z) (n : nat) (m1 : machine).
Context (Hwf : pt_wf m T root) (Ht : T !! t = Some (S n)) (Hi : 0 <= i < 512)
  (Hinv : Z.testbit (ent (ram m) t i) 0 = false)
  (Hwf1 : pages_wf (pg m1)) (Hgeo : same_geometry (pg m) (pg m1))
  (Hc : c = page_addr (pg m) k) (Hk : 0 <= k < NUM_PAGES (pg m))
  (Hkf : page_free (pg m) k = true)
  (Hfree : forall j, 0 <= j -> page_free (pg m1) j = negb (j =? k) && page_free (pg m) j)
  (Hram : ram m1 = zero_range c 4096 (ram m)) (Hnf : nfree m1 = nfree m - 1).

Let desc := Z.lor (Z.lor c PTE_VALID) PTE_TABLE.
Let m2 := mk_machine (pg m1) (st 8 (ram m1) (t + 8 * i) desc).
Let T' := <[c := n]> T.

Lemma new_fresh : T !! c = None.
Proof.
  destruct (T !! c) as [n'|] eqn:E; [|done]. exfalso.
  destruct (pt_used _ _ _ Hwf c n' E) as (k' & Hk' & _ & Hu).
  assert (k = k') as <-.
  { rewrite Hc in Hk'. rewrite <- (page_addr_index (pg m) k), Hk'. apply page_addr_index. }
  congruence.
Qed.

Lemma new_pa : page_pa c.
Proof.
  eapply used_page_pa; [exact Hwf1|]. exists k. destruct Hgeo as (Hg1 & Hg2 & _).
  unfold page_addr. rewrite Hg1, Hg2. split; [by rewrite Hc|]. split; [done|].
  rewrite Hfree by lia. by rewrite Z.eqb_refl.
Qed.

Lemma new_ent_old t' n' j : T !! t' = Some n' -> 0 <= j < 512 ->
  ent (ram m2) t' j = if decide (t = t' /\ i = j) then desc else ent (ram m) t' j.
Proof.
  intros Ht' Hj. simpl. rewrite Hram.
  rewrite ent_store by (done || eapply table_pa; done).
  case_decide; [apply as_u64_small, table_desc_u64, new_pa|].
  unfold ent. apply ld_zero_range_other.
  assert (t' <> c) by (intros ->; rewrite new_fresh in Ht'; done).
  pose proof (table_pa _ _ _ _ _ Hwf Ht') as (? & ? & E1). pose proof new_pa as (? & ? & E2).
  pose proof (Z.div_mod t' 4096 ltac:(lia)). pose proof (Z.div_mod c 4096 ltac:(lia)). lia.
Qed.

Lemma new_ent_new j : 0 <= j < 512 -> ent (ram m2) c j = 0.
Proof.
  intros Hj. simpl. rewrite Hram. rewrite ent_store by (done || apply new_pa || eapply table_pa; done).
  rewrite decide_False; [unfold ent; apply ld_zero_range; lia|].
  pose proof new_fresh as Hf. intros [E _]. rewrite <- E, Ht in Hf. done.
Qed.

Lemma new_T_inv t' n' : T' !! t' = Some n' -> t' = c /\ n' = n \/ t' <> c /\ T !! t' = Some n'.
Proof. unfold T'. rewrite lookup_insert. case_decide; naive_solver. Qed.

Lemma new_wf : pt_wf m2 T' root.
Proof.
  assert (Hu : forall t' n', T !! t' = Some n' -> used_page (pg m2) t').
  { intros t' n' E. destruct (pt_used _ _ _ Hwf t' n' E) as (k' & -> & Hk' & Hf).
    exists k'. destruct Hgeo as (Hg1 & Hg2 & _). simpl. unfold page_addr. rewrite Hg1, Hg2.
    split; [done|]. split; [done|]. rewrite Hfree, Hf by lia. apply andb_false_r. }
  assert (Hcu : used_page (pg m2) c).
  { exists k. destruct Hgeo as (Hg1 & Hg2 & _). simpl. unfold page_addr. rewrite Hg1, Hg2.
    split; [by rewrite Hc|]. split; [done|]. rewrite Hfree by lia. by rewrite Z.eqb_refl. }
  pose proof (table_desc_bits c) as [Hd0 Hd1]. fold desc in Hd0, Hd1.
  pose proof (table_desc_addr c new_pa) as Hda. fold desc in Hda.
  constructor.
  - done.
  - unfold T'. rewrite lookup_insert_ne; [apply Hwf|]. intros E.
    pose proof new_fresh. pose proof (pt_root _ _ _ Hwf). congruence.
  - intros t' n' [[-> ->]|[? E]]%new_T_inv; eauto.
  - intros t' j [[-> E]|[? E]]%new_T_inv Hj; [by rewrite new_ent_new|].
    rewrite (new_ent_old t' 0 j) by done. case_decide; [done|]. by apply (pt_leaf _ _ _ Hwf).
  - intros t' n' j [[-> E]|[? E]]%new_T_inv Hj; [by rewrite new_ent_new|].
    rewrite (new_ent_old t' (S n') j) by done. case_decide as Hd.
    + destruct Hd as [Hd1' Hd2']. rewrite <- Hd1', Ht in E. injection E as E. intros _.
      split; [done|]. rewrite Hda, <- E. apply lookup_insert_eq.
    + intros Hb. destruct (pt_child _ _ _ Hwf t' n' j E Hj Hb) as [? Hch]. split; [done|].
      unfold T'. rewrite lookup_insert_ne; [done|]. intros Ex. rewrite <- Ex, new_fresh in Hch. done.
  - intros t1 n1 j1 t2 n2 j2 [[-> E1]|[? E1]]%new_T_inv [[-> E2]|[? E2]]%new_T_inv Hj1 Hj2;
      rewrite ?new_ent_new by done; try done.
    rewrite (new_ent_old t1 (S n1) j1), (new_ent_old t2 (S n2) j2) by done.
    assert (Hne : forall t3 n3 j3, T !! t3 = Some (S n3) -> 0 <= j3 < 512 ->
      Z.testbit (ent (ram m) t3 j3) 0 = true -> Z.land (ent (ram m) t3 j3) ADDR_MASK <> c).
    { intros t3 n3 j3 E3 Hj3 Hb3 Hx. destruct (pt_child _ _ _ Hwf t3 n3 j3 E3 Hj3 Hb3) as [_ Hch].
      rewrite Hx, new_fresh in Hch. done. }
    repeat case_decide.
    + intros. intuition congruence.
    + intros _ Hb Heq. rewrite Hda in Heq. exfalso. by apply (Hne t2 n2 j2).
    + intros Hb _ Heq. rewrite Hda in Heq. exfalso. by apply (Hne t1 n1 j1).
    + by apply (pt_uniq _ _ _ Hwf t1 n1 j1 t2 n2 j2).
Qed.

Lemma new_walk n' t' va : T !! t' = Some n' ->
  hw_walk (ram m2) n' t' va = hw_walk (ram m) n' t' va.
Proof.
  revert t'. induction n' as [|n' IH]; intros t' E; cbn [hw_walk];
    pose proof (vidx_range) as Hv; rewrite (new_ent_old t' _ _ E (Hv _ va)); case_decide as Hd.
  - destruct Hd as [Hd _]. rewrite <- Hd, Ht in E. done.
  - done.
  - destruct Hd as [Hd' Hd]. rewrite <- Hd, <- Hd', Hinv. cbn [negb].
    pose proof (table_desc_bits c) as [Hd0 Hd1]. fold desc in Hd0, Hd1. rewrite Hd0, Hd1.
    unfold desc. rewrite table_desc_addr by apply new_pa. cbn [negb].
    destruct n'; cbn [hw_walk]; rewrite new_ent_new by apply Hv; done.
  - destruct (Z.testbit (ent (ram m) t' (vidx (S n') va)) 0) eqn:Hb; [|done]. cbn [negb].
    destruct (pt_child _ _ _ Hwf t' n' _ E (Hv _ va) Hb) as [-> Hch]. by apply IH.
Qed.

Lemma new_grows : grows 1 m T m2 T'.
Proof.
  constructor.
  - apply insert_subseteq, new_fresh.
  - done.
  - unfold nfree in *. simpl. lia.
  - intros t' n' j E Hj Hb. rewrite (new_ent_old t' n' j) by done. case_decide as Hd; [|done].
    destruct Hd as [E1 E2]. rewrite <- E1, <- E2, Hinv in *. destruct Hb; congruence.
  - intros. by apply new_walk.
  - intros a Ha. simpl. rewrite Hram.
    assert (H1 : ~ t <= a < t + 4096).
    { apply (Ha t (S n)). unfold T'. rewrite lookup_insert_ne; [done|].
      intros Ex. pose proof new_fresh. congruence. }
    assert (H2 : ~ c <= a < c + 4096) by (apply (Ha c n), lookup_insert_eq).
    rewrite ldb_st_other by lia. rewrite ldb_zero_range. by rewrite decide_False.
  - intros j Hj Hf. simpl. rewrite Hfree, Hf by done. apply andb_false_r.
  - intros t' n' [[<- <-]|[_ ?]]%lookup_insert_Some; [right; by exists k|by left].
Qed.
End NewTable.

Lemma get_or_alloc_ok m T root t i n :
  pt_wf m T root -> T !! t = Some (S n) -> 0 <= i < 512 -> 1 <= nfree m ->
  exists c m' T', get_or_alloc_subtable m (entry_ptr (tbl t) i) = Done (tbl c, m') /\
    pt_wf m' T' root /\ grows 1 m T m' T' /\ T' !! c = Some n /\
    Z.testbit (ent (ram m') t i) 0 = true /\ Z.testbit (ent (ram m') t i) 1 = true /\
    Z.land (ent (ram m') t i) ADDR_MASK = c.
Proof.
  intros Hwf Ht Hi Hn. pose proof (table_pa _ _ _ _ _ Hwf Ht) as Hpa.
  unfold get_or_alloc_subtable. rewrite pte_load_ent, valid_bit, table_bit by done.
  destruct (Z.testbit (ent (ram m) t i) 0) eqn:Hb; cbn [negb].
  - destruct (pt_child _ _ _ Hwf t n i Ht Hi Hb) as [Hb1 Hc]. rewrite Hb1. simpl.
    eexists _, m, T. split; [reflexivity|]. split; [done|]. split; [|done].
    pose proof (grows_refl m T) as []. constructor; try done. lia.
  - destruct (alloc_table_ok m (pt_pages _ _ _ Hwf) Hn)
      as (c & m1 & -> & Hwf1 & Hgeo & (k & Hc & Hk & Hkf & Hfree) & Hram & Hnf).
    cbn [mbind outcome_bind]. rewrite ram_pte_store by done.
    pose proof (table_desc_bits c) as [Hd0 Hd1].
    eexists c, _, (<[c := n]> T). split; [reflexivity|].
    split; [by eapply new_wf|]. split; [by eapply new_grows|]. split; [apply lookup_insert_eq|].
    erewrite (new_ent_old m T root t i c k n m1) by done. rewrite decide_True by done.
    split; [done|]. split; [done|]. apply table_desc_addr. by eapply new_pa.
Qed.

(** ** Writing a leaf entry *)

(** The leaf slot (table, index) the walk of [va] ends in. *)
Fixpoint hw_slot (r : gmap Z Z) (n : nat) (t va : Z) : option (Z * Z) :=
  match n with
  | O => Some (t, vidx O va)
  | S n' => let e := ent r t (vidx n va) in
            if Z.testbit e 0 && Z.testbit e 1 then hw_slot r n' (Z.land e ADDR_MASK) va else None
  end.

Definition leaf_view (v : Z) : option (nat * Z) :=
  if Z.testbit v 0 && Z.testbit v 1 then Some (O, v) else None.

Definition same_idx (n : nat) (va va' : Z) : Prop :=
  forall j, (j <= n)%nat -> vidx j va = vidx j va'.

(** Distinct addresses end in distinct slots: the tree does not share tables. *)
Lemma hw_slot_inj m T root n t t' va va' s :
  pt_wf m T root -> T !! t = Some n -> T !! t' = Some n ->
  hw_slot (ram m) n t va = Some s -> hw_slot (ram m) n t' va' = Some s ->
  t = t' /\ same_idx n va va'.
Proof.
  intros Hwf. revert t t'. induction n as [|n IH]; intros t t' Ht Ht'; cbn [hw_slot].
  - intros [= <-] [= -> E]. split; [done|]. intros j Hj. by replace j with O by lia.
  - set (e := ent _ t _). set (e' := ent _ t' _). pose proof (fun n => vidx_range n) as Hv.
    destruct (Z.testbit e 0) eqn:B0; [|done]. destruct (Z.testbit e' 0) eqn:B0'; [|done].
    destruct (pt_child _ _ _ Hwf t n _ Ht (Hv (S n) va) B0) as [B1 C].
    destruct (pt_child _ _ _ Hwf t' n _ Ht' (Hv (S n) va') B0') as [B1' C'].
    fold e in B1, C. fold e' in B1', C'. rewrite B1, B1'. cbn [andb]. intros S1 S2.
    destruct (IH _ _ C C' S1 S2) as [Hc Hidx].
    destruct (pt_uniq _ _ _ Hwf t n _ t' n _ Ht Ht' (Hv (S n) va) (Hv (S n) va') B0 B0' Hc) as [<- Hi].
    split; [done|]. intros j Hj. destruct (decide (j = S n)) as [->|]; [done|]. apply Hidx. lia.
Qed.

Lemma leaf_store_ent m T root l i v t n j :
  pt_wf m T root -> T !! l = Some O -> 0 <= i < 512 -> T !! t = Some n -> 0 <= j < 512 ->
  is_u64 v ->
  ent (st 8 (ram m) (l + 8 * i) v) t j =
  if decide (l = t /\ i = j) then v else ent (ram m) t j.
Proof.
  intros Hwf Hl Hi Ht Hj Hv. rewrite ent_store by (done || by eapply table_pa).
  case_decide; [by apply as_u64_small|done].
Qed.

Lemma leaf_store_walk m T root l i v n t va :
  pt_wf m T root -> T !! l = Some O -> 0 <= i < 512 -> is_u64 v -> T !! t = Some n ->
  hw_walk (st 8 (ram m) (l + 8 * i) v) n t va =
  if decide (hw_slot (ram m) n t va = Some (l, i)) then leaf_view v else hw_walk (ram m) n t va.
Proof.
  intros Hwf Hl Hi Hv. revert t. induction n as [|n IH]; intros t Ht; cbn [hw_walk hw_slot];
    pose proof (fun n => vidx_range n va) as Hx;
    rewrite (leaf_store_ent m T root l i v t _ _ Hwf Hl Hi Ht (Hx _) Hv).
  - unfold leaf_view. destruct (decide (l = t /\ i = vidx 0 va)) as [[-> ->]|Hn].
    + rewrite decide_True by done. destruct (Z.testbit v 0), (Z.testbit v 1); done.
    + rewrite decide_False by (intros [= E1 E2]; by apply Hn). done.
  - rewrite decide_False by (intros [-> _]; congruence).
    set (e := ent (ram m) t _). destruct (Z.testbit e 0) eqn:B0; [|by rewrite decide_False].
    destruct (pt_child _ _ _ Hwf t n _ Ht (Hx (S n)) B0) as [B1 C]. fold e in B1, C.
    rewrite B1. cbn [negb andb]. by apply IH.
Qed.

Lemma leaf_store_wf m T root l i v :
  pt_wf m T root -> T !! l = Some O -> 0 <= i < 512 -> is_u64 v ->
  (Z.testbit v 0 = true -> Z.testbit v 1 = true) ->
  pt_wf (mk_machine (pg m) (st 8 (ram m) (l + 8 * i) v)) T root.
Proof.
  intros Hwf Hl Hi Hv Hb.
  assert (HS : forall t n j, T !! t = Some (S n) -> 0 <= j < 512 ->
    ent (st 8 (ram m) (l + 8 * i) v) t j = ent (ram m) t j).
  { intros t n j Ht Hj. rewrite (leaf_store_ent m T root l i v t (S n) j) by done.
    rewrite decide_False; [done|]. intros [-> _]. congruence. }
  pose proof Hwf as [H1 H2 H3 H4 H5 H6]. constructor; try done.
  - intros t j Ht Hj. cbn [ram]. rewrite (leaf_store_ent m T root l i v t O j) by done.
    case_decide; [done|by apply H4].
  - intros t n j Ht Hj. cbn [ram]. rewrite (HS t n j) by done. by apply H5.
  - intros t n j t' n' j' Ht Ht' Hj Hj'. cbn [ram]. rewrite (HS t n j), (HS t' n' j') by done.
    by apply (H6 t n j t' n' j').
Qed.

(** Once every level of the path is present, the walk goes to the leaf table. *)
Lemma hw_slot_path r n t va c :
  Z.testbit (ent r t (vidx (S n) va)) 0 = true -> Z.testbit (ent r t (vidx (S n) va)) 1 = true ->
  Z.land (ent r t (vidx (S n) va)) ADDR_MASK = c ->
  hw_slot r (S n) t va = hw_slot r n c va.
Proof. intros H0 H1 <-. cbn [hw_slot]. by rewrite H0, H1. Qed.

Lemma hw_walk_slot m T root n t va l i :
  pt_wf m T root -> T !! t = Some n -> hw_slot (ram m) n t va = Some (l, i) ->
  hw_walk (ram m) n t va = leaf_view (ent (ram m) l i) /\ T !! l = Some O.
Proof.
  intros Hwf. revert t. induction n as [|n IH]; intros t Ht; cbn [hw_slot hw_walk].
  - intros [= <- <-]. split; [|done]. unfold leaf_view.
    destruct (Z.testbit _ 0), (Z.testbit _ 1); done.
  - set (e := ent (ram m) t _). destruct (Z.testbit e 0) eqn:B0; [|done].
    destruct (pt_child _ _ _ Hwf t n _ Ht (vidx_range (S n) va) B0) as [B1 C]. fold e in B1, C.
    rewrite B1. cbn [negb andb]. by apply IH.
Qed.

(** ** Mapping one page *)

(** The flags [map_one_page] writes over an existing leaf. *)
Definition merge_flags (old : option (nat * Z)) (flags : Z) : Z :=
  match old with
  | Some (_, d) =>
      if Z.testbit d 6 then
        Z.lor (Z.land flags (not64 PTE_UXN)) (Z.land (Z.land d PTE_UXN) (Z.land flags PTE_UXN))
      else flags
  | None => flags
  end.

Definition leaf_desc (pa flags : Z) (old : option (nat * Z)) : Z :=
  Z.lor (Z.land pa ADDR_MASK) (merge_flags old flags).

Definition page_flags_ok (flags : Z) : Prop :=
  is_u64 flags /\ Z.testbit flags 0 = true /\ Z.testbit flags 1 = true.

Lemma merge_flags_bit old flags n : 0 <= n < 54 -> is_u64 flags ->
  Z.testbit (merge_flags old flags) n = Z.testbit flags n.
Proof.
  intros Hn Hf. unfold merge_flags. destruct old as [[? d]|]; [|done].
  destruct (Z.testbit d 6); [|done]. rewrite land_not64 by done. unfold PTE_UXN.
  rewrite Z.lor_spec, Z.ldiff_spec, !Z.land_spec, Z.shiftl_1_l, Z.pow2_bits_eqb by lia.
  rewrite (proj2 (Z.eqb_neq 54 n)) by lia. by rewrite !andb_false_r, orb_false_r, andb_true_r.
Qed.

Lemma merge_flags_u64 old flags : is_u64 flags -> is_u64 (merge_flags old flags).
Proof.
  intros Hf. unfold merge_flags. destruct old as [[? d]|]; [|done].
  destruct (Z.testbit d 6); [|done]. apply lor_u64; [by apply land_u64_l|].
  rewrite Z.land_comm. by apply land_u64_l, land_u64_l.
Qed.

Lemma leaf_desc_ok pa flags old : page_flags_ok flags -> is_u64 pa ->
  is_u64 (leaf_desc pa flags old) /\ leaf_view (leaf_desc pa flags old) = Some (O, leaf_desc pa flags old)
  /\ Z.testbit (leaf_desc pa flags old) 1 = true.
Proof.
  intros (Hf & H0 & H1) Hpa.
  assert (B : forall n, 0 <= n < 54 -> Z.testbit flags n = true ->
    Z.testbit (leaf_desc pa flags old) n = true).
  { intros n Hn Hb. unfold leaf_desc. rewrite Z.lor_spec, merge_flags_bit, Hb by (done || lia).
    apply orb_true_r. }
  split; [|split].
  - apply lor_u64; [by apply land_u64_l|by apply merge_flags_u64].
  - unfold leaf_view. rewrite !B by (done || lia). done.
  - apply B; [lia|done].
Qed.

(** The result of mapping: the tree [T'] after installing [pa] at [va]. *)
Record mapped (k : Z) (m : machine) (T : gmap Z nat) (root pa va flags : Z)
    (m' : machine) (T' : gmap Z nat) : Prop := {
  mp_wf : pt_wf m' T' root;
  mp_sub : T ⊆ T';
  mp_geo : same_geometry (pg m) (pg m');
  mp_free : nfree m - k <= nfree m';
  mp_hit : hw_walk (ram m') 3 root va =
    Some (O, leaf_desc pa flags (hw_walk (ram m) 3 root va));
  mp_miss : forall va', ~ same_idx 3 va va' ->
    hw_walk (ram m') 3 root va' = hw_walk (ram m) 3 root va';
  mp_frame : forall a, (forall t n, T' !! t = Some n -> ~ t <= a < t + 4096) ->
    ldb (ram m') a = ldb (ram m) a;
  mp_used : forall j, 0 <= j -> page_free (pg m) j = false -> page_free (pg m') j = false;
  mp_new : new_tables (pg m) T T';
}.

(** The three descents of [map_one_page] reach the leaf table of [va]. *)
Lemma descend_ok m T root va :
  pt_wf m T root -> 3 <= nfree m ->
  exists c1 m1 c2 m2 c3 m3 T3,
    get_or_alloc_subtable m (entry_ptr (tbl root) (vidx 3 va)) = Done (tbl c1, m1) /\
    get_or_alloc_subtable m1 (entry_ptr (tbl c1) (vidx 2 va)) = Done (tbl c2, m2) /\
    get_or_alloc_subtable m2 (entry_ptr (tbl c2) (vidx 1 va)) = Done (tbl c3, m3) /\
    pt_wf m3 T3 root /\ grows 3 m T m3 T3 /\ T3 !! c3 = Some O /\
    hw_slot (ram m3) 3 root va = Some (c3, vidx 0 va).
Proof.
  intros Hwf Hn.
  destruct (get_or_alloc_ok m T root root (vidx 3 va) 2 Hwf (pt_root _ _ _ Hwf) (vidx_range 3 va))
    as (c1 & m1 & T1 & E1 & Hwf1 & Hg1 & Hc1 & A0 & A1 & Ac); [lia|].
  pose proof (gr_free _ _ _ _ _ Hg1) as N1.
  destruct (get_or_alloc_ok m1 T1 root c1 (vidx 2 va) 1 Hwf1 Hc1 (vidx_range 2 va))
    as (c2 & m2 & T2 & E2 & Hwf2 & Hg2 & Hc2 & B0 & B1 & Bc); [lia|].
  pose proof (gr_free _ _ _ _ _ Hg2) as N2.
  destruct (get_or_alloc_ok m2 T2 root c2 (vidx 1 va) 0 Hwf2 Hc2 (vidx_range 1 va))
    as (c3 & m3 & T3 & E3 & Hwf3 & Hg3 & Hc3 & C0 & C1 & Cc); [lia|].
  exists c1, m1, c2, m2, c3, m3, T3. repeat (split; [done|]).
  split; [exact (grows_trans _ _ _ _ _ _ _ _ Hg1 (grows_trans _ _ _ _ _ _ _ _ Hg2 Hg3))|].
  split; [done|].
  assert (Hr1 : T1 !! root = Some 3%nat) by apply Hwf1.
  assert (Hc1' : T2 !! c1 = Some 2%nat) by (eapply lookup_weaken; [exact Hc1|apply Hg2]).
  assert (EA : ent (ram m3) root (vidx 3 va) = ent (ram m1) root (vidx 3 va)).
  { pose proof (grows_trans _ _ _ _ _ _ _ _ Hg2 Hg3) as H.
    apply (gr_ent _ _ _ _ _ H root 3); [done|apply vidx_range|by left]. }
  assert (EB : ent (ram m3) c1 (vidx 2 va) = ent (ram m2) c1 (vidx 2 va)).
  { apply (gr_ent _ _ _ _ _ Hg3 c1 2); [done|apply vidx_range|by left]. }
  by rewrite (hw_slot_path _ 2 root va c1), (hw_slot_path _ 1 c1 va c2),
    (hw_slot_path _ 0 c2 va c3); rewrite ?EA, ?EB.
Qed.

(** The leaf write that ends [map_one_page], on a tree where [va] has its slot. *)
Lemma leaf_write_ok k m T m3 T3 root c3 pa va flags :
  pt_wf m T root -> pt_wf m3 T3 root -> grows k m T m3 T3 -> T3 !! c3 = Some O ->
  hw_slot (ram m3) 3 root va = Some (c3, vidx 0 va) -> page_flags_ok flags -> is_u64 pa ->
  mapped k m T root pa va flags
    (mk_machine (pg m3) (st 8 (ram m3) (c3 + 8 * vidx 0 va)
       (leaf_desc pa flags (hw_walk (ram m) 3 root va)))) T3.
Proof.
  intros Hwf Hwf3 HG Hc3 Hslot Hfl Hpa.
  destruct (leaf_desc_ok pa flags (hw_walk (ram m) 3 root va) Hfl Hpa) as (Hd & Hlv & Hd1).
  set (d := leaf_desc pa flags (hw_walk (ram m) 3 root va)) in *.
  constructor.
  - apply leaf_store_wf; done || apply vidx_range.
  - apply HG.
  - apply HG.
  - pose proof (gr_free _ _ _ _ _ HG). unfold nfree in *. simpl. lia.
  - cbn [ram]. rewrite (leaf_store_walk m3 T3 root) by (done || apply vidx_range || apply Hwf3).
    rewrite decide_True by done. done.
  - intros va' Hne. cbn [ram].
    rewrite (leaf_store_walk m3 T3 root) by (done || apply vidx_range || apply Hwf3).
    rewrite decide_False; [apply (gr_walk _ _ _ _ _ HG), Hwf|].
    intros Hs. destruct (hw_slot_inj m3 T3 root 3 root root va va' _ Hwf3
      (pt_root _ _ _ Hwf3) (pt_root _ _ _ Hwf3) Hslot Hs) as [_ ?]. done.
  - intros a Ha. cbn [ram]. pose proof (Ha c3 _ Hc3). pose proof (vidx_range 0 va).
    rewrite ldb_st_other by lia. by apply (gr_frame _ _ _ _ _ HG).
  - apply HG.
  - apply HG.
Qed.

Lemma map_one_page_ok m T root pa va flags :
  pt_wf m T root -> 3 <= nfree m -> page_flags_ok flags -> is_u64 pa ->
  exists m' T', map_one_page m root pa va flags = Done m' /\ mapped 3 m T root pa va flags m' T'.
Proof.
  intros Hwf Hn Hfl Hpa. unfold map_one_page.
  change (pt_index 39 va) with (vidx 3 va). change (pt_index 30 va) with (vidx 2 va).
  change (pt_index 21 va) with (vidx 1 va). change (pt_index 12 va) with (vidx 0 va).
  destruct (descend_ok m T root va Hwf Hn)
    as (c1 & m1 & c2 & m2 & c3 & m3 & T3 & -> & E2 & E3 & Hwf3 & HG & Hc3 & Hslot).
  cbn [mbind outcome_bind]. rewrite E2. cbn [mbind outcome_bind]. rewrite E3.
  cbn [mbind outcome_bind].
  destruct (hw_walk_slot m3 T3 root 3 root va c3 (vidx 0 va) Hwf3 (pt_root _ _ _ Hwf3) Hslot)
    as [Hw _].
  pose proof (gr_walk _ _ _ _ _ HG 3 root va (pt_root _ _ _ Hwf)) as Hwalk.
  assert (Hpa3 : page_pa c3) by (eapply table_pa; done).
  rewrite pte_load_ent, valid_bit, user_bit by (done || apply vidx_range).
  set (old := ent (ram m3) c3 (vidx 0 va)) in *.
  assert (Hmerge : (if negb (negb (Z.testbit old 0)) && negb (negb (Z.testbit old 6))
    then Z.lor (Z.land flags (not64 PTE_UXN)) (Z.land (Z.land old PTE_UXN) (Z.land flags PTE_UXN))
    else flags) = merge_flags (hw_walk (ram m) 3 root va) flags).
  { rewrite <- Hwalk, Hw. unfold leaf_view, merge_flags. rewrite !negb_involutive.
    destruct (Z.testbit old 0) eqn:O0; [|done].
    pose proof (pt_leaf _ _ _ Hwf3 c3 (vidx 0 va) Hc3 (vidx_range 0 va) O0) as O1.
    fold old in O1. rewrite O1. done. }
  rewrite Hmerge. rewrite ram_pte_store by (done || apply vidx_range).
  eexists _, T3. split; [reflexivity|]. by apply leaf_write_ok.
Qed.

(** ** Mapping a range *)

Lemma vidx_div j va : vidx j va = (va / 4096 / 2 ^ (9 * Z.of_nat j)) mod 512.
Proof.
  unfold vidx, pt_index. change 0x1FF with (2 ^ 9 - 1). rewrite land_ones_mod by lia.
  rewrite Z.shiftr_div_pow2 by lia. rewrite Z.div_div by lia.
  rewrite Z.pow_add_r by lia. done.
Qed.

Lemma same_idx_page va va' : 0 <= va < 2 ^ 48 -> 0 <= va' < 2 ^ 48 ->
  same_idx 3 va va' <-> va / 4096 = va' / 4096.
Proof.
  intros H H'. split; [|intros E j _; by rewrite !vidx_div, E].
  intros Hs. pose proof (Hs 0%nat ltac:(lia)) as H0. pose proof (Hs 1%nat ltac:(lia)) as H1.
  pose proof (Hs 2%nat ltac:(lia)) as H2. pose proof (Hs 3%nat ltac:(lia)) as H3.
  rewrite !vidx_div in *. change (2 ^ (9 * Z.of_nat 0)) with 1 in H0.
  change (2 ^ (9 * Z.of_nat 1)) with 512 in H1. change (2 ^ (9 * Z.of_nat 2)) with (512 * 512) in H2.
  change (2 ^ (9 * Z.of_nat 3)) with (512 * 512 * 512) in H3.
  rewrite !Z.div_1_r in H0. rewrite <- !Z.div_div in H2 by lia.
  assert (D : forall x, x / (512 * 512 * 512) = x / 512 / 512 / 512)
    by (intros x; by rewrite !Z.div_div by lia).
  rewrite !D in H3.
  set (q := va / 4096) in *. set (q' := va' / 4096) in *.
  assert (Hq : 0 <= q < 2 ^ 36) by (split; [apply Z.div_pos|apply Z.div_lt_upper_bound]; lia).
  assert (Hq' : 0 <= q' < 2 ^ 36) by (split; [apply Z.div_pos|apply Z.div_lt_upper_bound]; lia).
  pose proof (Z.div_mod q 512 ltac:(lia)). pose proof (Z.div_mod q' 512 ltac:(lia)).
  pose proof (Z.div_mod (q / 512) 512 ltac:(lia)). pose proof (Z.div_mod (q' / 512) 512 ltac:(lia)).
  pose proof (Z.div_mod (q / 512 / 512) 512 ltac:(lia)).
  pose proof (Z.div_mod (q' / 512 / 512) 512 ltac:(lia)).
  assert (B : forall x, 0 <= x < 2 ^ 36 -> (x / 512 / 512 / 512) mod 512 = x / 512 / 512 / 512).
  { intros x Hx. apply Z.mod_small. rewrite !Z.div_div by lia. split; [apply Z.div_pos; lia|].
    apply Z.div_lt_upper_bound; lia. }
  rewrite !B in H3 by done. lia.
Qed.

Lemma hw_walk_idx r n t va va' : same_idx n va va' -> hw_walk r n t va = hw_walk r n t va'.
Proof.
  revert t. induction n as [|n IH]; intros t Hs; cbn [hw_walk]; rewrite (Hs _ (le_n _)); [done|].
  rewrite IH; [done|]. intros j Hj. apply Hs. lia.
Qed.

(** The number of pages [map_pages] installs for [size] bytes at [pa]. *)
Definition page_count (pa size : Z) : Z := (size + pa mod 4096 + 4095) / 4096.

Definition page_base (a : Z) : Z := a - a mod 4096.

Lemma page_base_land a : is_u64 a -> Z.land a (not64 0xFFF) = page_base a.
Proof. intros. change 0xFFF with (2 ^ 12 - 1). by rewrite land_not_ones by (done || lia). Qed.

Lemma page_base_mod a : page_base a mod 4096 = 0.
Proof. unfold page_base. rewrite Zminus_mod_idemp_r, Z.sub_diag. done. Qed.

Lemma page_base_div a : page_base a = a / 4096 * 4096.
Proof. unfold page_base. pose proof (Z.div_mod a 4096 ltac:(lia)). lia. Qed.

Lemma page_base_le a : page_base a <= a < page_base a + 4096.
Proof. unfold page_base. pose proof (Z.mod_pos_bound a 4096 ltac:(lia)). lia. Qed.

Lemma page_base_nonneg a : 0 <= a -> 0 <= page_base a.
Proof.
  intros H. rewrite page_base_div. apply Z.mul_nonneg_nonneg; [apply Z.div_pos|]; lia.
Qed.

(** [va'] lies on one of the [n] pages from [base] on. *)
Definition in_pages (base n va' : Z) : bool := (base <=? va') && (va' <? base + n * 4096).

(** Translation after mapping [n] pages from [pa_base] at [va_base]. *)
Definition walk_after (w : Z -> option (nat * Z)) (pa_base va_base n flags va' : Z)
  : option (nat * Z) :=
  if in_pages va_base n va'
  then Some (O, leaf_desc (pa_base + (page_base va' - va_base)) flags (w va'))
  else w va'.

Record mapped_range (k : Z) (m : machine) (T : gmap Z nat) (root pa_base va_base n flags : Z)
    (m' : machine) (T' : gmap Z nat) : Prop := {
  mr_wf : pt_wf m' T' root;
  mr_sub : T ⊆ T';
  mr_geo : same_geometry (pg m) (pg m');
  mr_free : nfree m - k <= nfree m';
  mr_walk : forall va', 0 <= va' < 2 ^ 48 ->
    hw_walk (ram m') 3 root va' = walk_after (hw_walk (ram m) 3 root) pa_base va_base n flags va';
  mr_frame : forall a, (forall t n, T' !! t = Some n -> ~ t <= a < t + 4096) ->
    ldb (ram m') a = ldb (ram m) a;
  mr_used : forall j, 0 <= j -> page_free (pg m) j = false -> page_free (pg m') j = false;
  mr_new : new_tables (pg m) T T';
}.

Lemma mapped_range_step m T root pa_base va_base i flags m1 T1 m2 T2 k :
  0 <= i -> 0 <= va_base -> va_base mod 4096 = 0 -> va_base + (i + 1) * 4096 <= 2 ^ 48 ->
  mapped_range k m T root pa_base va_base i flags m1 T1 ->
  mapped 3 m1 T1 root (pa_base + i * 4096) (va_base + i * 4096) flags m2 T2 ->
  mapped_range (k + 3) m T root pa_base va_base (i + 1) flags m2 T2.
Proof.
  intros Hi Hv Hal Hle [] []. constructor.
  - done.
  - by etransitivity.
  - unfold same_geometry in *. intuition congruence.
  - lia.
  - intros va' Hva'. set (va := va_base + i * 4096) in *.
    assert (Hdiv : va / 4096 = va_base / 4096 + i) by (unfold va; apply Z.div_add; lia).
    pose proof (Z.div_mod va_base 4096 ltac:(lia)). pose proof (page_base_div va') as Hpb.
    pose proof (page_base_le va').
    destruct (Z.eq_dec (va' / 4096) (va / 4096)) as [Heq|Hne].
    + assert (hw_walk (ram m2) 3 root va' = hw_walk (ram m2) 3 root va) as ->.
      { apply hw_walk_idx, same_idx_page; lia. }
      rewrite mp_hit0. unfold walk_after, in_pages.
      rewrite (proj2 (Z.leb_le _ _)), (proj2 (Z.ltb_lt _ _)) by lia. cbn [andb].
      do 2 f_equal. f_equal; [lia|]. rewrite mr_walk0 by lia. unfold walk_after, in_pages.
      rewrite (proj2 (Z.ltb_ge va (va_base + i * 4096))) by lia. rewrite andb_false_r.
      symmetry. apply hw_walk_idx, same_idx_page; lia.
    + rewrite mp_miss0.
      2: { intros Hs. apply Hne. symmetry. apply (same_idx_page va va'); done || lia. }
      rewrite mr_walk0 by done. unfold walk_after, in_pages.
      assert ((va' <? va_base + i * 4096) = (va' <? va_base + (i + 1) * 4096)
              \/ va' < va_base) as [->|Hlt]; [|done|].
      { destruct (Z.ltb_spec va' (va_base + i * 4096)), (Z.ltb_spec va' (va_base + (i + 1) * 4096));
          lia || (by left) || idtac. }
      rewrite (proj2 (Z.leb_gt _ _)) by lia. done.
  - intros a Ha. rewrite mp_frame0 by done. apply mr_frame0. intros t n Ht.
    apply (Ha t n). by eapply lookup_weaken.
  - auto.
  - by eapply new_tables_trans.
Qed.

Lemma page_count_nonneg pa size : 0 <= size -> 0 <= page_count pa size.
Proof.
  intros H. pose proof (Z.mod_pos_bound pa 4096 ltac:(lia)). apply Z.div_pos; lia.
Qed.

Lemma page_count_le pa size : page_count pa size * 4096 <= size + pa mod 4096 + 4095.
Proof. unfold page_count. rewrite Z.mul_comm. apply Z.mul_div_le. lia. Qed.

Lemma map_pages_ok m T root pa va size flags :
  pt_wf m T root -> page_flags_ok flags -> 0 <= pa -> 0 <= va -> 0 <= size ->
  pa + size + 4096 <= 2 ^ 48 -> page_base va + page_count pa size * 4096 <= 2 ^ 48 ->
  3 * page_count pa size <= nfree m ->
  exists m' T', map_pages m root pa va size flags = Done m' /\
    mapped_range (3 * page_count pa size) m T root (page_base pa) (page_base va)
      (page_count pa size) flags m' T'.
Proof.
  intros Hwf Hfl Hpa Hva Hsz Hpt Hvt Hn. unfold map_pages.
  pose proof (page_base_le va) as Hvb. pose proof (page_base_le pa) as Hpb.
  pose proof (page_base_mod va) as Hva0. pose proof (page_base_mod pa) as Hpa0.
  pose proof (Z.mod_pos_bound pa 4096 ltac:(lia)) as Hm.
  pose proof (Z.mod_pos_bound va 4096 ltac:(lia)) as Hmv.
  pose proof (page_count_nonneg pa size Hsz) as Hcnt. pose proof (page_count_le pa size) as Hcnt'.
  pose proof (page_base_nonneg va Hva) as Hvb0. pose proof (page_base_nonneg pa Hpa) as Hpb0.
  assert (Hv64 : va < 2 ^ 64 \/ 2 ^ 64 <= va) by lia.
  destruct Hv64 as [Hv64|Hv64]; [|exfalso; lia].
  rewrite !page_base_land by (unfold is_u64; lia).
  assert ((size +u (pa -u page_base pa) +u 0xFFF) / 4096 = page_count pa size) as ->.
  { unfold page_count. rewrite (as_u64_small (pa - page_base pa)) by (unfold is_u64; lia).
    rewrite (as_u64_small (size + _)) by (unfold is_u64; lia).
    rewrite as_u64_small by (unfold is_u64; lia). f_equal. unfold page_base. lia. }
  for_inv (fun i m' => exists T', mapped_range (3 * i) m T root (page_base pa) (page_base va) i flags m' T')
    (fun _ : outcome machine => False) HL.
  - exists T. constructor; try done; [lia| |by left]. intros va' _. unfold walk_after, in_pages.
    rewrite Z.mul_0_l, Z.add_0_r.
    destruct (Z.leb_spec (page_base va) va'), (Z.ltb_spec va' (page_base va)); done || lia.
  - intros i m1 Hi (T1 & Hr). rewrite Z2Nat.id in Hi by lia.
    rewrite !(as_u64_small (i * 4096)) by (unfold is_u64; lia).
    rewrite !as_u64_small by (unfold is_u64; lia).
    pose proof (mr_free _ _ _ _ _ _ _ _ _ _ Hr).
    destruct (map_one_page_ok m1 T1 root (page_base pa + i * 4096) (page_base va + i * 4096) flags)
      as (m2 & T2 & -> & Hmp); [apply Hr|lia|done|unfold is_u64; lia|].
    exists T2. replace (3 * (i + 1)) with (3 * i + 3) by lia.
    by eapply mapped_range_step; [lia..|exact Hr|exact Hmp].
  - destruct (for_loop _ _ _ m) as [m'|]; [|done]. destruct HL as [T' HL]. by exists m', T'.
Qed.

(** ** Per-process tables *)

(** The page range a segment covers under the identity mapping. *)
Definition covers (seg : ProcSegment) (va : Z) : bool :=
  negb (seg_size seg =? 0) &&
  in_pages (page_base (seg_pa seg)) (page_count (seg_pa seg) (seg_size seg)) va.

Definition seg_ok (seg : ProcSegment) : Prop :=
  0 <= seg_pa seg /\ 0 <= seg_size seg /\ seg_pa seg + seg_size seg + 8192 <= 2 ^ 48.

Definition seg_pages (seg : ProcSegment) : Z :=
  if seg_size seg =? 0 then 0 else page_count (seg_pa seg) (seg_size seg).

Fixpoint total_seg_pages (segs : list ProcSegment) : Z :=
  match segs with [] => 0 | s :: l => seg_pages s + total_seg_pages l end.

(** What a descriptor of a process table may say about page [va]: an identity
    mapping, never executable at EL1, accessible at EL0 only as a covering
    segment says, executable at EL0 only if a covering segment is. *)
Definition desc_allowed (segs : list ProcSegment) (va d : Z) : Prop :=
  Z.land d ADDR_MASK = page_base va /\ Z.testbit d 53 = true /\
  (exists seg, seg ∈ segs /\ covers seg va = true /\ Z.testbit d 6 = seg_el0 seg) /\
  (Z.testbit d 54 = false -> exists seg, seg ∈ segs /\ covers seg va = true /\ seg_exec seg = true).

Definition table_matches (r : gmap Z Z) (root : Z) (segs : list ProcSegment) : Prop :=
  forall va, 0 <= va < 2 ^ 48 ->
    match hw_walk r 3 root va with
    | Some (n, d) => n = O /\ desc_allowed segs va d
    | None => forall seg, seg ∈ segs -> covers seg va = false
    end.

Lemma seg_flags_ok seg : page_flags_ok (seg_flags seg).
Proof. destruct seg as [? ? [] [] []]; by repeat split. Qed.

Lemma seg_flags_bits seg :
  Z.testbit (seg_flags seg) 53 = true /\ Z.testbit (seg_flags seg) 6 = seg_el0 seg /\
  Z.testbit (seg_flags seg) 54 = negb (seg_exec seg) /\ Z.land (seg_flags seg) ADDR_MASK = 0.
Proof. destruct seg as [? ? [] [] []]; by repeat split. Qed.

Lemma merge_flags_uxn old flags : is_u64 flags ->
  Z.testbit (merge_flags old flags) 54 =
  match old with
  | Some (_, d) => if Z.testbit d 6 then Z.testbit d 54 && Z.testbit flags 54 else Z.testbit flags 54
  | None => Z.testbit flags 54
  end.
Proof.
  intros Hf. unfold merge_flags. destruct old as [[? d]|]; [|done].
  destruct (Z.testbit d 6); [|done]. rewrite land_not64 by done. unfold PTE_UXN.
  rewrite Z.lor_spec, Z.ldiff_spec, !Z.land_spec, Z.shiftl_1_l, Z.pow2_bits_true by lia.
  by destruct (Z.testbit d 54), (Z.testbit flags 54).
Qed.

Lemma land_addr_mask_page a : page_pa a -> Z.land a ADDR_MASK = a.
Proof.
  intros Ha. apply Z.bits_inj'. intros n Hn. rewrite Z.land_spec, ADDR_MASK_bits by done.
  destruct (Z.leb_spec 12 n), (Z.ltb_spec n 48); cbn [andb];
    rewrite ?andb_true_r, ?andb_false_r; try done; symmetry; apply page_pa_bits; done || lia.
Qed.

Lemma leaf_desc_addr pa seg old : page_pa pa ->
  Z.land (leaf_desc pa (seg_flags seg) old) ADDR_MASK = pa.
Proof.
  intros Hpa. unfold leaf_desc. rewrite (land_addr_mask_page pa Hpa).
  destruct (seg_flags_bits seg) as (_ & _ & _ & Hz). destruct (seg_flags_ok seg) as [Hu _].
  apply Z.bits_inj'. intros n Hn.
  rewrite Z.land_spec, Z.lor_spec, ADDR_MASK_bits by done.
  destruct (Z.leb_spec 12 n), (Z.ltb_spec n 48); cbn [andb];
    rewrite ?andb_true_r, ?andb_false_r; try (symmetry; apply page_pa_bits; done || lia).
  rewrite merge_flags_bit by (done || lia).
  assert (Hb : Z.testbit (Z.land (seg_flags seg) ADDR_MASK) n = false) by (rewrite Hz; apply Z.bits_0).
  rewrite Z.land_spec, ADDR_MASK_bits in Hb by done.
  rewrite (proj2 (Z.leb_le 12 n)), (proj2 (Z.ltb_lt n 48)), andb_true_r in Hb by lia.
  rewrite Hb. apply orb_false_r.
Qed.

Lemma leaf_desc_high pa flags old n : 48 <= n \/ n < 12 -> 0 <= n ->
  Z.testbit (leaf_desc pa flags old) n = Z.testbit (merge_flags old flags) n.
Proof.
  intros Hn H0. unfold leaf_desc. rewrite Z.lor_spec, Z.land_spec, ADDR_MASK_bits by done.
  destruct (Z.leb_spec 12 n), (Z.ltb_spec n 48); cbn [andb]; rewrite ?andb_false_r; done || lia.
Qed.

Lemma desc_allowed_mono segs segs' va d :
  segs ⊆ segs' -> desc_allowed segs va d -> desc_allowed segs' va d.
Proof.
  intros Hs (H1 & H2 & (s & Hs1 & Hs2) & H4). split; [done|]. split; [done|]. split.
  - exists s. auto.
  - intros Hx. destruct (H4 Hx) as (s' & ? & ?). exists s'. auto.
Qed.

Lemma desc_allowed_new segs seg va old :
  0 <= va -> page_base va + 4096 <= 2 ^ 48 -> covers seg va = true -> seg ∈ segs ->
  (forall n d, old = Some (n, d) -> desc_allowed segs va d) ->
  desc_allowed segs va (leaf_desc (page_base va) (seg_flags seg) old).
Proof.
  intros Hva Hle Hc Hin Hold. destruct (seg_flags_bits seg) as (F53 & F6 & F54 & _).
  destruct (seg_flags_ok seg) as [Hu _].
  assert (Hpp : page_pa (page_base va)).
  { split; [by apply page_base_nonneg|split; [done|apply page_base_mod]]. }
  split; [by apply leaf_desc_addr|]. split.
  { rewrite leaf_desc_high, merge_flags_bit by (done || lia). done. }
  split.
  { exists seg. split; [done|]. split; [done|].
    rewrite leaf_desc_high, merge_flags_bit by (done || lia). done. }
  rewrite leaf_desc_high, merge_flags_uxn, F54 by (done || lia). intros Hx.
  destruct (seg_exec seg) eqn:Hex; [by exists seg|]. cbn [negb] in Hx.
  destruct old as [[n d]|]; [|done]. destruct (Z.testbit d 6); [|done].
  rewrite andb_true_r in Hx. by apply (Hold n d).
Qed.

Lemma table_matches_step m T root m' T' segs seg k :
  table_matches (ram m) root segs -> seg_ok seg -> seg_size seg <> 0 ->
  mapped_range k m T root (page_base (seg_pa seg)) (page_base (seg_pa seg))
    (page_count (seg_pa seg) (seg_size seg)) (seg_flags seg) m' T' ->
  table_matches (ram m') root (segs ++ [seg]).
Proof.
  intros Hm (Hp & Hs & Hle) Hnz Hr va Hva. rewrite (mr_walk _ _ _ _ _ _ _ _ _ _ Hr va Hva).
  unfold walk_after. specialize (Hm va Hva).
  assert (Hcov : covers seg va = in_pages (page_base (seg_pa seg))
    (page_count (seg_pa seg) (seg_size seg)) va).
  { unfold covers. by rewrite (proj2 (Z.eqb_neq _ _) Hnz). }
  assert (Hin1 : seg ∈ segs ++ [seg]) by (apply elem_of_app; right; by apply list_elem_of_singleton).
  assert (Hsub : segs ⊆ segs ++ [seg]) by (intros x Hx; apply elem_of_app; by left).
  destruct (in_pages _ _ va) eqn:Hin.
  - split; [done|].
    replace (page_base (seg_pa seg) + (page_base va - page_base (seg_pa seg)))
      with (page_base va) by lia.
    assert (Hrange : page_base va + 4096 <= 2 ^ 48).
    { unfold in_pages in Hin. znorm. pose proof (page_base_le va).
      assert (page_base (seg_pa seg) = seg_pa seg - seg_pa seg mod 4096) by done.
      pose proof (page_count_le (seg_pa seg) (seg_size seg)).
      pose proof (Z.mod_pos_bound (seg_pa seg) 4096 ltac:(lia)). lia. }
    apply desc_allowed_new; [lia|done|done|apply Hin1|].
    intros n d E. rewrite E in Hm. eapply desc_allowed_mono; [apply Hsub|apply Hm].
  - destruct (hw_walk (ram m) 3 root va) as [[n d]|].
    + destruct Hm as [-> Hd]. split; [done|]. eapply desc_allowed_mono; [apply Hsub|exact Hd].
    + intros s [Hs1|Hs1%list_elem_of_singleton]%elem_of_app; [by apply Hm|]. by subst s.
Qed.

Lemma table_matches_skip r root segs seg :
  table_matches r root segs -> seg_size seg = 0 -> table_matches r root (segs ++ [seg]).
Proof.
  intros Hm Hz va Hva. specialize (Hm va Hva). destruct (hw_walk r 3 root va) as [[n d]|].
  - destruct Hm as [-> Hd]. split; [done|]. eapply desc_allowed_mono; [|exact Hd]. set_solver.
  - intros s [Hs1|Hs1%list_elem_of_singleton]%elem_of_app; [by apply Hm|]. subst s.
    unfold covers. by rewrite Hz.
Qed.

Lemma total_seg_pages_nonneg segs : Forall seg_ok segs -> 0 <= total_seg_pages segs.
Proof.
  induction 1 as [|s l (_ & Hs & _) _ IH]; cbn [total_seg_pages]; [done|].
  unfold seg_pages. pose proof (page_count_nonneg (seg_pa s) (seg_size s) Hs).
  destruct (seg_size s =? 0); lia.
Qed.

Lemma map_segments_ok m T root done segs :
  pt_wf m T root -> table_matches (ram m) root done -> Forall seg_ok segs ->
  3 * total_seg_pages segs <= nfree m ->
  exists m' T', map_segments m root segs = Done m' /\ pt_wf m' T' root /\
    table_matches (ram m') root (done ++ segs) /\ same_geometry (pg m) (pg m') /\
    (forall a, (forall t n, T' !! t = Some n -> ~ t <= a < t + 4096) -> ldb (ram m') a = ldb (ram m) a) /\
    T ⊆ T' /\ new_tables (pg m) T T'.
Proof.
  revert m T done. induction segs as [|seg segs IH]; intros m T done Hwf Hm Hok Hn; cbn [map_segments].
  - rewrite app_nil_r. exists m, T. repeat (split; [done|]). by left.
  - apply Forall_cons in Hok as [Hs Hok]. cbn [total_seg_pages] in Hn. unfold seg_pages in Hn.
    pose proof (total_seg_pages_nonneg segs Hok) as Hge.
    replace (done ++ seg :: segs) with ((done ++ [seg]) ++ segs) by (by rewrite <- app_assoc).
    destruct (Z.eqb_spec (seg_size seg) 0) as [Hz|Hnz].
    + destruct (IH m T (done ++ [seg]) Hwf) as (m' & T' & ?); [by apply table_matches_skip|done|lia|].
      by exists m', T'.
    + pose proof Hs as (Hp & Hsz & Hle).
      pose proof (page_base_le (seg_pa seg)). pose proof (Z.mod_pos_bound (seg_pa seg) 4096 ltac:(lia)).
      pose proof (page_count_le (seg_pa seg) (seg_size seg)) as Hpc.
      destruct (map_pages_ok m T root (seg_pa seg) (seg_pa seg) (seg_size seg) (seg_flags seg))
        as (m1 & T1 & -> & Hr); [done|apply seg_flags_ok|lia..|]. cbn [mbind outcome_bind].
      pose proof (mr_free _ _ _ _ _ _ _ _ _ _ Hr) as Hfr.
      destruct (IH m1 T1 (done ++ [seg])) as (m' & T' & E & Hwf' & Hm' & Hg & Hf & Hsub & Hnew);
        [apply Hr|by eapply table_matches_step|done|lia|].
      exists m', T'. split; [done|]. split; [done|]. split; [done|].
      split; [pose proof (mr_geo _ _ _ _ _ _ _ _ _ _ Hr); unfold same_geometry in *; intuition congruence|].
      split; [|split; [by etransitivity; [apply (mr_sub _ _ _ _ _ _ _ _ _ _ Hr)|]|
        by eapply new_tables_trans; [apply Hr..|]]].
      intros a Ha. rewrite Hf by done. apply (mr_frame _ _ _ _ _ _ _ _ _ _ Hr).
      intros t n Ht. apply (Ha t n). by eapply lookup_weaken.
Qed.

(** A freshly allocated root page is an empty tree. *)
Lemma fresh_root_wf m :
  pages_wf (pg m) -> 1 <= nfree m ->
  exists root m', alloc_table m = Done (root, m') /\ pt_wf m' {[root := 3%nat]} root /\
    same_geometry (pg m) (pg m') /\ nfree m' = nfree m - 1 /\ table_matches (ram m') root [] /\
    free_page_at (pg m) root /\
    (forall j, 0 <= j -> page_free (pg m) j = false -> page_free (pg m') j = false) /\
    (forall a, ~ root <= a < root + 4096 -> ldb (ram m') a = ldb (ram m) a).
Proof.
  intros Hwf Hn.
  destruct (alloc_table_ok m Hwf Hn)
    as (root & m' & E & Hwf' & Hgeo & (k & Hr & Hk & Hkf & Hfree) & Hram & Hnf).
  exists root, m'. split; [done|].
  assert (Hent : forall i, 0 <= i < 512 -> ent (ram m') root i = 0).
  { intros i Hi. rewrite Hram. apply ld_zero_range; lia. }
  assert (HT : forall t n, ({[root := 3%nat]} : gmap Z nat) !! t = Some n -> t = root /\ n = 3%nat).
  { intros t n [<- <-]%lookup_singleton_Some. done. }
  split; [constructor|].
  - done.
  - apply lookup_singleton_eq.
  - intros t n [-> ->]%HT. exists k. destruct Hgeo as (Hg1 & Hg2 & _). unfold page_addr.
    rewrite Hg1, Hg2. split; [done|]. split; [done|]. rewrite Hfree by lia. by rewrite Z.eqb_refl.
  - intros t i [-> ?]%HT. done.
  - intros t n i [-> _]%HT Hi. by rewrite Hent.
  - intros t n i t' n' i' [-> _]%HT _ Hi _. by rewrite Hent.
  - repeat (split; [done|]). split; [|split; [by exists k|split]].
    + intros va Hva. cbn [hw_walk]. rewrite Hent by apply vidx_range. cbn [negb].
      intros seg Hseg%not_elem_of_nil. done.
    + intros j Hj Hf. rewrite Hfree, Hf by done. apply andb_false_r.
    + intros a Ha. rewrite Hram, ldb_zero_range, decide_False by lia. done.
Qed.

(** The tree [create_process_table] builds consists of pages that were free. *)
Lemma create_process_table_tree m segs :
  pages_wf (pg m) -> Forall seg_ok segs -> 1 + 3 * total_seg_pages segs <= nfree m ->
  exists root m' T, create_process_table m segs = Done (root, m') /\
    pt_wf m' T root /\ (forall t n, T !! t = Some n -> free_page_at (pg m) t) /\
    table_matches (ram m') root segs /\
    (forall a, (forall t, free_page_at (pg m) t -> ~ t <= a < t + 4096) ->
       ldb (ram m') a = ldb (ram m) a).
Proof.
  intros Hwf Hok Hn. pose proof (total_seg_pages_nonneg segs Hok) as Hge.
  destruct (fresh_root_wf m Hwf ltac:(lia)) as (root & m1 & E & Hwf1 & Hg & Hnf & Hm & Hfr & Hu & Hfm).
  destruct (map_segments_ok m1 _ root [] segs Hwf1 Hm Hok ltac:(lia))
    as (m2 & T2 & E2 & Hwf2 & Hm2 & _ & Hfm2 & _ & Hnew).
  assert (Hnt : forall t n, T2 !! t = Some n -> free_page_at (pg m) t).
  { assert (Hnt : new_tables (pg m) {[root := 3%nat]} T2).
    { eapply (new_tables_trans m m1); [done..| |exact Hnew]. by left. }
    intros t n Ht. destruct (Hnt t n Ht) as [[<- _]%lookup_singleton_Some|?]; done. }
  exists root, m2, T2. unfold create_process_table. rewrite E. cbn [mbind outcome_bind]. rewrite E2.
  split; [done|]. split; [done|]. split; [done|]. split; [done|].
  intros a Ha. rewrite Hfm2; [by apply Hfm, Ha|]. intros t n Ht. by apply Ha, (Hnt t n).
Qed.

Lemma create_process_table_ok m segs :
  pages_wf (pg m) -> Forall seg_ok segs -> 1 + 3 * total_seg_pages segs <= nfree m ->
  exists root m', create_process_table m segs = Done (root, m') /\
    pages_wf (pg m') /\ free_page_at (pg m) root /\ table_matches (ram m') root segs /\
    (forall a, (forall t, free_page_at (pg m) t -> ~ t <= a < t + 4096) ->
       ldb (ram m') a = ldb (ram m) a).
Proof.
  intros Hwf Hok Hn. destruct (create_process_table_tree m segs Hwf Hok Hn) as (root & m' & T & E & Hpt & HT & H).
  exists root, m'. split; [done|]. split; [apply Hpt|]. split; [by eapply HT, Hpt|]. done.
Qed.

(** The walk reads the tables of the tree only. *)
Lemma hw_walk_frame m T root r' n t va :
  pt_wf m T root -> (forall t n a, T !! t = Some n -> t <= a < t + 4096 -> ldb r' a = ldb (ram m) a) ->
  T !! t = Some n -> hw_walk r' n t va = hw_walk (ram m) n t va.
Proof.
  intros Hwf Hag. revert t. induction n as [|n IH]; intros t Ht; cbn [hw_walk].
  all: assert (E : forall i, 0 <= i < 512 -> ent r' t i = ent (ram m) t i)
    by (intros i Hi; apply ld_ext; intros a Ha; apply (Hag t _ a Ht); simpl in Ha; lia).
  - by rewrite E by apply vidx_range.
  - rewrite E by apply vidx_range. set (e := ent (ram m) t _). destruct (Z.testbit e 0) eqn:B0; [|done]. cbn [negb].
    destruct (pt_child _ _ _ Hwf t n _ Ht (vidx_range (S n) va) B0) as [B1 C]. fold e in B1, C.
    rewrite B1. by apply IH.
Qed.

Lemma table_matches_frame m T root r' segs :
  pt_wf m T root -> (forall t n a, T !! t = Some n -> t <= a < t + 4096 -> ldb r' a = ldb (ram m) a) ->
  table_matches (ram m) root segs -> table_matches r' root segs.
Proof.
  intros Hwf Hag Hm va Hva. specialize (Hm va Hva).
  by rewrite (hw_walk_frame m T root r' 3 root va Hwf Hag (pt_root _ _ _ Hwf)).
Qed.

(** ** Theorems *)

(** A machine with sixteen free pages and blank RAM. *)
Definition demo_machine : machine := mk_machine demo_pages ∅.

(** C8: [map_pages] on a well-formed tree with three free pages per page to map
    never panics.  Afterwards the MMU translates every address of the range to
    the corresponding page of [pa] with the requested flags (merged with an
    EL0 mapping already there as [map_one_page] documents), every other address
    translates as before, the tree is well formed, and memory outside the old
    tables and the pages that were free is untouched. *)
Theorem map_pages_correct m T root pa va size flags :
  pt_wf m T root -> page_flags_ok flags -> 0 <= pa -> 0 <= va -> 0 <= size ->
  pa + size + 4096 <= 2 ^ 48 -> page_base va + page_count pa size * 4096 <= 2 ^ 48 ->
  3 * page_count pa size <= nfree m ->
  exists m' T', map_pages m root pa va size flags = Done m' /\ pt_wf m' T' root /\ T ⊆ T' /\
    (forall va', 0 <= va' < 2 ^ 48 -> hw_walk (ram m') 3 root va' =
       if in_pages (page_base va) (page_count pa size) va'
       then Some (O, leaf_desc (page_base pa + (page_base va' - page_base va)) flags
                       (hw_walk (ram m) 3 root va'))
       else hw_walk (ram m) 3 root va') /\
    (forall a, (forall t n, T !! t = Some n -> ~ t <= a < t + 4096) ->
       (forall t, free_page_at (pg m) t -> ~ t <= a < t + 4096) -> ldb (ram m') a = ldb (ram m) a).
Proof.
  intros Hwf Hfl Hpa Hva Hsz Hp Hv Hn.
  destruct (map_pages_ok m T root pa va size flags Hwf Hfl Hpa Hva Hsz Hp Hv Hn)
    as (m' & T' & E & Hr).
  exists m', T'. split; [done|]. split; [apply Hr|]. split; [apply Hr|]. split; [apply Hr|].
  intros a Ha Hfr. apply (mr_frame _ _ _ _ _ _ _ _ _ _ Hr). intros t n Ht.
  destruct (mr_new _ _ _ _ _ _ _ _ _ _ Hr t n Ht) as [?|?]; [by apply (Ha t n)|by apply Hfr].
Qed.

Lemma map_pages_correct_witness :
  exists m root m', map_pages m root 0x9000 0x5000 8192 (seg_flags (mk_seg 0 0 true false false))
      = Done m' /\ hw_walk (ram m') 3 root 0x6004 =
        Some (O, leaf_desc 0xA000 (seg_flags (mk_seg 0 0 true false false)) (hw_walk (ram m) 3 root 0x6004)).
Proof.
  destruct (fresh_root_wf demo_machine demo_pages_wf) as (root & m & _ & Hwf & _ & Hn & _); [by vm_compute|].
  assert (Hn' : nfree m = 15) by (rewrite Hn; by vm_compute).
  exists m, root.
  destruct (map_pages_correct m _ root 0x9000 0x5000 8192 (seg_flags (mk_seg 0 0 true false false)) Hwf)
    as (m' & T' & E & _ & _ & H & _);
    [apply seg_flags_ok|lia..|vm_compute; done|vm_compute; done|rewrite Hn'; vm_compute; done|].
  exists m'. split; [done|]. exact (H 0x6004 ltac:(lia)).
Defined.


