(* ===== verification/VmmUnmap.v ===== *)
(** * Correctness of unmapping

    What [unmap_one] and [unmap_pages] do to the translation of [VmmProofs], to
    the page allocator and to the TLB. *)

From stdpp Require Import base numbers list gmap.
From Stdlib Require Import ZArith Lia.
From S2P Require Import Prelude Machine PageAlloc Vmm VmmProofs.

(** ** Unmapping *)

(** No page of the range is mapped to a page that holds one of the tables. *)
Definition no_table_leaf (r : gmap Z Z) (T : gmap Z nat) (root base n : Z) : Prop :=
  forall va h d, 0 <= va < 2 ^ 48 -> in_pages base n va = true ->
    hw_walk r 3 root va = Some (h, d) -> T !! Z.land d ADDR_MASK = None.

(** Page [j] of the allocator backs an address of the range. *)
Definition backs (m : machine) (root base n j : Z) : Prop :=
  exists va d, 0 <= va < 2 ^ 48 /\ in_pages base n va = true /\
    hw_walk (ram m) 3 root va = Some (O, d) /\ freeable (pg m) (Z.land d ADDR_MASK) = true /\
    j = (Z.land d ADDR_MASK - PAGE_BASE (pg m)) / PAGE_SIZE.

(** What unmapping [n] pages from [base] on does: the range has no translation
    and nothing else changes, exactly the pages that backed it become free, and
    the TLB entry of every page that was mapped is invalidated. *)
Record unmapped (m : machine) (T : gmap Z nat) (root base n : Z)
    (m' : machine) (ev : list tlb_event) : Prop := {
  um_wf : pt_wf m' T root;
  um_geo : same_geometry (pg m) (pg m');
  um_walk : forall va, 0 <= va < 2 ^ 48 -> hw_walk (ram m') 3 root va =
    if in_pages base n va then None else hw_walk (ram m) 3 root va;
  um_tlb : forall va, 0 <= va < 2 ^ 48 -> in_pages base n va = true ->
    hw_walk (ram m) 3 root va <> None -> Tlbi_vaae1 (va / 4096) ∈ ev;
  um_free : forall j, 0 <= j ->
    page_free (pg m') j = true <-> page_free (pg m) j = true \/ backs m root base n j;
}.

Lemma in_page_same va va' : va mod 4096 = 0 -> 0 <= va < 2 ^ 48 -> 0 <= va' < 2 ^ 48 ->
  in_pages va 1 va' = true <-> same_idx 3 va va'.
Proof.
  intros Hm H H'. rewrite same_idx_page by done. unfold in_pages.
  pose proof (Z.div_mod va 4096 ltac:(lia)). pose proof (Z.div_mod va' 4096 ltac:(lia)).
  pose proof (Z.mod_pos_bound va' 4096 ltac:(lia)). lia.
Qed.

(** The walk of a tree has a leaf exactly when [unmap_one] finds one. *)
Lemma unmap_one_walk m T root va :
  pt_wf m T root ->
  match hw_walk (ram m) 3 root va with
  | None => unmap_one m root va = Done (m, [])
  | Some (h, d) => h = O /\ exists l, T !! l = Some O /\
      hw_slot (ram m) 3 root va = Some (l, vidx 0 va) /\ ent (ram m) l (vidx 0 va) = d /\
      unmap_one m root va =
        (p ← free_page (pg m) (Z.land d ADDR_MASK);
         Done (mk_machine p (st 8 (ram m) (l + 8 * vidx 0 va) 0), [Tlbi_vaae1 (Z.shiftr va 12)]))
  end.
Proof.
  intros Hwf. unfold unmap_one.
  change (pt_index 39 va) with (vidx 3 va). change (pt_index 30 va) with (vidx 2 va).
  change (pt_index 21 va) with (vidx 1 va). change (pt_index 12 va) with (vidx 0 va).
  pose proof (fun n => vidx_range n va) as Hv.
  assert (Hpa : forall t n, T !! t = Some n -> page_pa t) by (intros; by eapply table_pa).
  pose proof (pt_root _ _ _ Hwf) as Hr. cbn [hw_walk hw_slot Nat.eqb].
  rewrite pte_load_ent, valid_bit by eauto. set (e0 := ent _ root _).
  destruct (Z.testbit e0 0) eqn:A0; cbn [negb]; [|done].
  destruct (pt_child _ _ _ Hwf _ _ _ Hr (Hv 3%nat) A0) as [A1 C1]. fold e0 in A1, C1. rewrite A1.
  rewrite pte_load_ent, valid_bit by eauto. set (e1 := ent _ (Z.land e0 _) _).
  destruct (Z.testbit e1 0) eqn:B0; cbn [negb andb]; [|done].
  destruct (pt_child _ _ _ Hwf _ _ _ C1 (Hv 2%nat) B0) as [B1 C2]. fold e1 in B1, C2. rewrite B1.
  rewrite pte_load_ent, valid_bit, table_bit by eauto. set (e2 := ent _ (Z.land e1 _) _).
  destruct (Z.testbit e2 0) eqn:D0; cbn [negb andb]; [|done].
  destruct (pt_child _ _ _ Hwf _ _ _ C2 (Hv 1%nat) D0) as [D1 C3]. fold e2 in D1, C3. rewrite D1.
  cbn [negb]. rewrite pte_load_ent, valid_bit by eauto. set (e3 := ent _ (Z.land e2 _) _).
  destruct (Z.testbit e3 0) eqn:E0; cbn [negb]; [|done].
  rewrite (pt_leaf _ _ _ Hwf _ _ C3 (Hv 0%nat) E0 : Z.testbit e3 1 = true).
  split; [done|]. exists (Z.land e2 ADDR_MASK). do 3 (split; [done|]).
  rewrite ram_pte_store by eauto. done.
Qed.

Lemma freeable_geo p p' a : same_geometry p p' -> freeable p' a = freeable p a.
Proof. intros (H1 & H2 & H3). unfold freeable. by rewrite H1, H2, H3. Qed.

(** Freeing a page that holds no table keeps the tree. *)
Lemma pt_wf_free m T root p' pa :
  pt_wf m T root -> pages_wf p' -> same_geometry (pg m) p' -> T !! pa = None -> is_u64 pa ->
  (forall j, 0 <= j -> page_free p' j =
     (freeable (pg m) pa && (j =? (pa - PAGE_BASE (pg m)) / PAGE_SIZE)) || page_free (pg m) j) ->
  pt_wf (mk_machine p' (ram m)) T root.
Proof.
  intros Hwf Hp' (Hg1 & Hg2 & Hg3) HT Hpa Hf. pose proof Hwf as [H1 H2 H3 H4 H5 H6].
  constructor; try done. intros t n Ht. destruct (H3 t n Ht) as (k & Hk & Hr & Hu).
  exists k. unfold page_addr in *. cbn [pg]. rewrite Hg1, Hg2. split; [done|]. split; [done|].
  rewrite Hf, Hu, orb_false_r by lia. destruct (freeable (pg m) pa) eqn:E; [|done]. simpl.
  apply Z.eqb_neq. intros Ek. unfold freeable in E.
  assert (t = pa); [|congruence].
  pose proof (wf_align _ H1) as Hb. revert Hk Ek E Hb. unfold PAGE_SIZE. intros.
  assert (H0 : (pa - PAGE_BASE (pg m)) mod 4096 = 0).
  { rewrite Zminus_mod, Hb. assert (Hz : pa mod 4096 = 0) by lia. by rewrite Hz. }
  pose proof (Z.div_mod (pa - PAGE_BASE (pg m)) 4096 ltac:(lia)). lia.
Qed.

Lemma unmapped_none m T root va :
  pt_wf m T root -> va mod 4096 = 0 -> 0 <= va < 2 ^ 48 -> hw_walk (ram m) 3 root va = None ->
  unmapped m T root va 1 m [].
Proof.
  intros Hwf Hm Hva Hw.
  assert (H : forall va', 0 <= va' < 2 ^ 48 -> in_pages va 1 va' = true ->
    hw_walk (ram m) 3 root va' = None).
  { intros va' H' Hin%in_page_same; [|done..]. by rewrite <- (hw_walk_idx _ _ _ va va'). }
  constructor; try done.
  - intros va' H'. destruct (in_pages va 1 va') eqn:E; [|done]. by apply H.
  - intros va' H' Hin Hn. by rewrite H in Hn.
  - intros j Hj. split; [by left|]. intros [?|(va' & d & H' & Hin & Hd & _)]; [done|].
    by rewrite H in Hd.
Qed.

Lemma hw_slot_idx r n t va va' : same_idx n va va' -> hw_slot r n t va = hw_slot r n t va'.
Proof.
  revert t. induction n as [|n IH]; intros t Hs; cbn [hw_slot]; rewrite (Hs _ (le_n _)); [done|].
  rewrite IH; [done|]. intros j Hj. apply Hs. lia.
Qed.

Lemma leaf_u64 (r : gmap Z Z) d n t i : is_u64 n -> ent r t i = d -> is_u64 (Z.land d n).
Proof. intros Hn <-. rewrite Z.land_comm. by apply land_u64_l. Qed.

Lemma unmap_one_ok m T root va :
  pt_wf m T root -> va mod 4096 = 0 -> 0 <= va < 2 ^ 48 -> no_table_leaf (ram m) T root va 1 ->
  exists m' ev, unmap_one m root va = Done (m', ev) /\ unmapped m T root va 1 m' ev.
Proof.
  intros Hwf Hm Hva Hnt. pose proof (unmap_one_walk m T root va Hwf) as Hw.
  destruct (hw_walk (ram m) 3 root va) as [[h d]|] eqn:E;
    [|exists m, []; by split; [|apply unmapped_none]].
  destruct Hw as (-> & l & Hl & Hslot & Hd & ->).
  assert (Hself : in_pages va 1 va = true) by (by apply in_page_same).
  assert (Hpa : is_u64 (Z.land d ADDR_MASK)) by (eapply leaf_u64; done).
  destruct (free_page_correct (pg m) _ (pt_pages _ _ _ Hwf) Hpa) as (p' & -> & Hp' & Hgeo & Hf).
  cbn [mbind outcome_bind]. eexists _, _. split; [reflexivity|].
  assert (Hsame : forall va', 0 <= va' < 2 ^ 48 -> in_pages va 1 va' = true ->
    hw_walk (ram m) 3 root va' = Some (O, d)).
  { intros va' H' Hin%in_page_same; [|done..]. by rewrite <- (hw_walk_idx _ _ _ va va'). }
  constructor.
  - pose proof (leaf_store_wf m T root l (vidx 0 va) 0 Hwf Hl (vidx_range 0 va)
      ltac:(done) ltac:(done)) as Hwf0.
    apply (pt_wf_free _ T root p' (Z.land d ADDR_MASK) Hwf0); try done.
    by apply (Hnt va O).
  - done.
  - intros va' H'. cbn [ram].
    rewrite (leaf_store_walk m T root) by (done || apply vidx_range || apply Hwf).
    destruct (in_pages va 1 va') eqn:Hin.
    + rewrite decide_True; [done|]. apply in_page_same in Hin; [|done..].
      rewrite <- Hslot. symmetry. by apply hw_slot_idx.
    + rewrite decide_False; [done|]. intros Hs.
      destruct (hw_slot_inj m T root 3 root root va va' _ Hwf
        (pt_root _ _ _ Hwf) (pt_root _ _ _ Hwf) Hslot Hs) as [_ Hi].
      apply in_page_same in Hi; [congruence|done..].
  - intros va' H' Hin _. apply in_page_same in Hin; [|done..].
    rewrite same_idx_page in Hin by done. rewrite shiftr_12, Hin. left.
  - intros j Hj. cbn [pg]. rewrite Hf, orb_true_iff, andb_true_iff, Z.eqb_eq by done.
    split; [intros [[? ?]|?]; [right; by exists va, d|by left]|].
    intros [?|(va' & d' & H' & Hin & Hd' & Hfr & ->)]; [by right|left].
    rewrite Hsame in Hd' by done. simplify_eq. done.
Qed.

(** Ranges compose: [n] pages and then the next one. *)
Lemma in_pages_step base n va : 0 <= n ->
  in_pages base (n + 1) va = in_pages base n va || in_pages (base + n * 4096) 1 va.
Proof. intros. unfold in_pages. lia. Qed.

Lemma unmapped_step m T root base n m1 ev1 m2 ev2 :
  0 <= n -> unmapped m T root base n m1 ev1 ->
  unmapped m1 T root (base + n * 4096) 1 m2 ev2 ->
  unmapped m T root base (n + 1) m2 (ev1 ++ ev2).
Proof.
  intros Hn H1 H2.
  assert (Hnew : forall va, 0 <= va < 2 ^ 48 -> in_pages (base + n * 4096) 1 va = true ->
    hw_walk (ram m1) 3 root va = hw_walk (ram m) 3 root va).
  { intros va Hva Hin. rewrite (um_walk _ _ _ _ _ _ _ H1) by done.
    destruct (in_pages base n va) eqn:E; [|done]. unfold in_pages in *. lia. }
  pose proof (um_geo _ _ _ _ _ _ _ H1) as (G1 & G2 & G3).
  pose proof (um_geo _ _ _ _ _ _ _ H2) as (G4 & G5 & G6).
  constructor.
  - apply H2.
  - split; [congruence|]. split; congruence.
  - intros va Hva. rewrite in_pages_step, (um_walk _ _ _ _ _ _ _ H2) by done.
    destruct (in_pages (base + n * 4096) 1 va); [by rewrite orb_true_r|].
    rewrite orb_false_r. by apply H1.
  - intros va Hva Hin Hw. rewrite in_pages_step in Hin by done. apply elem_of_app.
    destruct (in_pages (base + n * 4096) 1 va) eqn:E; [right|left].
    + apply (um_tlb _ _ _ _ _ _ _ H2); [done..|]. by rewrite Hnew.
    + rewrite orb_false_r in Hin. by apply (um_tlb _ _ _ _ _ _ _ H1).
  - intros j Hj. rewrite (um_free _ _ _ _ _ _ _ H2), (um_free _ _ _ _ _ _ _ H1) by done.
    assert (Hb : backs m root base (n + 1) j <->
      backs m root base n j \/ backs m1 root (base + n * 4096) 1 j); [|tauto].
    split.
    + intros (va & d & Hva & Hin & Hw & Hf & ->). rewrite in_pages_step in Hin by done.
      destruct (in_pages (base + n * 4096) 1 va) eqn:E; [right|left].
      * exists va, d. rewrite Hnew, (freeable_geo (pg m)), G1 by done. done.
      * exists va, d. by rewrite orb_false_r in Hin.
    + intros [(va & d & Hva & Hin & Hw & Hf & ->)|(va & d & Hva & Hin & Hw & Hf & ->)];
        exists va, d; rewrite in_pages_step, Hin by done; [done|].
      rewrite Hnew in Hw by done. rewrite (freeable_geo (pg m)) in Hf by done.
      rewrite orb_true_r, G1. done.
Qed.

(** [unmap_pages] on a range of [pages] pages. *)
Lemma unmap_pages_ok m T root va size :
  pt_wf m T root -> 0 <= va -> 0 <= size -> va + size + 8192 <= 2 ^ 48 ->
  no_table_leaf (ram m) T root (page_base va) (page_count va size) ->
  exists m' ev, unmap_pages m root va size = Done (m', ev ++ [Dsb_sy; Isb]) /\
    unmapped m T root (page_base va) (page_count va size) m' ev.
Proof.
  intros Hwf Hva Hsz Hle Hnt. unfold unmap_pages.
  pose proof (page_base_le va) as Hb. pose proof (page_base_nonneg va Hva) as Hb0.
  pose proof (Z.mod_pos_bound va 4096 ltac:(lia)) as Hmod.
  pose proof (page_count_le va size) as Hpc. pose proof (page_count_nonneg va size Hsz) as Hpc0.
  rewrite page_base_land by (unfold is_u64; lia).
  replace (va -u page_base va) with (va mod 4096)
    by (unfold page_base; rewrite as_u64_small by (unfold is_u64; lia); lia).
  rewrite (as_u64_small (size + _)) by (unfold is_u64; lia).
  rewrite (as_u64_small (size + _ + _)) by (unfold is_u64; lia).
  change ((size + va mod 4096 + 0xFFF) / 4096) with (page_count va size).
  set (n := page_count va size) in *. set (base := page_base va) in *.
  for_inv (fun i (s : machine * list tlb_event) => unmapped m T root base i s.1 s.2)
    (fun _ : outcome (machine * list tlb_event) => False) HL.
  - assert (Hin : forall va', in_pages base 0 va' = false) by (intros; unfold in_pages; lia).
    constructor; try done; [intros va' _; by rewrite Hin|intros va' _; by rewrite Hin|].
    intros j Hj. split; [by left|]. intros [?|(va' & d & _ & H & _)]; [done|].
    by rewrite Hin in H.
  - intros i [m1 ev1] Hi H1. rewrite Z2Nat.id in Hi by lia. cbn [fst snd] in *.
    rewrite (as_u64_small (i * 4096)), as_u64_small by (unfold is_u64; lia).
    destruct (unmap_one_ok m1 T root (base + i * 4096)) as (m2 & ev2 & -> & H2).
    + apply H1.
    + rewrite Z.mod_add by lia. apply page_base_mod.
    + lia.
    + intros va' h d Hva' Hin Hw. rewrite (um_walk _ _ _ _ _ _ _ H1) in Hw by done.
      destruct (in_pages base i va') eqn:E; [done|]. apply (Hnt va' h d); [done| |done].
      unfold in_pages in *. lia.
    + by apply unmapped_step with m1; [lia|..].
  - destruct (for_loop _ _ _ (m, [])) as [[m' ev]|]; [|done]. by exists m', ev.
Qed.

(** ** Theorem *)

(** [unmap_pages] never panics on a well-formed tree, removes exactly the
    translations of the range, gives exactly the allocator pages that backed the
    range back to the allocator, invalidates the TLB entry of every page it
    removed before the closing barriers, and keeps the tree well formed. *)
Theorem unmap_pages_correct m T root va size :
  pt_wf m T root -> 0 <= va -> 0 <= size -> va + size + 8192 <= 2 ^ 48 ->
  no_table_leaf (ram m) T root (page_base va) (page_count va size) ->
  exists m' ev, unmap_pages m root va size = Done (m', ev ++ [Dsb_sy; Isb]) /\
    unmapped m T root (page_base va) (page_count va size) m' ev.
Proof. apply unmap_pages_ok. Qed.

(** A page mapped outside the managed range is unmapped again. *)
Lemma unmap_pages_correct_witness :
  exists m T root m' ev, pt_wf m T root /\ hw_walk (ram m) 3 root 0x5000 <> None /\
    unmap_pages m root 0x5000 4096 = Done (m', ev ++ [Dsb_sy; Isb]) /\
    unmapped m T root (page_base 0x5000) (page_count 0x5000 4096) m' ev.
Proof.
  set (fl := seg_flags (mk_seg 0 0 true false false)).
  destruct (fresh_root_wf demo_machine demo_pages_wf) as (root & m0 & _ & Hwf0 & (G0 & _) & Hn & Hmt & _);
    [by vm_compute|].
  assert (Hn' : nfree m0 = 15) by (rewrite Hn; by vm_compute).
  destruct (map_pages_ok m0 _ root 0x9000 0x5000 4096 fl Hwf0) as (m & T & _ & Hr);
    [apply seg_flags_ok|lia..|vm_compute; done|vm_compute; done|rewrite Hn'; vm_compute; done|].
  assert (Hw : forall va, 0 <= va < 2 ^ 48 -> in_pages 0x5000 1 va = true ->
    hw_walk (ram m) 3 root va = Some (O, leaf_desc 0x9000 fl None)).
  { intros va Hva Hin. rewrite (mr_walk _ _ _ _ _ _ _ _ _ _ Hr) by done.
    pose proof (Hmt va Hva) as H0. destruct (hw_walk (ram m0) 3 root va) as [[h d]|] eqn:E0.
    { destruct H0 as (_ & _ & _ & (? & []%not_elem_of_nil & _) & _). }
    unfold walk_after. change (page_count 0x9000 4096) with 1. change (page_base 0x5000) with 0x5000.
    rewrite Hin, E0. replace (page_base va) with 0x5000; [reflexivity|].
    pose proof (page_base_div va). unfold in_pages in Hin. pose proof (page_base_le va). lia. }
  destruct (unmap_pages_correct m T root 0x5000 4096) as (m' & ev & E & H);
    [apply Hr|lia..| |].
  - intros va h d Hva Hin Hd. rewrite Hw in Hd by done. injection Hd as _ <-.
    change (Z.land _ ADDR_MASK) with 0x9000. destruct (T !! 0x9000) as [n|] eqn:ET; [|done].
    destruct (pt_used _ _ _ (mr_wf _ _ _ _ _ _ _ _ _ _ Hr) _ _ ET) as (k & Hk & ? & _).
    destruct (mr_geo _ _ _ _ _ _ _ _ _ _ Hr) as (G1 & _).
    unfold page_addr in Hk. rewrite G1, G0 in Hk. change (PAGE_BASE (pg demo_machine)) with 0x41000000 in Hk.
    unfold PAGE_SIZE in Hk. lia.
  - exists m, T, root, m', ev. split; [apply Hr|]. split; [by rewrite Hw|]. exact (conj E H).
Defined.
