(* ===== verification/Ipc.v ===== *)
(** * IPC mailboxes (kernel/src/ipc/mod.rs)

    The eight-slot ring buffer every task owns, the FIFO contract the scheduler
    relies on as a type class, and the proof that the ring implements it. *)

From stdpp Require Import base numbers list.
From Stdlib Require Import ZArith Lia.
From S2P Require Import Prelude.

(** ** Data *)

(** [data] is the 32-byte payload. *)
Record Message := mk_msg {
  sender : Z;
  data : list Z;
}.

Definition MAILBOX_CAPACITY : Z := 8.

Record Mailbox := mk_mailbox {
  buffer : list (option Message);
  head : Z;
  tail : Z;
  count : Z;
}.

(** ** Operations *)

Definition Mailbox_new : Mailbox :=
  mk_mailbox (replicate (Z.to_nat MAILBOX_CAPACITY) None) 0 0 0.

Definition push (self : Mailbox) (msg : Message) : outcome (result unit unit * Mailbox) :=
  if MAILBOX_CAPACITY <=? count self then Done (Err tt, self)
  else
    b ← arr_set (buffer self) (tail self) (Some msg);
    Done (Ok tt, mk_mailbox b (head self) ((tail self +u 1) mod MAILBOX_CAPACITY) (count self +u 1)).

Definition pop (self : Mailbox) : outcome (option Message * Mailbox) :=
  if count self =? 0 then Done (None, self)
  else
    msg ← arr_get (buffer self) (head self);
    b ← arr_set (buffer self) (head self) None;
    Done (msg, mk_mailbox b ((head self +u 1) mod MAILBOX_CAPACITY) (tail self) (count self -u 1)).

Definition is_empty (self : Mailbox) : bool := count self =? 0.
Definition is_full (self : Mailbox) : bool := MAILBOX_CAPACITY <=? count self.

(** ** The contract: a bounded FIFO queue *)

Class FifoOps (Q M : Type) := {
  fifo_new : Q;
  fifo_push : Q -> M -> outcome (result unit unit * Q);
  fifo_pop : Q -> outcome (option M * Q);
}.

(** [fifo_rep q l]: [q] holds the messages [l], oldest first. *)
Class Fifo (Q M : Type) (cap : nat) `{!FifoOps Q M} := {
  fifo_rep : Q -> list M -> Prop;
  fifo_cap : forall q l, fifo_rep q l -> (length l <= cap)%nat;
  fifo_new_spec : fifo_rep fifo_new [];
  fifo_push_room : forall q l m, fifo_rep q l -> (length l < cap)%nat ->
    exists q', fifo_push q m = Done (Ok tt, q') /\ fifo_rep q' (l ++ [m]);
  fifo_push_full : forall q l m, fifo_rep q l -> length l = cap ->
    fifo_push q m = Done (Err tt, q);
  fifo_pop_empty : forall q, fifo_rep q [] -> fifo_pop q = Done (None, q);
  fifo_pop_cons : forall q m l, fifo_rep q (m :: l) ->
    exists q', fifo_pop q = Done (Some m, q') /\ fifo_rep q' l;
}.

(** ** The ring implements the contract *)

#[export] Instance mailbox_ops : FifoOps Mailbox Message := {
  fifo_new := Mailbox_new; fifo_push := push; fifo_pop := pop;
}.

(** Slot [head + k] holds the [k]-th message; the other slots are empty. *)
Record ring (b : Mailbox) (l : list Message) : Prop := {
  ring_len : length (buffer b) = 8%nat;
  ring_head : 0 <= head b < 8;
  ring_tail : tail b = (head b + Z.of_nat (length l)) mod 8;
  ring_count : count b = Z.of_nat (length l);
  ring_cap : (length l <= 8)%nat;
  ring_slot : forall k, (k < 8)%nat ->
    buffer b !! Z.to_nat ((head b + Z.of_nat k) mod 8) = Some (l !! k);
}.

Lemma ring_new : ring Mailbox_new [].
Proof.
  constructor; simpl; try (done || lia).
  intros k Hk. do 8 (destruct k as [|k]; [done|]). lia.
Qed.

(** Ring offsets are distinct below the capacity. *)
Lemma mod8_range a : 0 <= a mod 8 < 8.
Proof. apply Z.mod_pos_bound. lia. Qed.

Lemma ring_offset_inj h i j : 0 <= i < 8 -> 0 <= j < 8 -> (h + i) mod 8 = (h + j) mod 8 -> i = j.
Proof.
  intros Hi Hj E. pose proof (Z.div_mod (h + i) 8 ltac:(lia)).
  pose proof (Z.div_mod (h + j) 8 ltac:(lia)). lia.
Qed.

Lemma succ_mod8 a : 0 <= a < 8 -> (a +u 1) mod 8 = (a + 1) mod 8.
Proof. intros. by rewrite as_u64_small by (unfold is_u64; lia). Qed.

Lemma ring_push b l m : ring b l -> (length l < 8)%nat ->
  exists b', push b m = Done (Ok tt, b') /\ ring b' (l ++ [m]).
Proof.
  intros [Hl Hh Ht Hc Hcap Hs] Hlt. unfold push, MAILBOX_CAPACITY.
  rewrite Hc, (proj2 (Z.leb_gt _ _)) by lia.
  pose proof (mod8_range (head b + Z.of_nat (length l))) as Hr. rewrite <- Ht in Hr.
  rewrite arr_set_ok by lia. cbn [mbind outcome_bind]. eexists. split; [reflexivity|].
  constructor; cbn [buffer head tail count].
  - by rewrite length_insert.
  - done.
  - rewrite succ_mod8, Ht, Zplus_mod_idemp_l, length_app by done. simpl. f_equal. lia.
  - rewrite length_app, as_u64_small by (unfold is_u64; lia). simpl. lia.
  - rewrite length_app. simpl. lia.
  - intros k Hk. rewrite list_lookup_insert. case_decide as Hd.
    + destruct Hd as [Hd _]. rewrite Ht in Hd.
      pose proof (mod8_range (head b + Z.of_nat k)).
      pose proof (mod8_range (head b + Z.of_nat (length l))).
      assert (k = length l) as ->.
      { apply Nat2Z.inj, (ring_offset_inj (head b)); lia. }
      by rewrite list_lookup_middle.
    + rewrite Hs by done. f_equal. destruct (decide (k < length l)%nat).
      { by rewrite lookup_app_l. }
      assert (k <> length l) by (intros ->; apply Hd; rewrite Ht; split; [done|lia]).
      rewrite !lookup_ge_None_2; [done|rewrite length_app; simpl; lia|lia].
Qed.

Lemma ring_pop b m l : ring b (m :: l) -> exists b', pop b = Done (Some m, b') /\ ring b' l.
Proof.
  intros [Hl Hh Ht Hc Hcap Hs]. cbn [length] in *. unfold pop, MAILBOX_CAPACITY.
  rewrite Hc, (proj2 (Z.eqb_neq _ _)) by lia.
  pose proof (Hs 0%nat ltac:(lia)) as H0. rewrite Z.add_0_r, Z.mod_small in H0 by lia.
  rewrite (arr_get_some _ _ (Some m)), arr_set_ok by (done || lia).
  cbn [mbind outcome_bind]. eexists. split; [reflexivity|].
  constructor; cbn [buffer head tail count].
  - by rewrite length_insert.
  - apply mod8_range.
  - rewrite succ_mod8, Zplus_mod_idemp_l, Ht by done. f_equal. lia.
  - rewrite as_u64_small by (unfold is_u64; lia). lia.
  - lia.
  - intros k Hk. rewrite succ_mod8, Zplus_mod_idemp_l by done.
    rewrite list_lookup_insert. pose proof (mod8_range (head b + 1 + Z.of_nat k)).
    case_decide as Hd.
    + destruct Hd as [Hd _]. rewrite lookup_ge_None_2; [done|].
      assert (k = 7%nat); [|lia].
      pose proof (Z.div_mod (head b + 1 + Z.of_nat k) 8 ltac:(lia)). lia.
    + destruct (decide (k = 7%nat)) as [->|].
      { exfalso. apply Hd. split; [|lia].
        replace (head b + 1 + Z.of_nat 7) with (head b + 1 * 8) by lia.
        by rewrite Z.mod_add, Z.mod_small by lia. }
      replace (head b + 1 + Z.of_nat k) with (head b + Z.of_nat (S k)) by lia.
      rewrite Hs by lia. done.
Qed.

#[export] Instance mailbox_fifo : Fifo Mailbox Message 8.
Proof.
  refine {| fifo_rep := ring |}.
  - by intros q l [].
  - apply ring_new.
  - intros. by apply ring_push.
  - intros q l m [_ _ _ Hc _ _] Hl. simpl. unfold push. by rewrite Hc, Hl.
  - intros q [_ _ _ Hc _ _]. simpl. unfold pop. by rewrite Hc.
  - intros. by apply ring_pop.
Defined.

(** ** Clients of the contract *)

Inductive mail_op (M : Type) := Push (m : M) | Pop.
Arguments Push {M} m.
Arguments Pop {M}.

(** What one operation answers. *)
Inductive mail_ans (M : Type) := Pushed (r : result unit unit) | Popped (r : option M).
Arguments Pushed {M} r.
Arguments Popped {M} r.

Section Clients.
Context {Q M : Type} {cap : nat} `{!FifoOps Q M} `{!Fifo Q M cap}.

Definition mail_step (q : Q) (o : mail_op M) : outcome (mail_ans M * Q) :=
  match o with
  | Push m => '(r, q') ← fifo_push q m; Done (Pushed r, q')
  | Pop => '(r, q') ← fifo_pop q; Done (Popped r, q')
  end.

Fixpoint mail_run (q : Q) (os : list (mail_op M)) : outcome (list (mail_ans M)) :=
  match os with
  | [] => Done []
  | o :: os' => '(a, q') ← mail_step q o; l ← mail_run q' os'; Done (a :: l)
  end.

(** The abstract queue: a list of at most [cap] messages. *)
Definition queue_step (l : list M) (o : mail_op M) : mail_ans M * list M :=
  match o with
  | Push m => if decide (length l < cap)%nat then (Pushed (Ok tt), l ++ [m]) else (Pushed (Err tt), l)
  | Pop => match l with [] => (Popped None, []) | m :: l' => (Popped (Some m), l') end
  end.

Fixpoint queue_run (l : list M) (os : list (mail_op M)) : list (mail_ans M) :=
  match os with
  | [] => []
  | o :: os' => let '(a, l') := queue_step l o in a :: queue_run l' os'
  end.

Lemma mail_step_refines q l o : fifo_rep q l ->
  exists q', mail_step q o = Done ((queue_step l o).1, q') /\ fifo_rep q' (queue_step l o).2.
Proof.
  intros Hq. pose proof (fifo_cap _ _ Hq) as Hc. destruct o as [m|]; cbn [mail_step queue_step].
  - case_decide.
    + destruct (fifo_push_room q l m Hq) as (q' & -> & ?); [done|]. by exists q'.
    + rewrite (fifo_push_full q l m Hq) by lia. by exists q.
  - destruct l as [|m l].
    + rewrite fifo_pop_empty by done. by exists q.
    + destruct (fifo_pop_cons q m l Hq) as (q' & -> & ?). by exists q'.
Qed.

Lemma mail_run_refines os q l : fifo_rep q l -> mail_run q os = Done (queue_run l os).
Proof.
  revert q l. induction os as [|o os IH]; intros q l Hq; [done|]. cbn [mail_run queue_run].
  destruct (mail_step_refines q l o Hq) as (q' & -> & Hq'). destruct (queue_step l o) as [a l'].
  cbn [mbind outcome_bind fst]. by rewrite (IH q' l').
Qed.
End Clients.

(** ** Theorem *)

(** a mailbox is a FIFO queue of capacity eight: every sequence of pushes
    and pops on a new mailbox runs without an index panic and answers exactly as
    the abstract queue does (messages come out in the order they went in, a push
    fails only on a full queue, a pop yields nothing only on an empty one). *)
Theorem mailbox_refines_queue os :
  mail_run Mailbox_new os = Done (queue_run (cap := 8) [] os).
Proof. apply (mail_run_refines (cap := 8) os Mailbox_new []), ring_new. Qed.
