(* ===== verification/Task.v ===== *)
(** * Task control blocks (kernel/src/process/task.rs)

    The task record, the trap frame that stands at the top of a kernel stack, and
    the two constructors. *)

From stdpp Require Import base numbers list gmap.
From Stdlib Require Import ZArith Lia.
From S2P Require Import Prelude Machine PageAlloc Ipc.

(** ** Data *)

Inductive TaskState := Ready | Running | Blocked | Dead.

#[export] Instance TaskState_eq_dec : EqDecision TaskState.
Proof. solve_decision. Defined.

Inductive TaskPrivilege := Kernel | User.

Definition NAME_LEN : Z := 16.

(** Byte offsets of the fields of [TrapFrame]; [regs] is an array of 31 words. *)
Definition TF_regs : Z := 0.
Definition TF_elr : Z := 248.
Definition TF_spsr : Z := 256.
Definition TF_sp_el0 : Z := 264.
Definition TF_pad : Z := 272.

Definition TRAP_FRAME_SIZE : Z := 288.

(** [task_ttbr0] is the source's field [ttbr0]. *)
Record Task := mk_task {
  tid : Z;
  name : list Z;
  state : TaskState;
  sp : Z;
  stack_base : Z;
  stack_size : Z;
  mailbox : Mailbox;
  privilege : TaskPrivilege;
  capabilities : Z;
  task_ttbr0 : Z;
  exit_code : Z;
  wait_tid : option Z;
  user_va_base : Z;
  user_va_top : Z;
  user_stack_base : Z;
  user_stack_top : Z;
  priority : Z;
  ticks_remaining : Z;
  ticks_used : Z;
  cpu_pin : option Z;
  syscall_filter : Z * Z;
  pending_signals : Z;
  signal_mask : Z;
  signal_handler : Z;
}.

(** Field assignments [t.f = v]. *)
Definition set_state (v : TaskState) (t : Task) : Task :=
  mk_task (tid t) (name t) v (sp t) (stack_base t) (stack_size t) (mailbox t) (privilege t)
    (capabilities t) (task_ttbr0 t) (exit_code t) (wait_tid t) (user_va_base t) (user_va_top t)
    (user_stack_base t) (user_stack_top t) (priority t) (ticks_remaining t) (ticks_used t)
    (cpu_pin t) (syscall_filter t) (pending_signals t) (signal_mask t) (signal_handler t).
Definition set_sp (v : Z) (t : Task) : Task :=
  mk_task (tid t) (name t) (state t) v (stack_base t) (stack_size t) (mailbox t) (privilege t)
    (capabilities t) (task_ttbr0 t) (exit_code t) (wait_tid t) (user_va_base t) (user_va_top t)
    (user_stack_base t) (user_stack_top t) (priority t) (ticks_remaining t) (ticks_used t)
    (cpu_pin t) (syscall_filter t) (pending_signals t) (signal_mask t) (signal_handler t).
Definition set_mailbox (v : Mailbox) (t : Task) : Task :=
  mk_task (tid t) (name t) (state t) (sp t) (stack_base t) (stack_size t) v (privilege t)
    (capabilities t) (task_ttbr0 t) (exit_code t) (wait_tid t) (user_va_base t) (user_va_top t)
    (user_stack_base t) (user_stack_top t) (priority t) (ticks_remaining t) (ticks_used t)
    (cpu_pin t) (syscall_filter t) (pending_signals t) (signal_mask t) (signal_handler t).
Definition set_capabilities (v : Z) (t : Task) : Task :=
  mk_task (tid t) (name t) (state t) (sp t) (stack_base t) (stack_size t) (mailbox t)
    (privilege t) v (task_ttbr0 t) (exit_code t) (wait_tid t) (user_va_base t) (user_va_top t)
    (user_stack_base t) (user_stack_top t) (priority t) (ticks_remaining t) (ticks_used t)
    (cpu_pin t) (syscall_filter t) (pending_signals t) (signal_mask t) (signal_handler t).
Definition set_exit_code (v : Z) (t : Task) : Task :=
  mk_task (tid t) (name t) (state t) (sp t) (stack_base t) (stack_size t) (mailbox t)
    (privilege t) (capabilities t) (task_ttbr0 t) v (wait_tid t) (user_va_base t)
    (user_va_top t) (user_stack_base t) (user_stack_top t) (priority t) (ticks_remaining t)
    (ticks_used t) (cpu_pin t) (syscall_filter t) (pending_signals t) (signal_mask t)
    (signal_handler t).
Definition set_wait_tid (v : option Z) (t : Task) : Task :=
  mk_task (tid t) (name t) (state t) (sp t) (stack_base t) (stack_size t) (mailbox t)
    (privilege t) (capabilities t) (task_ttbr0 t) (exit_code t) v (user_va_base t)
    (user_va_top t) (user_stack_base t) (user_stack_top t) (priority t) (ticks_remaining t)
    (ticks_used t) (cpu_pin t) (syscall_filter t) (pending_signals t) (signal_mask t)
    (signal_handler t).
Definition set_priority (v : Z) (t : Task) : Task :=
  mk_task (tid t) (name t) (state t) (sp t) (stack_base t) (stack_size t) (mailbox t)
    (privilege t) (capabilities t) (task_ttbr0 t) (exit_code t) (wait_tid t) (user_va_base t)
    (user_va_top t) (user_stack_base t) (user_stack_top t) v (ticks_remaining t) (ticks_used t)
    (cpu_pin t) (syscall_filter t) (pending_signals t) (signal_mask t) (signal_handler t).
Definition set_ticks_remaining (v : Z) (t : Task) : Task :=
  mk_task (tid t) (name t) (state t) (sp t) (stack_base t) (stack_size t) (mailbox t)
    (privilege t) (capabilities t) (task_ttbr0 t) (exit_code t) (wait_tid t) (user_va_base t)
    (user_va_top t) (user_stack_base t) (user_stack_top t) (priority t) v (ticks_used t)
    (cpu_pin t) (syscall_filter t) (pending_signals t) (signal_mask t) (signal_handler t).
Definition set_ticks_used (v : Z) (t : Task) : Task :=
  mk_task (tid t) (name t) (state t) (sp t) (stack_base t) (stack_size t) (mailbox t)
    (privilege t) (capabilities t) (task_ttbr0 t) (exit_code t) (wait_tid t) (user_va_base t)
    (user_va_top t) (user_stack_base t) (user_stack_top t) (priority t) (ticks_remaining t) v
    (cpu_pin t) (syscall_filter t) (pending_signals t) (signal_mask t) (signal_handler t).
Definition set_cpu_pin (v : option Z) (t : Task) : Task :=
  mk_task (tid t) (name t) (state t) (sp t) (stack_base t) (stack_size t) (mailbox t)
    (privilege t) (capabilities t) (task_ttbr0 t) (exit_code t) (wait_tid t) (user_va_base t)
    (user_va_top t) (user_stack_base t) (user_stack_top t) (priority t) (ticks_remaining t)
    (ticks_used t) v (syscall_filter t) (pending_signals t) (signal_mask t) (signal_handler t).
Definition set_syscall_filter (v : Z * Z) (t : Task) : Task :=
  mk_task (tid t) (name t) (state t) (sp t) (stack_base t) (stack_size t) (mailbox t)
    (privilege t) (capabilities t) (task_ttbr0 t) (exit_code t) (wait_tid t) (user_va_base t)
    (user_va_top t) (user_stack_base t) (user_stack_top t) (priority t) (ticks_remaining t)
    (ticks_used t) (cpu_pin t) v (pending_signals t) (signal_mask t) (signal_handler t).
Definition set_pending_signals (v : Z) (t : Task) : Task :=
  mk_task (tid t) (name t) (state t) (sp t) (stack_base t) (stack_size t) (mailbox t)
    (privilege t) (capabilities t) (task_ttbr0 t) (exit_code t) (wait_tid t) (user_va_base t)
    (user_va_top t) (user_stack_base t) (user_stack_top t) (priority t) (ticks_remaining t)
    (ticks_used t) (cpu_pin t) (syscall_filter t) v (signal_mask t) (signal_handler t).
Definition set_signal_mask (v : Z) (t : Task) : Task :=
  mk_task (tid t) (name t) (state t) (sp t) (stack_base t) (stack_size t) (mailbox t)
    (privilege t) (capabilities t) (task_ttbr0 t) (exit_code t) (wait_tid t) (user_va_base t)
    (user_va_top t) (user_stack_base t) (user_stack_top t) (priority t) (ticks_remaining t)
    (ticks_used t) (cpu_pin t) (syscall_filter t) (pending_signals t) v (signal_handler t).
Definition set_signal_handler (v : Z) (t : Task) : Task :=
  mk_task (tid t) (name t) (state t) (sp t) (stack_base t) (stack_size t) (mailbox t)
    (privilege t) (capabilities t) (task_ttbr0 t) (exit_code t) (wait_tid t) (user_va_base t)
    (user_va_top t) (user_stack_base t) (user_stack_top t) (priority t) (ticks_remaining t)
    (ticks_used t) (cpu_pin t) (syscall_filter t) (pending_signals t) (signal_mask t) v.

(** ** Construction *)

(** [name_buf]: the first [NAME_LEN - 1] bytes of [name], zero padded. *)
Definition name_buf (name : list Z) : list Z :=
  let len := Nat.min (length name) (Z.to_nat (NAME_LEN - 1)) in
  take len name ++ replicate (Z.to_nat NAME_LEN - len) 0.

(** The stack pointer of a fresh task: the trap frame at the top of its stack. *)
Definition frame_sp (stack_base stack_size : Z) : Z :=
  let kva_base := phys_to_virt stack_base in
  let stack_top := Z.land (kva_base +u stack_size) (not64 0xF) in
  stack_top -u TRAP_FRAME_SIZE.

(** The stores that build the fake trap frame at [frame]. *)
Definition write_frame (m : machine) (frame elr spsr sp_el0 : Z) : machine :=
  let r := kzero (ram m) (frame + TF_regs) 248 in
  let r := kst 8 r (frame + TF_elr) elr in
  let r := kst 8 r (frame + TF_spsr) spsr in
  let r := kst 8 r (frame + TF_sp_el0) sp_el0 in
  let r := kst 8 r (frame + TF_pad) 0 in
  mk_machine (pg m) r.

(** [Task::new]; [kttbr0] is [vmm::ttbr0()]. *)
Definition Task_new (m : machine) (kttbr0 tid : Z) (name : list Z) (entry stack_base stack_size : Z)
  : Task * machine :=
  let fsp := frame_sp stack_base stack_size in
  (mk_task tid (name_buf name) Ready fsp stack_base stack_size Mailbox_new Kernel
     u64_max kttbr0 0 None 0 0 0 0 1 1 0 None (u64_max, u64_max) 0 0 0,
   write_frame m fsp entry 0x5 0).

Definition Task_new_user (m : machine) (tid : Z) (name : list Z)
    (entry kernel_stack_base kernel_stack_size user_sp caps ttbr0
     user_va_base user_va_top user_stack_base user_stack_top : Z) : Task * machine :=
  let fsp := frame_sp kernel_stack_base kernel_stack_size in
  (mk_task tid (name_buf name) Ready fsp kernel_stack_base kernel_stack_size Mailbox_new User
     caps ttbr0 0 None user_va_base user_va_top user_stack_base user_stack_top
     1 1 0 None (u64_max, u64_max) 0 0 0,
   write_frame m fsp entry 0x0 user_sp).

(** The bytes of [name] up to the first NUL. *)
Fixpoint upto_nul (l : list Z) : list Z :=
  match l with
  | [] => []
  | b :: l' => if b =? 0 then [] else b :: upto_nul l'
  end.

Definition name_str (t : Task) : list Z := upto_nul (name t).
