(* ===== verification/Sched.v ===== *)
(** * The scheduler (kernel/src/process/scheduler.rs)

    The task pool, the per-CPU state and every operation on them.  Each operation
    runs under [SCHED_LOCK] with interrupts masked, so it is one atomic function
    of the kernel state; [cpu] is the value of [get_cpu_id()]. *)

From stdpp Require Import base numbers list gmap strings.
From Stdlib Require Import ZArith Lia.
From S2P Require Import Prelude Machine PageAlloc Vmm Ipc Task.

(** ** State *)

Definition MAX_CPUS : Z := 4.
Definition MAX_TASKS : Z := 16.
Definition NO_TASK : Z := MAX_TASKS.

Definition TASK_STACK_PAGES : Z := 256.
Definition TASK_STACK_SIZE : Z := TASK_STACK_PAGES * PAGE_SIZE.
Definition USER_STACK_PAGES : Z := 64.
Definition USER_STACK_SIZE : Z := USER_STACK_PAGES * PAGE_SIZE.

(** The statics of scheduler.rs, and the memory subsystem they sit on. *)
Record kernel := mk_kernel {
  TASKS : list (option Task);
  CURRENT : list Z;
  CURRENT_TTBR0 : list Z;
  NEXT_TID : Z;
  ACTIVE : bool;
  TOTAL_TICKS : Z;
  IDLE_TICKS : Z;
  kvm : vmm_state;
}.

Definition mach (k : kernel) : machine := vm (kvm k).

Definition with_tasks (l : list (option Task)) (k : kernel) : kernel :=
  mk_kernel l (CURRENT k) (CURRENT_TTBR0 k) (NEXT_TID k) (ACTIVE k) (TOTAL_TICKS k) (IDLE_TICKS k) (kvm k).
Definition with_current (l : list Z) (k : kernel) : kernel :=
  mk_kernel (TASKS k) l (CURRENT_TTBR0 k) (NEXT_TID k) (ACTIVE k) (TOTAL_TICKS k) (IDLE_TICKS k) (kvm k).
Definition with_current_ttbr0 (l : list Z) (k : kernel) : kernel :=
  mk_kernel (TASKS k) (CURRENT k) l (NEXT_TID k) (ACTIVE k) (TOTAL_TICKS k) (IDLE_TICKS k) (kvm k).
Definition with_next_tid (n : Z) (k : kernel) : kernel :=
  mk_kernel (TASKS k) (CURRENT k) (CURRENT_TTBR0 k) n (ACTIVE k) (TOTAL_TICKS k) (IDLE_TICKS k) (kvm k).
Definition with_active (b : bool) (k : kernel) : kernel :=
  mk_kernel (TASKS k) (CURRENT k) (CURRENT_TTBR0 k) (NEXT_TID k) b (TOTAL_TICKS k) (IDLE_TICKS k) (kvm k).
Definition with_ticks (total idle : Z) (k : kernel) : kernel :=
  mk_kernel (TASKS k) (CURRENT k) (CURRENT_TTBR0 k) (NEXT_TID k) (ACTIVE k) total idle (kvm k).
Definition with_mach (m : machine) (k : kernel) : kernel :=
  mk_kernel (TASKS k) (CURRENT k) (CURRENT_TTBR0 k) (NEXT_TID k) (ACTIVE k) (TOTAL_TICKS k) (IDLE_TICKS k)
    (mk_vmm m (L0_pa (kvm k)) (L0_TTBR1_pa (kvm k)) (USER_L0_pa (kvm k)) (TTBR0_ADDR (kvm k))
       (TTBR1_ADDR (kvm k)) (USER_TTBR0_ADDR (kvm k))).

(** The statics before [init]. *)
Definition kernel0 (v : vmm_state) : kernel :=
  mk_kernel (replicate (Z.to_nat MAX_TASKS) None) [0; NO_TASK; NO_TASK; NO_TASK]
    (replicate (Z.to_nat MAX_CPUS) 0) 0 false 0 0 v.

(** ** Access to the pool *)

(** [get_cpu_id().min(MAX_CPUS - 1)]. *)
Definition this_cpu (cpu : Z) : Z := Z.min cpu (MAX_CPUS - 1).

(** [TASKS[i]] for an index the code has bounded by [MAX_TASKS]. *)
Definition task_at (k : kernel) (i : Z) : option Task :=
  match TASKS k !! Z.to_nat i with Some o => o | None => None end.

Definition put_task (i : Z) (o : option Task) (k : kernel) : kernel :=
  with_tasks (<[Z.to_nat i := o]> (TASKS k)) k.

(** [CURRENT[cpu]]. *)
Definition cur_slot (k : kernel) (cpu : Z) : Z :=
  nth (Z.to_nat (this_cpu cpu)) (CURRENT k) NO_TASK.

(** [for i in 0..MAX_TASKS { if p(TASKS[i]) { ...; break } }]: the first slot
    that satisfies [p]. *)
Fixpoint find_slot (p : option Task -> bool) (l : list (option Task)) (i : Z) : option Z :=
  match l with
  | [] => None
  | o :: l' => if p o then Some i else find_slot p l' (i + 1)
  end.

Definition is_free (o : option Task) : bool := match o with None => true | Some _ => false end.
Definition has_tid (t : Z) (o : option Task) : bool :=
  match o with Some x => tid x =? t | None => false end.

Definition free_slot (k : kernel) : option Z := find_slot is_free (TASKS k) 0.
Definition tid_slot (k : kernel) (t : Z) : option Z := find_slot (has_tid t) (TASKS k) 0.

(** The task with id [t] and its slot. *)
Definition find_task (k : kernel) (t : Z) : option (Z * Task) :=
  match tid_slot k t with
  | Some i => match task_at k i with Some x => Some (i, x) | None => None end
  | None => None
  end.

(** [if slot < MAX_TASKS { if let Some(t) = TASKS[slot] ... }] for the current slot. *)
Definition current_task (k : kernel) (cpu : Z) : option (Z * Task) :=
  let slot := cur_slot k cpu in
  if slot <? MAX_TASKS then
    match task_at k slot with Some t => Some (slot, t) | None => None end
  else None.

Definition state_is (s : TaskState) (t : Task) : bool := bool_decide (state t = s).

(** ** Initialisation *)

Definition idle_name (cpu : Z) : list Z :=
  [105; 100; 108; 101; as_u8 (48 + as_u8 cpu)] ++ replicate 11 0.

(** The task literal of [init] and [secondary_idle_init]. *)
Definition idle_task (k : kernel) (t cpu : Z) : Task :=
  mk_task t (idle_name cpu) Running 0 0 0 Mailbox_new Kernel u64_max (ttbr0 (kvm k)) 0 None
    0 0 0 0 1 1 0 (Some cpu) (u64_max, u64_max) 0 0 0.

Definition init (k : kernel) : kernel :=
  let t := NEXT_TID k in
  let k := with_next_tid (NEXT_TID k +u 1) k in
  let k := put_task 0 (Some (idle_task k t 0)) k in
  with_current (<[0%nat := 0]> (CURRENT k)) k.

Definition secondary_idle_init (cpu_id : Z) (k : kernel) : kernel :=
  if (cpu_id =? 0) || (MAX_CPUS <=? cpu_id) then k
  else match free_slot k with
       | Some slot =>
           let t := NEXT_TID k in
           let k := with_next_tid (NEXT_TID k +u 1) k in
           let k := put_task slot (Some (idle_task k t cpu_id)) k in
           with_current (<[Z.to_nat cpu_id := slot]> (CURRENT k)) k
       | None => k
       end.

(** ** Spawning *)

Definition spawn (name : list Z) (entry : Z) (k : kernel) : outcome (result Z string * kernel) :=
  match free_slot k with
  | None => Done (Err "task pool full"%string, k)
  | Some slot =>
      '(r, m) ← alloc_pages (mach k) TASK_STACK_PAGES;
      let k := with_mach m k in
      match r with
      | None => Done (Err "out of memory for task stack"%string, k)
      | Some stack_base =>
          let t := NEXT_TID k in
          let k := with_next_tid (NEXT_TID k +u 1) k in
          let '(task, m) := Task_new (mach k) (ttbr0 (kvm k)) t name entry stack_base TASK_STACK_SIZE in
          let k := put_task slot (Some task) (with_mach m k) in
          Done (Ok t, with_active true k)
      end
  end.

(** The critical section shared by [spawn_user_entry_with_segs] and
    [spawn_user_thread]: take a free slot and install a user task. *)
Definition install_user (name : list Z) (entry kernel_stack user_sp caps ttbr0
    va_base va_top stack_va_base stack_va_top : Z) (k : kernel) : result Z string * kernel :=
  match free_slot k with
  | None => (Err "task pool full"%string, k)
  | Some slot =>
      let t := NEXT_TID k in
      let k := with_next_tid (NEXT_TID k +u 1) k in
      let '(task, m) := Task_new_user (mach k) t name entry kernel_stack TASK_STACK_SIZE
        user_sp caps ttbr0 va_base va_top stack_va_base stack_va_top in
      let k := put_task slot (Some task) (with_mach m k) in
      (Ok t, with_active true k)
  end.

(** The EL0 range of the segments: [va_base] and [va_top]. *)
Definition va_range (segs : list ProcSegment) : Z * Z :=
  let '(b, t) := foldl (fun '(b, t) s =>
    if seg_el0 s && (0 <? seg_size s)
    then (Z.min b (seg_pa s), Z.max t (seg_pa s +u seg_size s)) else (b, t)) (u64_max, 0) segs in
  (if b =? u64_max then 0 else b, t).

Definition spawn_user_entry_with_segs (name : list Z) (entry caps : Z) (segs : list ProcSegment)
    (k : kernel) : outcome (result Z string * kernel) :=
  '(ks, m) ← alloc_pages (mach k) TASK_STACK_PAGES;
  let k := with_mach m k in
  match ks with
  | None => Done (Err "out of memory for kernel stack"%string, k)
  | Some kernel_stack =>
      '(us, m) ← alloc_pages (mach k) USER_STACK_PAGES;
      let k := with_mach m k in
      match us with
      | None => Done (Err "out of memory for user stack"%string, k)
      | Some user_stack =>
          let user_sp := user_stack +u USER_STACK_SIZE in
          let all_segs := take 17 segs ++ [mk_seg user_stack USER_STACK_SIZE true false false] in
          '(ttbr0, m) ← create_process_table (mach k) all_segs;
          let k := with_mach m k in
          let '(va_base, va_top) := va_range segs in
          Done (install_user name entry kernel_stack user_sp caps ttbr0 va_base va_top
                  user_stack (user_stack +u USER_STACK_SIZE) k)
      end
  end.

Definition spawn_user_entry (name : list Z) (entry caps : Z) (k : kernel)
  : outcome (result Z string * kernel) :=
  spawn_user_entry_with_segs name entry caps [] k.

Definition spawn_user (name : list Z) (entry caps : Z) (k : kernel) : outcome (result Z string * kernel) :=
  spawn_user_entry name entry caps k.

Definition spawn_user_thread (name : list Z) (entry user_sp caps ttbr0 : Z) (k : kernel)
  : outcome (result Z string * kernel) :=
  '(ks, m) ← alloc_pages (mach k) TASK_STACK_PAGES;
  let k := with_mach m k in
  match ks with
  | None => Done (Err "out of memory for kernel stack"%string, k)
  | Some kernel_stack => Done (install_user name entry kernel_stack user_sp caps ttbr0 0 0 0 0 k)
  end.

(** ** Core scheduling *)

(** The three eligibility tests of [schedule_next]. *)
Definition pinned_here (cpu : Z) (t : Task) : bool :=
  state_is Ready t && negb (stack_base t =? 0) && bool_decide (cpu_pin t = Some cpu).
Definition migratable (t : Task) : bool :=
  state_is Ready t && negb (stack_base t =? 0) && bool_decide (cpu_pin t = None).
Definition any_ready (cpu : Z) (t : Task) : bool :=
  state_is Ready t && (bool_decide (cpu_pin t = None) || bool_decide (cpu_pin t = Some cpu)).

(** [while i != start { if let Some(t) = TASKS[i] { if p(t) { break } } i = (i+1) % MAX_TASKS }];
    at most [MAX_TASKS] iterations, by [scan_spec]. *)
Fixpoint scan (fuel : nat) (p : Task -> bool) (k : kernel) (i start : Z) : outcome (option Z) :=
  if i =? start then Done None
  else match fuel with
       | O => Panic
       | S fuel' =>
           if match task_at k i with Some t => p t | None => false end then Done (Some i)
           else scan fuel' p k ((i + 1) mod MAX_TASKS) start
       end.

Definition scan_phase (p : Task -> bool) (k : kernel) (start : Z) : outcome (option Z) :=
  scan (Z.to_nat MAX_TASKS) p k ((start + 1) mod MAX_TASKS) start.

(** The three phases: the slot to run next. *)
Definition pick_next (k : kernel) (cpu start : Z) : outcome (option Z) :=
  r1 ← scan_phase (pinned_here cpu) k start;
  match r1 with
  | Some i => Done (Some i)
  | None =>
      r2 ← scan_phase migratable k start;
      match r2 with
      | Some i => Done (Some i)
      | None => scan_phase (any_ready cpu) k start
      end
  end.

(** [while va < top { tlbi vaae1, va >> 12; va += 0x1000 }]; [va] and [top] are
    page aligned, so the loop runs once per page. *)
Definition flush_range (va top : Z) : list tlb_event :=
  (fun i => Tlbi_vaae1 (Z.shiftr (va + Z.of_nat i * 0x1000) 12)) <$> seq 0 (Z.to_nat ((top - va) / 0x1000)).

(** The TTBR0 switch to task [next]: the new [CURRENT_TTBR0] entry and the barrier,
    register and TLB operations. *)
Definition switch_ttbr0 (k : kernel) (cpu : Z) (next : Task) : kernel * list tlb_event :=
  if negb (task_ttbr0 next =? 0) &&
     negb (task_ttbr0 next =? nth (Z.to_nat cpu) (CURRENT_TTBR0 k) 0) then
    let k := with_current_ttbr0 (<[Z.to_nat cpu := task_ttbr0 next]> (CURRENT_TTBR0 k)) k in
    let flush_base := Z.land (user_va_base next) (not64 0xFFF) in
    let flush_top := Z.land (user_va_top next +u 0xFFF) (not64 0xFFF) in
    let stk := if user_stack_base next <? user_stack_top next
      then flush_range (Z.land (user_stack_base next) (not64 0xFFF))
             (Z.land (user_stack_top next +u 0xFFF) (not64 0xFFF))
      else [] in
    (k, [Dsb_sy; Msr_ttbr0 (task_ttbr0 next); Isb] ++ flush_range flush_base flush_top ++ stk ++
        [Dsb_sy; Isb])
  else (k, []).

Definition quantum (t : Task) : Z := Z.max (priority t) 1.

(** The switch to slot [idx] at the end of [schedule_next]. *)
Definition switch_to (k : kernel) (cpu idx current_sp : Z) : Z * kernel * list tlb_event :=
  let k := with_current (<[Z.to_nat cpu := idx]> (CURRENT k)) k in
  match task_at k idx with
  | Some next =>
      let next := set_ticks_remaining (quantum next) (set_state Running next) in
      let k := put_task idx (Some next) k in
      let '(k, ev) := switch_ttbr0 k cpu next in
      (sp next, k, ev)
  | None => (current_sp, k, [])
  end.

(** The tick charged to the running task: the task afterwards, whether its
    quantum expired, and whether it keeps the CPU. *)
Definition charge_tick (current_sp : Z) (t : Task) : Task * bool * bool :=
  let t := set_ticks_used (ticks_used t +u 1) (set_sp current_sp t) in
  if 1 <? ticks_remaining t then
    (set_ticks_remaining (ticks_remaining t - 1) t, false, state_is Running t)
  else if state_is Running t then (set_state Ready t, true, false)
  else (t, true, false).

(** [if let Some(ref mut t) = TASKS[i] { f(t) }] *)
Definition update_slot (i : Z) (f : Task -> Task) (k : kernel) : kernel :=
  match task_at k i with Some t => put_task i (Some (f t)) k | None => k end.

(** [if is_idle { IDLE_TICKS += 1 }] *)
Definition count_idle (cur : option Task) (k : kernel) : kernel :=
  if match cur with Some t => stack_base t =? 0 | None => true end
  then with_ticks (TOTAL_TICKS k) (IDLE_TICKS k +u 1) k else k.

(** The tick on slot [slot]: the new state, [quantum_expired], and whether
    [schedule_next] returns at once. *)
Definition charge_current (slot current_sp : Z) (cur : option Task) (k : kernel) : kernel * bool * bool :=
  match cur with
  | Some t => let '(t', q, s) := charge_tick current_sp t in (put_task slot (Some t') k, q, s)
  | None => (k, false, false)
  end.

Definition stay_current (t : Task) : Task := set_ticks_remaining (quantum t) (set_state Running t).
Definition reset_quantum (t : Task) : Task := set_ticks_remaining (quantum t) t.

Definition schedule_next (cpu current_sp : Z) (k : kernel) : outcome (Z * kernel * list tlb_event) :=
  let cpu := this_cpu cpu in
  if negb (ACTIVE k) then Done (current_sp, k, [])
  else
    let k := with_ticks (TOTAL_TICKS k +u 1) (IDLE_TICKS k) k in
    let slot := cur_slot k cpu in
    if slot =? NO_TASK then Done (current_sp, k, [])
    else
      cur ← arr_get (TASKS k) slot;
      let '(k, quantum_expired, stay) := charge_current slot current_sp cur (count_idle cur k) in
      if stay then Done (current_sp, k, [])
      else
        found ← pick_next k cpu slot;
        match found with
        | None => Done (current_sp, update_slot slot stay_current k, [])
        | Some idx =>
            let k := if quantum_expired then update_slot slot reset_quantum k else k in
            Done (switch_to k cpu idx current_sp)
        end.

(** ** Accessors *)

Definition current_field {A} (f : Task -> A) (d : A) (cpu : Z) (k : kernel) : A :=
  match current_task k cpu with Some (_, t) => f t | None => d end.

Definition current_task_ttbr0 (cpu : Z) (k : kernel) : Z := current_field task_ttbr0 0 cpu k.
Definition current_tid (cpu : Z) (k : kernel) : Z := current_field tid 0 cpu k.
Definition current_caps (cpu : Z) (k : kernel) : Z := current_field capabilities 0 cpu k.
Definition current_slot (cpu : Z) (k : kernel) : Z := cur_slot k cpu.
Definition current_syscall_filter (cpu : Z) (k : kernel) : Z * Z :=
  current_field syscall_filter (u64_max, u64_max) cpu k.
Definition current_signal_handler (cpu : Z) (k : kernel) : Z := current_field signal_handler 0 cpu k.

Definition get_task_caps (t : Z) (k : kernel) : option Z :=
  match find_task k t with Some (_, x) => Some (capabilities x) | None => None end.

Definition get_task_syscall_filter (t : Z) (k : kernel) : option (Z * Z) :=
  match find_task k t with Some (_, x) => Some (syscall_filter x) | None => None end.

(** [if t.tid == tid { f(t); ok = true; break; }] *)
Definition update_task (t : Z) (f : Task -> Task) (k : kernel) : bool * kernel :=
  match find_task k t with
  | Some (i, x) => (true, put_task i (Some (f x)) k)
  | None => (false, k)
  end.

(** The same for the current task. *)
Definition update_current (cpu : Z) (f : Task -> Task) (k : kernel) : kernel :=
  match current_task k cpu with
  | Some (i, x) => put_task i (Some (f x)) k
  | None => k
  end.

Definition set_task_syscall_filter (t : Z) (filter : Z * Z) (k : kernel) : bool * kernel :=
  update_task t (set_syscall_filter filter) k.

Definition set_task_caps (t new_caps : Z) (k : kernel) : bool * kernel :=
  update_task t (set_capabilities new_caps) k.

Definition set_affinity (t cpu : Z) (k : kernel) : bool * kernel :=
  update_task t (set_cpu_pin (if cpu <? MAX_CPUS then Some cpu else None)) k.

Definition set_task_priority (t prio : Z) (k : kernel) : kernel :=
  (update_task t (set_priority (Z.min (Z.max prio 1) 8)) k).2.

Definition task_ticks (t : Z) (k : kernel) : Z * Z :=
  match find_task k t with Some (_, x) => (ticks_used x, priority x) | None => (0, 1) end.

(** ** Signals *)

Definition wake (t : Task) : Task := if state_is Blocked t then set_state Ready t else t.

Definition send_signal (t sig : Z) (k : kernel) : bool * kernel :=
  if 32 <=? sig then (false, k)
  else update_task t
    (fun x => wake (set_pending_signals (Z.lor (pending_signals x) (Z.shiftl 1 sig)) x)) k.

Definition set_signal_handler (cpu handler mask : Z) (k : kernel) : kernel :=
  update_current cpu (fun t => set_signal_mask mask (set_signal_handler handler t)) k.

(** [u32::trailing_zeros]. *)
Fixpoint trailing_zeros (n : nat) (x : Z) : Z :=
  match n with
  | O => 0
  | S n' => if Z.testbit x 0 then 0 else 1 + trailing_zeros n' (Z.shiftr x 1)
  end.

Definition pop_pending_signal (cpu : Z) (k : kernel) : option Z * kernel :=
  match current_task k cpu with
  | Some (i, t) =>
      let deliverable := Z.land (pending_signals t) (not32 (signal_mask t)) in
      if deliverable =? 0 then (None, k)
      else
        let sig := trailing_zeros 32 deliverable in
        (Some sig,
         put_task i (Some (set_pending_signals (Z.land (pending_signals t) (not32 (Z.shiftl 1 sig))) t)) k)
  | None => (None, k)
  end.

Definition swap_signal_mask (cpu new_mask : Z) (k : kernel) : Z * kernel :=
  match current_task k cpu with
  | Some (i, t) => (signal_mask t, put_task i (Some (set_signal_mask new_mask t)) k)
  | None => (0, k)
  end.

(** ** Messages *)

Definition send_message (target : Z) (msg : Message) (k : kernel) : outcome (result unit unit * kernel) :=
  match find_task k target with
  | Some (i, t) =>
      '(r, mb) ← fifo_push (mailbox t) msg;
      let t := set_mailbox mb t in
      match r with
      | Ok _ => Done (Ok tt, put_task i (Some (wake t)) k)
      | Err _ => Done (Err tt, put_task i (Some t) k)
      end
  | None => Done (Err tt, k)
  end.

Definition recv_message (cpu : Z) (k : kernel) : outcome (option Message * kernel) :=
  match current_task k cpu with
  | Some (i, t) =>
      '(r, mb) ← fifo_pop (mailbox t);
      let t := set_mailbox mb t in
      match r with
      | Some msg => Done (Some msg, put_task i (Some t) k)
      | None => Done (None, put_task i (Some (set_state Blocked t)) k)
      end
  | None => Done (None, k)
  end.

Definition try_recv_message (cpu : Z) (k : kernel) : outcome (option Message * kernel) :=
  match current_task k cpu with
  | Some (i, t) =>
      '(r, mb) ← fifo_pop (mailbox t);
      Done (r, put_task i (Some (set_mailbox mb t)) k)
  | None => Done (None, k)
  end.

(** ** Yield, exit and wait *)

Definition yield_cpu (cpu : Z) (k : kernel) : kernel := update_current cpu (set_state Ready) k.

(** One waiter woken by an exit: with [code], [x0] of its saved frame is written. *)
Definition wake_waiter (my_tid : Z) (o : option Task) : option Task :=
  match o with
  | Some t => if bool_decide (wait_tid t = Some my_tid)
              then Some (set_state Ready (set_wait_tid None t)) else Some t
  | None => None
  end.

Definition write_x0 (my_tid code : Z) (o : option Task) (m : machine) : machine :=
  match o with
  | Some t => if bool_decide (wait_tid t = Some my_tid)
              then mk_machine (pg m) (kst 8 (ram m) (sp t + TF_regs) (as_u64 code)) else m
  | None => m
  end.

Definition exit_task (cpu code : Z) (k : kernel) : kernel :=
  let my_tid := current_tid cpu k in
  let k := update_current cpu (fun t => set_exit_code code (set_state Dead t)) k in
  let m := foldl (fun m o => write_x0 my_tid code o m) (mach k) (TASKS k) in
  with_mach m (with_tasks (wake_waiter my_tid <$> TASKS k) k).

Definition force_exit (t code : Z) (k : kernel) : bool * kernel :=
  match find_task k t with
  | Some (i, x) =>
      let k := put_task i (Some (set_exit_code code (set_state Dead x))) k in
      (true, with_tasks (wake_waiter (tid x) <$> TASKS k) k)
  | None => (false, k)
  end.

Definition wait_for_tid (cpu target : Z) (k : kernel) : outcome (option Z * kernel) :=
  match find_task k target with
  | Some (i, t) =>
      if state_is Dead t then
        let k := put_task i None k in
        if negb (stack_base t =? 0) && negb (stack_size t =? 0) then
          p ← release_pages (pg (mach k)) (stack_base t) (stack_size t / PAGE_SIZE);
          Done (Some (exit_code t), with_mach (mk_machine p (ram (mach k))) k)
        else Done (Some (exit_code t), k)
      else
        Done (None, update_current cpu (fun c => set_wait_tid (Some target) (set_state Blocked c)) k)
  | None => Done (Some (-1), k)
  end.

(** ** Statistics *)

Record TaskRecord := mk_record {
  rec_tid : Z;
  rec_caps : Z;
  rec_name : list Z;
}.

(** The first [len] tasks of the pool. *)
Definition list_tasks (len : nat) (k : kernel) : list TaskRecord :=
  take len (omap (fun o => match o with
                           | Some t => Some (mk_record (tid t) (capabilities t) (name t))
                           | None => None
                           end) (TASKS k)).

Definition task_count (k : kernel) : Z :=
  Z.of_nat (length (filter (fun o => is_free o = false) (TASKS k))).

Definition idle_ticks (k : kernel) : Z := IDLE_TICKS k.
Definition total_ticks (k : kernel) : Z := TOTAL_TICKS k.
