(* ===== verification/SchedInv.v ===== *)
(** * The scheduler invariant

    Well-formedness of the task pool and its preservation by every operation of
    [Sched], so that no sequence of operations hits an index panic, reuses a task
    id or corrupts a mailbox. *)

From stdpp Require Import base numbers list gmap strings.
From Stdlib Require Import ZArith Lia.
From S2P Require Import Prelude Machine PageAlloc Vmm VmmProofs Ipc Task Sched.

(** ** Searching the pool *)

Lemma find_slot_some p l i j : find_slot p l i = Some j ->
  i <= j < i + Z.of_nat (length l) /\
  (exists o, l !! Z.to_nat (j - i) = Some o /\ p o = true) /\
  (forall n o, Z.of_nat n < j - i -> l !! n = Some o -> p o = false).
Proof.
  revert i. induction l as [|o l IH]; intros i; [done|]. cbn [find_slot length].
  destruct (p o) eqn:E.
  - intros [= <-]. rewrite Z.sub_diag. split; [lia|]. split; [by exists o|]. lia.
  - intros (H1 & (o' & H2 & H3) & H4)%IH. split; [lia|]. split.
    + exists o'. split; [|done]. replace (Z.to_nat (j - i)) with (S (Z.to_nat (j - (i + 1)))) by lia. done.
    + intros [|n] o'' Hn; [by intros [= ->]|]. simpl. apply H4. lia.
Qed.

Lemma find_slot_none p l i : find_slot p l i = None -> forall n o, l !! n = Some o -> p o = false.
Proof.
  revert i. induction l as [|o l IH]; intros i; [done|]. cbn [find_slot].
  destruct (p o) eqn:E; [done|]. intros H [|n] o'; [by intros [= ->]|]. apply (IH _ H).
Qed.

(** ** The invariant *)

Definition mail_ok (t : Task) : Prop := exists l, fifo_rep (mailbox t) l.

Record sched_wf (k : kernel) : Prop := {
  wf_tasks : length (TASKS k) = 16%nat;
  wf_current : length (CURRENT k) = 4%nat;
  wf_slots : Forall (fun s => 0 <= s <= NO_TASK) (CURRENT k);
  wf_ttbrs : length (CURRENT_TTBR0 k) = 4%nat;
  wf_next : 0 <= NEXT_TID k < 2 ^ 64;
  wf_tid : forall i t, TASKS k !! i = Some (Some t) -> 0 <= tid t < NEXT_TID k;
  wf_uniq : forall i j t t', TASKS k !! i = Some (Some t) -> TASKS k !! j = Some (Some t') ->
    tid t = tid t' -> i = j;
  wf_mail : forall i t, TASKS k !! i = Some (Some t) -> mail_ok t;
  wf_pages : pages_wf (pg (mach k));
}.

Lemma task_at_some k i t : task_at k i = Some t <-> TASKS k !! Z.to_nat i = Some (Some t).
Proof. unfold task_at. destruct (TASKS k !! Z.to_nat i) as [o|]; naive_solver. Qed.

Lemma find_task_some k t i x : find_task k t = Some (i, x) ->
  0 <= i < Z.of_nat (length (TASKS k)) /\ TASKS k !! Z.to_nat i = Some (Some x) /\ tid x = t.
Proof.
  unfold find_task, tid_slot. destruct (find_slot _ _ _) as [j|] eqn:E; [|done].
  apply find_slot_some in E as (Hr & (o & Ho & Hp) & _). rewrite Z.sub_0_r in Ho.
  destruct (task_at k j) as [y|] eqn:Ey; [|done]. intros [= <- <-].
  apply task_at_some in Ey. split; [lia|]. split; [done|].
  rewrite Ho in Ey. injection Ey as ->. by apply Z.eqb_eq.
Qed.

Lemma find_task_none k t : find_task k t = None ->
  forall i x, TASKS k !! i = Some (Some x) -> tid x <> t.
Proof.
  unfold find_task, tid_slot. destruct (find_slot _ _ _) as [j|] eqn:E.
  - apply find_slot_some in E as (Hr & (o & Ho & Hp) & _). rewrite Z.sub_0_r in Ho.
    unfold task_at. rewrite Ho. destruct o; done.
  - intros _ i x Hx. pose proof (find_slot_none _ _ _ E _ _ Hx) as H. by apply Z.eqb_neq.
Qed.

Lemma find_task_unique k t i x : sched_wf k -> TASKS k !! i = Some (Some x) -> tid x = t ->
  find_task k t = Some (Z.of_nat i, x).
Proof.
  intros Hwf Hx Ht. destruct (find_task k t) as [[j y]|] eqn:E.
  - apply find_task_some in E as (Hj & Hy & Hty).
    assert (i = Z.to_nat j) as -> by (eapply (wf_uniq _ Hwf); [done..|congruence]).
    rewrite Z2Nat.id by lia. congruence.
  - by destruct (find_task_none _ _ E _ _ Hx).
Qed.

Lemma cur_slot_range k cpu : sched_wf k -> 0 <= cpu -> 0 <= cur_slot k cpu <= NO_TASK.
Proof.
  intros Hwf Hc. unfold cur_slot, this_cpu, MAX_CPUS.
  apply (proj1 (Forall_nth (fun s => 0 <= s <= NO_TASK) NO_TASK (CURRENT k)) (wf_slots _ Hwf)).
  rewrite (wf_current _ Hwf). lia.
Qed.

Lemma current_task_some k cpu i t : sched_wf k -> 0 <= cpu -> current_task k cpu = Some (i, t) ->
  i = cur_slot k cpu /\ 0 <= i < 16 /\ TASKS k !! Z.to_nat i = Some (Some t).
Proof.
  intros Hwf Hc. unfold current_task. pose proof (cur_slot_range k cpu Hwf Hc).
  destruct (Z.ltb_spec (cur_slot k cpu) MAX_TASKS); [|done].
  destruct (task_at k _) eqn:E; [|done]. intros [= <- <-]. apply task_at_some in E.
  unfold MAX_TASKS in *. split; [done|]. split; [lia|done].
Qed.

(** ** Preservation by the building blocks *)

Lemma lookup_insert_task (l : list (option Task)) n o i t :
  <[n := o]> l !! i = Some (Some t) -> (i = n /\ o = Some t) \/ (i <> n /\ l !! i = Some (Some t)).
Proof. rewrite list_lookup_insert. case_decide as H; intros E; [left|right]; [|destruct (decide (n = i)) as [->|]]; [naive_solver| |naive_solver].
  exfalso. apply H. split; [done|]. by apply lookup_lt_is_Some_1. Qed.

(** Overwriting a task by one with the same id. *)
Lemma wf_put_same k i t t' :
  sched_wf k -> TASKS k !! Z.to_nat i = Some (Some t) -> tid t' = tid t -> mail_ok t' ->
  sched_wf (put_task i (Some t') k).
Proof.
  intros Hwf Ht Htid Hm. pose proof Hwf as [H1 H2 H3 H4 H5 H6 H7 H8 H9].
  constructor; cbn -[insert]; try done.
  - by rewrite length_insert.
  - intros j x [[-> [= <-]]|[_ Hx]]%lookup_insert_task; [rewrite Htid|]; by eapply H6.
  - intros j j' x x' [[-> [= <-]]|[Hj Hx]]%lookup_insert_task
      [[-> [= <-]]|[Hj' Hx']]%lookup_insert_task E; try done.
    + apply (H7 _ _ t x'); [done..|congruence].
    + apply (H7 _ _ x t); [done..|congruence].
    + by eapply H7.
  - intros j x [[-> [= <-]]|[_ Hx]]%lookup_insert_task; [done|by eapply H8].
Qed.

Lemma wf_put_none k i : sched_wf k -> sched_wf (put_task i None k).
Proof.
  intros [H1 H2 H3 H4 H5 H6 H7 H8 H9]. constructor; cbn -[insert]; try done.
  - by rewrite length_insert.
  - intros j x [[-> [=]]|[_ Hx]]%lookup_insert_task. by eapply H6.
  - intros j j' x x' [[-> [=]]|[Hj Hx]]%lookup_insert_task [[-> [=]]|[Hj' Hx']]%lookup_insert_task E.
    by eapply H7.
  - intros j x [[-> [=]]|[_ Hx]]%lookup_insert_task. by eapply H8.
Qed.

(** Installing a task under the next id. *)
Lemma wf_put_new k i t :
  sched_wf k -> NEXT_TID k + 1 < 2 ^ 64 -> tid t = NEXT_TID k -> mail_ok t ->
  sched_wf (put_task i (Some t) (with_next_tid (NEXT_TID k +u 1) k)).
Proof.
  intros [H1 H2 H3 H4 H5 H6 H7 H8 H9] Hn Ht Hm.
  rewrite as_u64_small by (unfold is_u64; lia). constructor; cbn -[insert]; try (done || lia).
  - by rewrite length_insert.
  - intros j x [[-> [= <-]]|[_ Hx]]%lookup_insert_task; [lia|]. pose proof (H6 _ _ Hx). lia.
  - intros j j' x x' [[-> [= <-]]|[Hj Hx]]%lookup_insert_task
      [[-> [= <-]]|[Hj' Hx']]%lookup_insert_task E; try done.
    + pose proof (H6 _ _ Hx'). lia.
    + pose proof (H6 _ _ Hx). lia.
    + by eapply H7.
  - intros j x [[-> [= <-]]|[_ Hx]]%lookup_insert_task; [done|by eapply H8].
Qed.

Lemma wf_with_mach k m : sched_wf k -> pages_wf (pg m) -> sched_wf (with_mach m k).
Proof. intros [] ?. by constructor. Qed.

Lemma wf_with_active k b : sched_wf k -> sched_wf (with_active b k).
Proof. intros []. by constructor. Qed.

Lemma wf_with_ticks k a b : sched_wf k -> sched_wf (with_ticks a b k).
Proof. intros []. by constructor. Qed.

Lemma wf_with_current k i s : sched_wf k -> 0 <= s <= NO_TASK ->
  sched_wf (with_current (<[i := s]> (CURRENT k)) k).
Proof.
  intros [] Hs. constructor; cbn -[insert]; try done; [by rewrite length_insert|].
  by apply Forall_insert.
Qed.

Lemma wf_with_ttbr0 k i v : sched_wf k ->
  sched_wf (with_current_ttbr0 (<[i := v]> (CURRENT_TTBR0 k)) k).
Proof. intros []. constructor; cbn -[insert]; try done. by rewrite length_insert. Qed.

(** A map over the pool that keeps ids and mailboxes. *)
Lemma wf_map_tasks k f : sched_wf k -> f None = None ->
  (forall t, exists t', f (Some t) = Some t' /\ tid t' = tid t /\ mailbox t' = mailbox t) ->
  sched_wf (with_tasks (f <$> TASKS k) k).
Proof.
  intros [H1 H2 H3 H4 H5 H6 H7 H8 H9] HN Hf.
  assert (Hl : forall i t, (f <$> TASKS k) !! i = Some (Some t) ->
    exists t0, TASKS k !! i = Some (Some t0) /\ tid t = tid t0 /\ mailbox t = mailbox t0).
  { intros i t. rewrite list_lookup_fmap. destruct (TASKS k !! i) as [[t0|]|]; simpl; [|by rewrite HN|done].
    intros [= E]. destruct (Hf t0) as (t' & Ht' & ? & ?). exists t0. split; [done|]. split; congruence. }
  constructor; cbn -[insert]; try done.
  - by rewrite length_fmap.
  - intros i t (t0 & Ht0 & -> & _)%Hl. by eapply H6.
  - intros i j t t' (t0 & Ht0 & -> & _)%Hl (t1 & Ht1 & -> & _)%Hl. by apply H7.
  - intros i t (t0 & Ht0 & _ & E)%Hl. unfold mail_ok. rewrite E. by eapply H8.
Qed.

Create HintDb sched.
#[export] Hint Resolve wf_with_mach wf_with_active wf_with_ticks wf_with_current wf_with_ttbr0
  wf_put_none : sched.

(** ** The round-robin scan *)

Definition eligible (p : Task -> bool) (k : kernel) (i : Z) : bool :=
  match task_at k i with Some t => p t | None => false end.

(** The slots after [start], in cyclic order, [start] itself excluded. *)
Definition rr_order (start : Z) : list Z :=
  (fun d => (start + Z.of_nat d) mod MAX_TASKS) <$> seq 1 15.

Lemma scan_ok p k start n d fuel : 0 <= start < 16 -> (d + n = 16)%nat -> (1 <= d)%nat -> (n <= fuel)%nat ->
  scan fuel p k ((start + Z.of_nat d) mod MAX_TASKS) start =
  Done (List.find (eligible p k) ((fun d => (start + Z.of_nat d) mod MAX_TASKS) <$> seq d n)).
Proof.
  intros Hs. revert d fuel. induction n as [|n IH]; intros d fuel Hd H1 Hf.
  - replace (start + Z.of_nat d) with (start + 1 * MAX_TASKS) by (unfold MAX_TASKS; lia).
    rewrite Z.mod_add, Z.mod_small by (unfold MAX_TASKS; lia). destruct fuel; simpl; by rewrite Z.eqb_refl.
  - destruct fuel as [|fuel]; [lia|]. cbn [scan seq fmap list_fmap List.find].
    rewrite (proj2 (Z.eqb_neq _ _)).
    2: { unfold MAX_TASKS. pose proof (Z.div_mod (start + Z.of_nat d) 16 ltac:(lia)). lia. }
    fold (eligible p k ((start + Z.of_nat d) mod MAX_TASKS)).
    destruct (eligible _ _ _); [done|]. rewrite Zplus_mod_idemp_l.
    replace (start + Z.of_nat d + 1) with (start + Z.of_nat (S d)) by lia. apply IH; lia.
Qed.

Lemma scan_phase_ok p k start : 0 <= start < 16 ->
  scan_phase p k start = Done (List.find (eligible p k) (rr_order start)).
Proof. intros Hs. apply (scan_ok p k start 15 1); [done|lia|lia|unfold MAX_TASKS; lia]. Qed.

(** The specification of the choice: pinned tasks first, then migratable ones,
    then anything ready that may run here; round robin within each class. *)
Definition pick_spec (k : kernel) (cpu start : Z) : option Z :=
  match List.find (eligible (pinned_here cpu) k) (rr_order start) with
  | Some i => Some i
  | None => match List.find (eligible migratable k) (rr_order start) with
            | Some i => Some i
            | None => List.find (eligible (any_ready cpu) k) (rr_order start)
            end
  end.

Lemma pick_next_ok k cpu start : 0 <= start < 16 ->
  pick_next k cpu start = Done (pick_spec k cpu start).
Proof.
  intros Hs. unfold pick_next, pick_spec. rewrite !scan_phase_ok by done. cbn [mbind outcome_bind].
  destruct (List.find (eligible (pinned_here cpu) k) _); [done|].
  by destruct (List.find (eligible migratable k) _).
Qed.

Lemma rr_order_spec start i : 0 <= start < 16 -> i ∈ rr_order start <-> 0 <= i < 16 /\ i <> start.
Proof.
  intros Hs. unfold rr_order. rewrite list_elem_of_fmap. unfold MAX_TASKS. split.
  - intros (d & -> & Hd%elem_of_seq). pose proof (Z.mod_pos_bound (start + Z.of_nat d) 16 ltac:(lia)).
    pose proof (Z.div_mod (start + Z.of_nat d) 16 ltac:(lia)). lia.
  - intros [Hi Hne]. exists (Z.to_nat ((i - start) mod 16)).
    pose proof (Z.mod_pos_bound (i - start) 16 ltac:(lia)).
    pose proof (Z.div_mod (i - start) 16 ltac:(lia)).
    rewrite Z2Nat.id, Zplus_mod_idemp_r by lia. replace (start + (i - start)) with i by lia.
    rewrite Z.mod_small by lia. split; [done|]. apply elem_of_seq. lia.
Qed.

Lemma eligible_mono (p q : Task -> bool) k i :
  (forall t, p t = true -> q t = true) -> eligible p k i = true -> eligible q k i = true.
Proof. unfold eligible. destruct (task_at k i); auto. Qed.

Lemma pinned_any cpu t : pinned_here cpu t = true -> any_ready cpu t = true.
Proof. unfold pinned_here, any_ready. intros [[-> _]%andb_prop ->]%andb_prop. by rewrite orb_true_r. Qed.

Lemma migratable_any cpu t : migratable t = true -> any_ready cpu t = true.
Proof. unfold migratable, any_ready. by intros [[-> _]%andb_prop ->]%andb_prop. Qed.

(** What every chosen slot satisfies. *)
Lemma pick_spec_any k cpu start i : 0 <= start < 16 -> pick_spec k cpu start = Some i ->
  0 <= i < 16 /\ i <> start /\ eligible (any_ready cpu) k i = true.
Proof.
  intros Hs Hp.
  assert (H : In i (rr_order start) /\ eligible (any_ready cpu) k i = true).
  { unfold pick_spec in Hp.
    destruct (List.find (eligible (pinned_here cpu) k) _) eqn:E.
    { injection Hp as ->. apply find_some in E as [Hin E]. split; [done|].
      eapply eligible_mono; [apply pinned_any|done]. }
    destruct (List.find (eligible migratable k) _) eqn:E'; [|by apply find_some].
    injection Hp as ->. apply find_some in E' as [Hin E']. split; [done|].
    eapply eligible_mono; [apply migratable_any|done]. }
  destruct H as [Hin%list_elem_of_In He]. apply rr_order_spec in Hin; tauto.
Qed.

(** ** Preservation by the operations *)

Lemma find_slot_range k i p : sched_wf k -> find_slot p (TASKS k) 0 = Some i -> 0 <= i < 16.
Proof. intros Hwf E. apply find_slot_some in E as [H _]. rewrite (wf_tasks _ Hwf) in H. lia. Qed.

Lemma mail_ok_new t : mailbox t = Mailbox_new -> mail_ok t.
Proof. intros E. exists []. rewrite E. apply (@fifo_new_spec Mailbox Message 8 _ mailbox_fifo). Qed.

Lemma wf_update_task k t f :
  sched_wf k -> (forall x, tid (f x) = tid x /\ mailbox (f x) = mailbox x) ->
  sched_wf (update_task t f k).2.
Proof.
  intros Hwf Hf. unfold update_task. destruct (find_task k t) as [[i x]|] eqn:E; [|done].
  apply find_task_some in E as (_ & Hx & _). destruct (Hf x) as [H1 H2].
  eapply wf_put_same; [done..|]. unfold mail_ok. rewrite H2. by eapply wf_mail.
Qed.

Lemma wf_update_current k cpu f :
  sched_wf k -> 0 <= cpu -> (forall x, tid (f x) = tid x /\ mailbox (f x) = mailbox x) ->
  sched_wf (update_current cpu f k).
Proof.
  intros Hwf Hc Hf. unfold update_current.
  destruct (current_task k cpu) as [[i x]|] eqn:E; [|done].
  apply current_task_some in E as (_ & _ & Hx); [|done..]. destruct (Hf x) as [H1 H2].
  eapply wf_put_same; [done..|]. unfold mail_ok. rewrite H2. by eapply wf_mail.
Qed.

Lemma init_tasks v i t : TASKS (init (kernel0 v)) !! i = Some (Some t) ->
  i = O /\ t = idle_task (kernel0 v) 0 0.
Proof.
  change (TASKS (init (kernel0 v))) with (Some (idle_task (kernel0 v) 0 0) :: replicate 15 None).
  destruct i as [|i]; [by intros [= <-]|].
  change (replicate 15 (None : option Task) !! i = Some (Some t) -> S i = 0%nat /\ t = idle_task (kernel0 v) 0 0). intros H%lookup_replicate. by destruct H.
Qed.

Lemma wf_init v : pages_wf (pg (vm v)) -> sched_wf (init (kernel0 v)).
Proof.
  intros Hv. constructor; try done.
  - repeat constructor; done.
  - intros i t [-> ->]%init_tasks. done.
  - intros i j t t' [-> _]%init_tasks [-> _]%init_tasks. done.
  - intros i t [-> ->]%init_tasks. by apply mail_ok_new.
Qed.

Lemma wf_secondary k cpu : sched_wf k -> NEXT_TID k + 1 < 2 ^ 64 -> 0 <= cpu ->
  sched_wf (secondary_idle_init cpu k).
Proof.
  intros Hwf Hn Hc. unfold secondary_idle_init. destruct (_ || _); [done|].
  destruct (free_slot k) as [i|] eqn:E; [|done]. apply find_slot_range in E; [|done].
  apply wf_with_current; [|unfold NO_TASK, MAX_TASKS; lia].
  by apply wf_put_new; [..|apply mail_ok_new].
Qed.

(** The installation of a new task that ends every spawn. *)
Lemma wf_spawned k i t m : sched_wf k -> NEXT_TID k + 1 < 2 ^ 64 -> tid t = NEXT_TID k ->
  mailbox t = Mailbox_new -> pages_wf (pg m) ->
  sched_wf (with_active true (put_task i (Some t) (with_mach m (with_next_tid (NEXT_TID k +u 1) k)))).
Proof.
  intros Hwf Hn Ht Hm Hp. apply wf_with_active.
  apply (wf_with_mach (put_task i (Some t) (with_next_tid (NEXT_TID k +u 1) k))); [|done].
  by apply wf_put_new; [..|apply mail_ok_new].
Qed.

Lemma wf_install k name entry ks usp caps tb a b c d : sched_wf k -> NEXT_TID k + 1 < 2 ^ 64 ->
  sched_wf (install_user name entry ks usp caps tb a b c d k).2.
Proof.
  intros Hwf Hn. unfold install_user. destruct (free_slot k) as [i|] eqn:E; [|done].
  by apply wf_spawned; [..|apply Hwf].
Qed.

(** An allocation keeps the allocator and takes at most [count] pages. *)
Lemma alloc_pages_nfree m count : pages_wf (pg m) -> 0 < count < 2 ^ 64 ->
  exists r m', alloc_pages m count = Done (r, m') /\ pages_wf (pg m') /\ nfree m - count <= nfree m'.
Proof.
  intros Hwf Hc. destruct (alloc_pages_correct m count Hwf Hc) as (r & m' & E & Hs & Hwf').
  exists r, m'. split; [done|]. split; [done|]. destruct r as [a|]; [|destruct Hs as [-> _]; lia].
  destruct Hs as (s & (Hs & Hle & Hrun & _) & _ & _ & Hg2 & _ & Hfree & _).
  pose proof (wf_num _ Hwf). unfold nfree. rewrite Hg2.
  pose proof (free_count_run (BITMAP (pg m)) (BITMAP (pg m')) s count
    (Z.to_nat (NUM_PAGES (pg m))) Hs ltac:(lia) Hrun Hfree). lia.
Qed.

Lemma with_mach_next m k : NEXT_TID (with_mach m k) = NEXT_TID k.
Proof. done. Qed.

Lemma spawn_ok name entry k : sched_wf k -> NEXT_TID k + 1 < 2 ^ 64 ->
  exists r k', spawn name entry k = Done (r, k') /\ sched_wf k'.
Proof.
  intros Hwf Hn. unfold spawn. destruct (free_slot k) as [i|]; [|by eexists _, _].
  destruct (alloc_pages_nfree (mach k) TASK_STACK_PAGES (wf_pages _ Hwf)) as (r & m & -> & Hm & _); [done|].
  cbn [mbind outcome_bind]. destruct r as [base|]; eexists _, _; (split; [reflexivity|]);
    [|by apply wf_with_mach].
  by apply (wf_spawned (with_mach m k)); [apply wf_with_mach|..].
Qed.

Lemma spawn_user_thread_ok name entry usp caps tb k : sched_wf k -> NEXT_TID k + 1 < 2 ^ 64 ->
  exists r k', spawn_user_thread name entry usp caps tb k = Done (r, k') /\ sched_wf k'.
Proof.
  intros Hwf Hn. unfold spawn_user_thread.
  destruct (alloc_pages_nfree (mach k) TASK_STACK_PAGES (wf_pages _ Hwf)) as (r & m & -> & Hm & _); [done|].
  cbn [mbind outcome_bind]. destruct r as [base|]; [|eexists _, _; by split; [|apply wf_with_mach]].
  destruct (install_user _ _ _ _ _ _ _ _ _ _ _) as [r' k'] eqn:E. exists r', k'. split; [done|].
  replace k' with (install_user name entry base usp caps tb 0 0 0 0 (with_mach m k)).2 by (by rewrite E).
  by apply wf_install; [apply wf_with_mach|].
Qed.

(** Free pages that suffice for both stacks and the process table. *)
Definition user_pages (segs : list ProcSegment) : Z :=
  TASK_STACK_PAGES + USER_STACK_PAGES + 1 + 3 * (total_seg_pages (take 17 segs) + USER_STACK_PAGES).

Lemma total_seg_pages_app l l' : total_seg_pages (l ++ l') = total_seg_pages l + total_seg_pages l'.
Proof. induction l as [|s l IH]; cbn [total_seg_pages app]; rewrite ?IH; lia. Qed.

Lemma stack_seg_ok p a : pages_wf p -> 0 <= a -> a + USER_STACK_SIZE <= MAX_RAM_END ->
  a mod 4096 = 0 ->
  seg_ok (mk_seg a USER_STACK_SIZE true false false) /\
  total_seg_pages [mk_seg a USER_STACK_SIZE true false false] = USER_STACK_PAGES.
Proof.
  intros Hwf Ha Hle Hm. split; [unfold seg_ok, MAX_RAM_END, USER_STACK_SIZE, USER_STACK_PAGES, PAGE_SIZE in *;
    cbn [seg_pa seg_size]; lia|].
  cbn [total_seg_pages]. unfold seg_pages, page_count. cbn [seg_size seg_pa]. by rewrite Hm.
Qed.

Lemma alloc_addr m count a m' : pages_wf (pg m) -> 0 < count < 2 ^ 64 ->
  alloc_pages m count = Done (Some a, m') ->
  0 <= a /\ a + count * PAGE_SIZE <= MAX_RAM_END /\ a mod 4096 = 0.
Proof.
  intros Hwf Hc E. destruct (alloc_pages_correct m count Hwf Hc) as (r & m1 & E1 & Hs & _).
  rewrite E in E1. injection E1 as <- <-. destruct Hs as (s & (Hs & Hle & _) & -> & _).
  destruct Hwf as [H1 H2 H3 H4 H5 H6]. unfold page_addr, PAGE_SIZE in *.
  split; [lia|]. split; [nia|]. by rewrite Z.mod_add by lia.
Qed.

Lemma spawn_user_entry_ok name entry caps segs k :
  sched_wf k -> NEXT_TID k + 1 < 2 ^ 64 -> Forall seg_ok segs -> user_pages segs <= nfree (mach k) ->
  exists r k', spawn_user_entry_with_segs name entry caps segs k = Done (r, k') /\ sched_wf k'.
Proof.
  intros Hwf Hn Hsegs Hfree. unfold spawn_user_entry_with_segs, user_pages in *.
  destruct (alloc_pages_nfree (mach k) TASK_STACK_PAGES (wf_pages _ Hwf)) as (r & m & -> & Hm & Hn1); [done|].
  cbn [mbind outcome_bind]. destruct r as [ks|]; [|eexists _, _; by split; [|apply wf_with_mach]].
  change (mach (with_mach m k)) with m.
  destruct (alloc_pages_nfree m USER_STACK_PAGES Hm) as (r & m2 & E2 & Hm2 & Hn2); [done|].
  rewrite E2. cbn [mbind outcome_bind].
  destruct r as [us|]; [|eexists _, _; by split; [|apply wf_with_mach, Hm2; apply wf_with_mach]].
  destruct (alloc_addr m USER_STACK_PAGES us m2 Hm ltac:(done) E2) as (Ha & Hle & Hmod).
  destruct (stack_seg_ok (pg m2) us Hm2 Ha Hle Hmod) as [Hok Htot].
  change (mach (with_mach m2 _)) with m2.
  destruct (create_process_table_ok m2 (take 17 segs ++ [mk_seg us USER_STACK_SIZE true false false]))
    as (root & m3 & -> & Hm3 & _); [done| | |].
  { apply Forall_app. split; [by apply Forall_take|]. by apply Forall_singleton. }
  { rewrite total_seg_pages_app, Htot. lia. }
  cbn [mbind outcome_bind]. destruct (va_range segs) as [vb vt].
  match goal with |- context [Done (install_user ?a ?b ?c ?d ?e ?f ?g ?h ?i ?j ?k)] =>
    destruct (install_user a b c d e f g h i j k) as [r' k'] eqn:E;
    exists r', k'; split; [done|];
    replace k' with (install_user a b c d e f g h i j k).2 by (by rewrite E) end.
  apply wf_install; [|done]. apply wf_with_mach, Hm3. apply wf_with_mach, Hm2. by apply wf_with_mach.
Qed.

Lemma send_message_ok target msg k : sched_wf k ->
  exists r k', send_message target msg k = Done (r, k') /\ sched_wf k'.
Proof.
  intros Hwf. unfold send_message. destruct (find_task k target) as [[i t]|] eqn:E; [|by eexists _, _].
  apply find_task_some in E as (_ & Ht & _). destruct (wf_mail _ Hwf _ _ Ht) as [l Hl].
  destruct (mail_step_refines (mailbox t) l (Push msg) Hl) as (q & Hq & Hr). cbn [mail_step] in Hq.
  destruct (fifo_push (mailbox t) msg) as [[r mb]|]; [|done]. cbn [mbind outcome_bind] in *.
  injection Hq as _ ->. destruct r; eexists _, _; (split; [reflexivity|]);
    (eapply wf_put_same; [done|done| |]); unfold wake; try case_match; done || by eexists.
Qed.

Lemma recv_ok cpu k : sched_wf k -> 0 <= cpu ->
  (exists r k', recv_message cpu k = Done (r, k') /\ sched_wf k') /\
  (exists r k', try_recv_message cpu k = Done (r, k') /\ sched_wf k').
Proof.
  intros Hwf Hc. unfold recv_message, try_recv_message.
  destruct (current_task k cpu) as [[i t]|] eqn:E; [|by split; eexists _, _].
  apply current_task_some in E as (_ & _ & Ht); [|done..]. destruct (wf_mail _ Hwf _ _ Ht) as [l Hl].
  destruct (mail_step_refines (mailbox t) l Pop Hl) as (q & Hq & Hr). cbn [mail_step] in Hq.
  destruct (fifo_pop (mailbox t)) as [[r mb]|]; [|done]. cbn [mbind outcome_bind] in *.
  injection Hq as _ ->. split; [destruct r|]; eexists _, _; (split; [reflexivity|]);
    (eapply wf_put_same; [done|done|done|]); by eexists.
Qed.

Lemma wf_wake_waiters k t : sched_wf k -> sched_wf (with_tasks (wake_waiter t <$> TASKS k) k).
Proof.
  intros Hwf. apply wf_map_tasks; [done..|]. intros x. unfold wake_waiter. case_match; by eexists.
Qed.

Lemma exit_task_ok cpu code k : sched_wf k -> 0 <= cpu -> sched_wf (exit_task cpu code k).
Proof.
  intros Hwf Hc. unfold exit_task.
  apply wf_with_mach; [by apply wf_wake_waiters, wf_update_current|].
  set (k1 := update_current _ _ k). assert (Hp : pages_wf (pg (mach k1))) by (by apply wf_pages, wf_update_current).
  set (m := mach k1) in *. clearbody m. generalize (TASKS k1). intros l. revert m Hp.
  induction l as [|o l IH]; intros m Hp; [done|]. simpl. apply IH. unfold write_x0.
  destruct o; [|done]. by case_match.
Qed.

Lemma force_exit_ok t code k : sched_wf k -> sched_wf (force_exit t code k).2.
Proof.
  intros Hwf. unfold force_exit. destruct (find_task k t) as [[i x]|] eqn:E; [|done].
  apply find_task_some in E as (_ & Hx & _). simpl.
  apply (wf_wake_waiters (put_task i _ k)). eapply wf_put_same; [done..|].
  exact (wf_mail _ Hwf _ _ Hx).
Qed.

Lemma wait_for_tid_ok cpu t k : sched_wf k -> 0 <= cpu ->
  exists r k', wait_for_tid cpu t k = Done (r, k') /\ sched_wf k'.
Proof.
  intros Hwf Hc. unfold wait_for_tid. destruct (find_task k t) as [[i x]|] eqn:E; [|by eexists _, _].
  destruct (state_is Dead x); [|eexists _, _; by split; [|apply wf_update_current]].
  pose proof (wf_put_none k i Hwf) as Hwf'.
  destruct (_ && _); [|by eexists _, _].
  destruct (release_pages_wf (pg (mach (put_task i None k))) (stack_base x) (stack_size x / PAGE_SIZE))
    as (p & -> & Hp & _); [apply Hwf'|]. eexists _, _. split; [reflexivity|]. by apply wf_with_mach.
Qed.

(** The tick changes neither id nor mailbox. *)
Lemma charge_tick_same csp t t' q s : charge_tick csp t = (t', q, s) ->
  tid t' = tid t /\ mailbox t' = mailbox t.
Proof. unfold charge_tick. repeat case_match; intros [= <- _ _]; done. Qed.

Lemma switch_to_ok k cpu idx csp r k' ev : sched_wf k -> 0 <= idx < 16 ->
  switch_to k cpu idx csp = (r, k', ev) -> sched_wf k'.
Proof.
  intros Hwf Hi. unfold switch_to.
  set (k1 := with_current _ k). assert (Hwf1 : sched_wf k1).
  { apply wf_with_current; [done|]. unfold NO_TASK, MAX_TASKS. lia. }
  destruct (task_at k1 idx) as [t|] eqn:Et; [|by intros [= _ <- _]]. apply task_at_some in Et.
  set (t' := set_ticks_remaining _ _). set (k2 := put_task idx (Some t') k1).
  assert (Hwf2 : sched_wf k2).
  { eapply wf_put_same; [done..|]. exact (wf_mail _ Hwf1 _ _ Et). }
  unfold switch_ttbr0. destruct (_ && _); intros [= _ <- _]; [exact (wf_with_ttbr0 k2 _ _ Hwf2)|done].
Qed.

Lemma wf_update_slot k i f : sched_wf k -> (forall x, tid (f x) = tid x /\ mailbox (f x) = mailbox x) ->
  sched_wf (update_slot i f k).
Proof.
  intros Hwf Hf. unfold update_slot. destruct (task_at k i) as [t|] eqn:Et; [|done].
  apply task_at_some in Et. destruct (Hf t) as [F1 F2].
  eapply wf_put_same; [done..|]. unfold mail_ok. rewrite F2. by eapply wf_mail.
Qed.

Lemma wf_count_idle k cur : sched_wf k -> sched_wf (count_idle cur k).
Proof. intros Hwf. unfold count_idle. case_match; [by apply wf_with_ticks|done]. Qed.

Lemma count_idle_tasks cur k : TASKS (count_idle cur k) = TASKS k.
Proof. unfold count_idle. by case_match. Qed.

Lemma wf_charge k slot csp cur k' q s : sched_wf k -> TASKS k !! Z.to_nat slot = Some cur ->
  charge_current slot csp cur k = (k', q, s) -> sched_wf k'.
Proof.
  intros Hwf Hcur. unfold charge_current. destruct cur as [t|]; [|by intros [= <- _ _]].
  destruct (charge_tick csp t) as [[t' q'] s'] eqn:Et. intros [= <- _ _].
  destruct (charge_tick_same _ _ _ _ _ Et) as [Ht1 Ht2].
  eapply wf_put_same; [done..|]. unfold mail_ok. rewrite Ht2. by eapply wf_mail.
Qed.

Lemma schedule_next_ok cpu csp k : sched_wf k -> 0 <= cpu ->
  exists r k' ev, schedule_next cpu csp k = Done (r, k', ev) /\ sched_wf k'.
Proof.
  intros Hwf Hc. unfold schedule_next. destruct (ACTIVE k); [|by eexists _, _, _].
  cbn [negb]. set (k1 := with_ticks _ _ k). assert (Hwf1 : sched_wf k1) by by apply wf_with_ticks.
  assert (Hc' : 0 <= this_cpu cpu) by (unfold this_cpu, MAX_CPUS; lia).
  pose proof (cur_slot_range k1 _ Hwf1 Hc') as Hs. set (slot := cur_slot k1 (this_cpu cpu)) in *.
  destruct (Z.eqb_spec slot NO_TASK) as [|Hne]; [by eexists _, _, _|].
  assert (Hs' : 0 <= slot < 16) by (unfold NO_TASK, MAX_TASKS in *; lia).
  destruct (arr_get_ok (TASKS k1) slot) as (cur & -> & Hcur); [rewrite (wf_tasks _ Hwf1); lia|].
  cbn [mbind outcome_bind]. rewrite <- (count_idle_tasks cur) in Hcur.
  destruct (charge_current slot csp cur (count_idle cur k1)) as [[k3 q] stay] eqn:E3.
  assert (Hwf3 : sched_wf k3) by (eapply wf_charge; [by apply wf_count_idle|done..]).
  destruct stay; [by eexists _, _, _|]. rewrite pick_next_ok by done. cbn [mbind outcome_bind].
  destruct (pick_spec k3 (this_cpu cpu) slot) as [idx|] eqn:Ep.
  2: { eexists _, _, _. split; [reflexivity|]. by apply wf_update_slot. }
  apply pick_spec_any in Ep as (Hidx & _); [|done].
  set (k4 := if q then update_slot slot reset_quantum k3 else k3).
  assert (Hwf4 : sched_wf k4) by (unfold k4; destruct q; [by apply wf_update_slot|done]).
  destruct (switch_to k4 (this_cpu cpu) idx csp) as [[r k5] ev] eqn:E5.
  exists r, k5, ev. split; [done|]. by eapply switch_to_ok.
Qed.

(** ** The scheduler as a transition system *)

(** One operation, with the CPU it runs on where that matters; [OMem] is
    anything the running code does to RAM. *)
Inductive kop :=
| OSecondary (cpu : Z)
| OSpawn (name : list Z) (entry : Z)
| OSpawnUser (name : list Z) (entry caps : Z) (segs : list ProcSegment)
| OThread (name : list Z) (entry user_sp caps tb : Z)
| OTick (cpu sp : Z)
| OFilter (t : Z) (filter : Z * Z)
| OSignal (t sig : Z)
| OHandler (cpu handler mask : Z)
| OPopSignal (cpu : Z)
| OForceExit (t code : Z)
| OSwapMask (cpu mask : Z)
| OCaps (t caps : Z)
| OSend (t : Z) (msg : Message)
| ORecv (cpu : Z)
| OTryRecv (cpu : Z)
| OYield (cpu : Z)
| OExit (cpu code : Z)
| OWait (cpu t : Z)
| OAffinity (t cpu : Z)
| OPriority (t prio : Z)
| OMem (r : gmap Z Z).

Definition exec (o : kop) (k : kernel) : outcome kernel :=
  match o with
  | OSecondary cpu => Done (secondary_idle_init cpu k)
  | OSpawn n e => '(_, k) ← spawn n e k; Done k
  | OSpawnUser n e c s => '(_, k) ← spawn_user_entry_with_segs n e c s k; Done k
  | OThread n e u c t => '(_, k) ← spawn_user_thread n e u c t k; Done k
  | OTick cpu sp => '(_, k, _) ← schedule_next cpu sp k; Done k
  | OFilter t f => Done (set_task_syscall_filter t f k).2
  | OSignal t s => Done (send_signal t s k).2
  | OHandler cpu h m => Done (set_signal_handler cpu h m k)
  | OPopSignal cpu => Done (pop_pending_signal cpu k).2
  | OForceExit t c => Done (force_exit t c k).2
  | OSwapMask cpu m => Done (swap_signal_mask cpu m k).2
  | OCaps t c => Done (set_task_caps t c k).2
  | OSend t m => '(_, k) ← send_message t m k; Done k
  | ORecv cpu => '(_, k) ← recv_message cpu k; Done k
  | OTryRecv cpu => '(_, k) ← try_recv_message cpu k; Done k
  | OYield cpu => Done (yield_cpu cpu k)
  | OExit cpu c => Done (exit_task cpu c k)
  | OWait cpu t => '(_, k) ← wait_for_tid cpu t k; Done k
  | OAffinity t c => Done (set_affinity t c k).2
  | OPriority t p => Done (set_task_priority t p k)
  | OMem r => Done (with_mach (mk_machine (pg (mach k)) r) k)
  end.

(** CPU numbers are unsigned; ids are not exhausted; the process table of a user
    task fits into the free pages ([alloc_table] panics otherwise). *)
Definition op_ok (k : kernel) (o : kop) : Prop :=
  match o with
  | OSecondary cpu => 0 <= cpu /\ NEXT_TID k + 1 < 2 ^ 64
  | OSpawn _ _ | OThread _ _ _ _ _ => NEXT_TID k + 1 < 2 ^ 64
  | OSpawnUser _ _ _ segs =>
      NEXT_TID k + 1 < 2 ^ 64 /\ Forall seg_ok segs /\ user_pages segs <= nfree (mach k)
  | OTick cpu _ | OHandler cpu _ _ | OPopSignal cpu | OSwapMask cpu _ | ORecv cpu | OTryRecv cpu
  | OYield cpu | OExit cpu _ | OWait cpu _ => 0 <= cpu
  | _ => True
  end.

Inductive reach (v : vmm_state) : kernel -> Prop :=
| reach_init : reach v (init (kernel0 v))
| reach_step k o k' : reach v k -> op_ok k o -> exec o k = Done k' -> reach v k'.

Lemma wake_same t : tid (wake t) = tid t /\ mailbox (wake t) = mailbox t.
Proof. unfold wake. by case_match. Qed.

Lemma exec_ok o k : sched_wf k -> op_ok k o -> exists k', exec o k = Done k' /\ sched_wf k'.
Proof.
  intros Hwf. destruct o; cbn [exec op_ok]; intros Hop.
  - eexists. split; [done|]. destruct Hop. by apply wf_secondary.
  - destruct (spawn_ok name entry k Hwf Hop) as (r & k' & -> & ?). by eexists.
  - destruct Hop as (H1 & H2 & H3).
    destruct (spawn_user_entry_ok name entry caps segs k Hwf H1 H2 H3) as (r & k' & -> & ?). by eexists.
  - destruct (spawn_user_thread_ok name entry user_sp caps tb k Hwf Hop) as (r & k' & -> & ?). by eexists.
  - destruct (schedule_next_ok cpu sp k Hwf Hop) as (r & k' & ev & -> & ?). by eexists.
  - eexists. split; [done|]. by apply wf_update_task.
  - eexists. split; [done|]. unfold send_signal. case_match; [done|].
    apply wf_update_task; [done|]. intros x. exact (wake_same (set_pending_signals _ x)).
  - eexists. split; [done|]. by apply wf_update_current.
  - eexists. split; [done|]. unfold pop_pending_signal.
    destruct (current_task k cpu) as [[i t]|] eqn:E; [|done].
    apply current_task_some in E as (_ & _ & Ht); [|done..]. case_match; [done|].
    eapply wf_put_same; [done..|]. exact (wf_mail _ Hwf _ _ Ht).
  - eexists. split; [done|]. by apply force_exit_ok.
  - eexists. split; [done|]. unfold swap_signal_mask.
    destruct (current_task k cpu) as [[i t]|] eqn:E; [|done].
    apply current_task_some in E as (_ & _ & Ht); [|done..].
    eapply wf_put_same; [done..|]. exact (wf_mail _ Hwf _ _ Ht).
  - eexists. split; [done|]. by apply wf_update_task.
  - destruct (send_message_ok t msg k Hwf) as (r & k' & -> & ?). by eexists.
  - destruct (recv_ok cpu k Hwf Hop) as [(r & k' & -> & ?) _]. by eexists.
  - destruct (recv_ok cpu k Hwf Hop) as [_ (r & k' & -> & ?)]. by eexists.
  - eexists. split; [done|]. by apply wf_update_current.
  - eexists. split; [done|]. by apply exit_task_ok.
  - destruct (wait_for_tid_ok cpu t k Hwf Hop) as (r & k' & -> & ?). by eexists.
  - eexists. split; [done|]. by apply wf_update_task.
  - eexists. split; [done|]. by apply wf_update_task.
  - eexists. split; [done|]. apply wf_with_mach; [done|apply Hwf].
Qed.

Lemma reach_wf v k : pages_wf (pg (vm v)) -> reach v k -> sched_wf k.
Proof.
  intros Hv. induction 1 as [|k o k' _ IH Hok E]; [by apply wf_init|].
  destruct (exec_ok o k IH Hok) as (k2 & E2 & ?). congruence.
Qed.

(** ** Theorem *)


Definition demo_vmm : vmm_state := mk_vmm demo_machine 0x40300000 0x40301000 0x40302000 0x40300000 0x40301000 0x40302000.

(** Two CPUs come up and a message is sent to the idle task. *)
Definition demo_kernel : kernel :=
  match exec (OSend 0 (mk_msg 1 [7])) (secondary_idle_init 1 (init (kernel0 demo_vmm))) with
  | Done k => k
  | Panic => kernel0 demo_vmm
  end.

Lemma demo_reach : reach demo_vmm demo_kernel.
Proof.
  apply (reach_step _ (secondary_idle_init 1 (init (kernel0 demo_vmm))) (OSend 0 (mk_msg 1 [7])));
    [|done|by vm_compute].
  by apply (reach_step _ (init (kernel0 demo_vmm)) (OSecondary 1)); [apply reach_init|..].
Qed.

