(* ===== verification/SchedProps.v ===== *)
(** * What the scheduler does

    Functional specification of [schedule_next], CPU exclusivity, time slices,
    progress of the round robin, and the TLB maintenance of a switch. *)

From stdpp Require Import base numbers list gmap strings.
From Stdlib Require Import ZArith Lia.
From S2P Require Import Prelude Machine PageAlloc Vmm VmmProofs Ipc Task Sched SchedInv.

(** ** The choice depends on the other slots only *)

Definition same_except (s : Z) (k k' : kernel) : Prop :=
  forall i, 0 <= i < 16 -> i <> s -> task_at k' i = task_at k i.

Lemma find_ext {A} (f g : A -> bool) l : (forall x, x ∈ l -> f x = g x) -> List.find f l = List.find g l.
Proof.
  induction l as [|x l IH]; intros H; [done|]. cbn [List.find].
  rewrite (H x) by set_solver. destruct (g x); [done|]. apply IH. set_solver.
Qed.

Lemma pick_spec_ext k k' cpu s : 0 <= s < 16 -> same_except s k k' ->
  pick_spec k' cpu s = pick_spec k cpu s.
Proof.
  intros Hs Hx.
  assert (H : forall p, List.find (eligible p k') (rr_order s) = List.find (eligible p k) (rr_order s)).
  { intros p. apply find_ext. intros i [Hi Hne]%rr_order_spec; [|done]. unfold eligible. by rewrite Hx. }
  unfold pick_spec. by rewrite !H.
Qed.

Lemma task_at_put k s o i : 0 <= i -> 0 <= s ->
  task_at (put_task s o k) i =
  if decide (i = s /\ s < Z.of_nat (length (TASKS k))) then o else task_at k i.
Proof.
  intros Hi Hs. unfold task_at, put_task. cbn [TASKS with_tasks].
  rewrite list_lookup_insert. case_decide as H; case_decide as H'; try done.
  - exfalso. apply H'. lia.
  - exfalso. apply H. destruct H' as [-> ?]. lia.
Qed.

Lemma put_task_here k s o : sched_wf k -> 0 <= s < 16 -> task_at (put_task s o k) s = o.
Proof. intros Hwf Hs. rewrite task_at_put, (wf_tasks _ Hwf), decide_True by lia. done. Qed.

Lemma put_task_other k s o i : 0 <= i -> 0 <= s -> i <> s -> task_at (put_task s o k) i = task_at k i.
Proof. intros Hi Hs Hne. rewrite task_at_put, decide_False by lia. done. Qed.

(** ** The effect of a tick *)

(** The running task keeps the CPU: it has ticks left and did not block. *)
Definition keeps (t : Task) : bool := (1 <? ticks_remaining t) && state_is Running t.

(** The outgoing task as [schedule_next] saves it. *)
Definition saved (csp : Z) (t : Task) : Task :=
  let t := set_ticks_used (ticks_used t +u 1) (set_sp csp t) in
  if 1 <? ticks_remaining t then set_ticks_remaining (ticks_remaining t - 1) t
  else reset_quantum (if state_is Running t then set_state Ready t else t).

Definition saved_stay (csp : Z) (t : Task) : Task :=
  stay_current (set_ticks_used (ticks_used t +u 1) (set_sp csp t)).

(** The incoming task. *)
Definition resumed (n : Task) : Task := set_ticks_remaining (quantum n) (set_state Running n).

(** The specification of one tick on CPU [c] whose current slot [s] holds [t]. *)
Definition tick_spec (c s csp : Z) (t : Task) (k : kernel) (r : Z) (k' : kernel) : Prop :=
  if keeps t then
    r = csp /\ CURRENT k' = CURRENT k /\ same_except s k k' /\ task_at k' s = Some (saved csp t)
  else match pick_spec k c s with
       | None => r = csp /\ CURRENT k' = CURRENT k /\ same_except s k k' /\
                 task_at k' s = Some (saved_stay csp t)
       | Some i => exists n, task_at k i = Some n /\ any_ready c n = true /\ i <> s /\ r = sp n /\
           CURRENT k' = <[Z.to_nat c := i]> (CURRENT k) /\
           task_at k' s = Some (saved csp t) /\ task_at k' i = Some (resumed n) /\
           (forall j, 0 <= j < 16 -> j <> s -> j <> i -> task_at k' j = task_at k j)
       end.

Lemma charge_tick_cases csp t :
  charge_tick csp t =
    let t1 := set_ticks_used (ticks_used t +u 1) (set_sp csp t) in
    if 1 <? ticks_remaining t then (set_ticks_remaining (ticks_remaining t - 1) t1, false, state_is Running t)
    else if state_is Running t then (set_state Ready t1, true, false) else (t1, true, false).
Proof. done. Qed.

Lemma switch_ttbr0_frame k c n : TASKS (switch_ttbr0 k c n).1 = TASKS k /\
  CURRENT (switch_ttbr0 k c n).1 = CURRENT k.
Proof. unfold switch_ttbr0. by destruct (_ && _). Qed.

Lemma switch_to_spec k c i csp n : sched_wf k -> 0 <= i < 16 -> task_at k i = Some n ->
  exists k' ev, switch_to k c i csp = (sp n, k', ev) /\
    CURRENT k' = <[Z.to_nat c := i]> (CURRENT k) /\ task_at k' i = Some (resumed n) /\
    (forall j, 0 <= j < 16 -> j <> i -> task_at k' j = task_at k j).
Proof.
  intros Hwf Hi Hn. unfold switch_to.
  assert (E : task_at (with_current (<[Z.to_nat c := i]> (CURRENT k)) k) i = Some n) by done.
  rewrite E. fold (resumed n). set (k2 := put_task i _ _).
  pose proof (switch_ttbr0_frame k2 c (resumed n)) as [F1 F2].
  destruct (switch_ttbr0 k2 c (resumed n)) as [k3 ev]. cbn [fst] in *.
  exists k3, ev. split; [done|]. split; [by rewrite F2|].
  assert (T : forall j, task_at k3 j = task_at k2 j) by (intros; unfold task_at; by rewrite F1).
  rewrite !T. assert (Hl : length (TASKS (with_current (<[Z.to_nat c := i]> (CURRENT k)) k)) = 16%nat)
    by apply Hwf. split.
  - unfold k2. rewrite task_at_put, Hl, decide_True by lia. done.
  - intros j Hj Hne. rewrite T. unfold k2. rewrite put_task_other by lia. done.
Qed.

Lemma charge_current_spec k s csp t : sched_wf k -> 0 <= s < 16 ->
  exists t' q, charge_current s csp (Some t) k = (put_task s (Some t') k, q, keeps t) /\
    (keeps t = true -> t' = saved csp t) /\
    (keeps t = false -> (if q then reset_quantum t' else t') = saved csp t) /\
    stay_current t' = saved_stay csp t.
Proof.
  intros Hwf Hs. unfold charge_current. rewrite charge_tick_cases. cbv zeta.
  unfold keeps, saved. destruct (1 <? ticks_remaining t) eqn:E1.
  - eexists _, false. split; [reflexivity|].
    change (ticks_remaining (set_ticks_used (ticks_used t +u 1) (set_sp csp t))) with (ticks_remaining t).
    rewrite E1. done.
  - change (ticks_remaining (set_ticks_used (ticks_used t +u 1) (set_sp csp t))) with (ticks_remaining t).
    rewrite E1. change (state_is Running (set_ticks_used (ticks_used t +u 1) (set_sp csp t)))
      with (state_is Running t).
    destruct (state_is Running t); eexists _, true; (split; [reflexivity|]); done.
Qed.

Lemma update_slot_except s f k k3 t' : 0 <= s < 16 -> sched_wf k3 -> same_except s k k3 -> task_at k3 s = Some t' ->
  CURRENT k3 = CURRENT k ->
  same_except s k (update_slot s f k3) /\ task_at (update_slot s f k3) s = Some (f t') /\
  CURRENT (update_slot s f k3) = CURRENT k.
Proof.
  intros Hs Hwf H3 H3s HC. unfold update_slot. rewrite H3s. split; [|split; [by apply put_task_here|done]].
  intros i Hi Hne. rewrite put_task_other by lia. by apply H3.
Qed.

Lemma schedule_next_spec cpu csp k t :
  sched_wf k -> 0 <= cpu -> ACTIVE k = true -> current_task k (this_cpu cpu) = Some (cur_slot k cpu, t) ->
  exists r k' ev, schedule_next cpu csp k = Done (r, k', ev) /\
    tick_spec (this_cpu cpu) (cur_slot k cpu) csp t k r k'.
Proof.
  intros Hwf Hc Hact Hcur. assert (Hc' : 0 <= this_cpu cpu) by (unfold this_cpu, MAX_CPUS; lia).
  apply current_task_some in Hcur as (_ & Hs & Ht); [|done..].
  unfold schedule_next. rewrite Hact. cbn [negb]. set (k1 := with_ticks _ _ k).
  assert (Hslot : cur_slot k1 (this_cpu cpu) = cur_slot k cpu).
  { unfold cur_slot, this_cpu. f_equal. unfold MAX_CPUS. lia. }
  rewrite Hslot. set (s := cur_slot k cpu) in *.
  rewrite (proj2 (Z.eqb_neq s NO_TASK)) by (unfold NO_TASK, MAX_TASKS; lia).
  rewrite (arr_get_some (TASKS k1) s (Some t)) by (lia || done). cbn [mbind outcome_bind].
  set (k2 := count_idle (Some t) k1).
  assert (Hwf2 : sched_wf k2) by (apply wf_count_idle; by apply wf_with_ticks).
  assert (Hk2 : TASKS k2 = TASKS k) by exact (count_idle_tasks (Some t) k1).
  assert (HC2 : CURRENT k2 = CURRENT k) by (unfold k2, count_idle; by case_match).
  assert (H2 : forall i, task_at k2 i = task_at k i) by (intros; unfold task_at; by rewrite Hk2).
  destruct (charge_current_spec k2 s csp t Hwf2 Hs) as (t' & q & Ech & Hkeep & Hsw & Hstay).
  rewrite Ech. set (k3 := put_task s (Some t') k2).
  assert (H3 : same_except s k k3).
  { intros i Hi Hne. unfold k3. by rewrite put_task_other, H2 by lia. }
  assert (H3s : task_at k3 s = Some t') by by apply put_task_here.
  assert (Hwf3 : sched_wf k3) by (eapply wf_charge; [exact Hwf2|rewrite Hk2; exact Ht|exact Ech]).
  assert (HC3 : CURRENT k3 = CURRENT k) by done.
  unfold tick_spec. destruct (keeps t).
  { eexists _, _, _. split; [reflexivity|]. rewrite <- Hkeep by done. done. }
  rewrite pick_next_ok, (pick_spec_ext k k3) by done. cbn [mbind outcome_bind].
  pose proof (fun f => update_slot_except s f k k3 t' Hs Hwf3 H3 H3s HC3) as Hupd.
  destruct (pick_spec k (this_cpu cpu) s) as [i|] eqn:Ep.
  - destruct (pick_spec_any k (this_cpu cpu) s i Hs Ep) as (Hi & Hne & Hel).
    unfold eligible in Hel. destruct (task_at k i) as [n|] eqn:En; [|done].
    set (k4 := if q then update_slot s reset_quantum k3 else k3).
    assert (Hwf4 : sched_wf k4) by (unfold k4; destruct q; [by apply wf_update_slot|done]).
    assert (H4 : same_except s k k4 /\ task_at k4 s = Some (saved csp t) /\ CURRENT k4 = CURRENT k).
    { rewrite <- Hsw by done. unfold k4 in *. destruct q; [by apply Hupd|done]. }
    destruct H4 as (H4 & H4s & HC4).
    destruct (switch_to_spec k4 (this_cpu cpu) i csp n Hwf4 Hi) as (k5 & ev & -> & HC5 & H5i & H5).
    { rewrite H4 by done. done. }
    exists (sp n), k5, ev. split; [done|]. exists n. repeat (split; [done|]).
    split; [by rewrite HC5, HC4|]. split; [by rewrite H5|]. split; [done|].
    intros j Hj Hjs Hji. rewrite H5 by done. by apply H4.
  - destruct (Hupd stay_current) as (HA & HB & HD).
    eexists _, _, _. split; [reflexivity|]. split; [done|]. split; [done|]. split; [done|].
    by rewrite HB, Hstay.
Qed.

(** ** CPU exclusivity *)

(** Every CPU that has a task has one that is not up for grabs. *)
Definition cpu_inv (k : kernel) : Prop :=
  forall c, 0 <= c < 4 -> cur_slot k c = NO_TASK \/
    exists t, task_at k (cur_slot k c) = Some t /\ state t <> Ready.

(** No two CPUs run the same task. *)
Definition exclusive (k : kernel) : Prop :=
  forall c c', 0 <= c < 4 -> 0 <= c' < 4 -> c <> c' -> cur_slot k c = cur_slot k c' ->
    cur_slot k c = NO_TASK.

Lemma this_cpu_range c : 0 <= c -> 0 <= this_cpu c < 4.
Proof. unfold this_cpu, MAX_CPUS. lia. Qed.

Lemma cur_slot_this k c : cur_slot k (this_cpu c) = cur_slot k c.
Proof. unfold cur_slot, this_cpu. f_equal. unfold MAX_CPUS. lia. Qed.

Lemma cur_slot_insert k k' c i d : length (CURRENT k) = 4%nat -> 0 <= c < 4 -> 0 <= d < 4 ->
  CURRENT k' = <[Z.to_nat c := i]> (CURRENT k) ->
  cur_slot k' d = if decide (d = c) then i else cur_slot k d.
Proof.
  intros Hl Hc Hd E. unfold cur_slot. rewrite E. unfold this_cpu, MAX_CPUS.
  rewrite !Z.min_l by lia. rewrite !nth_lookup, list_lookup_insert. case_decide as H; case_decide as H'.
  - done.
  - exfalso. apply H'. lia.
  - exfalso. apply H. subst. rewrite Hl. lia.
  - done.
Qed.

Lemma current_task_eq k c t : sched_wf k -> 0 <= c -> cur_slot k c <> NO_TASK ->
  task_at k (cur_slot k c) = Some t -> current_task k c = Some (cur_slot k c, t).
Proof.
  intros Hwf Hc Hne Ht. unfold current_task. pose proof (cur_slot_range k c Hwf Hc).
  rewrite (proj2 (Z.ltb_lt _ _)), Ht by (unfold NO_TASK in *; lia). done.
Qed.

Lemma task_at_no_task k : sched_wf k -> task_at k NO_TASK = None.
Proof. intros Hwf. unfold task_at. by rewrite lookup_ge_None_2 by (rewrite (wf_tasks _ Hwf); done). Qed.

Lemma any_ready_state c n : any_ready c n = true -> state n = Ready.
Proof. unfold any_ready, state_is. intros [H%bool_decide_eq_true _]%andb_prop. done. Qed.

Lemma keeps_saved csp t : keeps t = true -> state (saved csp t) <> Ready.
Proof.
  unfold keeps. intros [E H%bool_decide_eq_true]%andb_prop. unfold saved. cbv zeta.
  change (ticks_remaining (set_ticks_used _ (set_sp csp t))) with (ticks_remaining t).
  rewrite E. change (state t <> Ready). by rewrite H.
Qed.

(** A live current slot of [k] keeps its task under [same] outside the listed slots. *)
Lemma cpu_task k c : sched_wf k -> cpu_inv k -> 0 <= c < 4 -> cur_slot k c = NO_TASK \/
  0 <= cur_slot k c < 16 /\ exists t, task_at k (cur_slot k c) = Some t /\ state t <> Ready.
Proof.
  intros Hwf Hinv Hc. destruct (Hinv c Hc) as [?|(t & Ht & Hs)]; [by left|].
  destruct (decide (cur_slot k c = NO_TASK)) as [?|Hne]; [by left|right].
  pose proof (cur_slot_range k c Hwf ltac:(lia)). unfold NO_TASK, MAX_TASKS in *.
  split; [lia|by exists t].
Qed.

(** A tick that stays on slot [s]. *)
Lemma exclusive_stay k k' s t' :
  sched_wf k -> cpu_inv k -> exclusive k -> CURRENT k' = CURRENT k -> same_except s k k' ->
  task_at k' s = Some t' -> state t' <> Ready -> cpu_inv k' /\ exclusive k'.
Proof.
  intros Hwf Hinv Hex HC Hsame Hs' Hst'.
  assert (HS : forall c, cur_slot k' c = cur_slot k c) by (intros; unfold cur_slot; by rewrite HC).
  split; [|intros c c'; rewrite !HS; by apply Hex].
  intros c Hc. rewrite HS. destruct (cpu_task k c Hwf Hinv Hc) as [?|(Hr & x & Hx & Hxs)]; [by left|right].
  destruct (decide (cur_slot k c = s)) as [->|Hd]; [by exists t'|].
  exists x. by rewrite Hsame.
Qed.

(** A tick on CPU [c0] that switches from slot [s] to the ready slot [i]. *)
Lemma exclusive_switch k k' c0 s i n :
  sched_wf k -> cpu_inv k -> exclusive k -> 0 <= c0 < 4 -> cur_slot k c0 = s -> 0 <= s < 16 ->
  0 <= i < 16 -> task_at k i = Some n -> state n = Ready ->
  CURRENT k' = <[Z.to_nat c0 := i]> (CURRENT k) -> task_at k' i = Some (resumed n) ->
  (forall j, 0 <= j < 16 -> j <> s -> j <> i -> task_at k' j = task_at k j) ->
  cpu_inv k' /\ exclusive k'.
Proof.
  intros Hwf Hinv Hex Hc0 Hs Hsr Hir Hn Hrdy HC Hi' Hoth.
  assert (HS : forall d, 0 <= d < 4 -> cur_slot k' d = if decide (d = c0) then i else cur_slot k d).
  { intros d Hd. by apply cur_slot_insert; [apply Hwf|..]. }
  assert (Hni : forall c, 0 <= c < 4 -> cur_slot k c <> i).
  { intros c Hc Ei. destruct (cpu_task k c Hwf Hinv Hc) as [Hno|(_ & x & Hx & Hxs)].
    - unfold NO_TASK, MAX_TASKS in Hno. lia.
    - rewrite Ei, Hn in Hx. by injection Hx as <-. }
  split.
  - intros c Hc. rewrite HS by done. case_decide as Hd; [right; by exists (resumed n)|].
    destruct (cpu_task k c Hwf Hinv Hc) as [?|(Hr & x & Hx & Hxs)]; [by left|right].
    exists x. split; [|done]. rewrite Hoth; [done..| |by apply Hni].
    intros Es. assert (cur_slot k c = NO_TASK) as E by (apply (Hex c c0); congruence || done).
    unfold NO_TASK, MAX_TASKS in E. lia.
  - intros c c' Hc Hc' Hne'. rewrite !HS by done. repeat case_decide; try congruence.
    + intros Ei. by destruct (Hni c' Hc').
    + intros Ei. by destruct (Hni c Hc).
    + by apply Hex.
Qed.

(** A tick on a CPU without a task, or before the first spawn, changes no slot. *)
Lemma tick_idle cpu csp k : 0 <= cpu -> ACTIVE k = false \/ cur_slot k cpu = NO_TASK ->
  exists k', schedule_next cpu csp k = Done (csp, k', []) /\ TASKS k' = TASKS k /\ CURRENT k' = CURRENT k.
Proof.
  intros Hc H. unfold schedule_next. destruct (ACTIVE k) eqn:Ea; [|by eexists].
  destruct H as [?|Hno]; [done|]. cbn [negb].
  assert (En : cur_slot (with_ticks (TOTAL_TICKS k +u 1) (IDLE_TICKS k) k) (this_cpu cpu) = NO_TASK)
    by (by rewrite cur_slot_this).
  rewrite En, Z.eqb_refl. by eexists.
Qed.

Lemma tick_exclusive_step cpu csp k r k' ev :
  sched_wf k -> 0 <= cpu -> cpu_inv k -> exclusive k -> schedule_next cpu csp k = Done (r, k', ev) ->
  cpu_inv k' /\ exclusive k'.
Proof.
  intros Hwf Hc Hinv Hex E. pose proof (this_cpu_range cpu Hc) as Hcr.
  destruct (decide (ACTIVE k = false \/ cur_slot k cpu = NO_TASK)) as [Hid|Hrun].
  { destruct (tick_idle cpu csp k Hc Hid) as (k2 & E2 & HT & HC). rewrite E in E2. injection E2 as _ -> _.
    unfold cpu_inv, exclusive, cur_slot, task_at in *. by rewrite HC, HT. }
  assert (Hact : ACTIVE k = true) by (destruct (ACTIVE k); tauto).
  destruct (cpu_task k _ Hwf Hinv Hcr) as [?|(Hsr & t & Ht & Hst)]; [rewrite cur_slot_this in *; tauto|].
  destruct (schedule_next_spec cpu csp k t Hwf Hc Hact) as (r2 & k2 & ev2 & E2 & Hspec).
  { rewrite <- cur_slot_this. apply current_task_eq; [done|lia| |done]. rewrite cur_slot_this. tauto. }
  rewrite cur_slot_this in *. rewrite E in E2. injection E2 as <- <- <-.
  unfold tick_spec in Hspec. destruct (keeps t) eqn:Hk.
  { destruct Hspec as (_ & HC & Hsame & Hs'). by eapply exclusive_stay; [..|apply keeps_saved]. }
  destruct (pick_spec k (this_cpu cpu) (cur_slot k cpu)) as [i|] eqn:Ep.
  - destruct Hspec as (n & Hn & Hrdy%any_ready_state & _ & _ & HC & _ & Hi' & Hoth).
    destruct (pick_spec_any _ _ _ _ Hsr Ep) as (Hir & _ & _).
    by eapply (exclusive_switch k k' (this_cpu cpu) (cur_slot k cpu) i n); rewrite ?cur_slot_this.
  - destruct Hspec as (_ & HC & Hsame & Hs'). by eapply exclusive_stay.
Qed.

(** Timer ticks [(cpu, sp)] in the order in which they take the lock. *)
Fixpoint run_ticks (l : list (Z * Z)) (k : kernel) : outcome kernel :=
  match l with
  | [] => Done k
  | (cpu, csp) :: l' => '(_, k', _) ← schedule_next cpu csp k; run_ticks l' k'
  end.

(** ** Time slices *)

(** A running task with [n + 1] ticks left keeps its CPU for [n] more ticks. *)
Lemma keeps_ticks csp t : ticks_remaining t > 1 -> state t = Running ->
  keeps t = true /\ ticks_remaining (saved csp t) = ticks_remaining t - 1 /\
  state (saved csp t) = Running /\ ticks_used (saved csp t) = ticks_used t +u 1.
Proof.
  intros Hr Hs. unfold keeps, saved, state_is. cbv zeta.
  change (ticks_remaining (set_ticks_used _ (set_sp csp t))) with (ticks_remaining t).
  rewrite (proj2 (Z.ltb_lt _ _)) by lia. rewrite bool_decide_true by done. done.
Qed.

Lemma update_slot_active i f k : ACTIVE (update_slot i f k) = ACTIVE k.
Proof. unfold update_slot. by destruct (task_at k i). Qed.

Lemma switch_to_active k c i csp r k' ev : switch_to k c i csp = (r, k', ev) -> ACTIVE k' = ACTIVE k.
Proof.
  unfold switch_to. destruct (task_at _ _) as [n|]; [|by intros [= _ <- _]].
  unfold switch_ttbr0. destruct (_ && _); by intros [= _ <- _].
Qed.

Lemma schedule_next_active cpu csp k r k' ev : schedule_next cpu csp k = Done (r, k', ev) ->
  ACTIVE k' = ACTIVE k.
Proof.
  unfold schedule_next. destruct (ACTIVE k) eqn:Ea; [|by intros [= _ <- _]]. cbn [negb].
  set (k1 := with_ticks _ _ k). assert (H1 : ACTIVE k1 = true) by done. clearbody k1.
  destruct (_ =? _); [by intros [= _ <- _]|]. destruct (arr_get _ _) as [cur|]; [|done].
  cbn [mbind outcome_bind].
  assert (H2 : forall k2 q s, charge_current (cur_slot k1 (this_cpu cpu)) csp cur (count_idle cur k1)
    = (k2, q, s) -> ACTIVE k2 = true).
  { intros k2 q s. unfold charge_current, count_idle. destruct cur as [t|]; [|by intros [= <- _ _]].
    destruct (charge_tick csp t) as [[t' q'] s']. intros [= <- _ _]. cbn. by case_match. }
  destruct (charge_current _ _ _ _) as [[k2 q] s]. specialize (H2 _ _ _ eq_refl).
  destruct s; [by intros [= _ <- _]|]. destruct (pick_next _ _ _) as [[i|]|]; [| |done].
  - cbn [mbind outcome_bind]. intros [= E]. rewrite (switch_to_active _ _ _ _ _ _ _ E).
    destruct q; [by rewrite update_slot_active|done].
  - intros [= _ <- _]. by rewrite update_slot_active.
Qed.

Lemma slice_ok n cpu sps k t :
  sched_wf k -> 0 <= cpu -> ACTIVE k = true -> length sps = n ->
  current_task k (this_cpu cpu) = Some (cur_slot k cpu, t) -> state t = Running ->
  ticks_remaining t = Z.of_nat n + 1 ->
  exists k' t', run_ticks ((fun x => (cpu, x)) <$> sps) k = Done k' /\ CURRENT k' = CURRENT k /\
    current_task k' (this_cpu cpu) = Some (cur_slot k cpu, t') /\ state t' = Running /\
    ticks_remaining t' = 1 /\ (forall j, 0 <= j < 16 -> j <> cur_slot k cpu -> task_at k' j = task_at k j).
Proof.
  intros Hwf Hc. revert sps k t Hwf. induction n as [|n IH]; intros [|csp sps] k t Hwf Ha Hl Hcur Hst Htk; try done.
  { exists k, t. repeat (split; [done|]). done. }
  destruct (schedule_next_ok cpu csp k Hwf Hc) as (r & k1 & ev & E & Hwf1).
  destruct (schedule_next_spec cpu csp k t Hwf Hc Ha Hcur) as (r' & k1' & ev' & E' & Hspec).
  rewrite E in E'. injection E' as <- <- <-.
  destruct (keeps_ticks csp t) as (Hk & Hr & Hs & _); [lia|done|].
  unfold tick_spec in Hspec. rewrite Hk in Hspec. destruct Hspec as (_ & HC & Hsame & Ht1).
  assert (HS : forall c, cur_slot k1 c = cur_slot k c) by (intros; unfold cur_slot; by rewrite HC).
  pose proof (this_cpu_range cpu Hc).
  apply current_task_some in Hcur as (_ & Hsr & _); [|done|lia].
  destruct (IH sps k1 (saved csp t)) as (k' & t' & Er & HC' & Hcur' & Hst' & Htk' & Hoth);
    [done|by rewrite (schedule_next_active _ _ _ _ _ _ E)|by injection Hl| |done|lia|].
  { rewrite <- (cur_slot_this k1). apply current_task_eq; [done|lia| |].
    - rewrite cur_slot_this, HS. unfold NO_TASK, MAX_TASKS. lia.
    - by rewrite cur_slot_this, HS. }
  rewrite HS in *. exists k', t'. cbn [run_ticks fmap list_fmap]. rewrite E. cbn [mbind outcome_bind].
  rewrite HC'. repeat (split; [done|]). intros j Hj Hne. rewrite Hoth by done. by apply Hsame.
Qed.

(** ** Progress of the round robin *)

(** Slots between the current one and [i], in scan order. *)
Definition rr_dist (s i : Z) : Z := (i - s) mod 16.

Lemma find_first {A} (f : A -> bool) (l : list A) n x m y :
  List.find f l = Some y -> l !! n = Some x -> f x = true ->
  l !! m = Some y -> NoDup l -> (m <= n)%nat.
Proof.
  revert n m. induction l as [|z l IH]; intros n m Hf Hn Hx Hm Hd; [done|].
  cbn [List.find] in Hf. apply NoDup_cons in Hd as [Hz Hd]. destruct (f z) eqn:Ez.
  - injection Hf as ->. destruct m as [|m]; [lia|]. exfalso. apply Hz.
    by eapply list_elem_of_lookup_2.
  - destruct n as [|n]; [injection Hn as ->; congruence|].
    destruct m as [|m]; [|specialize (IH n m Hf Hn Hx Hm Hd); lia].
    injection Hm as ->. apply find_some in Hf as [_ ?]. congruence.
Qed.

Lemma rr_order_lookup s d : (d < 15)%nat -> rr_order s !! d = Some ((s + Z.of_nat (S d)) mod 16).
Proof.
  intros Hd. unfold rr_order. rewrite list_lookup_fmap, lookup_seq_lt by done. done.
Qed.

Lemma rr_order_index s i : 0 <= s < 16 -> 0 <= i < 16 -> i <> s ->
  rr_order s !! (Z.to_nat (rr_dist s i) - 1)%nat = Some i /\ 1 <= rr_dist s i <= 15.
Proof.
  intros Hs Hi Hne. unfold rr_dist. pose proof (Z.mod_pos_bound (i - s) 16 ltac:(lia)).
  pose proof (Z.div_mod (i - s) 16 ltac:(lia)). assert (1 <= (i - s) mod 16) by lia.
  split; [|lia]. rewrite rr_order_lookup by lia. f_equal.
  replace (Z.of_nat (S (Z.to_nat ((i - s) mod 16) - 1))) with ((i - s) mod 16) by lia.
  rewrite Zplus_mod_idemp_r. replace (s + (i - s)) with i by lia. by apply Z.mod_small.
Qed.

Lemma rr_order_nodup s : NoDup (rr_order s).
Proof.
  unfold rr_order. apply NoDup_fmap_2_strong; [|apply NoDup_seq].
  intros d d' [? ?]%elem_of_seq [? ?]%elem_of_seq E. unfold MAX_TASKS in E.
  pose proof (Z.div_mod (s + Z.of_nat d) 16 ltac:(lia)).
  pose proof (Z.div_mod (s + Z.of_nat d') 16 ltac:(lia)). lia.
Qed.

Lemma rr_progress p k s i j : 0 <= s < 16 -> 0 <= i < 16 -> i <> s -> eligible p k i = true ->
  List.find (eligible p k) (rr_order s) = Some j -> i = j \/ rr_dist j i < rr_dist s i.
Proof.
  intros Hs Hi Hne Hel Hf. destruct (decide (i = j)) as [?|Hij]; [by left|right].
  pose proof Hf as Hf'. apply find_some in Hf' as [Hin%list_elem_of_In _].
  apply rr_order_spec in Hin as [Hj Hjs]; [|done].
  destruct (rr_order_index s i Hs Hi Hne) as [Li Ri]. destruct (rr_order_index s j Hs Hj Hjs) as [Lj Rj].
  pose proof (find_first _ _ _ _ _ _ Hf Li Hel Lj (rr_order_nodup s)) as Hle.
  assert (rr_dist s j < rr_dist s i).
  { assert (rr_dist s j <> rr_dist s i); [|lia]. intros E. apply Hij. rewrite E, Li in Lj. by injection Lj. }
  unfold rr_dist in *. pose proof (Z.div_mod (i - s) 16 ltac:(lia)). pose proof (Z.div_mod (j - s) 16 ltac:(lia)).
  pose proof (Z.div_mod (i - j) 16 ltac:(lia)). pose proof (Z.mod_pos_bound (i - j) 16 ltac:(lia)). lia.
Qed.

(** ** TLB maintenance *)

Lemma flush_range_covers va top a :
  0 <= va -> va mod 4096 = 0 -> top mod 4096 = 0 -> va <= a < top ->
  Tlbi_vaae1 (a / 4096) ∈ flush_range va top.
Proof.
  intros H0 Hv Ht Ha. unfold flush_range. apply list_elem_of_fmap.
  pose proof (Z.div_mod va 4096 ltac:(lia)). pose proof (Z.div_mod top 4096 ltac:(lia)).
  pose proof (Z.div_mod a 4096 ltac:(lia)). pose proof (Z.mod_pos_bound a 4096 ltac:(lia)).
  exists (Z.to_nat (a / 4096 - va / 4096)). split.
  - f_equal. rewrite Z2Nat.id by lia. rewrite shiftr_12.
    replace (va + (a / 4096 - va / 4096) * 4096) with (a / 4096 * 4096) by lia. by rewrite Z.div_mul.
  - apply elem_of_seq. change 0x1000 with 4096.
    assert ((top - va) / 4096 = top / 4096 - va / 4096) as ->.
    { replace (top - va) with ((top / 4096 - va / 4096) * 4096) by lia. by rewrite Z.div_mul. }
    lia.
Qed.

Lemma page_up a : 0 <= a -> a + 0xFFF < 2 ^ 64 ->
  a <= Z.land (a +u 0xFFF) (not64 0xFFF) /\ Z.land (a +u 0xFFF) (not64 0xFFF) mod 4096 = 0.
Proof.
  intros H0 H1. rewrite as_u64_small by (unfold is_u64; lia).
  rewrite page_base_land by (unfold is_u64; lia). pose proof (page_base_le (a + 0xFFF)).
  split; [lia|apply page_base_mod].
Qed.

Lemma flush_user_range base top a : 0 <= base -> top + 0xFFF < 2 ^ 64 -> base <= a < top ->
  Tlbi_vaae1 (a / 4096) ∈
  flush_range (Z.land base (not64 0xFFF)) (Z.land (top +u 0xFFF) (not64 0xFFF)).
Proof.
  intros H0 H1 Ha. destruct (page_up top ltac:(lia) H1) as [Hu Hm].
  rewrite (page_base_land base) by (unfold is_u64; lia). pose proof (page_base_le base).
  apply flush_range_covers; [by apply page_base_nonneg|apply page_base_mod|done|lia].
Qed.

(** ** Theorems *)

(** A machine with 512 free pages. *)
Definition big_pages : pages := mk_pages (store_bytes ∅ 0 (replicate 64 255)) 0x41000000 512 0x41200000.

Lemma big_pages_wf : pages_wf big_pages.
Proof.
  constructor; try (done || by vm_compute).
  intros a. unfold big_pages, BITMAP. rewrite ldb_store_bytes. case_decide; [|done].
  destruct (nth_in_or_default (Z.to_nat (a - 0)) (replicate 64 255) 0) as [H'| ->]; [|done].
  apply list_elem_of_In, elem_of_replicate in H' as [-> _]. done.
Qed.

Definition big_vmm : vmm_state :=
  mk_vmm (mk_machine big_pages ∅) 0x40300000 0x40301000 0x40302000 0x40300000 0x40301000 0x40302000.

(** Boot CPU 1, spawn a kernel task (slot 2, id 2) and let CPU 0 pick it up. *)
Definition boot_ops : list kop := [OSecondary 1; OSpawn [97] 0x40080000; OTick 0 0x1000].

Fixpoint exec_all (os : list kop) (k : kernel) : outcome kernel :=
  match os with
  | [] => Done k
  | o :: os' => k' ← exec o k; exec_all os' k'
  end.

Definition run_ops (os : list kop) : kernel :=
  match exec_all os (init (kernel0 big_vmm)) with Done k => k | Panic => kernel0 big_vmm end.

Fixpoint ops_ok (os : list kop) (k : kernel) : Prop :=
  match os with
  | [] => True
  | o :: os' => op_ok k o /\ match exec o k with Done k' => ops_ok os' k' | Panic => False end
  end.

Lemma exec_all_reach v os k : reach v k -> ops_ok os k ->
  exists k', exec_all os k = Done k' /\ reach v k'.
Proof.
  revert k. induction os as [|o os IH]; intros k Hr Hok; [by exists k|].
  destruct Hok as [Ho Hok]. cbn [exec_all]. destruct (exec o k) as [k1|] eqn:E; [|done].
  apply IH; [by eapply reach_step|done].
Qed.

Lemma run_ops_reach os : ops_ok os (init (kernel0 big_vmm)) -> reach big_vmm (run_ops os).
Proof.
  intros H. destruct (exec_all_reach big_vmm os _ (reach_init _) H) as (k & E & ?).
  unfold run_ops. by rewrite E.
Qed.

Lemma run_ops_wf os : ops_ok os (init (kernel0 big_vmm)) -> sched_wf (run_ops os).
Proof. intros H%run_ops_reach. by apply (reach_wf big_vmm _ big_pages_wf). Qed.

Lemma boot_ok : ops_ok boot_ops (init (kernel0 big_vmm)).
Proof. vm_compute. repeat (split; [done|]). done. Qed.

(** The task CPU 0 runs after [boot_ops]. *)
Definition booted : kernel := run_ops boot_ops.

Definition boot_task : Task :=
  match task_at booted 2 with Some t => t | None => idle_task booted 0 0 end.

Lemma booted_facts : sched_wf booted /\ ACTIVE booted = true /\ cur_slot booted 0 = 2 /\
  current_task booted (this_cpu 0) = Some (cur_slot booted 0, boot_task) /\ state boot_task = Running /\
  ticks_remaining boot_task = 1.
Proof. split; [apply run_ops_wf, boot_ok|]. vm_compute. done. Qed.



(** timer ticks keep the CPUs apart.  If no two CPUs share a task and no
    CPU's task is marked [Ready], then after any sequence of ticks on any CPUs
    the same holds, and none of the ticks panics. *)
Theorem ticks_exclusive l k :
  sched_wf k -> cpu_inv k -> exclusive k -> Forall (fun x => 0 <= x.1) l ->
  exists k', run_ticks l k = Done k' /\ sched_wf k' /\ cpu_inv k' /\ exclusive k'.
Proof.
  intros Hwf Hi Hx Hl. revert k Hwf Hi Hx. induction Hl as [|[cpu csp] l Hc _ IH]; intros k Hwf Hi Hx.
  { by exists k. }
  destruct (schedule_next_ok cpu csp k Hwf Hc) as (r & k1 & ev & E & Hwf1).
  destruct (tick_exclusive_step cpu csp k r k1 ev Hwf Hc Hi Hx E) as [Hi1 Hx1].
  cbn [run_ticks]. rewrite E. cbn [mbind outcome_bind]. by apply IH.
Qed.

Lemma ticks_exclusive_witness :
  exists k', run_ticks [(0, 0x3000); (1, 0x4000); (0, 0x5000)] booted = Done k' /\ exclusive k'.
Proof.
  destruct booted_facts as (Hwf & _ & _ & _ & _).
  destruct (ticks_exclusive [(0, 0x3000); (1, 0x4000); (0, 0x5000)] booted) as (k' & E & _ & _ & Hx);
    [exact Hwf| | |repeat constructor; done|exists k'; exact (conj E Hx)].
  - intros c Hc. assert (c = 0 \/ c = 1 \/ c = 2 \/ c = 3) as [->|[->|[->| ->]]] by lia;
      [right|right|by left|by left]; eexists; vm_compute; done.
  - intros c c' Hc Hc' Hne.
    assert (c = 0 \/ c = 1 \/ c = 2 \/ c = 3) as Hc1 by lia.
    assert (c' = 0 \/ c' = 1 \/ c' = 2 \/ c' = 3) as Hc2 by lia.
    destruct Hc1 as [->|[->|[->| ->]]], Hc2 as [->|[->|[->| ->]]]; vm_compute; done || congruence.
Defined.

(** [yield_cpu] breaks that exclusivity: it marks the task [Ready] while its
    CPU still executes it, so a tick on another CPU picks the same task.  Here
    CPUs 0 and 1 both end up running slot 2. *)
Theorem yield_double_run :
  exists k, reach big_vmm k /\ cur_slot k 0 = 2 /\ cur_slot k 1 = 2 /\ ~ exclusive k.
Proof.
  exists (run_ops (boot_ops ++ [OYield 0; OTick 1 0x2000])).
  split; [apply run_ops_reach; vm_compute; repeat (split; [done|]); done|].
  split; [by vm_compute|]. split; [by vm_compute|].
  intros H. specialize (H 0 1 ltac:(lia) ltac:(lia) ltac:(lia)). vm_compute in H. specialize (H eq_refl). done.
Qed.

(** The task of CPU 0 has exited and CPU 0 has not ticked since. *)
Definition exited : kernel := run_ops (boot_ops ++ [OExit 0 0]).

Lemma exited_facts : reach big_vmm exited /\ cur_slot exited 0 = 2 /\
  (exists t, task_at exited 2 = Some t /\ stack_base t = 0x41000000 /\ state t = Dead) /\
  page_free (pg (mach exited)) ((0x41000000 - 0x41000000) / 4096) = false.
Proof.
  split; [apply (run_ops_reach (boot_ops ++ [OExit 0 0])); vm_compute; repeat (split; [done|]); done|].
  split; [by vm_compute|]. split; [|by vm_compute].
  exists (match task_at exited 2 with Some t => t | None => boot_task end). by vm_compute.
Qed.

(** CPU 1 waits for the dead task. *)
Definition reaped : kernel :=
  match wait_for_tid 1 2 exited with Done (_, k) => k | Panic => exited end.

(** [wait_for_tid] reaps a task that is still on a CPU.  A task exits on CPU
    0; before CPU 0's next tick a wait on CPU 1 frees the pages of the very
    kernel stack CPU 0 is executing on, and empties the slot CPU 0 points at. *)
Theorem wait_frees_live_stack :
  exists k base k', reach big_vmm k /\ cur_slot k 0 = 2 /\
    (exists t, task_at k 2 = Some t /\ stack_base t = base /\ state t = Dead) /\
    wait_for_tid 1 2 k = Done (Some 0, k') /\ cur_slot k' 0 = 2 /\ task_at k' 2 = None /\
    page_free (pg (mach k)) ((base - 0x41000000) / 4096) = false /\
    page_free (pg (mach k')) ((base - 0x41000000) / 4096) = true.
Proof.
  destruct exited_facts as (Hr & Hs & Ht & Hp). exists exited, 0x41000000, reaped.
  split; [exact Hr|]. split; [exact Hs|]. split; [exact Ht|]. split; [vm_compute; reflexivity|].
  split; [vm_compute; reflexivity|]. split; [vm_compute; reflexivity|].
  split; [exact Hp|vm_compute; reflexivity].
Qed.

(** time slices.  A running task with [n + 1] ticks remaining keeps its CPU
    for exactly [n] further ticks: they return to it, no CPU changes its task, no
    other task is touched, and afterwards one tick remains.  As a switch sets
    [ticks_remaining] to the priority, a task of priority [p] runs [p] ticks. *)
Theorem time_slice n cpu sps k t :
  sched_wf k -> 0 <= cpu -> ACTIVE k = true -> length sps = n ->
  current_task k (this_cpu cpu) = Some (cur_slot k cpu, t) -> state t = Running ->
  ticks_remaining t = Z.of_nat n + 1 ->
  exists k' t', run_ticks ((fun x => (cpu, x)) <$> sps) k = Done k' /\ CURRENT k' = CURRENT k /\
    current_task k' (this_cpu cpu) = Some (cur_slot k cpu, t') /\ state t' = Running /\
    ticks_remaining t' = 1 /\ (forall j, 0 <= j < 16 -> j <> cur_slot k cpu -> task_at k' j = task_at k j).
Proof. apply slice_ok. Qed.

(** The task spawned by [boot_ops] with priority 3, switched to again. *)
Definition prio_ops : list kop := [OSecondary 1; OSpawn [97] 0x40080000; OPriority 2 3; OTick 0 0x1000].

Lemma time_slice_witness :
  exists k t, task_at (run_ops prio_ops) 2 = Some t /\ ticks_remaining t = 3 /\
    run_ticks [(0, 0x2000); (0, 0x2100)] (run_ops prio_ops) = Done k /\
    CURRENT k = CURRENT (run_ops prio_ops).
Proof.
  assert (Hok : ops_ok prio_ops (init (kernel0 big_vmm))) by (vm_compute; repeat (split; [done|]); done).
  set (t := match task_at (run_ops prio_ops) 2 with Some t => t | None => boot_task end).
  destruct (time_slice 2 0 [0x2000; 0x2100] (run_ops prio_ops) t) as (k & t' & E & HC & _);
    [apply run_ops_wf, Hok|lia|by vm_compute|done|by vm_compute|by vm_compute|by vm_compute|].
  exists k, t. split; [by vm_compute|]. split; [by vm_compute|]. exact (conj E HC).
Defined.



(** a switch to another address space flushes the whole user footprint of
    the incoming task: the new TTBR0 is installed before an invalidation of every
    page of its code/data range and of its stack range, and a barrier follows. *)
Theorem switch_flushes_footprint k cpu n a :
  task_ttbr0 n <> 0 -> task_ttbr0 n <> nth (Z.to_nat cpu) (CURRENT_TTBR0 k) 0 ->
  0 <= user_va_base n -> user_va_top n + 0xFFF < 2 ^ 64 ->
  0 <= user_stack_base n -> user_stack_top n + 0xFFF < 2 ^ 64 ->
  user_va_base n <= a < user_va_top n \/ user_stack_base n <= a < user_stack_top n ->
  exists ev, (switch_ttbr0 k cpu n).2 =
      [Dsb_sy; Msr_ttbr0 (task_ttbr0 n); Isb] ++ ev ++ [Dsb_sy; Isb] /\ Tlbi_vaae1 (a / 4096) ∈ ev.
Proof.
  intros H0 H1 Hv Hvt Hs Hst Ha. unfold switch_ttbr0.
  rewrite (proj2 (Z.eqb_neq _ _) H0), (proj2 (Z.eqb_neq _ _) H1). cbn [negb andb snd].
  match goal with |- context [?x ++ (if ?b then ?y else []) ++ _] =>
    exists (x ++ if b then y else []); split; [by rewrite <- (app_assoc x)|] end.
  apply elem_of_app. destruct Ha as [Ha|Ha]; [left; by apply flush_user_range|right].
  rewrite (proj2 (Z.ltb_lt _ _)) by lia. by apply flush_user_range.
Qed.

Lemma switch_flushes_footprint_witness :
  exists ev, (switch_ttbr0 booted 0
      (mk_task 9 [] Ready 0 0 0 Mailbox_new User 0 0x41100000 0 None 0x400000 0x402010 0x500000 0x501000
         1 1 0 None (0, 0) 0 0 0)).2 = [Dsb_sy; Msr_ttbr0 0x41100000; Isb] ++ ev ++ [Dsb_sy; Isb] /\
    Tlbi_vaae1 0x402 ∈ ev.
Proof.
  refine (switch_flushes_footprint booted 0 (mk_task 9 [] Ready 0 0 0 Mailbox_new User 0 0x41100000 0 None
    0x400000 0x402010 0x500000 0x501000 1 1 0 None (0, 0) 0 0 0) 0x402008 _ _ _ _ _ _ _);
    (by vm_compute) || (left; by vm_compute).
Defined.
