(* ===== verification/SchedComm.v ===== *)
(** * Communication between tasks

    Message passing, exit and wait, and signals: what a sender, an exiting task
    or a signal source does to the task at the other end. *)

From stdpp Require Import base numbers list gmap strings.
From Stdlib Require Import ZArith Lia.
From S2P Require Import Prelude Machine PageAlloc Vmm VmmProofs Ipc Task Sched SchedInv SchedProps.

(** ** Messages *)

Lemma put_task_same k i t : 0 <= i -> task_at k i = Some t -> put_task i (Some t) k = k.
Proof.
  intros Hi Ht%task_at_some. unfold put_task, with_tasks. rewrite list_insert_id by done. by destruct k.
Qed.

Lemma set_mailbox_same t : set_mailbox (mailbox t) t = t.
Proof. by destruct t. Qed.

Lemma find_task_at k i t : sched_wf k -> 0 <= i < 16 -> task_at k i = Some t ->
  find_task k (tid t) = Some (i, t).
Proof.
  intros Hwf Hi Ht%task_at_some. rewrite (find_task_unique k (tid t) _ t Hwf Ht) by done.
  by rewrite Z2Nat.id by lia.
Qed.

Lemma send_message_room k i t l msg : sched_wf k -> 0 <= i < 16 -> task_at k i = Some t ->
  fifo_rep (mailbox t) l -> (length l < 8)%nat ->
  exists mb, send_message (tid t) msg k = Done (Ok tt, put_task i (Some (wake (set_mailbox mb t))) k) /\
    fifo_rep mb (l ++ [msg]).
Proof.
  intros Hwf Hi Ht Hl Hlen. unfold send_message. rewrite (find_task_at k i t) by done.
  destruct (fifo_push_room (mailbox t) l msg Hl Hlen) as (mb & -> & Hmb). by exists mb.
Qed.

Lemma send_message_full k i t l msg : sched_wf k -> 0 <= i < 16 -> task_at k i = Some t ->
  fifo_rep (mailbox t) l -> length l = 8%nat -> send_message (tid t) msg k = Done (Err tt, k).
Proof.
  intros Hwf Hi Ht Hl Hlen. unfold send_message. rewrite (find_task_at k i t) by done.
  rewrite (fifo_push_full (mailbox t) l msg Hl Hlen). cbn [mbind outcome_bind].
  by rewrite set_mailbox_same, put_task_same by (done || lia).
Qed.

Lemma recv_message_cons k cpu i t m l : current_task k cpu = Some (i, t) ->
  fifo_rep (mailbox t) (m :: l) ->
  exists mb, recv_message cpu k = Done (Some m, put_task i (Some (set_mailbox mb t)) k) /\ fifo_rep mb l.
Proof.
  intros Hc Hl. unfold recv_message. rewrite Hc.
  destruct (fifo_pop_cons (mailbox t) m l Hl) as (mb & -> & Hmb). by exists mb.
Qed.

(** The mailbox contents of the task current on [cpu]. *)
Definition holds (k : kernel) (cpu target : Z) (l : list Message) : Prop :=
  sched_wf k /\ exists i t, current_task k cpu = Some (i, t) /\ tid t = target /\ fifo_rep (mailbox t) l.

Lemma current_put k cpu i t t' : sched_wf k -> 0 <= cpu -> current_task k cpu = Some (i, t) ->
  current_task (put_task i (Some t') k) cpu = Some (i, t').
Proof.
  intros Hwf Hc Hcur. destruct (current_task_some k cpu i t Hwf Hc Hcur) as (-> & Hr & _).
  unfold current_task. change (cur_slot (put_task _ _ k) cpu) with (cur_slot k cpu).
  rewrite (proj2 (Z.ltb_lt _ _)) by (unfold MAX_TASKS; lia). by rewrite put_task_here.
Qed.

Lemma holds_send k cpu target l msg : 0 <= cpu -> holds k cpu target l -> (length l < 8)%nat ->
  exists k', send_message target msg k = Done (Ok tt, k') /\ holds k' cpu target (l ++ [msg]).
Proof.
  intros Hc (Hwf & i & t & Hcur & Ht & Hl) Hlen.
  destruct (current_task_some k cpu i t Hwf Hc Hcur) as (_ & Hr & Hat). apply task_at_some in Hat.
  destruct (send_message_room k i t l msg Hwf Hr Hat Hl Hlen) as (mb & E & Hmb). rewrite Ht in E.
  destruct (send_message_ok target msg k Hwf) as (r & k' & E' & Hwf'). rewrite E in E'.
  injection E' as <- <-. eexists. split; [done|]. split; [done|].
  exists i, (wake (set_mailbox mb t)). split; [by eapply current_put|].
  destruct (wake_same (set_mailbox mb t)) as [-> ->]. done.
Qed.

Lemma holds_recv k cpu target m l : 0 <= cpu -> holds k cpu target (m :: l) ->
  exists k', recv_message cpu k = Done (Some m, k') /\ holds k' cpu target l.
Proof.
  intros Hc (Hwf & i & t & Hcur & Ht & Hl).
  destruct (recv_message_cons k cpu i t m l Hcur Hl) as (mb & E & Hmb).
  destruct (recv_ok cpu k Hwf Hc) as [(r & k' & E' & Hwf') _]. rewrite E in E'.
  injection E' as <- <-. eexists. split; [done|]. split; [done|].
  exists i, (set_mailbox mb t). split; [by eapply current_put|done].
Qed.

Fixpoint send_all (target : Z) (ms : list Message) (k : kernel) : outcome (list (result unit unit) * kernel) :=
  match ms with
  | [] => Done ([], k)
  | m :: ms' => '(r, k) ← send_message target m k; '(rs, k) ← send_all target ms' k; Done (r :: rs, k)
  end.

Fixpoint recv_n (cpu : Z) (n : nat) (k : kernel) : outcome (list (option Message) * kernel) :=
  match n with
  | O => Done ([], k)
  | S n' => '(r, k) ← recv_message cpu k; '(rs, k) ← recv_n cpu n' k; Done (r :: rs, k)
  end.

Lemma send_all_holds ms k cpu target l : 0 <= cpu -> holds k cpu target l ->
  (length l + length ms <= 8)%nat ->
  exists k', send_all target ms k = Done (replicate (length ms) (Ok tt), k') /\ holds k' cpu target (l ++ ms).
Proof.
  intros Hc. revert k l. induction ms as [|m ms IH]; intros k l Hh Hlen.
  { exists k. by rewrite app_nil_r. }
  cbn [length] in Hlen. destruct (holds_send k cpu target l m Hc Hh) as (k1 & E & H1); [lia|].
  destruct (IH k1 (l ++ [m]) H1) as (k2 & E2 & H2); [rewrite length_app; simpl; lia|].
  exists k2. cbn [send_all]. rewrite E. cbn [mbind outcome_bind]. rewrite E2. split; [done|].
  by rewrite <- app_assoc in H2.
Qed.

Lemma recv_n_holds ms k cpu target l : 0 <= cpu -> holds k cpu target (ms ++ l) ->
  exists k', recv_n cpu (length ms) k = Done (Some <$> ms, k') /\ holds k' cpu target l.
Proof.
  intros Hc. revert k. induction ms as [|m ms IH]; intros k Hh; [by exists k|].
  destruct (holds_recv k cpu target m (ms ++ l) Hc Hh) as (k1 & E & H1).
  destruct (IH k1 H1) as (k2 & E2 & H2).
  exists k2. cbn [recv_n length]. rewrite E. cbn [mbind outcome_bind]. by rewrite E2.
Qed.

(** ** Exit and wait *)

(** The frame slot [regs[0]] of a task that waits for [t]. *)
Definition waiter_x0 (t : Z) (o : option Task) : option Z :=
  match o with
  | Some w => if bool_decide (wait_tid w = Some t) then Some (to_dma_addr (sp w + TF_regs)) else None
  | None => None
  end.

(** Two waiters' result slots coincide or do not overlap. *)
Definition frames_apart (t : Z) (l : list (option Task)) : Prop :=
  forall o o' a b, o ∈ l -> o' ∈ l -> waiter_x0 t o = Some a -> waiter_x0 t o' = Some b ->
    a = b \/ a + 8 <= b \/ b + 8 <= a.

Lemma write_x0_ram t code o m :
  ram (write_x0 t code o m) =
  match waiter_x0 t o with Some a => st 8 (ram m) a (as_u64 code) | None => ram m end.
Proof. unfold write_x0, waiter_x0. destruct o as [w|]; [|done]. by case_bool_decide. Qed.

Lemma foldl_x0_keep t code l m a :
  (forall o b, o ∈ l -> waiter_x0 t o = Some b -> a = b \/ a + 8 <= b \/ b + 8 <= a) ->
  ld 8 (ram m) a = as_u64 code ->
  ld 8 (ram (foldl (fun m o => write_x0 t code o m) m l)) a = as_u64 code.
Proof.
  revert m. induction l as [|o l IH]; intros m Hl Ha; [done|]. simpl. apply IH; [set_solver|].
  rewrite write_x0_ram. destruct (waiter_x0 t o) as [b|] eqn:E; [|done].
  destruct (Hl o b) as [->|Hd]; [set_solver|done| |].
  - rewrite ld_st_same. apply Z.mod_small. exact (as_u64_range code).
  - rewrite ld_st_other; [done|]. simpl. lia.
Qed.

Lemma foldl_x0_written t code l m o a : frames_apart t l -> o ∈ l -> waiter_x0 t o = Some a ->
  ld 8 (ram (foldl (fun m o => write_x0 t code o m) m l)) a = as_u64 code.
Proof.
  revert m. induction l as [|o' l IH]; intros m Hf Ho Ha; [by apply not_elem_of_nil in Ho|]. simpl.
  apply elem_of_cons in Ho as [<-|Ho].
  - apply foldl_x0_keep.
    + intros o' b Hb Eb. apply (Hf o o' a b); [left|by right|done..].
    + rewrite write_x0_ram, Ha, ld_st_same. apply Z.mod_small. exact (as_u64_range code).
  - apply IH; [|done..]. intros o1 o2 a1 a2 H1 H2. apply Hf; by right.
Qed.

(** The exiting task as it is left in the pool. *)
Definition exited_task (code : Z) (t : Task) : Task := set_exit_code code (set_state Dead t).

Lemma exit_task_pool cpu code k i t : sched_wf k -> 0 <= cpu -> current_task k cpu = Some (i, t) ->
  TASKS (exit_task cpu code k) = wake_waiter (tid t) <$> <[Z.to_nat i := Some (exited_task code t)]> (TASKS k).
Proof.
  intros Hwf Hc Hcur. unfold exit_task, update_current, current_tid, current_field. by rewrite !Hcur.
Qed.

Lemma exit_task_at cpu code k i t j : sched_wf k -> 0 <= cpu -> current_task k cpu = Some (i, t) ->
  wait_tid t <> Some (tid t) -> 0 <= j < 16 ->
  task_at (exit_task cpu code k) j =
  if decide (j = i) then Some (exited_task code t) else wake_waiter (tid t) (task_at k j).
Proof.
  intros Hwf Hc Hcur Hself Hj. unfold task_at. rewrite (exit_task_pool cpu code k i t) by done.
  destruct (current_task_some k cpu i t Hwf Hc Hcur) as (_ & Hi & Ht).
  rewrite list_lookup_fmap, list_lookup_insert, (wf_tasks _ Hwf).
  case_decide as H1; case_decide as H2; try (exfalso; lia).
  - simpl. by rewrite bool_decide_false.
  - by destruct (TASKS k !! Z.to_nat j) as [o|] eqn:E.
Qed.

Lemma foldl_x0_pg t code l m : pg (foldl (fun m o => write_x0 t code o m) m l) = pg m.
Proof.
  revert m. induction l as [|o l IH]; intros m; [done|]. simpl. rewrite IH. unfold write_x0.
  destruct o as [w|]; [|done]. by case_bool_decide.
Qed.

Lemma exit_task_pg cpu code k : pg (mach (exit_task cpu code k)) = pg (mach k).
Proof.
  unfold exit_task. cbn [mach kvm with_mach vm]. rewrite foldl_x0_pg.
  unfold update_current. by destruct (current_task k cpu) as [[i x]|].
Qed.

(** The result slot of a waiter after the exit. *)
Lemma exit_task_x0 cpu code k i t j w : sched_wf k -> 0 <= cpu -> current_task k cpu = Some (i, t) ->
  wait_tid t <> Some (tid t) -> frames_apart (tid t) (TASKS k) ->
  0 <= j < 16 -> j <> i -> task_at k j = Some w -> wait_tid w = Some (tid t) ->
  ld 8 (ram (mach (exit_task cpu code k))) (to_dma_addr (sp w + TF_regs)) = as_u64 code.
Proof.
  intros Hwf Hc Hcur Hself Hfr Hj Hne Hw Hww.
  destruct (current_task_some k cpu i t Hwf Hc Hcur) as (_ & Hi & Ht). apply task_at_some in Hw.
  unfold exit_task, update_current, current_tid, current_field. rewrite !Hcur. cbn [mach kvm with_mach vm].
  assert (Hx : forall o, o ∈ <[Z.to_nat i := Some (exited_task code t)]> (TASKS k) ->
    waiter_x0 (tid t) o <> None -> o ∈ TASKS k).
  { intros o [n Hn]%list_elem_of_lookup Ho. rewrite list_lookup_insert in Hn. case_decide.
    - injection Hn as <-. simpl in Ho. by rewrite bool_decide_false in Ho.
    - by eapply list_elem_of_lookup_2. }
  apply (foldl_x0_written (tid t) code _ _ (Some w)).
  - intros o o' a b Ho Ho' Ha Hb. apply (Hfr o o' a b); try done; apply Hx; try done; congruence.
  - eapply (list_elem_of_lookup_2 _ (Z.to_nat j)). cbn [put_task TASKS with_tasks].
    rewrite list_lookup_insert_ne by lia. done.
  - simpl. by rewrite bool_decide_true.
Qed.

(** ** Signals *)

Lemma trailing_zeros_spec n x : (exists b, 0 <= b < Z.of_nat n /\ Z.testbit x b = true) ->
  0 <= trailing_zeros n x < Z.of_nat n /\ Z.testbit x (trailing_zeros n x) = true /\
  (forall b, 0 <= b < trailing_zeros n x -> Z.testbit x b = false).
Proof.
  revert x. induction n as [|n IH]; intros x (b & Hb & Hx); [lia|]. cbn [trailing_zeros].
  destruct (Z.testbit x 0) eqn:E0; [split; [lia|split; [done|lia]]|].
  assert (Hs : forall c, 0 <= c -> Z.testbit (Z.shiftr x 1) c = Z.testbit x (c + 1))
    by (intros; apply Z.shiftr_spec; lia).
  destruct (IH (Z.shiftr x 1)) as (H1 & H2 & H3).
  { exists (b - 1). assert (b <> 0) by (intros ->; congruence). rewrite Hs by lia.
    replace (b - 1 + 1) with b by lia. split; [lia|done]. }
  split; [lia|]. split; [rewrite Hs in H2 by lia; by rewrite Z.add_comm|].
  intros c Hc. destruct (decide (c = 0)) as [->|]; [done|].
  specialize (H3 (c - 1) ltac:(lia)). rewrite Hs in H3 by lia. by replace (c - 1 + 1) with c in H3 by lia.
Qed.

Lemma land_u32_l a b : is_u32 a -> is_u32 (Z.land a b).
Proof.
  intros Ha. assert (H0 : 0 <= Z.land a b) by (apply Z.land_nonneg; left; apply Ha).
  split; [done|]. apply lt_pow2_by_bits; [lia|done|].
  intros n Hn. rewrite Z.land_spec, (testbit_high 32 a) by done. done.
Qed.

Lemma not32_testbit x b : 0 <= b < 32 -> Z.testbit (not32 x) b = negb (Z.testbit x b).
Proof.
  intros Hb. unfold not32. rewrite Z.lxor_spec. change (2 ^ 32 - 1) with (Z.ones 32).
  rewrite Z.ones_spec_low by lia. apply xorb_true_r.
Qed.

(** ** Theorems *)

(** messages arrive, once each and in order.  Up to eight messages sent to
    the task that runs on [cpu], whose mailbox is empty, are all accepted, and as
    many receives on that CPU return exactly these messages in that order. *)
Theorem messages_in_order k cpu target ms :
  0 <= cpu -> holds k cpu target [] -> (length ms <= 8)%nat ->
  exists k1 k2, send_all target ms k = Done (replicate (length ms) (Ok tt), k1) /\
    recv_n cpu (length ms) k1 = Done (Some <$> ms, k2) /\ holds k2 cpu target [].
Proof.
  intros Hc Hh Hl. destruct (send_all_holds ms k cpu target [] Hc Hh) as (k1 & E1 & H1); [simpl; lia|].
  destruct (recv_n_holds ms k1 cpu target [] Hc) as (k2 & E2 & H2); [by rewrite app_nil_r|].
  by exists k1, k2.
Qed.

Lemma messages_in_order_witness :
  exists k1 k2, send_all 2 [mk_msg 0 [1]; mk_msg 1 [2]] booted = Done ([Ok tt; Ok tt], k1) /\
    recv_n 0 2 k1 = Done ([Some (mk_msg 0 [1]); Some (mk_msg 1 [2])], k2) /\ holds k2 0 2 [].
Proof.
  apply (messages_in_order booted 0 2 [mk_msg 0 [1]; mk_msg 1 [2]]); [lia| |simpl; lia].
  destruct booted_facts as (Hwf & _). split; [exact Hwf|]. exists 2, boot_task.
  split; [by vm_compute|]. split; [by vm_compute|].
  change (fifo_rep (mailbox boot_task) []). replace (mailbox boot_task) with Mailbox_new by (by vm_compute).
  apply ring_new.
Defined.

(** a full mailbox refuses: the sender gets an error and nothing changes. *)
Theorem send_full_rejected k i t l msg :
  sched_wf k -> 0 <= i < 16 -> task_at k i = Some t -> fifo_rep (mailbox t) l -> length l = 8%nat ->
  send_message (tid t) msg k = Done (Err tt, k).
Proof. apply send_message_full. Qed.

Definition full_mailbox : Mailbox := mk_mailbox (replicate 8 (Some (mk_msg 0 []))) 0 0 8.

Lemma full_ring : ring full_mailbox (replicate 8 (mk_msg 0 [])).
Proof.
  constructor; [done|done|done|done|simpl; lia|].
  intros n Hn. do 8 (destruct n as [|n]; [by vm_compute|]). lia.
Qed.

Lemma send_full_rejected_witness :
  send_message 2 (mk_msg 1 [9]) (put_task 2 (Some (set_mailbox full_mailbox boot_task)) booted) =
  Done (Err tt, put_task 2 (Some (set_mailbox full_mailbox boot_task)) booted).
Proof.
  destruct booted_facts as (Hwf & _).
  apply (send_full_rejected _ 2 (set_mailbox full_mailbox boot_task) (replicate 8 (mk_msg 0 [])));
    [|lia|by vm_compute|exact full_ring|reflexivity].
  eapply wf_put_same; [exact Hwf|by vm_compute|reflexivity|].
  eexists. exact full_ring.
Defined.

(** exit and wait.  When the task in slot [i] exits with [code] on its CPU,
    every task blocked in a wait for it becomes [Ready] with [code] in [x0] of its
    saved frame, no other task changes, and a later wait for its id on any CPU
    returns [code], frees its slot and gives its kernel stack back. *)
Theorem exit_wait_handshake cpu cpu' code k i t s n :
  sched_wf k -> 0 <= cpu -> 0 <= cpu' -> current_task k cpu = Some (i, t) -> wait_tid t <> Some (tid t) ->
  stack_base t = page_addr (pg (mach k)) s -> stack_base t <> 0 -> 0 <= s -> 0 < n ->
  s + n <= NUM_PAGES (pg (mach k)) -> stack_size t = n * PAGE_SIZE ->
  frames_apart (tid t) (TASKS k) ->
  (forall j w, 0 <= j < 16 -> j <> i -> task_at k j = Some w -> wait_tid w = Some (tid t) ->
     task_at (exit_task cpu code k) j = Some (set_state Ready (set_wait_tid None w)) /\
     ld 8 (ram (mach (exit_task cpu code k))) (to_dma_addr (sp w + TF_regs)) = as_u64 code) /\
  (forall j w, 0 <= j < 16 -> j <> i -> task_at k j = Some w -> wait_tid w <> Some (tid t) ->
     task_at (exit_task cpu code k) j = Some w) /\
  exists k2, wait_for_tid cpu' (tid t) (exit_task cpu code k) = Done (Some code, k2) /\
    task_at k2 i = None /\ forall j, s <= j < s + n -> page_free (pg (mach k2)) j = true.
Proof.
  intros Hwf Hc Hc' Hcur Hself Hb Hb0 Hs Hn Hsn Hsz Hfr.
  destruct (current_task_some k cpu i t Hwf Hc Hcur) as (_ & Hi & Ht).
  pose proof (fun j => exit_task_at cpu code k i t j Hwf Hc Hcur Hself) as Hat.
  split; [|split].
  - intros j w Hj Hne Hw Hww. rewrite Hat, decide_False, Hw by done. simpl.
    rewrite bool_decide_true by done. split; [done|]. by apply (exit_task_x0 cpu code k i t j).
  - intros j w Hj Hne Hw Hww. rewrite Hat, decide_False, Hw by done. simpl.
    by rewrite bool_decide_false.
  - pose proof (exit_task_pg cpu code k) as Hpg.
    destruct (release_pages_correct (pg (mach k)) s n (wf_pages _ Hwf) Hs ltac:(lia) Hsn)
      as (p & Hp & _ & _ & Hfree).
    pose proof (find_task_at (exit_task cpu code k) i (exited_task code t)
      (exit_task_ok _ _ _ Hwf Hc) Hi ltac:(by rewrite Hat, decide_True)) as Hft.
    change (tid (exited_task code t)) with (tid t) in Hft.
    unfold wait_for_tid. rewrite Hft. change (state_is Dead (exited_task code t)) with true.
    cbn [exited_task stack_base stack_size exit_code set_exit_code set_state].
    rewrite (proj2 (Z.eqb_neq _ _) Hb0), (proj2 (Z.eqb_neq (stack_size t) 0)) by (rewrite Hsz; unfold PAGE_SIZE; lia).
    cbn [negb andb]. change (mach (put_task i None _)) with (mach (exit_task cpu code k)).
    rewrite Hpg, Hb, Hsz, Z.div_mul, Hp by done. cbn [mbind outcome_bind].
    eexists. split; [done|]. split.
    + exact (put_task_here (exit_task cpu code k) i None (exit_task_ok _ _ _ Hwf Hc) Hi).
    + intros j Hj. cbn [mach kvm with_mach vm pg]. rewrite Hfree by lia.
      rewrite (proj2 (Z.leb_le _ _)), (proj2 (Z.ltb_lt _ _)) by lia. done.
Qed.

(** At most one waiter. *)
Lemma frames_apart_one t l a : omap (waiter_x0 t) l = [a] -> frames_apart t l.
Proof.
  intros E o o' b c Ho Ho' Hb Hc. left.
  assert (H : forall x y, x ∈ l -> waiter_x0 t x = Some y -> y = a); [|by rewrite (H o b), (H o' c)].
  intros x y Hx Hy. apply list_elem_of_singleton. rewrite <- E. apply list_elem_of_omap. by exists x.
Qed.

(** CPU 1 waits for the task that runs on CPU 0. *)
Definition waiting : kernel := run_ops (boot_ops ++ [OWait 1 2]).

Lemma waiting_wf : sched_wf waiting.
Proof. apply run_ops_wf. vm_compute. repeat (split; [done|]). done. Qed.

Lemma exit_wait_handshake_witness :
  task_at waiting 1 <> None /\
  exists k2, wait_for_tid 1 2 (exit_task 0 (-3) waiting) = Done (Some (-3), k2) /\ task_at k2 2 = None /\
    forall j, 0 <= j < 0 + 256 -> page_free (pg (mach k2)) j = true.
Proof.
  split; [by vm_compute|].
  pose (t := match task_at waiting 2 with Some t => t | None => idle_task booted 0 0 end).
  refine (proj2 (proj2 (exit_wait_handshake 0 1 (-3) waiting 2 t 0 256 waiting_wf _ _ _ _ _ _ _ _ _ _ _)));
    [lia|lia|by vm_compute|by vm_compute|by vm_compute|by vm_compute|lia|lia|by vm_compute|by vm_compute|].
  apply (frames_apart_one _ _ 0). by vm_compute.
Defined.

(** [pop_pending_signal] delivers the lowest-numbered signal that is pending
    and not masked and clears exactly its bit; it answers [None], changing
    nothing, only when every pending signal is masked. *)
Theorem pop_signal_lowest k cpu i t :
  sched_wf k -> 0 <= cpu -> current_task k cpu = Some (i, t) -> is_u32 (pending_signals t) ->
  match pop_pending_signal cpu k with
  | (Some s, k') => 0 <= s < 32 /\
      Z.testbit (pending_signals t) s = true /\ Z.testbit (signal_mask t) s = false /\
      (forall b, 0 <= b < s -> Z.testbit (pending_signals t) b = true -> Z.testbit (signal_mask t) b = true) /\
      exists t', task_at k' i = Some t' /\ forall b, 0 <= b < 32 ->
        Z.testbit (pending_signals t') b = Z.testbit (pending_signals t) b && negb (b =? s)
  | (None, k') => k' = k /\
      forall b, 0 <= b < 32 -> Z.testbit (pending_signals t) b = true -> Z.testbit (signal_mask t) b = true
  end.
Proof.
  intros Hwf Hc Hcur Hu. destruct (current_task_some k cpu i t Hwf Hc Hcur) as (_ & Hi & _).
  unfold pop_pending_signal. rewrite Hcur. set (d := Z.land _ _).
  assert (Hd : forall b, 0 <= b < 32 -> Z.testbit d b =
    Z.testbit (pending_signals t) b && negb (Z.testbit (signal_mask t) b)).
  { intros b Hb. unfold d. by rewrite Z.land_spec, not32_testbit. }
  destruct (Z.eqb_spec d 0) as [Ez|Hnz].
  - split; [done|]. intros b Hb Hp. specialize (Hd b Hb). rewrite Ez, Z.bits_0, Hp in Hd.
    by destruct (Z.testbit (signal_mask t) b).
  - assert (Hd32 : is_u32 d) by (by apply land_u32_l).
    assert (Hex : exists b, 0 <= b < Z.of_nat 32 /\ Z.testbit d b = true).
    { assert (0 < d) by (unfold is_u32 in Hd32; lia). exists (Z.log2 d).
      split; [|by apply Z.bit_log2]. split; [apply Z.log2_nonneg|].
      apply Z.log2_lt_pow2; [done|]. apply Hd32. }
    destruct (trailing_zeros_spec 32 d Hex) as (Hr & Hb & Hlow). set (s := trailing_zeros 32 d) in *.
    assert (Hr' : 0 <= s < 32) by (simpl in Hr; lia).
    pose proof Hb as Hb'. rewrite Hd in Hb' by done. apply andb_prop in Hb' as [Hp Hm%negb_true_iff].
    split; [done|]. split; [done|]. split; [done|]. split.
    { intros b Hbs Hpb. specialize (Hlow b Hbs). rewrite Hd, Hpb in Hlow by lia.
      by destruct (Z.testbit (signal_mask t) b). }
    eexists. split; [by apply put_task_here|]. intros b Hbb.
    cbn [pending_signals set_pending_signals]. rewrite Z.land_spec, not32_testbit by done.
    rewrite Z.shiftl_1_l, Z.pow2_bits_eqb by lia. by rewrite Z.eqb_sym.
Qed.

(** Signals 3 and 5 are pending, 3 is masked. *)
Definition signalled : kernel :=
  put_task 2 (Some (set_signal_mask 8 (set_pending_signals 40 boot_task))) booted.

Lemma pop_signal_lowest_witness :
  (pop_pending_signal 0 signalled).1 = Some 5 /\ Z.testbit 40 5 = true /\ Z.testbit 8 5 = false.
Proof.
  split; [by vm_compute|].
  assert (Hwf : sched_wf signalled).
  { destruct booted_facts as (Hwf & _). eapply wf_put_same; [exact Hwf|by vm_compute|reflexivity|].
    eexists. exact ring_new. }
  pose proof (pop_signal_lowest signalled 0 2
    (set_signal_mask 8 (set_pending_signals 40 boot_task)) Hwf ltac:(lia) ltac:(by vm_compute)
    ltac:(by vm_compute)) as H.
  assert (E : (pop_pending_signal 0 signalled).1 = Some 5) by by vm_compute.
  destruct (pop_pending_signal 0 signalled) as [[s|] k'] in H, E; [|discriminate E].
  injection E as ->. destruct H as (_ & H1 & H2 & _). exact (conj H1 H2).
Defined.
