(* ===== verification/SpawnProofs.v ===== *)
(** * Spawning user tasks

    End-to-end: what [spawn_user_entry_with_segs] leaves behind for the task it
    creates, from the page allocator through the process table to the trap frame
    the first dispatch restores. *)

From stdpp Require Import base numbers list gmap strings.
From Stdlib Require Import ZArith Lia.
From S2P Require Import Prelude Machine PageAlloc Vmm VmmProofs Ipc Task Sched SchedInv SchedProps.

(** ** The trap frame *)

Lemma frame_sp_stack base : 0 <= base -> base + TASK_STACK_SIZE <= MAX_RAM_END -> base mod 4096 = 0 ->
  frame_sp base TASK_STACK_SIZE = KERNEL_VA_OFFSET + (base + TASK_STACK_SIZE - TRAP_FRAME_SIZE).
Proof.
  intros H0 H1 Hm. unfold frame_sp, TASK_STACK_SIZE, TASK_STACK_PAGES, PAGE_SIZE, MAX_RAM_END in *.
  rewrite phys_to_virt_pa by (unfold is_pa; lia).
  rewrite (as_u64_small (base + KERNEL_VA_OFFSET + _)) by (unfold is_u64, KERNEL_VA_OFFSET; lia).
  change 0xF with (2 ^ 4 - 1). rewrite land_not_ones by (unfold is_u64, KERNEL_VA_OFFSET; lia).
  assert ((base + KERNEL_VA_OFFSET + 256 * 4096) mod 2 ^ 4 = 0) as ->.
  { replace (base + KERNEL_VA_OFFSET + 256 * 4096) with
      ((base / 4096 * 256 + 0xFFFF00000000000 + 65536) * 2 ^ 4).
    - by apply Z.mod_mul.
    - pose proof (Z.div_mod base 4096 ltac:(lia)). unfold KERNEL_VA_OFFSET. lia. }
  unfold TRAP_FRAME_SIZE. rewrite as_u64_small by (unfold is_u64, KERNEL_VA_OFFSET; lia). lia.
Qed.

(** The frame at physical address [fa]: its words, and nothing else changes. *)
Lemma write_frame_spec m fa elr spsr sp_el0 :
  0 <= fa -> fa + 280 <= 2 ^ 48 -> is_u64 elr -> is_u64 spsr -> is_u64 sp_el0 ->
  let m' := write_frame m (KERNEL_VA_OFFSET + fa) elr spsr sp_el0 in
  pg m' = pg m /\
  ld 8 (ram m') (fa + TF_elr) = elr /\ ld 8 (ram m') (fa + TF_spsr) = spsr /\
  ld 8 (ram m') (fa + TF_sp_el0) = sp_el0 /\
  (forall i, 0 <= i < 31 -> ld 8 (ram m') (fa + TF_regs + 8 * i) = 0) /\
  (forall a, ~ fa <= a < fa + 280 -> ldb (ram m') a = ldb (ram m) a).
Proof.
  intros H0 H1 He Hs Hp m'.
  assert (D : forall i, 0 <= i < 280 -> to_dma_addr (KERNEL_VA_OFFSET + fa + i) = fa + i).
  { intros i Hi. unfold to_dma_addr. case_ifs; unfold KERNEL_VA_OFFSET in *; lia. }
  assert (M : forall v, is_u64 v -> v mod 256 ^ Z.of_nat 8 = v) by (intros v Hv; by apply Z.mod_small).
  unfold m', write_frame, kst, kzero, TF_regs, TF_elr, TF_spsr, TF_sp_el0, TF_pad.
  cbn [ram pg]. rewrite !D by lia. split; [done|].
  split; [rewrite !ld_st_other by (simpl; lia); rewrite ld_st_same; by apply M|].
  split; [rewrite !ld_st_other by (simpl; lia); rewrite ld_st_same; by apply M|].
  split; [rewrite !ld_st_other by (simpl; lia); rewrite ld_st_same; by apply M|].
  split.
  - intros i Hi. rewrite !ld_st_other by (simpl; lia). apply ld_zero_range; simpl; lia.
  - intros a Ha. rewrite !ldb_st_other by (simpl; lia). rewrite ldb_zero_range, decide_False by lia. done.
Qed.

(** ** The task *)

(** What a freshly spawned user task looks like: its record, its address space
    and the frame its first dispatch restores (EL0, at [entry], on its stack). *)
Record spawned (k' : kernel) (slot : Z) (t : Task) (tid0 entry caps us : Z) (segs : list ProcSegment) : Prop := {
  sp_slot : task_at k' slot = Some t;
  sp_tid : tid t = tid0;
  sp_state : state t = Ready;
  sp_priv : privilege t = User;
  sp_caps : capabilities t = caps;
  sp_table : table_matches (ram (mach k')) (task_ttbr0 t)
               (segs ++ [mk_seg us USER_STACK_SIZE true false false]);
  sp_elr : kld 8 (ram (mach k')) (sp t + TF_elr) = entry;
  sp_spsr : kld 8 (ram (mach k')) (sp t + TF_spsr) = 0;
  sp_user : kld 8 (ram (mach k')) (sp t + TF_sp_el0) = us + USER_STACK_SIZE;
}.

(** The pages of a block just allocated are in use, and stay so. *)
Lemma alloc_block_used m count a m' : pages_wf (pg m) -> 0 < count < 2 ^ 64 ->
  alloc_pages m count = Done (Some a, m') ->
  pages_wf (pg m') /\ same_geometry (pg m) (pg m') /\
  (exists s, a = page_addr (pg m) s /\ 0 <= s /\ s + count <= NUM_PAGES (pg m) /\
     forall j, s <= j < s + count -> page_free (pg m') j = false) /\
  (forall j, 0 <= j -> page_free (pg m) j = false -> page_free (pg m') j = false).
Proof.
  intros Hwf Hc E. destruct (alloc_pages_correct m count Hwf Hc) as (r & m1 & E1 & Hs & Hwf1).
  rewrite E in E1. injection E1 as <- <-.
  destruct Hs as (s & (Hs & Hle & Hrun & _) & -> & G1 & G2 & G3 & Hf & _).
  split; [done|]. split; [done|]. split.
  - exists s. repeat (split; [done|]). intros j Hj. rewrite Hf by lia.
    rewrite (proj2 (Z.leb_le _ _)), (proj2 (Z.ltb_lt _ _)) by lia. done.
  - intros j Hj Hu. rewrite Hf, Hu by done. apply andb_false_r.
Qed.

(** A block of used pages does not meet a free page. *)
Lemma block_not_free p s count a t : pages_wf p -> 0 <= s ->
  (forall j, s <= j < s + count -> page_free p j = false) ->
  page_addr p s <= a < page_addr p s + count * PAGE_SIZE -> free_page_at p t -> ~ t <= a < t + 4096.
Proof.
  intros Hwf Hs Hu Ha (j & -> & Hj & Hf) Ht. unfold page_addr, PAGE_SIZE in *.
  assert (s <= j < s + count) by lia. rewrite Hu in Hf by done. done.
Qed.

(** The process table survives the write of the trap frame on the kernel stack,
    because its pages were free when the stack was already allocated. *)
Lemma frame_write_keeps_table m m3 T root ks s segs fa elr spsr usp :
  pages_wf (pg m) -> pt_wf m3 T root -> (forall t n, T !! t = Some n -> free_page_at (pg m) t) ->
  ks = page_addr (pg m) s -> 0 <= s ->
  (forall j, s <= j < s + TASK_STACK_PAGES -> page_free (pg m) j = false) ->
  ks <= fa -> fa + 280 <= ks + TASK_STACK_SIZE -> 0 <= fa -> fa + 280 <= 2 ^ 48 ->
  is_u64 elr -> is_u64 spsr -> is_u64 usp -> table_matches (ram m3) root segs ->
  table_matches (ram (write_frame m3 (KERNEL_VA_OFFSET + fa) elr spsr usp)) root segs.
Proof.
  intros Hwf Hpt HT Hks Hs Hu H1 H2 H3 H4 He Hsp Hus Hm.
  destruct (write_frame_spec m3 fa elr spsr usp H3 H4 He Hsp Hus) as (_ & _ & _ & _ & _ & Hfr).
  eapply (table_matches_frame m3 T); [done| |done]. intros t n a Ht Ha. apply Hfr. intros Hin.
  apply (block_not_free (pg m) s TASK_STACK_PAGES a t Hwf Hs Hu); [|by eapply HT|done].
  rewrite <- Hks. unfold TASK_STACK_SIZE, TASK_STACK_PAGES, PAGE_SIZE in *. lia.
Qed.

Lemma install_user_spec name entry ks usp caps root vb vt sb st k i :
  sched_wf k -> free_slot k = Some i ->
  let r := install_user name entry ks usp caps root vb vt sb st k in
  exists t, r.1 = Ok (NEXT_TID k) /\ task_at r.2 i = Some t /\ tid t = NEXT_TID k /\ state t = Ready /\
    privilege t = User /\ capabilities t = caps /\ task_ttbr0 t = root /\
    sp t = frame_sp ks TASK_STACK_SIZE /\
    mach r.2 = write_frame (mach k) (frame_sp ks TASK_STACK_SIZE) entry 0 usp.
Proof.
  intros Hwf Hi r. unfold r, install_user. rewrite Hi.
  apply find_slot_range in Hi; [|done].
  exists (Task_new_user (mach k) (NEXT_TID k) name entry ks TASK_STACK_SIZE usp caps root vb vt sb st).1.
  split; [reflexivity|]. split; [|done]. unfold task_at. cbn -[insert]. rewrite list_lookup_insert.
  rewrite decide_True; [done|]. rewrite (wf_tasks _ Hwf). lia.
Qed.

(** The same through the kernel's addresses. *)
Lemma frame_klds m fa elr sp_el0 : 0 <= fa -> fa + 280 <= 2 ^ 48 -> is_u64 elr -> is_u64 sp_el0 ->
  let sp := KERNEL_VA_OFFSET + fa in let r := ram (write_frame m sp elr 0 sp_el0) in
  kld 8 r (sp + TF_elr) = elr /\ kld 8 r (sp + TF_spsr) = 0 /\ kld 8 r (sp + TF_sp_el0) = sp_el0.
Proof.
  intros H0 H1 He Hp sp r. destruct (write_frame_spec m fa elr 0 sp_el0) as (_ & W1 & W2 & W3 & _); [done..|].
  assert (D : forall o, 0 <= o < 280 -> to_dma_addr (sp + o) = fa + o).
  { intros o Ho. unfold to_dma_addr, sp. rewrite (proj2 (Z.leb_le _ _)) by lia. lia. }
  unfold kld. by rewrite !D.
Qed.

Lemma spawn_user_spec name entry caps segs k tid0 k' :
  sched_wf k -> is_u64 entry -> Forall seg_ok segs -> (length segs <= 17)%nat ->
  user_pages segs <= nfree (mach k) ->
  spawn_user_entry_with_segs name entry caps segs k = Done (Ok tid0, k') ->
  exists slot t us, 0 <= slot < 16 /\ spawned k' slot t tid0 entry caps us segs.
Proof.
  intros Hwf Hent Hsegs Hl Hfree. unfold spawn_user_entry_with_segs, user_pages in *.
  rewrite take_ge in * by lia.
  destruct (alloc_pages_nfree (mach k) TASK_STACK_PAGES (wf_pages _ Hwf)) as (r & m1 & E1 & Hm1 & Hn1); [done|].
  rewrite E1. cbn [mbind outcome_bind]. destruct r as [ks|]; [|done].
  change (mach (with_mach m1 k)) with m1.
  destruct (alloc_pages_nfree m1 USER_STACK_PAGES Hm1) as (r & m2 & E2 & Hm2 & Hn2); [done|].
  rewrite E2. cbn [mbind outcome_bind]. destruct r as [us|]; [|done].
  change (mach (with_mach m2 _)) with m2.
  destruct (alloc_addr m1 USER_STACK_PAGES us m2 Hm1 ltac:(done) E2) as (Hus0 & Husle & Husm).
  destruct (alloc_addr (mach k) TASK_STACK_PAGES ks m1 (wf_pages _ Hwf) ltac:(done) E1) as (Hks0 & Hksle & Hksm).
  destruct (stack_seg_ok (pg m2) us Hm2 Hus0 Husle Husm) as [Hok Htot].
  destruct (create_process_table_tree m2 (segs ++ [mk_seg us USER_STACK_SIZE true false false]))
    as (root & m3 & T & -> & Hpt & HT & Htm & _); [done| | |].
  { apply Forall_app. split; [done|]. by apply Forall_singleton. }
  { rewrite total_seg_pages_app, Htot. lia. }
  cbn [mbind outcome_bind]. destruct (va_range segs) as [vb vt].
  set (k3 := with_mach m3 _). assert (Hwf3 : sched_wf k3).
  { apply wf_with_mach, Hpt. apply wf_with_mach, Hm2. by apply wf_with_mach. }
  assert (Hmach : mach k3 = m3) by done. clearbody k3. intros E. injection E as E.
  destruct (free_slot k3) as [i|] eqn:Ei; [|by unfold install_user in E; rewrite Ei in E].
  rewrite (as_u64_small (us + _)) in E
    by (unfold is_u64, USER_STACK_SIZE, USER_STACK_PAGES, PAGE_SIZE, MAX_RAM_END in *; lia).
  pose proof (install_user_spec name entry ks (us + USER_STACK_SIZE) caps root vb vt us
    (us + USER_STACK_SIZE) k3 i Hwf3 Ei) as Hin.
  rewrite E in Hin. destruct Hin as (t & Htid & Hat & Ht & Hst & Hpr & Hcap & Htt & Hsp & Hma).
  cbn [fst snd] in *. injection Htid as ->. exists i, t, us.
  split; [by eapply find_slot_range|].
  destruct (alloc_block_used (mach k) TASK_STACK_PAGES ks m1 (wf_pages _ Hwf) ltac:(done) E1)
    as (_ & (G1 & G2 & _) & (s & Hks & Hs & Hsn & Hsu) & _).
  destruct (alloc_block_used m1 USER_STACK_PAGES us m2 Hm1 ltac:(done) E2) as (_ & (G3 & _) & _ & Hkeep).
  rewrite frame_sp_stack in Hsp, Hma by done.
  set (fa := ks + TASK_STACK_SIZE - TRAP_FRAME_SIZE) in *.
  assert (Hfa : ks <= fa /\ fa + 280 <= ks + TASK_STACK_SIZE /\ fa + 280 <= 2 ^ 48).
  { unfold fa, TASK_STACK_SIZE, TASK_STACK_PAGES, PAGE_SIZE, TRAP_FRAME_SIZE, MAX_RAM_END in *. lia. }
  destruct Hfa as (Hf1 & Hf2 & Hf3).
  assert (Hus64 : is_u64 (us + USER_STACK_SIZE)).
  { unfold is_u64, USER_STACK_SIZE, USER_STACK_PAGES, PAGE_SIZE, MAX_RAM_END in *. lia. }
  rewrite Hmach in Hma.
  destruct (frame_klds m3 fa entry (us + USER_STACK_SIZE)) as (W1 & W2 & W3); [lia|done..|].
  constructor; try done; [|by rewrite Hma, Hsp..].
  rewrite Hma, Htt. eapply (frame_write_keeps_table m2 m3 T root ks s); try (done || lia).
  - unfold page_addr in *. by rewrite G3, G1.
  - intros j Hj. apply Hkeep; [lia|]. by apply Hsu.
Qed.

(** ** Theorem *)


(** A machine with 1024 free pages, just booted. *)
Definition huge_pages : pages := mk_pages (store_bytes ∅ 0 (replicate 128 255)) 0x41000000 1024 0x41400000.

Lemma huge_pages_wf : pages_wf huge_pages.
Proof.
  constructor; try (done || by vm_compute).
  apply mem_bytes_store_bytes; [apply mem_bytes_empty|]. by apply Forall_replicate.
Qed.

Definition huge_kernel : kernel := init (kernel0 (mk_vmm (mk_machine huge_pages ∅)
  0x40300000 0x40301000 0x40302000 0x40300000 0x40301000 0x40302000)).

Definition demo_segs : list ProcSegment := [mk_seg 0x48000000 0x1800 true true false].

Lemma huge_spawn : exists k', spawn_user_entry_with_segs [97] 0x48000000 7 demo_segs huge_kernel = Done (Ok 1, k').
Proof.
  assert (H : match spawn_user_entry_with_segs [97] 0x48000000 7 demo_segs huge_kernel with
              | Done (Ok 1, _) => True | _ => False end) by (vm_compute; exact I).
  destruct (spawn_user_entry_with_segs _ _ _ _ _) as [[[t|] k']|]; [|destruct H..].
  exists k'. destruct (decide (t = 1)) as [->|Hne]; [reflexivity|]. exfalso.
  destruct t as [|[]|]; try destruct H. by apply Hne.
Qed.

