(* ===== verification/Heap.v ===== *)
(** * The C allocation shims (kernel/src/memory/heap.rs)

    [malloc], [aligned_alloc], [free] and [realloc] for the C++ code, built on the
    global allocator with a 32-byte header in front of every block.  The global
    allocator is the crate [linked_list_allocator]; it enters as the type class
    [GlobalAlloc], with the part of the [GlobalAlloc] contract the shims rely on. *)

From stdpp Require Import base numbers list gmap.
From Stdlib Require Import ZArith Lia.
From S2P Require Import Prelude Machine PageAlloc.

(** ** The allocator interface *)

(** [alloc(layout)] and [dealloc(ptr, layout)]; address 0 is the null pointer. *)
Class GlobalAlloc (H : Type) := {
  ga_alloc : H -> Z -> Z -> Z * H;
  ga_dealloc : H -> Z -> Z -> Z -> H;
}.

(** A block returned by [alloc] is null, or aligned, inside the region given to
    [init] (which lies in the high-VA alias) and does not wrap around. *)
Class GlobalAllocSpec (H : Type) `{!GlobalAlloc H} := {
  ga_block : forall h size align p h', 0 < align -> ga_alloc h size align = (p, h') -> p <> 0 ->
    KERNEL_VA_OFFSET <= p /\ p mod align = 0 /\ p + size <= 2 ^ 64;
}.

(** ** Definitions *)

Definition HEAP_SIZE : Z := 12 * 1024 * 1024 * 1024.
(** [init]: the region handed to [ALLOCATOR.lock().init(start, size)]. *)
Definition heap_init (m : machine) : outcome ((Z * Z) * machine) :=
  '(r, m) ← alloc_pages m (HEAP_SIZE / PAGE_SIZE);
  match r with
  | Some heap_start => Done ((phys_to_virt heap_start, HEAP_SIZE), m)
  | None => Panic
  end.

Definition HEADER_SIZE : Z := 32.
Definition MAGIC : Z := 0xDEADBEEFCAFEBABE.

(** Byte offsets of the fields of [AllocHeader]. *)
Definition H_block_ptr : Z := 0.
Definition H_layout_size : Z := 8.
Definition H_layout_align : Z := 16.
Definition H_magic : Z := 24.

(** [usize::is_power_of_two]. *)
Definition is_power_of_two (x : Z) : bool := (0 <? x) && (Z.land x (x - 1) =? 0).

Section Shims.
Context {H : Type} `{!GlobalAlloc H}.

(** The allocator and the memory it hands out. *)
Record heap := mk_heap {
  alloc_state : H;
  hmem : gmap Z Z;
}.

Definition write_header (m : gmap Z Z) (header block size align : Z) : gmap Z Z :=
  let m := kst 8 m (header + H_block_ptr) block in
  let m := kst 8 m (header + H_layout_size) size in
  let m := kst 8 m (header + H_layout_align) align in
  kst 8 m (header + H_magic) MAGIC.

Definition c_aligned_alloc (size align : Z) (s : heap) : Z * heap :=
  let align := if align <? 16 then 16 else align in
  if negb (is_power_of_two align) then (0, s)
  else
    let alloc_size := size +u HEADER_SIZE +u align in
    let '(block_ptr, h) := ga_alloc (alloc_state s) alloc_size 16 in
    if block_ptr =? 0 then (0, mk_heap h (hmem s))
    else
      let min_user_addr := block_ptr +u HEADER_SIZE in
      let user_addr := Z.land (min_user_addr +u (align -u 1)) (not64 (align -u 1)) in
      let header_addr := user_addr -u HEADER_SIZE in
      (user_addr, mk_heap h (write_header (hmem s) header_addr block_ptr alloc_size 16)).

Definition c_malloc (size : Z) (s : heap) : Z * heap := c_aligned_alloc size 16 s.

Definition c_free (ptr : Z) (s : heap) : heap :=
  if ptr =? 0 then s
  else
    let header := ptr -u HEADER_SIZE in
    if negb (kld 8 (hmem s) (header + H_magic) =? MAGIC) then s
    else
      mk_heap (ga_dealloc (alloc_state s) (kld 8 (hmem s) (header + H_block_ptr))
                 (kld 8 (hmem s) (header + H_layout_size)) (kld 8 (hmem s) (header + H_layout_align)))
        (hmem s).

(** [copy_nonoverlapping(src, dst, n)]. *)
Definition kmove (m : gmap Z Z) (src dst n : Z) : gmap Z Z :=
  kcopy m dst (load_bytes (Z.to_nat n) m (to_dma_addr src)).

Definition c_realloc (ptr new_size : Z) (s : heap) : Z * heap :=
  if ptr =? 0 then c_malloc new_size s
  else if new_size =? 0 then (0, c_free ptr s)
  else
    let header := ptr -u HEADER_SIZE in
    if negb (kld 8 (hmem s) (header + H_magic) =? MAGIC) then (0, s)
    else
      let copy_size := kld 8 (hmem s) (header + H_layout_size) -u HEADER_SIZE in
      let '(new_ptr, s) := c_malloc new_size s in
      if new_ptr =? 0 then (0, s)
      else
        let actual_copy := if copy_size <? new_size then copy_size else new_size in
        (new_ptr, c_free ptr (mk_heap (alloc_state s) (kmove (hmem s) ptr new_ptr actual_copy))).

(** ** Address arithmetic *)

Lemma power_of_two_spec x : is_power_of_two x = true -> exists n, 0 <= n /\ x = 2 ^ n.
Proof.
  unfold is_power_of_two. intros [H0%Z.ltb_lt H1%Z.eqb_eq]%andb_prop.
  exists (Z.log2 x). split; [apply Z.log2_nonneg|].
  destruct (Z.log2_spec x H0) as [Hl Hu]. set (n := Z.log2 x) in *.
  assert (Hn : 0 <= n) by apply Z.log2_nonneg.
  destruct (Z.eq_dec x (2 ^ n)) as [|Hne]; [done|exfalso].
  assert (B : Z.testbit (Z.land x (x - 1)) n = true); [|by rewrite H1, Z.bits_0 in B].
  assert (Hbit : forall y, 2 ^ n <= y < 2 ^ Z.succ n -> Z.testbit y n = true).
  { intros y Hy. assert (Z.log2 y = n) as <- by (apply Z.log2_unique; [done|lia]).
    apply Z.bit_log2. lia. }
  rewrite Z.land_spec, !Hbit by lia. done.
Qed.

(** [(x + a - 1) & !(a - 1)] rounds up to a multiple of the power of two [a]. *)
Lemma align_up_spec x n : 0 <= n < 64 -> 0 <= x -> x + (2 ^ n - 1) < 2 ^ 64 ->
  let u := Z.land (x +u (2 ^ n -u 1)) (not64 (2 ^ n -u 1)) in
  u mod 2 ^ n = 0 /\ x <= u < x + 2 ^ n.
Proof.
  intros Hn Hx Hb u. assert (Hp : 0 < 2 ^ n) by (apply Z.pow_pos_nonneg; lia).
  assert (Hm : 2 ^ n -u 1 = 2 ^ n - 1) by (apply as_u64_small; unfold is_u64; lia).
  unfold u. rewrite Hm, as_u64_small, land_not_ones by (unfold is_u64; lia).
  pose proof (Z.mod_pos_bound (x + (2 ^ n - 1)) (2 ^ n) Hp).
  split; [|lia]. rewrite Zminus_mod_idemp_r, Z.sub_diag. by apply Z.mod_0_l; lia.
Qed.

Lemma to_dma_add a i : 0 <= i -> 0 <= a -> a + i < 2 ^ 64 ->
  KERNEL_VA_OFFSET <= a \/ a + i < KERNEL_VA_OFFSET -> to_dma_addr (a + i) = to_dma_addr a + i.
Proof. intros Hi Ha Hb Hc. unfold to_dma_addr. case_ifs; lia. Qed.

(** ** Headers *)

(** The words of a header read back from any memory that agrees on its bytes. *)
Lemma header_words m m' hd block size align :
  KERNEL_VA_OFFSET <= hd -> hd + 32 <= 2 ^ 64 -> is_u64 block -> is_u64 size -> is_u64 align ->
  (forall a, to_dma_addr hd <= a < to_dma_addr hd + 32 ->
     ldb m' a = ldb (write_header m hd block size align) a) ->
  kld 8 m' (hd + H_block_ptr) = block /\ kld 8 m' (hd + H_layout_size) = size /\
  kld 8 m' (hd + H_layout_align) = align /\ kld 8 m' (hd + H_magic) = MAGIC.
Proof.
  intros Hlo Hhi Hb Hs Ha Hag.
  assert (HO : 0 <= KERNEL_VA_OFFSET) by (unfold KERNEL_VA_OFFSET; lia).
  assert (D : forall i, 0 <= i < 32 -> to_dma_addr (hd + i) = to_dma_addr hd + i)
    by (intros i Hi; apply to_dma_add; lia).
  assert (E : forall i, 0 <= i <= 24 -> kld 8 m' (hd + i) = kld 8 (write_header m hd block size align) (hd + i)).
  { intros i Hi. unfold kld. rewrite D by lia. apply ld_ext. intros a Hr. apply Hag. simpl in Hr. lia. }
  assert (M : forall v, is_u64 v -> v mod 256 ^ Z.of_nat 8 = v) by (intros v Hv; by apply Z.mod_small).
  unfold H_block_ptr, H_layout_size, H_layout_align, H_magic in *.
  rewrite !E by lia. unfold write_header, kld, kst, H_block_ptr, H_layout_size, H_layout_align, H_magic.
  rewrite !D by lia.
  repeat split; rewrite ?ld_st_other by (simpl; lia); rewrite ld_st_same; apply M; done.
Qed.

Lemma write_header_frame m hd block size align a :
  KERNEL_VA_OFFSET <= hd -> hd + 32 <= 2 ^ 64 -> ~ (to_dma_addr hd <= a < to_dma_addr hd + 32) ->
  ldb (write_header m hd block size align) a = ldb m a.
Proof.
  intros Hlo Hhi Ha. assert (HO : 0 <= KERNEL_VA_OFFSET) by (unfold KERNEL_VA_OFFSET; lia).
  assert (D : forall i, 0 <= i < 32 -> to_dma_addr (hd + i) = to_dma_addr hd + i)
    by (intros i Hi; apply to_dma_add; lia).
  unfold write_header, kst, H_block_ptr, H_layout_size, H_layout_align, H_magic.
  rewrite !D by lia. by rewrite !ldb_st_other by (simpl; lia).
Qed.

(** ** Allocation *)

Definition real_align (align : Z) : Z := if align <? 16 then 16 else align.
Definition block_size (size align : Z) : Z := size + HEADER_SIZE + real_align align.

(** [ptr] is a user pointer for [size] bytes in [block], with its header. *)
Record placed (size align block ptr : Z) (m m' : gmap Z Z) : Prop := {
  pl_align : ptr mod real_align align = 0;
  pl_room : block + HEADER_SIZE <= ptr /\ ptr + size <= block + block_size size align;
  pl_mem : m' = write_header m (ptr - HEADER_SIZE) block (block_size size align) 16;
  pl_high : KERNEL_VA_OFFSET <= block /\ block + block_size size align <= 2 ^ 64;
}.

Context `{!GlobalAllocSpec H}.

Lemma c_aligned_alloc_ok size align s ptr s' :
  0 <= size -> 0 <= align -> block_size size align < 2 ^ 64 ->
  c_aligned_alloc size align s = (ptr, s') -> ptr <> 0 ->
  exists block, ga_alloc (alloc_state s) (block_size size align) 16 = (block, alloc_state s') /\
    placed size align block ptr (hmem s) (hmem s').
Proof.
  intros Hs Ha Hb. unfold c_aligned_alloc. fold (real_align align).
  assert (Hra : 16 <= real_align align) by (unfold real_align; case_ifs; lia).
  unfold block_size, HEADER_SIZE in *.
  destruct (is_power_of_two (real_align align)) eqn:Hp; [|by intros [= <- _]]. cbn [negb].
  rewrite (as_u64_small (size + 32)), as_u64_small by (unfold is_u64; lia).
  destruct (ga_alloc (alloc_state s) _ 16) as [block h] eqn:E.
  destruct (Z.eqb_spec block 0) as [|Hnz]; [by intros [= <- _]|]. intros [= <- <-] Hptr.
  destruct (ga_block _ _ 16 _ _ ltac:(lia) E Hnz) as (Hlo & Hmod & Hhi).
  assert (HO : KERNEL_VA_OFFSET = 0xFFFF000000000000) by done.
  destruct (power_of_two_spec _ Hp) as (n & Hn & Hal).
  assert (Hn' : n < 64).
  { apply (Z.pow_lt_mono_r_iff 2); lia. }
  rewrite (as_u64_small (block + 32)) by (unfold is_u64; lia). rewrite Hal in *.
  destruct (align_up_spec (block + 32) n) as [Hu1 Hu2]; [lia..|].
  set (u := Z.land _ _) in *. exists block. split; [done|]. constructor; rewrite ?Hal.
  - done.
  - unfold block_size, HEADER_SIZE. rewrite Hal. lia.
  - simpl. rewrite as_u64_small by (unfold is_u64; lia). unfold block_size. by rewrite Hal.
  - unfold block_size, HEADER_SIZE. rewrite Hal. lia.
Qed.

(** Freeing a placed pointer hands back exactly the block it came from. *)
Lemma c_free_placed size align block ptr m m' h r :
  0 <= size -> placed size align block ptr m m' ->
  (forall a, to_dma_addr (ptr - HEADER_SIZE) <= a < to_dma_addr (ptr - HEADER_SIZE) + HEADER_SIZE ->
     ldb r a = ldb m' a) ->
  c_free ptr (mk_heap h r) = mk_heap (ga_dealloc h block (block_size size align) 16) r.
Proof.
  intros Hs [Hal [Hr1 Hr2] Hm [Hlo Hhi]] Hag. unfold c_free.
  assert (HO : KERNEL_VA_OFFSET = 0xFFFF000000000000) by done.
  assert (Hra : 16 <= real_align align) by (unfold real_align; case_ifs; lia).
  unfold block_size, HEADER_SIZE in *. rewrite (proj2 (Z.eqb_neq ptr 0)) by lia. cbn [hmem alloc_state].
  rewrite as_u64_small by (unfold is_u64; lia).
  destruct (header_words m r (ptr - 32) block (size + 32 + real_align align) 16) as (W1 & W2 & W3 & W4);
    [lia|lia|unfold is_u64; lia|unfold is_u64; lia|done| |].
  { intros a Hr. rewrite Hag, Hm by done. done. }
  rewrite W1, W2, W3, W4. done.
Qed.

Lemma to_dma_high a : KERNEL_VA_OFFSET <= a -> to_dma_addr a = a - KERNEL_VA_OFFSET.
Proof. intros Ha. unfold to_dma_addr. case_ifs; lia. Qed.

Lemma ldb_kmove m src dst n a : 0 <= n ->
  ldb (kmove m src dst n) a =
  if decide (to_dma_addr dst <= a < to_dma_addr dst + n)
  then ldb m (to_dma_addr src + (a - to_dma_addr dst)) else ldb m a.
Proof.
  intros Hn. unfold kmove, kcopy. rewrite ldb_store_bytes, length_load_bytes, Z2Nat.id by done.
  case_decide; [|done]. rewrite nth_load_bytes by lia. f_equal. lia.
Qed.

(** The old block after the new one was allocated and the data moved: what lies
    in it is as before. *)
Lemma moved_old size align block ptr m new_size b np s s1 n a :
  0 <= size -> 0 < new_size -> 0 <= n <= new_size ->
  placed size align block ptr m (hmem s) -> placed new_size 16 b np (hmem s) (hmem s1) ->
  b + block_size new_size 16 <= block \/ block + block_size size align <= b ->
  to_dma_addr block <= a < to_dma_addr block + block_size size align ->
  ldb (hmem s1) a = ldb (hmem s) a /\ ldb (kmove (hmem s1) ptr np n) a = ldb (hmem s) a.
Proof.
  intros Hs Hn Hnn [Hal [Hr1 Hr2] Hm [Hlo Hhi]] [Hal' [Hr1' Hr2'] Hm' [Hlo' Hhi']] Hdis Ha.
  assert (Hra : 16 <= real_align align) by (unfold real_align; case_ifs; lia).
  assert (Hb16 : block_size new_size 16 = new_size + 48) by (unfold block_size, HEADER_SIZE, real_align; simpl; lia).
  assert (Hbs : size + 48 <= block_size size align) by (unfold block_size, HEADER_SIZE; lia).
  unfold HEADER_SIZE in *. rewrite (to_dma_high block) in Ha by done.
  assert (H1 : ldb (hmem s1) a = ldb (hmem s) a).
  { rewrite Hm'. apply write_header_frame; [lia|lia|]. rewrite to_dma_high by lia. lia. }
  split; [done|]. rewrite ldb_kmove, decide_False; [done| |lia]. rewrite to_dma_high by lia. lia.
Qed.

(** ** Theorems *)

(** allocation and release match.  A non-null result of [c_aligned_alloc] is
    aligned as requested, its [size] bytes and its header lie inside the block the
    allocator returned, nothing outside the header is written, and a later
    [c_free] of the pointer, whatever was stored elsewhere in the meantime, gives
    the allocator back exactly that block with exactly its layout. *)
Theorem alloc_free_match size align s ptr s' :
  0 <= size -> 0 <= align -> block_size size align < 2 ^ 64 ->
  c_aligned_alloc size align s = (ptr, s') -> ptr <> 0 ->
  exists block, ga_alloc (alloc_state s) (block_size size align) 16 = (block, alloc_state s') /\
    ptr mod real_align align = 0 /\
    block <= ptr - HEADER_SIZE /\ ptr + size <= block + block_size size align /\
    (forall a, ~ (to_dma_addr (ptr - HEADER_SIZE) <= a < to_dma_addr (ptr - HEADER_SIZE) + HEADER_SIZE) ->
       ldb (hmem s') a = ldb (hmem s) a) /\
    (forall h r,
       (forall a, to_dma_addr (ptr - HEADER_SIZE) <= a < to_dma_addr (ptr - HEADER_SIZE) + HEADER_SIZE ->
          ldb r a = ldb (hmem s') a) ->
       c_free ptr (mk_heap h r) = mk_heap (ga_dealloc h block (block_size size align) 16) r).
Proof.
  intros Hs Ha Hb E Hp. destruct (c_aligned_alloc_ok size align s ptr s' Hs Ha Hb E Hp) as (block & Eb & Hpl).
  exists block. split; [done|]. pose proof Hpl as [Hal [Hr1 Hr2] Hm [Hlo Hhi]].
  assert (Hra : 16 <= real_align align) by (unfold real_align; case_ifs; lia).
  split; [done|]. split; [lia|]. split; [done|]. split.
  - intros a Hna. rewrite Hm. unfold block_size, HEADER_SIZE in *. apply write_header_frame; [lia|lia|done].
  - intros h r Hag. by eapply c_free_placed.
Qed.

(** [realloc] keeps the contents.  For a live block of [size] bytes, a
    successful [c_realloc] to [new_size] returns a pointer whose first
    [min size new_size] bytes are the old ones, and gives the old block back;
    the new block must not overlap the old one, as the allocator promises. *)
Theorem realloc_keeps_contents size align block ptr m s new_size new_ptr s' :
  0 <= size -> 0 < new_size -> block_size new_size 16 < 2 ^ 64 ->
  placed size align block ptr m (hmem s) ->
  (forall b h, ga_alloc (alloc_state s) (block_size new_size 16) 16 = (b, h) ->
     b + block_size new_size 16 <= block \/ block + block_size size align <= b) ->
  c_realloc ptr new_size s = (new_ptr, s') -> new_ptr <> 0 ->
  (forall i, 0 <= i < Z.min size new_size ->
     ldb (hmem s') (to_dma_addr new_ptr + i) = ldb (hmem s) (to_dma_addr ptr + i)) /\
  exists h, alloc_state s' = ga_dealloc h block (block_size size align) 16.
Proof.
  intros Hs Hn Hnb Hpl Hdis. pose proof Hpl as [Hal [Hr1 Hr2] Hm [Hlo Hhi]].
  assert (HO : KERNEL_VA_OFFSET = 0xFFFF000000000000) by done.
  assert (Hra : 16 <= real_align align) by (unfold real_align; case_ifs; lia).
  assert (Hbs : block_size size align = size + 32 + real_align align) by done.
  unfold c_realloc, HEADER_SIZE in *. rewrite (proj2 (Z.eqb_neq ptr 0)), (proj2 (Z.eqb_neq new_size 0)) by lia.
  rewrite (as_u64_small (ptr - 32)) by (unfold is_u64; lia).
  destruct (header_words m (hmem s) (ptr - 32) block (block_size size align) 16) as (W1 & W2 & W3 & W4);
    [lia|lia|unfold is_u64; lia|unfold is_u64; lia|done|intros; by rewrite Hm|].
  rewrite W4, W2, as_u64_small by (unfold is_u64; lia). rewrite Z.eqb_refl. cbn [negb].
  unfold c_malloc. destruct (c_aligned_alloc new_size 16 s) as [np s1] eqn:Ea.
  destruct (Z.eqb_spec np 0); [by intros [= <- _]|]. intros [= <- <-] _.
  destruct (c_aligned_alloc_ok new_size 16 s np s1 ltac:(lia) ltac:(lia) Hnb Ea ltac:(done)) as (b & Eb & Hpl').
  specialize (Hdis b _ Eb). set (n' := if block_size size align - 32 <? new_size then _ else _).
  assert (Hn' : Z.min size new_size <= n' <= new_size) by (unfold n'; case_ifs; lia).
  pose proof (fun a => moved_old size align block ptr m new_size b np s s1 n' a
    Hs Hn ltac:(lia) Hpl Hpl' Hdis) as Hold.
  rewrite (c_free_placed size align block ptr m (hmem s) (alloc_state s1) _ Hs Hpl).
  - split; [|by exists (alloc_state s1)]. intros i Hi. cbn [hmem].
    rewrite ldb_kmove, decide_True by lia. replace (_ + i - _) with i by lia.
    apply Hold. rewrite !to_dma_high by lia. lia.
  - intros a Ha. apply Hold. unfold HEADER_SIZE in Ha.
    rewrite !to_dma_high in * by lia. lia.
Qed.
End Shims.

(** ** Witnesses: a bump allocator *)

(** The next free address; blocks are never reused. *)
#[export] Instance bump_alloc : GlobalAlloc Z := {
  ga_alloc h size align :=
    let p := (h + align - 1) / align * align in
    if (KERNEL_VA_OFFSET <=? p) && (p + size <=? 2 ^ 64) && (0 <=? size) then (p, p + size) else (0, h);
  ga_dealloc h _ _ _ := h;
}.

#[export] Instance bump_spec : GlobalAllocSpec Z.
Proof.
  constructor. intros h size align p h' Ha. simpl. case_ifs; [|by intros [= <- _]].
  intros [= <- _] _. split; [lia|]. split; [by apply Z.mod_mul; lia|lia].
Qed.

Definition bump0 : heap (H := Z) := mk_heap (KERNEL_VA_OFFSET + 0x50000010) ∅.

Lemma alloc_free_match_witness :
  exists ptr s', c_aligned_alloc 100 64 bump0 = (ptr, s') /\ ptr mod 64 = 0 /\
    c_free ptr s' = mk_heap (ga_dealloc (alloc_state s') (KERNEL_VA_OFFSET + 0x50000010) 196 16) (hmem s').
Proof.
  destruct (c_aligned_alloc 100 64 bump0) as [ptr s'] eqn:E.
  assert (Hp : ptr <> 0) by (vm_compute in E; injection E as <- _; done).
  destruct (alloc_free_match 100 64 bump0 ptr s') as (b & Hb & Hm & _ & _ & _ & Hf);
    [lia|lia|by vm_compute|exact E|exact Hp|].
  exists ptr, s'. split; [reflexivity|]. split; [exact Hm|]. destruct s' as [h r].
  rewrite (Hf h r) by reflexivity. vm_compute in Hb. injection Hb as <- _. reflexivity.
Defined.

Lemma realloc_keeps_contents_witness :
  exists ptr s1 np s2, c_malloc 8 bump0 = (ptr, s1) /\ c_realloc ptr 64 s1 = (np, s2) /\
    forall i, 0 <= i < 8 -> ldb (hmem s2) (to_dma_addr np + i) = ldb (hmem s1) (to_dma_addr ptr + i).
Proof.
  destruct (c_malloc 8 bump0) as [ptr s1] eqn:E1. destruct (c_realloc ptr 64 s1) as [np s2] eqn:E2.
  exists ptr, s1, np, s2. split; [reflexivity|]. split; [exact E2|].
  assert (Hp : ptr <> 0) by (vm_compute in E1; injection E1 as <- _; done).
  destruct (c_aligned_alloc_ok 8 16 bump0 ptr s1) as (b & Eb & Hpl);
    [lia|lia|by vm_compute|exact E1|exact Hp|].
  apply (realloc_keeps_contents 8 16 b ptr (hmem bump0) s1 64 np s2);
    [lia|lia|by vm_compute|exact Hpl| |exact E2|].
  - intros b' h Hb'. right. vm_compute in E1. injection E1 as <- <-.
    vm_compute in Eb. injection Eb as <-. vm_compute in Hb'. injection Hb' as <- _. by vm_compute.
  - vm_compute in E1. injection E1 as <- <-. vm_compute in E2. by injection E2 as <- _.
Defined.

(** With an alignment above 16 the copy of [c_realloc] reads past the old block:
    the 4096-aligned pointer lies 4080 bytes into its block, and the copy length
    [layout_size - 32] counts from the pointer. *)
Lemma realloc_reads_past_block :
  exists ptr s1 block, c_aligned_alloc 64 4096 bump0 = (ptr, s1) /\
    block = KERNEL_VA_OFFSET + 0x50000010 /\
    kld 8 (hmem s1) (ptr - 32 + H_layout_size) = block_size 64 4096 /\
    block + block_size 64 4096 < ptr + (block_size 64 4096 - HEADER_SIZE).
Proof. eexists _, _, _. split; [reflexivity|]. split; [reflexivity|]. by vm_compute. Qed.
