(* ===== verification/Elf.v ===== *)
(** * The ELF loader (kernel/src/process/elf.rs)

    [load_elf], the ASLR slide and [spawn_elf].  The file image is a slice
    [(ptr, len)] of kernel memory, so that reads through the slice see what the
    loader itself has written, and raw copies are not bounded by the slice. *)

From stdpp Require Import base numbers list gmap strings.
From Stdlib Require Import ZArith Lia.
From S2P Require Import Prelude Machine PageAlloc Vmm Task Sched.

(** ** Constants and errors *)

Definition ELF_MAGIC : list Z := [0x7F; 69; 76; 70].
Definition ELFCLASS64 : Z := 2.
Definition EM_AARCH64 : Z := 0xB7.
Definition PT_LOAD : Z := 1.
Definition ET_DYN : Z := 3.
Definition ASLR_BASE : Z := 0x48000000.
Definition ASLR_LIMIT : Z := 0x80000000.
Definition ASLR_GRANULE : Z := 0x10000.
Definition PF_X : Z := Z.shiftl 1 0.

Inductive ElfError := TooShort | BadMagic | Not64Bit | WrongArch | BadSegment.

Definition as_str (e : ElfError) : string :=
  match e with
  | TooShort => "ELF: file too short"
  | BadMagic => "ELF: bad magic"
  | Not64Bit => "ELF: not 64-bit"
  | WrongArch => "ELF: wrong architecture (need AArch64)"
  | BadSegment => "ELF: bad PT_LOAD segment"
  end%string.

(** ** Reading the image *)

(** A byte slice in kernel memory. *)
Record slice := mk_slice { ptr : Z; len : Z }.

(** [b[off]]. *)
Definition byte_at (r : gmap Z Z) (b : slice) (off : Z) : outcome Z :=
  if (0 <=? off) && (off <? len b) then Done (ldb r (to_dma_addr (ptr b) + off)) else Panic.

Definition u16le (r : gmap Z Z) (b : slice) (off : Z) : outcome Z :=
  b0 ← byte_at r b off; b1 ← byte_at r b (off +u 1); Done (le_bytes [b0; b1]).

Definition u32le (r : gmap Z Z) (b : slice) (off : Z) : outcome Z :=
  b0 ← byte_at r b off; b1 ← byte_at r b (off +u 1);
  b2 ← byte_at r b (off +u 2); b3 ← byte_at r b (off +u 3); Done (le_bytes [b0; b1; b2; b3]).

(** [b[off..off + 8].try_into().unwrap()]: the range must be ordered and inside. *)
Definition u64le (r : gmap Z Z) (b : slice) (off : Z) : outcome Z :=
  if (off <=? off +u 8) && (off +u 8 <=? len b)
  then Done (le_bytes (load_bytes 8 r (to_dma_addr (ptr b) + off))) else Panic.

(** The header checks shared by [load_elf] and [spawn_elf]. *)
Definition check_header (r : gmap Z Z) (b : slice) : outcome (option ElfError) :=
  if len b <? 64 then Done (Some TooShort)
  else if negb (bool_decide (load_bytes 4 r (to_dma_addr (ptr b)) = ELF_MAGIC)) then Done (Some BadMagic)
  else
    c ← byte_at r b 4;
    if negb (c =? ELFCLASS64) then Done (Some Not64Bit)
    else
      mch ← u16le r b 0x12;
      if negb (mch =? EM_AARCH64) then Done (Some WrongArch) else Done None.

(** Copy [p_filesz] bytes of the file to [dst_pa] and zero the rest of
    [p_memsz]. *)
Definition copy_segment (r : gmap Z Z) (b : slice) (p_offset dst_pa p_filesz p_memsz : Z) : gmap Z Z :=
  let dst := phys_to_virt dst_pa in
  let r := if 0 <? p_filesz
    then kcopy r dst (load_bytes (Z.to_nat p_filesz) r (to_dma_addr (ptr b +u p_offset))) else r in
  if p_filesz <? p_memsz then kzero r (dst +u p_filesz) (p_memsz - p_filesz) else r.

(** ** [load_elf] *)

(** One iteration of the program-header loop. *)
Definition load_phdr (b : slice) (e_phoff e_phentsize i : Z) (r : gmap Z Z)
  : outcome (result (gmap Z Z) ElfError) :=
  let ph := e_phoff +u i *u e_phentsize in
  if len b <? ph +u 40 then Done (Err TooShort)
  else
    p_type ← u32le r b ph;
    if negb (p_type =? PT_LOAD) then Done (Ok r)
    else
      p_offset ← u64le r b (ph +u 0x08);
      p_vaddr ← u64le r b (ph +u 0x10);
      p_filesz ← u64le r b (ph +u 0x20);
      p_memsz ← u64le r b (ph +u 0x28);
      if p_memsz =? 0 then Done (Ok r)
      else if (0 <? p_filesz) && (len b <? p_offset +u p_filesz) then Done (Err BadSegment)
      else Done (Ok (copy_segment r b p_offset p_vaddr p_filesz p_memsz)).

Definition load_elf (r : gmap Z Z) (b : slice) : outcome (result Z ElfError * gmap Z Z) :=
  h ← check_header r b;
  match h with
  | Some e => Done (Err e, r)
  | None =>
      e_entry ← u64le r b 0x18;
      e_phoff ← u64le r b 0x20;
      e_phentsize ← u16le r b 0x36;
      e_phnum ← u16le r b 0x38;
      match for_loop (Z.to_nat e_phnum) 0 (fun i r =>
              match load_phdr b e_phoff e_phentsize i r with
              | Done (Ok r') => inl r'
              | Done (Err e) => inr (Done (Err e, r))
              | Panic => inr Panic
              end) r with
      | inl r' => Done (Ok e_entry, r')
      | inr o => o
      end
  end.

(** ** ASLR *)

(** [r] is the little-endian value of the four bytes drawn from the CSPRNG. *)
Definition aslr_slide (r min_vaddr : Z) : Z :=
  let slots := (ASLR_LIMIT - ASLR_BASE) / ASLR_GRANULE in
  let slot := r mod slots in
  let base := ASLR_BASE + slot * ASLR_GRANULE in
  base -u min_vaddr.

(** The lowest [p_vaddr] of the readable PT_LOAD headers. *)
Definition min_vaddr (r : gmap Z Z) (b : slice) (e_phoff e_phentsize e_phnum : Z) : outcome Z :=
  match for_loop (Z.to_nat e_phnum) 0 (fun i min_va =>
          let ph := e_phoff +u i *u e_phentsize in
          if len b <? ph +u 48 then inl min_va
          else match p_type ← u32le r b ph; va ← (if p_type =? PT_LOAD then u64le r b (ph +u 0x10) else Done u64_max);
                     Done (p_type, va) with
               | Done (p_type, va) =>
                   if negb (p_type =? PT_LOAD) then inl min_va
                   else if va <? min_va then inl va else inl min_va
               | Panic => inr Panic
               end) u64_max with
  | inl v => Done v
  | inr o => o
  end.

(** ** [spawn_elf] *)

(** One iteration: the new memory and the segment to map. *)
Definition spawn_phdr (b : slice) (e_phoff e_phentsize aslr_offset i : Z) (r : gmap Z Z)
  : outcome (result (gmap Z Z * option ProcSegment) ElfError) :=
  let ph := e_phoff +u i *u e_phentsize in
  if len b <? ph +u 48 then Done (Err TooShort)
  else
    p_type ← u32le r b ph;
    if negb (p_type =? PT_LOAD) then Done (Ok (r, None))
    else
      p_flags ← u32le r b (ph +u 0x04);
      p_offset ← u64le r b (ph +u 0x08);
      p_vaddr ← u64le r b (ph +u 0x10);
      p_filesz ← u64le r b (ph +u 0x20);
      p_memsz ← u64le r b (ph +u 0x28);
      if p_memsz =? 0 then Done (Ok (r, None))
      else if (0 <? p_filesz) && (len b <? p_offset +u p_filesz) then Done (Err BadSegment)
      else
        let load_va := p_vaddr +u aslr_offset in
        let r := copy_segment r b p_offset load_va p_filesz p_memsz in
        Done (Ok (r, Some (mk_seg load_va p_memsz true (negb (Z.land p_flags PF_X =? 0)) false))).

(** The loop: memory and at most sixteen segments. *)
Definition spawn_segments (r : gmap Z Z) (b : slice) (e_phoff e_phentsize e_phnum aslr_offset : Z)
  : outcome (result (list ProcSegment) ElfError * gmap Z Z) :=
  match for_loop (Z.to_nat e_phnum) 0 (fun i s =>
          match spawn_phdr b e_phoff e_phentsize aslr_offset i s.1 with
          | Done (Ok (r', None)) => inl (r', s.2)
          | Done (Ok (r', Some seg)) => inl (r', if (length s.2 <? 16)%nat then s.2 ++ [seg] else s.2)
          | Done (Err e) => inr (Done (Err e, s.1))
          | Panic => inr Panic
          end) (r, []) with
  | inl (r', segs) => Done (Ok segs, r')
  | inr o => o
  end.

(** [rand] is the value of the CSPRNG draw in [aslr_slide]. *)
Definition spawn_elf (name : list Z) (b : slice) (caps rand : Z) (k : kernel)
  : outcome (result Z string * kernel) :=
  let r := ram (mach k) in
  h ← check_header r b;
  match h with
  | Some e => Done (Err (as_str e), k)
  | None =>
      e_type ← u16le r b 0x10;
      e_entry_raw ← u64le r b 0x18;
      e_phoff ← u64le r b 0x20;
      e_phentsize ← u16le r b 0x36;
      e_phnum ← u16le r b 0x38;
      aslr_offset ←
        (if e_type =? ET_DYN then
           min_va ← min_vaddr r b e_phoff e_phentsize e_phnum;
           Done (if min_va =? u64_max then 0 else aslr_slide rand min_va)
         else Done 0);
      let e_entry := e_entry_raw +u aslr_offset in
      '(segs, r) ← spawn_segments r b e_phoff e_phentsize e_phnum aslr_offset;
      let k := with_mach (mk_machine (pg (mach k)) r) k in
      match segs with
      | Err e => Done (Err (as_str e), k)
      | Ok segs => spawn_user_entry_with_segs name e_entry caps segs k
      end
  end.
