(* ===== verification/ElfProofs.v ===== *)
(** * Correctness of the ELF loader

    The reference is a pure reading of the program headers: a list of segments
    and, for each, the bytes it should have in memory.  [load_elf] on a valid
    image writes exactly that. *)

From stdpp Require Import base numbers list gmap strings.
From Stdlib Require Import ZArith Lia.
From S2P Require Import Prelude Machine PageAlloc Vmm VmmProofs Task Sched SchedInv SchedProps Elf.

(** ** Reference *)

(** Physical address of the image. *)
Definition img (b : slice) : Z := to_dma_addr (ptr b).

(** An [n]-byte little-endian field at file offset [off]. *)
Definition field (n : nat) (r : gmap Z Z) (b : slice) (off : Z) : Z := ld n r (img b + off).

Definition entry_of (r : gmap Z Z) (b : slice) : Z := field 8 r b 0x18.
Definition phoff_of (r : gmap Z Z) (b : slice) : Z := field 8 r b 0x20.
Definition phentsize_of (r : gmap Z Z) (b : slice) : Z := field 2 r b 0x36.
Definition phnum_of (r : gmap Z Z) (b : slice) : Z := field 2 r b 0x38.
Definition ph_of (r : gmap Z Z) (b : slice) (i : Z) : Z := phoff_of r b + i * phentsize_of r b.

(** A loadable segment. *)
Record lseg := mk_lseg { l_off : Z; l_va : Z; l_fsz : Z; l_msz : Z }.

Definition seg_at (r : gmap Z Z) (b : slice) (i : Z) : option lseg :=
  let ph := ph_of r b i in
  if (field 4 r b ph =? PT_LOAD) && negb (field 8 r b (ph + 0x28) =? 0)
  then Some (mk_lseg (field 8 r b (ph + 0x08)) (field 8 r b (ph + 0x10))
               (field 8 r b (ph + 0x20)) (field 8 r b (ph + 0x28)))
  else None.

Definition elf_segs (r : gmap Z Z) (b : slice) (n : Z) : list lseg :=
  omap (fun i => seg_at r b (Z.of_nat i)) (seq 0 (Z.to_nat n)).

(** Memory [f] with segment [s] of the image loaded. *)
Definition overlay (r : gmap Z Z) (b : slice) (f : Z -> Z) (s : lseg) (a : Z) : Z :=
  if decide (l_va s <= a < l_va s + l_fsz s) then ldb r (img b + l_off s + (a - l_va s))
  else if decide (l_va s + l_fsz s <= a < l_va s + l_msz s) then 0
  else f a.

(** Where the image is, and that its headers and segments are in range: file data
    inside the file, memory below 2^48, and no segment on top of the image. *)
Definition placed_slice (b : slice) : Prop :=
  is_pa (img b) /\ 0 <= len b /\ img b + len b <= 2 ^ 48 /\
  (ptr b = img b \/ ptr b = phys_to_virt (img b)).

Definition lseg_ok (b : slice) (s : lseg) : Prop :=
  0 <= l_off s /\ 0 <= l_fsz s <= l_msz s /\ l_off s + l_fsz s <= len b /\
  0 <= l_va s /\ l_va s + l_msz s <= 2 ^ 48 /\
  (l_va s + l_msz s <= img b \/ img b + len b <= l_va s).

Record valid_elf (r : gmap Z Z) (b : slice) : Prop := {
  ve_bytes : mem_bytes r;
  ve_slice : placed_slice b;
  ve_header : check_header r b = Done None;
  ve_phdrs : forall i, 0 <= i < phnum_of r b -> ph_of r b i + 48 <= len b;
  ve_segs : forall i s, 0 <= i < phnum_of r b -> seg_at r b i = Some s -> lseg_ok b s;
}.

(** ** Reads *)

Lemma byte_at_ok r b off : 0 <= off < len b -> byte_at r b off = Done (ldb r (img b + off)).
Proof.
  intros H. unfold byte_at. rewrite (proj2 (Z.leb_le _ _)), (proj2 (Z.ltb_lt _ _)) by lia. done.
Qed.

Lemma u64_add off k : 0 <= off -> 0 <= k -> off + k < 2 ^ 64 -> off +u k = off + k.
Proof. intros. apply as_u64_small. unfold is_u64. lia. Qed.

Section Reads.
Variables (r : gmap Z Z) (b : slice) (off : Z).
Hypothesis Hlen : len b < 2 ^ 63.
Hypothesis Hoff : 0 <= off.

Lemma u16le_ok : off + 2 <= len b -> u16le r b off = Done (field 2 r b off).
Proof.
  intros H. unfold u16le. rewrite !u64_add by lia. rewrite !byte_at_ok by lia. cbn [mbind outcome_bind].
  replace (img b + (off + 1)) with (img b + off + 1) by lia. reflexivity.
Qed.

Lemma u32le_ok : off + 4 <= len b -> u32le r b off = Done (field 4 r b off).
Proof.
  intros H. unfold u32le. rewrite !u64_add by lia. rewrite !byte_at_ok by lia. cbn [mbind outcome_bind].
  replace (img b + (off + 1)) with (img b + off + 1) by lia.
  replace (img b + (off + 2)) with (img b + off + 1 + 1) by lia.
  replace (img b + (off + 3)) with (img b + off + 1 + 1 + 1) by lia. reflexivity.
Qed.

Lemma u64le_ok : off + 8 <= len b -> u64le r b off = Done (field 8 r b off).
Proof.
  intros H. unfold u64le. rewrite u64_add by lia.
  rewrite (proj2 (Z.leb_le off _)), (proj2 (Z.leb_le _ (len b))) by lia. cbn [andb].
  by rewrite le_bytes_load.
Qed.
End Reads.

(** Two memories that agree on the image have the same fields. *)
Definition same_image (b : slice) (r r' : gmap Z Z) : Prop :=
  forall a, img b <= a < img b + len b -> ldb r' a = ldb r a.

Lemma field_same n r r' b off : same_image b r r' -> 0 <= off -> off + Z.of_nat n <= len b ->
  field n r' b off = field n r b off.
Proof. intros H H0 H1. apply ld_ext. intros a Ha. apply H. lia. Qed.

Lemma field_range n r b off : mem_bytes r -> 0 <= field n r b off < 256 ^ Z.of_nat n.
Proof. intros. by apply ld_range. Qed.

(** ** Loading one segment *)

Lemma slice_addr b off : placed_slice b -> 0 <= off < len b -> to_dma_addr (ptr b +u off) = img b + off.
Proof.
  intros (Hp & Hl & Hle & Hptr) Ho. unfold is_pa in Hp.
  destruct Hptr as [-> | ->].
  - rewrite u64_add by lia. by rewrite to_dma_low by (unfold is_pa; lia).
  - rewrite phys_to_virt_pa by done. unfold KERNEL_VA_OFFSET. rewrite as_u64_small by (unfold is_u64; lia).
    unfold to_dma_addr, KERNEL_VA_OFFSET. case_ifs; lia.
Qed.

Lemma copy_segment_ok r r' b s a : placed_slice b -> lseg_ok b s -> same_image b r r' ->
  ldb (copy_segment r' b (l_off s) (l_va s) (l_fsz s) (l_msz s)) a = overlay r b (ldb r') s a.
Proof.
  intros Hb (H1 & H2 & H3 & H4 & H5 & H6) Hsame. unfold copy_segment, overlay.
  destruct (Z.eq_dec (l_msz s) 0) as [Hz|Hnz].
  { rewrite (proj2 (Z.ltb_ge 0 (l_fsz s))), (proj2 (Z.ltb_ge (l_fsz s) _)) by lia.
    rewrite !decide_False by lia. done. }
  assert (Hva : is_pa (l_va s)) by (unfold is_pa; lia).
  rewrite phys_to_virt_pa by done. set (r1 := if 0 <? l_fsz s then _ else r').
  assert (Hr1 : ldb r1 a = if decide (l_va s <= a < l_va s + l_fsz s)
    then ldb r (img b + l_off s + (a - l_va s)) else ldb r' a).
  { unfold r1. destruct (Z.ltb_spec 0 (l_fsz s)); [|by rewrite decide_False by lia].
    unfold kcopy. rewrite <- phys_to_virt_pa, to_dma_phys_to_virt by done.
    rewrite ldb_store_bytes, length_load_bytes, Z2Nat.id by lia. case_decide; [|done].
    rewrite nth_load_bytes, slice_addr by (done || lia). rewrite Z2Nat.id by lia.
    apply Hsame. lia. }
  destruct (Z.ltb_spec (l_fsz s) (l_msz s)) as [Hlt|Hge].
  - unfold kzero. rewrite ldb_zero_range.
    assert (to_dma_addr (l_va s + KERNEL_VA_OFFSET +u l_fsz s) = l_va s + l_fsz s) as ->.
    { unfold KERNEL_VA_OFFSET. rewrite as_u64_small by (unfold is_u64; lia).
      unfold to_dma_addr, KERNEL_VA_OFFSET. case_ifs; lia. }
    replace (l_va s + l_fsz s + (l_msz s - l_fsz s)) with (l_va s + l_msz s) by lia.
    rewrite Hr1. repeat case_decide; done || lia.
  - rewrite Hr1. repeat case_decide; done || lia.
Qed.

(** One iteration of the loop on a valid image. *)
Lemma load_phdr_ok r r' b i : valid_elf r b -> same_image b r r' -> 0 <= i < phnum_of r b ->
  exists r2, load_phdr b (phoff_of r b) (phentsize_of r b) i r' = Done (Ok r2) /\
    (forall a, ldb r2 a = match seg_at r b i with
                          | Some s => overlay r b (ldb r') s a
                          | None => ldb r' a
                          end).
Proof.
  intros Hv Hs Hi. pose proof (ve_phdrs _ _ Hv i Hi) as Hph. pose proof (ve_segs _ _ Hv i) as Hseg.
  pose proof (ve_slice _ _ Hv) as Hb. pose proof Hb as (Hpa & Hl & Hle & _). unfold is_pa in Hpa.
  pose proof (field_range 8 r b 0x20 (ve_bytes _ _ Hv)) as R1. fold (phoff_of r b) in R1.
  pose proof (field_range 2 r b 0x36 (ve_bytes _ _ Hv)) as R2. fold (phentsize_of r b) in R2.
  unfold load_phdr, seg_at in *. unfold ph_of in *.
  assert (Hmul : 0 <= i * phentsize_of r b) by (apply Z.mul_nonneg_nonneg; lia).
  rewrite (as_u64_small (i * _)) by (unfold is_u64; lia).
  rewrite (u64_add (phoff_of r b)) by lia.
  set (ph := phoff_of r b + i * phentsize_of r b) in *.
  rewrite !u64_add by lia. rewrite (proj2 (Z.ltb_ge _ _)) by lia.
  rewrite u32le_ok by lia. cbn [mbind outcome_bind]. rewrite (field_same 4 r r') by (done || lia).
  destruct (field 4 r b ph =? PT_LOAD); cbn [negb andb] in *; [|by exists r'].
  rewrite !u64le_ok by lia. cbn [mbind outcome_bind]. rewrite !(field_same 8 r r') by (done || lia).
  destruct (field 8 r b (ph + 40) =? 0); cbn [negb] in *; [by exists r'|].
  specialize (Hseg _ Hi eq_refl). pose proof Hseg as (H1 & H2 & H3 & _).
  cbn [l_off l_fsz l_msz l_va] in *.
  rewrite u64_add by lia. rewrite (proj2 (Z.ltb_ge (len b) _)), andb_false_r by lia.
  eexists. split; [reflexivity|]. intros a. by apply (copy_segment_ok r r' b (mk_lseg _ _ _ _) a).
Qed.

Lemma elf_segs_step r b i : 0 <= i -> elf_segs r b (i + 1) = elf_segs r b i ++ option_list (seg_at r b i).
Proof.
  intros Hi. unfold elf_segs. replace (Z.to_nat (i + 1)) with (Z.to_nat i + 1)%nat by lia.
  rewrite seq_app, omap_app. f_equal. simpl. rewrite Z2Nat.id by lia. by destruct (seg_at r b i).
Qed.

(** Memory with a list of segments loaded in order. *)
Definition loaded (r : gmap Z Z) (b : slice) (l : list lseg) : Z -> Z := foldl (overlay r b) (ldb r) l.

Lemma loaded_image r b l a : (forall s, s ∈ l -> lseg_ok b s) -> img b <= a < img b + len b ->
  loaded r b l a = ldb r a.
Proof.
  intros Hl Ha. unfold loaded. revert Hl. induction l as [|s l IH] using rev_ind; intros Hl; [done|].
  rewrite foldl_snoc. unfold overlay at 1.
  destruct (Hl s) as (_ & Hf & _ & _ & _ & Hd); [set_solver|].
  rewrite !decide_False by lia. apply IH. set_solver.
Qed.

Lemma check_header_len r b : check_header r b = Done None -> 64 <= len b.
Proof. unfold check_header. destruct (Z.ltb_spec (len b) 64); [done|lia]. Qed.

Lemma load_elf_ok r b : valid_elf r b ->
  exists r', load_elf r b = Done (Ok (entry_of r b), r') /\
    forall a, ldb r' a = loaded r b (elf_segs r b (phnum_of r b)) a.
Proof.
  intros Hv. pose proof (ve_slice _ _ Hv) as (Hpa & Hl & Hle & _). unfold is_pa in Hpa.
  pose proof (check_header_len _ _ (ve_header _ _ Hv)) as H64.
  unfold load_elf. rewrite (ve_header _ _ Hv). cbn [mbind outcome_bind].
  rewrite !u64le_ok, !u16le_ok by lia. cbn [mbind outcome_bind].
  fold (entry_of r b) (phoff_of r b) (phentsize_of r b) (phnum_of r b).
  pose proof (field_range 2 r b 0x38 (ve_bytes _ _ Hv)) as R. fold (phnum_of r b) in R.
  for_inv (fun i r' => 0 <= i <= phnum_of r b /\ forall a, ldb r' a = loaded r b (elf_segs r b i) a)
    (fun _ : outcome (result Z ElfError * gmap Z Z) => False) HL.
  - split; [lia|]. intros a. done.
  - intros i r1 Hi (_ & Hr1). rewrite Z2Nat.id in Hi by lia.
    assert (Hs : same_image b r r1).
    { intros a Ha. rewrite Hr1. apply loaded_image; [|done]. intros s Hs.
      apply list_elem_of_omap in Hs as (j & Hj%elem_of_seq & Hs). apply (ve_segs _ _ Hv _ _) in Hs; [done|lia]. }
    destruct (load_phdr_ok r r1 b i Hv Hs ltac:(lia)) as (r2 & -> & Hr2).
    split; [lia|]. intros a. rewrite Hr2, elf_segs_step by lia. unfold loaded in *.
    destruct (seg_at r b i) as [s|]; simpl; [|by rewrite app_nil_r].
    rewrite foldl_snoc. unfold overlay. by rewrite Hr1.
  - destruct (for_loop _ _ _ r) as [r'|]; [|done]. exists r'. split; [done|]. apply HL.
Qed.

(** ** A concrete image *)

(** A 64-byte header, one program header at [phoff] and the data [d] after it. *)
Definition ehdr (phoff : Z) : list Z :=
  [0x7F; 69; 76; 70; 2; 1; 1; 0; 0; 0; 0; 0; 0; 0; 0; 0] ++ to_le_bytes 2 2 ++ to_le_bytes 2 0xB7 ++
  to_le_bytes 4 1 ++ to_le_bytes 8 0x48000000 ++ to_le_bytes 8 phoff ++ to_le_bytes 8 0 ++
  to_le_bytes 4 0 ++ to_le_bytes 2 64 ++ to_le_bytes 2 56 ++ to_le_bytes 2 1 ++ [0; 0; 0; 0; 0; 0].

Definition phdr (off va fsz msz : Z) : list Z :=
  to_le_bytes 4 PT_LOAD ++ to_le_bytes 4 5 ++ to_le_bytes 8 off ++ to_le_bytes 8 va ++
  to_le_bytes 8 va ++ to_le_bytes 8 fsz ++ to_le_bytes 8 msz ++ to_le_bytes 8 16.

(** The image at physical address 0x50000000. *)
Definition image_at (l : list Z) : gmap Z Z := store_bytes ∅ 0x50000000 l.
Definition image_slice (l : list Z) : slice := mk_slice 0x50000000 (Z.of_nat (length l)).

Definition demo_elf : list Z := ehdr 64 ++ phdr 120 0x48000000 4 16 ++ [1; 2; 3; 4].

Lemma demo_phnum : phnum_of (image_at demo_elf) (image_slice demo_elf) = 1.
Proof. by vm_compute. Qed.

Lemma demo_seg : seg_at (image_at demo_elf) (image_slice demo_elf) 0 = Some (mk_lseg 120 0x48000000 4 16).
Proof. by vm_compute. Qed.

Lemma demo_elf_valid : valid_elf (image_at demo_elf) (image_slice demo_elf).
Proof.
  constructor.
  - apply mem_bytes_store_bytes; [apply mem_bytes_empty|]. vm_compute.
    repeat (constructor; [by split|]). constructor.
  - split; [by vm_compute|]. split; [by vm_compute|]. split; [by vm_compute|]. left. by vm_compute.
  - by vm_compute.
  - intros i. rewrite demo_phnum. intros Hi. assert (i = 0) as -> by lia. by vm_compute.
  - intros i s. rewrite demo_phnum. intros Hi. assert (i = 0) as -> by lia. rewrite demo_seg. intros [= <-].
    repeat (split; [by vm_compute|]). left. by vm_compute.
Qed.

(** ** Theorems *)

(** C34: the loader is correct.  On an image with a valid header whose program
    headers and file ranges lie inside the file and whose segments lie below 2^48
    and not on top of the image, [load_elf] returns the entry point, and memory
    then is the old memory overlaid, in program-header order, with each PT_LOAD
    segment: its file bytes at [p_vaddr], zeros up to [p_memsz], nothing else. *)
Theorem load_elf_correct r b :
  valid_elf r b ->
  exists r', load_elf r b = Done (Ok (entry_of r b), r') /\
    forall a, ldb r' a = loaded r b (elf_segs r b (phnum_of r b)) a.
Proof. apply load_elf_ok. Qed.

Lemma load_elf_correct_witness :
  exists r', load_elf (image_at demo_elf) (image_slice demo_elf) = Done (Ok 0x48000000, r') /\
    forall a, ldb r' a = loaded (image_at demo_elf) (image_slice demo_elf)
      (elf_segs (image_at demo_elf) (image_slice demo_elf) (phnum_of (image_at demo_elf) (image_slice demo_elf))) a.
Proof. exact (load_elf_correct _ _ demo_elf_valid). Defined.

(** C37: the ASLR slide moves the lowest segment into the window: for every random
    draw and every lowest address, the slid address is a 64 KiB-aligned address
    in [ASLR_BASE, ASLR_LIMIT). *)
Theorem aslr_in_window rand min_va :
  is_u64 min_va ->
  ASLR_BASE <= min_va +u aslr_slide rand min_va < ASLR_LIMIT /\
  (min_va +u aslr_slide rand min_va) mod ASLR_GRANULE = 0.
Proof.
  intros Hm. unfold aslr_slide. change ((ASLR_LIMIT - ASLR_BASE) / ASLR_GRANULE) with 14336.
  pose proof (Z.mod_pos_bound rand 14336 ltac:(lia)) as Hr. set (slot := rand mod 14336) in *.
  assert (E : min_va +u (ASLR_BASE + slot * ASLR_GRANULE -u min_va) = ASLR_BASE + slot * ASLR_GRANULE).
  { unfold as_u64 at 1, as_u64, wrap. rewrite Zplus_mod_idemp_r.
    replace (min_va + _) with (ASLR_BASE + slot * ASLR_GRANULE) by lia.
    apply Z.mod_small. unfold ASLR_BASE, ASLR_GRANULE. lia. }
  rewrite E. unfold ASLR_BASE, ASLR_LIMIT, ASLR_GRANULE. split; [lia|].
  change 0x48000000 with (0x4800 * 0x10000). by rewrite <- Z.mul_add_distr_r, Z.mod_mul.
Qed.

Lemma aslr_in_window_witness :
  is_u64 0x400000 /\ ASLR_BASE <= 0x400000 +u aslr_slide 99999 0x400000 < ASLR_LIMIT.
Proof.
  assert (H : is_u64 0x400000) by by vm_compute. split; [exact H|].
  exact (proj1 (aslr_in_window 99999 0x400000 H)).
Defined.

(** ** What the bounds checks miss *)

(** The size check of [load_elf] admits a program header cut off after 40 bytes,
    but the loader reads 48: a truncated file panics the kernel. *)
Lemma load_elf_short_header_panics :
  exists l, length l = 104%nat /\ load_elf (image_at l) (image_slice l) = Panic.
Proof. exists (take 104 (ehdr 64 ++ phdr 0 0x48000000 0 16)). split; by vm_compute. Qed.

(** A program-header offset near 2^64 wraps around in both checks and panics. *)
Lemma spawn_elf_wrapping_phoff_panics :
  exists l k, ram (mach k) = image_at l /\ spawn_elf [97] (image_slice l) 0 0 k = Panic.
Proof.
  exists (ehdr (2 ^ 64 - 40)),
    (with_mach (mk_machine big_pages (image_at (ehdr (2 ^ 64 - 40)))) (kernel0 big_vmm)).
  split; [reflexivity|]. by vm_compute.
Qed.

(** A file range whose end wraps around passes the bounds check: the segment is
    filled from memory in front of the file. *)
Lemma load_elf_reads_outside_file :
  exists l r, r = stb (image_at l) 0x4FFFFFF0 77 /\
    match load_elf r (image_slice l) with
    | Done (Ok _, r') => ldb r' 0x48000000 = 77
    | _ => False
    end.
Proof.
  eexists (ehdr 64 ++ phdr (2 ^ 64 - 16) 0x48000000 32 32), _. split; [reflexivity|]. by vm_compute.
Qed.

(** Nothing restricts [p_vaddr]: a segment may overwrite the kernel, which is
    linked at physical address 0x40080000. *)
Lemma load_elf_overwrites_kernel :
  exists l, match load_elf (stb (image_at l) 0x40080000 1) (image_slice l) with
            | Done (Ok _, r') => ldb r' 0x40080000 = 66
            | _ => False
            end.
Proof. exists (ehdr 64 ++ phdr 120 0x40080000 1 1 ++ [66]). by vm_compute. Qed.
