(* ===== verification/Syscall.v ===== *)
(** * System calls (kernel/src/syscall/mod.rs, exceptions.rs)

    Every handler of the syscall table, the dispatcher with its allowlist and
    capability gates, and the SVC path of the exception handler.  Handlers run in
    a state-and-panic monad over the kernel and the C heap.  The subsystems they
    call into (file system, network, display, WASM, configuration) appear as the
    typed requests [svc], answered by an instance of [Services]. *)

From stdpp Require Import base numbers list gmap strings.
From Stdlib Require Import ZArith Lia.
From S2P Require Import Prelude Machine PageAlloc Vmm Ipc Task Sched Heap Elf.

(** ** Numbers *)

Abbreviation SYS_SEND := 1 (only parsing).
Abbreviation SYS_RECV := 2 (only parsing).
Abbreviation SYS_YIELD := 3 (only parsing).
Abbreviation SYS_EXIT := 4 (only parsing).
Abbreviation SYS_AI_CALL := 5 (only parsing).
Abbreviation SYS_BLK_READ := 6 (only parsing).
Abbreviation SYS_BLK_WRITE := 7 (only parsing).
Abbreviation SYS_LOG := 8 (only parsing).
Abbreviation SYS_MALLOC := 9 (only parsing).
Abbreviation SYS_FREE := 10 (only parsing).
Abbreviation SYS_REALLOC := 11 (only parsing).
Abbreviation SYS_ALIGNED_ALLOC := 12 (only parsing).
Abbreviation SYS_EXEC := 13 (only parsing).
Abbreviation SYS_NET_SEND := 14 (only parsing).
Abbreviation SYS_NET_RECV := 15 (only parsing).
Abbreviation SYS_OPEN := 16 (only parsing).
Abbreviation SYS_READ_FD := 17 (only parsing).
Abbreviation SYS_WRITE_FD := 18 (only parsing).
Abbreviation SYS_CLOSE := 19 (only parsing).
Abbreviation SYS_READDIR := 20 (only parsing).
Abbreviation SYS_WAIT := 21 (only parsing).
Abbreviation SYS_WASM_LOAD := 22 (only parsing).
Abbreviation SYS_MMAP := 23 (only parsing).
Abbreviation SYS_MUNMAP := 24 (only parsing).
Abbreviation SYS_KREAD := 25 (only parsing).
Abbreviation SYS_FB_INFO := 26 (only parsing).
Abbreviation SYS_FB_MAP := 27 (only parsing).
Abbreviation SYS_FB_FLUSH := 28 (only parsing).
Abbreviation SYS_INPUT_POLL := 29 (only parsing).
Abbreviation SYS_TRY_RECV := 30 (only parsing).
Abbreviation SYS_GET_RTC := 31 (only parsing).
Abbreviation SYS_GET_STATS := 32 (only parsing).
Abbreviation SYS_GET_IP := 33 (only parsing).
Abbreviation SYS_PING := 34 (only parsing).
Abbreviation SYS_HTTP_GET := 35 (only parsing).
Abbreviation SYS_HTTPS_GET := 36 (only parsing).
Abbreviation SYS_HTTPS_POST := 50 (only parsing).
Abbreviation SYS_DNS_RESOLVE := 37 (only parsing).
Abbreviation SYS_CREATE := 38 (only parsing).
Abbreviation SYS_PIPE := 45 (only parsing).
Abbreviation SYS_SURF_CREATE := 40 (only parsing).
Abbreviation SYS_SURF_DESTROY := 41 (only parsing).
Abbreviation SYS_SURF_MAP := 42 (only parsing).
Abbreviation SYS_SURF_FLUSH := 43 (only parsing).
Abbreviation SYS_SURF_MOVE := 44 (only parsing).
Abbreviation SYS_SET_PRIORITY := 50 (only parsing).
Abbreviation SYS_WASM_EXEC := 51 (only parsing).
Abbreviation SYS_CAP_GRANT := 52 (only parsing).
Abbreviation SYS_CAP_REVOKE := 53 (only parsing).
Abbreviation SYS_CAP_QUERY := 54 (only parsing).
Abbreviation SYS_LIST_TASKS := 55 (only parsing).
Abbreviation SYS_TCP_CONNECT := 60 (only parsing).
Abbreviation SYS_TCP_LISTEN := 61 (only parsing).
Abbreviation SYS_TCP_ACCEPT := 62 (only parsing).
Abbreviation SYS_TCP_WRITE := 63 (only parsing).
Abbreviation SYS_TCP_READ := 64 (only parsing).
Abbreviation SYS_TCP_WAIT_READABLE := 65 (only parsing).
Abbreviation SYS_TCP_CLOSE := 66 (only parsing).
Abbreviation SYS_SURF_RESIZE := 67 (only parsing).
Abbreviation SYS_SURF_RAISE := 68 (only parsing).
Abbreviation SYS_SURF_LOWER := 69 (only parsing).
Abbreviation SYS_SURF_DIRTY := 70 (only parsing).
Abbreviation SYS_SPEAK := 71 (only parsing).
Abbreviation SYS_FILTER_SET := 72 (only parsing).
Abbreviation SYS_FILTER_GET := 73 (only parsing).
Abbreviation SYS_CONFIG_GET := 74 (only parsing).
Abbreviation SYS_CONFIG_SET := 75 (only parsing).
Abbreviation SYS_ATOMIC_WRITE := 76 (only parsing).
Abbreviation SYS_UNLINK := 77 (only parsing).
Abbreviation SYS_RENAME := 78 (only parsing).
Abbreviation SYS_SIGACTION := 79 (only parsing).
Abbreviation SYS_KILL := 80 (only parsing).
Abbreviation SYS_SIGRETURN := 81 (only parsing).
Abbreviation SYS_SIGMASK := 82 (only parsing).
Abbreviation SYS_CLONE := 83 (only parsing).

Definition SIGKILL : Z := 1.
Definition NUMENOR_TID : Z := 1.

Definition CAP_SEND : Z := Z.shiftl 1 0.
Definition CAP_RECV : Z := Z.shiftl 1 1.
Definition CAP_BLK : Z := Z.shiftl 1 2.
Definition CAP_AI : Z := Z.shiftl 1 3.
Definition CAP_LOG : Z := Z.shiftl 1 4.
Definition CAP_MEM : Z := Z.shiftl 1 5.
Definition CAP_NET : Z := Z.shiftl 1 6.
Definition CAP_ALL : Z := u64_max.
Definition CAP_USER_DEFAULT : Z :=
  Z.lor (Z.lor (Z.lor (Z.lor (Z.lor CAP_SEND CAP_RECV) CAP_LOG) CAP_MEM) CAP_AI) CAP_NET.

(** ** Strings *)

(** Continuation bytes, and [core::str::from_utf8(b).is_ok()]. *)
Definition in_range (lo b hi : Z) : bool := (lo <=? b) && (b <=? hi).
Definition utf8_cont (b : Z) : bool := in_range 0x80 b 0xBF.

(** The second byte allowed after the first byte of a three- or four-byte character. *)
Definition utf8_second3 (b c : Z) : bool :=
  if b =? 0xE0 then in_range 0xA0 c 0xBF else if b =? 0xED then in_range 0x80 c 0x9F
  else in_range 0xE1 b 0xEF && utf8_cont c.
Definition utf8_second4 (b c : Z) : bool :=
  if b =? 0xF0 then in_range 0x90 c 0xBF else if b =? 0xF4 then in_range 0x80 c 0x8F
  else in_range 0xF1 b 0xF3 && utf8_cont c.

Fixpoint from_utf8_ok (l : list Z) : bool :=
  match l with
  | [] => true
  | b :: r =>
      if b <? 0x80 then from_utf8_ok r
      else match r with
      | [] => false
      | c1 :: r1 =>
          if in_range 0xC2 b 0xDF then utf8_cont c1 && from_utf8_ok r1
          else match r1 with
          | [] => false
          | c2 :: r2 =>
              if in_range 0xE0 b 0xEF then utf8_second3 b c1 && utf8_cont c2 && from_utf8_ok r2
              else match r2 with
              | [] => false
              | c3 :: r3 => utf8_second4 b c1 && utf8_cont c2 && utf8_cont c3 && from_utf8_ok r3
              end
          end
      end
  end.

(** [s.trim_start_matches('/')]. *)
Fixpoint trim_slashes (l : list Z) : list Z :=
  match l with 47 :: r => trim_slashes r | _ => l end.

(** [s.rfind('.')], as a byte index. *)
Fixpoint rfind_dot (l : list Z) (i : nat) (found : option nat) : option nat :=
  match l with
  | [] => found
  | b :: r => rfind_dot r (S i) (if b =? 46 then Some i else found)
  end.

(** [&s[..n]]: slicing inside a character panics. *)
Definition str_prefix (s : list Z) (n : nat) : outcome (list Z) :=
  match s !! n with
  | Some b => if utf8_cont b then Panic else Done (take n s)
  | None => if (n =? length s)%nat then Done s else Panic
  end.

(** The temporary path of [sys_atomic_write]: a slash, at most seven bytes of the
    name, and [.t]. *)
Definition temp_path (path : list Z) : outcome (list Z) :=
  let base := trim_slashes path in
  let dot := default (length base) (rfind_dot base 0 None) in
  stem ← str_prefix base (Nat.min dot 7);
  let tmp := [47] ++ stem ++ [46; 116] in
  Done (if from_utf8_ok tmp then tmp else [47; 116; 109; 112; 46; 116]).

(** ** The subsystems behind the handlers *)

Inductive HttpResult :=
| HttpOk (n : Z) | DnsError | TcpError | HttpError (code : Z) | Timeout | BufferTooSmall.

Inductive IpAddr := V4 (ip : list Z) | V6 (ip : list Z).

(** What [call_export] returns: results, the trap [proc_exit], or another error. *)
Inductive wasm_outcome := WasmOk (rets : list Z) | WasmProcExit | WasmErr.

(** One request per function the handlers call outside the modelled components,
    indexed by the type of its answer.  Buffers are passed as slices of memory. *)
Inductive svc : Type -> Type :=
| Read_file_alloc (path : list Z) : svc (Z * Z)
| Open_write (path : list Z) : svc (option Z)
| Fat_write (fd : Z) (buf : slice) : svc unit
| Fat_close (fd : Z) : svc unit
| Fat_rename (src dst : list Z) : svc bool
| Fat_unlink (path : list Z) : svc bool
| Fs_open (path_ptr path_len : Z) : svc Z
| Fs_read_fd (fd buf_ptr len : Z) : svc Z
| Fs_write_fd (fd buf_ptr len : Z) : svc Z
| Fs_close (fd : Z) : svc Z
| Fs_readdir (path_ptr path_len out_ptr max : Z) : svc Z
| Fs_create (path_ptr path_len : Z) : svc Z
| Fs_pipe (out_ptr : Z) : svc Z
| Config_get (key_ptr key_len out_ptr out_len : Z) : svc Z
| Config_set (key_ptr key_len val_ptr val_len : Z) : svc Z
| Read_sectors (sector : Z) (buf : slice) : svc unit
| Write_block (sector : Z) (buf : slice) : svc unit
| Csprng_u32 : svc Z
| Net_transmit (pkt : slice) : svc bool
| Net_receive (buf : slice) : svc (option Z)
| Net_get_ip : svc (list Z)
| Net_ping (ip : list Z) (timeout_ms : Z) : svc Z
| Dns_resolve (name : list Z) : svc (option IpAddr)
| Parse_url (url : list Z) : svc (option (bool * list Z * Z * list Z))
| Http_get (host path : list Z) (port : Z) (buf : slice) : svc HttpResult
| Tls_get (host path : list Z) (buf : slice) : svc HttpResult
| Tls_post (host path : list Z) (json : bool) (body : option slice) (buf : slice) : svc HttpResult
| Tcp_connect (ip : IpAddr) (port : Z) : svc (option Z)
| Tcp_wait_established (id timeout_ms : Z) : svc bool
| Tcp_listen (port : Z) : svc (option Z)
| Tcp_accept (id timeout_ms : Z) : svc (option Z)
| Tcp_write (id : Z) (buf : slice) : svc Z
| Tcp_read (id : Z) (buf : slice) : svc Z
| Tcp_wait_readable (id timeout_ms : Z) : svc bool
| Tcp_close (id : Z) : svc unit
| Get_framebuffer : svc (Z * Z * Z * Z)
| Gpu_flush : svc unit
| Input_poll (ptr max_events : Z) : svc Z
| Surf_create (owner w h z : Z) : svc Z
| Surf_destroy (id : Z) : svc unit
| Surf_buf_pa (id : Z) : svc Z
| Surf_composite : svc unit
| Surf_set_pos (id x y : Z) : svc unit
| Surf_resize (id w h : Z) : svc bool
| Surf_raise (id : Z) : svc unit
| Surf_lower (id : Z) : svc unit
| Surf_mark_dirty (id : Z) : svc unit
| Hda_speak (text : slice) : svc bool
| Rtc_read : svc Z
| Uart_puts (s : list Z) : svc unit
| Console_gets (ptr max_len : Z) : svc Z
| Console_getc : svc Z
| Wasm_validate (b : slice) : svc bool
| Wasm_load (b : slice) : svc (option Z)
| Wasm_find_export (module : Z) (name : string) : svc bool
| Wasm_call_export (module : Z) (name : string) (args : list Z) : svc wasm_outcome.

(** ** The handler monad *)

(** The kernel, and the allocator behind the C heap. *)
Record sys (H : Type) := mk_sys { sk : kernel; sh : H }.
Arguments mk_sys {H}.
Arguments sk {H}.
Arguments sh {H}.

Definition K (H A : Type) : Type := sys H -> outcome (A * sys H).
#[export] Instance K_ret H : MRet (K H) := fun A a s => Done (a, s).
#[export] Instance K_bind H : MBind (K H) :=
  fun A B f m s => match m s with Done (a, s') => f a s' | Panic => Panic end.

Class Services (H : Type) := serve : forall {A : Type}, svc A -> K H A.

(** Reading the kernel state, updating it, and running a kernel operation. *)
Definition gets {H A} (f : kernel -> A) : K H A := fun s => Done (f (sk s), s).
Definition withk {H A} (f : kernel -> A * kernel) : K H A :=
  fun s => let '(a, k) := f (sk s) in Done (a, mk_sys k (sh s)).
Definition liftk {H A} (f : kernel -> outcome (A * kernel)) : K H A :=
  fun s => match f (sk s) with Done (a, k) => Done (a, mk_sys k (sh s)) | Panic => Panic end.
Definition modk {H} (f : kernel -> kernel) : K H unit := withk (fun k => (tt, f k)).
Definition panic {H A} : K H A := fun _ => Panic.

(** A C heap operation on the shared memory. *)
Definition with_ram (r : gmap Z Z) (k : kernel) : kernel := with_mach (mk_machine (pg (mach k)) r) k.
Definition withheap {H A} (f : @heap H -> A * @heap H) : K H A :=
  fun s => let '(a, h) := f (mk_heap (sh s) (ram (mach (sk s)))) in
           Done (a, mk_sys (with_ram (hmem h) (sk s)) (alloc_state h)).

(** Bytes behind a pointer: [from_raw_parts], and stores through a raw pointer. *)
Definition bytes_at {H} (ptr len : Z) : K H (list Z) :=
  gets (fun k => load_bytes (Z.to_nat len) (ram (mach k)) (to_dma_addr ptr)).
Definition store_at {H} (ptr : Z) (l : list Z) : K H unit :=
  modk (fun k => with_ram (kcopy (ram (mach k)) ptr l) k).

(** ** Handlers *)

Section Handlers.
Context {H : Type} `{!GlobalAlloc H} `{!Services H}.
(** The executing core, the value of [get_cpu_id()]. *)
Variable cpu : Z.

Local Abbreviation M := (K H).

(** [from_utf8(slice).unwrap_or("")]. *)
Definition utf8_or_empty (ptr len : Z) : M (list Z) :=
  b ← bytes_at ptr len;
  mret (if from_utf8_ok b then b else []).

(** *** Process creation *)

(** [spawn_elf] draws from the CSPRNG for position-independent images only; the
    draw is requested up front and otherwise unused. *)
Definition sys_exec (path_ptr path_len caps : Z) : M Z :=
  if (path_ptr =? 0) || (path_len =? 0) then mret (-1)
  else
    path ← utf8_or_empty path_ptr path_len;
    if bool_decide (path = []) then mret (-1)
    else
      caller_caps ← gets (current_caps cpu);
      let effective_caps := Z.land caps caller_caps in
      '(elf_ptr, elf_len) ← serve (Read_file_alloc path);
      if (elf_ptr =? 0) || (elf_len =? 0) then mret (-1)
      else
        rand ← serve Csprng_u32;
        r ← liftk (spawn_elf [117; 115; 101; 114] (mk_slice elf_ptr elf_len) effective_caps rand);
        let result := match r with Ok tid => as_i64 tid | Err _ => -1 end in
        _ ← withheap (fun h => (tt, c_free elf_ptr h));
        mret result.

Definition sys_wasm_load (wasm_ptr wasm_len caps : Z) : M Z :=
  if (wasm_ptr =? 0) || (wasm_len =? 0) then mret (-1)
  else
    module ← serve (Wasm_load (mk_slice wasm_ptr wasm_len));
    match module with
    | None => mret (-1)
    | Some m =>
        has_main ← serve (Wasm_find_export m "main");
        if has_main : bool then _ ← serve (Wasm_call_export m "main" []); mret 0 else mret 0
    end.

(** The run of a loaded module by [sys_wasm_exec]. *)
Definition wasm_exec_module (m : Z) : M Z :=
  has_start ← serve (Wasm_find_export m "_start");
  if has_start : bool then
    o ← serve (Wasm_call_export m "_start" []);
    mret (match o with WasmOk _ => 0 | WasmProcExit => 0 | WasmErr => -5 end)
  else
    has_main ← serve (Wasm_find_export m "main");
    if has_main : bool then
      o ← serve (Wasm_call_export m "main" [0; 0]);
      mret (match o with
            | WasmOk rets => as_i64 (default 0 (rets !! 0%nat))
            | WasmProcExit => 0
            | WasmErr => -5
            end)
    else mret 0.

Definition sys_wasm_exec (path_ptr path_len : Z) : M Z :=
  if (path_ptr =? 0) || (path_len =? 0) then mret (-1)
  else
    path ← utf8_or_empty path_ptr path_len;
    if bool_decide (path = []) then mret (-1)
    else
      '(ptr, len) ← serve (Read_file_alloc path);
      if (ptr =? 0) || (len =? 0) then mret (-2)
      else
        valid ← serve (Wasm_validate (mk_slice ptr len));
        if negb valid then _ ← withheap (fun h => (tt, c_free ptr h)); mret (-3)
        else
          module ← serve (Wasm_load (mk_slice ptr len));
          result ← match module with None => mret (-4) | Some m => wasm_exec_module m end;
          _ ← withheap (fun h => (tt, c_free ptr h));
          mret result.

Definition sys_clone (entry_va stack_top caps : Z) : M Z :=
  if entry_va =? 0 then mret (-1)
  else
    caller_caps ← gets (current_caps cpu);
    let effective_caps := Z.land caps caller_caps in
    parent_ttbr0 ← gets (current_task_ttbr0 cpu);
    if parent_ttbr0 =? 0 then mret (-1)
    else
      r ← liftk (spawn_user_thread [116; 104; 114; 101; 97; 100] entry_va stack_top effective_caps parent_ttbr0);
      mret (match r with Ok tid => as_i64 tid | Err _ => -1 end).

(** *** Capabilities and filters *)

Definition sys_cap_grant (tid cap_bits : Z) : M Z :=
  grantor_caps ← gets (current_caps cpu);
  let safe_bits := Z.land cap_bits grantor_caps in
  existing ← gets (get_task_caps tid);
  match existing with
  | None => mret (-1)
  | Some c => ok ← withk (set_task_caps tid (Z.lor c safe_bits)); mret (if ok : bool then 0 else -1)
  end.

Definition sys_cap_revoke (tid cap_bits : Z) : M Z :=
  existing ← gets (get_task_caps tid);
  match existing with
  | None => mret (-1)
  | Some c => ok ← withk (set_task_caps tid (Z.land c (not64 cap_bits))); mret (if ok : bool then 0 else -1)
  end.

Definition sys_cap_query (tid : Z) : M Z :=
  c ← gets (get_task_caps tid);
  mret (match c with Some c => as_i64 c | None => -1 end).

(** The [SYS_FILTER_SET] and [SYS_FILTER_GET] arms. *)
Definition sys_filter_set (tid lo hi : Z) : M Z :=
  ok ← withk (set_task_syscall_filter tid (lo, hi)); mret (if ok : bool then 0 else -1).

Definition sys_filter_get (tid out : Z) : M Z :=
  if out =? 0 then mret (-1)
  else
    f ← gets (get_task_syscall_filter tid);
    match f with
    | Some (lo, hi) => _ ← store_at out (to_le_bytes 8 lo ++ to_le_bytes 8 hi); mret 0
    | None => mret (-1)
    end.

(** The 40 bytes of a [TaskRecord]. *)
Definition record_bytes (r : TaskRecord) : list Z :=
  to_le_bytes 8 (rec_tid r) ++ to_le_bytes 8 (rec_caps r) ++ rec_name r ++ replicate 8 0.

Definition sys_list_tasks (out_ptr max_entries : Z) : M Z :=
  if (out_ptr =? 0) || (max_entries =? 0) then mret 0
  else
    rs ← gets (list_tasks (Z.to_nat max_entries));
    _ ← store_at out_ptr (concat (record_bytes <$> rs));
    mret (Z.of_nat (length rs)).

(** *** IPC *)

(** A [Message] in memory: the sender, then 32 bytes. *)
Definition msg_of_bytes (l : list Z) : Message := mk_msg (le_bytes (take 8 l)) (drop 8 l).
Definition msg_bytes (m : Message) : list Z := to_le_bytes 8 (sender m) ++ data m.

Definition sys_send (target_tid msg_ptr : Z) : M Z :=
  if msg_ptr =? 0 then mret (-1)
  else
    b ← bytes_at msg_ptr 40;
    sender ← gets (current_tid cpu);
    caps ← gets (current_caps cpu);
    let allowed :=
      if target_tid =? 0 then false
      else if target_tid =? 1 then negb (Z.land caps CAP_AI =? 0)
      else negb (Z.land caps CAP_SEND =? 0) in
    if negb (caps =? CAP_ALL) && negb allowed then mret (-13)
    else
      let msg := mk_msg sender (data (msg_of_bytes b)) in
      r ← liftk (send_message target_tid msg);
      mret (match r with Ok _ => 0 | Err _ => -2 end).

Definition sys_recv (msg_ptr : Z) : M Z :=
  if msg_ptr =? 0 then mret (-1)
  else
    r ← liftk (recv_message cpu);
    match r with
    | Some msg => _ ← store_at msg_ptr (msg_bytes msg); mret 0
    | None => mret 1
    end.

Definition sys_try_recv (msg_ptr : Z) : M Z :=
  if msg_ptr =? 0 then mret (-1)
  else
    r ← liftk (try_recv_message cpu);
    match r with
    | Some msg => _ ← store_at msg_ptr (msg_bytes msg); mret 0
    | None => mret 1
    end.

(** [AiMessage::to_bytes]. *)
Definition ai_to_bytes (op arg1 arg2 : Z) : list Z :=
  to_le_bytes 8 op ++ to_le_bytes 8 arg1 ++ to_le_bytes 8 arg2 ++ replicate 8 0.

Definition sys_ai_call (op arg1 arg2 : Z) : M Z :=
  sender ← gets (current_tid cpu);
  r ← liftk (send_message NUMENOR_TID (mk_msg sender (ai_to_bytes op arg1 arg2)));
  mret (match r with Ok _ => 0 | Err _ => -1 end).

(** *** Scheduling *)

Definition sys_yield : M Z := _ ← modk (yield_cpu cpu); mret 0.
Definition sys_exit (code : Z) : M Z := _ ← modk (exit_task cpu code); mret 0.
Definition sys_wait (target_tid : Z) : M Z :=
  r ← liftk (wait_for_tid cpu target_tid);
  mret (match r with Some code => code | None => 0 end).
Definition sys_set_priority (tid priority : Z) : M Z :=
  _ ← modk (set_task_priority tid (Z.min priority 8)); mret 0.

(** *** Signals *)

Definition sys_sigaction (handler_va mask : Z) : M Z :=
  _ ← modk (Sched.set_signal_handler cpu handler_va mask); mret 0.
Definition sys_kill (tid sig : Z) : M Z :=
  if 32 <=? sig then mret (-1)
  else if sig =? SIGKILL then _ ← withk (force_exit tid (-1)); mret 0
  else ok ← withk (send_signal tid sig); mret (if ok : bool then 0 else -1).
Definition sys_sigreturn : M Z := mret 0.
Definition sys_sigmask (new_mask : Z) : M Z := withk (swap_signal_mask cpu new_mask).

(** *** Memory *)

Definition sys_malloc (size : Z) : M Z := p ← withheap (c_malloc size); mret (as_i64 p).
Definition sys_free (ptr : Z) : M Z := _ ← withheap (fun h => (tt, c_free ptr h)); mret 0.
Definition sys_realloc (ptr size : Z) : M Z := p ← withheap (c_realloc ptr size); mret (as_i64 p).
Definition sys_aligned_alloc (align size : Z) : M Z :=
  p ← withheap (c_aligned_alloc size align); mret (as_i64 p).

Definition sys_kread (k_ptr u_ptr len : Z) : M Z :=
  if (k_ptr <? KERNEL_VA_OFFSET) || (u_ptr =? 0) || (len =? 0) then mret (-1)
  else
    let n := Z.min len 4096 in
    _ ← modk (fun k => with_ram (kmove (ram (mach k)) k_ptr u_ptr n) k);
    mret n.

(** [map_user_rw] on the caller's table, when it has one. *)
Definition map_in_caller (pa size : Z) : M unit :=
  ttbr0 ← gets (current_task_ttbr0 cpu);
  if ttbr0 =? 0 then mret tt
  else liftk (fun k => m ← map_user_rw (mach k) ttbr0 pa size; Done (tt, with_mach m k)).

Definition sys_mmap (_addr_hint size _prot : Z) : M Z :=
  if size =? 0 then mret (-1)
  else
    let pages := (size +u 0xFFF) / 4096 in
    r ← liftk (fun k => '(r, m) ← alloc_pages (mach k) pages; Done (r, with_mach m k));
    match r with
    | None => mret (-12)
    | Some pa =>
        _ ← modk (fun k => with_ram (kzero (ram (mach k)) pa (pages *u 4096)) k);
        _ ← map_in_caller pa size;
        mret (as_i64 pa)
    end.

Definition sys_munmap (va size : Z) : M Z :=
  if (va =? 0) || (size =? 0) then mret (-1)
  else
    ttbr0 ← gets (current_task_ttbr0 cpu);
    if ttbr0 =? 0 then mret (-1)
    else
      _ ← liftk (fun k => '(m, _) ← unmap_pages (mach k) ttbr0 va size; Done (tt, with_mach m k));
      mret 0.

(** *** Devices and statistics *)

Definition store_u32 (ptr v : Z) : M unit :=
  if ptr =? 0 then mret tt else store_at ptr (to_le_bytes 4 v).

Definition sys_fb_info (w_ptr h_ptr p_ptr : Z) : M Z :=
  '(_, w, h, p) ← serve Get_framebuffer;
  _ ← store_u32 w_ptr w; _ ← store_u32 h_ptr h; _ ← store_u32 p_ptr p; mret 0.

Definition sys_fb_map : M Z :=
  '(va, w, h, p) ← serve Get_framebuffer;
  if (va =? 0) || (w =? 0) then mret (-1)
  else
    let fb_pa := va -u KERNEL_VA_OFFSET in
    _ ← map_in_caller fb_pa (as_u32 (p * h));
    mret (as_i64 fb_pa).

Definition sys_fb_flush : M Z := _ ← serve Gpu_flush; mret 0.

Definition sys_get_stats (out_ptr : Z) : M Z :=
  if out_ptr =? 0 then mret (-1)
  else
    free_p ← liftk (fun k => n ← free_pages (pg (mach k)); Done (n, k));
    total_p ← gets (fun k => total_pages (pg (mach k)));
    let free_mb := as_u32 (free_p *u 4096 / (1024 * 1024)) in
    let total_mb := as_u32 (total_p *u 4096 / (1024 * 1024)) in
    idle ← gets idle_ticks;
    total ← gets total_ticks;
    let cpu_pct := if 0 <? total then as_u32 ((total -u idle) *u 100 / total) else 0 in
    task_cnt ← gets task_count;
    _ ← store_at out_ptr (to_le_bytes 4 free_mb ++ to_le_bytes 4 total_mb ++ to_le_bytes 4 cpu_pct ++
                          to_le_bytes 4 (as_u32 task_cnt));
    mret 0.

Definition sys_get_rtc : M Z := serve Rtc_read.

Definition sys_input_poll (out_ptr max_events : Z) : M Z :=
  if (out_ptr =? 0) || (max_events =? 0) then mret 0
  else n ← serve (Input_poll out_ptr max_events); mret (as_i64 n).

Definition sys_log (ptr len : Z) : M Z :=
  if (ptr =? 0) || (len =? 0) then mret (-1)
  else
    b ← bytes_at ptr len;
    _ ← (if from_utf8_ok b then serve (Uart_puts b) else mret tt);
    mret 0.

Definition sys_blk_read (sector buf_ptr len : Z) : M Z :=
  if (buf_ptr =? 0) || (len =? 0) then mret (-1)
  else _ ← serve (Read_sectors sector (mk_slice buf_ptr len)); mret (as_i64 len).

Definition sys_blk_write (sector buf_ptr : Z) : M Z :=
  if buf_ptr =? 0 then mret (-1)
  else _ ← serve (Write_block sector (mk_slice buf_ptr 512)); mret 0.

Definition sys_speak (text_ptr text_len : Z) : M Z :=
  if negb (text_ptr =? 0) && (0 <? text_len)
  then ok ← serve (Hda_speak (mk_slice text_ptr text_len)); mret (if ok : bool then 0 else -1)
  else mret (-1).

(** *** Surfaces *)

Definition sys_surf_create (w h z : Z) : M Z :=
  tid ← gets (current_tid cpu);
  id ← serve (Surf_create tid w h z);
  mret (if id =? u64_max then -1 else as_i64 id).

Definition sys_surf_map (id : Z) : M Z :=
  pa ← serve (Surf_buf_pa id);
  if pa =? 0 then mret (-1)
  else
    let surf_size := Z.land (1280 * 720 * 4 + 4095) (not64 4095) in
    _ ← map_in_caller pa surf_size;
    mret (as_i64 pa).

Definition sys_surf_resize (id w h : Z) : M Z :=
  ok ← serve (Surf_resize id w h); mret (if ok : bool then 0 else -1).

(** The arms [{ f(..); 0 }]. *)
Definition then_zero (c : svc unit) : M Z := _ ← serve c; mret 0.

(** *** Network *)

Definition sys_net_send (buf_ptr buf_len : Z) : M Z :=
  if (buf_ptr =? 0) || (buf_len =? 0) then mret (-1)
  else ok ← serve (Net_transmit (mk_slice buf_ptr buf_len)); mret (if ok : bool then 0 else -1).

Definition sys_net_recv (buf_ptr buf_len : Z) : M Z :=
  if (buf_ptr =? 0) || (buf_len =? 0) then mret (-1)
  else
    r ← serve (Net_receive (mk_slice buf_ptr buf_len));
    mret (match r with Some n => as_i64 n | None => -1 end).

Definition sys_get_ip : M Z :=
  ip ← serve Net_get_ip;
  let b i := nth i ip 0 in
  mret (Z.lor (Z.lor (Z.lor (Z.shiftl (b 0%nat) 24) (Z.shiftl (b 1%nat) 16)) (Z.shiftl (b 2%nat) 8)) (b 3%nat)).

(** The four bytes of a packed address. *)
Definition ip_bytes (ip : Z) : list Z :=
  [as_u8 (Z.shiftr ip 24); as_u8 (Z.shiftr ip 16); as_u8 (Z.shiftr ip 8); as_u8 ip].

Definition sys_ping (ip_packed timeout_ms : Z) : M Z :=
  serve (Net_ping (ip_bytes ip_packed) (as_u32 timeout_ms)).

Definition sys_dns_resolve (name_ptr name_len out_ptr : Z) : M Z :=
  if (name_ptr =? 0) || (name_len =? 0) then mret (-1)
  else
    name ← utf8_or_empty name_ptr name_len;
    r ← serve (Dns_resolve name);
    match r with
    | Some (V4 ip) => _ ← (if out_ptr =? 0 then mret tt else store_at out_ptr (take 4 ip)); mret 0
    | Some (V6 ip6) => _ ← (if out_ptr =? 0 then mret tt else store_at out_ptr (take 4 (drop 12 ip6))); mret 0
    | None => mret (-1)
    end.

Definition http_result_to_isize (r : HttpResult) : Z :=
  match r with
  | HttpOk n => as_i64 n
  | DnsError => -1
  | TcpError => -2
  | HttpError _ => -3
  | Timeout => -4
  | BufferTooSmall => -5
  end.

Definition sys_http_get (url_ptr url_len buf_ptr buf_len : Z) : M Z :=
  if (url_ptr =? 0) || (url_len =? 0) || (buf_ptr =? 0) || (buf_len =? 0) then mret (-1)
  else
    url ← utf8_or_empty url_ptr url_len;
    u ← serve (Parse_url url);
    match u with
    | None => mret (-1)
    | Some (https, host, port, path) =>
        let buf := mk_slice buf_ptr buf_len in
        r ← (if https : bool then serve (Tls_get host path buf) else serve (Http_get host path port buf));
        mret (http_result_to_isize r)
    end.

Definition sys_https_get (url_ptr url_len buf_ptr buf_len : Z) : M Z :=
  if (url_ptr =? 0) || (url_len =? 0) || (buf_ptr =? 0) || (buf_len =? 0) then mret (-1)
  else
    url ← utf8_or_empty url_ptr url_len;
    u ← serve (Parse_url url);
    match u with
    | None => mret (-1)
    | Some (_, host, _, path) =>
        r ← serve (Tls_get host path (mk_slice buf_ptr buf_len));
        mret (http_result_to_isize r)
    end.

(** The content type is JSON when the body starts with a brace. *)
Definition sys_https_post (url_ptr url_len body_ptr body_len buf_ptr buf_len : Z) : M Z :=
  if (url_ptr =? 0) || (url_len =? 0) || (buf_ptr =? 0) || (buf_len =? 0) then mret (-1)
  else
    url ← utf8_or_empty url_ptr url_len;
    u ← serve (Parse_url url);
    match u with
    | None => mret (-1)
    | Some (_, host, _, path) =>
        let has_body := negb (body_ptr =? 0) && (0 <? body_len) in
        first ← bytes_at body_ptr 1;
        let json := has_body && bool_decide (first = [123]) in
        r ← serve (Tls_post host path json (if has_body then Some (mk_slice body_ptr body_len) else None)
                     (mk_slice buf_ptr buf_len));
        mret (http_result_to_isize r)
    end.

Definition opt_id (r : option Z) : Z := match r with Some id => as_i64 id | None => -1 end.

Definition sys_tcp_connect (ip_u32 port timeout_ms : Z) : M Z :=
  r ← serve (Tcp_connect (V4 (ip_bytes ip_u32)) (as_u16 port));
  match r with
  | None => mret (-1)
  | Some id =>
      ok ← serve (Tcp_wait_established id (as_u32 timeout_ms));
      if ok : bool then mret (as_i64 id) else _ ← serve (Tcp_close id); mret (-1)
  end.

Definition sys_tcp_listen (port : Z) : M Z := r ← serve (Tcp_listen (as_u16 port)); mret (opt_id r).
Definition sys_tcp_accept (listener_id timeout_ms : Z) : M Z :=
  r ← serve (Tcp_accept listener_id (as_u32 timeout_ms)); mret (opt_id r).
Definition sys_tcp_write (conn_id buf_ptr len : Z) : M Z :=
  if (buf_ptr =? 0) || (len =? 0) then mret (-1)
  else n ← serve (Tcp_write conn_id (mk_slice buf_ptr len)); mret (if n =? 0 then -1 else as_i64 n).
Definition sys_tcp_read (conn_id buf_ptr len : Z) : M Z :=
  if (buf_ptr =? 0) || (len =? 0) then mret (-1)
  else n ← serve (Tcp_read conn_id (mk_slice buf_ptr len)); mret (as_i64 n).
Definition sys_tcp_wait_readable (conn_id timeout_ms : Z) : M Z :=
  ok ← serve (Tcp_wait_readable conn_id (as_u32 timeout_ms)); mret (if ok : bool then 0 else -1).

(** *** Files *)

Definition sys_atomic_write (path_ptr path_len data_ptr data_len : Z) : M Z :=
  if (path_ptr =? 0) || (path_len =? 0) || (data_ptr =? 0) then mret (-1)
  else
    path ← bytes_at path_ptr path_len;
    if negb (from_utf8_ok path) then mret (-1)
    else match temp_path path with
         | Panic => panic
         | Done tmp =>
             fd ← serve (Open_write tmp);
             match fd with
             | None => mret (-1)
             | Some f =>
                 _ ← serve (Fat_write f (mk_slice data_ptr data_len));
                 _ ← serve (Fat_close f);
                 ok ← serve (Fat_rename tmp path);
                 mret (if ok : bool then 0 else -1)
             end
         end.

Definition sys_unlink (path_ptr path_len : Z) : M Z :=
  if (path_ptr =? 0) || (path_len =? 0) then mret (-1)
  else
    path ← bytes_at path_ptr path_len;
    if negb (from_utf8_ok path) then mret (-1)
    else ok ← serve (Fat_unlink path); mret (if ok : bool then 0 else -1).

Definition sys_rename (src_ptr src_len dst_ptr dst_len : Z) : M Z :=
  if (src_ptr =? 0) || (src_len =? 0) || (dst_ptr =? 0) || (dst_len =? 0) then mret (-1)
  else
    src ← bytes_at src_ptr src_len;
    dst ← bytes_at dst_ptr dst_len;
    if negb (from_utf8_ok src) || negb (from_utf8_ok dst) then mret (-1)
    else ok ← serve (Fat_rename src dst); mret (if ok : bool then 0 else -1).

(** ** Dispatch *)

(** One arm of the [match]: the number, the capability [require!] asks for, and
    the handler. *)
Definition arm : Type := Z * option Z * M Z.

(** The arms in source order. *)
Definition arms (arg0 arg1 arg2 arg3 arg4 arg5 : Z) : list arm :=
  [ (SYS_SEND, Some CAP_SEND, sys_send arg0 arg1);
    (SYS_RECV, Some CAP_RECV, sys_recv arg0);
    (SYS_YIELD, None, sys_yield);
    (SYS_EXIT, None, sys_exit (as_i32 arg0));
    (SYS_WAIT, None, sys_wait arg0);
    (SYS_AI_CALL, Some CAP_AI, sys_ai_call arg0 arg1 arg2);
    (SYS_BLK_READ, Some CAP_BLK, sys_blk_read arg0 arg1 arg2);
    (SYS_BLK_WRITE, Some CAP_BLK, sys_blk_write arg0 arg1);
    (SYS_LOG, Some CAP_LOG, sys_log arg0 arg1);
    (SYS_MALLOC, Some CAP_MEM, sys_malloc arg0);
    (SYS_FREE, Some CAP_MEM, sys_free arg0);
    (SYS_REALLOC, Some CAP_MEM, sys_realloc arg0 arg1);
    (SYS_ALIGNED_ALLOC, Some CAP_MEM, sys_aligned_alloc arg0 arg1);
    (SYS_EXEC, Some CAP_MEM, sys_exec arg0 arg1 arg2);
    (SYS_NET_SEND, None, sys_net_send arg0 arg1);
    (SYS_NET_RECV, None, sys_net_recv arg0 arg1);
    (SYS_OPEN, None, serve (Fs_open arg0 arg1));
    (SYS_READ_FD, None, serve (Fs_read_fd arg0 arg1 arg2));
    (SYS_WRITE_FD, None, serve (Fs_write_fd arg0 arg1 arg2));
    (SYS_CLOSE, None, serve (Fs_close arg0));
    (SYS_READDIR, None, serve (Fs_readdir arg0 arg1 arg2 64));
    (SYS_WASM_LOAD, Some CAP_MEM, sys_wasm_load arg0 arg1 arg2);
    (SYS_MMAP, Some CAP_MEM, sys_mmap arg0 arg1 arg2);
    (SYS_MUNMAP, Some CAP_MEM, sys_munmap arg0 arg1);
    (SYS_KREAD, None, sys_kread arg0 arg1 arg2);
    (SYS_FB_INFO, None, sys_fb_info arg0 arg1 arg2);
    (SYS_FB_MAP, None, sys_fb_map);
    (SYS_FB_FLUSH, None, sys_fb_flush);
    (SYS_INPUT_POLL, None, sys_input_poll arg0 arg1);
    (SYS_TRY_RECV, Some CAP_RECV, sys_try_recv arg0);
    (SYS_GET_RTC, None, sys_get_rtc);
    (SYS_GET_STATS, None, sys_get_stats arg0);
    (SYS_GET_IP, None, sys_get_ip);
    (SYS_PING, None, sys_ping arg0 arg1);
    (SYS_HTTP_GET, None, sys_http_get arg0 arg1 arg2 arg3);
    (SYS_HTTPS_GET, None, sys_https_get arg0 arg1 arg2 arg3);
    (SYS_HTTPS_POST, None, sys_https_post arg0 arg1 arg2 arg3 arg4 arg5);
    (SYS_DNS_RESOLVE, None, sys_dns_resolve arg0 arg1 arg2);
    (SYS_CREATE, None, serve (Fs_create arg0 arg1));
    (SYS_PIPE, None, serve (Fs_pipe arg0));
    (SYS_SURF_CREATE, None, sys_surf_create (as_u32 arg0) (as_u32 arg1) (as_u8 arg2));
    (SYS_SURF_DESTROY, None, then_zero (Surf_destroy arg0));
    (SYS_SURF_MAP, None, sys_surf_map arg0);
    (SYS_SURF_FLUSH, None, then_zero Surf_composite);
    (SYS_SURF_MOVE, None, then_zero (Surf_set_pos arg0 (as_i32 arg1) (as_i32 arg2)));
    (SYS_SET_PRIORITY, Some CAP_AI, sys_set_priority arg0 arg1);
    (SYS_WASM_EXEC, Some CAP_MEM, sys_wasm_exec arg0 arg1);
    (SYS_CAP_GRANT, Some CAP_ALL, sys_cap_grant arg0 arg1);
    (SYS_CAP_REVOKE, Some CAP_ALL, sys_cap_revoke arg0 arg1);
    (SYS_CAP_QUERY, None, sys_cap_query arg0);
    (SYS_LIST_TASKS, Some CAP_LOG, sys_list_tasks arg0 arg1);
    (SYS_TCP_CONNECT, Some CAP_NET, sys_tcp_connect arg0 arg1 arg2);
    (SYS_TCP_LISTEN, Some CAP_NET, sys_tcp_listen arg0);
    (SYS_TCP_ACCEPT, Some CAP_NET, sys_tcp_accept arg0 arg1);
    (SYS_TCP_WRITE, Some CAP_NET, sys_tcp_write arg0 arg1 arg2);
    (SYS_TCP_READ, Some CAP_NET, sys_tcp_read arg0 arg1 arg2);
    (SYS_TCP_WAIT_READABLE, Some CAP_NET, sys_tcp_wait_readable arg0 arg1);
    (SYS_TCP_CLOSE, Some CAP_NET, then_zero (Tcp_close arg0));
    (SYS_SURF_RESIZE, None, sys_surf_resize arg0 (as_u32 arg1) (as_u32 arg2));
    (SYS_SURF_RAISE, None, then_zero (Surf_raise arg0));
    (SYS_SURF_LOWER, None, then_zero (Surf_lower arg0));
    (SYS_SURF_DIRTY, None, then_zero (Surf_mark_dirty arg0));
    (SYS_SPEAK, None, sys_speak arg0 arg1);
    (SYS_FILTER_SET, Some CAP_ALL, sys_filter_set arg0 arg1 arg2);
    (SYS_FILTER_GET, None, sys_filter_get arg0 arg1);
    (SYS_CONFIG_GET, None, serve (Config_get arg0 arg1 arg2 arg3));
    (SYS_CONFIG_SET, Some CAP_BLK, serve (Config_set arg0 arg1 arg2 arg3));
    (SYS_ATOMIC_WRITE, Some CAP_BLK, sys_atomic_write arg0 arg1 arg2 arg3);
    (SYS_UNLINK, Some CAP_BLK, sys_unlink arg0 arg1);
    (SYS_RENAME, Some CAP_BLK, sys_rename arg0 arg1 arg2 arg3);
    (SYS_SIGACTION, None, sys_sigaction arg0 (as_u32 arg1));
    (SYS_KILL, Some CAP_SEND, sys_kill arg0 (as_u32 arg1));
    (SYS_SIGRETURN, None, sys_sigreturn);
    (SYS_SIGMASK, None, sys_sigmask (as_u32 arg0));
    (SYS_CLONE, Some CAP_MEM, sys_clone arg0 arg1 arg2);
    (99, Some CAP_LOG, serve (Console_gets arg0 arg1));
    (100, Some CAP_LOG, serve Console_getc) ].

(** The first arm whose number matches. *)
Fixpoint select (id : Z) (l : list arm) : option (option Z * M Z) :=
  match l with
  | [] => None
  | (n, cap, h) :: l' => if n =? id then Some (cap, h) else select id l'
  end.

(** The allowlist test on a number below 128. *)
Definition filter_word (filter : Z * Z) (id : Z) : Z := if id / 64 =? 0 then filter.1 else filter.2.
Definition filter_blocks (filter : Z * Z) (id : Z) : bool :=
  (id <? 128) && (Z.land (filter_word filter id) (Z.shiftl 1 (id mod 64)) =? 0).

Definition dispatch (syscall_id arg0 arg1 arg2 arg3 arg4 arg5 : Z) : M Z :=
  filter ← gets (current_syscall_filter cpu);
  if filter_blocks filter syscall_id then mret (-1)
  else
    caps ← gets (current_caps cpu);
    match select syscall_id (arms arg0 arg1 arg2 arg3 arg4 arg5) with
    | Some (Some cap, h) => if Z.land caps cap =? 0 then mret (-13) else h
    | Some (None, h) => h
    | None => mret (-1)
    end.

(** ** The exception path (exceptions.rs) *)

(** Registers of the trap frame at [sp]. *)
Definition tf_reg (sp i : Z) : M Z := gets (fun k => kld 8 (ram (mach k)) (sp + TF_regs + 8 * i)).
Definition tf_get (sp off : Z) : M Z := gets (fun k => kld 8 (ram (mach k)) (sp + off)).
Definition tf_set (sp off v : Z) : M unit := modk (fun k => with_ram (kst 8 (ram (mach k)) (sp + off) v) k).

Definition deliver_signal (sp : Z) : M unit :=
  spsr ← tf_get sp TF_spsr;
  if Z.land spsr 0xF =? 0 then
    r ← withk (pop_pending_signal cpu);
    match r with
    | None => mret tt
    | Some signum =>
        handler ← gets (current_signal_handler cpu);
        if handler =? 0 then mret tt
        else
          elr ← tf_get sp TF_elr;
          _ ← tf_set sp (TF_regs + 8 * 30) elr;
          _ ← tf_set sp TF_regs signum;
          tf_set sp TF_elr handler
    end
  else mret tt.

(** [sync_handler] on an SVC ([ec = 0x15]): the stack pointer to restore from. *)
Definition svc_handler (sp : Z) : M Z :=
  syscall_num ← tf_reg sp 8;
  arg0 ← tf_reg sp 0; arg1 ← tf_reg sp 1; arg2 ← tf_reg sp 2;
  arg3 ← tf_reg sp 3; arg4 ← tf_reg sp 4; arg5 ← tf_reg sp 5;
  ret ← dispatch syscall_num arg0 arg1 arg2 arg3 arg4 arg5;
  _ ← tf_set sp TF_regs (as_u64 ret);
  _ ← deliver_signal sp;
  liftk (fun k => '(sp', k', _) ← schedule_next cpu sp k; Done (sp', k')).

(** [sync_handler] on an EL0 abort ([ec = 0x20] or [0x24]). *)
Definition abort_handler (sp : Z) : M Z :=
  _ ← modk (exit_task cpu (-11));
  liftk (fun k => '(sp', k', _) ← schedule_next cpu sp k; Done (sp', k')).

End Handlers.
