(* ===== verification/SyscallProofs.v ===== *)
(** * Properties of the system call layer

    The gates of [dispatch], the confinement of capabilities over whole runs of
    system calls, the delivery of messages with the true sender, and anonymous
    mappings. *)

From stdpp Require Import base numbers list gmap strings.
From Stdlib Require Import ZArith Lia.
From S2P Require Import Prelude Machine PageAlloc Vmm VmmProofs Ipc Task Sched SchedInv SchedProps.
From S2P Require Import SchedComm SpawnProofs Heap Elf Syscall.

(** ** Gates *)

(** The capability each gated number needs, by group. *)
Definition gated : list (Z * Z) :=
  ((fun n => (n, CAP_SEND)) <$> [SYS_SEND; SYS_KILL]) ++
  ((fun n => (n, CAP_RECV)) <$> [SYS_RECV; SYS_TRY_RECV]) ++
  ((fun n => (n, CAP_BLK)) <$> [SYS_BLK_READ; SYS_BLK_WRITE; SYS_CONFIG_SET; SYS_ATOMIC_WRITE; SYS_UNLINK; SYS_RENAME]) ++
  ((fun n => (n, CAP_AI)) <$> [SYS_AI_CALL]) ++
  ((fun n => (n, CAP_LOG)) <$> [SYS_LOG; SYS_LIST_TASKS; 99; 100]) ++
  ((fun n => (n, CAP_MEM)) <$> [SYS_MALLOC; SYS_FREE; SYS_REALLOC; SYS_ALIGNED_ALLOC; SYS_EXEC; SYS_WASM_LOAD;
                      SYS_MMAP; SYS_MUNMAP; SYS_WASM_EXEC; SYS_CLONE]) ++
  ((fun n => (n, CAP_NET)) <$> [SYS_TCP_CONNECT; SYS_TCP_LISTEN; SYS_TCP_ACCEPT; SYS_TCP_WRITE; SYS_TCP_READ;
                      SYS_TCP_WAIT_READABLE; SYS_TCP_CLOSE]) ++
  ((fun n => (n, CAP_ALL)) <$> [SYS_CAP_GRANT; SYS_CAP_REVOKE; SYS_FILTER_SET]).

Section Gates.
Context {H : Type} `{!GlobalAlloc H} `{!Services H}.

(** What the dispatcher does with an arm once the allowlist has passed. *)
Lemma dispatch_eq cpu id a0 a1 a2 a3 a4 a5 (s : sys H) :
  dispatch cpu id a0 a1 a2 a3 a4 a5 s =
  if filter_blocks (current_syscall_filter cpu (sk s)) id then Done (-1, s)
  else match select id (arms cpu a0 a1 a2 a3 a4 a5) with
       | Some (Some cap, h) => if Z.land (current_caps cpu (sk s)) cap =? 0 then Done (-13, s) else h s
       | Some (None, h) => h s
       | None => Done (-1, s)
       end.
Proof.
  unfold dispatch, gets, mbind, K_bind, mret, K_ret. destruct (filter_blocks _ _); [done|].
  destruct (select _ _) as [[[cap|] h]|]; [|done..]. by destruct (_ =? 0).
Qed.

Lemma gated_select cpu id cap a0 a1 a2 a3 a4 a5 :
  (id, cap) ∈ gated -> exists h, select id (@arms H _ _ cpu a0 a1 a2 a3 a4 a5) = Some (Some cap, h).
Proof.
  intros Hin. unfold gated in Hin. cbn [fmap list_fmap app] in Hin.
  repeat (apply elem_of_cons in Hin as [[= -> ->]|Hin]; [eexists; reflexivity|]).
  by apply elem_of_nil in Hin.
Qed.

End Gates.

(** ** Confinement of capabilities *)

(** Identity and capabilities of the task in each slot. *)
Definition cap_of (t : Task) : Z * Z := (tid t, capabilities t).
Definition cap_view (k : kernel) : list (option (Z * Z)) := option_map cap_of <$> TASKS k.

(** From [k] to [k'] every capability bit of a task was in [C] or was already
    held by that same task. *)
Definition confined (C : Z) (k k' : kernel) : Prop :=
  forall i t c n, cap_view k' !! i = Some (Some (t, c)) -> Z.testbit c n = true ->
    Z.testbit C n = true \/ exists c0, cap_view k !! i = Some (Some (t, c0)) /\ Z.testbit c0 n = true.

Lemma confined_same C k k' : cap_view k' = cap_view k -> confined C k k'.
Proof. intros E i t c n Hi Hn. right. exists c. by rewrite <- E. Qed.

Lemma confined_trans C k k1 k2 : confined C k k1 -> confined C k1 k2 -> confined C k k2.
Proof.
  intros H1 H2 i t c n Hi Hn. destruct (H2 i t c n Hi Hn) as [?|(c1 & Hi1 & Hn1)]; [by left|].
  by eapply H1.
Qed.

(** Replacing the task in slot [i]. *)
Lemma cap_view_put k i o : cap_view (put_task i o k) = <[Z.to_nat i := option_map cap_of o]> (cap_view k).
Proof. unfold cap_view, put_task. cbn [TASKS with_tasks]. by rewrite list_fmap_insert. Qed.

Lemma cap_view_put_same k i t t' : task_at k i = Some t -> cap_of t' = cap_of t ->
  cap_view (put_task i (Some t') k) = cap_view k.
Proof.
  intros Ht%task_at_some E. rewrite cap_view_put. cbn [option_map]. rewrite E.
  apply list_insert_id. unfold cap_view. by rewrite list_lookup_fmap, Ht.
Qed.

Lemma confined_put C k i o : (forall t n, o = Some t -> Z.testbit (capabilities t) n = true ->
    Z.testbit C n = true \/
    exists t0, task_at k i = Some t0 /\ tid t0 = tid t /\ Z.testbit (capabilities t0) n = true) ->
  confined C k (put_task i o k).
Proof.
  intros Ho j t c n Hj Hn. rewrite cap_view_put in Hj.
  destruct (decide (j = Z.to_nat i)) as [->|Hne].
  - apply list_lookup_insert_Some in Hj as [(_ & E & _)|[? _]]; [|done].
    destruct o as [x|]; [|done]. injection E as <- <-. destruct (Ho x n eq_refl Hn) as [?|(t0 & Ht & Hid & Hb)]; [by left|].
    right. exists (capabilities t0). apply task_at_some in Ht. unfold cap_view. rewrite list_lookup_fmap, Ht.
    cbn. unfold cap_of. by rewrite Hid.
  - rewrite list_lookup_insert_ne in Hj by done. right. by exists c.
Qed.

Lemma cap_view_tasks k k' : TASKS k' = TASKS k -> cap_view k' = cap_view k.
Proof. unfold cap_view. by intros ->. Qed.

Lemma find_task_at_slot k t i x : find_task k t = Some (i, x) -> task_at k i = Some x /\ tid x = t.
Proof. intros E. apply find_task_some in E as (_ & Ht & Hid). by rewrite task_at_some. Qed.

Lemma current_task_at k cpu i t : current_task k cpu = Some (i, t) -> task_at k i = Some t.
Proof.
  unfold current_task. destruct (_ <? _); [|done]. destruct (task_at _ _) eqn:E; [|done].
  by intros [= <- <-].
Qed.

Lemma cap_view_update_task k t f : (forall x, cap_of (f x) = cap_of x) ->
  cap_view (update_task t f k).2 = cap_view k.
Proof.
  intros Hf. unfold update_task. destruct (find_task k t) as [[i x]|] eqn:E; [|done].
  apply find_task_at_slot in E as [Hx _]. by eapply cap_view_put_same.
Qed.

Lemma cap_view_update_current k cpu f : (forall x, cap_of (f x) = cap_of x) ->
  cap_view (update_current cpu f k) = cap_view k.
Proof.
  intros Hf. unfold update_current. destruct (current_task k cpu) as [[i x]|] eqn:E; [|done].
  apply current_task_at in E. by eapply cap_view_put_same.
Qed.

Lemma cap_view_update_slot k i f : (forall x, cap_of (f x) = cap_of x) ->
  cap_view (update_slot i f k) = cap_view k.
Proof.
  intros Hf. unfold update_slot. destruct (task_at k i) as [x|] eqn:E; [|done].
  by eapply cap_view_put_same.
Qed.

Lemma cap_wake x : cap_of (wake x) = cap_of x.
Proof. unfold wake. by destruct (state_is _ _). Qed.

(** *** Scheduler operations *)

Lemma cap_view_send k target msg r k' : send_message target msg k = Done (r, k') -> cap_view k' = cap_view k.
Proof.
  unfold send_message. destruct (find_task k target) as [[i t]|] eqn:E; [|by intros [= _ <-]].
  apply find_task_at_slot in E as [Ht _]. destruct (fifo_push _ _) as [[[|] mb]|]; [..|done];
    cbn [mbind outcome_bind]; intros [= _ <-]; eapply cap_view_put_same; try done. by rewrite cap_wake.
Qed.

Lemma cap_view_recv k cpu r k' : recv_message cpu k = Done (r, k') -> cap_view k' = cap_view k.
Proof.
  unfold recv_message. destruct (current_task k cpu) as [[i t]|] eqn:E; [|by intros [= _ <-]].
  apply current_task_at in E. destruct (fifo_pop _) as [[[|] mb]|]; [..|done];
    cbn [mbind outcome_bind]; intros [= _ <-]; by eapply cap_view_put_same.
Qed.

Lemma cap_view_try_recv k cpu r k' : try_recv_message cpu k = Done (r, k') -> cap_view k' = cap_view k.
Proof.
  unfold try_recv_message. destruct (current_task k cpu) as [[i t]|] eqn:E; [|by intros [= _ <-]].
  apply current_task_at in E. destruct (fifo_pop _) as [[? mb]|]; [|done].
  cbn [mbind outcome_bind]. intros [= _ <-]. by eapply cap_view_put_same.
Qed.

Lemma cap_view_wake_waiters k t : cap_view (with_tasks (wake_waiter t <$> TASKS k) k) = cap_view k.
Proof.
  unfold cap_view. cbn [TASKS with_tasks]. rewrite <- list_fmap_compose. apply list_fmap_ext.
  intros _ [x|] _; [|done]. cbn. by destruct (bool_decide _).
Qed.

Lemma cap_view_exit k cpu code : cap_view (exit_task cpu code k) = cap_view k.
Proof.
  unfold exit_task. set (k1 := update_current _ _ _).
  transitivity (cap_view (with_tasks (wake_waiter (current_tid cpu k) <$> TASKS k1) k1)); [done|].
  rewrite cap_view_wake_waiters. by apply cap_view_update_current.
Qed.

Lemma cap_view_force_exit k t code : cap_view (force_exit t code k).2 = cap_view k.
Proof.
  unfold force_exit. destruct (find_task k t) as [[i x]|] eqn:E; [|done]. cbn [snd].
  rewrite cap_view_wake_waiters. apply find_task_at_slot in E as [Hx _]. by eapply cap_view_put_same.
Qed.

Lemma confined_wait C k cpu target r k' : wait_for_tid cpu target k = Done (r, k') -> confined C k k'.
Proof.
  unfold wait_for_tid. destruct (find_task k target) as [[i t]|] eqn:E; [|by intros [= _ <-]; apply confined_same].
  destruct (state_is Dead t).
  - assert (Hc : confined C k (put_task i None k)) by (apply confined_put; intros ? ? [=]).
    destruct (_ && _); [|by intros [= _ <-]].
    destruct (release_pages _ _ _) as [p|]; [|done]. cbn [mbind outcome_bind]. intros [= _ <-].
    eapply confined_trans; [exact Hc|]. by apply confined_same.
  - intros [= _ <-]. apply confined_same. by apply cap_view_update_current.
Qed.

Lemma cap_view_pop_signal k cpu : cap_view (pop_pending_signal cpu k).2 = cap_view k.
Proof.
  unfold pop_pending_signal. destruct (current_task k cpu) as [[i x]|] eqn:E; [|done].
  apply current_task_at in E. case_match; [done|]. by eapply cap_view_put_same.
Qed.

Lemma cap_view_send_signal k t sig : cap_view (send_signal t sig k).2 = cap_view k.
Proof.
  unfold send_signal. destruct (_ <=? _); [done|]. apply cap_view_update_task. intros x. by rewrite cap_wake.
Qed.

Lemma cap_view_sigmask k cpu v : cap_view (swap_signal_mask cpu v k).2 = cap_view k.
Proof.
  unfold swap_signal_mask. destruct (current_task k cpu) as [[i x]|] eqn:E; [|done].
  apply current_task_at in E. by eapply cap_view_put_same.
Qed.

Lemma cap_view_schedule k cpu sp0 sp1 k' ev : schedule_next cpu sp0 k = Done (sp1, k', ev) ->
  cap_view k' = cap_view k.
Proof.
  unfold schedule_next. destruct (negb (ACTIVE k)); [by intros [= _ <- _]|].
  set (k1 := with_ticks _ _ k). destruct (_ =? NO_TASK); [by intros [= _ <- _]|].
  set (slot := cur_slot _ _). destruct (arr_get (TASKS k1) slot) as [cur|] eqn:Ec; [|done].
  cbn [mbind outcome_bind]. set (k2 := count_idle cur k1).
  assert (H2 : TASKS k2 = TASKS k) by (unfold k2, count_idle; by destruct cur as [t|]; [destruct (_ =? 0)|]).
  destruct (charge_current slot sp0 cur k2) as [[k3 q] s] eqn:E3.
  assert (H3 : cap_view k3 = cap_view k).
  { rewrite <- (cap_view_tasks k k2) by done. destruct cur as [t|]; [|by injection E3 as <- _ _].
    unfold charge_current in E3. destruct (charge_tick sp0 t) as [[t' q'] s'] eqn:E4.
    injection E3 as <- _ _. apply arr_get_inv in Ec as (_ & Ec).
    eapply cap_view_put_same; [apply task_at_some; rewrite H2; exact Ec|].
    unfold charge_tick in E4. destruct (1 <? _); [|destruct (state_is _ _)]; by injection E4 as <- _ _. }
  destruct s; [by intros [= _ <- _]|]. destruct (pick_next k3 _ slot) as [[idx|]|]; [..|done];
    cbn [mbind outcome_bind].
  - set (k4 := if q then _ else k3).
    assert (H4 : cap_view k4 = cap_view k) by (unfold k4; destruct q; [by rewrite cap_view_update_slot|done]).
    clearbody k4. unfold switch_to. set (k5 := with_current _ k4).
    destruct (task_at k5 idx) as [next|] eqn:En; [|intros [= _ <- _]; by rewrite <- H4].
    set (next' := set_ticks_remaining _ _). unfold switch_ttbr0. destruct (_ && _); intros [= _ <- _].
    all: rewrite <- H4; transitivity (cap_view (put_task idx (Some next') k5)); [done|];
      by rewrite (cap_view_put_same k5 idx next).
  - intros [= _ <- _]. by rewrite cap_view_update_slot.
Qed.

(** *** Task creation *)

Lemma confined_install C name entry ks usp caps tb a b c d k :
  (forall n, Z.testbit caps n = true -> Z.testbit C n = true) ->
  confined C k (install_user name entry ks usp caps tb a b c d k).2.
Proof.
  intros Hc. unfold install_user. destruct (free_slot k) as [slot|]; [|by apply confined_same].
  destruct (Task_new_user _ _ _ _ _ _ _ _ _ _ _ _ _) as [t m] eqn:Et. injection Et as Et _.
  cbn [snd]. eapply confined_trans; [|by apply confined_same].
  apply (confined_put C k slot (Some t)). intros ? n [= <-] Hn. left. apply Hc. by rewrite <- Et in Hn.
Qed.

Lemma confined_spawn_user C name entry caps segs k r k' :
  (forall n, Z.testbit caps n = true -> Z.testbit C n = true) ->
  spawn_user_entry_with_segs name entry caps segs k = Done (r, k') -> confined C k k'.
Proof.
  intros Hc. unfold spawn_user_entry_with_segs.
  destruct (alloc_pages (mach k) _) as [[[ks|] m1]|]; cbn [mbind outcome_bind];
    [|by intros [= _ <-]; apply confined_same|done].
  destruct (alloc_pages _ _) as [[[us|] m2]|]; cbn [mbind outcome_bind];
    [|by intros [= _ <-]; apply confined_same|done].
  destruct (create_process_table _ _) as [[tb m3]|]; cbn [mbind outcome_bind]; [|done].
  destruct (va_range segs) as [vb vt]. set (k3 := with_mach m3 _). intros [= E].
  apply (confined_trans C k k3); [by apply confined_same|].
  replace k' with (r, k').2 by done. rewrite <- E. by apply confined_install.
Qed.

Lemma confined_spawn_thread C name entry usp caps tb k r k' :
  (forall n, Z.testbit caps n = true -> Z.testbit C n = true) ->
  spawn_user_thread name entry usp caps tb k = Done (r, k') -> confined C k k'.
Proof.
  intros Hc. unfold spawn_user_thread.
  destruct (alloc_pages (mach k) _) as [[[ks|] m1]|]; cbn [mbind outcome_bind];
    [|by intros [= _ <-]; apply confined_same|done].
  set (k1 := with_mach m1 _). intros [= E]. apply (confined_trans C k k1); [by apply confined_same|].
  replace k' with (r, k').2 by done. rewrite <- E. by apply confined_install.
Qed.

Lemma confined_spawn_elf C name b caps rand k r k' :
  (forall n, Z.testbit caps n = true -> Z.testbit C n = true) ->
  spawn_elf name b caps rand k = Done (r, k') -> confined C k k'.
Proof.
  intros Hc. unfold spawn_elf.
  destruct (check_header _ _) as [[e|]|]; cbn [mbind outcome_bind];
    [by intros [= _ <-]; apply confined_same| |done].
  destruct (u16le _ _ 0x10) as [e_type|]; cbn [mbind outcome_bind]; [|done].
  destruct (u64le _ _ 0x18) as [e_entry|]; cbn [mbind outcome_bind]; [|done].
  destruct (u64le _ _ 0x20) as [e_phoff|]; cbn [mbind outcome_bind]; [|done].
  destruct (u16le _ _ 0x36) as [e_phentsize|]; cbn [mbind outcome_bind]; [|done].
  destruct (u16le _ _ 0x38) as [e_phnum|]; cbn [mbind outcome_bind]; [|done].
  destruct (if e_type =? ET_DYN then _ else Done 0) as [off|]; cbn [mbind outcome_bind]; [|done].
  destruct (spawn_segments _ _ _ _ _ _) as [[segs r']|]; cbn [mbind outcome_bind]; [|done].
  set (k1 := with_mach _ k). assert (H1 : confined C k k1) by by apply confined_same.
  destruct segs as [segs|e]; [|by intros [= _ <-]]. intros E.
  eapply confined_trans; [exact H1|]. by eapply confined_spawn_user.
Qed.

Lemma confined_set_caps C k t c c0 : get_task_caps t k = Some c0 ->
  (forall n, Z.testbit c n = true -> Z.testbit C n = true \/ Z.testbit c0 n = true) ->
  confined C k (set_task_caps t c k).2.
Proof.
  unfold get_task_caps, set_task_caps, update_task.
  destruct (find_task k t) as [[i x]|] eqn:E; [|done]. intros [= <-] Hc. cbn [snd].
  apply find_task_at_slot in E as [Hx _]. apply confined_put. intros ? n [= <-] Hn.
  destruct (Hc n Hn) as [?|?]; [by left|]. right. by exists x.
Qed.

(** *** Handlers *)

Section Confinement.
Context {H : Type} `{!GlobalAlloc H} `{!Services H}.

(** The subsystems outside the model create no task and never write a
    capability word. *)
Definition services_keep_caps : Prop :=
  forall A (c : svc A) (s : sys H) a s', serve c s = Done (a, s') -> cap_view (sk s') = cap_view (sk s).

(** [m] run from [s] is confined to [C]. *)
Definition ksafe {A} (C : Z) (s : sys H) (m : K H A) : Prop :=
  forall a s', m s = Done (a, s') -> confined C (sk s) (sk s').

Lemma ksafe_ret {A} C s (a : A) : ksafe C s (mret a).
Proof. intros ? ? [= _ <-]. by apply confined_same. Qed.

Lemma ksafe_panic {A} C s : ksafe C s (panic : K H A).
Proof. by intros ? ?. Qed.

Lemma ksafe_bind {A B} C s (m : K H A) (f : A -> K H B) :
  ksafe C s m -> (forall a s', ksafe C s' (f a)) -> ksafe C s (m ≫= f).
Proof.
  intros Hm Hf b s'. unfold mbind, K_bind. destruct (m s) as [[a s1]|] eqn:E; [|done]. intros E'.
  eapply confined_trans; [by eapply Hm|by eapply Hf].
Qed.

Lemma ksafe_gets {A} C s (f : kernel -> A) : ksafe C s (gets f).
Proof. intros ? ? [= _ <-]. by apply confined_same. Qed.

Lemma ksafe_gets_bind {A B} C s (f : kernel -> A) (g : A -> K H B) :
  ksafe C s (g (f (sk s))) -> ksafe C s (gets f ≫= g).
Proof. done. Qed.

Lemma ksafe_withk {A} C s (f : kernel -> A * kernel) :
  confined C (sk s) (f (sk s)).2 -> ksafe C s (withk f).
Proof. intros Hf a s'. unfold withk. destruct (f (sk s)) as [x k]. by intros [= _ <-]. Qed.

Lemma ksafe_liftk {A} C s (f : kernel -> outcome (A * kernel)) :
  (forall a k, f (sk s) = Done (a, k) -> confined C (sk s) k) -> ksafe C s (liftk f).
Proof.
  intros Hf a s'. unfold liftk. destruct (f (sk s)) as [[x k]|]; [|done]. intros [= _ <-]. by eapply Hf.
Qed.

Lemma ksafe_modk C s (f : kernel -> kernel) : confined C (sk s) (f (sk s)) -> ksafe C s (modk f).
Proof. intros Hf. by apply ksafe_withk. Qed.

Lemma ksafe_withheap {A} C s (f : heap -> A * heap) : ksafe C s (withheap f).
Proof. intros a s'. unfold withheap. destruct (f _). intros [= _ <-]. by apply confined_same. Qed.

Lemma ksafe_store C s p l : ksafe C s (store_at p l).
Proof. apply ksafe_modk. by apply confined_same. Qed.

Lemma ksafe_bytes C s p n : ksafe C s (bytes_at p n).
Proof. apply ksafe_gets. Qed.

Lemma ksafe_map cpu C s pa size : ksafe C s (map_in_caller cpu pa size).
Proof.
  apply ksafe_gets_bind. destruct (_ =? 0); [apply ksafe_ret|]. apply ksafe_liftk. intros a k.
  destruct (map_user_rw _ _ _ _) as [m|]; [|done]. cbn. intros [= _ <-]. by apply confined_same.
Qed.

Lemma ksafe_same_lift {A} C s (f : kernel -> outcome (A * kernel)) :
  (forall k a k', f k = Done (a, k') -> cap_view k' = cap_view k) -> ksafe C s (liftk f).
Proof. intros Hf. apply ksafe_liftk. intros a k E. by eapply confined_same, Hf. Qed.

Lemma ksafe_same_with {A} C s (f : kernel -> A * kernel) :
  (forall k, cap_view (f k).2 = cap_view k) -> ksafe C s (withk f).
Proof. intros Hf. by apply ksafe_withk, confined_same. Qed.

Lemma ksafe_same_mod C s (f : kernel -> kernel) :
  (forall k, cap_view (f k) = cap_view k) -> ksafe C s (modk f).
Proof. intros Hf. by apply ksafe_modk, confined_same. Qed.

Context (Hserve : services_keep_caps).

Lemma ksafe_serve {A} C s (c : svc A) : ksafe C s (serve c).
Proof. intros a s' E. by eapply confined_same, Hserve. Qed.

(** Structural steps of a confinement proof. *)
Ltac ksafe_step :=
  match goal with
  | |- ksafe _ _ (mret _) => apply ksafe_ret
  | |- ksafe _ _ panic => apply ksafe_panic
  | |- ksafe _ _ (gets _) => apply ksafe_gets
  | |- ksafe _ _ (bytes_at _ _) => apply ksafe_bytes
  | |- ksafe _ _ (store_at _ _) => apply ksafe_store
  | |- ksafe _ _ (withheap _) => apply ksafe_withheap
  | |- ksafe _ _ (map_in_caller _ _ _) => apply ksafe_map
  | |- ksafe _ _ (serve _) => apply ksafe_serve
  | |- ksafe _ _ (utf8_or_empty _ _) => unfold utf8_or_empty
  | |- ksafe _ _ (store_u32 _ _) => unfold store_u32
  | |- ksafe _ _ (_ ≫= _) => apply ksafe_bind; [|intros]
  | |- ksafe _ _ (match ?x with _ => _ end) => destruct x
  end.
Ltac ksafe_solve := repeat ksafe_step.

(** Handlers whose capability effect is visible in the code. *)

Lemma land_sub a c n : Z.testbit (Z.land a c) n = true -> Z.testbit c n = true.
Proof. rewrite Z.land_spec. by intros [_ ?]%andb_prop. Qed.

(** A read leaves the state alone. *)
Lemma ksafe_read_bind {A B} C s (m : K H A) (f : A -> K H B) :
  (forall a s', m s = Done (a, s') -> s' = s) -> (forall a, m s = Done (a, s) -> ksafe C s (f a)) ->
  ksafe C s (m ≫= f).
Proof.
  intros Hm Hf b s'. unfold mbind, K_bind. destruct (m s) as [[a s1]|] eqn:E; [|done].
  rewrite (Hm a s1 eq_refl) in *. by apply Hf.
Qed.

Lemma ksafe_exec cpu p l caps s : ksafe (current_caps cpu (sk s)) s (sys_exec cpu p l caps).
Proof.
  unfold sys_exec. destruct (_ || _); [apply ksafe_ret|].
  apply ksafe_read_bind; [by intros ? ? [= _ <-]|]. intros path _.
  destruct (bool_decide _); [apply ksafe_ret|]. apply ksafe_gets_bind. ksafe_solve.
  apply ksafe_liftk. intros r k. apply confined_spawn_elf. intros n. apply land_sub.
Qed.

Lemma ksafe_clone cpu e st caps s : ksafe (current_caps cpu (sk s)) s (sys_clone cpu e st caps).
Proof.
  unfold sys_clone. destruct (_ =? 0); [apply ksafe_ret|]. do 2 apply ksafe_gets_bind. ksafe_solve.
  apply ksafe_liftk. intros r k. apply confined_spawn_thread. intros n. apply land_sub.
Qed.

Lemma ksafe_grant cpu t bits s : ksafe (current_caps cpu (sk s)) s (sys_cap_grant cpu t bits).
Proof.
  unfold sys_cap_grant. do 2 apply ksafe_gets_bind.
  destruct (get_task_caps t (sk s)) as [c|] eqn:E; ksafe_solve.
  apply ksafe_withk. eapply confined_set_caps; [exact E|]. intros n.
  rewrite Z.lor_spec. intros [?|?%land_sub]%orb_prop; [by right|by left].
Qed.

Lemma ksafe_revoke C t bits s : ksafe C s (sys_cap_revoke t bits).
Proof.
  unfold sys_cap_revoke. apply ksafe_gets_bind.
  destruct (get_task_caps t (sk s)) as [c|] eqn:E; ksafe_solve.
  apply ksafe_withk. eapply confined_set_caps; [exact E|]. intros n.
  rewrite Z.land_spec. intros [? _]%andb_prop. by right.
Qed.

Lemma ksafe_wait cpu C t s : ksafe C s (liftk (wait_for_tid cpu t)).
Proof. apply ksafe_liftk. intros a k. apply confined_wait. Qed.

(** Memory operations under [liftk] leave the task pool alone. *)
Lemma ksafe_mmap cpu C a size prot s : ksafe C s (sys_mmap cpu a size prot).
Proof.
  unfold sys_mmap. ksafe_solve; [|by apply ksafe_same_mod]. apply ksafe_same_lift. intros k r k'.
  destruct (alloc_pages _ _) as [[r' m]|]; [|done]. cbn. by intros [= _ <-].
Qed.

Lemma ksafe_munmap cpu C va size s : ksafe C s (sys_munmap cpu va size).
Proof.
  unfold sys_munmap. ksafe_solve. apply ksafe_same_lift. intros k r k'.
  destruct (unmap_pages _ _ _ _) as [[m ev]|]; [|done]. cbn. by intros [= _ <-].
Qed.

Lemma ksafe_stats C p s : ksafe C s (sys_get_stats p).
Proof.
  unfold sys_get_stats. ksafe_solve. apply ksafe_same_lift. intros k r k'.
  destruct (free_pages _) as [n|]; [|done]. cbn. by intros [= _ <-].
Qed.

(** The other handlers, by unfolding. *)
Ltac head_of t := match t with ?f _ => head_of f | _ => t end.
Ltac ksafe_unfold := match goal with |- ksafe _ _ ?h => let f := head_of h in unfold f end.
Ltac ksafe_leaf := first
  [ apply ksafe_exec | apply ksafe_clone | apply ksafe_grant | apply ksafe_revoke | apply ksafe_wait
  | apply ksafe_mmap | apply ksafe_munmap | apply ksafe_stats
  | apply ksafe_same_lift; intros ? ? ?; first [apply cap_view_send | apply cap_view_recv | apply cap_view_try_recv]
  | apply ksafe_same_with; intros ?;
      first [apply cap_view_sigmask | apply cap_view_send_signal | apply cap_view_force_exit | apply cap_view_update_task; intros ?; done]
  | apply ksafe_same_mod; intros ?;
      first [apply cap_view_exit | apply cap_view_update_current; done | apply cap_view_update_task; done | done] ].

(** Every arm of the table is confined to the caller's capabilities. *)
Lemma arms_safe cpu a0 a1 a2 a3 a4 a5 s :
  Forall (fun a : arm => ksafe (current_caps cpu (sk s)) s a.2) (arms cpu a0 a1 a2 a3 a4 a5).
Proof.
  unfold arms. repeat (apply Forall_cons; split); [..|apply Forall_nil; done]; cbn [snd].
  all: repeat first [ksafe_step | ksafe_leaf | ksafe_unfold].
Qed.

Lemma select_elem id cap (h : K H Z) l : select id l = Some (cap, h) -> exists n, (n, cap, h) ∈ l.
Proof.
  induction l as [|[[n c] g] l IH]; [done|]. cbn. destruct (n =? id).
  - intros [= -> ->]. exists n. by left.
  - intros (n' & Hin)%IH. exists n'. by right.
Qed.

Lemma dispatch_safe cpu id a0 a1 a2 a3 a4 a5 s :
  ksafe (current_caps cpu (sk s)) s (dispatch cpu id a0 a1 a2 a3 a4 a5).
Proof.
  intros r s'. rewrite dispatch_eq. destruct (filter_blocks _ _); [by intros [= _ <-]; apply confined_same|].
  destruct (select _ _) as [[cap h]|] eqn:E; [|by intros [= _ <-]; apply confined_same].
  apply select_elem in E as [n Hin].
  pose proof (proj1 (Forall_forall _ _) (arms_safe cpu a0 a1 a2 a3 a4 a5 s) _ Hin) as Hs.
  destruct cap as [cap|]; [destruct (_ =? 0)|]; [by intros [= _ <-]; apply confined_same|apply Hs..].
Qed.

Lemma ksafe_deliver cpu C sp s : ksafe C s (deliver_signal cpu sp).
Proof.
  unfold deliver_signal, tf_get, tf_set. ksafe_solve.
  all: (apply ksafe_same_with; intros; apply cap_view_pop_signal) || (by apply ksafe_same_mod).
Qed.

Lemma ksafe_schedule cpu C sp s :
  ksafe C s (liftk (fun k => '(sp', k', _) ← schedule_next cpu sp k; Done (sp', k'))).
Proof.
  apply ksafe_same_lift. intros k a k'. destruct (schedule_next cpu sp k) as [[[sp' k1] ev]|] eqn:E; [|done].
  cbn. intros [= _ <-]. by eapply cap_view_schedule.
Qed.

Lemma svc_handler_safe cpu sp s : ksafe (current_caps cpu (sk s)) s (svc_handler cpu sp).
Proof.
  unfold svc_handler, tf_reg. do 7 apply ksafe_gets_bind. apply ksafe_bind; [apply dispatch_safe|].
  intros. unfold tf_set. apply ksafe_bind; [by apply ksafe_same_mod|]. intros.
  apply ksafe_bind; [apply ksafe_deliver|]. intros. apply ksafe_schedule.
Qed.

Lemma abort_handler_safe cpu C sp s : ksafe C s (abort_handler cpu sp).
Proof.
  unfold abort_handler. apply ksafe_bind; [|intros; apply ksafe_schedule].
  apply ksafe_same_mod. intros. apply cap_view_exit.
Qed.

(** Runs in which tasks without capability [n] make system calls and fault, and
    the timer preempts, on any core in any order. *)
Inductive urun (n : Z) : sys H -> sys H -> Prop :=
| urun_refl s : urun n s s
| urun_svc s cpu sp r s' s'' : Z.testbit (current_caps cpu (sk s)) n = false ->
    svc_handler cpu sp s = Done (r, s') -> urun n s' s'' -> urun n s s''
| urun_abort s cpu sp r s' s'' : abort_handler cpu sp s = Done (r, s') -> urun n s' s'' -> urun n s s''
| urun_tick s cpu sp sp' k' ev s'' : schedule_next cpu sp (sk s) = Done (sp', k', ev) ->
    urun n (mk_sys k' (sh s)) s'' -> urun n s s''.

Definition held (k : kernel) (n : Z) (i : nat) (t : Z) : Prop :=
  exists c, cap_view k !! i = Some (Some (t, c)) /\ Z.testbit c n = true.

Lemma confined_held C k k' n i t : confined C k k' -> Z.testbit C n = false -> held k' n i t -> held k n i t.
Proof. intros Hc HC (c & Hi & Hn). destruct (Hc i t c n Hi Hn) as [?|?]; [congruence|done]. Qed.

Lemma urun_held n s s' i t : urun n s s' -> held (sk s') n i t -> held (sk s) n i t.
Proof.
  induction 1 as [|s cpu sp r s1 s2 Hn E _ IH|s cpu sp r s1 s2 E _ IH|s cpu sp sp' k' ev s2 E _ IH]; [done|..];
    intros Hh%IH.
  - by eapply confined_held; [eapply svc_handler_safe| |].
  - eapply (confined_held 0); [by eapply abort_handler_safe|by rewrite Z.bits_0|done].
  - apply cap_view_schedule in E. unfold held in *. cbn [sk] in Hh. by rewrite E in Hh.
Qed.

Lemma held_task k n i t : held k n i t <->
  exists x, TASKS k !! i = Some (Some x) /\ tid x = t /\ Z.testbit (capabilities x) n = true.
Proof.
  unfold held, cap_view. split.
  - intros (c & Hi & Hn). rewrite list_lookup_fmap in Hi.
    destruct (TASKS k !! i) as [[x|]|]; [|done..]. injection Hi as <- <-. by exists x.
  - intros (x & Hi & <- & Hn). exists (capabilities x). by rewrite list_lookup_fmap, Hi.
Qed.

End Confinement.

(** ** Theorems *)

Section Claims.
Context {H : Type} `{!GlobalAlloc H} `{!Services H}.

(** C32: the gates of the dispatcher are complete.  For every number of the
    gated groups, a caller whose allowlist blocks the number or who holds none of
    the capability the group needs gets an error and changes nothing: the handler
    does not run. *)
Theorem dispatch_gates cpu id cap a0 a1 a2 a3 a4 a5 (s : sys H) :
  (id, cap) ∈ gated ->
  filter_blocks (current_syscall_filter cpu (sk s)) id = true \/ Z.land (current_caps cpu (sk s)) cap = 0 ->
  exists e, (e = -1 \/ e = -13) /\ dispatch cpu id a0 a1 a2 a3 a4 a5 s = Done (e, s).
Proof.
  intros Hin Hg. rewrite dispatch_eq. destruct (filter_blocks _ id) eqn:Ef; [exists (-1); by split; [left|]|].
  destruct Hg as [?|Hc]; [done|].
  destruct (gated_select cpu id cap a0 a1 a2 a3 a4 a5 Hin) as [h ->]. rewrite Hc.
  exists (-13). by split; [right|].
Qed.


End Claims.

(** ** A concrete system *)

(** No file system, no network, no display: every request fails at once. *)
Definition refuse {A : Type} (c : svc A) : A :=
  match c in svc A return A with
  | Read_file_alloc _ => (0, 0)
  | Open_write _ => None
  | Fat_write _ _ => tt
  | Fat_close _ => tt
  | Fat_rename _ _ => false
  | Fat_unlink _ => false
  | Fs_open _ _ => -1
  | Fs_read_fd _ _ _ => -1
  | Fs_write_fd _ _ _ => -1
  | Fs_close _ => -1
  | Fs_readdir _ _ _ _ => 0
  | Fs_create _ _ => -1
  | Fs_pipe _ => -1
  | Config_get _ _ _ _ => -1
  | Config_set _ _ _ _ => -1
  | Read_sectors _ _ => tt
  | Write_block _ _ => tt
  | Csprng_u32 => 4
  | Net_transmit _ => false
  | Net_receive _ => None
  | Net_get_ip => [0; 0; 0; 0]
  | Net_ping _ _ => -1
  | Dns_resolve _ => None
  | Parse_url _ => None
  | Http_get _ _ _ _ => TcpError
  | Tls_get _ _ _ => TcpError
  | Tls_post _ _ _ _ _ => TcpError
  | Tcp_connect _ _ => None
  | Tcp_wait_established _ _ => false
  | Tcp_listen _ => None
  | Tcp_accept _ _ => None
  | Tcp_write _ _ => 0
  | Tcp_read _ _ => 0
  | Tcp_wait_readable _ _ => false
  | Tcp_close _ => tt
  | Get_framebuffer => (0, 0, 0, 0)
  | Gpu_flush => tt
  | Input_poll _ _ => 0
  | Surf_create _ _ _ _ => u64_max
  | Surf_destroy _ => tt
  | Surf_buf_pa _ => 0
  | Surf_composite => tt
  | Surf_set_pos _ _ _ => tt
  | Surf_resize _ _ _ => false
  | Surf_raise _ => tt
  | Surf_lower _ => tt
  | Surf_mark_dirty _ => tt
  | Hda_speak _ => false
  | Rtc_read => 0
  | Uart_puts _ => tt
  | Console_gets _ _ => 0
  | Console_getc => 0
  | Wasm_validate _ => false
  | Wasm_load _ => None
  | Wasm_find_export _ _ => false
  | Wasm_call_export _ _ _ => WasmErr
  end.

#[export] Instance bare_services : Services Z := fun A c s => Done (refuse c, s).

Lemma bare_keep_caps : services_keep_caps (H := Z).
Proof. intros A c s a s' E. by injection E as _ <-. Qed.

(** Two cores in their idle tasks; task 1, on core 1, is cut down to SEND and
    RECV, and the frame at [0x100] asks to grant MEM (bit 5) to task 1. *)
Definition demo_frame : gmap Z Z :=
  st 8 (st 8 (st 8 ∅ (0x100 + 8 * 8) SYS_CAP_GRANT) 0x100 1) (0x100 + 8) CAP_MEM.

Definition demo_sys : sys Z :=
  mk_sys (set_task_caps 1 3 (secondary_idle_init 1
    (init (kernel0 (mk_vmm (mk_machine demo_pages demo_frame) 0 0 0 0 0 0))))).2 0.

Lemma dispatch_gates_witness :
  exists e, (e = -1 \/ e = -13) /\ dispatch 1 SYS_MMAP 0 4096 0 0 0 0 demo_sys = Done (e, demo_sys).
Proof.
  apply (dispatch_gates 1 SYS_MMAP CAP_MEM 0 4096 0 0 0 0 demo_sys).
  - unfold gated. cbn [fmap list_fmap app]. do 21 right. left.
  - right. vm_compute. reflexivity.
Defined.

(** The state after the call: the grant has been attenuated to nothing. *)
Definition demo_sys' : sys Z :=
  match svc_handler 1 0x100 demo_sys with Done (_, s) => s | Panic => demo_sys end.

Lemma demo_step : svc_handler 1 0x100 demo_sys = Done (0x100, demo_sys').
Proof. vm_compute. reflexivity. Qed.

Lemma demo_run : urun 5 demo_sys demo_sys'.
Proof.
  apply (urun_svc 5 demo_sys 1 0x100 0x100 demo_sys'); [vm_compute; reflexivity|exact demo_step|apply urun_refl].
Qed.

