(* ===== verification/SyscallMem.v ===== *)
(** * System calls: messages and anonymous memory

    What [SYS_SEND] delivers and what [SYS_MMAP] maps, from the dispatcher down to
    the mailbox and the page tables, and the calls whose gate is weaker than its
    documentation. *)

From stdpp Require Import base numbers list gmap strings.
From Stdlib Require Import ZArith Lia.
From S2P Require Import Prelude Machine PageAlloc Vmm VmmProofs VmmUnmap Ipc Task Sched SchedInv SchedProps.
From S2P Require Import SchedComm SpawnProofs Heap Elf Syscall SyscallProofs.

(** ** Memory under a table tree *)

(** A tree survives any change outside its pages that keeps them in use. *)
Lemma pt_wf_frame m T root m' :
  pt_wf m T root -> pages_wf (pg m') -> same_geometry (pg m) (pg m') ->
  (forall j, 0 <= j -> page_free (pg m) j = false -> page_free (pg m') j = false) ->
  (forall t n a, T !! t = Some n -> t <= a < t + 4096 -> ldb (ram m') a = ldb (ram m) a) ->
  pt_wf m' T root.
Proof.
  intros Hwf Hp (G1 & G2 & _) Hu Hag.
  assert (E : forall t n i, T !! t = Some n -> 0 <= i < 512 -> ent (ram m') t i = ent (ram m) t i).
  { intros t n i Ht Hi. apply ld_ext. intros a Ha. apply (Hag t n a Ht). simpl in Ha. lia. }
  destruct Hwf as [H1 H2 H3 H4 H5 H6]. constructor; [done|done|..].
  - intros t n Ht. destruct (H3 t n Ht) as (k & -> & Hk & Hf). exists k. unfold page_addr. rewrite G1, G2.
    split; [done|]. split; [done|]. apply Hu; [lia|done].
  - intros t i Ht Hi. rewrite (E t _ i Ht Hi). by apply H4.
  - intros t n i Ht Hi. rewrite (E t _ i Ht Hi). by apply H5.
  - intros t n i t' n' i' Ht Ht' Hi Hi'. rewrite (E t _ i Ht Hi), (E t' _ i' Ht' Hi'). by apply (H6 t n i t' n' i').
Qed.

(** A used page does not meet a run of pages that was free. *)
Lemma used_not_in_run p s count t a : free_run (BITMAP p) s count -> used_page p t ->
  t <= a < t + 4096 -> ~ page_addr p s <= a < page_addr p s + count * 4096.
Proof.
  intros Hrun (k & -> & Hk & Hf) Ha Hin. unfold page_addr, PAGE_SIZE in *.
  assert (s <= k < s + count) by lia. unfold page_free in Hf. by rewrite Hrun in Hf.
Qed.

Definition mmap_flags : Z := seg_flags (mk_seg 0 0 true false false).

Lemma map_user_rw_eq m root pa size : map_user_rw m root pa size = map_pages m root pa pa size mmap_flags.
Proof. reflexivity. Qed.

(** What a successful anonymous mapping at [pa] of [n] pages leaves behind. *)
Record mmapped (m : machine) (T : gmap Z nat) (root pa n : Z) (m' : machine) : Prop := {
  mm_fresh : exists s, pa = page_addr (pg m) s /\ 0 <= s /\ s + n <= NUM_PAGES (pg m) /\
    free_run (BITMAP (pg m)) s n /\ forall j, s <= j < s + n -> page_free (pg m') j = false;
  mm_tree : exists T', T ⊆ T' /\ pt_wf m' T' root;
  mm_zero : forall a, pa <= a < pa + n * 4096 -> ldb (ram m') a = 0;
  mm_walk : forall va, 0 <= va < 2 ^ 48 -> hw_walk (ram m') 3 root va =
    if in_pages pa n va then Some (O, leaf_desc (page_base va) mmap_flags (hw_walk (ram m) 3 root va))
    else hw_walk (ram m) 3 root va;
}.

(** Zeroing a fresh block keeps the tree and its translations. *)
Lemma pt_wf_alloc m T root n pa m1 r : pt_wf m T root -> alloc_spec m n (Some pa) m1 -> pages_wf (pg m1) ->
  r = zero_range pa (n * 4096) (ram m1) ->
  let m2 := mk_machine (pg m1) r in
  pt_wf m2 T root /\ (forall va, hw_walk (ram m2) 3 root va = hw_walk (ram m) 3 root va) /\
  (forall a, pa <= a < pa + n * 4096 -> ldb r a = 0).
Proof.
  intros Hwf (s & (Hs & Hle & Hrun & _) & -> & G1 & G2 & G3 & Hf & Hram) Hp -> m2.
  assert (Hag : forall t k a, T !! t = Some k -> t <= a < t + 4096 -> ldb (ram m2) a = ldb (ram m) a).
  { intros t k a Ht Ha. pose proof (used_not_in_run _ _ _ t a Hrun (pt_used _ _ _ Hwf t k Ht) Ha) as Hn.
    unfold m2. cbn [ram]. rewrite Hram, !ldb_zero_range, !decide_False; [done|exact Hn..]. }
  split; [|split].
  - apply (pt_wf_frame m); [done|done|done| |done].
    intros j Hj Hu. cbn [pg m2]. rewrite Hf, Hu by done. apply andb_false_r.
  - intros va. apply (hw_walk_frame m T root); [done|done|apply Hwf].
  - intros a Ha. by rewrite ldb_zero_range, decide_True.
Qed.

(** A block in use does not meet the tables of a tree whose new pages were free. *)
Lemma block_not_table m T T' n s a :
  (forall t k, T !! t = Some k -> used_page (pg m) t) -> free_run (BITMAP (pg m)) s n -> 0 <= s ->
  forall p1, same_geometry (pg m) p1 -> (forall j, s <= j < s + n -> page_free p1 j = false) ->
  new_tables p1 T T' -> page_addr (pg m) s <= a < page_addr (pg m) s + n * 4096 ->
  forall t k, T' !! t = Some k -> ~ t <= a < t + 4096.
Proof.
  intros Hused Hrun Hs p1 (G1 & G2 & _) Hu Hnew Ha t k Ht Hin.
  destruct (Hnew t k Ht) as [Hold|(j & Hj & Hr & Hf)].
  - by apply (used_not_in_run _ s n t a Hrun (Hused t k Hold)).
  - unfold page_addr, PAGE_SIZE in *. rewrite G1 in Hj. rewrite Hu in Hf by lia. done.
Qed.

(** ** [sys_mmap] *)

Section Calls.
Context {H : Type} `{!GlobalAlloc H} `{!Services H}.

Lemma mmap_pages_val size : 0 < size <= 2 ^ 40 -> (size +u 0xFFF) / 4096 = (size + 4095) / 4096 /\
  0 < (size + 4095) / 4096 <= 2 ^ 28 /\ ((size + 4095) / 4096 - 1) * 4096 < size <= (size + 4095) / 4096 * 4096.
Proof.
  intros Hs. rewrite as_u64_small by (unfold is_u64; lia).
  pose proof (Z.div_mod (size + 4095) 4096 ltac:(lia)).
  pose proof (Z.mod_pos_bound (size + 4095) 4096 ltac:(lia)). lia.
Qed.

(** Allocating, zeroing and mapping a block of [n] pages. *)
Lemma mmap_block m T root n pa m1 m3 T3 k :
  pt_wf m T root -> alloc_spec m n (Some pa) m1 -> pages_wf (pg m1) ->
  let m2 := mk_machine (pg m1) (zero_range pa (n * 4096) (ram m1)) in
  mapped_range k m2 T root pa pa n mmap_flags m3 T3 -> mmapped m T root pa n m3.
Proof.
  intros Hwf Hs Hp1 m2 Hr3.
  destruct (pt_wf_alloc m T root n pa m1 _ Hwf Hs Hp1 eq_refl) as (Hwf2 & Hwalk2 & Hzero). fold m2 in Hwf2, Hwalk2.
  destruct Hs as (i & (Hi & Hle & Hrun & _) & Epa & G1 & G2 & G3 & Hf & _).
  assert (Hu1 : forall j, i <= j < i + n -> page_free (pg m1) j = false).
  { intros j Hj. rewrite Hf by lia. rewrite (proj2 (Z.leb_le _ _)), (proj2 (Z.ltb_lt _ _)) by lia. done. }
  constructor.
  - exists i. repeat (split; [done|]). intros j Hj. apply (mr_used _ _ _ _ _ _ _ _ _ _ Hr3); [lia|]. by apply Hu1.
  - exists T3. split; apply Hr3.
  - intros a Ha. rewrite (mr_frame _ _ _ _ _ _ _ _ _ _ Hr3); [by apply Hzero|].
    rewrite Epa in Ha. eapply (block_not_table m T T3 n i a (pt_used _ _ _ Hwf) Hrun Hi (pg m1)); [done|done| |done].
    apply Hr3.
  - intros va Hva. rewrite (mr_walk _ _ _ _ _ _ _ _ _ _ Hr3 va Hva). unfold walk_after. rewrite Hwalk2.
    destruct (in_pages pa n va); [|done]. do 3 f_equal. lia.
Qed.

Lemma map_fresh_ok m T root n size pa m1 : pt_wf m T root -> 0 < n <= 2 ^ 28 -> (n - 1) * 4096 < size <= n * 4096 ->
  n = (size + 4095) / 4096 -> alloc_pages m n = Done (Some pa, m1) -> alloc_spec m n (Some pa) m1 ->
  pages_wf (pg m1) -> 4 * n <= nfree m ->
  is_pa pa /\ exists m3, mmapped m T root pa n m3 /\
    map_user_rw (mk_machine (pg m1) (zero_range pa (n * 4096) (ram m1))) root pa size = Done m3.
Proof.
  intros Hwf Hn Hsn En E1 Hs Hp1 Hfree.
  destruct (alloc_pages_nfree m n (pt_pages _ _ _ Hwf) ltac:(lia)) as (r & m1' & E1' & _ & Hnf).
  rewrite E1 in E1'. injection E1' as <- <-.
  pose proof (alloc_addr m n pa m1 (pt_pages _ _ _ Hwf) ltac:(lia) E1) as (Hpa0 & Hpale & Hpam).
  unfold PAGE_SIZE, MAX_RAM_END in *. split; [unfold is_pa; lia|].
  assert (Hpc : page_count pa size = n) by (unfold page_count; rewrite En; f_equal; lia).
  assert (Hpb : page_base pa = pa) by (unfold page_base; lia).
  set (m2 := mk_machine _ _).
  destruct (map_pages_ok m2 T root pa pa size mmap_flags) as (m3 & T3 & E & Hr3); try (done || lia).
  - by apply (pt_wf_alloc m T root n pa m1 _ Hwf Hs Hp1).
  - rewrite Hpc. change (nfree m2) with (nfree m1). lia.
  - rewrite Hpc, Hpb in Hr3. exists m3. split; [|by rewrite map_user_rw_eq]. by eapply mmap_block.
Qed.

Lemma as_i64_pa pa : is_pa pa -> as_i64 pa = pa.
Proof.
  intros Hp. unfold is_pa, as_i64, signed in *. rewrite wrap_small by lia. case_ifs; lia.
Qed.

Lemma sys_mmap_ok cpu hint size prot T (s : sys H) :
  let root := current_task_ttbr0 cpu (sk s) in
  let n := (size + 4095) / 4096 in
  root <> 0 -> pt_wf (mach (sk s)) T root -> 0 < size <= 2 ^ 40 -> 4 * n <= nfree (mach (sk s)) ->
  (sys_mmap cpu hint size prot s = Done (-12, s) /\
   forall j, 0 <= j -> j + n <= NUM_PAGES (pg (mach (sk s))) -> ~ free_run (BITMAP (pg (mach (sk s)))) j n) \/
  exists pa s', sys_mmap cpu hint size prot s = Done (pa, s') /\
    mmapped (mach (sk s)) T root pa n (mach (sk s')).
Proof.
  intros root n Hr Hwf Hsz Hfree. destruct (mmap_pages_val size Hsz) as (En & Hn & Hsn). fold n in Hn, Hsn, En.
  unfold sys_mmap. rewrite (proj2 (Z.eqb_neq size 0)) by lia. rewrite En.
  set (m := mach (sk s)) in *.
  destruct (alloc_pages_correct m n (pt_pages _ _ _ Hwf) ltac:(lia)) as (r & m1 & E1 & Hs & Hp1).
  unfold liftk, modk, withk, mbind, K_bind, mret, K_ret. fold m. rewrite E1. cbn [outcome_bind].
  destruct r as [pa|]; [right|left].
  2: { destruct Hs as [-> Hno]. split; [|done]. destruct s as [[? ? ? ? ? ? ? []] h]. reflexivity. }
  destruct (map_fresh_ok m T root n size pa m1) as (Hpa & m3 & Hmm & E3); try done.
  cbn [sk sh]. change (mach (with_mach m1 (sk s))) with m1.
  unfold kzero. rewrite to_dma_low, (as_u64_small (n * 4096)) by (done || (unfold is_u64; lia)).
  unfold map_in_caller, gets, mbind, K_bind, liftk. cbn [sk].
  change (current_task_ttbr0 cpu (with_ram _ _)) with root. rewrite (proj2 (Z.eqb_neq root 0)) by done.
  cbn [sk sh]. set (r := zero_range _ _ _) in *.
  change (mach (with_ram r (with_mach m1 (sk s)))) with (mk_machine (pg m1) r). rewrite E3. cbn [outcome_bind sk sh].
  exists pa. eexists. split; [rewrite as_i64_pa by done; reflexivity|]. exact Hmm.
Qed.

(** ** [sys_send] *)

(** Targets closed to a caller with capabilities [caps]. *)
Definition send_forbidden (caps target : Z) : bool :=
  negb (caps =? CAP_ALL) &&
  ((target =? 0) || ((target =? 1) && (Z.land caps CAP_AI =? 0)) || (Z.land caps CAP_SEND =? 0)).

Lemma send_allowed_eq caps target : Z.land caps CAP_SEND <> 0 ->
  negb (caps =? CAP_ALL) && negb (if target =? 0 then false
     else if target =? 1 then negb (Z.land caps CAP_AI =? 0) else negb (Z.land caps CAP_SEND =? 0))
  = send_forbidden caps target.
Proof.
  intros Hc. unfold send_forbidden. destruct (caps =? CAP_ALL); [done|]. rewrite (proj2 (Z.eqb_neq _ 0) Hc).
  destruct (target =? 0), (target =? 1), (Z.land caps CAP_AI =? 0); done.
Qed.

Lemma dispatch_send cpu target ptr a2 a3 a4 a5 (s : sys H) :
  filter_blocks (current_syscall_filter cpu (sk s)) SYS_SEND = false ->
  Z.land (current_caps cpu (sk s)) CAP_SEND <> 0 -> ptr <> 0 ->
  dispatch cpu SYS_SEND target ptr a2 a3 a4 a5 s =
  if send_forbidden (current_caps cpu (sk s)) target then Done (-13, s)
  else match send_message target (mk_msg (current_tid cpu (sk s))
               (drop 8 (load_bytes 40 (ram (mach (sk s))) (to_dma_addr ptr)))) (sk s) with
       | Done (Ok _, k) => Done (0, mk_sys k (sh s))
       | Done (Err _, k) => Done (-2, mk_sys k (sh s))
       | Panic => Panic
       end.
Proof.
  intros Hf Hc Hp. rewrite dispatch_eq, Hf. cbn [select arms]. rewrite Z.eqb_refl.
  rewrite (proj2 (Z.eqb_neq _ 0) Hc). unfold sys_send. rewrite (proj2 (Z.eqb_neq _ 0) Hp).
  unfold bytes_at, gets, mbind, K_bind, mret, K_ret. rewrite send_allowed_eq by done.
  destruct (send_forbidden _ _); [done|]. unfold liftk.
  change (data (msg_of_bytes ?l)) with (drop 8 l). change (Z.to_nat 40) with 40%nat.
  by destruct (send_message _ _ _) as [[[] k]|].
Qed.

(** ** Theorems *)

(** [SYS_SEND] delivers exactly one message with the true sender.  For a
    caller that passes the gate, the call is refused for a closed target (task 0,
    or the AI service without [CAP_AI]), reports a full mailbox without touching
    it, and otherwise appends to the target's queue the 32 payload bytes under
    the caller's own task id, whatever sender the caller wrote, and leaves the
    target runnable and every other slot unchanged. *)
Theorem sys_send_authentic cpu ptr a2 a3 a4 a5 (s : sys H) i t l :
  let caps := current_caps cpu (sk s) in
  let msg := mk_msg (current_tid cpu (sk s)) (drop 8 (load_bytes 40 (ram (mach (sk s))) (to_dma_addr ptr))) in
  let call := dispatch cpu SYS_SEND (tid t) ptr a2 a3 a4 a5 s in
  sched_wf (sk s) -> filter_blocks (current_syscall_filter cpu (sk s)) SYS_SEND = false ->
  Z.land caps CAP_SEND <> 0 -> ptr <> 0 -> 0 <= i < 16 -> task_at (sk s) i = Some t ->
  fifo_rep (mailbox t) l ->
  (send_forbidden caps (tid t) = true -> call = Done (-13, s)) /\
  (send_forbidden caps (tid t) = false -> length l = 8%nat -> call = Done (-2, s)) /\
  (send_forbidden caps (tid t) = false -> (length l < 8)%nat ->
   exists t', call = Done (0, mk_sys (put_task i (Some t') (sk s)) (sh s)) /\
     tid t' = tid t /\ fifo_rep (mailbox t') (l ++ [msg]) /\ state t' <> Blocked).
Proof.
  intros caps msg call Hwf Hf Hc Hp Hi Ht Hl. unfold call. rewrite dispatch_send by done.
  fold caps msg. split; [by intros ->|]. split; intros -> Hlen.
  - rewrite (send_message_full (sk s) i t l msg) by done. by destruct s.
  - destruct (send_message_room (sk s) i t l msg Hwf Hi Ht Hl Hlen) as (mb & -> & Hmb).
    eexists. split; [reflexivity|]. destruct (wake_same (set_mailbox mb t)) as [-> ->].
    split; [done|]. split; [done|]. unfold wake, state_is. case_bool_decide; done.
Qed.

(** [SYS_MMAP] returns fresh, zeroed, private memory.  Given the page-table
    budget, the call either reports ENOMEM, unchanged, because no run of that
    many free pages exists, or returns an address whose pages were free, are now
    in use and read as zero, and are mapped to themselves in the caller's table
    with the flags of EL0 read-write data; every other address of the caller
    translates as before.  The kernel's stores are taken to reach physical
    memory, as they do under a table that maps it. *)
Theorem sys_mmap_correct cpu hint size prot T (s : sys H) :
  let root := current_task_ttbr0 cpu (sk s) in
  let n := (size + 4095) / 4096 in
  root <> 0 -> pt_wf (mach (sk s)) T root -> 0 < size <= 2 ^ 40 -> 4 * n <= nfree (mach (sk s)) ->
  (sys_mmap cpu hint size prot s = Done (-12, s) /\
   forall j, 0 <= j -> j + n <= NUM_PAGES (pg (mach (sk s))) -> ~ free_run (BITMAP (pg (mach (sk s)))) j n) \/
  exists pa s', sys_mmap cpu hint size prot s = Done (pa, s') /\
    mmapped (mach (sk s)) T root pa n (mach (sk s')).
Proof. apply sys_mmap_ok. Qed.

(** the [CAP_ALL] gate of [SYS_CAP_REVOKE] is not what it documents: the test
    [caps & CAP_ALL == 0] lets any caller with a single capability through, which
    can then strip any task, the kernel's included, of any capabilities. *)
Theorem revoke_by_anyone cpu target bits a2 a3 a4 a5 (s : sys H) i x :
  filter_blocks (current_syscall_filter cpu (sk s)) SYS_CAP_REVOKE = false ->
  is_u64 (current_caps cpu (sk s)) -> current_caps cpu (sk s) <> 0 ->
  find_task (sk s) target = Some (i, x) ->
  dispatch cpu SYS_CAP_REVOKE target bits a2 a3 a4 a5 s =
  Done (0, mk_sys (put_task i (Some (set_capabilities (Z.land (capabilities x) (not64 bits)) x)) (sk s)) (sh s)).
Proof.
  intros Hf Hu Hc Hx. rewrite dispatch_eq, Hf.
  change (select SYS_CAP_REVOKE _) with (Some (Some CAP_ALL, sys_cap_revoke (H := H) target bits)).
  assert (E : Z.land (current_caps cpu (sk s)) CAP_ALL = current_caps cpu (sk s)).
  { unfold CAP_ALL, u64_max. rewrite land_ones_mod by lia. by apply Z.mod_small. }
  cbn match. rewrite E, (proj2 (Z.eqb_neq _ 0) Hc).
  unfold sys_cap_revoke, gets, withk, mbind, K_bind, mret, K_ret, get_task_caps, set_task_caps, update_task.
  rewrite Hx. cbn match. by rewrite Hx.
Qed.

(** ** Further divergences *)

(** [SYS_SET_PRIORITY] and [SYS_HTTPS_POST] are both 50 and the HTTPS arm comes
    first: [sys_set_priority] is unreachable. *)
Lemma set_priority_unreachable cpu a0 a1 a2 a3 a4 a5 :
  select SYS_SET_PRIORITY (arms (H := H) cpu a0 a1 a2 a3 a4 a5) =
  Some (None, sys_https_post a0 a1 a2 a3 a4 a5).
Proof. reflexivity. Qed.

(** [SYS_KREAD] needs no capability, and its destination is not checked to be a
    user address: any task copies any kernel memory anywhere. *)
Lemma kread_unrestricted cpu k_ptr u_ptr len a3 a4 a5 (s : sys H) :
  filter_blocks (current_syscall_filter cpu (sk s)) SYS_KREAD = false ->
  KERNEL_VA_OFFSET <= k_ptr -> u_ptr <> 0 -> 0 < len ->
  dispatch cpu SYS_KREAD k_ptr u_ptr len a3 a4 a5 s =
  Done (Z.min len 4096, mk_sys (with_ram (kmove (ram (mach (sk s))) k_ptr u_ptr (Z.min len 4096)) (sk s)) (sh s)).
Proof.
  intros Hf Hk Hu Hl. rewrite dispatch_eq, Hf.
  change (select SYS_KREAD _) with (Some (@None Z, sys_kread (H := H) k_ptr u_ptr len)).
  cbn match. unfold sys_kread. rewrite (proj2 (Z.ltb_ge _ _) Hk), !(proj2 (Z.eqb_neq _ 0)) by lia. reflexivity.
Qed.

End Calls.

(** A multi-byte character across byte 7 of the name panics in
    [sys_atomic_write]: the path of four two-byte characters. *)
Lemma atomic_write_panics : temp_path [47; 195; 169; 195; 169; 195; 169; 195; 169] = Panic.
Proof. reflexivity. Qed.

(** [SIGKILL] to a task that does not exist reports success. *)
Lemma kill_missing_ok : sys_kill (H := Z) 99 SIGKILL demo_sys = Done (0, demo_sys).
Proof. vm_compute. reflexivity. Qed.

(** ** Witnesses *)

Definition self_sys : sys Z := mk_sys (init (kernel0 (mk_vmm demo_machine 0 0 0 0 0 0))) 0.

Lemma sys_send_authentic_witness : exists t, task_at (sk self_sys) 0 = Some t /\
  exists t', dispatch 0 SYS_SEND (tid t) 64 0 0 0 0 self_sys = Done (0, mk_sys (put_task 0 (Some t') (sk self_sys)) 0) /\
    fifo_rep (mailbox t') ([] ++ [mk_msg 0 (replicate 32 0)]).
Proof.
  assert (Hwf : sched_wf (sk self_sys)) by (apply wf_init; exact demo_pages_wf).
  exists (idle_task (sk self_sys) 0 0). split; [reflexivity|].
  destruct (sys_send_authentic 0 64 0 0 0 0 self_sys 0 (idle_task (sk self_sys) 0 0) [] Hwf)
    as (_ & _ & Hs);
    [reflexivity|vm_compute; discriminate|lia|lia|reflexivity|apply (@fifo_new_spec Mailbox Message 8 _ mailbox_fifo)|].
  destruct (Hs eq_refl ltac:(simpl; lia)) as (t' & E & _ & Hq & _). exists t'. exact (conj E Hq).
Defined.

Lemma sys_mmap_correct_witness : exists (s : sys Z) T, let root := current_task_ttbr0 0 (sk s) in
  (sys_mmap 0 0 5000 0 s = Done (-12, s) \/
   exists pa s', sys_mmap 0 0 5000 0 s = Done (pa, s') /\ mmapped (mach (sk s)) T root pa 2 (mach (sk s'))).
Proof.
  destruct (fresh_root_wf demo_machine demo_pages_wf) as (root & m & E & Hwf & _ & Hn & _ & Hfp & _); [by vm_compute|].
  assert (Hn' : nfree m = 15) by (rewrite Hn; by vm_compute).
  exists (mk_sys (init (kernel0 (mk_vmm m 0 0 0 root 0 0))) 0), {[root := 3%nat]}.
  destruct (sys_mmap_correct 0 0 5000 0 {[root := 3%nat]} (mk_sys (init (kernel0 (mk_vmm m 0 0 0 root 0 0))) 0))
    as [[Hr _]|Hr]; [|exact Hwf|lia| |left; exact Hr|right; exact Hr].
  - change (root <> 0). destruct Hfp as (k & -> & Hk & _).
    change (0x41000000 + k * 4096 <> 0). lia.
  - change (4 * ((5000 + 4095) / 4096) <= nfree m). rewrite Hn'. vm_compute. discriminate.
Defined.

Lemma revoke_by_anyone_witness : exists x,
  dispatch 1 SYS_CAP_REVOKE 0 u64_max 0 0 0 0 demo_sys =
    Done (0, mk_sys (put_task 0 (Some (set_capabilities (Z.land (capabilities x) (not64 u64_max)) x)) (sk demo_sys)) 0).
Proof.
  assert (E : exists x, find_task (sk demo_sys) 0 = Some (0, x)) by (eexists; vm_compute; reflexivity).
  destruct E as [x Hx]. exists x.
  apply (revoke_by_anyone 1 0 u64_max 0 0 0 0 demo_sys 0 x);
    [vm_compute; reflexivity|vm_compute; split; [discriminate|reflexivity]|vm_compute; discriminate|exact Hx].
Defined.
