(* ===== verification/Vfs.v ===== *)
(** * The virtual file system (kernel/src/fs/mod.rs)

    One table of descriptors over three backends: the FAT32 driver, nodes with
    text generated at open time, and pipes.  The arguments that are pointers in the
    code are the bytes behind them, [None] for a null pointer; what is written
    through a pointer is returned. *)

From stdpp Require Import base numbers list gmap strings.
From Stdlib Require Import ZArith Lia Ascii.
From S2P Require Import Prelude Machine Sector Text PageAlloc Ipc Task Sched Syscall.
From S2P Require Fat.

(** ** Pipes *)

Definition PIPE_CAP : nat := 4096.
Definition MAX_PIPES : nat := 8.

Record PipeBuf := mk_pipe {
  pdata : list Z;
  read_pos : nat;
  write_pos : nat;
  pcount : nat;
  open_read : bool;
  open_write : bool;
}.

Definition pipe_new : PipeBuf := mk_pipe (replicate PIPE_CAP 0) 0 0 0 false false.

(** The loop of [read_bytes]: the bytes and the position after them. *)
Fixpoint ring_read (n : nat) (data : list Z) (pos : nat) : list Z * nat :=
  match n with
  | O => ([], pos)
  | S n' => let '(l, p) := ring_read n' data ((pos + 1) mod PIPE_CAP) in (nth pos data 0 :: l, p)
  end.

(** The loop of [write_bytes]. *)
Fixpoint ring_write (src data : list Z) (pos : nat) : list Z * nat :=
  match src with
  | [] => (data, pos)
  | b :: src' => ring_write src' (<[pos := b]> data) ((pos + 1) mod PIPE_CAP)
  end.

Definition read_bytes (len : nat) (p : PipeBuf) : list Z * PipeBuf :=
  let n := Nat.min len (pcount p) in
  let '(out, pos) := ring_read n (pdata p) (read_pos p) in
  (out, mk_pipe (pdata p) pos (write_pos p) (pcount p - n) (open_read p) (open_write p)).

Definition write_bytes (src : list Z) (p : PipeBuf) : nat * PipeBuf :=
  let space := (PIPE_CAP - pcount p)%nat in
  let n := Nat.min (length src) space in
  let '(data, pos) := ring_write (take n src) (pdata p) (write_pos p) in
  (n, mk_pipe data (read_pos p) pos (pcount p + n) (open_read p) (open_write p)).

(** [open_read] and [open_write] set, and the pipe emptied. *)
Definition pipe_opened (p : PipeBuf) : PipeBuf := mk_pipe (pdata p) 0 0 0 true true.
Definition pipe_flags (r w : bool) (p : PipeBuf) : PipeBuf :=
  mk_pipe (pdata p) (read_pos p) (write_pos p) (pcount p) r w.

(** ** Descriptors *)

Definition VFS_MAX_FD : nat := 16.

Inductive VfsFd :=
| Fat32 (fat_fd : nat)
| Inline (buf : list Z) (len pos : nat) (writable : bool)
| Pipe (id : nat) (write_end : bool).

Inductive Backend := BFat32 | BProc | BMem.

Record vfs (C : Type) := mk_vfs {
  VFS_FDS : list (option VfsFd);
  PIPES : list PipeBuf;
  fat : Fat.fatfs C;
}.
Arguments mk_vfs {C}.
Arguments VFS_FDS {C}.
Arguments PIPES {C}.
Arguments fat {C}.

Definition vfs0 {C} (c : C) : vfs C :=
  mk_vfs (replicate VFS_MAX_FD None) (replicate MAX_PIPES pipe_new) (Fat.fat0 c).

Definition route (path : list Z) : Backend :=
  if Fat.starts_with (lit "/proc") path then BProc
  else if Fat.starts_with (lit "/mem") path then BMem
  else BFat32.

(** ** Text *)

(** The 512-byte buffer of a node and the position in it. *)
Definition out : Type := list Z * nat.
Definition INLINE : nat := 512.
Definition out0 : out := (replicate INLINE 0, 0%nat).

Definition write_str (s : list Z) (o : out) : out :=
  let '(buf, pos) := o in
  let n := Nat.min (length s) (length buf - pos) in
  (splice pos (take n s) buf, (pos + n)%nat).

(** [if p < buf.len() { buf[p] = b; p += 1; }] *)
Definition write_byte (b : Z) (o : out) : out :=
  let '(buf, pos) := o in
  if (pos <? length buf)%nat then (<[pos := b]> buf, S pos) else o.

(** [while n > 0 && pos < buf.len()], the digits from the last on. *)
Fixpoint digits (room : nat) (n : Z) : list Z :=
  match room with
  | O => []
  | S room' => if n =? 0 then [] else 48 + n mod 10 :: digits room' (n / 10)
  end.

Definition write_dec (n : Z) (o : out) : out :=
  if n =? 0 then write_byte 48 o
  else
    let '(buf, pos) := o in
    let ds := digits (length buf - pos) n in
    (splice pos (reverse ds) buf, (pos + length ds)%nat).

Definition write_ip (ip : list Z) (o : out) : out :=
  snd (foldl (fun '(i, o) b =>
    let o := write_dec b o in
    (S i, if (i <? 3)%nat then write_str (lit ".") o else o)) (0%nat, o) ip).

(** A nibble as a hexadecimal digit. *)
Definition hex_digit (x : Z) : Z := if x <? 10 then 48 + x else 97 + x - 10.

(** The loop of [net/mac]. *)
Definition write_mac (mac : list Z) (o : out) : out :=
  snd (foldl (fun '(i, o) b =>
    let o := write_byte (hex_digit (Z.shiftr b 4)) o in
    let o := write_byte (hex_digit (Z.land b 0xF)) o in
    (S i, if (i <? 5)%nat then write_byte 58 o else o)) (0%nat, o) mac).

(** [(0..64u32).rev().step_by(4)]: 63, 59, ..., 3 *)
Definition cap_shifts : list Z := (fun k => 63 - 4 * Z.of_nat k) <$> seq 0 16.
Definition cap_digits (caps : Z) : list Z := (fun s => hex_digit (Z.land (Z.shiftr caps s) 0xF)) <$> cap_shifts.

(** One line of [tasks]. *)
Definition write_task (r : TaskRecord) (o : out) : out :=
  let o := write_str (lit "    ") (write_dec (rec_tid r) o) in
  let nlen := default 16%nat (fst <$> list_find (fun b => b = 0) (rec_name r)) in
  let o := write_str (take nlen (rec_name r)) o in
  let o := Nat.iter (17 - nlen) (write_byte 32) o in
  let o := write_str (lit "0x") o in
  let o := foldl (fun o b => write_byte b o) o (cap_digits (rec_caps r)) in
  write_str [10] o.

Fixpoint write_tasks (rs : list TaskRecord) (o : out) : out :=
  match rs with
  | [] => o
  | r :: rs' =>
      let o := write_task r o in
      if (INLINE <? o.2 + 40)%nat then o else write_tasks rs' o
  end.

(** ** /proc *)

(** What the nodes show beside the scheduler's and the page allocator's counters. *)
Record net_info := mk_net { get_ip : list Z; get_mac : list Z }.

(** [node.strip_prefix(p).unwrap_or(node)] *)
Definition strip (p l : list Z) : list Z := if Fat.starts_with p l then drop (length p) l else l.
Definition proc_node (path : list Z) : list Z := trim_slashes (strip (lit "proc") (trim_slashes path)).

Definition outcome_fout {A} (o : outcome A) : fout A := match o with Done a => Got a | Panic => Crashed end.

Definition meminfo (k : kernel) (o : out) : fout out :=
  free ← outcome_fout (free_pages (pg (mach k)));
  let free_mb := free *u PAGE_SIZE / (1024 * 1024) in
  let total_mb := total_pages (pg (mach k)) *u PAGE_SIZE / (1024 * 1024) in
  let o := write_dec total_mb (write_str (lit "MemTotal:  ") o) in
  let o := write_dec free_mb (write_str (lit " MB" ++ 10 :: lit "MemFree:   ") o) in
  let o := write_dec (total_mb -u free_mb) (write_str (lit " MB" ++ 10 :: lit "MemUsed:   ") o) in
  Got (write_str (lit " MB" ++ [10]) o).

Definition stats (k : kernel) (o : out) : out :=
  let cpu_pct := if 0 <? total_ticks k then 100 -u (idle_ticks k *u 100 / total_ticks k) else 0 in
  let o := write_dec cpu_pct (write_str (lit "cpu_pct:   ") o) in
  write_str [10] (write_dec (task_count k) (write_str (lit "%" ++ 10 :: lit "task_cnt:  ") o)).

Definition proc_open (k : kernel) (net : net_info) (path : list Z) : fout (option VfsFd) :=
  let node := proc_node path in
  let named s := bool_decide (node = lit s) in
  let done (o : out) := Some (Inline o.1 o.2 0 false) in
  if named "version" then Got (done (write_str (lit "Aeglos OS 1.0 (AArch64 bare-metal)" ++ [10]) out0))
  else if named "uptime" then Got (done (write_str (lit " seconds" ++ [10]) (write_dec (total_ticks k / 100) out0)))
  else if named "meminfo" then o ← meminfo k out0; Got (done o)
  else if named "net/ip" || named "net" then Got (done (write_str [10] (write_ip (get_ip net) out0)))
  else if named "net/mac" then Got (done (write_str [10] (write_mac (get_mac net) out0)))
  else if named "cpuinfo" then
    let o := write_dec MAX_CPUS (write_str (lit "Architecture: AArch64" ++ 10 :: lit "CPUs:         ") out0) in
    Got (done (write_str (10 :: lit "Model:        QEMU virt (ARMv8.2-A)" ++ [10]) o))
  else if named "tasks" then
    Got (done (write_tasks (list_tasks 16 k) (write_str (lit "TID  NAME             CAPS" ++ [10]) out0)))
  else if named "stats" then Got (done (stats k out0))
  else Got None.

Definition proc_root : list (list Z * bool) :=
  [(lit "version", false); (lit "uptime", false); (lit "meminfo", false); (lit "cpuinfo", false); (lit "tasks", false);
   (lit "stats", false); (lit "net", true)].
Definition proc_net : list (list Z * bool) := [(lit "ip", false); (lit "mac", false)].

Fixpoint proc_entries (es : list (list Z * bool)) (count : nat) (o : list Fat.DirEntry) : list Fat.DirEntry * nat :=
  match es with
  | [] => (o, count)
  | (name, is_dir) :: es' =>
      match o !! count with
      | None => (o, count)
      | Some e =>
          let name := take Fat.NAME_MAX name in
          let e := Fat.mk_direntry (splice 0 (name ++ [0]) (Fat.d_name e)) (if is_dir then 1 else 0) 0 in
          proc_entries es' (S count) (<[count := e]> o)
      end
  end.

Definition proc_readdir (path : list Z) (o : list Fat.DirEntry) : list Fat.DirEntry * nat :=
  let node := proc_node path in
  if bool_decide (node = []) then proc_entries proc_root 0 o
  else if bool_decide (node = lit "net") then proc_entries proc_net 0 o
  else (o, 0%nat).

(** ** /mem *)

Definition mem_key (path : list Z) : list Z :=
  let key := trim_slashes path in
  if Fat.starts_with (lit "mem/") key then drop 4 key
  else if Fat.starts_with (lit "mem") key then drop 3 key
  else [].

(** The node made of a reply: its payload is at most 16 bytes of the message. *)
Definition reply_node (msg : Message) : option VfsFd :=
  if le_bytes (take 8 (data msg)) =? 101 then
    let len := Z.to_nat (Z.min (Z.min (le_bytes (take 8 (drop 8 (data msg)))) 16) 512) in
    Some (Inline (splice 0 (take len (drop 16 (data msg))) (replicate INLINE 0)) len 0 false)
  else None.

(** The loop for the reply.  [turns]: what happens to the kernel between two rounds
    (the other cores, the interrupts); the second is over after the last one. *)
Fixpoint await_reply (cpu : Z) (turns : list (kernel -> kernel)) (k : kernel) : outcome (option VfsFd * kernel) :=
  '(m, k) ← try_recv_message cpu k;
  match m ≫= reply_node with
  | Some fd => Done (Some fd, k)
  | None => match turns with [] => Done (None, k) | f :: turns' => await_reply cpu turns' (f k) end
  end.

(** OP_RETRIEVE for the key at the end of the path. *)
Definition retrieve_request (my_tid path_ptr : Z) (path : list Z) : Message :=
  let key := mem_key path in
  mk_msg my_tid (to_le_bytes 8 101 ++ to_le_bytes 8 (path_ptr +u Z.of_nat (length path - length key))
                 ++ to_le_bytes 8 (Z.of_nat (length key)) ++ replicate 8 0).

Definition mem_open (cpu : Z) (turns : list (kernel -> kernel)) (path_ptr : Z) (path : list Z) (k : kernel) :
    outcome (option VfsFd * kernel) :=
  match mem_key path with
  | [] => Done (None, k)
  | _ =>
      '(r, k) ← send_message 2 (retrieve_request (current_tid cpu k) path_ptr path) k;
      match r with
      | Err _ => Done (None, k)
      | Ok _ => await_reply cpu turns k
      end
  end.

(** ** Calls *)

Definition V (C A : Type) : Type := vfs C -> fout (A * vfs C).
#[export] Instance V_ret C : MRet (V C) := fun A a s => Got (a, s).
#[export] Instance V_bind C : MBind (V C) := fun A B f m s =>
  match m s with Got (a, s') => f a s' | Crashed => Crashed | Stuck => Stuck end.

(** What a call finds outside the file system: the core it runs on, the kernel, the
    network's addresses, and the rounds of [await_reply]. *)
Record outside := mk_outside { o_cpu : Z; o_kernel : kernel; o_net : net_info; o_turns : list (kernel -> kernel) }.

Section Calls.
Context {C : Type} `{!Sectors C}.
Variable rounds : nat.

Local Abbreviation M := (V C).

Definition lift {A} (m : Fat.F C A) : M A := fun s =>
  match m (fat s) with
  | Got (a, f) => Got (a, mk_vfs (VFS_FDS s) (PIPES s) f)
  | Crashed => Crashed
  | Stuck => Stuck
  end.
Definition fds : M (list (option VfsFd)) := fun s => Got (VFS_FDS s, s).
Definition set_fds (l : list (option VfsFd)) : M unit := fun s => Got (tt, mk_vfs l (PIPES s) (fat s)).
Definition pipes : M (list PipeBuf) := fun s => Got (PIPES s, s).
Definition set_pipes (l : list PipeBuf) : M unit := fun s => Got (tt, mk_vfs (VFS_FDS s) l (fat s)).
Definition crashed {A} : M A := fun _ => Crashed.

(** [PIPES[id]], with its bounds check. *)
Definition with_pipe {A} (id : nat) (f : PipeBuf -> A * PipeBuf) : M A :=
  l ← pipes;
  match l !! id with
  | None => crashed
  | Some p => let '(a, p) := f p in _ ← set_pipes (<[id := p]> l); mret a
  end.

Definition vfs_alloc (fd : VfsFd) : M (option nat) :=
  l ← fds;
  match list_find (fun o => o = None) l with
  | None => mret None
  | Some (i, _) => _ ← set_fds (<[i := Some fd]> l); mret (Some i)
  end.

(** [.map(|i| i as isize).unwrap_or(-1)] *)
Definition index_or (o : option nat) : Z := match o with Some i => Z.of_nat i | None => -1 end.

(** The common start of the calls with a path: [None] where they return -1. *)
Definition path_arg (path : option (list Z)) : option (list Z) :=
  match path with
  | None | Some [] => None
  | Some b => if from_utf8_ok b then Some b else None
  end.

(** A computation outside the file system. *)
Definition outer {A} (m : fout A) : M A := fun s =>
  match m with Got a => Got (a, s) | Crashed => Crashed | Stuck => Stuck end.

(** [path] is what [path_ptr] points to; the result, and the kernel afterwards. *)
Definition sys_open (w : outside) (path_ptr : Z) (path : list Z) : M (Z * kernel) :=
  let k := o_kernel w in
  match path_arg (if path_ptr =? 0 then None else Some path) with
  | None => mret (-1, k)
  | Some path =>
      '(fd, k) ← match route path with
                 | BProc => fd ← outer (proc_open k (o_net w) path); mret (fd, k)
                 | BMem => outer (outcome_fout (mem_open (o_cpu w) (o_turns w) path_ptr path k))
                 | BFat32 => fd ← lift (Fat.open rounds path); mret (Fat32 <$> fd, k)
                 end;
      match fd with
      | Some fd => i ← vfs_alloc fd; mret (index_or i, k)
      | None => mret (-1, k)
      end
  end.

(** [fd_at]: [VFS_FDS[fd]] for the calls on descriptors, [None] where they return -1. *)
Definition fd_at (fd : Z) : M (option VfsFd) :=
  l ← fds;
  mret (if fd <? Z.of_nat VFS_MAX_FD then default None (l !! Z.to_nat fd) else None).

(** The count, and what is put at the start of the buffer of [len] bytes. *)
Definition sys_read_fd (fd : Z) (null : bool) (len : nat) : M (Z * list Z) :=
  if null || (len =? 0)%nat then mret (-1, [])
  else
    e ← fd_at fd;
    match e with
    | Some (Fat32 fat_fd) => lift (Fat.read (Z.of_nat fat_fd) len)
    | Some (Inline buf ilen pos writable) =>
        let n := Nat.min (ilen - pos) len in
        if (n =? 0)%nat then mret (0, [])
        else
          l ← fds;
          _ ← set_fds (<[Z.to_nat fd := Some (Inline buf ilen (pos + n) writable)]> l);
          mret (Z.of_nat n, take n (drop pos buf))
    | Some (Pipe id false) => b ← with_pipe id (read_bytes len); mret (Z.of_nat (length b), b)
    | Some (Pipe _ true) | None => mret (-1, [])
    end.

Definition sys_write_fd (fd : Z) (buf : option (list Z)) : M Z :=
  match buf with
  | None | Some [] => mret (-1)
  | Some buf =>
      e ← fd_at fd;
      match e with
      | Some (Fat32 fat_fd) => lift (Fat.write rounds (Z.of_nat fat_fd) buf)
      | Some (Inline _ _ _ writable) => mret (if writable then Z.of_nat (length buf) else -1)
      | Some (Pipe id true) => n ← with_pipe id (write_bytes buf); mret (Z.of_nat n)
      | Some (Pipe _ false) | None => mret (-1)
      end
  end.

Definition sys_close (fd : Z) : M Z :=
  e ← fd_at fd;
  match e with
  | None => mret (-1)
  | Some e =>
      l ← fds;
      _ ← set_fds (<[Z.to_nat fd := None]> l);
      _ ← match e with
          | Fat32 fat_fd => lift (Fat.close (Z.of_nat fat_fd))
          | Inline _ _ _ _ => mret tt
          | Pipe id write_end =>
              with_pipe id (fun p => (tt, if write_end then pipe_flags (open_read p) false p
                                          else pipe_flags false (open_write p) p))
          end;
      mret 0
  end.

Definition sys_create (path : option (list Z)) : M Z :=
  match path_arg path with
  | None => mret (-1)
  | Some path =>
      match route path with
      | BProc => mret (-1)
      | BMem => i ← vfs_alloc (Inline (replicate INLINE 0) 0 0 true); mret (index_or i)
      | BFat32 =>
          fd ← lift (Fat.open_write rounds path);
          match fd with
          | Some fat_fd => i ← vfs_alloc (Fat32 fat_fd); mret (index_or i)
          | None => mret (-1)
          end
      end
  end.

(** [o] holds the [max] entries behind the pointer; an invalid path is the empty one. *)
Definition sys_readdir (path : option (list Z)) (o : option (list Fat.DirEntry)) : M (Z * list Fat.DirEntry) :=
  match path, o with
  | Some b, Some ((_ :: _) as o) =>
      let path := if from_utf8_ok b then b else [] in
      '(o, n) ← match route path with
                | BProc => mret (proc_readdir path o)
                | BMem => mret (o, 0%nat)
                | BFat32 => lift (Fat.readdir rounds path o)
                end;
      mret (Z.of_nat n, o)
  | _, _ => mret (-1, default [] o)
  end.

(** The result and the two descriptors written to [out_ptr]. *)
Definition sys_pipe (null : bool) : M (Z * list nat) :=
  if null then mret (-1, [])
  else
    l ← pipes;
    match list_find (fun p => open_read p = false /\ open_write p = false) l with
    | None => mret (-1, [])
    | Some (id, _) =>
        _ ← with_pipe id (fun p => (tt, pipe_opened p));
        r ← vfs_alloc (Pipe id false);
        match r with
        | None => _ ← with_pipe id (fun p => (tt, pipe_flags false false p)); mret (-1, [])
        | Some rfd =>
            w ← vfs_alloc (Pipe id true);
            match w with
            | None =>
                l ← fds;
                _ ← set_fds (<[rfd := None]> l);
                _ ← with_pipe id (fun p => (tt, pipe_flags false false p));
                mret (-1, [])
            | Some wfd => mret (0, [rfd; wfd])
            end
        end
    end.

End Calls.
