(* ===== verification/VfsPipe.v ===== *)
(** * Pipes and text of the virtual file system

    A pipe's ring buffer refines a queue of bytes; decimal numbers written to a
    node read back; the capabilities of /proc/tasks. *)

From stdpp Require Import base numbers list gmap strings.
From Stdlib Require Import ZArith Lia.
From S2P Require Import Prelude Sector FatTable Sched Vfs.

(** ** Rings *)

Lemma cap_pos : (0 < PIPE_CAP)%nat.
Proof. unfold PIPE_CAP. lia. Qed.
#[local] Opaque PIPE_CAP.

(** [n] bytes of the ring from [pos] on. *)
Definition ring (data : list Z) (pos n : nat) : list Z := (fun i => nth ((pos + i) mod PIPE_CAP) data 0) <$> seq 0 n.

Lemma length_ring data pos n : length (ring data pos n) = n.
Proof. unfold ring. by rewrite length_fmap, length_seq. Qed.

Lemma mod_add_1 pos i : (((pos + 1) mod PIPE_CAP + i) mod PIPE_CAP = (pos + S i) mod PIPE_CAP)%nat.
Proof. rewrite Nat.Div0.add_mod_idemp_l. f_equal. lia. Qed.

Lemma ring_S data pos n : (pos < PIPE_CAP)%nat -> ring data pos (S n) = nth pos data 0 :: ring data ((pos + 1) mod PIPE_CAP)%nat n.
Proof.
  intros Hp. unfold ring. cbn [seq]. rewrite fmap_cons, Nat.add_0_r, Nat.mod_small by done. f_equal.
  rewrite <- fmap_S_seq, <- list_fmap_compose. apply list_fmap_ext. intros _ i _. cbn. by rewrite mod_add_1.
Qed.

Lemma ring_app data pos n m : ring data pos (n + m) = ring data pos n ++ ring data ((pos + n) mod PIPE_CAP)%nat m.
Proof.
  unfold ring. rewrite seq_app, fmap_app. f_equal. replace (seq (0 + n) m) with (Nat.add n <$> seq 0 m) by (rewrite fmap_add_seq; f_equal; lia).
  rewrite <- list_fmap_compose. apply list_fmap_ext. intros _ i _. cbn.
  rewrite Nat.Div0.add_mod_idemp_l. do 2 f_equal. lia.
Qed.

Lemma mod_lt pos : (pos mod PIPE_CAP < PIPE_CAP)%nat.
Proof. apply Nat.mod_upper_bound. pose proof cap_pos. lia. Qed.

Lemma ring_read_eq n data pos : (pos < PIPE_CAP)%nat ->
  ring_read n data pos = (ring data pos n, ((pos + n) mod PIPE_CAP)%nat).
Proof.
  revert pos. induction n as [|n IH]; intros pos Hp; cbn [ring_read].
  - by rewrite Nat.add_0_r, Nat.mod_small.
  - rewrite IH by apply mod_lt. by rewrite mod_add_1, <- ring_S.
Qed.

(** Writing [src] leaves the positions outside its stretch alone. *)
Lemma ring_write_eq src data pos : (pos < PIPE_CAP)%nat -> length data = PIPE_CAP -> (length src <= PIPE_CAP)%nat ->
  exists data', ring_write src data pos = (data', ((pos + length src) mod PIPE_CAP)%nat) /\ length data' = PIPE_CAP /\
    ring data' pos (length src) = src /\
    (forall i, (length src <= i < PIPE_CAP)%nat ->
       nth ((pos + i) mod PIPE_CAP) data' 0 = nth ((pos + i) mod PIPE_CAP) data 0).
Proof.
  revert data pos. induction src as [|b src IH]; intros data pos Hp Hl Hs; cbn [ring_write length].
  { exists data. by rewrite Nat.add_0_r, Nat.mod_small. }
  cbn [length] in Hs. destruct (IH (<[pos := b]> data) ((pos + 1) mod PIPE_CAP)%nat) as (data' & -> & H1 & H2 & H3);
    [apply mod_lt|by rewrite length_insert|lia|].
  exists data'. rewrite mod_add_1. split_and!; [done|done| |].
  - rewrite ring_S, H2 by done. f_equal.
    destruct (Nat.eq_dec (length src) PIPE_CAP) as [|Hn]; [lia|].
    specialize (H3 (PIPE_CAP - 1)%nat ltac:(lia)). rewrite mod_add_1 in H3.
    replace (pos + S (PIPE_CAP - 1))%nat with (pos + 1 * PIPE_CAP)%nat in H3 by lia.
    rewrite Nat.Div0.mod_add, Nat.mod_small in H3 by done. rewrite H3, nth_insert, decide_True by (done || lia). done.
  - intros i Hi. destruct i as [|i]; [lia|]. rewrite <- mod_add_1, H3, nth_insert by lia.
    rewrite decide_False; [done|]. rewrite mod_add_1. intros E. pose proof (Nat.Div0.div_mod (pos + S i) PIPE_CAP) as Ed. rewrite <- E in Ed.
    clear E. set (k := ((pos + S i) / PIPE_CAP)%nat) in Ed. destruct k as [|k]; [lia|]. nia.
Qed.

(** ** Pipes as queues *)

(** The ring holds [q], from the read position on. *)
Record pipe_holds (p : PipeBuf) (q : list Z) : Prop := {
  ph_data : length (pdata p) = PIPE_CAP;
  ph_read : (read_pos p < PIPE_CAP)%nat;
  ph_count : pcount p = length q;
  ph_cap : (length q <= PIPE_CAP)%nat;
  ph_write : write_pos p = ((read_pos p + length q) mod PIPE_CAP)%nat;
  ph_ring : ring (pdata p) (read_pos p) (length q) = q;
}.

Lemma pipe_opened_holds p : length (pdata p) = PIPE_CAP -> pipe_holds (pipe_opened p) [].
Proof. intros Hp. pose proof cap_pos. by split; cbn; [done|lia|done|lia|rewrite Nat.mod_small by lia|]. Qed.

Lemma read_bytes_holds len p q : pipe_holds p q ->
  let '(b, p') := read_bytes len p in b = take len q /\ pipe_holds p' (drop len q).
Proof.
  intros [H1 H2 H3 H4 H5 H6]. unfold read_bytes. rewrite ring_read_eq by done. set (n := Nat.min len (pcount p)).
  assert (Hn : length q = (n + (length q - n))%nat) by lia. rewrite Hn, ring_app in H6.
  assert (E : take len q = take n q /\ drop len q = drop n q).
  { unfold n. destruct (Nat.le_ge_cases len (pcount p)); [by rewrite Nat.min_l|]. rewrite Nat.min_r by lia.
    by rewrite !take_ge, !drop_ge by lia. }
  destruct E as [-> ->].
  assert (Ht : take n q = ring (pdata p) (read_pos p) n) by (rewrite <- H6; apply take_app_length'; by rewrite length_ring).
  assert (Hd : drop n q = ring (pdata p) ((read_pos p + n) mod PIPE_CAP)%nat (length q - n))
    by (rewrite <- H6 at 1; apply drop_app_length'; by rewrite length_ring).
  rewrite Ht, Hd. split; [done|]. split; cbn; rewrite ?length_ring; [done|apply mod_lt|lia|lia| |done].
  rewrite H5, Nat.Div0.add_mod_idemp_l. f_equal. lia.
Qed.

Lemma write_bytes_holds src p q : pipe_holds p q ->
  let '(n, p') := write_bytes src p in
  n = Nat.min (length src) (PIPE_CAP - length q) /\ pipe_holds p' (q ++ take n src).
Proof.
  intros [H1 H2 H3 H4 H5 H6]. unfold write_bytes. rewrite H3. set (n := Nat.min _ _).
  assert (Hl : length (take n src) = n) by (rewrite length_take; lia).
  destruct (ring_write_eq (take n src) (pdata p) (write_pos p)) as (data' & -> & D1 & D2 & D3);
    [rewrite H5; apply mod_lt|done|lia|]. rewrite Hl in *. split; [done|].
  assert (Ha : length (q ++ take n src) = (length q + n)%nat) by (rewrite length_app; lia).
  split; cbn; rewrite ?Ha; [done|done|lia|lia| |].
  - rewrite H5, Nat.Div0.add_mod_idemp_l. f_equal. lia.
  - rewrite ring_app, <- H5, D2. f_equal. rewrite <- H6 at 2. unfold ring. apply list_fmap_ext. intros j i [Ei Hi]%lookup_seq. cbn.
    specialize (D3 (PIPE_CAP - length q + i)%nat ltac:(lia)). rewrite H5, Nat.Div0.add_mod_idemp_l in D3.
    replace (read_pos p + length q + (PIPE_CAP - length q + i))%nat with (read_pos p + i + 1 * PIPE_CAP)%nat in D3 by lia.
    by rewrite Nat.Div0.mod_add in D3.
Qed.

(** Calls on the two ends of a pipe, and what they return. *)
Inductive pipe_call := PWrite (src : list Z) | PRead (len : nat).
Inductive pipe_reply := Accepted (n : nat) | Received (b : list Z).

Definition pipe_step (c : pipe_call) (p : PipeBuf) : pipe_reply * PipeBuf :=
  match c with
  | PWrite src => let '(n, p) := write_bytes src p in (Accepted n, p)
  | PRead len => let '(b, p) := read_bytes len p in (Received b, p)
  end.

(** A bounded queue of bytes. *)
Definition queue_step (c : pipe_call) (q : list Z) : pipe_reply * list Z :=
  match c with
  | PWrite src => let n := Nat.min (length src) (PIPE_CAP - length q) in (Accepted n, q ++ take n src)
  | PRead len => (Received (take len q), drop len q)
  end.

Fixpoint run_calls {T} (step : pipe_call -> T -> pipe_reply * T) (cs : list pipe_call) (s : T) : list pipe_reply * T :=
  match cs with
  | [] => ([], s)
  | c :: cs' => let '(r, s) := step c s in let '(rs, s) := run_calls step cs' s in (r :: rs, s)
  end.

Lemma pipe_step_refines c p q : pipe_holds p q ->
  (pipe_step c p).1 = (queue_step c q).1 /\ pipe_holds (pipe_step c p).2 (queue_step c q).2.
Proof.
  intros H. destruct c as [src|len]; cbn.
  - pose proof (write_bytes_holds src p q H) as Hw. destruct (write_bytes src p). by destruct Hw as [-> ?].
  - pose proof (read_bytes_holds len p q H) as Hw. destruct (read_bytes len p). by destruct Hw as [-> ?].
Qed.

(** C28: A pipe is a queue.  Whatever is written to and read from a pipe after it is
    opened, the replies are those of a first-in first-out queue of at most 4096
    bytes: a write takes as many bytes as there is room for and says how many, a
    read returns the oldest bytes in order; the ring never loses, repeats or
    reorders one, wherever its positions wrap around. *)
Theorem pipe_refines_queue p cs : length (pdata p) = PIPE_CAP ->
  (run_calls pipe_step cs (pipe_opened p)).1 = (run_calls queue_step cs []).1 /\
  pipe_holds (run_calls pipe_step cs (pipe_opened p)).2 (run_calls queue_step cs []).2.
Proof.
  intros Hp. generalize (pipe_opened_holds p Hp). generalize (pipe_opened p), (@nil Z).
  induction cs as [|c cs IH]; intros r q Hr; cbn [run_calls]; [done|].
  destruct (pipe_step_refines c r q Hr) as [E Hs]. destruct (pipe_step c r) as [a r'], (queue_step c q) as [b q'].
  cbn in E, Hs. specialize (IH r' q' Hs). destruct (run_calls pipe_step cs r'), (run_calls queue_step cs q').
  cbn in *. destruct IH as [-> ?]. by subst.
Qed.

(** Writing 5 bytes, reading 2, writing 1, reading the rest. *)
Lemma pipe_refines_queue_witness :
  (run_calls pipe_step [PWrite [1; 2; 3; 4; 5]; PRead 2; PWrite [6]; PRead 9] (pipe_opened pipe_new)).1 =
  [Accepted 5; Received [1; 2]; Accepted 1; Received [3; 4; 5; 6]].
Proof.
  destruct (pipe_refines_queue pipe_new [PWrite [1; 2; 3; 4; 5]; PRead 2; PWrite [6]; PRead 9]) as [E _].
  - apply length_replicate.
  - rewrite E. vm_compute. reflexivity.
Defined.

(** ** Numbers *)

(** The number a string of decimal digits stands for. *)
Definition parse_dec (l : list Z) : Z := foldl (fun a d => a * 10 + (d - 48)) 0 l.

Lemma parse_digits room n : 0 <= n < 10 ^ Z.of_nat room -> parse_dec (reverse (digits room n)) = n.
Proof.
  revert n. induction room as [|room IH]; intros n Hn; cbn [digits]; [cbn in *; lia|].
  rewrite Nat2Z.inj_succ, Z.pow_succ_r in Hn by lia. destruct (Z.eqb_spec n 0) as [->|]; [done|].
  rewrite reverse_cons. unfold parse_dec in *. rewrite foldl_app. cbn [foldl].
  rewrite IH by (split; [apply Z.div_pos|apply Z.div_lt_upper_bound]; lia). pose proof (Z.div_mod n 10). lia.
Qed.

Lemma length_digits room k n : 0 <= n < 10 ^ Z.of_nat k -> (length (digits room n) <= k)%nat.
Proof.
  revert k n. induction room as [|room IH]; intros k n Hn; cbn [digits length]; [lia|].
  destruct (Z.eqb_spec n 0) as [->|]; cbn [length]; [lia|]. destruct k as [|k]; [cbn in Hn; lia|].
  rewrite Nat2Z.inj_succ, Z.pow_succ_r in Hn by lia. apply le_n_S, IH. split; [apply Z.div_pos|apply Z.div_lt_upper_bound]; lia.
Qed.

Lemma read_splice pos data buf : (pos + length data <= length buf)%nat ->
  take (length data) (drop pos (splice pos data buf)) = data /\ take pos (splice pos data buf) = take pos buf.
Proof.
  intros Hl. unfold splice. assert (Ht : length (take pos buf) = pos) by (rewrite length_take; lia).
  split; [rewrite drop_app_length' by done; apply take_app_length|by apply take_app_length'].
Qed.

(** A number written to a node reads back.  With room for twenty digits,
    [write_dec] of a 64-bit number appends at most twenty bytes whose decimal value
    is the number, and leaves what was written before as it was. *)
Theorem write_dec_roundtrip n buf pos : is_u64 n -> (pos + 20 <= length buf)%nat ->
  let '(buf', pos') := write_dec n (buf, pos) in
  (pos < pos' <= pos + 20)%nat /\ parse_dec (take (pos' - pos) (drop pos buf')) = n /\
  take pos buf' = take pos buf /\ length buf' = length buf.
Proof.
  intros Hn Hb. unfold is_u64 in Hn. unfold write_dec. destruct (Z.eqb_spec n 0) as [->|H0].
  - unfold write_byte. rewrite (proj2 (Nat.ltb_lt _ _)) by lia. rewrite length_insert, Nat.sub_succ_l, Nat.sub_diag by lia.
    split_and!; [lia|lia| |by rewrite take_insert_ge|done].
    rewrite insert_take_drop, drop_app_length' by (rewrite ?length_take; lia). done.
  - set (ds := digits (length buf - pos) n).
    assert (Hl : (length ds <= 20)%nat) by (apply length_digits; change (Z.of_nat 20) with 20; lia).
    assert (Hd : ds <> []) by (unfold ds; destruct (length buf - pos)%nat eqn:E; [lia|]; cbn; by rewrite (proj2 (Z.eqb_neq _ _))).
    assert (Hp : (0 < length ds)%nat) by (destruct ds; [done|cbn; lia]).
    destruct (read_splice pos (reverse ds) buf) as [H1 H2]; [rewrite length_reverse; lia|].
    replace (pos + length ds - pos)%nat with (length (reverse ds)) by (rewrite length_reverse; lia). rewrite H1, H2.
    split_and!; [lia|lia| |done|by rewrite length_splice; rewrite ?length_reverse; [|lia]].
    apply parse_digits. split; [lia|]. apply Z.lt_le_trans with (10 ^ Z.of_nat 20); [change (Z.of_nat 20) with 20; lia|].
    apply Z.pow_le_mono_r; lia.
Qed.

Lemma write_dec_roundtrip_witness : write_dec 1234 ([0; 0] ++ replicate 20 7, 2%nat) = ([0; 0; 49; 50; 51; 52] ++ replicate 16 7, 6%nat) /\
  parse_dec [49; 50; 51; 52] = 1234.
Proof.
  pose proof (write_dec_roundtrip 1234 ([0; 0] ++ replicate 20 7) 2 ltac:(unfold is_u64; lia) ltac:(cbn; lia)) as H.
  vm_compute in H. vm_compute. split; [reflexivity|]. exact (proj1 (proj2 H)).
Defined.

(** ** The capabilities of /proc/tasks *)

Definition hex_value (l : list Z) : Z := foldl (fun a d => a * 16 + (if d <? 58 then d - 48 else d - 87)) 0 l.

Lemma unhex x : 0 <= x < 16 -> (if hex_digit x <? 58 then hex_digit x - 48 else hex_digit x - 87) = x.
Proof. intros Hx. unfold hex_digit. repeat (case_if; znorm; try lia). Qed.

Lemma hex_prefix v m : 0 <= v < 16 ^ 16 -> (m <= 16)%nat ->
  hex_value ((fun k => hex_digit (v / 16 ^ (15 - Z.of_nat k) mod 16)) <$> seq 0 m) = v / 16 ^ (16 - Z.of_nat m).
Proof.
  intros Hv. induction m as [|m IH]; intros Hm; [by rewrite Z.sub_0_r, Z.div_small|].
  rewrite seq_S, fmap_app. unfold hex_value in *. rewrite foldl_app, IH by lia. cbn [fmap list_fmap foldl plus].
  rewrite unhex by (apply Z.mod_pos_bound; lia).
  replace (16 - Z.of_nat m) with ((15 - Z.of_nat m) + 1) by lia. rewrite Z.pow_add_r by lia.
  rewrite <- Z.div_div by (lia || apply Z.pow_pos_nonneg; lia). change (16 ^ 1) with 16.
  replace (16 - Z.of_nat (S m)) with (15 - Z.of_nat m) by lia.
  pose proof (Z.div_mod (v / 16 ^ (15 - Z.of_nat m)) 16). lia.
Qed.

(** /proc/tasks shows the wrong capabilities.  The sixteen hexadecimal digits
    printed for a task are not those of its capability mask: the shifts are 63, 59,
    ..., 3 instead of 60, 56, ..., 0, so that the number shown is the mask divided
    by eight and the three lowest capabilities are not shown at all. *)
Theorem task_caps_shown caps : is_u64 caps -> hex_value (cap_digits caps) = caps / 8.
Proof.
  intros Hc. unfold is_u64 in Hc. unfold cap_digits, cap_shifts. rewrite <- list_fmap_compose.
  assert (Hv : 0 <= caps / 8 < 16 ^ 16) by (split; [apply Z.div_pos|apply Z.div_lt_upper_bound]; lia).
  transitivity (caps / 8 / 16 ^ (16 - Z.of_nat 16)); [|apply Z.div_1_r]. rewrite <- (hex_prefix (caps / 8) 16 Hv ltac:(lia)). f_equal.
  apply list_fmap_ext. intros j k [Ek Hk]%lookup_seq. cbn. f_equal. change 15 with (2 ^ 4 - 1) at 1.
  rewrite land_ones_mod, Z.shiftr_div_pow2 by lia. change (2 ^ 4) with 16. f_equal.
  replace (63 - 4 * Z.of_nat k) with (3 + 4 * (15 - Z.of_nat k)) by lia. rewrite Z.pow_add_r, Z.pow_mul_r by lia.
  rewrite <- Z.div_div by (lia || apply Z.pow_pos_nonneg; lia). done.
Qed.

Lemma task_caps_shown_witness : hex_value (cap_digits 127) = 15.
Proof. rewrite (task_caps_shown 127); [reflexivity|unfold is_u64; lia]. Defined.
