(* ===== verification/VfsInv.v ===== *)
(** * The descriptor table

    Every descriptor of the virtual file system refers to something that is open
    and nothing is referred to twice; no call indexes out of range.  First what the
    operations of the FAT32 driver do to its own table of open files. *)

From stdpp Require Import base numbers list gmap strings.
From Stdlib Require Import ZArith Lia.
From S2P Require Import Prelude Sector PageAlloc Sched SchedInv Vfs VfsPipe.
From S2P Require Import Fat FatDisk.

(** ** The driver's table *)

Section Files.
Context {C : Type} `{!Sectors C}.

(** [m] leaves the table alone and answers in [Q]. *)
Definition keeps {A} (Q : A -> Prop) (m : F C A) : Prop :=
  forall s, match m s with Got (a, s') => OPEN_FILES s' = OPEN_FILES s /\ Q a | _ => True end.

Lemma keeps_ret {A} (Q : A -> Prop) a : Q a -> keeps Q (mret a).
Proof. by intros Ha s. Qed.

Lemma keeps_bind {A B} (Q : A -> Prop) (R : B -> Prop) m f :
  keeps Q m -> (forall a, Q a -> keeps R (f a)) -> keeps R (m ≫= f).
Proof.
  intros Hm Hf s. specialize (Hm s). unfold mbind, F_bind. destruct (m s) as [[a s']| |]; [|done|done].
  destruct Hm as [E Ha]. specialize (Hf a Ha s'). destruct (f a s') as [[b s'']| |]; [|done|done]. by rewrite <- E.
Qed.

Lemma keeps_crash {A} (Q : A -> Prop) : keeps Q crash.
Proof. by intros s. Qed.
Lemma keeps_stuck {A} (Q : A -> Prop) : keeps Q stuck.
Proof. by intros s. Qed.
Lemma keeps_volume_of : keeps (fun _ => True) volume_of.
Proof. by intros s. Qed.
Lemma keeps_hint : keeps (fun _ => True) hint.
Proof. by intros s. Qed.
Lemma keeps_set_hint h : keeps (fun _ => True) (set_hint h).
Proof. by intros s. Qed.
Lemma keeps_files : keeps (fun _ => True) files.
Proof. by intros s. Qed.
Lemma keeps_read_sec lba : keeps (fun _ => True) (read_sec lba).
Proof. intros s. unfold read_sec, mbind, fout_bind. by destruct (s_read lba (store s)) as [[? ?]| |]. Qed.
Lemma keeps_write_sec lba b : keeps (fun _ => True) (write_sec lba b).
Proof. intros s. unfold write_sec, mbind, fout_bind. by destruct (s_write lba b (store s)). Qed.
Lemma keeps_patch lba o b : keeps (fun _ => True) (patch lba o b).
Proof. intros s. unfold patch, mbind, fout_bind. by destruct (s_patch lba o b (store s)). Qed.
Lemma keeps_zero lba : keeps (fun _ => True) (zero lba).
Proof. intros s. unfold zero, mbind, fout_bind. by destruct (s_zero lba (store s)). Qed.
End Files.

Create HintDb keep discriminated.
#[export] Hint Resolve keeps_crash keeps_stuck keeps_volume_of keeps_hint keeps_set_hint keeps_files keeps_read_sec
  keeps_write_sec keeps_patch keeps_zero : keep.

(** Follow the shape of a computation whose answer does not matter. *)
Ltac keep_step :=
  match goal with
  | |- keeps _ (mret _) => by apply keeps_ret
  | |- keeps _ (if ?b then _ else _) => destruct b
  | |- keeps _ (match ?x with _ => _ end) => destruct x
  | |- keeps _ (_ ≫= _) => apply (keeps_bind (fun _ => True)); [|intros ? _]
  | |- keeps _ _ => solve [eauto with keep nocore]
  end.
Ltac keep := repeat keep_step.

Section FileOps.
Context {C : Type} `{!Sectors C}.
Local Abbreviation kept m := (keeps (C := C) (fun _ => True) m).

Lemma keeps_fat_get c : kept (fat_get c).
Proof. unfold fat_get. keep. Qed.
Lemma keeps_fat_put c x : kept (fat_put c x).
Proof. unfold fat_put. keep. Qed.
#[local] Hint Resolve keeps_fat_get keeps_fat_put : keep.
Lemma keeps_zero_sectors n lba : kept (zero_sectors n lba).
Proof. revert lba. induction n; intros lba; cbn [zero_sectors]; keep. Qed.
#[local] Hint Resolve keeps_zero_sectors : keep.
Lemma keeps_find_free n c : kept (find_free n c).
Proof. revert c. induction n; intros c; cbn [find_free]; keep. Qed.
#[local] Hint Resolve keeps_find_free : keep.
Lemma keeps_alloc_cluster : kept alloc_cluster.
Proof. unfold alloc_cluster. keep. Qed.
Lemma keeps_free_chain least n c : kept (free_chain least n c).
Proof. revert c. induction n; intros c; cbn [free_chain]; keep. Qed.
Lemma keeps_chain_tail n c : kept (chain_tail n c).
Proof. revert c. induction n; intros c; cbn [chain_tail]; keep. Qed.
#[local] Hint Resolve keeps_alloc_cluster keeps_free_chain keeps_chain_tail : keep.
Lemma keeps_scan_sectors {T} (cb : dirent -> T -> T * bool) n lba l x : kept (scan_sectors cb n lba l x).
Proof. revert lba l x. induction n; intros lba l x; cbn [scan_sectors]; keep. Qed.
#[local] Hint Resolve keeps_scan_sectors : keep.
Lemma keeps_scan_clusters {T} (cb : dirent -> T -> T * bool) n c l x : kept (scan_clusters cb n c l x).
Proof. revert c l x. induction n; intros c l x; cbn [scan_clusters]; keep. Qed.
#[local] Hint Resolve keeps_scan_clusters : keep.
Lemma keeps_resolve_parts rounds ps c r : kept (resolve_parts rounds ps c r).
Proof. revert c r. induction ps; intros c r; cbn [resolve_parts]; unfold scan_dir; keep. Qed.
#[local] Hint Resolve keeps_resolve_parts : keep.
Lemma keeps_resolve rounds p : kept (resolve rounds p).
Proof. unfold resolve. keep. Qed.
Lemma keeps_slot_sectors n lba : kept (slot_sectors n lba).
Proof. revert lba. induction n; intros lba; cbn [slot_sectors]; keep. Qed.
#[local] Hint Resolve keeps_resolve keeps_slot_sectors : keep.
Lemma keeps_find_free_slot n c : kept (find_free_slot n c).
Proof. revert c. induction n; intros c; cbn [find_free_slot]; keep. Qed.
Lemma keeps_parent_cluster rounds p : kept (parent_cluster rounds p).
Proof. unfold parent_cluster. keep. Qed.
Lemma keeps_update_sec lba o b : kept (update_sec lba o b).
Proof. unfold update_sec. keep. Qed.
Lemma keeps_flush_size f : kept (flush_size f).
Proof. unfold flush_size. keep. Qed.
#[local] Hint Resolve keeps_find_free_slot keeps_parent_cluster keeps_update_sec keeps_flush_size : keep.

(** Files that stay in use. *)
Lemma keeps_read_loop n left f : keeps (C := C) (fun r => used r.2 = used f) (read_loop n left f).
Proof.
  revert left f. induction n as [|n IH]; intros left f; cbn [read_loop]; repeat case_match; try (by apply keeps_ret); [apply keeps_stuck|].
  apply (keeps_bind (fun _ => True)); [keep|intros v _]. destruct (position v f) as [lba o].
  apply (keeps_bind (fun _ => True)); [keep|intros sec _]. apply (keeps_bind (fun g => used g = used f)).
  - destruct (_ && _); [|by apply keeps_ret]. apply (keeps_bind (fun _ => True)); [keep|]. intros c _. by apply keeps_ret.
  - intros g Hg. eapply keeps_bind; [apply IH|]. intros [l h] Hh. apply keeps_ret. cbn in *. congruence.
Qed.

Definition still_used (f : OpenFile) (o : option OpenFile) : Prop := match o with Some g => used g = used f | None => True end.

Lemma keeps_ensure_cluster rounds f : keeps (C := C) (still_used f) (ensure_cluster rounds f).
Proof. unfold ensure_cluster. repeat (case_match || keep_step). Qed.

Lemma keeps_write_loop rounds n buf f : keeps (C := C) (fun r => used r.2 = used f) (write_loop rounds n buf f).
Proof.
  revert buf f. induction n as [|n IH]; intros [|b buf] f; cbn [write_loop]; try (by apply keeps_ret); [apply keeps_stuck|].
  eapply keeps_bind; [apply keeps_ensure_cluster|]. intros [g|] Hg; [|by apply keeps_ret]. cbn in Hg.
  apply (keeps_bind (fun _ => True)); [keep|intros v _]. destruct (position v g) as [lba o].
  apply (keeps_bind (fun _ => True)); [keep|intros _ _]. apply (keeps_bind (fun h => used h = used f)).
  - assert (He : forall h, used (extend h) = used h) by (intros h; unfold extend; by destruct (_ <? _)).
    destruct (_ =? 0); [apply (keeps_bind (fun _ => True)); [keep|intros c _]|]; apply keeps_ret; [destruct (negb _)|];
      cbn; rewrite ?He; done.
  - intros h Hh. eapply keeps_bind; [apply IH|]. intros [k j] Hj. apply keeps_ret. cbn in *. congruence.
Qed.

(** [m] takes a free slot for the file it returns. *)
Definition opens (m : F C (option nat)) : Prop :=
  forall s, match m s with
            | Got (Some fd, s') => exists f g, OPEN_FILES s !! fd = Some g /\ used g = false /\ used f = true /\
                OPEN_FILES s' = <[fd := f]> (OPEN_FILES s)
            | Got (None, s') => OPEN_FILES s' = OPEN_FILES s
            | _ => True
            end.

Lemma opens_none : opens (mret None).
Proof. by intros s. Qed.

Lemma opens_bind {A} (m : F C A) f : kept m -> (forall a, opens (f a)) -> opens (m ≫= f).
Proof.
  intros Hm Hf s. specialize (Hm s). unfold mbind, F_bind. destruct (m s) as [[a s']| |]; [|done|done].
  destruct Hm as [E _]. specialize (Hf a s'). destruct (f a s') as [[[fd|] s'']| |]; rewrite <- ?E; done.
Qed.

Lemma opens_slot f : used f = true -> opens (open_slot f).
Proof.
  intros Hf s. unfold open_slot, mbind, F_bind, files, set_files. cbn [OPEN_FILES].
  destruct (list_find _ (OPEN_FILES s)) as [[fd g]|] eqn:E; [|done]. apply list_find_Some in E as (E1 & E2 & _).
  cbn. by exists f, g.
Qed.

Lemma opens_open rounds p : opens (open rounds p).
Proof.
  unfold open. apply opens_bind; [keep|intros v]. destruct (negb _); [apply opens_none|]. apply opens_bind; [keep|].
  intros [f|]; [|apply opens_none]. destruct (fd_is_dir f); [apply opens_none|]. by apply opens_slot.
Qed.

Lemma opens_create rounds p : opens (create rounds p).
Proof.
  unfold create. apply opens_bind; [keep|intros v]. destruct (negb _); [apply opens_none|].
  destruct (split_path p). destruct (_ || _); [apply opens_none|]. apply opens_bind; [keep|intros [pc|]; [|apply opens_none]].
  apply opens_bind; [keep|intros nc]. destruct (nc =? 0); [apply opens_none|]. apply opens_bind; [keep|intros place].
  apply opens_bind; [keep|intros [[lba o]|]; [|apply opens_none]]. apply opens_bind; [keep|intros _]. by apply opens_slot.
Qed.

Lemma opens_open_write rounds p : opens (open_write rounds p).
Proof.
  unfold open_write. apply opens_bind; [keep|intros v]. destruct (negb _); [apply opens_none|]. apply opens_bind; [keep|].
  intros [f|]; [|apply opens_create]. destruct (fd_is_dir f); [apply opens_none|].
  do 4 (apply opens_bind; [keep|intros ?]). by apply opens_slot.
Qed.

(** [m] changes open files but not which slots are in use. *)
Definition stays {A} (m : F C A) : Prop :=
  forall s, match m s with Got (_, s') => used <$> OPEN_FILES s' = used <$> OPEN_FILES s | _ => True end.

Lemma stays_kept {A} (Q : A -> Prop) (m : F C A) : keeps Q m -> stays m.
Proof. intros H s. specialize (H s). destruct (m s) as [[a s']| |]; [|done|done]. by destruct H as [-> _]. Qed.

Lemma file_at_inv fd (s : fatfs C) a s' : file_at fd s = Got (a, s') ->
  s' = s /\ match a with Some f => OPEN_FILES s !! Z.to_nat fd = Some f /\ used f = true | None => True end.
Proof.
  unfold file_at, mbind, F_bind, files, mret, F_ret. intros [= <- <-]. split; [done|]. destruct (_ <? _); [|done].
  destruct (OPEN_FILES s !! _) as [f|] eqn:E; [|done]. by destruct (used f) eqn:Eu.
Qed.

Lemma used_insert (l : list OpenFile) i f g : l !! i = Some f -> used g = used f -> used <$> <[i := g]> l = used <$> l.
Proof.
  intros Hf Hg. rewrite list_fmap_insert, Hg. apply list_insert_id. by rewrite list_lookup_fmap, Hf.
Qed.

(** The file behind [fd] is worked on, put back, and more is done. *)
Lemma stays_put {A B} fd f (m : F C B) (g : B -> OpenFile) (k : B -> F C A) s :
  OPEN_FILES s !! Z.to_nat fd = Some f -> keeps (fun b => used (g b) = used f) m -> (forall b, keeps (fun _ => True) (k b)) ->
  match (b ← m; _ ← put_file fd (g b); k b) s with
  | Got (_, s') => used <$> OPEN_FILES s' = used <$> OPEN_FILES s | _ => True end.
Proof.
  intros Hf Hm Hk. unfold mbind, F_bind. specialize (Hm s). destruct (m s) as [[b s1]| |]; [|done|done].
  destruct Hm as [E Hu]. unfold put_file, mbind, F_bind, files, set_files. set (s2 := mk_fat _ _ _ _).
  specialize (Hk b s2). destruct (k b s2) as [[a s3]| |]; [|done|done]. destruct Hk as [-> _]. cbn. rewrite E.
  by eapply used_insert.
Qed.

Lemma stays_read fd len : stays (read fd len).
Proof.
  intros s. unfold read. unfold mbind at 1, F_bind at 1. destruct (file_at fd s) as [[a s0]| |] eqn:Ef; [|done|done].
  apply file_at_inv in Ef as [-> Hf]. destruct a as [f|]; [|done]. destruct Hf as [Hf Hu]. destruct (_ =? 0); [done|].
  set (want := Nat.min _ _).
  pose proof (stays_put fd f (read_loop want want f) snd (fun r => mret (Z.of_nat (length r.1), r.1)) s Hf
    (keeps_read_loop want want f) (fun b => keeps_ret _ _ I)) as H.
  unfold mbind, F_bind in *. destruct (read_loop want want f s) as [[[b g] s1]| |]; done.
Qed.

Lemma stays_write rounds fd buf : stays (write rounds fd buf).
Proof.
  intros s. unfold write. unfold mbind at 1, F_bind at 1. destruct (file_at fd s) as [[a s0]| |] eqn:Ef; [|done|done].
  apply file_at_inv in Ef as [-> Hf]. destruct a as [f|]; [|done]. destruct Hf as [Hf Hu]. destruct (negb _); [done|].
  pose proof (stays_put fd f (write_loop rounds (length buf) buf f) snd
    (fun r => _ ← flush_size r.2; mret (Z.of_nat r.1)) s Hf (keeps_write_loop rounds (length buf) buf f) ltac:(intros b; cbv beta; keep)) as H.
  unfold mbind, F_bind in *. destruct (write_loop rounds (length buf) buf f s) as [[[k g] s1]| |]; done.
Qed.

(** [close] frees the slot. *)
Lemma close_files fd (s : fatfs C) s' : close (Z.of_nat fd) s = Got (tt, s') -> (fd < MAX_OPEN)%nat ->
  OPEN_FILES s' = OPEN_FILES s /\ (forall f, OPEN_FILES s !! fd = Some f -> used f = false) \/
  OPEN_FILES s' = <[fd := EMPTY_FILE]> (OPEN_FILES s).
Proof.
  intros Hc Hl. unfold close in Hc. unfold mbind at 1, F_bind at 1 in Hc. unfold file_at, mbind at 1, F_bind at 1 in Hc.
  cbn [files mret F_ret] in Hc. rewrite Nat2Z.id, (proj2 (Z.ltb_lt _ _)) in Hc by lia.
  destruct (OPEN_FILES s !! fd) as [f|] eqn:Ef; [|left; cbn in Hc; unfold mret, F_ret in Hc; injection Hc as <-; by split].
  destruct (used f) eqn:Eu; [right|left; cbn in Hc; unfold mret, F_ret in Hc; injection Hc as <-; split; [done|]; by intros g [= <-]].
  assert (Hk : kept (if writable f then flush_size f else mret tt)) by keep. specialize (Hk s).
  unfold mbind, F_bind in Hc. destruct ((if writable f then flush_size f else mret tt) s) as [[u s1]| |]; [|done|done].
  destruct Hk as [<- _]. unfold put_file, mbind, F_bind, files, set_files in Hc. simplify_eq. cbn. by rewrite Nat2Z.id.
Qed.

End FileOps.

(** ** The table of descriptors *)

Definition used_at (fs : list OpenFile) (f : nat) : Prop := exists g, fs !! f = Some g /\ used g = true.
Definition end_open (w : bool) (p : PipeBuf) : bool := if w then Vfs.open_write p else open_read p.
Definition inline_ok (buf : list Z) (len pos : nat) : Prop := length buf = INLINE /\ (pos <= len <= INLINE)%nat.

(** Descriptors, pipes and the driver's files.  A pipe's flag for an end is set
    exactly when a descriptor for it exists. *)
Record table_ok (fds : list (option VfsFd)) (ps : list PipeBuf) (fs : list OpenFile) : Prop := {
  t_fds : length fds = VFS_MAX_FD;
  t_pipes : length ps = MAX_PIPES;
  t_files : length fs = MAX_OPEN;
  t_fat : forall i f, fds !! i = Some (Some (Fat32 f)) -> used_at fs f;
  t_fat_inj : forall i j f, fds !! i = Some (Some (Fat32 f)) -> fds !! j = Some (Some (Fat32 f)) -> i = j;
  t_end : forall i id w, fds !! i = Some (Some (Pipe id w)) -> exists p, ps !! id = Some p /\ end_open w p = true;
  t_end_inj : forall i j id w, fds !! i = Some (Some (Pipe id w)) -> fds !! j = Some (Some (Pipe id w)) -> i = j;
  t_open : forall id p w, ps !! id = Some p -> end_open w p = true -> exists i, fds !! i = Some (Some (Pipe id w));
  t_ring : forall id p, ps !! id = Some p -> exists q, pipe_holds p q;
  t_inline : forall i buf len pos w, fds !! i = Some (Some (Inline buf len pos w)) -> inline_ok buf len pos;
}.

(** Split on whether an updated slot is the one looked at. *)
Ltac slots := repeat match goal with
  | H : <[_ := _]> _ !! _ = Some _ |- _ => apply list_lookup_insert_Some in H as [(? & ? & ?)|[? ?]]; simplify_eq
  end.

Section Table.
Context (fds : list (option VfsFd)) (ps : list PipeBuf) (fs : list OpenFile).
Hypothesis H : table_ok fds ps fs.

Lemma table_files fs' : length fs' = length fs -> (forall f, used_at fs f -> used_at fs' f) -> table_ok fds ps fs'.
Proof. intros Hl Hu. destruct H. split; try done; [congruence|]. intros i f Hf. eauto. Qed.

(** A new descriptor in a free slot that is not a pipe's. *)
Lemma table_add_fat i f : fds !! i = Some None -> used_at fs f -> (forall j, fds !! j <> Some (Some (Fat32 f))) ->
  table_ok (<[i := Some (Fat32 f)]> fds) ps fs.
Proof.
  intros Hi Hu Hn. destruct H. split; rewrite ?length_insert; try done; intros; slots; eauto 3;
    try (by edestruct Hn); [].
  destruct (t_open0 _ _ _ H0 H1) as [j Hj]. exists j. apply list_lookup_insert_Some. right. split; [congruence|done].
Qed.

(** Descriptors of pipes are still there after a change of another slot. *)
Lemma pipe_elsewhere i x y id p w : fds !! i = Some x -> (forall id e, x <> Some (Pipe id e)) ->
  ps !! id = Some p -> end_open w p = true -> exists j, <[i := y]> fds !! j = Some (Some (Pipe id w)).
Proof.
  intros Hi Hx Hp He. destruct (t_open _ _ _ H _ _ _ Hp He) as [j Hj]. exists j. apply list_lookup_insert_Some. right.
  split; [|done]. intros ->. rewrite Hj in Hi. simplify_eq. by eapply Hx.
Qed.

Lemma table_add_inline i x buf len pos w : fds !! i = Some x -> (forall id e, x <> Some (Pipe id e)) -> inline_ok buf len pos ->
  table_ok (<[i := Some (Inline buf len pos w)]> fds) ps fs.
Proof.
  intros Hi Hx Hb. pose proof (pipe_elsewhere i x (Some (Inline buf len pos w))) as He. destruct H.
  split; rewrite ?length_insert; try done; intros; slots; eauto 3.
Qed.

Lemma table_remove i x : fds !! i = Some x -> (forall id e, x <> Some (Pipe id e)) -> table_ok (<[i := None]> fds) ps fs.
Proof.
  intros Hi Hx. pose proof (pipe_elsewhere i x None) as He. destruct H.
  split; rewrite ?length_insert; try done; intros; slots; eauto 3.
Qed.

(** A pipe's contents change. *)
Lemma table_pipe id p p' q : ps !! id = Some p -> pipe_holds p' q -> (forall w, end_open w p' = end_open w p) ->
  table_ok fds (<[id := p']> ps) fs.
Proof.
  intros Hp Hq He. destruct H. split; rewrite ?length_insert; try done; intros; slots; eauto.
  - destruct (t_end0 _ _ _ H0) as (p0 & Hp0 & E). destruct (decide (id = id0)) as [<-|].
    + exists p'. rewrite list_lookup_insert_eq by (by eapply lookup_lt_Some). split; [done|]. rewrite He. congruence.
    + exists p0. by rewrite list_lookup_insert_ne.
Qed.

(** One end of a pipe is closed. *)
Lemma table_close_end i id e p p' q : fds !! i = Some (Some (Pipe id e)) -> ps !! id = Some p -> pipe_holds p' q ->
  end_open e p' = false -> end_open (negb e) p' = end_open (negb e) p ->
  table_ok (<[i := None]> fds) (<[id := p']> ps) fs.
Proof.
  intros Hi Hp Hq He Ho. destruct H. split; rewrite ?length_insert; try done; intros; slots; eauto.
  - destruct (t_end0 _ _ _ H1) as (p0 & Hp0 & E). destruct (decide (id = id0)) as [<-|].
    + exists p'. rewrite list_lookup_insert_eq by (by eapply lookup_lt_Some). split; [done|].
      destruct (decide (w = e)) as [->|Hw]; [by destruct (t_end_inj0 _ _ _ _ Hi H1)|].
      replace w with (negb e) in * by (destruct w, e; done). rewrite Ho. congruence.
    + exists p0. by rewrite list_lookup_insert_ne.
  - destruct (decide (w = e)) as [->|Hw]; [congruence|]. replace w with (negb e) in * by (destruct w, e; done).
    rewrite Ho in *. destruct (t_open0 _ _ _ Hp H1) as [j Hj]. exists j. apply list_lookup_insert_Some. right.
    split; [|done]. intros ->. rewrite Hj in Hi. destruct e; by simplify_eq.
  - destruct (t_open0 _ _ _ H2 H1) as [j Hj]. exists j. apply list_lookup_insert_Some. right. split; [|done].
    intros ->. rewrite Hj in Hi. by simplify_eq.
Qed.

End Table.

Lemma table_new_pipe fds ps fs r w id p q : table_ok fds ps fs -> fds !! r = Some None -> fds !! w = Some None -> r <> w ->
  ps !! id = Some p -> end_open false p = false -> end_open true p = false -> pipe_holds (pipe_opened p) q ->
  table_ok (<[w := Some (Pipe id true)]> (<[r := Some (Pipe id false)]> fds)) (<[id := pipe_opened p]> ps) fs.
Proof.
  intros H Hr Hw Hne Hp H1 H2 Hq.
  assert (Hn : forall i e, fds !! i <> Some (Some (Pipe id e))).
  { intros i e Hi. destruct (t_end _ _ _ H _ _ _ Hi) as (p0 & Hp0 & E). simplify_eq. destruct e; congruence. }
  destruct H. split; rewrite ?length_insert; try done.
  - intros; slots; eauto 3.
  - intros; slots; eauto 3.
  - intros i id' e Hi. assert (Hl : (id < length ps)%nat) by (by eapply lookup_lt_Some).
    slots; [exists (pipe_opened p); split; [by apply list_lookup_insert_eq|done]..|].
    assert (id <> id') by (intros ->; by eapply Hn). rewrite list_lookup_insert_ne by done. eauto 3.
  - intros; slots; try done; try (by edestruct Hn); eauto 3.
  - intros id' p' e Hi He. slots.
    + destruct e; [exists w|exists r]; [apply list_lookup_insert_eq; rewrite length_insert; by eapply lookup_lt_Some|].
      rewrite list_lookup_insert_ne by done. apply list_lookup_insert_eq. by eapply lookup_lt_Some.
    + destruct (t_open0 _ _ _ H0 He) as [j Hj]. exists j. rewrite !list_lookup_insert_ne; [done|congruence..].
  - intros; slots; eauto 3.
  - intros; slots; eauto 3.
Qed.

(** ** Text stays in its buffer *)

Definition out_ok (o : out) : Prop := length o.1 = INLINE /\ (o.2 <= INLINE)%nat.

Lemma splice_out pos b buf : (pos + length b <= length buf)%nat -> length (splice pos b buf) = length buf.
Proof. apply length_splice. Qed.

Lemma write_str_ok s o : out_ok o -> out_ok (write_str s o).
Proof.
  destruct o as [buf pos]. intros [Hb Hp]. cbn [fst snd] in *. unfold write_str, out_ok. cbn [fst snd].
  rewrite length_splice by (rewrite length_take; lia). lia.
Qed.

Lemma write_byte_ok b o : out_ok o -> out_ok (write_byte b o).
Proof.
  destruct o as [buf pos]. intros [Hb Hp]. cbn [fst snd] in *. unfold write_byte, out_ok. destruct (Nat.ltb_spec pos (length buf)); cbn [fst snd];
    rewrite ?length_insert; lia.
Qed.

Lemma length_digits_room room n : (length (digits room n) <= room)%nat.
Proof. revert n. induction room as [|room IH]; intros n; cbn; [lia|]. destruct (_ =? _); cbn; [lia|]. specialize (IH (n / 10)). lia. Qed.

Lemma write_dec_ok n o : out_ok o -> out_ok (write_dec n o).
Proof.
  destruct o as [buf pos]. intros [Hb Hp]. unfold write_dec. destruct (_ =? _); [by apply write_byte_ok|].
  cbn [fst snd] in *. pose proof (length_digits_room (length buf - pos) n). unfold out_ok. cbn [fst snd].
  rewrite length_splice by (rewrite length_reverse; lia). lia.
Qed.

Lemma foldl_ok {A B} (P : A -> Prop) (f : A -> B -> A) l a : (forall a b, P a -> P (f a b)) -> P a -> P (foldl f a l).
Proof. intros Hf. revert a. induction l; intros a' Ha; cbn; [done|]. auto. Qed.
#[local] Hint Resolve write_str_ok write_byte_ok write_dec_ok : core.

Lemma write_ip_ok ip o : out_ok o -> out_ok (write_ip ip o).
Proof.
  intros Ho. unfold write_ip. apply (foldl_ok (fun x : nat * out => out_ok x.2)); [|done]. intros [i o'] b Ho'. cbn [snd] in *.
  destruct (i <? 3)%nat; auto.
Qed.

Lemma write_mac_ok mac o : out_ok o -> out_ok (write_mac mac o).
Proof.
  intros Ho. unfold write_mac. apply (foldl_ok (fun x : nat * out => out_ok x.2)); [|done]. intros [i o'] b Ho'. cbn [snd] in *.
  destruct (i <? 5)%nat; auto.
Qed.

Lemma write_tasks_ok rs o : out_ok o -> out_ok (write_tasks rs o).
Proof.
  revert o. induction rs as [|r rs IH]; intros o Ho; cbn [write_tasks]; [done|].
  assert (Hr : out_ok (write_task r o)).
  { unfold write_task. apply write_str_ok. apply (foldl_ok out_ok); [auto|]. apply write_str_ok.
    generalize (17 - default 16 (fst <$> list_find (fun b => b = 0%Z) (rec_name r)))%nat. intros n. induction n; cbn; auto. }
  destruct (_ <? _)%nat; [done|by apply IH].
Qed.

Lemma out0_ok : out_ok out0.
Proof. split; [apply length_replicate|cbn; lia]. Qed.

Definition node_ok (o : option VfsFd) : Prop :=
  match o with
  | Some (Inline buf len pos w) => inline_ok buf len pos /\ w = false
  | Some _ => False
  | None => True
  end.

(** Every node of /proc fits into its buffer. *)
Lemma proc_open_ok k net path : match proc_open k net path with Got o => node_ok o | _ => True end.
Proof.
  assert (Hi : forall o, out_ok o -> inline_ok o.1 o.2 0 /\ false = false) by (intros o [? ?]; split; [split; lia|done]).
  pose proof out0_ok as H0. unfold proc_open, stats. cbv zeta.
  repeat match goal with |- context [if ?b then _ else _] => destruct b end; try done;
    try (apply Hi; auto 10 using write_ip_ok, write_mac_ok, write_tasks_ok).
  unfold meminfo, mbind, fout_bind. destruct (free_pages _); cbn [outcome_fout]; [|done]. apply Hi. auto 10.
Qed.

Lemma reply_node_ok msg : node_ok (reply_node msg).
Proof.
  unfold reply_node. destruct (_ =? 101); [|done].
  set (len := Z.to_nat _). assert (len <= INLINE)%nat by (unfold len, INLINE; lia). split; [split; [|lia]|done].
  rewrite length_splice, length_replicate; [done|]. rewrite length_replicate, length_take. lia.
Qed.

Lemma await_reply_node cpu turns k : match await_reply cpu turns k with Done (o, _) => node_ok o | Panic => True end.
Proof.
  revert k. induction turns as [|f turns IH]; intros k; cbn [await_reply];
    (destruct (try_recv_message cpu k) as [[[m|] k']|];
     [pose proof (reply_node_ok m); cbn; destruct (reply_node m)|cbn|]); try done; apply IH.
Qed.

Lemma mem_open_node cpu turns ptr p k : match mem_open cpu turns ptr p k with Done (o, _) => node_ok o | Panic => True end.
Proof.
  unfold mem_open. destruct (mem_key p); [done|]. destruct (send_message _ _ k) as [[[]  k']|]; [|done|done].
  apply await_reply_node.
Qed.

(** While the other cores keep the scheduler's invariant, waiting for a reply
    neither panics nor breaks it. *)
Lemma await_reply_ok cpu turns k : 0 <= cpu -> sched_wf k -> Forall (fun f => forall k, sched_wf k -> sched_wf (f k)) turns ->
  exists o k', await_reply cpu turns k = Done (o, k') /\ sched_wf k'.
Proof.
  intros Hc. revert k. induction turns as [|f turns IH]; intros k Hk Ht; cbn [await_reply];
    destruct (recv_ok cpu k Hk Hc) as [_ (m & k' & -> & Hk')]; cbn [mbind outcome_bind];
    (destruct (m ≫= reply_node) as [fd|]; [by eexists _, _|]).
  - by eexists _, _.
  - inversion Ht as [|? ? Hf Ht']; subst. apply IH; auto.
Qed.

(** Opening a key always answers, and keeps the scheduler's invariant. *)
Theorem mem_open_ok cpu turns ptr p k : 0 <= cpu -> sched_wf k ->
  Forall (fun f => forall k, sched_wf k -> sched_wf (f k)) turns ->
  exists o k', mem_open cpu turns ptr p k = Done (o, k') /\ sched_wf k'.
Proof.
  intros Hc Hk Ht. unfold mem_open. destruct (mem_key p); [by eexists _, _|].
  destruct (send_message_ok 2 (retrieve_request (current_tid cpu k) ptr p) k Hk) as (r & k' & -> & Hk'). cbn [mbind outcome_bind].
  destruct r; [by apply await_reply_ok|by eexists _, _].
Qed.

(** ** Calls *)

Section Calls.
Context {C : Type} `{!Sectors C}.

Definition vfs_ok (s : vfs C) : Prop := table_ok (VFS_FDS s) (PIPES s) (OPEN_FILES (fat s)).

(** A call keeps the table. *)
Definition safe {A} (m : V C A) : Prop :=
  forall s, vfs_ok s -> match m s with Got (_, s') => vfs_ok s' | _ => True end.

Lemma safe_ret {A} (a : A) : safe (mret a).
Proof. by intros s. Qed.

Lemma safe_bind {A B} (m : V C A) (f : A -> V C B) : safe m -> (forall a, safe (f a)) -> safe (m ≫= f).
Proof.
  intros Hm Hf s Hs. specialize (Hm s Hs). unfold mbind, V_bind. destruct (m s) as [[a s']| |]; [|done|done]. by apply Hf.
Qed.

Lemma used_at_fmap fs fs' f : used <$> fs' = used <$> fs -> used_at fs f -> used_at fs' f.
Proof.
  intros E (g & Hg & Hu). assert (H : (used <$> fs') !! f = Some true) by (by rewrite E, list_lookup_fmap, Hg, <- Hu).
  rewrite list_lookup_fmap in H. destruct (fs' !! f) as [g'|] eqn:Eg; [|done]. exists g'. by simplify_eq/=.
Qed.

(** Reading and writing a file keeps every file in use. *)
Lemma safe_lift {A} (m : F C A) : stays m -> safe (lift m).
Proof.
  intros Hm s Hs. specialize (Hm (fat s)). unfold lift. destruct (m (fat s)) as [[a f]| |]; [|done|done].
  eapply table_files; [exact Hs|cbn|].
  - apply (f_equal length) in Hm. by rewrite !length_fmap in Hm.
  - intros i Hi. by eapply used_at_fmap.
Qed.

Lemma vfs_alloc_cases d (s : vfs C) :
  (vfs_alloc d s = Got (None, s) /\ forall i, VFS_FDS s !! i <> Some None) \/
  (exists i, VFS_FDS s !! i = Some None /\
     vfs_alloc d s = Got (Some i, mk_vfs (<[i := Some d]> (VFS_FDS s)) (PIPES s) (fat s))).
Proof.
  unfold vfs_alloc, mbind, V_bind, fds, set_fds. destruct (list_find _ (VFS_FDS s)) as [[i x]|] eqn:E.
  - apply list_find_Some in E as (E1 & -> & _). right. by exists i.
  - left. split; [done|]. intros i Hi. apply list_find_None in E. by apply (Forall_lookup_1 _ _ _ _ E Hi).
Qed.

Lemma safe_alloc_inline buf len pos w : inline_ok buf len pos -> safe (vfs_alloc (Inline buf len pos w)).
Proof.
  intros Hi s Hs. destruct (vfs_alloc_cases (Inline buf len pos w) s) as [[-> _]|(i & E & ->)]; [done|].
  eapply table_add_inline; [exact Hs|done|done|done].
Qed.

(** A file opened by the driver and then given a descriptor, if there is one free. *)
Lemma safe_open_fat (m : F C (option nat)) : opens m ->
  safe (fd ← lift m; match fd with Some f => i ← vfs_alloc (Fat32 f); mret (index_or i) | None => mret (-1) end).
Proof.
  intros Hm s Hs. unfold mbind, V_bind, lift. specialize (Hm (fat s)).
  destruct (m (fat s)) as [[[fd|] f']| |]; [| |done|done]; cbn.
  - destruct Hm as (f & g & Hg & Hu & Hf & E).
    assert (Hs' : table_ok (VFS_FDS s) (PIPES s) (OPEN_FILES f')).
    { eapply table_files; [exact Hs|by rewrite E, length_insert|]. intros k (h & Hh & Hk). rewrite E.
      exists h. split; [|done]. rewrite list_lookup_insert_ne; [done|]. intros ->. congruence. }
    destruct (vfs_alloc_cases (Fat32 fd) (mk_vfs (VFS_FDS s) (PIPES s) f')) as [[-> _]|(i & Ei & ->)]; [done|].
    apply table_add_fat; [exact Hs'|done| |].
    + exists f. cbn. rewrite E. split; [|done]. apply list_lookup_insert_eq. by eapply lookup_lt_Some.
    + intros j Hj. destruct (t_fat _ _ _ Hs _ _ Hj) as (h & Hh & Hk). congruence.
  - unfold vfs_ok. cbn. by rewrite Hm.
Qed.

(** A generated node, given a descriptor if there is one free. *)
Lemma safe_open_node {A} (fd : option VfsFd) (f : Z -> A) : node_ok fd ->
  safe (match fd with Some d => i ← vfs_alloc d; mret (f (index_or i)) | None => mret (f (-1)) end).
Proof.
  destruct fd as [[?|buf len pos w|? ?]|]; cbn; [done| |done|by intros _; apply safe_ret]. intros [Hi _].
  apply safe_bind; [by apply safe_alloc_inline|intros a; apply safe_ret].
Qed.

Lemma safe_sys_open rounds w ptr path : safe (sys_open rounds w ptr path).
Proof.
  unfold sys_open. cbv zeta. destruct (path_arg _) as [p|]; [|apply safe_ret]. destruct (route p).
  - intros s Hs. pose proof (safe_open_fat (open rounds p) (opens_open rounds p) s Hs) as H. unfold mbind, V_bind, lift in *.
    destruct (open rounds p (fat s)) as [[[fd|] f']| |]; [|done|done|done]. cbn in *. by destruct (vfs_alloc _ _) as [[]| |].
  - intros s Hs. unfold mbind at 1 2, V_bind at 1 2, outer. pose proof (proc_open_ok (o_kernel w) (o_net w) p) as H.
    destruct (proc_open _ _ p) as [fd| |]; [|done|done]. by apply (safe_open_node fd (fun r => (r, o_kernel w))).
  - intros s Hs. unfold mbind at 1, V_bind at 1, outer. pose proof (mem_open_node (o_cpu w) (o_turns w) ptr p (o_kernel w)) as H.
    destruct (mem_open _ _ _ _ _) as [[fd k]|]; [|done]. by apply (safe_open_node fd (fun r => (r, k))).
Qed.

Lemma safe_fd_at fd : safe (fd_at fd).
Proof. by intros s. Qed.

Lemma safe_with_pipe {A} id (f : PipeBuf -> A * PipeBuf) :
  (forall p q, pipe_holds p q -> exists q', pipe_holds (f p).2 q' /\ forall w, end_open w (f p).2 = end_open w p) ->
  safe (with_pipe id f).
Proof.
  intros Hf s Hs. unfold with_pipe, mbind, V_bind, pipes, set_pipes. destruct (PIPES s !! id) as [p|] eqn:E; [|done].
  destruct (t_ring _ _ _ Hs _ _ E) as [q Hq]. destruct (Hf p q Hq) as (q' & Hq' & He). destruct (f p) as [a p']. cbn in *.
  eapply table_pipe; [exact Hs|done|done|done].
Qed.

Lemma safe_read_pipe id len : safe (b ← with_pipe id (read_bytes len); mret (Z.of_nat (length b), b)).
Proof.
  apply safe_bind; [|intros b; apply safe_ret]. apply safe_with_pipe. intros p q Hq.
  pose proof (read_bytes_holds len p q Hq) as H. exists (drop len q). assert (He : forall w, end_open w (read_bytes len p).2 = end_open w p)
    by (unfold read_bytes; destruct (ring_read _ _ _); by intros [|]).
  destruct (read_bytes len p) as [b p']. by destruct H.
Qed.

(** Reading a node moves its position. *)
Lemma safe_advance i buf len pos w n (s : vfs C) : vfs_ok s -> VFS_FDS s !! i = Some (Some (Inline buf len pos w)) ->
  (n <= len - pos)%nat -> vfs_ok (mk_vfs (<[i := Some (Inline buf len (pos + n) w)]> (VFS_FDS s)) (PIPES s) (fat s)).
Proof.
  intros Hs Hi Hn. eapply table_add_inline; [exact Hs|exact Hi|done|]. destruct (t_inline _ _ _ Hs _ _ _ _ _ Hi) as [H1 H2].
  split; lia.
Qed.

Lemma safe_sys_read_fd fd null len : safe (sys_read_fd fd null len).
Proof.
  unfold sys_read_fd. destruct (_ || _); [apply safe_ret|]. intros s Hs. unfold mbind at 1, V_bind at 1.
  assert (E : fd_at fd s = Got (if fd <? Z.of_nat VFS_MAX_FD then default None (VFS_FDS s !! Z.to_nat fd) else None, s)) by done.
  rewrite E. clear E. destruct (fd <? _); [|exact Hs].
  destruct (VFS_FDS s !! Z.to_nat fd) as [[[f|buf ilen pos wr|pid [|]]|]|] eqn:E; cbn [default from_option id]; try exact Hs.
  - by apply (safe_lift _ (stays_read _ _)).
  - destruct (_ =? 0)%nat; [exact Hs|]. unfold mbind, V_bind, fds, set_fds, mret, V_ret. apply safe_advance; [done|done|]. lia.
  - by apply safe_read_pipe.
Qed.

Lemma safe_sys_write_fd rounds fd buf : safe (sys_write_fd rounds fd buf).
Proof.
  unfold sys_write_fd. destruct buf as [[|b buf]|]; [apply safe_ret| |apply safe_ret].
  apply safe_bind; [apply safe_fd_at|]. intros [[f|ib il ip wr|id [|]]|]; try apply safe_ret.
  - apply safe_lift, stays_write.
  - apply safe_bind; [|intros n; apply safe_ret]. apply safe_with_pipe. intros p q Hq.
    pose proof (write_bytes_holds (b :: buf) p q Hq) as H.
    assert (He : forall w, end_open w (write_bytes (b :: buf) p).2 = end_open w p)
      by (unfold write_bytes; destruct (ring_write _ _ _); by intros [|]).
    destruct (write_bytes (b :: buf) p) as [n p']. destruct H. by eexists.
Qed.

Lemma safe_sys_create rounds path : safe (sys_create rounds path).
Proof.
  unfold sys_create. destruct (path_arg path) as [p|]; [|apply safe_ret]. destruct (route p).
  - apply safe_open_fat, opens_open_write.
  - apply safe_ret.
  - apply safe_bind; [|intros i; apply safe_ret]. apply safe_alloc_inline. split; [apply length_replicate|lia].
Qed.

Lemma safe_sys_readdir rounds path o : safe (sys_readdir rounds path o).
Proof.
  unfold sys_readdir. destruct path as [b|]; [|apply safe_ret]. destruct o as [[|e o]|]; [apply safe_ret| |apply safe_ret].
  apply safe_bind; [|intros [o' n]; apply safe_ret]. destruct (route _); try apply safe_ret.
  apply safe_lift. eapply (stays_kept (fun _ => True)). unfold readdir, scan_dir.
  repeat keep_step; [apply keeps_parent_cluster|apply keeps_scan_clusters].
Qed.

Lemma used_at_lt fs f : used_at fs f -> length fs = MAX_OPEN -> (f < MAX_OPEN)%nat.
Proof. intros (g & Hg & _) <-. by eapply lookup_lt_Some. Qed.

(** Closing the descriptor of a file frees the file, which no other one refers to. *)
Lemma safe_close_fat i f (s : vfs C) : vfs_ok s -> VFS_FDS s !! i = Some (Some (Fat32 f)) ->
  match lift (close (Z.of_nat f)) (mk_vfs (<[i := None]> (VFS_FDS s)) (PIPES s) (fat s)) with
  | Got (_, s') => vfs_ok s' | _ => True end.
Proof.
  intros Hs Hi. unfold lift. cbn. destruct (close (Z.of_nat f) (fat s)) as [[[] f']| |] eqn:Ec; [|done|done].
  pose proof (t_fat _ _ _ Hs _ _ Hi) as Hu. pose proof (used_at_lt _ _ Hu (t_files _ _ _ Hs)) as Hl.
  assert (Hr : table_ok (<[i := None]> (VFS_FDS s)) (PIPES s) (OPEN_FILES (fat s)))
    by (eapply table_remove; [exact Hs|exact Hi|done]).
  destruct (close_files f (fat s) f' Ec Hl) as [[E _]|E]; unfold vfs_ok; cbn; rewrite E; [done|].
  destruct Hr. split; try done; [by rewrite length_insert|]. intros j k Hj. destruct (t_fat0 _ _ Hj) as (g & Hg & Hk).
  exists g. split; [|done]. rewrite list_lookup_insert_ne; [done|]. intros ->.
  apply list_lookup_insert_Some in Hj as [(_ & ? & _)|[Hne Hj]]; [done|]. by destruct Hne; eapply (t_fat_inj _ _ _ Hs).
Qed.

Lemma pipe_flags_holds r w p q : pipe_holds p q -> pipe_holds (pipe_flags r w p) q.
Proof. by intros []. Qed.

Lemma safe_close_pipe i id e (s : vfs C) : vfs_ok s -> VFS_FDS s !! i = Some (Some (Pipe id e)) ->
  match with_pipe id (fun p => (tt, if e then pipe_flags (open_read p) false p else pipe_flags false (Vfs.open_write p) p))
          (mk_vfs (<[i := None]> (VFS_FDS s)) (PIPES s) (fat s)) with
  | Got (_, s') => vfs_ok s' | _ => False end.
Proof.
  intros Hs Hi. destruct (t_end _ _ _ Hs _ _ _ Hi) as (p & Hp & Ho). destruct (t_ring _ _ _ Hs _ _ Hp) as [q Hq].
  unfold with_pipe, mbind, V_bind, pipes, set_pipes. cbn. rewrite Hp. cbn.
  eapply (table_close_end _ _ _ Hs i id e p _ q); [done|done|destruct e; by apply pipe_flags_holds|by destruct e|by destruct e].
Qed.

Lemma safe_sys_close fd : safe (sys_close fd).
Proof.
  intros s Hs. unfold sys_close, fd_at, fds, set_fds, mbind, V_bind, mret, V_ret.
  destruct (fd <? _); [|exact Hs]. destruct (VFS_FDS s !! Z.to_nat fd) as [[d|]|] eqn:E; [|exact Hs|exact Hs].
  change (default None (Some (Some d))) with (Some d). cbn [VFS_FDS PIPES fat]. destruct d as [f|buf len pos wr|pid e].
  - pose proof (safe_close_fat _ _ s Hs E) as H. by destruct (lift _ _) as [[a s']| |].
  - eapply table_remove; [exact Hs|exact E|done].
  - pose proof (safe_close_pipe _ _ _ s Hs E) as H. by destruct (with_pipe _ _ _) as [[a s']| |].
Qed.

Lemma with_pipe_eq {A} id (f : PipeBuf -> A * PipeBuf) p (s : vfs C) : PIPES s !! id = Some p ->
  with_pipe id f s = Got ((f p).1, mk_vfs (VFS_FDS s) (<[id := (f p).2]> (PIPES s)) (fat s)).
Proof. intros Hp. unfold with_pipe, mbind, V_bind, pipes, set_pipes. rewrite Hp. by destruct (f p). Qed.

(** [sys_pipe] always answers, and keeps the table on every path. *)
Lemma sys_pipe_ok null (s : vfs C) : vfs_ok s -> exists r s', sys_pipe null s = Got (r, s') /\ vfs_ok s'.
Proof.
  intros Hs. unfold sys_pipe. destruct null; [by eexists _, s|]. unfold mbind at 1, V_bind at 1, pipes at 1.
  destruct (list_find _ (PIPES s)) as [[id p]|] eqn:E; [|by eexists _, s]. apply list_find_Some in E as (Hp & [Hr Hw] & _).
  destruct (t_ring _ _ _ Hs _ _ Hp) as [q Hq]. pose proof (pipe_opened_holds p (ph_data _ _ Hq)) as Hn.
  assert (Hid : (id < length (PIPES s))%nat) by (by eapply lookup_lt_Some).
  assert (Hback : vfs_ok (mk_vfs (VFS_FDS s) (<[id := pipe_flags false false (pipe_opened p)]> (PIPES s)) (fat s))).
  { eapply table_pipe; [exact Hs|exact Hp|by apply pipe_flags_holds|]. by intros [|]. }
  unfold mbind at 1, V_bind at 1. rewrite (with_pipe_eq id _ p) by done. cbn [fst snd].
  unfold mbind at 1, V_bind at 1. set (s1 := mk_vfs (VFS_FDS s) (<[id := pipe_opened p]> (PIPES s)) (fat s)).
  assert (Hundo : forall l, with_pipe id (fun p => (tt, pipe_flags false false p)) (mk_vfs l (PIPES s1) (fat s)) =
    Got (tt, mk_vfs l (<[id := pipe_flags false false (pipe_opened p)]> (PIPES s)) (fat s))).
  { intros l. rewrite (with_pipe_eq id _ (pipe_opened p)) by (by apply list_lookup_insert_eq). cbn. by rewrite list_insert_insert_eq. }
  destruct (vfs_alloc_cases (Pipe id false) s1) as [[-> _]|(r & Er & ->)].
  - pose proof (Hundo (VFS_FDS s)) as Hu. change (mk_vfs (VFS_FDS s) (PIPES s1) (fat s)) with s1 in Hu.
    unfold mbind, V_bind. rewrite Hu. by eexists _, _.
  - unfold mbind at 1, V_bind at 1. cbn [s1 VFS_FDS PIPES fat] in *. set (s2 := mk_vfs _ _ _).
    destruct (vfs_alloc_cases (Pipe id true) s2) as [[-> _]|(w & Ew & ->)].
    + unfold mbind, V_bind, fds, set_fds. cbn [s2 VFS_FDS PIPES fat]. rewrite list_insert_insert_eq, (Hundo _).
      rewrite (list_insert_id (VFS_FDS s)) by done. by eexists _, _.
    + cbn [s2 VFS_FDS PIPES fat] in *. eexists _, _. split; [done|]. apply list_lookup_insert_Some in Ew as [(_ & ? & _)|[Hne Ew]]; [done|].
      by eapply (table_new_pipe _ _ _ r w id p []).
Qed.

(** The calls of the virtual file system. *)
Inductive vfs_call :=
| COpen (w : outside) (path_ptr : Z) (path : list Z)
| CRead (fd : Z) (null : bool) (len : nat)
| CWrite (fd : Z) (buf : option (list Z))
| CClose (fd : Z)
| CCreate (path : option (list Z))
| CReaddir (path : option (list Z)) (o : option (list DirEntry))
| CPipe (null : bool).

Definition vfs_perform (rounds : nat) (c : vfs_call) : V C Z :=
  match c with
  | COpen w ptr path => r ← sys_open rounds w ptr path; mret r.1
  | CRead fd null len => r ← sys_read_fd fd null len; mret r.1
  | CWrite fd buf => sys_write_fd rounds fd buf
  | CClose fd => sys_close fd
  | CCreate path => sys_create rounds path
  | CReaddir path o => r ← sys_readdir rounds path o; mret r.1
  | CPipe null => r ← sys_pipe null; mret r.1
  end.

(** C29: No descriptor dangles.  After every call of the virtual file system each
    descriptor of a file refers to an open file of the driver and no two to the
    same one, each end of a pipe has at most one descriptor, a pipe is marked open
    at an end exactly when that end has one (so [sys_pipe] takes up a pipe only
    when no descriptor is left for it), every ring is in order, and the position in
    a generated node never passes its end. *)
Theorem vfs_calls_keep_table rounds c (s : vfs C) : vfs_ok s ->
  match vfs_perform rounds c s with Got (_, s') => vfs_ok s' | _ => True end.
Proof.
  intros Hs. assert (Hc : safe (vfs_perform rounds c)); [|by apply Hc]. destruct c; cbn [vfs_perform].
  - apply safe_bind; [apply safe_sys_open|intros a; apply safe_ret].
  - apply safe_bind; [apply safe_sys_read_fd|intros a; apply safe_ret].
  - apply safe_sys_write_fd.
  - apply safe_sys_close.
  - apply safe_sys_create.
  - apply safe_bind; [apply safe_sys_readdir|intros a; apply safe_ret].
  - apply safe_bind; [|intros a; apply safe_ret]. intros t Ht. by destruct (sys_pipe_ok null t Ht) as (r & t' & -> & ?).
Qed.

(** A failed open loses a file of the driver.  When all sixteen descriptors are
    taken, [sys_open] of an existing file returns -1 after the driver has opened it:
    the driver's slot stays in use and no descriptor refers to it, so that no call
    can ever close it. *)
Theorem sys_open_leaks rounds w ptr p fd f' (s : vfs C) :
  vfs_ok s -> (forall i, VFS_FDS s !! i <> Some None) -> ptr <> 0 -> path_arg (Some p) = Some p -> route p = BFat32 ->
  open rounds p (fat s) = Got (Some fd, f') ->
  sys_open rounds w ptr p s = Got ((-1, o_kernel w), mk_vfs (VFS_FDS s) (PIPES s) f') /\
  used_at (OPEN_FILES f') fd /\ ~ used_at (OPEN_FILES (fat s)) fd /\
  (forall i, VFS_FDS s !! i <> Some (Some (Fat32 fd))).
Proof.
  intros Hs Hfull Hptr%Z.eqb_neq Hp Hr Ho. pose proof (opens_open rounds p (fat s)) as H. rewrite Ho in H. destruct H as (f & g & Hg & Hu & Hf & E).
  assert (Hn : ~ used_at (OPEN_FILES (fat s)) fd) by (intros (h & Hh & Hk); congruence).
  split_and!; [|exists f; rewrite E; split; [apply list_lookup_insert_eq; by eapply lookup_lt_Some|done]|done|].
  - unfold sys_open. rewrite Hptr, Hp, Hr. unfold mbind, V_bind, lift. rewrite Ho. cbn.
    destruct (vfs_alloc_cases (Fat32 fd) (mk_vfs (VFS_FDS s) (PIPES s) f')) as [[-> _]|(i & Hi & _)]; [done|].
    by destruct (Hfull i).
  - intros i Hi. by destruct Hn; eapply (t_fat _ _ _ Hs).
Qed.

End Calls.

(** ** The sample volume *)

Lemma pipe_new_holds : pipe_holds pipe_new [].
Proof. split; [apply length_replicate|cbn; apply cap_pos|done|cbn; lia|symmetry; apply Nat.Div0.mod_0_l|done]. Qed.

(** A table with [d] in every slot. *)
Definition sample_vfs (d : option VfsFd) : vfs (direct (gmap Z (list Z))) :=
  mk_vfs (replicate VFS_MAX_FD d) (replicate MAX_PIPES pipe_new) (sample_state EMPTY_FILE).

Lemma sample_vfs_ok d : match d with None => True | Some (Inline b l p _) => inline_ok b l p | _ => False end -> vfs_ok (sample_vfs d).
Proof.
  intros Hd. split; cbn [sample_vfs VFS_FDS PIPES fat]; rewrite ?length_replicate; try done.
  - intros i f [E _]%lookup_replicate. subst d. done.
  - intros i j f [E _]%lookup_replicate. subst d. done.
  - intros i id w [E _]%lookup_replicate. subst d. done.
  - intros i j id w [E _]%lookup_replicate. subst d. done.
  - intros id p w [-> _]%lookup_replicate. by destruct w.
  - intros id p [-> _]%lookup_replicate. exists []. apply pipe_new_holds.
  - intros i b l p w [E _]%lookup_replicate. by subst d.
Qed.

Lemma vfs_calls_keep_table_witness : exists s', vfs_perform 8 (CPipe false) (sample_vfs None) = Got (0, s') /\ vfs_ok s'.
Proof.
  pose proof (vfs_calls_keep_table 8 (CPipe false) (sample_vfs None) (sample_vfs_ok None I)) as H.
  assert (E : match vfs_perform 8 (CPipe false) (sample_vfs None) with Got (r, _) => r | _ => 1 end = 0) by (vm_compute; reflexivity).
  destruct (vfs_perform 8 (CPipe false) (sample_vfs None)) as [[r s']| |]; [|discriminate E|discriminate E].
  exists s'. subst r. split; [reflexivity|exact H].
Defined.

(** All descriptors are taken by an empty node. *)
Definition full_vfs : vfs (direct (gmap Z (list Z))) := sample_vfs (Some (Inline (replicate INLINE 0) 0 0 false)).

Definition sample_outside : outside := mk_outside 0 demo_kernel (mk_net [] []) [].

Lemma sys_open_leaks_witness : exists s', sys_open 8 sample_outside 4096 sample_path full_vfs = Got ((-1, demo_kernel), s').
Proof.
  destruct (sys_open_leaks 8 sample_outside 4096 sample_path 0 (sample_state (mk_file true false 1000 3 3 0 0 2 32)) full_vfs) as [E _].
  - apply sample_vfs_ok. split; [apply length_replicate|lia].
  - intros i H. apply lookup_replicate in H as [H _]. discriminate H.
  - lia.
  - reflexivity.
  - reflexivity.
  - vm_compute. reflexivity.
  - eexists. exact E.
Defined.
