(* ===== verification/NetState.v ===== *)
(** * The network stack: state and frames (kernel/src/net)

    The statics of the network modules, the computations over them, the transmit
    buffer, and the checksums.  An array or slice is the list of its elements; an
    index out of range is a panic.  The drivers and the clocks are the class
    [NetHost]; console output, the masking of interrupts around a transmission and
    the failure of a heap allocation are not modelled. *)

From stdpp Require Import base numbers list.
From Stdlib Require Import ZArith Lia Bool.
From S2P Require Import Prelude Sector.

(** ** Outside *)

(** The two network cards, chosen by [USE_E1000], and the timer. *)
Class NetHost (D : Type) := {
  nic_send : bool -> list Z -> D -> bool * D;
  nic_recv : bool -> D -> option (list Z) * D;
  (** the hardware address of a card that is up *)
  nic_mac : bool -> D -> option (list Z);
  timer_count : D -> Z * D;
  timer_freq : Z;
  ticks : D -> Z * D;
}.

(** ** Data *)

Inductive IpAddr := V4 (a : list Z) | V6 (a : list Z).
#[export] Instance IpAddr_eq_dec : EqDecision IpAddr.
Proof. solve_decision. Defined.

Definition zero4 : list Z := replicate 4 0.
Definition zero16 : list Z := replicate 16 0.

(** The addresses of the interface. *)
Record iface := mk_iface {
  NET_IP : list Z;
  NET_MASK : list Z;
  NET_GW : list Z;
  NET_MAC : list Z;
  NET_UP : bool;
  USE_E1000 : bool;
  NET_IP6 : list Z;
  NET_GW6 : list Z;
  NET_IP6G : list Z;
  NET_IP6_UP : bool;
}.

Record ArpEntry := mk_arp { a_ip : list Z; a_mac : list Z; a_valid : bool }.
Record ArpPending := mk_arpp { ap_ip : list Z; ap_retry_count : Z; ap_next_retry : Z; ap_valid : bool }.
Record arp_state := mk_arps { ARP_TABLE : list ArpEntry; ARP_CURSOR : Z; ARP_PENDING : list ArpPending }.

(** The functions registered for a port. *)
Inductive Handler := handler_none | handler_dhcp | handler_dns.
Record UdpHandler := mk_udp { u_port : Z; u_handler : Handler; u_valid : bool }.

(** The arrival times of the replies to [send_ping] and [send_ping6]. *)
Record ping_state := mk_ping { ICMP_PING_REPLY_TICKS : option Z; PING6_REPLY : option Z }.

Record NdpEntry := mk_ndp { n_ip : list Z; n_mac : list Z; n_valid : bool }.
Record NdpPending := mk_ndpp { np_ip : list Z; np_retry_count : Z; np_next_retry : Z; np_valid : bool }.
Record ndp_state := mk_ndps { NDP_CACHE : list NdpEntry; NDP_PENDING : list NdpPending }.

Inductive DhcpState := Idle | Discovering | Requesting | Bound | Renewing.
#[export] Instance DhcpState_eq_dec : EqDecision DhcpState.
Proof. solve_decision. Defined.
Record DhcpClient := mk_dhcp {
  d_state : DhcpState;
  xid : Z;
  offered_ip : list Z;
  server_ip : list Z;
  lease_secs : Z;
  t1_secs : Z;
  bound_tick : Z;
  retry_count : Z;
  next_action_tick : Z;
}.

Record DnsEntry := mk_dnse { dn_name : list Z; dn_name_len : nat; dn_addr : IpAddr; dn_ttl_end : Z }.
Record dns_state := mk_dnss {
  DNS_CACHE : list DnsEntry;
  CACHE_CURSOR : Z;
  PENDING_TXN : Z;
  PENDING_ADDR : option IpAddr;
}.

Record RingBuf := mk_ring { rbuf : list Z; rhead : nat; rtail : nat; rlen : nat }.

Inductive TcpState :=
| Free | SynSent | Listen | SynRcvd | Established | FinWait1 | FinWait2 | Closing | CloseWait | LastAck | TimeWait | Closed.
#[export] Instance TcpState_eq_dec : EqDecision TcpState.
Proof. solve_decision. Defined.

Record TcpConn := mk_conn {
  state : TcpState;
  remote_ip : IpAddr;
  remote_port : Z;
  local_port : Z;
  snd_nxt : Z;
  snd_una : Z;
  snd_cur : nat;
  rcv_nxt : Z;
  snd_wnd : Z;
  mss : Z;
  retx_ticks : Z;
  retx_count : Z;
  retx_backoff : Z;
  state_tick : Z;
  cwnd : Z;
  ssthresh : Z;
  dup_acks : Z;
  last_ack_rcvd : Z;
  persist_ticks : Z;
  persist_arm : bool;
  is_server : bool;
  accept_port : Z;
  rx : option RingBuf;
  tx : option RingBuf;
}.

Record tcp_state_t := mk_tcps { CONNS : list TcpConn; NEXT_PORT : Z }.

(** All statics of the stack, and the outside. *)
Record net (D : Type) := mk_netst {
  ifc : iface;
  TX_BUF : list Z;
  arp : arp_state;
  HANDLERS : list UdpHandler;
  ping : ping_state;
  ndp : ndp_state;
  CLIENT : DhcpClient;
  dns : dns_state;
  tcp : tcp_state_t;
  host : D;
}.
Arguments mk_netst {D}.
Arguments ifc {D}.
Arguments TX_BUF {D}.
Arguments arp {D}.
Arguments HANDLERS {D}.
Arguments ping {D}.
Arguments ndp {D}.
Arguments CLIENT {D}.
Arguments dns {D}.
Arguments tcp {D}.
Arguments host {D}.

(** ** Updates *)

Definition set_NET_GW6 (x : list Z) (i : iface) : iface :=
  mk_iface (NET_IP i) (NET_MASK i) (NET_GW i) (NET_MAC i) (NET_UP i) (USE_E1000 i) (NET_IP6 i) x (NET_IP6G i)
    (NET_IP6_UP i).
Definition set_v4 (ip mask gw : list Z) (i : iface) : iface :=
  mk_iface ip mask gw (NET_MAC i) (NET_UP i) (USE_E1000 i) (NET_IP6 i) (NET_GW6 i) (NET_IP6G i) (NET_IP6_UP i).
(** The card found by [net::init], and the link-local address made from its own. *)
Definition set_card (mac : list Z) (e1000 : bool) (ip6 : list Z) (i : iface) : iface :=
  mk_iface (NET_IP i) (NET_MASK i) (NET_GW i) mac true e1000 ip6 (NET_GW6 i) (NET_IP6G i) (NET_IP6_UP i).
Definition set_global (ip : list Z) (i : iface) : iface :=
  mk_iface (NET_IP i) (NET_MASK i) (NET_GW i) (NET_MAC i) (NET_UP i) (USE_E1000 i) (NET_IP6 i) (NET_GW6 i) ip true.
Definition set_d_state (x : DhcpState) (d : DhcpClient) : DhcpClient :=
  mk_dhcp x (xid d) (offered_ip d) (server_ip d) (lease_secs d) (t1_secs d) (bound_tick d) (retry_count d)
    (next_action_tick d).
Definition set_xid (x : Z) (d : DhcpClient) : DhcpClient :=
  mk_dhcp (d_state d) x (offered_ip d) (server_ip d) (lease_secs d) (t1_secs d) (bound_tick d) (retry_count d)
    (next_action_tick d).
Definition set_offered_ip (x : list Z) (d : DhcpClient) : DhcpClient :=
  mk_dhcp (d_state d) (xid d) x (server_ip d) (lease_secs d) (t1_secs d) (bound_tick d) (retry_count d)
    (next_action_tick d).
Definition set_server_ip (x : list Z) (d : DhcpClient) : DhcpClient :=
  mk_dhcp (d_state d) (xid d) (offered_ip d) x (lease_secs d) (t1_secs d) (bound_tick d) (retry_count d)
    (next_action_tick d).
Definition set_lease_secs (x : Z) (d : DhcpClient) : DhcpClient :=
  mk_dhcp (d_state d) (xid d) (offered_ip d) (server_ip d) x (t1_secs d) (bound_tick d) (retry_count d)
    (next_action_tick d).
Definition set_t1_secs (x : Z) (d : DhcpClient) : DhcpClient :=
  mk_dhcp (d_state d) (xid d) (offered_ip d) (server_ip d) (lease_secs d) x (bound_tick d) (retry_count d)
    (next_action_tick d).
Definition set_bound_tick (x : Z) (d : DhcpClient) : DhcpClient :=
  mk_dhcp (d_state d) (xid d) (offered_ip d) (server_ip d) (lease_secs d) (t1_secs d) x (retry_count d)
    (next_action_tick d).
Definition set_retry_count (x : Z) (d : DhcpClient) : DhcpClient :=
  mk_dhcp (d_state d) (xid d) (offered_ip d) (server_ip d) (lease_secs d) (t1_secs d) (bound_tick d) x
    (next_action_tick d).
Definition set_next_action_tick (x : Z) (d : DhcpClient) : DhcpClient :=
  mk_dhcp (d_state d) (xid d) (offered_ip d) (server_ip d) (lease_secs d) (t1_secs d) (bound_tick d)
    (retry_count d) x.
Definition put_state (x : TcpState) (c : TcpConn) : TcpConn :=
  mk_conn x (remote_ip c) (remote_port c) (local_port c) (snd_nxt c) (snd_una c) (snd_cur c) (rcv_nxt c) (snd_wnd c)
    (mss c) (retx_ticks c) (retx_count c) (retx_backoff c) (state_tick c) (cwnd c) (ssthresh c) (dup_acks c)
    (last_ack_rcvd c) (persist_ticks c) (persist_arm c) (is_server c) (accept_port c) (rx c) (tx c).
Definition put_remote_ip (x : IpAddr) (c : TcpConn) : TcpConn :=
  mk_conn (state c) x (remote_port c) (local_port c) (snd_nxt c) (snd_una c) (snd_cur c) (rcv_nxt c) (snd_wnd c)
    (mss c) (retx_ticks c) (retx_count c) (retx_backoff c) (state_tick c) (cwnd c) (ssthresh c) (dup_acks c)
    (last_ack_rcvd c) (persist_ticks c) (persist_arm c) (is_server c) (accept_port c) (rx c) (tx c).
Definition put_remote_port (x : Z) (c : TcpConn) : TcpConn :=
  mk_conn (state c) (remote_ip c) x (local_port c) (snd_nxt c) (snd_una c) (snd_cur c) (rcv_nxt c) (snd_wnd c)
    (mss c) (retx_ticks c) (retx_count c) (retx_backoff c) (state_tick c) (cwnd c) (ssthresh c) (dup_acks c)
    (last_ack_rcvd c) (persist_ticks c) (persist_arm c) (is_server c) (accept_port c) (rx c) (tx c).
Definition put_local_port (x : Z) (c : TcpConn) : TcpConn :=
  mk_conn (state c) (remote_ip c) (remote_port c) x (snd_nxt c) (snd_una c) (snd_cur c) (rcv_nxt c) (snd_wnd c)
    (mss c) (retx_ticks c) (retx_count c) (retx_backoff c) (state_tick c) (cwnd c) (ssthresh c) (dup_acks c)
    (last_ack_rcvd c) (persist_ticks c) (persist_arm c) (is_server c) (accept_port c) (rx c) (tx c).
Definition put_snd_nxt (x : Z) (c : TcpConn) : TcpConn :=
  mk_conn (state c) (remote_ip c) (remote_port c) (local_port c) x (snd_una c) (snd_cur c) (rcv_nxt c) (snd_wnd c)
    (mss c) (retx_ticks c) (retx_count c) (retx_backoff c) (state_tick c) (cwnd c) (ssthresh c) (dup_acks c)
    (last_ack_rcvd c) (persist_ticks c) (persist_arm c) (is_server c) (accept_port c) (rx c) (tx c).
Definition put_snd_una (x : Z) (c : TcpConn) : TcpConn :=
  mk_conn (state c) (remote_ip c) (remote_port c) (local_port c) (snd_nxt c) x (snd_cur c) (rcv_nxt c) (snd_wnd c)
    (mss c) (retx_ticks c) (retx_count c) (retx_backoff c) (state_tick c) (cwnd c) (ssthresh c) (dup_acks c)
    (last_ack_rcvd c) (persist_ticks c) (persist_arm c) (is_server c) (accept_port c) (rx c) (tx c).
Definition put_snd_cur (x : nat) (c : TcpConn) : TcpConn :=
  mk_conn (state c) (remote_ip c) (remote_port c) (local_port c) (snd_nxt c) (snd_una c) x (rcv_nxt c) (snd_wnd c)
    (mss c) (retx_ticks c) (retx_count c) (retx_backoff c) (state_tick c) (cwnd c) (ssthresh c) (dup_acks c)
    (last_ack_rcvd c) (persist_ticks c) (persist_arm c) (is_server c) (accept_port c) (rx c) (tx c).
Definition put_rcv_nxt (x : Z) (c : TcpConn) : TcpConn :=
  mk_conn (state c) (remote_ip c) (remote_port c) (local_port c) (snd_nxt c) (snd_una c) (snd_cur c) x (snd_wnd c)
    (mss c) (retx_ticks c) (retx_count c) (retx_backoff c) (state_tick c) (cwnd c) (ssthresh c) (dup_acks c)
    (last_ack_rcvd c) (persist_ticks c) (persist_arm c) (is_server c) (accept_port c) (rx c) (tx c).
Definition put_snd_wnd (x : Z) (c : TcpConn) : TcpConn :=
  mk_conn (state c) (remote_ip c) (remote_port c) (local_port c) (snd_nxt c) (snd_una c) (snd_cur c) (rcv_nxt c) x
    (mss c) (retx_ticks c) (retx_count c) (retx_backoff c) (state_tick c) (cwnd c) (ssthresh c) (dup_acks c)
    (last_ack_rcvd c) (persist_ticks c) (persist_arm c) (is_server c) (accept_port c) (rx c) (tx c).
Definition put_mss (x : Z) (c : TcpConn) : TcpConn :=
  mk_conn (state c) (remote_ip c) (remote_port c) (local_port c) (snd_nxt c) (snd_una c) (snd_cur c) (rcv_nxt c)
    (snd_wnd c) x (retx_ticks c) (retx_count c) (retx_backoff c) (state_tick c) (cwnd c) (ssthresh c) (dup_acks c)
    (last_ack_rcvd c) (persist_ticks c) (persist_arm c) (is_server c) (accept_port c) (rx c) (tx c).
Definition put_retx_ticks (x : Z) (c : TcpConn) : TcpConn :=
  mk_conn (state c) (remote_ip c) (remote_port c) (local_port c) (snd_nxt c) (snd_una c) (snd_cur c) (rcv_nxt c)
    (snd_wnd c) (mss c) x (retx_count c) (retx_backoff c) (state_tick c) (cwnd c) (ssthresh c) (dup_acks c)
    (last_ack_rcvd c) (persist_ticks c) (persist_arm c) (is_server c) (accept_port c) (rx c) (tx c).
Definition put_retx_count (x : Z) (c : TcpConn) : TcpConn :=
  mk_conn (state c) (remote_ip c) (remote_port c) (local_port c) (snd_nxt c) (snd_una c) (snd_cur c) (rcv_nxt c)
    (snd_wnd c) (mss c) (retx_ticks c) x (retx_backoff c) (state_tick c) (cwnd c) (ssthresh c) (dup_acks c)
    (last_ack_rcvd c) (persist_ticks c) (persist_arm c) (is_server c) (accept_port c) (rx c) (tx c).
Definition put_retx_backoff (x : Z) (c : TcpConn) : TcpConn :=
  mk_conn (state c) (remote_ip c) (remote_port c) (local_port c) (snd_nxt c) (snd_una c) (snd_cur c) (rcv_nxt c)
    (snd_wnd c) (mss c) (retx_ticks c) (retx_count c) x (state_tick c) (cwnd c) (ssthresh c) (dup_acks c)
    (last_ack_rcvd c) (persist_ticks c) (persist_arm c) (is_server c) (accept_port c) (rx c) (tx c).
Definition put_state_tick (x : Z) (c : TcpConn) : TcpConn :=
  mk_conn (state c) (remote_ip c) (remote_port c) (local_port c) (snd_nxt c) (snd_una c) (snd_cur c) (rcv_nxt c)
    (snd_wnd c) (mss c) (retx_ticks c) (retx_count c) (retx_backoff c) x (cwnd c) (ssthresh c) (dup_acks c)
    (last_ack_rcvd c) (persist_ticks c) (persist_arm c) (is_server c) (accept_port c) (rx c) (tx c).
Definition put_cwnd (x : Z) (c : TcpConn) : TcpConn :=
  mk_conn (state c) (remote_ip c) (remote_port c) (local_port c) (snd_nxt c) (snd_una c) (snd_cur c) (rcv_nxt c)
    (snd_wnd c) (mss c) (retx_ticks c) (retx_count c) (retx_backoff c) (state_tick c) x (ssthresh c) (dup_acks c)
    (last_ack_rcvd c) (persist_ticks c) (persist_arm c) (is_server c) (accept_port c) (rx c) (tx c).
Definition put_ssthresh (x : Z) (c : TcpConn) : TcpConn :=
  mk_conn (state c) (remote_ip c) (remote_port c) (local_port c) (snd_nxt c) (snd_una c) (snd_cur c) (rcv_nxt c)
    (snd_wnd c) (mss c) (retx_ticks c) (retx_count c) (retx_backoff c) (state_tick c) (cwnd c) x (dup_acks c)
    (last_ack_rcvd c) (persist_ticks c) (persist_arm c) (is_server c) (accept_port c) (rx c) (tx c).
Definition put_dup_acks (x : Z) (c : TcpConn) : TcpConn :=
  mk_conn (state c) (remote_ip c) (remote_port c) (local_port c) (snd_nxt c) (snd_una c) (snd_cur c) (rcv_nxt c)
    (snd_wnd c) (mss c) (retx_ticks c) (retx_count c) (retx_backoff c) (state_tick c) (cwnd c) (ssthresh c) x
    (last_ack_rcvd c) (persist_ticks c) (persist_arm c) (is_server c) (accept_port c) (rx c) (tx c).
Definition put_last_ack_rcvd (x : Z) (c : TcpConn) : TcpConn :=
  mk_conn (state c) (remote_ip c) (remote_port c) (local_port c) (snd_nxt c) (snd_una c) (snd_cur c) (rcv_nxt c)
    (snd_wnd c) (mss c) (retx_ticks c) (retx_count c) (retx_backoff c) (state_tick c) (cwnd c) (ssthresh c)
    (dup_acks c) x (persist_ticks c) (persist_arm c) (is_server c) (accept_port c) (rx c) (tx c).
Definition put_persist_ticks (x : Z) (c : TcpConn) : TcpConn :=
  mk_conn (state c) (remote_ip c) (remote_port c) (local_port c) (snd_nxt c) (snd_una c) (snd_cur c) (rcv_nxt c)
    (snd_wnd c) (mss c) (retx_ticks c) (retx_count c) (retx_backoff c) (state_tick c) (cwnd c) (ssthresh c)
    (dup_acks c) (last_ack_rcvd c) x (persist_arm c) (is_server c) (accept_port c) (rx c) (tx c).
Definition put_persist_arm (x : bool) (c : TcpConn) : TcpConn :=
  mk_conn (state c) (remote_ip c) (remote_port c) (local_port c) (snd_nxt c) (snd_una c) (snd_cur c) (rcv_nxt c)
    (snd_wnd c) (mss c) (retx_ticks c) (retx_count c) (retx_backoff c) (state_tick c) (cwnd c) (ssthresh c)
    (dup_acks c) (last_ack_rcvd c) (persist_ticks c) x (is_server c) (accept_port c) (rx c) (tx c).
Definition put_is_server (x : bool) (c : TcpConn) : TcpConn :=
  mk_conn (state c) (remote_ip c) (remote_port c) (local_port c) (snd_nxt c) (snd_una c) (snd_cur c) (rcv_nxt c)
    (snd_wnd c) (mss c) (retx_ticks c) (retx_count c) (retx_backoff c) (state_tick c) (cwnd c) (ssthresh c)
    (dup_acks c) (last_ack_rcvd c) (persist_ticks c) (persist_arm c) x (accept_port c) (rx c) (tx c).
Definition put_accept_port (x : Z) (c : TcpConn) : TcpConn :=
  mk_conn (state c) (remote_ip c) (remote_port c) (local_port c) (snd_nxt c) (snd_una c) (snd_cur c) (rcv_nxt c)
    (snd_wnd c) (mss c) (retx_ticks c) (retx_count c) (retx_backoff c) (state_tick c) (cwnd c) (ssthresh c)
    (dup_acks c) (last_ack_rcvd c) (persist_ticks c) (persist_arm c) (is_server c) x (rx c) (tx c).
Definition put_rx (x : option RingBuf) (c : TcpConn) : TcpConn :=
  mk_conn (state c) (remote_ip c) (remote_port c) (local_port c) (snd_nxt c) (snd_una c) (snd_cur c) (rcv_nxt c)
    (snd_wnd c) (mss c) (retx_ticks c) (retx_count c) (retx_backoff c) (state_tick c) (cwnd c) (ssthresh c)
    (dup_acks c) (last_ack_rcvd c) (persist_ticks c) (persist_arm c) (is_server c) (accept_port c) x (tx c).
Definition put_tx (x : option RingBuf) (c : TcpConn) : TcpConn :=
  mk_conn (state c) (remote_ip c) (remote_port c) (local_port c) (snd_nxt c) (snd_una c) (snd_cur c) (rcv_nxt c)
    (snd_wnd c) (mss c) (retx_ticks c) (retx_count c) (retx_backoff c) (state_tick c) (cwnd c) (ssthresh c)
    (dup_acks c) (last_ack_rcvd c) (persist_ticks c) (persist_arm c) (is_server c) (accept_port c) (rx c) x.

Section Setters.
Context {D : Type}.
Definition with_ifc (x : iface) (s : net D) : net D :=
  mk_netst x (TX_BUF s) (arp s) (HANDLERS s) (ping s) (ndp s) (CLIENT s) (dns s) (tcp s) (host s).
Definition with_TX_BUF (x : list Z) (s : net D) : net D :=
  mk_netst (ifc s) x (arp s) (HANDLERS s) (ping s) (ndp s) (CLIENT s) (dns s) (tcp s) (host s).
Definition with_arp (x : arp_state) (s : net D) : net D :=
  mk_netst (ifc s) (TX_BUF s) x (HANDLERS s) (ping s) (ndp s) (CLIENT s) (dns s) (tcp s) (host s).
Definition with_HANDLERS (x : list UdpHandler) (s : net D) : net D :=
  mk_netst (ifc s) (TX_BUF s) (arp s) x (ping s) (ndp s) (CLIENT s) (dns s) (tcp s) (host s).
Definition with_ping (x : ping_state) (s : net D) : net D :=
  mk_netst (ifc s) (TX_BUF s) (arp s) (HANDLERS s) x (ndp s) (CLIENT s) (dns s) (tcp s) (host s).
Definition with_ndp (x : ndp_state) (s : net D) : net D :=
  mk_netst (ifc s) (TX_BUF s) (arp s) (HANDLERS s) (ping s) x (CLIENT s) (dns s) (tcp s) (host s).
Definition with_CLIENT (x : DhcpClient) (s : net D) : net D :=
  mk_netst (ifc s) (TX_BUF s) (arp s) (HANDLERS s) (ping s) (ndp s) x (dns s) (tcp s) (host s).
Definition with_dns (x : dns_state) (s : net D) : net D :=
  mk_netst (ifc s) (TX_BUF s) (arp s) (HANDLERS s) (ping s) (ndp s) (CLIENT s) x (tcp s) (host s).
Definition with_tcp (x : tcp_state_t) (s : net D) : net D :=
  mk_netst (ifc s) (TX_BUF s) (arp s) (HANDLERS s) (ping s) (ndp s) (CLIENT s) (dns s) x (host s).
Definition with_host (x : D) (s : net D) : net D :=
  mk_netst (ifc s) (TX_BUF s) (arp s) (HANDLERS s) (ping s) (ndp s) (CLIENT s) (dns s) (tcp s) x.
End Setters.

(** ** Computations *)

Definition N (D A : Type) : Type := net D -> fout (A * net D).
#[export] Instance N_ret D : MRet (N D) := fun A a s => Got (a, s).
#[export] Instance N_bind D : MBind (N D) := fun A B f m s =>
  match m s with Got (a, s') => f a s' | Crashed => Crashed | Stuck => Stuck end.

Section Ops.
Context {D : Type} `{!NetHost D}.

Definition crash_n {A} : N D A := fun _ => Crashed.
Definition stuck_n {A} : N D A := fun _ => Stuck.
Definition getn {A} (f : net D -> A) : N D A := fun s => Got (f s, s).
Definition modn (f : net D -> net D) : N D unit := fun s => Got (tt, f s).

(** [tick_count() as u32], [physical_timer_count()]. *)
Definition now : N D Z := fun s => let '(t, d) := ticks (host s) in Got (as_u32 t, with_host d s).
Definition counter : N D Z := fun s => let '(t, d) := timer_count (host s) in Got (as_u64 t, with_host d s).

(** [l[i]] and [&l[a..b]]. *)
Definition idx (l : list Z) (i : nat) : N D Z := match l !! i with Some b => mret b | None => crash_n end.
Definition sub (l : list Z) (a b : nat) : N D (list Z) :=
  if (a <=? b)%nat && (b <=? length l)%nat then mret (take (b - a) (drop a l)) else crash_n.

End Ops.

(** [from_be_bytes] and the bytes of a big-endian field. *)
Definition be_bytes (l : list Z) : Z := le_bytes (reverse l).
Definition to_be_bytes (n : nat) (v : Z) : list Z := reverse (to_le_bytes n v).

Section Fields.
Context {D : Type} `{!NetHost D}.

Definition be16 (l : list Z) (i : nat) : N D Z := b ← sub l i (i + 2); mret (be_bytes b).
Definition be32 (l : list Z) (i : nat) : N D Z := b ← sub l i (i + 4); mret (be_bytes b).

(** ** Transmission *)

(** [tb[off..off + len].copy_from_slice(data)] *)
Definition tb_put (off : nat) (data : list Z) : N D unit := fun s =>
  if (off + length data <=? length (TX_BUF s))%nat then Got (tt, with_TX_BUF (splice off data (TX_BUF s)) s) else Crashed.

Fixpoint tb_puts (l : list (nat * list Z)) : N D unit :=
  match l with
  | [] => mret tt
  | (off, data) :: l' => tb_put off data;; tb_puts l'
  end.

Definition net_send_frame (data : list Z) : N D bool := fun s =>
  let '(ok, d) := nic_send (USE_E1000 (ifc s)) data (host s) in Got (ok, with_host d s).

(** [net_send_frame(&tb[..total])] *)
Definition tb_send (total : nat) : N D bool :=
  tb ← getn TX_BUF;
  f ← sub tb 0 total;
  net_send_frame f.

End Fields.

(** ** Checksums *)

(** The loop over the words, and the odd byte after it. *)
Fixpoint sum_words (sum : Z) (l : list Z) : Z :=
  match l with
  | a :: b :: l' => sum_words (as_u32 (sum + be_bytes [a; b])) l'
  | [a] => as_u32 (sum + Z.shiftl a 8)
  | [] => sum
  end.

(** [while sum >> 16 != 0]; a [u32] needs two rounds. *)
Fixpoint fold_carry (rounds : nat) (sum : Z) : Z :=
  match rounds with
  | O => sum
  | S r => if Z.shiftr sum 16 =? 0 then sum else fold_carry r (Z.land sum 0xFFFF + Z.shiftr sum 16)
  end.

(** [!(sum as u16)] *)
Definition complement (sum : Z) : Z := 0xFFFF - as_u16 (fold_carry 3 sum).

Definition ones_complement_sum (data : list Z) (initial : Z) : Z := complement (sum_words initial data).
Definition ip_checksum (data : list Z) : Z := complement (sum_words 0 data).

(** The words of the two addresses, alternating. *)
Fixpoint sum_pairs (sum : Z) (src dst : list Z) : Z :=
  match src, dst with
  | a :: b :: src', c :: d :: dst' => sum_pairs (as_u32 (as_u32 (sum + be_bytes [a; b]) + be_bytes [c; d])) src' dst'
  | _, _ => sum
  end.

Definition ipv6_upper_checksum (src dst : list Z) (next_header : Z) (data : list Z) : Z :=
  let len := as_u32 (Z.of_nat (length data)) in
  let sum := sum_pairs 0 src dst in
  let sum := as_u32 (sum + Z.land (Z.shiftr len 16) 0xFFFF) in
  let sum := as_u32 (sum + Z.land len 0xFFFF) in
  ones_complement_sum data (as_u32 (sum + next_header)).

Definition tcp_checksum (src_ip dst_ip tcp_data : list Z) : Z :=
  let sum := as_u32 (sum_pairs 0 src_ip dst_ip + 6) in
  complement (sum_words (as_u32 (sum + as_u32 (Z.of_nat (length tcp_data)))) tcp_data).

(** ** Addresses *)

Definition mac_to_link_local (mac : list Z) : list Z :=
  let m i := nth i mac 0 in
  [0xFE; 0x80; 0; 0; 0; 0; 0; 0; Z.lxor (m 0%nat) 0x02; m 1%nat; m 2%nat; 0xFF; 0xFE; m 3%nat; m 4%nat; m 5%nat].

(** The assignments in the order of the code, twice the same. *)
Definition solicited_node_mc (addr : list Z) : list Z :=
  let set mc := foldl (fun l '(i, b) => <[i := b]> l) mc
    [(0%nat, 0xFF); (1%nat, 0x02); (11%nat, 0x00); (12%nat, 0x01); (13%nat, 0xFF);
     (13%nat, nth 13 addr 0); (14%nat, nth 14 addr 0); (15%nat, nth 15 addr 0)] in
  set (set zero16).

Definition mc_ipv6_to_mac (mc : list Z) : list Z :=
  [0x33; 0x33; nth 12 mc 0; nth 13 mc 0; nth 14 mc 0; nth 15 mc 0].

(** ** Initial values *)

Abbreviation MSS_DEFAULT := 1460 (only parsing).
Abbreviation CWND_INIT := 2920 (only parsing).
Abbreviation SSTHRESH_INIT := 65536 (only parsing).
Abbreviation MAX_CONNS := 16%nat (only parsing).

Definition zeroed : TcpConn :=
  mk_conn Free (V4 zero4) 0 0 0 0 0 0 8192 MSS_DEFAULT 0 0 1 0 CWND_INIT SSTHRESH_INIT 0 0 0 false false 0 None None.

(** The statics before [net::init]. *)
Definition net0 {D} (d : D) : net D :=
  mk_netst (mk_iface zero4 zero4 zero4 (replicate 6 0) false false zero16 zero16 zero16 false) (replicate 2048 0)
    (mk_arps (replicate 16 (mk_arp zero4 (replicate 6 0) false)) 0 (replicate 4 (mk_arpp zero4 0 0 false)))
    (replicate 16 (mk_udp 0 handler_none false)) (mk_ping None None)
    (mk_ndps (replicate 16 (mk_ndp zero16 (replicate 6 0) false)) (replicate 4 (mk_ndpp zero16 0 0 false)))
    (mk_dhcp Idle 0 zero4 zero4 3600 1800 0 0 0)
    (mk_dnss (replicate 16 (mk_dnse (replicate 64 0) 0 (V4 zero4) 0)) 0 0 None)
    (mk_tcps (replicate MAX_CONNS zeroed) 49152) d.
