(* ===== verification/NetLink.v ===== *)
(** * ARP, UDP, ICMP, NDP and ICMPv6 (kernel/src/net/arp.rs, udp.rs, icmp.rs, ndp.rs, icmpv6.rs)

    The operations that do not wait for the network; the ones that do are in [Net]. *)

From stdpp Require Import base numbers list.
From Stdlib Require Import ZArith Lia Bool.
From S2P Require Import Prelude Sector NetState.

Section Link.
Context {D : Type} `{!NetHost D}.

Local Abbreviation M := (N D).

Definition broadcast_mac : list Z := replicate 6 0xFF.
Definition broadcast_ip : list Z := replicate 4 255.

(** ** ARP *)

Definition arp_learn (ip mac : list Z) : M unit :=
  a ← getn arp;
  match list_find (fun e => a_valid e = true /\ a_ip e = ip) (ARP_TABLE a) with
  | Some (i, e) => modn (with_arp (mk_arps (<[i := mk_arp ip mac true]> (ARP_TABLE a)) (ARP_CURSOR a) (ARP_PENDING a)))
  | None =>
      let i := Z.to_nat (ARP_CURSOR a mod 16) in
      modn (with_arp (mk_arps (<[i := mk_arp ip mac true]> (ARP_TABLE a)) (ARP_CURSOR a +u 1) (ARP_PENDING a)))
  end.

Definition arp_find (ip : list Z) (l : list ArpEntry) : option (list Z) :=
  (fun x => a_mac x.2) <$> list_find (fun e => a_valid e = true /\ a_ip e = ip) l.
Definition arp_lookup (ip : list Z) : M (option (list Z)) := getn (fun s => arp_find ip (ARP_TABLE (arp s))).

(** The packets of the three senders differ in operation, target and destination. *)
Definition arp_packet (dst_mac : list Z) (oper : Z) (target_mac target_ip : list Z) : M unit :=
  i ← getn ifc;
  tb_puts [(0%nat, dst_mac); (6%nat, NET_MAC i); (12%nat, [0x08; 0x06]); (14%nat, [0x00; 0x01]); (16%nat, [0x08; 0x00]);
           (18%nat, [6; 4]); (20%nat, [0x00; oper]); (22%nat, NET_MAC i); (28%nat, NET_IP i);
           (32%nat, target_mac); (38%nat, target_ip)];;
  _ ← tb_send 42; mret tt.

Definition send_arp_request (target_ip : list Z) : M unit := arp_packet broadcast_mac 1 (replicate 6 0) target_ip.
Definition send_arp_reply (target_ip target_mac : list Z) : M unit := arp_packet target_mac 2 target_mac target_ip.
Definition arp_announce : M unit := i ← getn ifc; arp_packet broadcast_mac 1 (replicate 6 0) (NET_IP i).

Definition handle_arp (payload : list Z) : M unit :=
  if (length payload <? 28)%nat then mret tt
  else
    htype ← be16 payload 0;
    ptype ← be16 payload 2;
    oper ← be16 payload 6;
    if negb (htype =? 1) || negb (ptype =? 0x0800) then mret tt
    else
      sender_mac ← sub payload 8 14;
      sender_ip ← sub payload 14 18;
      target_ip ← sub payload 24 28;
      arp_learn sender_ip sender_mac;;
      i ← getn ifc;
      if (oper =? 1) && bool_decide (target_ip = NET_IP i) then send_arp_reply sender_ip sender_mac else mret tt.

(** The address to look up: the destination's, or the gateway's outside our network. *)
Definition same_net (mask a b : list Z) : bool :=
  forallb (fun i => Z.land (nth i a 0) (nth i mask 0) =? Z.land (nth i b 0) (nth i mask 0)) (seq 0 4).
Definition next_hop (i : iface) (dst_ip : list Z) : list Z :=
  if same_net (NET_MASK i) dst_ip (NET_IP i) || bool_decide (NET_IP i = zero4) then dst_ip else NET_GW i.

Definition resolve_mac_nonblocking (dst_ip : list Z) : M (list Z) :=
  if bool_decide (dst_ip = broadcast_ip) then mret broadcast_mac
  else
    i ← getn ifc;
    m ← arp_lookup (next_hop i dst_ip);
    match m with
    | Some m => mret m
    | None => send_arp_request (next_hop i dst_ip);; mret broadcast_mac
    end.

(** One entry of the loop of [arp_tick]. *)
Definition arp_retry (t : Z) (p : ArpPending) : M ArpPending :=
  if negb (ap_valid p) then mret p
  else if t <? ap_next_retry p then mret p
  else
    let done := mk_arpp (ap_ip p) (ap_retry_count p) (ap_next_retry p) false in
    if 3 <=? ap_retry_count p then mret done
    else
      m ← arp_lookup (ap_ip p);
      match m with
      | Some _ => mret done
      | None =>
          send_arp_request (ap_ip p);;
          mret (mk_arpp (ap_ip p) (as_u8 (ap_retry_count p + 1)) (as_u32 (t + 10)) true)
      end.

Definition arp_tick : M unit :=
  t ← now;
  a ← getn arp;
  l ← mapM (arp_retry t) (ARP_PENDING a);
  modn (fun s => with_arp (mk_arps (ARP_TABLE (arp s)) (ARP_CURSOR (arp s)) l) s).

(** ** UDP *)

Definition udp_register (port : Z) (h : Handler) : M bool :=
  l ← getn HANDLERS;
  match list_find (fun e => u_valid e = true /\ u_port e = port) l with
  | Some (i, _) => modn (with_HANDLERS (<[i := mk_udp port h true]> l));; mret true
  | None =>
      match list_find (fun e => u_valid e = false) l with
      | Some (i, _) => modn (with_HANDLERS (<[i := mk_udp port h true]> l));; mret true
      | None => mret false
      end
  end.

Definition udp_unregister (port : Z) : M unit :=
  modn (fun s => with_HANDLERS ((fun e =>
    if u_valid e && (u_port e =? port) then mk_udp (u_port e) (u_handler e) false else e) <$> HANDLERS s) s).

(** The Ethernet and IPv4 headers of a frame with [len] bytes after them. *)
Definition put_ipv4 (dst_mac ident : list Z) (proto : Z) (len : nat) (dst_ip : list Z) : M unit :=
  i ← getn ifc;
  tb_puts [(0%nat, dst_mac); (6%nat, NET_MAC i); (12%nat, [0x08; 0x00]); (14%nat, [0x45; 0x00]);
           (16%nat, to_be_bytes 2 (Z.of_nat (20 + len))); (18%nat, ident); (20%nat, [0x40; 0x00]); (22%nat, [64; proto]);
           (24%nat, [0; 0]); (26%nat, NET_IP i); (30%nat, dst_ip)];;
  tb ← getn TX_BUF;
  h ← sub tb 14 34;
  tb_put 24 (to_be_bytes 2 (ip_checksum h)).

Definition udp_send (dst_ip : list Z) (dst_port src_port : Z) (data : list Z) : M bool :=
  i ← getn ifc;
  if negb (NET_UP i) then mret false
  else if (2048 <? 14 + 20 + 8 + length data)%nat then mret false
  else
    dst_mac ← resolve_mac_nonblocking dst_ip;
    put_ipv4 dst_mac [0x00; 0x01] 17 (8 + length data) dst_ip;;
    tb_puts [(34%nat, to_be_bytes 2 src_port); (36%nat, to_be_bytes 2 dst_port);
             (38%nat, to_be_bytes 2 (Z.of_nat (8 + length data))); (40%nat, [0; 0]); (42%nat, data)];;
    tb_send (14 + 20 + 8 + length data).

(** ** ICMP *)

Definition send_icmp_echo_reply (dst_mac dst_ip icmp_req : list Z) : M unit :=
  let data_len := length icmp_req in
  if (2048 <? 14 + (20 + data_len))%nat then mret tt
  else
    dst_mac ← sub dst_mac 0 6;
    put_ipv4 dst_mac [0; 0] 1 data_len dst_ip;;
    tb_puts [(34%nat, icmp_req); (34%nat, [0; 0]); (36%nat, [0; 0])];;
    tb ← getn TX_BUF;
    body ← sub tb 34 (34 + data_len);
    tb_put 36 (to_be_bytes 2 (ip_checksum body));;
    _ ← tb_send (14 + (20 + data_len)); mret tt.

Definition handle_icmp (src_mac src_ip payload : list Z) : M unit :=
  if (length payload <? 8)%nat then mret tt
  else
    t ← idx payload 0;
    if t =? 8 then send_icmp_echo_reply src_mac src_ip payload
    else if t =? 0 then c ← counter; modn (fun s => with_ping (mk_ping (Some c) (PING6_REPLY (ping s))) s)
    else mret tt.

(** ** NDP *)

Definition ndp_learn (ip mac : list Z) : M unit :=
  if bool_decide (ip = zero16) then mret tt
  else
    n ← getn ndp;
    let l := NDP_CACHE n in
    let put i := modn (with_ndp (mk_ndps (<[i := mk_ndp ip mac true]> l) (NDP_PENDING n))) in
    match list_find (fun e => n_valid e = true /\ n_ip e = ip) l with
    | Some (i, _) => put i
    | None => match list_find (fun e => n_valid e = false) l with Some (i, _) => put i | None => put 0%nat end
    end.

Definition ndp_find (ip : list Z) (l : list NdpEntry) : option (list Z) :=
  (fun x => n_mac x.2) <$> list_find (fun e => n_valid e = true /\ n_ip e = ip) l.
Definition ndp_lookup (ip : list Z) : M (option (list Z)) := getn (fun s => ndp_find ip (NDP_CACHE (ndp s))).

(** The Ethernet and IPv6 headers; the payload is put after them. *)
Definition put_ipv6 (dst_mac : list Z) (len : nat) (next hops : Z) (src dst : list Z) : M unit :=
  i ← getn ifc;
  tb_puts [(0%nat, dst_mac); (6%nat, NET_MAC i); (12%nat, [0x86; 0xDD]); (14%nat, [0x60; 0; 0; 0]);
           (18%nat, to_be_bytes 2 (Z.of_nat len)); (20%nat, [next; hops]); (22%nat, src); (38%nat, dst)].

Definition build_and_send_v6 (src_ip dst_ip dst_mac body : list Z) : M unit :=
  if (2048 <? 14 + 40 + length body)%nat then mret tt
  else
    put_ipv6 dst_mac (length body) 58 255 src_ip dst_ip;;
    tb_put 54 body;;
    _ ← tb_send (14 + 40 + length body); mret tt.

(** A body with its checksum in bytes 2 and 3, which are zero before. *)
Definition with_checksum (src dst body : list Z) : list Z :=
  splice 2 (to_be_bytes 2 (ipv6_upper_checksum src dst 58 body)) body.

(** [let mut body = [0u8; n]; body[off..].copy_from_slice(..)] *)
Definition body_of (n : nat) (l : list (nat * list Z)) : list Z :=
  foldl (fun b '(off, data) => splice off data b) (replicate n 0) l.

Definition all_routers : list Z := [0xFF; 0x02; 0; 0; 0; 0; 0; 0; 0; 0; 0; 0; 0; 0; 0; 2].

Definition send_rs : M unit :=
  i ← getn ifc;
  if bool_decide (NET_IP6 i = zero16) then mret tt
  else
    let body := body_of 16 [(0%nat, [133]); (8%nat, [1; 1]); (10%nat, NET_MAC i)] in
    build_and_send_v6 (NET_IP6 i) all_routers [0x33; 0x33; 0; 0; 0; 0x02] (with_checksum (NET_IP6 i) all_routers body).

Definition ns_body (target my_mac : list Z) : list Z :=
  body_of 32 [(0%nat, [135]); (4%nat, target); (20%nat, [1; 1]); (22%nat, my_mac)].

Definition send_ns (target : list Z) : M unit :=
  i ← getn ifc;
  if bool_decide (NET_IP6 i = zero16) then mret tt
  else
    let sn_mc := solicited_node_mc target in
    build_and_send_v6 (NET_IP6 i) sn_mc (mc_ipv6_to_mac sn_mc)
      (with_checksum (NET_IP6 i) sn_mc (ns_body target (NET_MAC i))).

Definition na_body (target my_mac : list Z) : list Z :=
  body_of 32 [(0%nat, [136]); (4%nat, [0x60]); (8%nat, target); (24%nat, [2; 1]); (26%nat, my_mac)].

Definition send_na (dst_ip dst_mac my_target : list Z) : M unit :=
  i ← getn ifc;
  build_and_send_v6 (NET_IP6 i) dst_ip dst_mac (with_checksum (NET_IP6 i) dst_ip (na_body my_target (NET_MAC i))).

(** The loop over the options: one round per option, and an option has eight bytes. *)
Fixpoint option_tll (rounds : nat) (opts : list Z) (i : nat) : M (option (list Z)) :=
  match rounds with
  | O => stuck_n
  | S r =>
      if (i + 2 <=? length opts)%nat then
        opt_type ← idx opts i;
        l ← idx opts (i + 1);
        let opt_len := (Z.to_nat l * 8)%nat in
        if (opt_len =? 0)%nat || (length opts <? i + opt_len)%nat then mret None
        else if (opt_type =? 2) && (8 <=? opt_len)%nat then m ← sub opts (i + 2) (i + 8); mret (Some m)
        else option_tll r opts (i + opt_len)
      else mret None
  end.
Definition parse_option_tll (opts : list Z) : M (option (list Z)) := option_tll (S (length opts)) opts 0.

Definition handle_na (data : list Z) : M unit :=
  if (length data <? 20)%nat then mret tt
  else
    target ← sub data 4 20;
    opts ← sub data 20 (length data);
    mac ← parse_option_tll opts;
    match mac with Some m => ndp_learn target m | None => mret tt end.

Definition handle_ns (src_ip src_mac data : list Z) : M unit :=
  if (length data <? 20)%nat then mret tt
  else
    target ← sub data 4 20;
    i ← getn ifc;
    if negb (bool_decide (target = NET_IP6 i)) && negb (bool_decide (target = NET_IP6G i)) then mret tt
    else ndp_learn src_ip src_mac;; send_na src_ip src_mac target.

(** One option of a router advertisement: an autonomous on-link /64 prefix gives the
    global address. *)
Definition ra_prefix (data : list Z) (off opt_type opt_len : nat) : M unit :=
  if (opt_type =? 3)%nat && (32 <=? opt_len)%nat then
    prefix_len ← idx data (off + 2);
    flags ← idx data (off + 3);
    if negb (Z.land flags 0x80 =? 0) && negb (Z.land flags 0x40 =? 0) && (prefix_len =? 64) then
      prefix ← sub data (off + 8) (off + 24);
      i ← getn ifc;
      let global := take 8 prefix ++ drop 8 (mac_to_link_local (NET_MAC i)) in
      modn (fun s => with_ifc (set_global global (ifc s)) s)
    else mret tt
  else mret tt.

Fixpoint ra_options (rounds : nat) (data : list Z) (off : nat) : M unit :=
  match rounds with
  | O => stuck_n
  | S r =>
      if (off + 2 <=? length data)%nat then
        opt_type ← idx data off;
        l ← idx data (off + 1);
        let opt_len := (Z.to_nat l * 8)%nat in
        if (opt_len =? 0)%nat || (length data <? off + opt_len)%nat then mret tt
        else ra_prefix data off (Z.to_nat opt_type) opt_len;; ra_options r data (off + opt_len)
      else mret tt
  end.

Definition handle_ra (src_ip src_mac data : list Z) : M unit :=
  if (length data <? 12)%nat then mret tt
  else
    modn (fun s => with_ifc (set_NET_GW6 src_ip (ifc s)) s);;
    ndp_learn src_ip src_mac;;
    ra_options (S (length data)) data 12.

(** One entry of the loop of [ndp_tick]. *)
Definition ndp_retry (t : Z) (p : NdpPending) : M NdpPending :=
  if negb (np_valid p) then mret p
  else if t <? np_next_retry p then mret p
  else if 3 <=? np_retry_count p then mret (mk_ndpp (np_ip p) (np_retry_count p) (np_next_retry p) false)
  else send_ns (np_ip p);; mret (mk_ndpp (np_ip p) (as_u32 (np_retry_count p + 1)) (as_u32 (t + 15)) true).

Definition ndp_tick : M unit :=
  t ← now;
  n ← getn ndp;
  l ← mapM (ndp_retry t) (NDP_PENDING n);
  modn (fun s => with_ndp (mk_ndps (NDP_CACHE (ndp s)) l) s).

(** ** ICMPv6 *)

Definition PING6_ID : Z := 0xAE60.

Definition handle_echo_request (src_ip my_ip data : list Z) : M unit :=
  if (length data <? 8)%nat then mret tt
  else if (2048 <? 14 + 40 + length data)%nat then mret tt
  else
    m ← ndp_lookup src_ip;
    match m with
    | None => mret tt
    | Some dst_mac =>
        put_ipv6 dst_mac (length data) 58 255 my_ip src_ip;;
        tb_puts [(54%nat, data); (54%nat, [129]); (56%nat, [0; 0])];;
        tb ← getn TX_BUF;
        body ← sub tb 54 (54 + length data);
        tb_put 56 (to_be_bytes 2 (ipv6_upper_checksum my_ip src_ip 58 body));;
        _ ← tb_send (14 + 40 + length data); mret tt
    end.

Definition handle_echo_reply (data : list Z) : M unit :=
  if (length data <? 8)%nat then mret tt
  else
    id ← be16 data 4;
    if id =? PING6_ID then t ← now; modn (fun s => with_ping (mk_ping (ICMP_PING_REPLY_TICKS (ping s)) (Some t)) s)
    else mret tt.

Definition handle_icmpv6 (src_mac src_ip dst_ip data : list Z) : M unit :=
  if (length data <? 4)%nat then mret tt
  else
    t ← idx data 0;
    body ← sub data 4 (length data);
    if t =? 128 then handle_echo_request src_ip dst_ip data
    else if t =? 129 then handle_echo_reply data
    else if t =? 134 then mac ← sub src_mac 0 6; handle_ra src_ip mac body
    else if t =? 135 then mac ← sub src_mac 0 6; handle_ns src_ip mac body
    else if t =? 136 then handle_na body
    else mret tt.

End Link.
