(* ===== verification/NetConf.v ===== *)
(** * DHCP and DNS (kernel/src/net/dhcp.rs, dns.rs)

    The client state machines: what they send, and the handlers of their UDP ports. *)

From stdpp Require Import base numbers list.
From Stdlib Require Import ZArith Lia Bool.
From S2P Require Import Prelude Sector NetState NetLink.

Section Conf.
Context {D : Type} `{!NetHost D}.

Local Abbreviation M := (N D).

(** ** DHCP *)

Definition mod_client (f : DhcpClient -> DhcpClient) : M unit := modn (fun s => with_CLIENT (f (CLIENT s)) s).

Definition make_xid : M Z := t ← now; mret (Z.lxor t 0xAE010000).

(** The first 240 bytes of a request, up to the magic cookie. *)
Definition dhcp_head (xid : Z) (mac : list Z) : list (nat * list Z) :=
  [(0%nat, [1; 1; 6]); (4%nat, to_be_bytes 4 xid); (10%nat, [0x80]); (28%nat, mac); (236%nat, [99; 130; 83; 99])].

Definition discover_body (xid : Z) (mac : list Z) : list Z :=
  body_of 244 (dhcp_head xid mac ++ [(240%nat, [53; 1; 1]); (243%nat, [255])]).

Definition request_body (xid : Z) (mac offered server : list Z) : list Z :=
  body_of 256 (dhcp_head xid mac ++ [(240%nat, [53; 1; 3]); (243%nat, [50; 4]); (245%nat, offered);
                                     (249%nat, [54; 4]); (251%nat, server); (255%nat, [255])]).

Definition send_discover : M unit :=
  x ← make_xid;
  mod_client (fun d => set_retry_count 0 (set_d_state Discovering (set_xid x d)));;
  t ← now;
  mod_client (set_next_action_tick (as_u32 (t + 100)));;
  c ← getn CLIENT;
  i ← getn ifc;
  _ ← udp_send broadcast_ip 67 68 (discover_body (xid c) (NET_MAC i)); mret tt.

Definition send_request (offered server : list Z) : M unit :=
  c ← getn CLIENT;
  i ← getn ifc;
  _ ← udp_send broadcast_ip 67 68 (request_body (xid c) (NET_MAC i) offered server); mret tt.

(** What the options of a reply say, with the defaults of the code. *)
Record dhcp_opts := mk_opts {
  msg_type : Z;
  o_server : list Z;
  lease_time : Z;
  subnet : list Z;
  o_gw : list Z;
  o_t1 : Z;
}.
Definition dhcp_defaults : dhcp_opts := mk_opts 0 zero4 3600 [255; 255; 255; 0] zero4 0.

Definition dhcp_option (tag : Z) (v : list Z) (o : dhcp_opts) : dhcp_opts :=
  let long := (4 <=? length v)%nat in
  if (tag =? 1) && long then mk_opts (msg_type o) (o_server o) (lease_time o) (take 4 v) (o_gw o) (o_t1 o)
  else if (tag =? 3) && long then mk_opts (msg_type o) (o_server o) (lease_time o) (subnet o) (take 4 v) (o_t1 o)
  else if (tag =? 51) && long then mk_opts (msg_type o) (o_server o) (be_bytes (take 4 v)) (subnet o) (o_gw o) (o_t1 o)
  else if (tag =? 53) && (1 <=? length v)%nat
    then mk_opts (nth 0 v 0) (o_server o) (lease_time o) (subnet o) (o_gw o) (o_t1 o)
  else if (tag =? 54) && long then mk_opts (msg_type o) (take 4 v) (lease_time o) (subnet o) (o_gw o) (o_t1 o)
  else if (tag =? 58) && long then mk_opts (msg_type o) (o_server o) (lease_time o) (subnet o) (o_gw o) (be_bytes (take 4 v))
  else o.

(** [while i + 1 < data.len()]: every round moves on. *)
Fixpoint dhcp_options (rounds : nat) (data : list Z) (i : nat) (o : dhcp_opts) : M dhcp_opts :=
  match rounds with
  | O => stuck_n
  | S r =>
      if (i + 1 <? length data)%nat then
        tag ← idx data i;
        if tag =? 255 then mret o
        else if tag =? 0 then dhcp_options r data (i + 1) o
        else
          len ← idx data (i + 1);
          let len := Z.to_nat len in
          if (length data <? i + 2 + len)%nat then mret o
          else
            v ← sub data (i + 2) (i + 2 + len);
            dhcp_options r data (i + 2 + len) (dhcp_option tag v o)
      else mret o
  end.

(** The address and the gateway of an acknowledgement, and the lease. *)
Definition dhcp_bind (yiaddr : list Z) (o : dhcp_opts) : M unit :=
  let t1_ticks := if 0 <? o_t1 o then o_t1 o else lease_time o / 2 in
  let gw := if bool_decide (o_gw o = zero4) then take 3 yiaddr ++ [2] else o_gw o in
  modn (fun s => with_ifc (set_v4 yiaddr (subnet o) gw (ifc s)) s);;
  t ← now;
  mod_client (fun d => set_next_action_tick (as_u32 (t + as_u32 (t1_ticks * 100)))
    (set_bound_tick t (set_t1_secs t1_ticks (set_lease_secs (lease_time o) (set_d_state Bound d))))).

Definition handle_dhcp_packet (src_port : Z) (data : list Z) : M unit :=
  if negb (src_port =? 67) then mret tt
  else if (length data <? 240)%nat then mret tt
  else
    op ← idx data 0;
    if negb (op =? 2) then mret tt
    else
      c ← getn CLIENT;
      pkt_xid ← be32 data 4;
      if negb (pkt_xid =? xid c) then mret tt
      else
        yiaddr ← sub data 16 20;
        o ← dhcp_options (S (length data)) data 240 dhcp_defaults;
        if (msg_type o =? 2) && bool_decide (d_state c = Discovering) then
          t ← now;
          mod_client (fun d => set_next_action_tick (as_u32 (t + 100)) (set_retry_count 0
            (set_d_state Requesting (set_server_ip (o_server o) (set_offered_ip yiaddr d)))));;
          send_request yiaddr (o_server o)
        else if (msg_type o =? 5) && (bool_decide (d_state c = Requesting) || bool_decide (d_state c = Renewing)) then
          dhcp_bind yiaddr o
        else mret tt.

(** [CLIENT.retry_count += 1; CLIENT.next_action_tick = now + RETRY_TICKS;] *)
Definition dhcp_again (t : Z) : M unit :=
  mod_client (fun d => set_next_action_tick (as_u32 (t + 100)) (set_retry_count (as_u8 (retry_count d + 1)) d)).

Definition dhcp_tick : M unit :=
  t ← now;
  c ← getn CLIENT;
  i ← getn ifc;
  if t <? next_action_tick c then mret tt
  else
    match d_state c with
    | Discovering =>
        if 3 <=? retry_count c then
          modn (fun s => with_ifc (set_v4 [10; 0; 2; 15] [255; 255; 255; 0] [10; 0; 2; 2] (ifc s)) s);;
          mod_client (fun d => set_next_action_tick (as_u32 (t + 360000)) (set_d_state Bound d))
        else dhcp_again t;; send_discover
    | Requesting =>
        if 3 <=? retry_count c then send_discover
        else dhcp_again t;; send_request (offered_ip c) (server_ip c)
    | Bound =>
        mod_client (fun d => set_next_action_tick (as_u32 (t + 100)) (set_retry_count 0 (set_d_state Renewing d)));;
        send_request (NET_IP i) (server_ip c)
    | Renewing =>
        if 3 <=? retry_count c then send_discover
        else dhcp_again t;; send_request (NET_IP i) (server_ip c)
    | Idle => mret tt
    end.

Definition dhcp_init : M unit := _ ← udp_register 68 handler_dhcp; send_discover.

(** ** DNS *)

Definition DNS_SERVER : list Z := [10; 0; 2; 3].

Definition expire (e : DnsEntry) : DnsEntry := mk_dnse (dn_name e) (dn_name_len e) (dn_addr e) 0.

(** The scan: entries past their time are cleared on the way. *)
Fixpoint cache_scan (name : list Z) (t : Z) (l : list DnsEntry) : list DnsEntry * option IpAddr :=
  match l with
  | [] => ([], None)
  | e :: l' =>
      let next e := let '(r, a) := cache_scan name t l' in (e :: r, a) in
      if dn_ttl_end e =? 0 then next e
      else if dn_ttl_end e <? t then next (expire e)
      else if (dn_name_len e =? length name)%nat && bool_decide (take (dn_name_len e) (dn_name e) = name)
      then (e :: l', Some (dn_addr e))
      else next e
  end.

Definition mod_dns (f : dns_state -> dns_state) : M unit := modn (fun s => with_dns (f (dns s)) s).

Definition cache_lookup (name : list Z) : M (option IpAddr) :=
  t ← now;
  d ← getn dns;
  let '(l, a) := cache_scan name t (DNS_CACHE d) in
  mod_dns (fun d => mk_dnss l (CACHE_CURSOR d) (PENDING_TXN d) (PENDING_ADDR d));;
  mret a.

Definition sat_u32 (z : Z) : Z := Z.min z (2 ^ 32 - 1).

Definition cache_insert (name : list Z) (addr : IpAddr) (ttl_secs : Z) : M unit :=
  t ← now;
  let len := Nat.min (length name) 63 in
  mod_dns (fun d =>
    let i := Z.to_nat (CACHE_CURSOR d mod 16) in
    let old := nth i (DNS_CACHE d) (mk_dnse [] 0 (V4 zero4) 0) in
    let e := mk_dnse (splice 0 (take len name) (dn_name old)) len addr (sat_u32 (t + sat_u32 (ttl_secs * 100))) in
    mk_dnss (<[i := e]> (DNS_CACHE d)) (CACHE_CURSOR d +u 1) (PENDING_TXN d) (PENDING_ADDR d)).

(** [name.split('.')] *)
Fixpoint split_dots (l : list Z) : list (list Z) :=
  match l with
  | [] => [[]]
  | b :: l' =>
      if b =? 46 then [] :: split_dots l'
      else match split_dots l' with w :: ws => (b :: w) :: ws | [] => [[b]] end
  end.

(** The labels from offset [off] on. *)
Fixpoint put_labels (off : nat) (labels : list (list Z)) : list Z :=
  match labels with
  | [] => []
  | lb :: rest =>
      let lb := take 63 lb in
      if (480 <=? off + 1 + length lb)%nat then []
      else Z.of_nat (length lb) :: lb ++ put_labels (off + 1 + length lb) rest
  end.

(** The bytes of the query; they fit into the packet of 512. *)
Definition build_dns_query (name : list Z) (txn_id qtype : Z) : list Z :=
  to_be_bytes 2 txn_id ++ [1; 0; 0; 1; 0; 0; 0; 0; 0; 0] ++ put_labels 12 (split_dots name) ++ [0]
  ++ to_be_bytes 2 qtype ++ [0; 1].

Definition send_query (name : list Z) : M unit :=
  d ← getn dns;
  _ ← udp_send DNS_SERVER 53 5300 (build_dns_query name (PENDING_TXN d) 1); mret tt.

(** The two loops over the labels of a name: the offset after it, [None] for [return].
    Only the first knows compression pointers. *)
Fixpoint skip_name (pointers : bool) (rounds : nat) (data : list Z) (off : nat) : M (option nat) :=
  match rounds with
  | O => stuck_n
  | S r =>
      if (length data <=? off)%nat then mret None
      else
        l ← idx data off;
        if l =? 0 then mret (Some (off + 1)%nat)
        else if pointers && (0xC0 <=? l) then mret (Some (off + 2)%nat)
        else skip_name pointers r data (off + 1 + Z.to_nat l)
  end.

Fixpoint skip_questions (n : nat) (data : list Z) (off : nat) : M (option nat) :=
  match n with
  | O => mret (Some off)
  | S n' =>
      o ← skip_name true (S (length data)) data off;
      match o with Some off => skip_questions n' data (off + 4) | None => mret None end
  end.

(** The record at [off]: its type, its data and the offset after it. *)
Definition read_record (data : list Z) (off : nat) : M (option (Z * list Z * nat)) :=
  if (length data <=? off)%nat then mret None
  else
    b ← idx data off;
    o ← (if 0xC0 <=? b then mret (Some (off + 2)%nat) else skip_name false (S (length data)) data off);
    match o with
    | None => mret None
    | Some off =>
        if (length data <? off + 10)%nat then mret None
        else
          rtype ← be16 data off;
          rdlen ← be16 data (off + 8);
          let rdlen := Z.to_nat rdlen in
          let off := (off + 10)%nat in
          if (length data <? off + rdlen)%nat then mret None
          else rdata ← sub data off (off + rdlen); mret (Some (rtype, rdata, (off + rdlen)%nat))
    end.

Definition set_pending (a : IpAddr) : M unit :=
  mod_dns (fun d => mk_dnss (DNS_CACHE d) (CACHE_CURSOR d) (PENDING_TXN d) (Some a)).

Fixpoint read_answers (n : nat) (data : list Z) (off : nat) : M unit :=
  match n with
  | O => mret tt
  | S n' =>
      o ← read_record data off;
      match o with
      | None => mret tt
      | Some (rtype, rdata, off) =>
          if (rtype =? 1) && (length rdata =? 4)%nat then set_pending (V4 rdata)
          else if (rtype =? 28) && (length rdata =? 16)%nat then
            d ← getn dns;
            match PENDING_ADDR d with None => set_pending (V6 rdata) | Some _ => mret tt end;;
            read_answers n' data off
          else read_answers n' data off
      end
  end.

Definition handle_dns_response (data : list Z) : M unit :=
  if (length data <? 12)%nat then mret tt
  else
    rxn ← be16 data 0;
    d ← getn dns;
    if negb (rxn =? PENDING_TXN d) then mret tt
    else
      flags ← be16 data 2;
      if Z.land flags 0x8000 =? 0 then mret tt
      else if negb (Z.land flags 0x000F =? 0) then mret tt
      else
        qdcount ← be16 data 4;
        ancount ← be16 data 6;
        if ancount =? 0 then mret tt
        else
          o ← skip_questions (Z.to_nat qdcount) data 12;
          match o with
          | Some off => read_answers (Z.to_nat ancount) data off
          | None => mret tt
          end.

(** The loop of [parse_dotted_ip]: the octets so far, the current one, and whether it
    has a digit. *)
Fixpoint dotted (s : list Z) (octets : list Z) (cur : Z) (has_digit : bool) : option (list Z) :=
  match s with
  | [] => if negb has_digit || negb (length octets =? 3)%nat then None else Some (octets ++ [as_u8 cur])
  | b :: s' =>
      if b =? 46 then
        if negb has_digit || (3 <=? length octets)%nat then None else dotted s' (octets ++ [as_u8 cur]) 0 false
      else if (48 <=? b) && (b <=? 57) then
        let cur := as_u32 (cur * 10 + (b - 48)) in
        if 255 <? cur then None else dotted s' octets cur true
      else None
  end.
Definition parse_dotted_ip (s : list Z) : option (list Z) := dotted s [] 0 false.

Definition dns_init : M unit := _ ← udp_register 5300 handler_dns; mret tt.

End Conf.
