(* ===== verification/Tcp.v ===== *)
(** * TCP (kernel/src/net/tcp.rs)

    Sixteen connections, each with two ring buffers.  [CONNS[id]] is read and written
    in the order of the code, also where the code holds a reference to it across a
    call that changes it. *)

From stdpp Require Import base numbers list.
From Stdlib Require Import ZArith Lia Bool.
From S2P Require Import Prelude Sector NetState NetLink NetConf.

(** ** Ring buffers *)

Definition BUF_SIZE : nat := 32 * 1024.

Definition RingBuf_new (cap : nat) : RingBuf := mk_ring (replicate cap 0) 0 0 0.
Definition cap (r : RingBuf) : nat := length (rbuf r).
Definition avail (r : RingBuf) : nat := rlen r.
Definition free (r : RingBuf) : nat := cap r - rlen r.

(** The loops of [push] and of the readers. *)
Fixpoint ring_put (data : list Z) (r : RingBuf) : RingBuf :=
  match data with
  | [] => r
  | b :: data' => ring_put data' (mk_ring (<[rtail r := b]> (rbuf r)) (rhead r) ((rtail r + 1) mod cap r) (rlen r + 1))
  end.
Definition ring_bytes (from n : nat) (r : RingBuf) : list Z := (fun i => nth ((from + i) mod cap r) (rbuf r) 0) <$> seq 0 n.

Definition push (data : list Z) (r : RingBuf) : nat * RingBuf :=
  let n := Nat.min (length data) (free r) in (n, ring_put (take n data) r).

Fixpoint ring_take (n : nat) (r : RingBuf) : list Z * RingBuf :=
  match n with
  | O => ([], r)
  | S n' =>
      let b := nth (rhead r) (rbuf r) 0 in
      let '(l, r) := ring_take n' (mk_ring (rbuf r) ((rhead r + 1) mod cap r) (rtail r) (rlen r - 1)) in (b :: l, r)
  end.
Definition pop (len : nat) (r : RingBuf) : list Z * RingBuf := ring_take (Nat.min len (rlen r)) r.

Definition peek (len : nat) (r : RingBuf) : list Z := ring_bytes (rhead r) (Nat.min len (rlen r)) r.
Definition peek_from (offset len : nat) (r : RingBuf) : list Z :=
  ring_bytes (rhead r + offset) (Nat.min len (rlen r - offset)) r.

Definition discard (n : nat) (r : RingBuf) : RingBuf :=
  let n := Nat.min n (rlen r) in mk_ring (rbuf r) ((rhead r + n) mod cap r) (rtail r) (rlen r - n).

(** ** Flags and times *)

Abbreviation TCP_FIN := 0x01 (only parsing).
Abbreviation TCP_SYN := 0x02 (only parsing).
Abbreviation TCP_RST := 0x04 (only parsing).
Abbreviation TCP_ACK := 0x10 (only parsing).
Abbreviation RETX_INIT := 50 (only parsing).
Abbreviation RETX_MAX := 5 (only parsing).
Abbreviation TIMEWAIT_TICKS := 100 (only parsing).
Abbreviation PERSIST_INIT := 100 (only parsing).
Abbreviation PERSIST_MAX := 6000 (only parsing).
Abbreviation LASTACK_TIMEOUT := 600 (only parsing).
Abbreviation MAX_FLUSH_SEGS := 8%nat (only parsing).

(** [flags & bit != 0] *)
Definition has (flags bit : Z) : bool := negb (Z.land flags bit =? 0).

Definition u32_add (a b : Z) : Z := as_u32 (a + b).
Definition u32_sub (a b : Z) : Z := as_u32 (a - b).
(** [x.saturating_mul(2).min(m)] of a [u8]. *)
Definition double_max (m x : Z) : Z := Z.min (Z.min (x * 2) 255) m.

Section Tcp.
Context {D : Type} `{!NetHost D}.

Local Abbreviation M := (N D).

Definition conns : M (list TcpConn) := getn (fun s => CONNS (tcp s)).
Definition conn (id : nat) : M TcpConn :=
  l ← conns; match l !! id with Some c => mret c | None => crash_n end.
Definition modc (id : nat) (f : TcpConn -> TcpConn) : M unit :=
  c ← conn id;
  modn (fun s => with_tcp (mk_tcps (<[id := f c]> (CONNS (tcp s))) (NEXT_PORT (tcp s))) s).

(** [CONNS.iter().position(..)] *)
Definition find_conn (P : TcpConn -> Prop) `{!forall c, Decision (P c)} : M (option nat) :=
  l ← conns; mret (fst <$> list_find P l).

(** [rx = None; tx = None; state = st;] *)
Definition drop_conn (st : TcpState) (c : TcpConn) : TcpConn := put_state st (put_tx None (put_rx None c)).

(** ** Segments *)

Definition options_len (flags : Z) : nat := if has flags TCP_SYN then 4 else 0.
Definition window (c : TcpConn) : Z :=
  match rx c with Some r => Z.min (Z.of_nat (free r)) 65535 | None => 8192 end.

Definition build_tcp_header (off id : nat) (flags : Z) (data : list Z) : M unit :=
  c ← conn id;
  tb_puts [(off, to_be_bytes 2 (local_port c)); ((off + 2)%nat, to_be_bytes 2 (remote_port c));
           ((off + 4)%nat, to_be_bytes 4 (snd_nxt c)); ((off + 8)%nat, to_be_bytes 4 (rcv_nxt c));
           ((off + 12)%nat, [Z.shiftl (Z.of_nat ((20 + options_len flags) / 4)) 4; flags]);
           ((off + 14)%nat, to_be_bytes 2 (window c)); ((off + 16)%nat, [0; 0]); ((off + 18)%nat, [0; 0])];;
  (if has flags TCP_SYN then tb_put (off + 20) (2 :: 4 :: to_be_bytes 2 MSS_DEFAULT) else mret tt);;
  tb_put (off + 20 + options_len flags) data.

Definition send_segment_v4 (id : nat) (flags : Z) (data dst_ip : list Z) : M unit :=
  let tcp_len := (20 + options_len flags + length data)%nat in
  dst_mac ← resolve_mac_nonblocking dst_ip;
  if (2048 <? 14 + (20 + tcp_len))%nat then mret tt
  else
    put_ipv4 dst_mac [0; 0] 6 tcp_len dst_ip;;
    build_tcp_header 34 id flags data;;
    i ← getn ifc;
    tb ← getn TX_BUF;
    seg ← sub tb 34 (34 + tcp_len);
    tb_put 50 (to_be_bytes 2 (tcp_checksum (NET_IP i) dst_ip seg));;
    _ ← tb_send (14 + (20 + tcp_len)); mret tt.

Definition source_v6 (i : iface) : list Z := if bool_decide (NET_IP6G i = zero16) then NET_IP6 i else NET_IP6G i.

Definition send_segment_v6 (id : nat) (flags : Z) (data dst_ip : list Z) : M unit :=
  let tcp_len := (20 + options_len flags + length data)%nat in
  i ← getn ifc;
  m ← ndp_lookup dst_ip;
  match m with
  | None => mret tt
  | Some dst_mac =>
      if (2048 <? 14 + 40 + tcp_len)%nat then mret tt
      else
        put_ipv6 dst_mac tcp_len 6 64 (source_v6 i) dst_ip;;
        build_tcp_header 54 id flags data;;
        tb_put 70 [0; 0];;
        tb ← getn TX_BUF;
        seg ← sub tb 54 (54 + tcp_len);
        tb_put 70 (to_be_bytes 2 (ipv6_upper_checksum (source_v6 i) dst_ip 6 seg));;
        _ ← tb_send (14 + 40 + tcp_len); mret tt
  end.

Definition send_segment (id : nat) (flags : Z) (data : list Z) : M unit :=
  c ← conn id;
  match remote_ip c with
  | V4 ip => send_segment_v4 id flags data ip
  | V6 ip => send_segment_v6 id flags data ip
  end.

Definition send_rst_raw (dst_ip : IpAddr) (dst_port src_port seq : Z) : M unit :=
  match dst_ip with
  | V6 _ => mret tt
  | V4 ip =>
      dst_mac ← resolve_mac_nonblocking ip;
      put_ipv4 dst_mac [0; 0] 6 20 ip;;
      tb_puts [(34%nat, to_be_bytes 2 src_port); (36%nat, to_be_bytes 2 dst_port); (38%nat, to_be_bytes 4 seq);
               (42%nat, [0; 0; 0; 0]); (46%nat, [0x50; TCP_RST]); (48%nat, [0; 0; 0; 0; 0; 0])];;
      i ← getn ifc;
      tb ← getn TX_BUF;
      seg ← sub tb 34 54;
      tb_put 50 (to_be_bytes 2 (tcp_checksum (NET_IP i) ip seg));;
      _ ← tb_send 54; mret tt
  end.

(** ** Sending *)

(** What the next segment of [flush_tx] takes: at most a segment, at most the window. *)
Definition send_size (c : TcpConn) : nat :=
  let av := match tx c with Some t => avail t | None => 0%nat end in
  let eff_wnd := Z.to_nat (Z.min (snd_wnd c) (cwnd c)) in
  Nat.min (Nat.min (av - snd_cur c) (Z.to_nat (mss c))) (eff_wnd - snd_cur c).

Fixpoint flush_loop (n id : nat) : M unit :=
  match n with
  | O => mret tt
  | S n' =>
      c ← conn id;
      let send_n := send_size c in
      if (send_n =? 0)%nat then mret tt
      else if (1460 <? send_n)%nat then crash_n
      else
        let seg := match tx c with Some t => peek_from (snd_cur c) send_n t | None => [] end in
        if (length seg =? 0)%nat then mret tt
        else
          send_segment id TCP_ACK seg;;
          c ← conn id;
          let first_send := (snd_cur c =? 0)%nat && (snd_una c =? snd_nxt c) in
          modc id (fun c => put_snd_cur (snd_cur c + length seg)%nat
                              (put_snd_nxt (u32_add (snd_nxt c) (Z.of_nat (length seg))) c));;
          (if first_send : bool then
             t ← now;
             modc id (fun c => put_retx_backoff 1 (put_retx_count 0 (put_retx_ticks (u32_add t RETX_INIT) c)))
           else mret tt);;
          flush_loop n' id
  end.
Definition flush_tx (id : nat) : M unit := flush_loop MAX_FLUSH_SEGS id.

Definition tcp_write (id : nat) (data : list Z) : M nat :=
  if (MAX_CONNS <=? id)%nat then mret 0%nat
  else
    c ← conn id;
    match state c, tx c with
    | (Established | CloseWait), Some t =>
        let '(pushed, t) := push data t in
        modc id (put_tx (Some t));;
        flush_tx id;;
        mret pushed
    | _, _ => mret 0%nat
    end.

Definition tcp_read (id len : nat) : M (list Z) :=
  if (MAX_CONNS <=? id)%nat then mret []
  else
    c ← conn id;
    match rx c with
    | Some r => let '(b, r) := pop len r in modc id (put_rx (Some r));; mret b
    | None => mret []
    end.

Definition rx_avail (c : TcpConn) : nat := match rx c with Some r => avail r | None => 0%nat end.
Definition tcp_readable (id : nat) : M nat :=
  if (MAX_CONNS <=? id)%nat then mret 0%nat else c ← conn id; mret (rx_avail c).
Definition tcp_state (id : nat) : M TcpState :=
  if (MAX_CONNS <=? id)%nat then mret Free else c ← conn id; mret (state c).

(** The FIN of [tcp_close], and the state after it. *)
Definition send_fin (id : nat) (st : TcpState) : M unit :=
  send_segment id (Z.lor TCP_FIN TCP_ACK) [];;
  modc id (fun c => put_state st (put_snd_nxt (u32_add (snd_nxt c) 1) c));;
  t ← now;
  modc id (put_state_tick t).

Definition tcp_close (id : nat) : M unit :=
  if (MAX_CONNS <=? id)%nat then mret tt
  else
    c ← conn id;
    match state c with
    | Established => send_fin id FinWait1
    | CloseWait => send_fin id LastAck
    | _ => modc id (drop_conn Free)
    end.

Definition tcp_listen (local_port : Z) : M (option nat) :=
  o ← find_conn (fun c => state c = Free);
  match o with
  | None => mret None
  | Some id =>
      t ← now;
      modc id (fun _ => mk_conn Listen (V4 zero4) 0 local_port 0 0 0 0 8192 MSS_DEFAULT 0 0 1 t CWND_INIT SSTHRESH_INIT
                          0 0 0 false false 0 None None);;
      mret (Some id)
  end.

(** ** Receiving *)

(** A pure SYN for a listening port takes a free slot. *)
Definition accept_syn (src_ip : IpAddr) (src_port dst_port seq wnd : Z) : M unit :=
  o ← find_conn (fun c => state c = Free);
  match o with
  | None => mret tt
  | Some id =>
      n ← counter;
      let isn := Z.lxor (as_u32 n) (Z.shiftl dst_port 16) in
      t ← now;
      let ring := Some (RingBuf_new BUF_SIZE) in
      modc id (fun _ => mk_conn SynRcvd src_ip src_port dst_port isn isn 0 (u32_add seq 1) wnd MSS_DEFAULT
                          (u32_add t RETX_INIT) 0 1 t CWND_INIT SSTHRESH_INIT 0 isn 0 false true dst_port ring ring);;
      send_segment id (Z.lor TCP_SYN TCP_ACK) [];;
      modc id (fun c => put_snd_nxt (u32_add (snd_nxt c) 1) c)
  end.

Definition no_match (src_ip : IpAddr) (src_port dst_port seq ack_num flags wnd : Z) : M unit :=
  l ← find_conn (fun c => state c = Listen /\ local_port c = dst_port);
  match has flags TCP_SYN && negb (has flags TCP_RST) && negb (has flags TCP_ACK), l with
  | true, Some _ => accept_syn src_ip src_port dst_port seq wnd
  | _, _ => if has flags TCP_RST then mret tt else send_rst_raw src_ip src_port dst_port ack_num
  end.

(** In-order data goes into the receive ring and is acknowledged. *)
Definition deliver (id : nat) (seq : Z) (data : list Z) : M unit :=
  c ← conn id;
  if negb (length data =? 0)%nat && (seq =? rcv_nxt c) then
    let '(pushed, r) := match rx c with Some r => let '(n, r) := push data r in (n, Some r) | None => (0%nat, None) end in
    modc id (fun c => put_rcv_nxt (u32_add (rcv_nxt c) (Z.of_nat pushed)) (put_rx r c));;
    send_segment id TCP_ACK []
  else mret tt.

Definition on_syn_rcvd (id : nat) (seq ack_num flags : Z) (data : list Z) : M unit :=
  c ← conn id;
  if has flags TCP_ACK && (ack_num =? snd_nxt c) then
    modc id (fun c => put_retx_backoff 1 (put_retx_count 0 (put_state Established (put_snd_una ack_num c))));;
    deliver id seq data
  else mret tt.

(** [while oi + 1 < opts.len()]: the segment size the peer asks for. *)
Fixpoint peer_mss (rounds : nat) (opts : list Z) (oi : nat) (mss : Z) : M Z :=
  match rounds with
  | O => stuck_n
  | S r =>
      if (oi + 1 <? length opts)%nat then
        k ← idx opts oi;
        if k =? 0 then mret mss
        else if k =? 1 then peer_mss r opts (oi + 1) mss
        else if (k =? 2) && (oi + 3 <? length opts)%nat then m ← be16 opts (oi + 2); peer_mss r opts (oi + 4) m
        else l ← idx opts (oi + 1); peer_mss r opts (oi + (2 + Z.to_nat l)) mss
      else mret mss
  end.

Definition on_syn_sent (id : nat) (seq ack_num flags : Z) (doff : nat) (payload : list Z) : M unit :=
  if has flags TCP_SYN && has flags TCP_ACK then
    modc id (fun c => put_retx_backoff 1 (put_retx_count 0 (put_snd_una ack_num (put_rcv_nxt (u32_add seq 1) c))));;
    opts ← sub payload 20 (Nat.min doff (length payload));
    c ← conn id;
    m ← peer_mss (S (length opts)) opts 0 (mss c);
    modc id (fun c => put_state Established (put_mss m c));;
    send_segment id TCP_ACK []
  else mret tt.

(** The window after an acknowledgement of [acked] bytes. *)
Definition grow_cwnd (acked : nat) (c : TcpConn) : Z :=
  if cwnd c <? ssthresh c then sat_u32 (cwnd c + Z.min (Z.of_nat acked) (mss c))
  else sat_u32 (cwnd c + Z.max (sat_u32 (mss c * Z.of_nat acked) / Z.max (cwnd c) 1) 1).

Definition slide (ack_num : Z) (acked : nat) (c : TcpConn) : TcpConn :=
  let c := put_cwnd (grow_cwnd acked c) c in
  let c := put_tx (discard acked <$> tx c) (put_snd_una ack_num c) in
  let c := put_retx_backoff 1 (put_retx_count 0 (put_snd_cur (snd_cur c - acked)%nat c)) in
  let c := put_last_ack_rcvd ack_num (put_dup_acks 0 c) in
  if 0 <? snd_wnd c then put_persist_arm false c else c.

Definition fast_retransmit (c : TcpConn) : TcpConn :=
  let in_flight := u32_sub (snd_nxt c) (snd_una c) in
  let thr := Z.max (in_flight / 2) (mss c * 2) in
  put_snd_cur 0%nat (put_snd_nxt (snd_una c) (put_cwnd (sat_u32 (thr + mss c * 3)) (put_ssthresh thr c))).

Definition on_ack (id : nat) (ack_num : Z) (data : list Z) : M unit :=
  c ← conn id;
  let acked := Z.to_nat (u32_sub ack_num (snd_una c)) in
  (if (0 <? acked)%nat && (acked <=? snd_cur c + 1)%nat then
     modc id (slide ack_num acked);; flush_tx id
   else if (acked =? 0)%nat && (ack_num =? last_ack_rcvd c) && (length data =? 0)%nat then
     modc id (fun c => put_dup_acks (Z.min (dup_acks c + 1) 255) c);;
     c ← conn id;
     if dup_acks c =? 3 then modc id fast_retransmit;; flush_tx id
     else if 3 <? dup_acks c then modc id (fun c => put_cwnd (sat_u32 (cwnd c + mss c)) c);; flush_tx id
     else mret tt
   else mret tt);;
  c ← conn id;
  if (snd_wnd c =? 0) && negb (persist_arm c) then
    t ← now; modc id (fun c => put_persist_arm true (put_persist_ticks (u32_add t PERSIST_INIT) c))
  else mret tt.

Definition on_fin (id : nat) : M unit :=
  modc id (fun c => put_rcv_nxt (u32_add (rcv_nxt c) 1) c);;
  send_segment id TCP_ACK [];;
  c ← conn id;
  match state c with
  | Established => modc id (put_state CloseWait)
  | FinWait1 => modc id (put_state Closing)
  | FinWait2 => t ← now; modc id (fun c => put_state_tick t (put_state TimeWait c))
  | _ => mret tt
  end.

Definition on_established (id : nat) (seq ack_num flags : Z) (data : list Z) : M unit :=
  (if has flags TCP_ACK then on_ack id ack_num data else mret tt);;
  deliver id seq data;;
  (if has flags TCP_FIN then on_fin id else mret tt);;
  c ← conn id;
  if bool_decide (state c = FinWait1) && has flags TCP_ACK && (ack_num =? snd_nxt c)
  then modc id (put_state FinWait2) else mret tt.

Definition tcp_handle_segment (src_ip : IpAddr) (payload : list Z) : M unit :=
  if (length payload <? 20)%nat then mret tt
  else
    src_port ← be16 payload 0;
    dst_port ← be16 payload 2;
    seq ← be32 payload 4;
    ack_num ← be32 payload 8;
    b ← idx payload 12;
    let doff := (Z.to_nat (Z.shiftr b 4) * 4)%nat in
    flags ← idx payload 13;
    wnd ← be16 payload 14;
    let data := if (doff <=? length payload)%nat then drop doff payload else [] in
    o ← find_conn (fun c => state c <> Free /\ remote_ip c = src_ip /\ remote_port c = src_port /\ local_port c = dst_port);
    match o with
    | None => no_match src_ip src_port dst_port seq ack_num flags wnd
    | Some id =>
        if has flags TCP_RST then modc id (drop_conn Closed)
        else
          modc id (put_snd_wnd wnd);;
          c ← conn id;
          match state c with
          | SynRcvd => on_syn_rcvd id seq ack_num flags data
          | SynSent => on_syn_sent id seq ack_num flags doff payload
          | Established | FinWait1 | FinWait2 => on_established id seq ack_num flags data
          | LastAck => if has flags TCP_ACK && (ack_num =? snd_nxt c) then modc id (drop_conn Free) else mret tt
          | _ => mret tt
          end
    end.

(** ** Timers *)

(** [retx_count >= RETX_MAX]: give up; otherwise send once more. *)
Definition again_or_free (id : nat) (flags t : Z) : M unit :=
  c ← conn id;
  if RETX_MAX <=? retx_count c then modc id (drop_conn Free)
  else
    send_segment id flags [];;
    modc id (fun c => put_state_tick t (put_retx_count (as_u8 (retx_count c + 1)) c)).

Definition persist_probe (id : nat) (t : Z) : M unit :=
  c ← conn id;
  send_segment id TCP_ACK (match tx c with Some r => peek_from 0 1 r | None => [] end);;
  modc id (fun c => put_persist_ticks (u32_add t (Z.min (PERSIST_INIT * retx_backoff c) PERSIST_MAX))
                      (put_retx_backoff (double_max 64 (retx_backoff c)) c)).

(** [c0]: the connection at the start of its round. *)
Definition retransmit (id : nat) (t : Z) (c0 : TcpConn) : M unit :=
  modc id (fun c =>
    let thr := Z.max (u32_sub (snd_nxt c0) (snd_una c0) / 2) (mss c * 2) in
    put_snd_cur 0%nat (put_snd_nxt (snd_una c0) (put_cwnd (mss c) (put_ssthresh thr c))));;
  c ← conn id;
  let n := match tx c with Some r => Nat.min (avail r) (Z.to_nat (mss c0)) | None => 0%nat end in
  if (1460 <? n)%nat then crash_n
  else
    let seg := match tx c with Some r => peek_from 0 n r | None => [] end in
    let flags := if bool_decide (state c0 = FinWait1) then Z.lor TCP_FIN TCP_ACK else TCP_ACK in
    send_segment id flags seg;;
    let backoff := double_max 16 (retx_backoff c0) in
    modc id (fun c =>
      let c := put_snd_cur (length seg) (put_snd_nxt (u32_add (snd_nxt c) (Z.of_nat (length seg))) c) in
      put_retx_ticks (u32_add t (RETX_INIT * backoff)) (put_retx_backoff backoff (put_retx_count (as_u8 (retx_count c0 + 1)) c))).

Definition tick_conn (t : Z) (id : nat) : M unit :=
  c0 ← conn id;
  let waited := u32_sub t (state_tick c0) in
  match state c0 with
  | SynRcvd => if RETX_INIT * 10 <=? waited then again_or_free id (Z.lor TCP_SYN TCP_ACK) t else mret tt
  | TimeWait | Closing => if TIMEWAIT_TICKS <=? waited then modc id (drop_conn Free) else mret tt
  | LastAck => if LASTACK_TIMEOUT <=? waited then again_or_free id (Z.lor TCP_FIN TCP_ACK) t else mret tt
  | Established | FinWait1 | FinWait2 =>
      (if persist_arm c0 && (persist_ticks c0 <=? t) then persist_probe id t else mret tt);;
      if (0 <? u32_sub (snd_nxt c0) (snd_una c0)) && (retx_ticks c0 <=? t) then
        if RETX_MAX <=? retx_count c0 then modc id (drop_conn Closed) else retransmit id t c0
      else mret tt
  | _ => mret tt
  end.

Fixpoint tick_conns (t : Z) (ids : list nat) : M unit :=
  match ids with [] => mret tt | id :: ids' => tick_conn t id;; tick_conns t ids' end.
Definition tcp_tick : M unit := t ← now; tick_conns t (seq 0 MAX_CONNS).

End Tcp.
