(* ===== verification/Net.v ===== *)
(** * Receiving and waiting (kernel/src/net/mod.rs, and the calls that wait for the network)

    [handle_frame] dispatches a received frame to the protocols.  A call that waits
    polls the card in a loop until its deadline; a loop takes [rounds] and is [Stuck]
    when they end before the deadline. *)

From stdpp Require Import base numbers list.
From Stdlib Require Import ZArith Lia Bool.
From S2P Require Import Prelude Sector NetState NetLink NetConf Tcp.

Section Net.
Context {D : Type} `{!NetHost D}.

Local Abbreviation M := (N D).

(** ** Dispatch *)

Definition run_handler (h : Handler) (src_port : Z) (data : list Z) : M unit :=
  match h with
  | handler_dhcp => handle_dhcp_packet src_port data
  | handler_dns => handle_dns_response data
  | handler_none => mret tt
  end.

Fixpoint run_handlers (l : list UdpHandler) (src_port dst_port : Z) (data : list Z) : M unit :=
  match l with
  | [] => mret tt
  | h :: l' =>
      (if u_valid h && (u_port h =? dst_port) then run_handler (u_handler h) src_port data else mret tt);;
      run_handlers l' src_port dst_port data
  end.

Definition handle_udp_dispatch (payload : list Z) : M unit :=
  if (length payload <? 8)%nat then mret tt
  else
    src_port ← be16 payload 0;
    dst_port ← be16 payload 2;
    udp_len ← be16 payload 4;
    data ← sub payload 8 (Nat.min (Z.to_nat udp_len) (length payload));
    l ← getn HANDLERS;
    run_handlers l src_port dst_port data.

Definition handle_ipv4 (src_mac payload : list Z) : M unit :=
  if (length payload <? 20)%nat then mret tt
  else
    b0 ← idx payload 0;
    if negb (Z.shiftr b0 4 =? 4) then mret tt
    else
      let ihl := Z.to_nat (Z.land b0 0xF * 4) in
      total ← be16 payload 2;
      let total_len := Z.to_nat total in
      if (length payload <? ihl)%nat || (length payload <? total_len)%nat then mret tt
      else
        proto ← idx payload 9;
        src_ip ← sub payload 12 16;
        dst_ip ← sub payload 16 20;
        i ← getn ifc;
        if negb (bool_decide (dst_ip = NET_IP i)) && negb (bool_decide (dst_ip = broadcast_ip))
           && negb (bool_decide (NET_IP i = zero4)) then mret tt
        else
          mac ← sub src_mac 0 6;
          arp_learn src_ip mac;;
          ip_payload ← sub payload ihl total_len;
          if proto =? 1 then handle_icmp src_mac src_ip ip_payload
          else if proto =? 6 then tcp_handle_segment (V4 src_ip) ip_payload
          else if proto =? 17 then handle_udp_dispatch ip_payload
          else mret tt.

Definition handle_ipv6 (src_mac payload : list Z) : M unit :=
  if (length payload <? 40)%nat then mret tt
  else
    b0 ← idx payload 0;
    if negb (Z.shiftr b0 4 =? 6) then mret tt
    else
      len ← be16 payload 4;
      let payload_len := Z.to_nat len in
      next_header ← idx payload 6;
      src_ip ← sub payload 8 24;
      dst_ip ← sub payload 24 40;
      if (length payload <? 40 + payload_len)%nat then mret tt
      else
        ip_payload ← sub payload 40 (40 + payload_len);
        i ← getn ifc;
        d0 ← idx dst_ip 0;
        if negb (bool_decide (dst_ip = NET_IP6 i)
                 || negb (bool_decide (NET_IP6G i = zero16)) && bool_decide (dst_ip = NET_IP6G i)
                 || (d0 =? 0xFF)) then mret tt
        else
          mac ← sub src_mac 0 6;
          ndp_learn src_ip mac;;
          if next_header =? 58 then handle_icmpv6 src_mac src_ip dst_ip ip_payload
          else if next_header =? 6 then tcp_handle_segment (V6 src_ip) ip_payload
          else mret tt.

Definition handle_frame (frame : list Z) : M unit :=
  if (length frame <? 14)%nat then mret tt
  else
    dst_mac ← sub frame 0 6;
    i ← getn ifc;
    m0 ← idx dst_mac 0;
    m1 ← idx dst_mac 1;
    if negb (bool_decide (dst_mac = NET_MAC i) || bool_decide (dst_mac = broadcast_mac) || (m0 =? 0x33) && (m1 =? 0x33))
    then mret tt
    else
      src_mac ← sub frame 6 12;
      ethertype ← be16 frame 12;
      payload ← sub frame 14 (length frame);
      if ethertype =? 0x0806 then handle_arp payload
      else if ethertype =? 0x0800 then handle_ipv4 src_mac payload
      else if ethertype =? 0x86DD then handle_ipv6 src_mac payload
      else mret tt.

(** ** Polling *)

Definition recv_frame : M (option (list Z)) := fun s =>
  let '(f, d) := nic_recv (USE_E1000 (ifc s)) (host s) in Got (f, with_host d s).

Fixpoint rx_loop (rounds : nat) : M unit :=
  match rounds with
  | O => stuck_n
  | S r =>
      f ← recv_frame;
      match f with None => mret tt | Some frame => handle_frame frame;; rx_loop r end
  end.

Variable rounds : nat.

Definition poll_rx_only : M unit :=
  i ← getn ifc;
  if NET_UP i then rx_loop rounds else mret tt.

Definition poll : M unit :=
  i ← getn ifc;
  if negb (NET_UP i) then mret tt
  else poll_rx_only;; arp_tick;; dhcp_tick;; tcp_tick;; ndp_tick.

Definition net_init : M unit :=
  found ← getn (fun s => match nic_mac false (host s) with
                         | Some m => Some (m, false)
                         | None => (fun m => (m, true)) <$> nic_mac true (host s)
                         end);
  match found with
  | None => mret tt
  | Some (mac, e1000) =>
      modn (fun s => with_ifc (set_card mac e1000 (mac_to_link_local mac) (ifc s)) s);;
      dhcp_init;; dns_init;; send_rs
  end.

(** ** Waiting *)

(** [loop { poll_rx_only(); check; if expired { break } after }] *)
Fixpoint wait_loop {A} (r : nat) (check : M (option A)) (expired : M bool) (after : M unit) : M (option A) :=
  match r with
  | O => stuck_n
  | S r' =>
      poll_rx_only;;
      a ← check;
      match a with
      | Some a => mret (Some a)
      | None => e ← expired; if e : bool then mret None else after;; wait_loop r' check expired after
      end
  end.

(** [physical_timer_count() >= end] *)
Definition past (deadline : Z) : M bool := c ← counter; mret (deadline <=? c).
(** The deadline [ms] milliseconds from now. *)
Definition deadline_ms (ms : Z) : M Z := c ← counter; mret (c +u as_u64 (ms * timer_freq) / 1000).

Fixpoint arp_attempts (n : nat) (look : list Z) : M (option (list Z)) :=
  match n with
  | O => mret None
  | S n' =>
      send_arp_request look;;
      c ← counter;
      m ← wait_loop rounds (arp_lookup look) (past (c +u timer_freq / 10)) (mret tt);
      match m with Some m => mret (Some m) | None => arp_attempts n' look end
  end.

Definition arp_resolve_blocking (dst_ip : list Z) : M (option (list Z)) :=
  if bool_decide (dst_ip = broadcast_ip) then mret (Some broadcast_mac)
  else
    i ← getn ifc;
    m ← arp_lookup (next_hop i dst_ip);
    match m with
    | Some m => mret (Some m)
    | None => arp_attempts 3 (next_hop i dst_ip)
    end.

Definition ndp_resolve_blocking (ip : list Z) : M (option (list Z)) :=
  m ← ndp_lookup ip;
  match m with
  | Some m => mret (Some m)
  | None =>
      send_ns ip;;
      t ← now;
      wait_loop rounds (ndp_lookup ip) (t' ← now; mret (as_u32 (t + 45) <=? t')) (mret tt)
  end.

(** ** Ping *)

(** The echo request; its checksum is taken over [tb[34..frame_total - 14]]. *)
Definition ping_frame (dst_mac dst_ip : list Z) : M unit :=
  put_ipv4 dst_mac [0x12; 0x34] 1 40 dst_ip;;
  tb_puts [(34%nat, [8; 0; 0; 0]); (38%nat, [0x00; 0x01; 0x00; 0x01]); (42%nat, Z.of_nat <$> seq 0 32)];;
  tb ← getn TX_BUF;
  body ← sub tb 34 60;
  tb_put 36 (to_be_bytes 2 (ip_checksum body));;
  _ ← tb_send 74; mret tt.

Definition send_ping (dst_ip : list Z) (timeout_ms : Z) : M Z :=
  i ← getn ifc;
  if negb (NET_UP i) then mret (-1)
  else
    m ← arp_resolve_blocking dst_ip;
    match m with
    | None => mret (-1)
    | Some dst_mac =>
        modn (fun s => with_ping (mk_ping None (PING6_REPLY (ping s))) s);;
        ping_frame dst_mac dst_ip;;
        start ← counter;
        let fin := start +u as_u64 (timeout_ms * timer_freq) / 1000 in
        r ← wait_loop rounds (getn (fun s => ICMP_PING_REPLY_TICKS (ping s))) (past fin) (mret tt);
        match r with
        | Some r =>
            if timer_freq =? 0 then crash_n else mret (as_i64 (as_u64 (Z.max (r - start) 0 * 1000) / timer_freq))
        | None => mret (-1)
        end
    end.

Definition ping6_body (src dst : list Z) : list Z :=
  with_checksum src dst
    (body_of 16 [(0%nat, [128]); (4%nat, to_be_bytes 2 PING6_ID); (6%nat, [0; 1]); (8%nat, replicate 8 0xAE)]).

Definition send_ping6 (dst_ip : list Z) (timeout_ms : Z) : M Z :=
  i ← getn ifc;
  let my_src := source_v6 i in
  if bool_decide (my_src = zero16) then mret (-1)
  else
    m ← ndp_resolve_blocking dst_ip;
    match m with
    | None => mret (-1)
    | Some dst_mac =>
        put_ipv6 dst_mac 16 58 255 my_src dst_ip;;
        tb_put 54 (ping6_body my_src dst_ip);;
        modn (fun s => with_ping (mk_ping (ICMP_PING_REPLY_TICKS (ping s)) None) s);;
        t0 ← now;
        _ ← tb_send 70;
        r ← wait_loop rounds (getn (fun s => PING6_REPLY (ping s)))
              (t ← now; mret (as_u32 (t0 + timeout_ms / 10) <=? t)) (mret tt);
        match r with
        | Some t1 => mret (as_u32 (u32_sub t1 t0 * 10))
        | None => mret (-1)
        end
    end.

(** ** TCP calls *)

Definition next_port : M Z :=
  p ← getn (fun s => NEXT_PORT (tcp s));
  modn (fun s => with_tcp (mk_tcps (CONNS (tcp s)) (if 65535 <=? p then 49152 else p + 1)) s);;
  mret p.

Definition tcp_connect (dst_ip : IpAddr) (dst_port : Z) : M (option nat) :=
  o ← find_conn (fun c => state c = Free);
  match o with
  | None => mret None
  | Some id =>
      m ← match dst_ip with V4 ip => arp_resolve_blocking ip | V6 ip => ndp_resolve_blocking ip end;
      match m with
      | None => mret None
      | Some _ =>
          port ← next_port;
          n ← counter;
          let isn := as_u32 n in
          t ← now;
          let ring := Some (RingBuf_new BUF_SIZE) in
          modc id (fun _ => mk_conn SynSent dst_ip dst_port port isn isn 0 0 8192 MSS_DEFAULT (u32_add t RETX_INIT) 0 1 t
                              CWND_INIT SSTHRESH_INIT 0 isn 0 false false 0 ring ring);;
          send_segment id TCP_SYN [];;
          modc id (fun c => put_snd_nxt (u32_add (snd_nxt c) 1) c);;
          mret (Some id)
      end
  end.

(** The SYN once more, when its time has come. *)
Definition resend_syn (id : nat) : M unit :=
  t ← now;
  c ← conn id;
  if (retx_ticks c <=? t) && (retx_count c <? RETX_MAX) then
    modc id (fun c => put_snd_nxt (snd_una c) c);;
    send_segment id TCP_SYN [];;
    modc id (fun c =>
      let b := double_max 16 (retx_backoff c) in
      put_retx_ticks (u32_add t (RETX_INIT * b)) (put_retx_backoff b
        (put_retx_count (as_u8 (retx_count c + 1)) (put_snd_nxt (u32_add (snd_una c) 1) c))))
  else mret tt.

Definition tcp_wait_established (id : nat) (timeout_ms : Z) : M bool :=
  fin ← deadline_ms timeout_ms;
  r ← wait_loop rounds
        (c ← conn id; mret (match state c with Established => Some true | Closed | Free => Some false | _ => None end))
        (past fin) (resend_syn id);
  mret (default false r).

(** Whether the wait for data is over, and how. *)
Definition readable_now (c : TcpConn) : option bool :=
  if (0 <? rx_avail c)%nat then Some true
  else match state c with
       | Closed | Free | CloseWait | Closing | FinWait2 | TimeWait => Some false
       | _ => None
       end.

Definition tcp_wait_readable (id : nat) (timeout_ms : Z) : M bool :=
  fin ← deadline_ms timeout_ms;
  r ← wait_loop rounds (flush_tx id;; c ← conn id; mret (readable_now c)) (past fin) (mret tt);
  mret (default false r).

Definition tcp_accept (listener : nat) (timeout_ms : Z) : M (option nat) :=
  if (MAX_CONNS <=? listener)%nat then mret None
  else
    c ← conn listener;
    fin ← deadline_ms timeout_ms;
    wait_loop rounds
      (o ← find_conn (fun x => state x = Established /\ is_server x = true /\ accept_port x = local_port c);
       match o with
       | Some id => modc id (put_is_server false);; mret (Some id)
       | None => mret None
       end)
      (past fin) (mret tt).

(** ** Names *)

Definition take_pending : M (option IpAddr) :=
  d ← getn dns;
  mod_dns (fun d => mk_dnss (DNS_CACHE d) (CACHE_CURSOR d) (PENDING_TXN d) None);;
  mret (PENDING_ADDR d).

Definition dns_resolve (name : list Z) : M (option IpAddr) :=
  match parse_dotted_ip name with
  | Some ip => mret (Some (V4 ip))
  | None =>
      a ← cache_lookup name;
      match a with
      | Some a => mret (Some a)
      | None =>
          n ← counter;
          mod_dns (fun d => mk_dnss (DNS_CACHE d) (CACHE_CURSOR d) (Z.land n 0xFFFF) None);;
          send_query name;;
          fin ← deadline_ms 2000;
          wait_loop rounds
            (a ← take_pending;
             match a with Some a => cache_insert name a 300;; mret (Some a) | None => mret None end)
            (past fin) (mret tt)
      end
  end.

End Net.
