(* ===== verification/NetFrames.v ===== *)
(** * Checksums and frames

    The checksums verify at the receiver, and what is sent is exactly the frame that was
    built, whatever the transmit buffer held before. *)

From stdpp Require Import base numbers list.
From Stdlib Require Import ZArith Lia Bool.
From S2P Require Import Prelude Sector NetState NetLink NetConf Tcp.

(** ** Bytes *)

Lemma be2 a b : be_bytes [a; b] = 256 * a + b.
Proof. unfold be_bytes. cbn. lia. Qed.

Lemma length_to_be_bytes n v : length (to_be_bytes n v) = n.
Proof. unfold to_be_bytes. by rewrite length_reverse, length_to_le_bytes. Qed.

Lemma be_to_be_bytes n v : be_bytes (to_be_bytes n v) = v mod 256 ^ Z.of_nat n.
Proof. unfold be_bytes, to_be_bytes. by rewrite reverse_involutive, le_to_le_bytes. Qed.

Lemma to_be_bytes_2 v : to_be_bytes 2 v = [v / 256 mod 256; v mod 256].
Proof. reflexivity. Qed.

Lemma to_le_bytes_u8 n v : Forall is_u8 (to_le_bytes n v).
Proof. revert v. induction n; intros v; cbn; constructor; [|done]. apply Z.mod_pos_bound. lia. Qed.

Lemma to_be_bytes_u8 n v : Forall is_u8 (to_be_bytes n v).
Proof. unfold to_be_bytes. apply Forall_reverse, to_le_bytes_u8. Qed.

(** ** Sums *)

(** The words of a buffer added up without wrapping. *)
Fixpoint words (l : list Z) : Z :=
  match l with
  | a :: b :: l' => 256 * a + b + words l'
  | [a] => 256 * a
  | [] => 0
  end.

(** Induction two bytes at a time. *)
Lemma pair_ind (P : list Z -> Prop) : P [] -> (forall a, P [a]) -> (forall a b l, P l -> P (a :: b :: l)) -> forall l, P l.
Proof.
  intros H0 H1 H2 l. assert (H : P l /\ forall a, P (a :: l)); [|apply H].
  induction l as [|b l [IH1 IH2]]; split; auto.
Qed.

Lemma words_bound l : Forall is_u8 l -> 0 <= words l <= 65535 * Z.of_nat (length l).
Proof.
  induction l as [|a|a b l IH] using pair_ind; intros H; cbn [words length]; [lia| |].
  - apply Forall_cons in H as [H _]. unfold is_u8 in H. lia.
  - apply Forall_cons in H as [Ha H]. apply Forall_cons in H as [Hb H]. specialize (IH H). unfold is_u8 in *. lia.
Qed.

Lemma sum_words_eq l sum : Forall is_u8 l -> 0 <= sum -> sum + 65535 * Z.of_nat (length l) < 2 ^ 32 ->
  sum_words sum l = sum + words l.
Proof.
  revert sum. induction l as [|a|a b l IH] using pair_ind; intros sum Hl Hs Hb; cbn [sum_words words length] in *; [lia| |].
  - apply Forall_cons in Hl as [Hl _]. rewrite Z.shiftl_mul_pow2 by lia. rewrite as_u32_small; unfold is_u8, is_u32 in *; lia.
  - apply Forall_cons in Hl as [Ha Hl]. apply Forall_cons in Hl as [Hb' Hl]. rewrite be2. unfold is_u8 in *.
    rewrite as_u32_small by (unfold is_u32; lia). rewrite IH; [lia|done|lia|lia].
Qed.

(** Folding the carries keeps the value modulo 65535, and zero only for zero. *)
Lemma fold_carry_spec sum : is_u32 sum ->
  let f := fold_carry 3 sum in 0 <= f < 2 ^ 16 /\ f mod 65535 = sum mod 65535 /\ (f = 0 <-> sum = 0).
Proof.
  intros Hs. assert (Hstep : forall x, 0 <= x -> Z.land x 65535 + Z.shiftr x 16 = x mod 65536 + x / 65536).
  { intros x Hx. rewrite Z.shiftr_div_pow2 by lia. by rewrite (land_ones_mod 16) by lia. }
  assert (Hm : forall x, (x mod 65536 + x / 65536) mod 65535 = x mod 65535).
  { intros x. rewrite (Z.div_mod x 65536) at 3 by lia.
    replace (65536 * (x / 65536) + x mod 65536) with (x mod 65536 + x / 65536 + (x / 65536) * 65535) by lia.
    by rewrite Z.mod_add. }
  assert (Hd : forall x, 0 <= x -> (Z.shiftr x 16 =? 0) = (x <? 65536)).
  { intros x Hx. rewrite Z.shiftr_div_pow2 by lia. change (2 ^ 16) with 65536.
    destruct (Z.ltb_spec x 65536); [rewrite Z.div_small by lia; done|]. apply Z.eqb_neq.
    pose proof (Z.div_le_lower_bound x 65536 1 ltac:(lia) ltac:(lia)). lia. }
  unfold is_u32 in Hs. cbn [fold_carry]. rewrite Hd by lia. destruct (Z.ltb_spec sum 65536); [cbv zeta; lia|].
  rewrite Hstep by lia. set (s1 := sum mod 65536 + sum / 65536).
  pose proof (Z.mod_pos_bound sum 65536 ltac:(lia)). pose proof (Z.div_mod sum 65536 ltac:(lia)).
  assert (Hs1 : 0 < s1 <= 131070) by (unfold s1; lia). assert (E1 : s1 mod 65535 = sum mod 65535) by apply Hm.
  rewrite Hd by lia. destruct (Z.ltb_spec s1 65536); [cbv zeta; lia|].
  rewrite Hstep by lia. set (s2 := s1 mod 65536 + s1 / 65536).
  assert (E2 : s2 mod 65535 = sum mod 65535) by (rewrite <- E1; apply Hm).
  pose proof (Z.mod_pos_bound s1 65536 ltac:(lia)). pose proof (Z.div_mod s1 65536 ltac:(lia)).
  assert (Hs2 : 0 < s2 < 65536) by (unfold s2; lia).
  rewrite Hd by lia. rewrite (proj2 (Z.ltb_lt s2 65536)) by lia. cbv zeta. lia.
Qed.

Lemma complement_range sum : is_u32 sum -> 0 <= complement sum < 2 ^ 16.
Proof.
  intros Hs. destruct (fold_carry_spec sum Hs) as [H _]. unfold complement, as_u16, wrap. rewrite Z.mod_small by lia. lia.
Qed.

(** Adding the complement gives a sum that folds to all ones. *)
Lemma complement_verifies sum : is_u32 sum -> is_u32 (sum + complement sum) -> complement (sum + complement sum) = 0.
Proof.
  intros Hs Hs'. destruct (fold_carry_spec sum Hs) as (Hf & Hm & Hz). destruct (fold_carry_spec _ Hs') as (Hf' & Hm' & Hz').
  assert (Ec : complement sum = 65535 - fold_carry 3 sum) by (unfold complement, as_u16, wrap; rewrite Z.mod_small by lia; done).
  set (t := sum + complement sum) in *. unfold complement, as_u16, wrap. rewrite Z.mod_small by lia.
  assert (E : fold_carry 3 t mod 65535 = 0).
  { rewrite Hm'. unfold t. rewrite Ec. set (f := fold_carry 3 sum) in *.
    replace (sum + (65535 - f)) with (sum - f + 1 * 65535) by lia. rewrite Z.mod_add by lia.
    rewrite Zminus_mod, Hm, Z.sub_diag. done. }
  assert (fold_carry 3 t <> 0) by (intros E0; apply Hz' in E0; unfold is_u32 in *; lia).
  apply Z.mod_divide in E as [k Hk]; [|lia]. lia.
Qed.

(** Appending at an even place adds the sums. *)
Lemma words_app l1 l2 : Nat.even (length l1) = true -> words (l1 ++ l2) = words l1 + words l2.
Proof.
  induction l1 as [|a|a b l IH] using pair_ind; intros H; cbn [app words length] in *; [lia|done|].
  rewrite IH; [lia|done].
Qed.

Lemma words_to_be v : 0 <= v < 2 ^ 16 -> words (to_be_bytes 2 v) = v.
Proof.
  intros Hv. rewrite to_be_bytes_2. cbn [words]. rewrite (Z.mod_small (v / 256)).
  - pose proof (Z.div_mod v 256 ltac:(lia)). lia.
  - split; [apply Z.div_pos; lia|apply Z.div_lt_upper_bound; lia].
Qed.

(** Filling in the two zero bytes of a field at an even place. *)
Lemma words_splice off v l : Nat.even off = true -> (off + 2 <= length l)%nat -> take 2 (drop off l) = [0; 0] ->
  0 <= v < 2 ^ 16 -> words (splice off (to_be_bytes 2 v) l) = words l + v.
Proof.
  intros He Hl Hz Hv. unfold splice. rewrite length_to_be_bytes.
  assert (El : l = take off l ++ [0; 0] ++ drop (off + 2) l) by (by rewrite <- Hz, <- drop_drop, take_drop, take_drop).
  rewrite El at 3. assert (Et : Nat.even (length (take off l)) = true) by (rewrite length_take_le by lia; done).
  rewrite !words_app by (done || by rewrite length_to_be_bytes). rewrite words_to_be by done. cbn [words]. lia.
Qed.

Lemma splice_u8 off data b : Forall is_u8 data -> Forall is_u8 b -> Forall is_u8 (splice off data b).
Proof.
  intros Hd Hb. unfold splice. repeat apply Forall_app_2; auto using Forall_take, Forall_drop.
Qed.

(** ** The transmit buffer *)

Definition bytes (n : nat) (l : list Z) : Prop := length l = n /\ Forall is_u8 l.

(** The writes of [tb_puts], and that they stay inside a buffer of [n] bytes. *)
Definition writes (l : list (nat * list Z)) (b : list Z) : list Z := foldl (fun b '(off, data) => splice off data b) b l.
Definition fit (n : nat) (l : list (nat * list Z)) : Prop := Forall (fun '(off, data) => off + length data <= n)%nat l.

(** Pieces that follow one another from [off] on. *)
Fixpoint adjacent (off : nat) (l : list (nat * list Z)) : Prop :=
  match l with [] => True | (o, data) :: l' => o = off /\ adjacent (off + length data) l' end.

Lemma length_writes n l b : length b = n -> fit n l -> length (writes l b) = n.
Proof.
  intros Hb Hl. revert b Hb. induction Hl as [|[off data] l H _ IH]; intros b Hb; cbn; [done|].
  apply IH. rewrite length_splice; lia.
Qed.

(** Two writes one after the other are one. *)
Lemma splice_splice off a c b : (off + length a + length c <= length b)%nat ->
  splice (off + length a) c (splice off a b) = splice off (a ++ c) b.
Proof.
  intros H. unfold splice. rewrite length_app.
  assert (Ht : length (take off b ++ a) = (off + length a)%nat) by (rewrite length_app, length_take_le; lia).
  rewrite (app_assoc (take off b) a), <- Ht. rewrite take_app_length.
  replace (length (take off b ++ a) + length c)%nat with (length (take off b ++ a) + length c)%nat by done.
  rewrite drop_app_add, drop_drop, Ht. rewrite <- !app_assoc. f_equal. f_equal. f_equal. f_equal. lia.
Qed.

Lemma writes_adjacent off l b : adjacent off l -> (off + length (concat (snd <$> l)) <= length b)%nat -> l <> [] ->
  writes l b = splice off (concat (snd <$> l)) b.
Proof.
  revert off b. induction l as [|[o data] l IH]; intros off b Ha Hl Hne; [done|]. destruct Ha as [-> Ha]. cbn [writes foldl fmap list_fmap concat snd] in *.
  rewrite length_app in Hl. destruct l as [|p l]; [by rewrite app_nil_r|].
  change (foldl _ (splice off data b) (p :: l)) with (writes (p :: l) (splice off data b)).
  rewrite (IH (off + length data)%nat); [|done|rewrite length_splice; lia|done]. apply splice_splice. lia.
Qed.

Section Buffer.
Context {D : Type} `{!NetHost D}.

Lemma tb_puts_eq l (s : net D) : fit (length (TX_BUF s)) l -> tb_puts l s = Got (tt, with_TX_BUF (writes l (TX_BUF s)) s).
Proof.
  revert s. induction l as [|[off data] l IH]; intros s Hl; cbn [tb_puts]; [by destruct s|].
  apply Forall_cons in Hl as [H Hl]. unfold mbind, N_bind, tb_put. rewrite (proj2 (Nat.leb_le _ _)) by done.
  rewrite IH; [done|]. cbn. by rewrite length_splice.
Qed.

Lemma tb_put_eq off data (s : net D) : (off + length data <= length (TX_BUF s))%nat ->
  tb_put off data s = Got (tt, with_TX_BUF (splice off data (TX_BUF s)) s).
Proof. intros H. unfold tb_put. by rewrite (proj2 (Nat.leb_le _ _)). Qed.

Lemma sub_eq (l : list Z) a b (s : net D) : (a <= b <= length l)%nat -> sub l a b s = Got (take (b - a) (drop a l), s).
Proof. intros H. unfold sub. by rewrite (proj2 (Nat.leb_le a b)), (proj2 (Nat.leb_le b _)) by lia. Qed.

(** The frame handed to the card is a prefix of the buffer. *)
Lemma tb_send_eq total (s : net D) : (total <= length (TX_BUF s))%nat ->
  tb_send total s = net_send_frame (take total (TX_BUF s)) s.
Proof. intros H. unfold tb_send, mbind, N_bind, getn. rewrite sub_eq by lia. by rewrite Nat.sub_0_r, drop_0. Qed.

End Buffer.

Lemma take_splice_0 data b n : n = length data -> take n (splice 0 data b) = data.
Proof. intros ->. unfold splice. rewrite take_0, app_nil_l. apply take_app_length. Qed.

(** The part of a buffer that was just written. *)
Lemma splice_part off data b : (off + length data <= length b)%nat -> take (length data) (drop off (splice off data b)) = data.
Proof.
  intros H. unfold splice. rewrite drop_app_le by (rewrite length_take_le; lia).
  rewrite drop_ge by (rewrite length_take_le; lia). rewrite app_nil_l. apply take_app_length.
Qed.

(** A write inside what was written before. *)
Lemma splice_inside off k c a b : (k + length c <= length a)%nat -> (off + length a <= length b)%nat ->
  splice (off + k) c (splice off a b) = splice off (splice k c a) b.
Proof.
  intros Hk Hb. unfold splice. assert (Ht : length (take off b) = off) by (apply length_take_le; lia).
  rewrite take_app_add' by done. rewrite take_app_le by lia. rewrite <- Nat.add_assoc, drop_app_add' by done.
  rewrite drop_app_le by lia. rewrite !length_app, length_take_le, length_drop by lia. rewrite <- !app_assoc.
  do 5 f_equal. lia.
Qed.

(** ** IPv4 headers *)

Definition eth_header (dst src ethertype : list Z) : list Z := dst ++ src ++ ethertype.
Definition ipv4_raw (ident : list Z) (proto : Z) (len : nat) (src dst : list Z) : list Z :=
  [0x45; 0x00] ++ to_be_bytes 2 (Z.of_nat (20 + len)) ++ ident ++ [0x40; 0x00] ++ [64; proto] ++ [0; 0] ++ src ++ dst.
Definition ipv4_header (ident : list Z) (proto : Z) (len : nat) (src dst : list Z) : list Z :=
  let h := ipv4_raw ident proto len src dst in splice 10 (to_be_bytes 2 (ip_checksum h)) h.

Lemma length_ipv4_raw ident proto len src dst : length ident = 2%nat -> length src = 4%nat -> length dst = 4%nat ->
  length (ipv4_raw ident proto len src dst) = 20%nat.
Proof. intros. unfold ipv4_raw. repeat rewrite length_app. rewrite length_to_be_bytes. cbn. lia. Qed.

Lemma length_ipv4_header ident proto len src dst : length ident = 2%nat -> length src = 4%nat -> length dst = 4%nat ->
  length (ipv4_header ident proto len src dst) = 20%nat.
Proof.
  intros Hi Hs Hd. unfold ipv4_header. pose proof (length_ipv4_raw ident proto len src dst Hi Hs Hd).
  rewrite length_splice; rewrite ?length_to_be_bytes; lia.
Qed.

(** A sum with its complement filled in at an even place verifies. *)
Lemma filled_verifies start off l : Forall is_u8 l -> (length l <= 2048)%nat -> Nat.even off = true -> (off + 2 <= length l)%nat ->
  take 2 (drop off l) = [0; 0] -> 0 <= start < 2 ^ 20 ->
  complement (sum_words start (splice off (to_be_bytes 2 (complement (sum_words start l))) l)) = 0.
Proof.
  intros Hu Hn He Hl Hz Hs. pose proof (words_bound l Hu) as Hw. rewrite (sum_words_eq l) by (done || lia).
  assert (H32 : is_u32 (start + words l)) by (unfold is_u32; lia). pose proof (complement_range _ H32) as Hc.
  set (c := complement (start + words l)) in *.
  rewrite sum_words_eq; [|by apply splice_u8; [apply to_be_bytes_u8|]|lia|rewrite length_splice by (rewrite length_to_be_bytes; lia); lia].
  rewrite words_splice by done. rewrite Z.add_assoc. apply complement_verifies; [done|]. unfold is_u32 in *. fold c. lia.
Qed.

(** The receiver's checksum over a header of ours is zero. *)
Lemma ipv4_header_verifies ident proto len src dst : bytes 2 ident -> is_u8 proto -> bytes 4 src -> bytes 4 dst ->
  ip_checksum (ipv4_header ident proto len src dst) = 0.
Proof.
  intros [Hi Ui] Hp [Hs Us] [Hd Ud]. pose proof (length_ipv4_raw ident proto len src dst Hi Hs Hd) as Hl.
  apply filled_verifies; [|lia|done|lia| |lia].
  - unfold ipv4_raw. repeat apply Forall_app_2; try done; try apply to_be_bytes_u8;
      repeat (constructor; [done || (unfold is_u8; lia)|]); constructor.
  - unfold ipv4_raw. rewrite to_be_bytes_2. destruct ident as [|i0 [|i1 [|]]]; try done.
Qed.

Lemma splice_app_r k c a b n : n = length a -> splice (n + k) c (a ++ b) = a ++ splice k c b.
Proof.
  intros ->. unfold splice. rewrite take_app_add, <- app_assoc. f_equal. f_equal. f_equal.
  rewrite <- Nat.add_assoc. apply drop_app_add.
Qed.

Section Headers.
Context {D : Type} `{!NetHost D}.

(** The state after the buffer got [l] at its start. *)
Definition sent_buf (l : list Z) (s : net D) : net D := with_TX_BUF (splice 0 l (TX_BUF s)) s.

Lemma with_TX_BUF_twice b b' (s : net D) : with_TX_BUF b (with_TX_BUF b' s) = with_TX_BUF b s.
Proof. by destruct s. Qed.

Lemma put_ipv4_eq dst_mac ident proto len dst_ip (s : net D) :
  length dst_mac = 6%nat -> length (NET_MAC (ifc s)) = 6%nat -> length ident = 2%nat -> length (NET_IP (ifc s)) = 4%nat ->
  length dst_ip = 4%nat -> length (TX_BUF s) = 2048%nat ->
  put_ipv4 dst_mac ident proto len dst_ip s =
  Got (tt, sent_buf (eth_header dst_mac (NET_MAC (ifc s)) [0x08; 0x00] ++ ipv4_header ident proto len (NET_IP (ifc s)) dst_ip) s).
Proof.
  intros Hm Hsm Hi Hs Hd Ht. set (e := eth_header dst_mac (NET_MAC (ifc s)) [0x08; 0x00]).
  set (h := ipv4_raw ident proto len (NET_IP (ifc s)) dst_ip).
  assert (He : length e = 14%nat) by (unfold e, eth_header; rewrite !length_app; cbn; lia).
  assert (Hh : length h = 20%nat) by (by apply length_ipv4_raw).
  unfold put_ipv4, mbind, N_bind, getn at 1. rewrite tb_puts_eq.
  2: { repeat constructor; cbn [length fst snd]; rewrite ?length_to_be_bytes; lia. }
  rewrite (writes_adjacent 0);
    [|cbn [adjacent]; rewrite ?length_to_be_bytes; cbn [length]; repeat split; lia
     |cbn [fmap list_fmap concat snd]; repeat rewrite length_app; rewrite ?length_to_be_bytes; cbn [length]; lia|done].
  set (l := concat _). assert (El : l = e ++ h).
  { unfold l, e, h, eth_header, ipv4_raw. cbn [fmap list_fmap concat snd]. rewrite <- !app_assoc. cbn [app]. by rewrite app_nil_r. }
  rewrite El. unfold getn. cbn [TX_BUF with_TX_BUF].
  assert (Hl : length (e ++ h) = 34%nat) by (rewrite length_app; lia).
  rewrite sub_eq by (rewrite length_splice; lia).
  assert (Ep : take (34 - 14) (drop 14 (splice 0 (e ++ h) (TX_BUF s))) = h).
  { change (34 - 14)%nat with 20%nat. rewrite take_drop_commute. change (14 + 20)%nat with 34%nat.
    rewrite take_splice_0 by done. rewrite <- He. apply drop_app_length. }
  rewrite Ep, tb_put_eq by (cbn [TX_BUF with_TX_BUF]; rewrite length_splice, length_to_be_bytes; lia). rewrite with_TX_BUF_twice. cbn [TX_BUF].
  pose proof (splice_inside 0 24 (to_be_bytes 2 (ip_checksum h)) (e ++ h) (TX_BUF s)) as Ei. rewrite length_to_be_bytes in Ei.
  cbn [Nat.add] in Ei. unfold sent_buf, ipv4_header. fold h.
  rewrite <- (splice_app_r 10 _ e h 14) by done. change (14 + 10)%nat with 24%nat. by rewrite <- Ei by lia.
Qed.

End Headers.

(** ** TCP segments *)

Definition tcp_header (c : TcpConn) (flags : Z) : list Z :=
  to_be_bytes 2 (local_port c) ++ to_be_bytes 2 (remote_port c) ++ to_be_bytes 4 (snd_nxt c) ++ to_be_bytes 4 (rcv_nxt c)
  ++ [Z.shiftl (Z.of_nat ((20 + options_len flags) / 4)) 4; flags] ++ to_be_bytes 2 (window c) ++ [0; 0] ++ [0; 0]
  ++ (if has flags TCP_SYN then 2 :: 4 :: to_be_bytes 2 MSS_DEFAULT else []).

Lemma length_tcp_header c flags : length (tcp_header c flags) = (20 + options_len flags)%nat.
Proof.
  unfold tcp_header. repeat rewrite length_app. rewrite ?length_to_be_bytes. unfold options_len.
  destruct (has flags 2); cbn; lia.
Qed.

Lemma tcp_raw_u8 c flags data : is_u8 flags -> Forall is_u8 data -> Forall is_u8 (tcp_header c flags ++ data).
Proof.
  intros Hf Hd. apply Forall_app_2; [|done]. unfold tcp_header. repeat apply Forall_app_2; try apply to_be_bytes_u8.
  - apply Forall_cons_2; [unfold options_len; destruct (has flags 2); by split|by apply Forall_cons_2].
  - do 2 (apply Forall_cons_2; [by split|]). by apply Forall_nil_2.
  - do 2 (apply Forall_cons_2; [by split|]). by apply Forall_nil_2.
  - destruct (has flags 2); [|by apply Forall_nil_2]. do 2 (apply Forall_cons_2; [by split|]). apply to_be_bytes_u8.
Qed.

(** The segment with its checksum, for the two kinds of addresses. *)
Definition tcp_segment (sum : list Z -> Z) (c : TcpConn) (flags : Z) (data : list Z) : list Z :=
  let seg := tcp_header c flags ++ data in splice 16 (to_be_bytes 2 (sum seg)) seg.

Lemma length_tcp_segment sum c flags data :
  length (tcp_segment sum c flags data) = (20 + options_len flags + length data)%nat.
Proof.
  unfold tcp_segment. rewrite length_splice; rewrite ?length_to_be_bytes, length_app, length_tcp_header; lia.
Qed.

Section Segments.
Context {D : Type} `{!NetHost D}.

Lemma conn_eq id c (s : net D) : CONNS (tcp s) !! id = Some c -> conn id s = Got (c, s).
Proof. intros H. unfold conn, conns, mbind, N_bind, getn. by rewrite H. Qed.

Lemma build_tcp_header_eq off id flags data c (s : net D) : CONNS (tcp s) !! id = Some c ->
  (off + (20 + options_len flags + length data) <= length (TX_BUF s))%nat ->
  build_tcp_header off id flags data s = Got (tt, with_TX_BUF (splice off (tcp_header c flags ++ data) (TX_BUF s)) s).
Proof.
  intros Hc Hl. unfold build_tcp_header, mbind, N_bind. rewrite (conn_eq _ c) by done.
  set (l := _ :: _ : list (nat * list Z)). assert (Hlen : length (concat (snd <$> l)) = 20%nat).
  { unfold l. cbn [fmap list_fmap concat snd]. repeat rewrite length_app. rewrite ?length_to_be_bytes. done. }
  assert (Ha : adjacent off l).
  { unfold l. cbn [adjacent]. rewrite ?length_to_be_bytes. cbn [length]. repeat split; lia. }
  rewrite tb_puts_eq.
  2: { unfold l. repeat constructor; cbn [length fst snd]; rewrite ?length_to_be_bytes; lia. }
  rewrite (writes_adjacent off) by (done || lia). set (a := concat (snd <$> l)) in *.
  assert (Ea : tcp_header c flags = a ++ (if has flags TCP_SYN then 2 :: 4 :: to_be_bytes 2 MSS_DEFAULT else [])).
  { unfold a, l, tcp_header. cbn [fmap list_fmap concat snd]. rewrite app_nil_r, <- !app_assoc. done. }
  rewrite Ea. unfold options_len in *. set (o := 2 :: 4 :: to_be_bytes 2 1460). assert (Ho : length o = 4%nat) by done.
  clearbody o. destruct (has flags 2).
  - rewrite tb_put_eq by (cbn [TX_BUF with_TX_BUF]; rewrite length_splice; lia). rewrite with_TX_BUF_twice. cbn [TX_BUF with_TX_BUF].
    pose proof (splice_splice off a o (TX_BUF s)) as E1. rewrite Hlen in E1. rewrite E1 by lia. assert (length (a ++ o) = 24%nat) by (rewrite length_app; lia).
    rewrite tb_put_eq by (cbn [TX_BUF with_TX_BUF]; rewrite length_splice; lia). rewrite with_TX_BUF_twice. cbn [TX_BUF with_TX_BUF].
    replace (off + 20 + 4)%nat with (off + length (a ++ o))%nat by lia. by rewrite splice_splice by lia.
  - rewrite app_nil_r. unfold mret, N_ret.
    rewrite tb_put_eq by (cbn [TX_BUF with_TX_BUF]; rewrite length_splice; lia). rewrite with_TX_BUF_twice. cbn [TX_BUF with_TX_BUF].
    replace (off + 20 + 0)%nat with (off + length a)%nat by lia. by rewrite splice_splice by lia.
Qed.

End Segments.
