(* ===== verification/NetInv.v ===== *)
(** * The type invariant of the network stack

    Every array has its length, every field its width, every ring is in order, and no
    connection sends segments longer than its buffer.  [okn] is the total-correctness
    triple: from such a state the computation returns, and in such a state. *)

From stdpp Require Import base numbers list.
From Stdlib Require Import ZArith Lia Bool.
From S2P Require Import Prelude Sector NetState NetLink NetConf Tcp Net NetFrames.

(** ** The invariant *)

Definition is_u16 (z : Z) : Prop := 0 <= z < 2 ^ 16.

Definition addr_ok (a : IpAddr) : Prop := match a with V4 l => bytes 4 l | V6 l => bytes 16 l end.

Record iface_ok (i : iface) : Prop := {
  io_ip : bytes 4 (NET_IP i);
  io_mask : bytes 4 (NET_MASK i);
  io_gw : bytes 4 (NET_GW i);
  io_mac : bytes 6 (NET_MAC i);
  io_ip6 : bytes 16 (NET_IP6 i);
  io_gw6 : bytes 16 (NET_GW6 i);
  io_ip6g : bytes 16 (NET_IP6G i);
}.

Definition arp_entry_ok (e : ArpEntry) : Prop := bytes 4 (a_ip e) /\ bytes 6 (a_mac e).
Definition arp_ok (a : arp_state) : Prop :=
  length (ARP_TABLE a) = 16%nat /\ Forall arp_entry_ok (ARP_TABLE a) /\ Forall (fun p => bytes 4 (ap_ip p)) (ARP_PENDING a).

Definition ndp_entry_ok (e : NdpEntry) : Prop := bytes 16 (n_ip e) /\ bytes 6 (n_mac e).
Definition ndp_ok (n : ndp_state) : Prop :=
  length (NDP_CACHE n) = 16%nat /\ Forall ndp_entry_ok (NDP_CACHE n) /\ Forall (fun p => bytes 16 (np_ip p)) (NDP_PENDING n).

Definition dhcp_ok (d : DhcpClient) : Prop := bytes 4 (offered_ip d) /\ bytes 4 (server_ip d) /\ is_u8 (retry_count d).

Definition dns_entry_ok (e : DnsEntry) : Prop :=
  length (dn_name e) = 64%nat /\ (dn_name_len e <= 63)%nat /\ addr_ok (dn_addr e).
Definition dns_ok (d : dns_state) : Prop :=
  length (DNS_CACHE d) = 16%nat /\ Forall dns_entry_ok (DNS_CACHE d) /\
  match PENDING_ADDR d with Some a => addr_ok a | None => True end.

(** A ring: [rlen] bytes from [rhead] on, and [rtail] where the next one goes. *)
Record ring_ok (r : RingBuf) : Prop := {
  ro_buf : bytes BUF_SIZE (rbuf r);
  ro_head : (rhead r < BUF_SIZE)%nat;
  ro_len : (rlen r <= BUF_SIZE)%nat;
  ro_tail : rtail r = ((rhead r + rlen r) mod BUF_SIZE)%nat;
}.
Definition oring_ok (o : option RingBuf) : Prop := match o with Some r => ring_ok r | None => True end.

Record conn_ok (c : TcpConn) : Prop := {
  co_ip : addr_ok (remote_ip c);
  co_rport : is_u16 (remote_port c);
  co_lport : is_u16 (local_port c);
  co_nxt : is_u32 (snd_nxt c);
  co_una : is_u32 (snd_una c);
  co_rcv : is_u32 (rcv_nxt c);
  co_wnd : is_u16 (snd_wnd c);
  co_mss : 0 <= mss c <= 1460;
  co_cwnd : is_u32 (cwnd c);
  co_thr : is_u32 (ssthresh c);
  co_count : is_u8 (retx_count c);
  co_back : is_u8 (retx_backoff c);
  co_rx : oring_ok (rx c);
  co_tx : oring_ok (tx c);
}.

Definition tcp_ok (t : tcp_state_t) : Prop := length (CONNS t) = 16%nat /\ Forall conn_ok (CONNS t) /\ is_u16 (NEXT_PORT t).

Record net_ok {D} (s : net D) : Prop := {
  no_ifc : iface_ok (ifc s);
  no_tx : bytes 2048 (TX_BUF s);
  no_arp : arp_ok (arp s);
  no_ndp : ndp_ok (ndp s);
  no_dhcp : dhcp_ok (CLIENT s);
  no_dns : dns_ok (dns s);
  no_tcp : tcp_ok (tcp s);
}.

(** ** Bytes *)

Lemma bytes_take n k l : bytes n l -> (k <= n)%nat -> bytes k (take k l).
Proof. intros [Hl Hu] Hk. split; [rewrite length_take; lia|by apply Forall_take]. Qed.
Lemma bytes_app n k l l' : bytes n l -> bytes k l' -> bytes (n + k) (l ++ l').
Proof. intros [Hl Hu] [Hl' Hu']. split; [rewrite length_app; lia|by apply Forall_app_2]. Qed.
Lemma bytes_replicate n b : is_u8 b -> bytes n (replicate n b).
Proof. intros Hb. split; [apply length_replicate|by apply Forall_replicate]. Qed.
Lemma bytes_to_be n v : bytes n (to_be_bytes n v).
Proof. split; [apply length_to_be_bytes|apply to_be_bytes_u8]. Qed.
Lemma bytes_splice n off data b : bytes n b -> Forall is_u8 data -> (off + length data <= n)%nat -> bytes n (splice off data b).
Proof. intros [Hl Hu] Hd Ho. split; [rewrite length_splice; lia|by apply splice_u8]. Qed.
Lemma bytes_nth l i : Forall is_u8 l -> is_u8 (nth i l 0).
Proof.
  intros Hl. destruct (nth_in_or_default i l 0) as [H| ->]; [|by split]. by eapply List.Forall_forall in Hl.
Qed.

(** The literal bytes of the headers. *)
Ltac u8s := repeat first [apply Forall_nil_2 | apply Forall_cons_2; [first [assumption | by split | unfold is_u8; lia]|]].

Lemma be_range n l : bytes n l -> 0 <= be_bytes l < 256 ^ Z.of_nat n.
Proof.
  intros [Hl Hu]. assert (H : forall l, Forall is_u8 l -> 0 <= le_bytes l < 256 ^ Z.of_nat (length l)).
  { clear. intros l Hl. induction Hl as [|b l Hb _ IH]; cbn [le_bytes length]; [lia|]. unfold is_u8 in Hb.
    rewrite Nat2Z.inj_succ, Z.pow_succ_r by lia. lia. }
  unfold be_bytes. rewrite <- Hl, <- length_reverse. apply H. by apply Forall_reverse.
Qed.

Lemma mac_ll_ok mac : bytes 6 mac -> bytes 16 (mac_to_link_local mac).
Proof.
  intros [Hl Hu]. split; [done|]. pose proof (fun i => bytes_nth mac i Hu) as Hn. unfold mac_to_link_local.
  assert (Hx : is_u8 (Z.lxor (nth 0 mac 0) 2)).
  { pose proof (Hn 0%nat) as H0. unfold is_u8 in *. assert (0 <= Z.lxor (nth 0 mac 0) 2) by (apply Z.lxor_nonneg; lia).
    split; [done|]. apply lt_pow2_by_bits; [lia|done|]. intros n Hn8.
    by rewrite Z.lxor_spec, (testbit_high 8), (testbit_high 8 2) by lia. }
  cbv zeta. repeat apply Forall_cons_2; auto; try (by split).
Qed.

(** ** Triples *)

Section Rules.
Context {D : Type} `{!NetHost D}.

Definition okn {A} (Q : A -> Prop) (m : N D A) : Prop :=
  forall s, net_ok s -> exists a s', m s = Got (a, s') /\ net_ok s' /\ Q a.

Lemma okn_ret {A} (Q : A -> Prop) a : Q a -> okn Q (mret a).
Proof. intros Ha s Hs. by exists a, s. Qed.

Lemma okn_bind {A B} (R : A -> Prop) (Q : B -> Prop) (m : N D A) (f : A -> N D B) :
  okn R m -> (forall a, R a -> okn Q (f a)) -> okn Q (m ≫= f).
Proof.
  intros Hm Hf s Hs. destruct (Hm s Hs) as (a & s' & E & Hs' & Ha). destruct (Hf a Ha s' Hs') as (b & s'' & E' & ? & ?).
  exists b, s''. unfold mbind, N_bind. rewrite E. done.
Qed.

Lemma okn_weaken {A} (R Q : A -> Prop) m : okn R m -> (forall a, R a -> Q a) -> okn Q m.
Proof. intros Hm HQ s Hs. destruct (Hm s Hs) as (a & s' & ? & ? & ?). exists a, s'. auto. Qed.

Lemma okn_getn {A} (f : net D -> A) (Q : A -> Prop) : (forall s, net_ok s -> Q (f s)) -> okn Q (getn f).
Proof. intros H s Hs. exists (f s), s. auto. Qed.

Lemma okn_modn f : (forall s, net_ok s -> net_ok (f s)) -> okn (fun _ => True) (modn f).
Proof. intros H s Hs. exists tt, (f s). auto. Qed.

Lemma with_host_ok d (s : net D) : net_ok s -> net_ok (with_host d s).
Proof. intros []. by split. Qed.

Lemma okn_now : okn is_u32 now.
Proof.
  intros s Hs. unfold now. destruct (ticks (host s)) as [t d]. eexists _, _. split; [done|]. split; [by apply with_host_ok|].
  apply as_u32_range.
Qed.
Lemma okn_counter : okn is_u64 counter.
Proof.
  intros s Hs. unfold counter. destruct (timer_count (host s)) as [t d]. eexists _, _. split; [done|].
  split; [by apply with_host_ok|]. apply as_u64_range.
Qed.

Lemma okn_idx l i : Forall is_u8 l -> (i < length l)%nat -> okn is_u8 (idx l i).
Proof.
  intros Hl Hi. unfold idx. destruct (lookup_lt_is_Some_2 l i Hi) as [b E]. rewrite E. apply okn_ret. by eapply Forall_lookup_1.
Qed.

Lemma okn_sub l a b : Forall is_u8 l -> (a <= b <= length l)%nat -> okn (bytes (b - a)) (sub l a b).
Proof.
  intros Hl H s Hs. rewrite sub_eq by done. eexists _, _. split; [done|]. split; [done|].
  split; [rewrite length_take, length_drop; lia|by apply Forall_take, Forall_drop].
Qed.

Lemma okn_be16 l i : Forall is_u8 l -> (i + 2 <= length l)%nat -> okn is_u16 (be16 l i).
Proof.
  intros Hl H. eapply okn_bind; [apply okn_sub; [done|lia]|]. intros b Hb. apply okn_ret.
  replace (i + 2 - i)%nat with 2%nat in Hb by lia. by apply be_range in Hb.
Qed.
Lemma okn_be32 l i : Forall is_u8 l -> (i + 4 <= length l)%nat -> okn is_u32 (be32 l i).
Proof.
  intros Hl H. eapply okn_bind; [apply okn_sub; [done|lia]|]. intros b Hb. apply okn_ret.
  replace (i + 4 - i)%nat with 4%nat in Hb by lia. by apply be_range in Hb.
Qed.

Lemma with_TX_ok b (s : net D) : net_ok s -> bytes 2048 b -> net_ok (with_TX_BUF b s).
Proof. intros [] Hb. by split. Qed.

Lemma okn_tb_put off data : Forall is_u8 data -> (off + length data <= 2048)%nat -> okn (fun _ => True) (tb_put off data).
Proof.
  intros Hd Ho s Hs. destruct (no_tx _ Hs) as [Hl Hu]. rewrite tb_put_eq by lia. eexists _, _. split; [done|]. split; [|done].
  apply with_TX_ok; [done|]. by apply bytes_splice.
Qed.

Lemma okn_tb_puts l : Forall (fun '(off, data) => Forall is_u8 data /\ off + length data <= 2048)%nat l -> okn (fun _ => True) (tb_puts l).
Proof.
  induction 1 as [|[off data] l [Hd Ho] _ IH]; cbn [tb_puts]; [by apply okn_ret|].
  eapply okn_bind; [by apply okn_tb_put|]. intros _ _. exact IH.
Qed.

Lemma okn_tb_send total : (total <= 2048)%nat -> okn (fun _ => True) (tb_send total).
Proof.
  intros Ht s Hs. destruct (no_tx _ Hs) as [Hl Hu]. rewrite tb_send_eq by lia. unfold net_send_frame.
  destruct (nic_send _ _ _) as [ok d]. eexists _, _. split; [done|]. split; [by apply with_host_ok|done].
Qed.

(** The buffer as the checksums read it. *)
Lemma okn_TX_BUF : okn (bytes 2048) (getn TX_BUF).
Proof. apply okn_getn. by intros s []. Qed.
Lemma okn_ifc : okn iface_ok (getn ifc).
Proof. apply okn_getn. by intros s []. Qed.

End Rules.

Create HintDb net.
#[export] Hint Resolve okn_now okn_counter okn_TX_BUF okn_ifc okn_tb_put okn_tb_puts okn_tb_send okn_be16 okn_be32 okn_idx okn_sub
  io_ip io_mask io_gw io_mac io_ip6 io_gw6 io_ip6g bytes_to_be to_be_bytes_u8 : net.
#[export] Hint Extern 1 (_ <= _)%nat => lia : net.
#[export] Hint Extern 1 (_ < _)%nat => lia : net.
#[export] Hint Extern 2 (_ <= _ <= _)%nat => lia : net.

(** One step of a computation, by the triple of its first part. *)
Ltac okb := eapply okn_bind; [solve [eauto 4 with net]|cbv beta; intros ? ?].
(** The parts of a packet. *)
Ltac puts := repeat (apply Forall_cons_2; [split; cbn [length]; rewrite ?length_to_be_bytes; [|lia]|]); try apply Forall_nil_2.

Section Link.
Context {D : Type} `{!NetHost D}.

Lemma bytes_u8 n l : bytes n l -> Forall is_u8 l.
Proof. by intros []. Qed.
Lemma bytes_len n l : bytes n l -> length l = n.
Proof. by intros []. Qed.
#[local] Hint Resolve bytes_u8 : net.

Lemma okn_put_ipv4 dst_mac ident proto len dst_ip : bytes 6 dst_mac -> bytes 2 ident -> is_u8 proto -> bytes 4 dst_ip ->
  okn (fun _ => True) (put_ipv4 (D := D) dst_mac ident proto len dst_ip).
Proof.
  intros [Lm Um] [Li Ui] Hp [Ld Ud] s Hs. destruct (no_tx _ Hs) as [Lt Ut]. destruct (no_ifc _ Hs) as [[Lip Uip] _ _ [Lmac Umac] _ _ _].
  rewrite put_ipv4_eq by done. eexists _, _. split; [done|]. split; [|done]. apply with_TX_ok; [done|].
  assert (Hl := length_ipv4_header ident proto len (NET_IP (ifc s)) dst_ip Li Lip Ld).
  apply bytes_splice; [done| |rewrite length_app, Hl; unfold eth_header; rewrite !length_app; cbn; lia].
  apply Forall_app_2; [unfold eth_header; repeat apply Forall_app_2; try done; u8s|].
  unfold ipv4_header. apply splice_u8; [apply to_be_bytes_u8|]. unfold ipv4_raw.
  repeat apply Forall_app_2; try done; try apply to_be_bytes_u8; u8s.
Qed.

Lemma okn_put_ipv6 dst_mac len next hops src dst : bytes 6 dst_mac -> is_u8 next -> is_u8 hops -> bytes 16 src -> bytes 16 dst ->
  okn (fun _ => True) (put_ipv6 (D := D) dst_mac len next hops src dst).
Proof.
  intros [Lm Um] Hn Hh [Ls Us] [Ld Ud]. unfold put_ipv6. okb. destruct (io_mac a H). apply okn_tb_puts. puts; try done; try lia; try apply to_be_bytes_u8; u8s.
Qed.

(** ** ARP *)

Lemma with_arp_ok a (s : net D) : net_ok s -> arp_ok a -> net_ok (with_arp a s).
Proof. intros [] Ha. by split. Qed.

Lemma okn_arp_learn ip mac : bytes 4 ip -> bytes 6 mac -> okn (fun _ => True) (arp_learn (D := D) ip mac).
Proof.
  intros Hi Hm s Hs. destruct (no_arp _ Hs) as (Hl & Hf & Hp). unfold arp_learn, mbind, N_bind, getn, modn.
  destruct (list_find _ _) as [[i e]|]; eexists _, _; (split; [done|]); (split; [|done]); (apply with_arp_ok; [done|]);
    (split; [cbn; by rewrite length_insert|]); (split; [|done]); by apply Forall_insert.
Qed.

Lemma okn_arp_lookup ip : okn (fun o => match o with Some m => bytes 6 m | None => True end) (arp_lookup (D := D) ip).
Proof.
  apply okn_getn. intros s Hs. destruct (no_arp _ Hs) as (_ & Hf & _). unfold arp_find.
  destruct (list_find _ _) as [[i e]|] eqn:E; cbn; [|done]. apply list_find_Some in E as (E & _ & _).
  by destruct (Forall_lookup_1 _ _ _ _ Hf E).
Qed.

Lemma okn_arp_packet dst_mac oper target_mac target_ip : bytes 6 dst_mac -> is_u8 oper -> bytes 6 target_mac -> bytes 4 target_ip ->
  okn (fun _ => True) (arp_packet (D := D) dst_mac oper target_mac target_ip).
Proof.
  intros [Lm Um] Ho [Lt Ut] [Li Ui]. unfold arp_packet. okb. destruct (io_mac a H), (io_ip a H).
  eapply okn_bind; [apply okn_tb_puts; puts; try done; try lia; u8s|intros ? ?]. okb. by apply okn_ret.
Qed.

Lemma broadcast_mac_ok : bytes 6 broadcast_mac.
Proof. by apply bytes_replicate. Qed.
Lemma zero_mac_ok : bytes 6 (replicate 6 0).
Proof. by apply bytes_replicate. Qed.

Lemma okn_arp_request ip : bytes 4 ip -> okn (fun _ => True) (send_arp_request (D := D) ip).
Proof. intros Hi. apply okn_arp_packet; auto using broadcast_mac_ok, zero_mac_ok. by split. Qed.

Lemma okn_arp_reply ip mac : bytes 4 ip -> bytes 6 mac -> okn (fun _ => True) (send_arp_reply (D := D) ip mac).
Proof. intros Hi Hm. apply okn_arp_packet; auto. by split. Qed.

Lemma okn_handle_arp payload : Forall is_u8 payload -> okn (fun _ => True) (handle_arp (D := D) payload).
Proof.
  intros Hu. unfold handle_arp. destruct (Nat.ltb_spec (length payload) 28); [by apply okn_ret|].
  do 3 okb. destruct (_ || _); [by apply okn_ret|]. do 3 okb. cbn [Nat.sub] in *.
  eapply okn_bind; [by apply okn_arp_learn|intros ? ?]. okb. destruct (_ && _); [by apply okn_arp_reply|by apply okn_ret].
Qed.

Lemma next_hop_ok i ip : iface_ok i -> bytes 4 ip -> bytes 4 (next_hop i ip).
Proof. intros Hi Hip. unfold next_hop. destruct (_ || _); [done|apply Hi]. Qed.

Lemma okn_resolve ip : bytes 4 ip -> okn (bytes 6) (resolve_mac_nonblocking (D := D) ip).
Proof.
  intros Hip. unfold resolve_mac_nonblocking. destruct (bool_decide _); [apply okn_ret, broadcast_mac_ok|]. okb.
  eapply okn_bind; [apply okn_arp_lookup|]. intros [m|] Hm; [by apply okn_ret|].
  eapply okn_bind; [by apply okn_arp_request, next_hop_ok|intros ? ?]. apply okn_ret, broadcast_mac_ok.
Qed.

Lemma okn_mapM {A} (P : A -> Prop) (f : A -> N D A) l : (forall x, P x -> okn P (f x)) -> Forall P l -> okn (Forall P) (mapM f l).
Proof.
  intros Hf. induction l as [|x l IH]; intros Hl; cbn [mapM]; [by apply okn_ret|]. apply Forall_cons in Hl as [Hx Hl].
  eapply okn_bind; [by apply Hf|intros y Hy]. eapply okn_bind; [by apply IH|intros ys Hys]. apply okn_ret. by constructor.
Qed.

Lemma okn_arp_tick : okn (fun _ => True) (arp_tick (D := D)).
Proof.
  unfold arp_tick. okb. eapply okn_bind; [apply (okn_getn arp arp_ok); by intros s []|]. intros ar (Hl & Hf & Hp).
  eapply okn_bind; [apply (okn_mapM (fun p => bytes 4 (ap_ip p))); [|exact Hp]|].
  - intros p Hi. unfold arp_retry. destruct (negb _); [by apply okn_ret|]. destruct (_ <? _); [by apply okn_ret|].
    destruct (3 <=? _); [by apply okn_ret|]. eapply okn_bind; [apply okn_arp_lookup|]. intros [m|] _; [by apply okn_ret|].
    eapply okn_bind; [by apply okn_arp_request|]. intros _ _. by apply okn_ret.
  - intros l Hq. apply okn_modn. intros s Hs. apply with_arp_ok; [done|]. destruct (no_arp _ Hs) as (? & ? & ?). by split.
Qed.

(** ** UDP *)

Lemma okn_udp_register port h : okn (fun _ => True) (udp_register (D := D) port h).
Proof.
  assert (Hw : forall l, okn (fun _ => True) (modn (with_HANDLERS (D := D) l))) by (intros l; apply okn_modn; intros s []; by split).
  unfold udp_register. eapply okn_bind; [by apply (okn_getn _ (fun _ => True))|]. intros l _.
  destruct (list_find _ _) as [[i e]|]; [|destruct (list_find _ _) as [[i e]|]; [|by apply okn_ret]];
    (eapply okn_bind; [apply Hw|intros ? ?; by apply okn_ret]).
Qed.

Lemma okn_udp_send dst_ip dst_port src_port data : bytes 4 dst_ip -> Forall is_u8 data ->
  okn (fun _ => True) (udp_send (D := D) dst_ip dst_port src_port data).
Proof.
  intros Hd Hu. unfold udp_send. okb. destruct (negb _); [by apply okn_ret|].
  destruct (Nat.ltb_spec 2048 (14 + 20 + 8 + length data)); [by apply okn_ret|].
  eapply okn_bind; [by apply okn_resolve|intros m Hm].
  eapply okn_bind; [apply okn_put_ipv4; try done; split; [done|u8s]|intros ? ?].
  eapply okn_bind; [apply okn_tb_puts; puts; try done; try apply to_be_bytes_u8; u8s|intros ? ?].
  apply okn_tb_send. lia.
Qed.

(** ** ICMP *)

Lemma okn_handle_icmp src_mac src_ip payload : bytes 6 src_mac -> bytes 4 src_ip -> Forall is_u8 payload ->
  okn (fun _ => True) (handle_icmp (D := D) src_mac src_ip payload).
Proof.
  intros [Lm Um] Hs Hu. unfold handle_icmp. destruct (Nat.ltb_spec (length payload) 8); [by apply okn_ret|]. okb.
  destruct (_ =? 8); [|destruct (_ =? 0); [|by apply okn_ret]].
  - unfold send_icmp_echo_reply. cbv zeta. destruct (Nat.ltb_spec 2048 (14 + (20 + length payload))); [by apply okn_ret|].
    eapply okn_bind; [apply (okn_sub src_mac 0 6); [done|lia]|intros m Hm].
    eapply okn_bind; [apply okn_put_ipv4; try done; split; [done|u8s]|intros ? ?].
    eapply okn_bind; [apply okn_tb_puts; puts; try done; u8s|intros ? ?]. eapply okn_bind; [apply okn_TX_BUF|intros tb [Lt Ut]].
    eapply okn_bind; [apply okn_sub; [done|lia]|intros b Hb].
    eapply okn_bind; [apply okn_tb_put; [apply to_be_bytes_u8|rewrite length_to_be_bytes; lia]|intros ? ?].
    eapply okn_bind; [apply okn_tb_send; lia|intros ? ?]. by apply okn_ret.
  - okb. apply okn_modn. intros s []. by split.
Qed.

End Link.

(** ** NDP and ICMPv6 *)

Section Ndp.
Context {D : Type} `{!NetHost D}.
#[local] Hint Resolve bytes_u8 : net.

Lemma with_ndp_ok n (s : net D) : net_ok s -> ndp_ok n -> net_ok (with_ndp n s).
Proof. intros [] Hn. by split. Qed.

Lemma okn_ndp_learn ip mac : bytes 16 ip -> bytes 6 mac -> okn (fun _ => True) (ndp_learn (D := D) ip mac).
Proof.
  intros Hi Hm. unfold ndp_learn. destruct (bool_decide _); [by apply okn_ret|]. intros s Hs. destruct (no_ndp _ Hs) as (Hl & Hf & Hp).
  unfold mbind, N_bind, getn, modn.
  assert (Hput : forall i, net_ok (with_ndp (mk_ndps (<[i := mk_ndp ip mac true]> (NDP_CACHE (ndp s))) (NDP_PENDING (ndp s))) s)).
  { intros i. apply with_ndp_ok; [done|]. split; [cbn; by rewrite length_insert|]. split; [by apply Forall_insert|done]. }
  destruct (list_find _ _) as [[i e]|]; [|destruct (list_find _ _) as [[i e]|]]; eexists _, _; (split; [done|]); by split.
Qed.

Lemma okn_ndp_lookup ip : okn (fun o => match o with Some m => bytes 6 m | None => True end) (ndp_lookup (D := D) ip).
Proof.
  apply okn_getn. intros s Hs. destruct (no_ndp _ Hs) as (_ & Hf & _). unfold ndp_find.
  destruct (list_find _ _) as [[i e]|] eqn:E; cbn; [|done]. apply list_find_Some in E as (E & _ & _).
  by destruct (Forall_lookup_1 _ _ _ _ Hf E).
Qed.

Lemma okn_build_v6 src dst dst_mac body : bytes 16 src -> bytes 16 dst -> bytes 6 dst_mac -> Forall is_u8 body ->
  okn (fun _ => True) (build_and_send_v6 (D := D) src dst dst_mac body).
Proof.
  intros Hs Hd Hm Hb. unfold build_and_send_v6. destruct (Nat.ltb_spec 2048 (14 + 40 + length body)); [by apply okn_ret|].
  eapply okn_bind; [apply okn_put_ipv6; try done; by split|intros ? ?]. okb. okb. by apply okn_ret.
Qed.

Lemma writes_u8 l b : Forall is_u8 b -> Forall (fun x => Forall is_u8 (snd x)) l -> Forall is_u8 (writes l b).
Proof.
  intros Hb Hl. revert b Hb. induction Hl as [|[off data] l Hd _ IH]; intros b Hb; cbn; [done|]. apply IH. by apply splice_u8.
Qed.

Lemma body_of_u8 n l : Forall (fun x => Forall is_u8 (snd x)) l -> Forall is_u8 (body_of n l).
Proof. apply writes_u8. apply Forall_replicate. by split. Qed.

Lemma with_checksum_u8 src dst body : Forall is_u8 body -> Forall is_u8 (with_checksum src dst body).
Proof. intros Hb. apply splice_u8; [apply to_be_bytes_u8|done]. Qed.

Lemma solicited_ok ip : bytes 16 ip -> bytes 16 (solicited_node_mc ip).
Proof.
  intros [Hl Hu]. split; [done|]. pose proof (fun i => bytes_nth ip i Hu) as Hn. unfold solicited_node_mc. cbv zeta.
  cbn [foldl]. repeat apply Forall_insert; try apply Hn; try (by split). apply Forall_replicate. by split.
Qed.

Lemma mc_mac_ok mc : bytes 16 mc -> bytes 6 (mc_ipv6_to_mac mc).
Proof.
  intros [Hl Hu]. split; [done|]. pose proof (fun i => bytes_nth mc i Hu) as Hn. unfold mc_ipv6_to_mac. repeat apply Forall_cons_2; auto; by split.
Qed.

Lemma okn_send_ns ip : bytes 16 ip -> okn (fun _ => True) (send_ns (D := D) ip).
Proof.
  intros Hi. unfold send_ns. okb. destruct (bool_decide _); [by apply okn_ret|]. cbv zeta.
  apply okn_build_v6; [apply H|by apply solicited_ok|by apply mc_mac_ok, solicited_ok|].
  apply with_checksum_u8, body_of_u8. destruct Hi as [_ Ui], (io_mac a H) as [_ Um]. repeat (apply Forall_cons_2; [cbn; try done; u8s|]). done.
Qed.

Lemma okn_send_na dst dst_mac target : bytes 16 dst -> bytes 6 dst_mac -> bytes 16 target ->
  okn (fun _ => True) (send_na (D := D) dst dst_mac target).
Proof.
  intros Hd Hm [_ Ut]. unfold send_na. okb. apply okn_build_v6; [apply H|done|done|].
  apply with_checksum_u8, body_of_u8. destruct (io_mac a H) as [_ Um]. repeat (apply Forall_cons_2; [cbn; try done; u8s|]). done.
Qed.

Lemma okn_send_rs : okn (fun _ => True) (send_rs (D := D)).
Proof.
  unfold send_rs. okb. destruct (bool_decide _); [by apply okn_ret|]. cbv zeta.
  apply okn_build_v6; [apply H|by split; [|u8s]|by split; [|u8s]|].
  apply with_checksum_u8, body_of_u8. destruct (io_mac a H) as [_ Um]. repeat (apply Forall_cons_2; [cbn; try done; u8s|]). done.
Qed.

(** Every option is at least eight bytes long, so the rounds suffice. *)
Lemma okn_option_tll rounds opts i : Forall is_u8 opts -> (length opts < i + rounds)%nat -> (0 < rounds)%nat ->
  okn (fun o => match o with Some m => bytes 6 m | None => True end) (option_tll (D := D) rounds opts i).
Proof.
  intros Hu. revert i. induction rounds as [|r IH]; intros i Hr H0; cbn [option_tll]; [lia|].
  destruct (Nat.leb_spec (i + 2) (length opts)); [|by apply okn_ret]. okb. okb.
  destruct (Nat.eqb_spec (Z.to_nat a0 * 8) 0); cbn [orb]; [by apply okn_ret|].
  destruct (Nat.ltb_spec (length opts) (i + Z.to_nat a0 * 8)); [by apply okn_ret|].
  destruct (_ && _) eqn:Eb; [|by apply IH; lia]. apply andb_true_iff in Eb as [_ Eb%Nat.leb_le].
  eapply okn_bind; [apply okn_sub; [done|lia]|]. intros m Hm. apply okn_ret. by replace (i + 8 - (i + 2))%nat with 6%nat in Hm by lia.
Qed.

Lemma okn_handle_na data : Forall is_u8 data -> okn (fun _ => True) (handle_na (D := D) data).
Proof.
  intros Hu. unfold handle_na. destruct (Nat.ltb_spec (length data) 20); [by apply okn_ret|]. okb. okb.
  eapply okn_bind; [apply okn_option_tll; [by eapply bytes_u8|lia|lia]|]. intros [m|] Hm; [by apply okn_ndp_learn|by apply okn_ret].
Qed.

Lemma okn_handle_ns src mac data : bytes 16 src -> bytes 6 mac -> Forall is_u8 data -> okn (fun _ => True) (handle_ns (D := D) src mac data).
Proof.
  intros Hs Hm Hu. unfold handle_ns. destruct (Nat.ltb_spec (length data) 20); [by apply okn_ret|]. okb. okb.
  destruct (_ && _); [by apply okn_ret|]. eapply okn_bind; [by apply okn_ndp_learn|intros ? ?]. by apply okn_send_na.
Qed.

Lemma with_ifc_ok i (s : net D) : net_ok s -> iface_ok i -> net_ok (with_ifc i s).
Proof. intros [] Hi. by split. Qed.

Lemma okn_ra_prefix data off t l : Forall is_u8 data -> (off + l <= length data)%nat -> okn (fun _ => True) (ra_prefix (D := D) data off t l).
Proof.
  intros Hu Hl. unfold ra_prefix. destruct (_ && _) eqn:Eb; [|by apply okn_ret]. apply andb_true_iff in Eb as [_ Eb%Nat.leb_le].
  okb. okb. destruct (_ && _ && _); [|by apply okn_ret]. okb. okb. apply okn_modn. intros s Hs. apply with_ifc_ok; [done|].
  assert (Hg : bytes 16 (take 8 a1 ++ drop 8 (mac_to_link_local (NET_MAC a2)))).
  { apply (bytes_app 8 8); [eapply bytes_take; [done|lia]|]. pose proof (mac_ll_ok _ (io_mac a2 H2)) as [_ Hm].
    split; [done|by apply Forall_drop]. }
  destruct (no_ifc _ Hs). by split.
Qed.

Lemma okn_ra_options rounds data off : Forall is_u8 data -> (length data < off + rounds)%nat -> (0 < rounds)%nat ->
  okn (fun _ => True) (ra_options (D := D) rounds data off).
Proof.
  intros Hu. revert off. induction rounds as [|r IH]; intros off Hr H0; cbn [ra_options]; [lia|].
  destruct (Nat.leb_spec (off + 2) (length data)); [|by apply okn_ret]. okb. okb.
  destruct (Nat.eqb_spec (Z.to_nat a0 * 8) 0); cbn [orb]; [by apply okn_ret|].
  destruct (Nat.ltb_spec (length data) (off + Z.to_nat a0 * 8)); [by apply okn_ret|].
  eapply okn_bind; [apply okn_ra_prefix; [done|lia]|intros ? ?]. apply IH; lia.
Qed.

Lemma okn_handle_ra src mac data : bytes 16 src -> bytes 6 mac -> Forall is_u8 data -> okn (fun _ => True) (handle_ra (D := D) src mac data).
Proof.
  intros Hs Hm Hu. unfold handle_ra. destruct (Nat.ltb_spec (length data) 12); [by apply okn_ret|].
  eapply okn_bind; [apply okn_modn; intros s Hok; apply with_ifc_ok; [done|]; destruct (no_ifc _ Hok); by split|intros ? ?].
  eapply okn_bind; [by apply okn_ndp_learn|intros ? ?]. apply okn_ra_options; [done|lia|lia].
Qed.

Lemma okn_ndp_tick : okn (fun _ => True) (ndp_tick (D := D)).
Proof.
  unfold ndp_tick. okb. eapply okn_bind; [apply (okn_getn ndp ndp_ok); by intros s []|]. intros n (Hl & Hf & Hp).
  eapply okn_bind; [apply (okn_mapM (fun p => bytes 16 (np_ip p))); [|exact Hp]|].
  - intros p Hi. unfold ndp_retry. destruct (negb _); [by apply okn_ret|]. destruct (_ <? _); [by apply okn_ret|].
    destruct (3 <=? _); [by apply okn_ret|]. eapply okn_bind; [by apply okn_send_ns|]. intros _ _. by apply okn_ret.
  - intros l Hq. apply okn_modn. intros s Hs. apply with_ndp_ok; [done|]. destruct (no_ndp _ Hs) as (? & ? & ?). by split.
Qed.

Lemma okn_handle_icmpv6 src_mac src dst data : bytes 6 src_mac -> bytes 16 src -> bytes 16 dst -> Forall is_u8 data ->
  okn (fun _ => True) (handle_icmpv6 (D := D) src_mac src dst data).
Proof.
  intros [Lm Um] Hs Hd Hu. unfold handle_icmpv6. destruct (Nat.ltb_spec (length data) 4); [by apply okn_ret|]. okb. okb.
  assert (Hm : okn (bytes 6) (sub (D := D) src_mac 0 6)) by (apply (okn_sub src_mac 0 6); [done|lia]). destruct H1 as [_ Ub].
  destruct (_ =? 128); [|destruct (_ =? 129)].
  - unfold handle_echo_request. destruct (Nat.ltb_spec (length data) 8); [by apply okn_ret|].
    destruct (Nat.ltb_spec 2048 (14 + 40 + length data)); [by apply okn_ret|].
    eapply okn_bind; [apply okn_ndp_lookup|]. intros [m|] Hmm; [|by apply okn_ret].
    eapply okn_bind; [apply okn_put_ipv6; try done; by split|intros ? ?].
    eapply okn_bind; [apply okn_tb_puts; puts; try done; u8s|intros ? ?]. eapply okn_bind; [apply okn_TX_BUF|intros tb [Lt Ut]].
    eapply okn_bind; [apply okn_sub; [done|lia]|intros b Hb].
    eapply okn_bind; [apply okn_tb_put; [apply to_be_bytes_u8|rewrite length_to_be_bytes; lia]|intros ? ?].
    eapply okn_bind; [apply okn_tb_send; lia|intros ? ?]. by apply okn_ret.
  - unfold handle_echo_reply. destruct (Nat.ltb_spec (length data) 8); [by apply okn_ret|]. okb. destruct (_ =? _); [|by apply okn_ret].
    okb. apply okn_modn. intros s []. by split.
  - destruct (_ =? 134); [|destruct (_ =? 135); [|destruct (_ =? 136); [by apply okn_handle_na|by apply okn_ret]]];
      (eapply okn_bind; [exact Hm|intros m Hmm]); [by apply okn_handle_ra|by apply okn_handle_ns].
Qed.

End Ndp.

(** ** DHCP and DNS *)

Section Conf.
Context {D : Type} `{!NetHost D}.
#[local] Hint Resolve bytes_u8 : net.

Ltac dhcp_split := split; [try done|split; [try done|try done; try by split]].

Lemma okn_mod_client f : (forall d, dhcp_ok d -> dhcp_ok (f d)) -> okn (fun _ => True) (mod_client (D := D) f).
Proof. intros Hf. apply okn_modn. intros s []. split; try done. by apply Hf. Qed.

Lemma okn_client : okn dhcp_ok (getn (D := D) CLIENT).
Proof. apply okn_getn. by intros s []. Qed.

Lemma broadcast_ip_ok : bytes 4 broadcast_ip.
Proof. by apply bytes_replicate. Qed.

Lemma okn_send_discover : okn (fun _ => True) (send_discover (D := D)).
Proof.
  unfold send_discover, make_xid.
  eapply okn_bind; [eapply okn_bind; [apply okn_now|intros t Ht; by apply (okn_ret (fun _ => True))]|intros x _].
  eapply okn_bind; [apply okn_mod_client; intros d (? & ? & ?); by dhcp_split|intros ? ?]. okb.
  eapply okn_bind; [apply okn_mod_client; intros d (? & ? & ?); by dhcp_split|intros ? ?].
  eapply okn_bind; [apply okn_client|intros c Hc]. okb.
  eapply okn_bind; [apply okn_udp_send; [apply broadcast_ip_ok|]|intros ? ?; by apply okn_ret].
  apply body_of_u8. cbn [dhcp_head app]. destruct (io_mac a2 H2). repeat (apply Forall_cons_2; [cbn [snd]; try done; try apply to_be_bytes_u8; u8s|]). done.
Qed.

Lemma okn_send_request offered server : bytes 4 offered -> bytes 4 server -> okn (fun _ => True) (send_request (D := D) offered server).
Proof.
  intros [_ Uo] [_ Us]. unfold send_request. eapply okn_bind; [apply okn_client|intros c Hc]. okb.
  eapply okn_bind; [apply okn_udp_send; [apply broadcast_ip_ok|]|intros ? ?; by apply okn_ret].
  apply body_of_u8. cbn [dhcp_head app]. destruct (io_mac a H). repeat (apply Forall_cons_2; [cbn [snd]; try done; try apply to_be_bytes_u8; u8s|]). done.
Qed.

Definition opts_ok (o : dhcp_opts) : Prop := bytes 4 (o_server o) /\ bytes 4 (subnet o) /\ bytes 4 (o_gw o).

Lemma dhcp_option_ok tag v o : Forall is_u8 v -> opts_ok o -> opts_ok (dhcp_option tag v o).
Proof.
  intros Hv (H1 & H2 & H3). unfold dhcp_option. assert (H4 : (4 <=? length v)%nat = true -> bytes 4 (take 4 v)).
  { intros E%Nat.leb_le. apply (bytes_take (length v)); [by split|done]. }
  cbv zeta. repeat match goal with |- context [if ?b && ?c then _ else _] => destruct b, c eqn:?; cbn [andb] end;
    (split; [|split]); cbn; auto.
Qed.

Lemma okn_dhcp_options rounds data i o : Forall is_u8 data -> (length data < i + rounds)%nat -> (0 < rounds)%nat -> opts_ok o ->
  okn opts_ok (dhcp_options (D := D) rounds data i o).
Proof.
  intros Hu. revert i o. induction rounds as [|r IH]; intros i o Hr H0 Ho; cbn [dhcp_options]; [lia|].
  destruct (Nat.ltb_spec (i + 1) (length data)); [|by apply okn_ret]. okb.
  destruct (a =? 255); [by apply okn_ret|]. destruct (a =? 0); [apply IH; lia || done|]. okb. cbv zeta.
  destruct (Nat.ltb_spec (length data) (i + 2 + Z.to_nat a0)); [by apply okn_ret|]. okb.
  apply IH; [lia|lia|]. apply dhcp_option_ok; [by eapply bytes_u8|done].
Qed.

Lemma okn_dhcp_bind yiaddr o : bytes 4 yiaddr -> opts_ok o -> okn (fun _ => True) (dhcp_bind (D := D) yiaddr o).
Proof.
  intros Hy (H1 & H2 & H3). unfold dhcp_bind. cbv zeta.
  assert (Hg : bytes 4 (if bool_decide (o_gw o = zero4) then take 3 yiaddr ++ [2] else o_gw o)).
  { destruct (bool_decide _); [|done]. apply (bytes_app 3 1); [by apply (bytes_take 4); [|lia]|]. split; [done|u8s]. }
  eapply okn_bind; [apply okn_modn; intros s Hs; apply with_ifc_ok; [done|]; destruct (no_ifc _ Hs); by split|intros ? ?]. okb.
  apply okn_mod_client. intros d (? & ? & ?). by dhcp_split.
Qed.

Lemma zero4_ok : bytes 4 zero4.
Proof. by apply bytes_replicate. Qed.

Lemma okn_handle_dhcp src_port data : Forall is_u8 data -> okn (fun _ => True) (handle_dhcp_packet (D := D) src_port data).
Proof.
  intros Hu. unfold handle_dhcp_packet. destruct (negb _); [by apply okn_ret|].
  destruct (Nat.ltb_spec (length data) 240); [by apply okn_ret|]. okb. destruct (negb _); [by apply okn_ret|].
  eapply okn_bind; [apply okn_client|intros c Hc]. okb. destruct (negb _); [by apply okn_ret|]. okb.
  eapply okn_bind; [apply okn_dhcp_options; [done|lia|lia|split_and!; try apply zero4_ok; by split; [|u8s]]|intros o Ho].
  destruct (_ && _); [|destruct (_ && _); [by apply okn_dhcp_bind|by apply okn_ret]].
  okb. eapply okn_bind; [apply okn_mod_client|intros ? ?; apply okn_send_request; [done|apply Ho]].
  intros d (? & ? & ?). destruct Ho as (? & ? & ?). by dhcp_split.
Qed.

Lemma okn_dhcp_again t : okn (fun _ => True) (dhcp_again (D := D) t).
Proof. apply okn_mod_client. intros d (? & ? & ?). dhcp_split. apply as_u8_range. Qed.

Lemma okn_dhcp_tick : okn (fun _ => True) (dhcp_tick (D := D)).
Proof.
  unfold dhcp_tick. okb. eapply okn_bind; [apply okn_client|intros c (Ho & Hsv & Hr)]. okb. destruct (_ <? _); [by apply okn_ret|].
  assert (Hset : forall v st, okn (fun _ => True) (mod_client (D := D) (fun d => set_next_action_tick v (set_d_state st d))))
    by (intros; apply okn_mod_client; intros d (? & ? & ?); by dhcp_split).
  destruct (d_state c); [by apply okn_ret| | | |].
  - destruct (3 <=? _).
    + eapply okn_bind; [|intros ? ?; apply Hset].
      apply okn_modn. intros s Hs. apply with_ifc_ok; [done|]. destruct (no_ifc _ Hs). split; try done; (split; [done|u8s]).
    + eapply okn_bind; [apply okn_dhcp_again|intros ? ?; apply okn_send_discover].
  - destruct (3 <=? _); [apply okn_send_discover|]. eapply okn_bind; [apply okn_dhcp_again|intros ? ?; by apply okn_send_request].
  - eapply okn_bind; [apply okn_mod_client; intros d (? & ? & ?); by dhcp_split|intros ? ?].
    apply okn_send_request; [apply H0|done].
  - destruct (3 <=? _); [apply okn_send_discover|]. eapply okn_bind; [apply okn_dhcp_again|intros ? ?].
    apply okn_send_request; [apply H0|done].
Qed.

Lemma okn_mod_dns f : (forall d, dns_ok d -> dns_ok (f d)) -> okn (fun _ => True) (mod_dns (D := D) f).
Proof. intros Hf. apply okn_modn. intros s []. split; try done. by apply Hf. Qed.

Lemma okn_skip_name p rounds data off : Forall is_u8 data -> (length data < off + rounds)%nat -> (0 < rounds)%nat ->
  okn (fun _ => True) (skip_name (D := D) p rounds data off).
Proof.
  intros Hu. revert off. induction rounds as [|r IH]; intros off Hr H0; cbn [skip_name]; [lia|].
  destruct (Nat.leb_spec (length data) off); [by apply okn_ret|]. okb. destruct (_ =? 0); [by apply okn_ret|].
  destruct (_ && _); [by apply okn_ret|]. apply IH; lia.
Qed.

Lemma okn_skip_questions n data off : Forall is_u8 data -> okn (fun _ => True) (skip_questions (D := D) n data off).
Proof.
  intros Hu. revert off. induction n as [|n IH]; intros off; cbn [skip_questions]; [by apply okn_ret|].
  eapply okn_bind; [apply okn_skip_name; [done|lia|lia]|]. intros [o|] _; [apply IH|by apply okn_ret].
Qed.

Lemma okn_read_record data off : Forall is_u8 data ->
  okn (fun o => match o with Some (_, rdata, _) => Forall is_u8 rdata | None => True end) (read_record (D := D) data off).
Proof.
  intros Hu. unfold read_record. destruct (Nat.leb_spec (length data) off); [by apply okn_ret|]. okb.
  eapply okn_bind; [destruct (_ <=? a); [by apply (okn_ret (fun _ => True))|apply okn_skip_name; [done|lia|lia]]|].
  intros [o|] _; [|by apply okn_ret]. destruct (Nat.ltb_spec (length data) (o + 10)); [by apply okn_ret|]. okb. okb. cbv zeta.
  destruct (Nat.ltb_spec (length data) (o + 10 + Z.to_nat a1)); [by apply okn_ret|]. okb. apply okn_ret. by eapply bytes_u8.
Qed.

Lemma okn_set_pending a : addr_ok a -> okn (fun _ => True) (set_pending (D := D) a).
Proof. intros Ha. apply okn_mod_dns. intros d (? & ? & ?). by split. Qed.

Lemma okn_read_answers n data off : Forall is_u8 data -> okn (fun _ => True) (read_answers (D := D) n data off).
Proof.
  intros Hu. revert off. induction n as [|n IH]; intros off; cbn [read_answers]; [by apply okn_ret|].
  eapply okn_bind; [by apply okn_read_record|]. intros [[[t rdata] o]|] Hr; [|by apply okn_ret].
  destruct ((t =? 1) && _) eqn:E; [|clear E; destruct ((t =? 28) && _) eqn:E'; [|apply IH]].
  - apply andb_true_iff in E as [_ E%Nat.eqb_eq]. by apply okn_set_pending.
  - apply andb_true_iff in E' as [_ E'%Nat.eqb_eq]. eapply okn_bind; [by apply (okn_getn dns (fun _ => True))|intros d _].
    eapply okn_bind; [|intros ? ?; apply IH]. destruct (PENDING_ADDR d); [by apply (okn_ret (fun _ => True))|by apply okn_set_pending].
Qed.

Lemma okn_handle_dns data : Forall is_u8 data -> okn (fun _ => True) (handle_dns_response (D := D) data).
Proof.
  intros Hu. unfold handle_dns_response. destruct (Nat.ltb_spec (length data) 12); [by apply okn_ret|]. okb.
  eapply okn_bind; [by apply (okn_getn dns (fun _ => True))|intros d _]. destruct (negb _); [by apply okn_ret|]. okb.
  destruct (_ =? 0); [by apply okn_ret|]. destruct (negb _); [by apply okn_ret|]. okb. okb. destruct (_ =? 0); [by apply okn_ret|].
  eapply okn_bind; [by apply okn_skip_questions|]. intros [o|] _; [by apply okn_read_answers|by apply okn_ret].
Qed.

End Conf.
