(* ===== verification/TcpRing.v ===== *)
(** * The ring buffers of TCP are queues

    [contents] is the queue a ring holds; [push], [pop], [peek_from] and [discard] are
    what they should be on it. *)

From stdpp Require Import base numbers list.
From Stdlib Require Import ZArith Lia Bool.
From S2P Require Import Prelude Sector NetState NetLink NetConf Tcp Net NetFrames NetInv.

#[local] Opaque BUF_SIZE.

Lemma buf_pos : (0 < BUF_SIZE)%nat.
Proof. Transparent BUF_SIZE. unfold BUF_SIZE. lia. Qed.
#[local] Opaque BUF_SIZE.

Lemma buf_mod_lt n : (n mod BUF_SIZE < BUF_SIZE)%nat.
Proof. apply Nat.mod_upper_bound. pose proof buf_pos. lia. Qed.
#[local] Hint Resolve buf_mod_lt buf_pos : core.

Definition contents (r : RingBuf) : list Z := ring_bytes (rhead r) (rlen r) r.

Lemma ring_cap r : ring_ok r -> cap r = BUF_SIZE.
Proof. by intros [[H _] _ _ _]. Qed.

Lemma length_ring_bytes from n r : length (ring_bytes from n r) = n.
Proof. unfold ring_bytes. by rewrite length_fmap, length_seq. Qed.

Lemma length_contents r : length (contents r) = rlen r.
Proof. apply length_ring_bytes. Qed.

Lemma lookup_ring_bytes from n r i : (i < n)%nat -> ring_bytes from n r !! i = Some (nth ((from + i) mod cap r) (rbuf r) 0).
Proof. intros Hi. unfold ring_bytes. rewrite list_lookup_fmap, lookup_seq_lt by done. done. Qed.

(** Offsets into the queue and positions in the buffer. *)
Lemma mod_shift a i n : ((a mod n + i) mod n = (a + i) mod n)%nat.
Proof. by rewrite Nat.Div0.add_mod_idemp_l. Qed.

Lemma mod_inj h i j : (i < BUF_SIZE)%nat -> (j < BUF_SIZE)%nat -> ((h + i) mod BUF_SIZE = (h + j) mod BUF_SIZE)%nat -> i = j.
Proof.
  intros Hi Hj E. pose proof (Nat.div_mod_eq (h + i) BUF_SIZE). pose proof (Nat.div_mod_eq (h + j) BUF_SIZE).
  rewrite E in *. set (x := ((h + i) / BUF_SIZE)%nat) in *. set (y := ((h + j) / BUF_SIZE)%nat) in *.
  assert (x = y \/ x < y \/ y < x)%nat as [-> |[L|L]] by lia; [lia| |]; nia.
Qed.

Lemma ring_bytes_u8 from n r : ring_ok r -> Forall is_u8 (ring_bytes from n r).
Proof.
  intros Hr. unfold ring_bytes. apply Forall_fmap, Forall_forall. intros i _. apply bytes_nth. by destruct Hr as [[_ Hu] _ _ _].
Qed.

Lemma peek_from_eq off len r : ring_ok r -> (off <= rlen r)%nat -> peek_from off len r = take len (drop off (contents r)).
Proof.
  intros Hr Ho. unfold peek_from, contents. apply list_eq. intros i.
  destruct (decide (i < Nat.min len (rlen r - off))%nat).
  - rewrite lookup_ring_bytes, lookup_take_lt, lookup_drop, lookup_ring_bytes by lia. by rewrite Nat.add_assoc.
  - rewrite (lookup_ge_None_2 (ring_bytes _ _ _)) by (rewrite length_ring_bytes; lia).
    rewrite lookup_ge_None_2; [done|]. rewrite length_take, length_drop, length_ring_bytes. lia.
Qed.

Lemma discard_ok n r : ring_ok r -> ring_ok (discard n r) /\ contents (discard n r) = drop n (contents r).
Proof.
  intros Hr. pose proof (ring_cap r Hr) as Hc. destruct Hr as [Hb Hh Hl Ht]. unfold discard. rewrite Hc. split.
  - split; cbn; [done|done|lia|]. rewrite Ht, mod_shift. f_equal. lia.
  - unfold contents. cbn [rhead rlen]. apply list_eq. intros i. destruct (decide (i < rlen r - Nat.min n (rlen r))%nat).
    + rewrite lookup_drop, !lookup_ring_bytes by lia. unfold cap in *. cbn [rbuf]. rewrite Hc, mod_shift. do 3 f_equal. lia.
    + rewrite !lookup_ge_None_2; [done|rewrite length_drop, length_ring_bytes; lia|rewrite length_ring_bytes; lia].
Qed.

(** One byte in. *)
Lemma ring_put_1 b r : ring_ok r -> (rlen r < BUF_SIZE)%nat -> is_u8 b ->
  let r' := mk_ring (<[rtail r := b]> (rbuf r)) (rhead r) ((rtail r + 1) mod cap r) (rlen r + 1) in
  ring_ok r' /\ contents r' = contents r ++ [b].
Proof.
  intros Hr Hlt Hb. pose proof (ring_cap r Hr) as Hc. destruct Hr as [[Hbl Hbu] Hh Hl Ht]. cbv zeta. rewrite Hc.
  assert (Htl : (rtail r < BUF_SIZE)%nat) by (rewrite Ht; apply buf_mod_lt). split.
  - split; cbn; [split; [by rewrite length_insert|by apply Forall_insert]|done|lia|]. rewrite Ht, mod_shift. f_equal. lia.
  - unfold contents. cbn [rhead rlen]. apply list_eq. intros i. destruct (decide (i < rlen r + 1)%nat).
    2: { rewrite !lookup_ge_None_2; [done|rewrite length_app, length_ring_bytes; cbn; lia|rewrite length_ring_bytes; lia]. }
    rewrite lookup_ring_bytes by done. unfold cap in *. cbn [rbuf]. rewrite length_insert, Hc.
    destruct (decide (i = rlen r)) as [->|Hne].
    + rewrite lookup_app_r by (rewrite length_ring_bytes; lia). rewrite length_ring_bytes, Nat.sub_diag. cbn. rewrite <- Ht.
      rewrite (nth_lookup_Some _ _ _ b); [done|]. apply list_lookup_insert_eq. lia.
    + rewrite lookup_app_l by (rewrite length_ring_bytes; lia). rewrite lookup_ring_bytes by lia. unfold cap. rewrite Hc. f_equal.
      rewrite !nth_lookup. rewrite list_lookup_insert_ne; [done|]. rewrite Ht. intros E. apply mod_inj in E; lia.
Qed.

Lemma ring_put_ok data r : ring_ok r -> (rlen r + length data <= BUF_SIZE)%nat -> Forall is_u8 data ->
  ring_ok (ring_put data r) /\ contents (ring_put data r) = contents r ++ data.
Proof.
  revert r. induction data as [|b data IH]; intros r Hr Hl Hu; cbn [ring_put length] in *; [by rewrite app_nil_r|].
  apply Forall_cons in Hu as [Hb Hu]. destruct (ring_put_1 b r Hr ltac:(lia) Hb) as [Hr' Hc].
  edestruct IH as [H1 H2]; [exact Hr'|cbn; lia|done|]. split; [done|]. rewrite H2, Hc. by rewrite <- app_assoc.
Qed.

(** [push] takes what fits. *)
Lemma push_ok data r : ring_ok r -> Forall is_u8 data ->
  let n := Nat.min (length data) (BUF_SIZE - rlen r) in
  (push data r).1 = n /\ ring_ok (push data r).2 /\ contents (push data r).2 = contents r ++ take n data.
Proof.
  intros Hr Hu. unfold push, free. rewrite (ring_cap r Hr). cbv zeta. set (n := Nat.min _ _). cbn [fst snd].
  destruct (ring_put_ok (take n data) r Hr) as [H1 H2]; [|by apply Forall_take|].
  - destruct Hr. rewrite length_take. lia.
  - done.
Qed.

Lemma ring_take_ok n r : ring_ok r -> (n <= rlen r)%nat ->
  (ring_take n r).1 = take n (contents r) /\ ring_ok (ring_take n r).2 /\ contents (ring_take n r).2 = drop n (contents r).
Proof.
  revert r. induction n as [|n IH]; intros r Hr Hn; cbn [ring_take]; [by rewrite take_0, drop_0|].
  destruct (discard_ok 1 r Hr) as [Hr' Hc']. unfold discard in Hr', Hc'. replace (Nat.min 1 (rlen r)) with 1%nat in * by lia.
  destruct (IH _ Hr') as (E1 & E2 & E3); [cbn; lia|]. destruct (ring_take n _) as [l r']. cbn [fst snd] in *.
  rewrite Hc' in *. assert (E0 : contents r !! 0%nat = Some (nth (rhead r) (rbuf r) 0)).
  { unfold contents. rewrite lookup_ring_bytes by lia. rewrite Nat.add_0_r, (ring_cap r Hr), Nat.mod_small by apply Hr. done. }
  destruct (contents r) as [|x q]; [done|]. injection E0 as <-. cbn [drop take] in *. rewrite drop_0 in *. rewrite E1. done.
Qed.

Lemma pop_ok len r : ring_ok r ->
  (pop len r).1 = take len (contents r) /\ ring_ok (pop len r).2 /\ contents (pop len r).2 = drop len (contents r).
Proof.
  intros Hr. unfold pop. destruct (ring_take_ok (Nat.min len (rlen r)) r Hr ltac:(lia)) as (E1 & E2 & E3).
  assert (Hl := length_contents r). rewrite E1, E3. split; [|split; [done|]].
  - destruct (decide (len <= rlen r)%nat); [by rewrite Nat.min_l|]. rewrite Nat.min_r by lia. rewrite !take_ge by lia. done.
  - destruct (decide (len <= rlen r)%nat); [by rewrite Nat.min_l|]. rewrite Nat.min_r by lia. rewrite !drop_ge by lia. done.
Qed.

Lemma RingBuf_new_ok : ring_ok (RingBuf_new BUF_SIZE).
Proof.
  split; cbn; [by apply bytes_replicate|apply buf_pos|lia|]. symmetry. apply Nat.Div0.mod_0_l.
Qed.
