(* ===== verification/TcpInv.v ===== *)
(** * TCP keeps the invariant

    No segment that is well formed makes the kernel panic, and every operation keeps
    the types. *)

From stdpp Require Import base numbers list.
From Stdlib Require Import ZArith Lia Bool.
From S2P Require Import Prelude Sector NetState NetLink NetConf Tcp Net NetFrames NetInv TcpRing.

#[local] Opaque BUF_SIZE.

(** ** Widths *)

Lemma u32_add_ok a b : is_u32 (u32_add a b).
Proof. apply as_u32_range. Qed.
Lemma u32_sub_ok a b : is_u32 (u32_sub a b).
Proof. apply as_u32_range. Qed.
Lemma sat_u32_ok z : 0 <= z -> is_u32 (sat_u32 z).
Proof. unfold sat_u32, is_u32. lia. Qed.
Lemma double_max_ok m x : is_u8 x -> 0 <= m -> is_u8 (double_max m x).
Proof. unfold double_max, is_u8. lia. Qed.
Lemma one_u8 : is_u8 1.
Proof. by split. Qed.
Lemma zero_u8 : is_u8 0.
Proof. by split. Qed.
#[export] Hint Resolve u32_add_ok u32_sub_ok one_u8 zero_u8 : net.

(** A change of a connection, by its fields. *)
Ltac conn_split := intros ? []; split; cbn; auto with net aeglos.

Lemma drop_conn_ok st c : conn_ok c -> conn_ok (drop_conn st c).
Proof. revert c. conn_split. Qed.

Lemma grow_cwnd_ok acked c : conn_ok c -> is_u32 (grow_cwnd acked c).
Proof.
  intros Hc. pose proof (co_cwnd _ Hc). pose proof (co_mss _ Hc). unfold grow_cwnd. destruct (_ <? _); apply sat_u32_ok; unfold is_u32 in *; [lia|].
  pose proof (Z.le_max_r (sat_u32 (mss c * Z.of_nat acked) / Z.max (cwnd c) 1) 1). lia.
Qed.

Lemma slide_ok ack_num acked c : is_u32 ack_num -> conn_ok c -> conn_ok (slide ack_num acked c).
Proof.
  intros Ha Hc. pose proof (grow_cwnd_ok acked c Hc). destruct Hc. unfold slide. cbv zeta.
  assert (Ht : oring_ok (discard acked <$> tx c)) by (destruct (tx c) as [r|]; [by apply discard_ok|done]).
  destruct (0 <? _); split; cbn; auto with net.
Qed.

Lemma fast_retransmit_ok c : conn_ok c -> conn_ok (fast_retransmit c).
Proof.
  intros Hc. pose proof (u32_sub_ok (snd_nxt c) (snd_una c)) as Hi. unfold fast_retransmit. cbv zeta.
  set (i := u32_sub _ _) in *. assert (Ht : is_u32 (Z.max (i / 2) (mss c * 2))).
  { pose proof (co_mss _ Hc). unfold is_u32 in *. pose proof (Z.div_pos i 2 ltac:(lia) ltac:(lia)).
    pose proof (Z.div_le_upper_bound i 2 i ltac:(lia) ltac:(lia)). lia. }
  destruct Hc. split; cbn; auto. apply sat_u32_ok. unfold is_u32 in *. lia.
Qed.

Section Tcp.
Context {D : Type} `{!NetHost D}.
#[local] Hint Resolve bytes_u8 : net.

(** ** Connections *)

Lemma okn_conns : okn (fun l => length l = 16%nat /\ Forall conn_ok l) (conns (D := D)).
Proof. apply okn_getn. intros s Hs. by destruct (no_tcp _ Hs) as (? & ? & ?). Qed.

Lemma okn_conn id : (id < 16)%nat -> okn conn_ok (conn (D := D) id).
Proof.
  intros Hi. eapply okn_bind; [apply okn_conns|]. intros l [Hl Hf]. destruct (lookup_lt_is_Some_2 l id) as [c E]; [lia|].
  rewrite E. apply okn_ret. by eapply Forall_lookup_1.
Qed.

Lemma okn_modc id f : (id < 16)%nat -> (forall c, conn_ok c -> conn_ok (f c)) -> okn (fun _ => True) (modc (D := D) id f).
Proof.
  intros Hi Hf. eapply okn_bind; [by apply okn_conn|intros c Hc]. apply okn_modn. intros s Hs.
  destruct (no_tcp _ Hs) as (Hl & Hfa & Hp). destruct Hs. split; try done. split; [cbn; by rewrite length_insert|].
  split; [|done]. apply Forall_insert; auto.
Qed.

Lemma okn_find_conn P `{!forall c, Decision (P c)} :
  okn (fun o => match o with Some id => (id < 16)%nat | None => True end) (find_conn (D := D) P).
Proof.
  eapply okn_bind; [apply okn_conns|]. intros l [Hl Hf]. apply okn_ret. destruct (list_find _ _) as [[i c]|] eqn:E; cbn; [|done].
  apply list_find_Some in E as (E & _). apply lookup_lt_Some in E. lia.
Qed.

(** ** Segments *)

Lemma okn_build_header off id flags data : (id < 16)%nat -> is_u8 flags -> Forall is_u8 data ->
  (off + (20 + options_len flags + length data) <= 2048)%nat -> okn (fun _ => True) (build_tcp_header (D := D) off id flags data).
Proof.
  intros Hid Hf Hu Hl. unfold build_tcp_header. eapply okn_bind; [by apply okn_conn|intros c Hc].
  eapply okn_bind; [apply okn_tb_puts; puts; try apply to_be_bytes_u8; try (by u8s)|intros ? ?].
  - apply Forall_cons_2; [|u8s]. unfold options_len. destruct (has flags 2); by split.
  - eapply okn_bind; [|intros ? ?; apply okn_tb_put; [done|lia]]. unfold options_len in Hl. destruct (has flags 2).
    + apply okn_tb_put; [|cbn; lia]. do 2 (apply Forall_cons_2; [by split|]). apply to_be_bytes_u8.
    + by apply (okn_ret (fun _ => True)).
Qed.

Lemma okn_send_segment id flags data : (id < 16)%nat -> is_u8 flags -> Forall is_u8 data ->
  okn (fun _ => True) (send_segment (D := D) id flags data).
Proof.
  intros Hid Hf Hu. unfold send_segment. eapply okn_bind; [by apply okn_conn|intros c Hc]. pose proof (co_ip _ Hc) as Ha.
  destruct (remote_ip c) as [ip|ip]; cbn [addr_ok] in Ha.
  - unfold send_segment_v4. cbv zeta. set (n := (20 + options_len flags + length data)%nat).
    eapply okn_bind; [by apply okn_resolve|intros m Hm]. destruct (Nat.ltb_spec 2048 (14 + (20 + n))); [by apply okn_ret|].
    eapply okn_bind; [apply okn_put_ipv4; try done; split; [done|u8s]|intros ? ?].
    eapply okn_bind; [apply okn_build_header; try done; fold n; lia|intros ? ?]. okb. eapply okn_bind; [apply okn_TX_BUF|intros tb [Lt Ut]].
    eapply okn_bind; [apply okn_sub; [done|lia]|intros b Hb].
    eapply okn_bind; [apply okn_tb_put; [apply to_be_bytes_u8|rewrite length_to_be_bytes; lia]|intros ? ?].
    eapply okn_bind; [apply okn_tb_send; lia|intros ? ?]. by apply okn_ret.
  - unfold send_segment_v6. cbv zeta. set (n := (20 + options_len flags + length data)%nat). okb.
    eapply okn_bind; [apply okn_ndp_lookup|]. intros [m|] Hm; [|by apply okn_ret].
    destruct (Nat.ltb_spec 2048 (14 + 40 + n)); [by apply okn_ret|].
    assert (Hsrc : bytes 16 (source_v6 a)) by (unfold source_v6; destruct (bool_decide _); apply H).
    eapply okn_bind; [apply okn_put_ipv6; try done; by split|intros ? ?].
    eapply okn_bind; [apply okn_build_header; try done; fold n; lia|intros ? ?].
    eapply okn_bind; [apply okn_tb_put; [u8s|cbn; lia]|intros ? ?]. eapply okn_bind; [apply okn_TX_BUF|intros tb [Lt Ut]].
    eapply okn_bind; [apply okn_sub; [done|lia]|intros b Hb].
    eapply okn_bind; [apply okn_tb_put; [apply to_be_bytes_u8|rewrite length_to_be_bytes; lia]|intros ? ?].
    eapply okn_bind; [apply okn_tb_send; lia|intros ? ?]. by apply okn_ret.
Qed.

Lemma okn_send_flags id flags : (id < 16)%nat -> is_u8 flags -> okn (fun _ => True) (send_segment (D := D) id flags []).
Proof. intros. by apply okn_send_segment. Qed.

Lemma okn_send_rst dst dst_port src_port seq : addr_ok dst -> okn (fun _ => True) (send_rst_raw (D := D) dst dst_port src_port seq).
Proof.
  intros Ha. unfold send_rst_raw. destruct dst as [ip|ip]; [|by apply okn_ret]. eapply okn_bind; [by apply okn_resolve|intros m Hm].
  eapply okn_bind; [apply okn_put_ipv4; try done; split; [done|u8s]|intros ? ?].
  eapply okn_bind; [apply okn_tb_puts; puts; try done; apply to_be_bytes_u8|intros ? ?]. okb.
  eapply okn_bind; [apply okn_TX_BUF|intros tb [Lt Ut]]. eapply okn_bind; [apply (okn_sub tb 34 54); [done|lia]|intros b Hb].
  eapply okn_bind; [apply okn_tb_put; [apply to_be_bytes_u8|rewrite length_to_be_bytes; lia]|intros ? ?].
  eapply okn_bind; [apply okn_tb_send; lia|intros ? ?]. by apply okn_ret.
Qed.

(** ** Sending *)

Lemma send_size_mss c : (send_size c <= Z.to_nat (mss c))%nat.
Proof. unfold send_size. lia. Qed.

Lemma peek_u8 off len c : conn_ok c -> Forall is_u8 (match tx c with Some t => peek_from off len t | None => [] end).
Proof. intros Hc. pose proof (co_tx _ Hc). destruct (tx c); [by apply ring_bytes_u8|done]. Qed.

Lemma okn_flush_loop n id : (id < 16)%nat -> okn (fun _ => True) (flush_loop (D := D) n id).
Proof.
  intros Hid. induction n as [|n IH]; cbn [flush_loop]; [by apply okn_ret|]. eapply okn_bind; [by apply okn_conn|intros c Hc]. cbv zeta.
  destruct (_ =? 0)%nat; [by apply okn_ret|]. pose proof (send_size_mss c). pose proof (co_mss _ Hc).
  destruct (Nat.ltb_spec 1460 (send_size c)); [lia|]. pose proof (peek_u8 (snd_cur c) (send_size c) c Hc) as Hu.
  destruct (_ =? 0)%nat; [by apply okn_ret|]. eapply okn_bind; [by apply okn_send_segment|intros ? ?].
  eapply okn_bind; [by apply okn_conn|intros c' Hc'].
  eapply okn_bind; [apply okn_modc; [done|conn_split]|intros ? ?].
  eapply okn_bind; [|intros ? ?; apply IH]. destruct (_ && _); [|by apply (okn_ret (fun _ => True))]. okb.
  apply okn_modc; [done|conn_split].
Qed.

Lemma okn_flush_tx id : (id < 16)%nat -> okn (fun _ => True) (flush_tx (D := D) id).
Proof. apply okn_flush_loop. Qed.

(** ** Receiving *)

Lemma okn_deliver id seq data : (id < 16)%nat -> Forall is_u8 data -> okn (fun _ => True) (deliver (D := D) id seq data).
Proof.
  intros Hid Hu. unfold deliver. eapply okn_bind; [by apply okn_conn|intros c Hc]. destruct (_ && _); [|by apply okn_ret].
  pose proof (co_rx _ Hc) as Hr. set (p := match rx c with Some r => _ | None => _ end).
  assert (Hp : oring_ok p.2).
  { unfold p. destruct (rx c) as [r|]; [|done]. pose proof (push_ok data r Hr Hu) as (_ & H & _). by destruct (push data r). }
  destruct p as [n r]. eapply okn_bind; [apply okn_modc; [done|conn_split]|intros ? ?]. by apply okn_send_flags.
Qed.

Lemma okn_on_ack id ack_num data : (id < 16)%nat -> is_u32 ack_num -> okn (fun _ => True) (on_ack (D := D) id ack_num data).
Proof.
  intros Hid Ha. unfold on_ack. eapply okn_bind; [by apply okn_conn|intros c Hc]. cbv zeta.
  eapply okn_bind; [instantiate (1 := fun _ => True)|intros ? ?].
  - destruct (_ && _); [|destruct (_ && _ && _); [|by apply okn_ret]].
    + eapply okn_bind; [apply okn_modc; [done|intros c' Hc'; by apply slide_ok]|intros ? ?]. by apply okn_flush_tx.
    + eapply okn_bind; [apply okn_modc; [done|conn_split]|intros ? ?]. eapply okn_bind; [by apply okn_conn|intros c' Hc'].
      destruct (_ =? 3); [|destruct (3 <? _); [|by apply okn_ret]].
      * eapply okn_bind; [apply okn_modc; [done|apply fast_retransmit_ok]|intros ? ?]. by apply okn_flush_tx.
      * eapply okn_bind; [apply okn_modc; [done|]|intros ? ?; by apply okn_flush_tx].
        intros c0 Hc0. pose proof (co_cwnd _ Hc0). pose proof (co_mss _ Hc0).
        assert (is_u32 (sat_u32 (cwnd c0 + mss c0))) by (apply sat_u32_ok; unfold is_u32 in *; lia). by destruct Hc0.
  - eapply okn_bind; [by apply okn_conn|intros c' Hc']. destruct (_ && _); [|by apply okn_ret]. okb. apply okn_modc; [done|conn_split].
Qed.

Lemma okn_on_fin id : (id < 16)%nat -> okn (fun _ => True) (on_fin (D := D) id).
Proof.
  intros Hid. unfold on_fin. eapply okn_bind; [apply okn_modc; [done|conn_split]|intros ? ?].
  eapply okn_bind; [by apply okn_send_flags|intros ? ?]. eapply okn_bind; [by apply okn_conn|intros c Hc].
  destruct (state c); try (by apply okn_ret); try (apply okn_modc; [done|conn_split]). okb. apply okn_modc; [done|conn_split].
Qed.

Lemma okn_on_established id seq ack_num flags data : (id < 16)%nat -> is_u32 ack_num -> Forall is_u8 data ->
  okn (fun _ => True) (on_established (D := D) id seq ack_num flags data).
Proof.
  intros Hid Ha Hu. unfold on_established.
  eapply okn_bind; [destruct (has flags 16); [by apply okn_on_ack|by apply (okn_ret (fun _ => True))]|intros ? ?].
  eapply okn_bind; [by apply okn_deliver|intros ? ?].
  eapply okn_bind; [destruct (has flags 1); [by apply okn_on_fin|by apply (okn_ret (fun _ => True))]|intros ? ?].
  eapply okn_bind; [by apply okn_conn|intros c Hc]. destruct (_ && _ && _); [apply okn_modc; [done|conn_split]|by apply okn_ret].
Qed.

Lemma okn_on_syn_rcvd id seq ack_num flags data : (id < 16)%nat -> is_u32 ack_num -> Forall is_u8 data ->
  okn (fun _ => True) (on_syn_rcvd (D := D) id seq ack_num flags data).
Proof.
  intros Hid Ha Hu. unfold on_syn_rcvd. eapply okn_bind; [by apply okn_conn|intros c Hc]. destruct (_ && _); [|by apply okn_ret].
  eapply okn_bind; [apply okn_modc; [done|conn_split]|intros ? ?]. by apply okn_deliver.
Qed.

Lemma okn_accept_syn src_ip src_port dst_port seq wnd : addr_ok src_ip -> is_u16 src_port -> is_u16 dst_port -> is_u16 wnd ->
  okn (fun _ => True) (accept_syn (D := D) src_ip src_port dst_port seq wnd).
Proof.
  intros Ha Hsp Hdp Hw. unfold accept_syn. eapply okn_bind; [apply okn_find_conn|]. intros [id|] Hid; [|by apply okn_ret]. okb. okb. cbv zeta.
  assert (Hisn : is_u32 (Z.lxor (as_u32 a) (Z.shiftl dst_port 16))).
  { pose proof (as_u32_range a). unfold is_u32, is_u16 in *. rewrite Z.shiftl_mul_pow2 by lia.
    assert (0 <= Z.lxor (as_u32 a) (dst_port * 2 ^ 16)) by (apply Z.lxor_nonneg; lia). split; [done|].
    apply lt_pow2_by_bits; [lia|done|]. intros n Hn. rewrite Z.lxor_spec, (testbit_high 32), (testbit_high 32); [done|lia|done|lia|done]. }
  pose proof RingBuf_new_ok. eapply okn_bind; [apply okn_modc; [done|]|intros ? ?].
  - intros _ _. split; cbn; auto with net; try (by split); lia.
  - eapply okn_bind; [by apply okn_send_flags|intros ? ?]. apply okn_modc; [done|conn_split].
Qed.

Lemma okn_no_match src_ip src_port dst_port seq ack_num flags wnd : addr_ok src_ip -> is_u16 src_port -> is_u16 dst_port -> is_u16 wnd ->
  okn (fun _ => True) (no_match (D := D) src_ip src_port dst_port seq ack_num flags wnd).
Proof.
  intros Ha Hsp Hdp Hw. unfold no_match. eapply okn_bind; [apply okn_find_conn|]. intros l _.
  destruct (_ && _ && _), l; try (by apply okn_accept_syn); (destruct (has flags 4); [by apply okn_ret|by apply okn_send_rst]).
Qed.

(** ** The handshake *)

(** The last MSS option of a segment that the loop of the code reaches. *)
Fixpoint mss_option (rounds : nat) (opts : list Z) (oi : nat) (m : option Z) : option Z :=
  match rounds with
  | O => m
  | S r =>
      if (oi + 1 <? length opts)%nat then
        let k := nth oi opts 0 in
        if k =? 0 then m
        else if k =? 1 then mss_option r opts (oi + 1) m
        else if (k =? 2) && (oi + 3 <? length opts)%nat
        then mss_option r opts (oi + 4) (Some (be_bytes (take 2 (drop (oi + 2) opts))))
        else mss_option r opts (oi + (2 + Z.to_nat (nth (oi + 1) opts 0))) m
      else m
  end.

Lemma idx_eq (l : list Z) i (s : net D) : (i < length l)%nat -> idx l i s = Got (nth i l 0, s).
Proof. intros Hi. unfold idx. destruct (lookup_lt_is_Some_2 l i Hi) as [b E]. rewrite E. by rewrite (nth_lookup_Some _ _ _ _ E). Qed.

Lemma peer_mss_eq rounds opts oi m o (s : net D) : (length opts < oi + rounds)%nat -> (0 < rounds)%nat ->
  peer_mss rounds opts oi (default m o) s = Got (default m (mss_option rounds opts oi o), s).
Proof.
  revert oi o. induction rounds as [|r IH]; intros oi o Hr H0; cbn [peer_mss mss_option]; [lia|].
  destruct (Nat.ltb_spec (oi + 1) (length opts)); [|done]. unfold mbind at 1, N_bind at 1. rewrite idx_eq by lia. cbv zeta.
  destruct (_ =? 0); [done|]. destruct (_ =? 1); [apply IH; lia|]. destruct (_ =? 2); cbn [andb].
  - destruct (Nat.ltb_spec (oi + 3) (length opts)).
    + unfold be16, mbind, N_bind. rewrite sub_eq by lia. replace (oi + 2 + 2 - (oi + 2))%nat with 2%nat by lia.
      apply (IH _ (Some _)); lia.
    + unfold mbind, N_bind. rewrite idx_eq by lia. apply IH; lia.
  - unfold mbind, N_bind. rewrite idx_eq by lia. apply IH; lia.
Qed.

(** A segment that opens a connection has a full header and asks for segments that fit
    our buffer. *)
Definition seg_doff (payload : list Z) : nat := (Z.to_nat (Z.shiftr (nth 12 payload 0%Z) 4) * 4)%nat.
Definition seg_benign (payload : list Z) : bool :=
  let flags := nth 13 payload 0 in
  let opts := take (Nat.min (seg_doff payload) (length payload) - 20) (drop 20 payload) in
  if has flags TCP_SYN && has flags TCP_ACK then
    (20 <=? seg_doff payload)%nat &&
    match mss_option (S (length opts)) opts 0 None with Some m => m <=? 1460 | None => true end
  else true.

Lemma mss_option_u16 rounds opts oi m : Forall is_u8 opts -> match m with Some m => 0 <= m | None => True end ->
  match mss_option rounds opts oi m with Some m => 0 <= m | None => True end.
Proof.
  intros Hu. revert oi m. induction rounds as [|r IH]; intros oi m Hm; cbn [mss_option]; [done|].
  destruct (_ <? _)%nat; [|done]. cbv zeta. destruct (_ =? 0); [done|]. destruct (_ =? 1); [by apply IH|].
  destruct (_ && _); apply IH; [|done]. apply (be_range (length (take 2 (drop (oi + 2) opts)))). split; [done|].
  by apply Forall_take, Forall_drop.
Qed.

Lemma okn_on_syn_sent id seq ack_num payload : (id < 16)%nat -> is_u32 ack_num -> Forall is_u8 payload -> (20 <= length payload)%nat ->
  seg_benign payload = true -> okn (fun _ => True) (on_syn_sent (D := D) id seq ack_num (nth 13 payload 0) (seg_doff payload) payload).
Proof.
  intros Hid Ha Hu Hl Hb. unfold on_syn_sent, seg_benign in *. cbv zeta in Hb. destruct (_ && _); [|by apply okn_ret].
  apply andb_true_iff in Hb as [Hd%Nat.leb_le Hm]. set (e := Nat.min (seg_doff payload) (length payload)) in *.
  eapply okn_bind; [apply okn_modc; [done|conn_split]|intros ? ?].
  assert (Es : forall s : net D, sub payload 20 e s = Got (take (e - 20) (drop 20 payload), s)) by (intros s; apply sub_eq; lia).
  set (opts := take (e - 20) (drop 20 payload)) in *. assert (Uo : Forall is_u8 opts) by (by apply Forall_take, Forall_drop).
  eapply (okn_bind (fun o => o = opts)); [intros s Hs; exists opts, s; split; [apply Es|done]|]. intros ? ->.
  eapply okn_bind; [by apply okn_conn|intros c Hc].
  eapply (okn_bind (fun m => 0 <= m <= 1460)).
  - intros s Hs. pose proof (peer_mss_eq (S (length opts)) opts 0 (mss c) None s ltac:(lia) ltac:(lia)) as E. cbn [default] in E.
    eexists _, _. split; [exact E|]. split; [done|]. pose proof (mss_option_u16 (S (length opts)) opts 0 None Uo I) as Hp.
    destruct (mss_option _ _ _ _) as [m|]; cbn; [|apply Hc]. apply Z.leb_le in Hm. lia.
  - intros m Hmr. eapply okn_bind; [apply okn_modc; [done|conn_split]|intros ? ?]. by apply okn_send_flags.
Qed.

Lemma okn_tcp_handle_segment src_ip payload : addr_ok src_ip -> Forall is_u8 payload -> seg_benign payload = true ->
  okn (fun _ => True) (tcp_handle_segment (D := D) src_ip payload).
Proof.
  intros Ha Hu Hb. unfold tcp_handle_segment. destruct (Nat.ltb_spec (length payload) 20); [by apply okn_ret|]. do 4 okb.
  assert (Ei : forall i (s : net D), (i < 20)%nat -> idx payload i s = Got (nth i payload 0, s)) by (intros; apply idx_eq; lia).
  assert (Hi : forall i, (i < 20)%nat -> okn (fun b => b = nth i payload 0) (idx (D := D) payload i))
    by (intros i Hlt s Hs; exists (nth i payload 0), s; auto).
  eapply okn_bind; [apply Hi; lia|intros ? ->]. cbv zeta. eapply okn_bind; [apply Hi; lia|intros ? ->]. okb.
  change (Z.to_nat (Z.shiftr (nth 12 payload 0%Z) 4) * 4)%nat with (seg_doff payload).
  assert (Ud : Forall is_u8 (if (seg_doff payload <=? length payload)%nat then drop (seg_doff payload) payload else []))
    by (destruct (_ <=? _)%nat; [by apply Forall_drop|done]).
  set (data := if (seg_doff payload <=? length payload)%nat then drop (seg_doff payload) payload else []) in *. eapply okn_bind; [apply okn_find_conn|]. intros [id|] Hid; [|by apply okn_no_match].
  destruct (has _ 4); [apply okn_modc; [done|apply drop_conn_ok]|].
  eapply okn_bind; [apply okn_modc; [done|conn_split]|intros ? ?]. eapply okn_bind; [by apply okn_conn|intros c Hc].
  destruct (state c); try (by apply okn_ret).
  - by apply okn_on_syn_sent.
  - by apply okn_on_syn_rcvd.
  - by apply okn_on_established.
  - by apply okn_on_established.
  - by apply okn_on_established.
  - destruct (_ && _); [apply okn_modc; [done|apply drop_conn_ok]|by apply okn_ret].
Qed.

(** ** Timers *)

Lemma okn_again id flags t : (id < 16)%nat -> is_u8 flags -> okn (fun _ => True) (again_or_free (D := D) id flags t).
Proof.
  intros Hid Hf. unfold again_or_free. eapply okn_bind; [by apply okn_conn|intros c Hc].
  destruct (_ <=? _); [apply okn_modc; [done|apply drop_conn_ok]|]. eapply okn_bind; [by apply okn_send_flags|intros ? ?].
  apply okn_modc; [done|conn_split].
Qed.

Lemma okn_persist id t : (id < 16)%nat -> okn (fun _ => True) (persist_probe (D := D) id t).
Proof.
  intros Hid. unfold persist_probe. eapply okn_bind; [by apply okn_conn|intros c Hc].
  eapply okn_bind; [apply okn_send_segment; [done|by split|by apply peek_u8]|intros ? ?].
  apply okn_modc; [done|]. intros c' []. split; cbn; auto. by apply double_max_ok.
Qed.

Lemma okn_retransmit id t c0 : (id < 16)%nat -> conn_ok c0 -> okn (fun _ => True) (retransmit (D := D) id t c0).
Proof.
  intros Hid H0. unfold retransmit. eapply okn_bind; [apply okn_modc; [done|]|intros ? ?].
  { intros c Hc. pose proof (u32_sub_ok (snd_nxt c0) (snd_una c0)) as Hi. set (i := u32_sub _ _) in *.
    assert (Ht : is_u32 (Z.max (i / 2) (mss c * 2))).
    { pose proof (co_mss _ Hc). unfold is_u32 in *. pose proof (Z.div_pos i 2 ltac:(lia) ltac:(lia)).
      pose proof (Z.div_le_upper_bound i 2 i ltac:(lia) ltac:(lia)). lia. }
    pose proof (co_una _ H0). assert (is_u32 (mss c)) by (pose proof (co_mss _ Hc); unfold is_u32; lia). destruct Hc. by split. }
  eapply okn_bind; [by apply okn_conn|intros c Hc]. cbv zeta. pose proof (co_mss _ H0). set (n := match tx c with Some _ => _ | None => _ end).
  assert (Hn : (n <= 1460)%nat) by (unfold n; destruct (tx c); lia). destruct (Nat.ltb_spec 1460 n); [lia|].
  eapply okn_bind; [apply okn_send_segment; [done|by destruct (bool_decide _); split|by apply peek_u8]|intros ? ?].
  apply okn_modc; [done|]. intros c' []. split; cbn; auto with net aeglos. by apply double_max_ok; [apply H0|].
Qed.

Lemma okn_tick_conn t id : (id < 16)%nat -> okn (fun _ => True) (tick_conn (D := D) t id).
Proof.
  intros Hid. unfold tick_conn. eapply okn_bind; [by apply okn_conn|intros c Hc]. cbv zeta.
  assert (Hdrop : forall st, okn (fun _ => True) (modc (D := D) id (drop_conn st)))
    by (intros; apply okn_modc; [done|apply drop_conn_ok]).
  assert (He : okn (fun _ => True) (_ ← (if persist_arm c && (persist_ticks c <=? t) then persist_probe id t else mret tt);
    if (0 <? u32_sub (snd_nxt c) (snd_una c)) && (retx_ticks c <=? t) then
      if 5 <=? retx_count c then modc id (drop_conn Closed) else retransmit id t c else (mret tt : N D unit))).
  { eapply okn_bind; [destruct (_ && _); [by apply okn_persist|by apply (okn_ret (fun _ => True))]|intros ? ?].
    destruct (_ && _); [|by apply okn_ret]. destruct (_ <=? _); [done|by apply okn_retransmit]. }
  destruct (state c); try (by apply okn_ret); try exact He; (case_if; [|by apply okn_ret]); try apply Hdrop;
    apply okn_again; done || by split.
Qed.

Lemma okn_tcp_tick : okn (fun _ => True) (tcp_tick (D := D)).
Proof.
  unfold tcp_tick. okb. assert (Hl : Forall (fun id => id < 16)%nat (seq 0 16)) by (by apply Forall_seq; lia).
  induction Hl as [|id l Hid _ IH]; cbn [tick_conns]; [by apply okn_ret|]. eapply okn_bind; [by apply okn_tick_conn|intros ? ?; exact IH].
Qed.

(** ** Calls *)

Lemma okn_tcp_write id data : Forall is_u8 data -> okn (fun _ => True) (tcp_write (D := D) id data).
Proof.
  intros Hu. unfold tcp_write. destruct (Nat.leb_spec 16 id); [by apply okn_ret|]. eapply okn_bind; [by apply okn_conn|intros c Hc].
  pose proof (co_tx _ Hc) as Ht. destruct (state c), (tx c) as [t|]; try (by apply okn_ret);
    (pose proof (push_ok data t Ht Hu) as (_ & Hp & _); destruct (push data t) as [n t'];
     eapply okn_bind; [apply okn_modc; [done|conn_split]|intros ? ?];
     eapply okn_bind; [by apply okn_flush_tx|intros ? ?; by apply okn_ret]).
Qed.

Lemma okn_tcp_read id len : okn (Forall is_u8) (tcp_read (D := D) id len).
Proof.
  unfold tcp_read. destruct (Nat.leb_spec 16 id); [by apply okn_ret|]. eapply okn_bind; [by apply okn_conn|intros c Hc].
  pose proof (co_rx _ Hc) as Hr. destruct (rx c) as [r|]; [|by apply okn_ret]. pose proof (pop_ok len r Hr) as (E & Hp & _).
  assert (Hu : Forall is_u8 (pop len r).1) by (rewrite E; apply Forall_take; by apply ring_bytes_u8).
  destruct (pop len r) as [b r']. eapply okn_bind; [apply okn_modc; [done|conn_split]|intros ? ?]. by apply okn_ret.
Qed.

Lemma okn_tcp_close id : okn (fun _ => True) (tcp_close (D := D) id).
Proof.
  unfold tcp_close. destruct (Nat.leb_spec 16 id); [by apply okn_ret|]. eapply okn_bind; [by apply okn_conn|intros c Hc].
  assert (Hfin : forall st, okn (fun _ => True) (send_fin (D := D) id st)).
  { intros st. unfold send_fin. eapply okn_bind; [by apply okn_send_flags|intros ? ?].
    eapply okn_bind; [apply okn_modc; [done|conn_split]|intros ? ?]. okb. apply okn_modc; [done|conn_split]. }
  destruct (state c); try apply Hfin; (apply okn_modc; [done|apply drop_conn_ok]).
Qed.

Lemma okn_tcp_listen port : is_u16 port -> okn (fun _ => True) (tcp_listen (D := D) port).
Proof.
  intros Hp. unfold tcp_listen. eapply okn_bind; [apply okn_find_conn|]. intros [id|] Hid; [|by apply okn_ret]. okb.
  eapply okn_bind; [apply okn_modc; [done|]|intros ? ?; by apply okn_ret].
  intros _ _. split; cbn; auto with net; try (by split); try apply zero4_ok; lia.
Qed.

End Tcp.
