(* ===== verification/NetSafe.v ===== *)
(** * Which frames are safe

    A benign frame never makes the kernel panic; the frames that are not benign are the
    ones the parsers slice out of range. *)

From stdpp Require Import base numbers list.
From Stdlib Require Import ZArith Lia Bool.
From S2P Require Import Prelude Sector NetState NetLink NetConf Tcp Net NetFrames NetInv TcpRing TcpInv.

#[local] Opaque BUF_SIZE.

(** ** Fields *)

Definition field16 (l : list Z) (i : nat) : Z := be_bytes (take 2 (drop i l)).
Definition field32 (l : list Z) (i : nat) : Z := be_bytes (take 4 (drop i l)).

Section Fields.
Context {D : Type} `{!NetHost D}.

Lemma be16_eq (l : list Z) i (s : net D) : (i + 2 <= length l)%nat -> be16 l i s = Got (field16 l i, s).
Proof. intros H. unfold be16, mbind, N_bind. rewrite sub_eq by lia. by replace (i + 2 - i)%nat with 2%nat by lia. Qed.
Lemma be32_eq (l : list Z) i (s : net D) : (i + 4 <= length l)%nat -> be32 l i s = Got (field32 l i, s).
Proof. intros H. unfold be32, mbind, N_bind. rewrite sub_eq by lia. by replace (i + 4 - i)%nat with 4%nat by lia. Qed.

(** The same as triples: the value read is known. *)
Lemma okn_be16_is (l : list Z) i : (i + 2 <= length l)%nat -> okn (D := D) (fun v => v = field16 l i) (be16 l i).
Proof. intros H s Hs. rewrite be16_eq by done. by exists (field16 l i), s. Qed.
Lemma okn_idx_is (l : list Z) i : (i < length l)%nat -> okn (D := D) (fun v => v = nth i l 0) (idx l i).
Proof. intros H s Hs. rewrite idx_eq by done. by exists (nth i l 0), s. Qed.
Lemma okn_sub_is (l : list Z) a b : (a <= b <= length l)%nat -> okn (D := D) (fun v => v = take (b - a) (drop a l)) (sub l a b).
Proof. intros H s Hs. rewrite sub_eq by done. eauto. Qed.

End Fields.

Lemma part_bytes l a n : Forall is_u8 l -> (a + n <= length l)%nat -> bytes n (take n (drop a l)).
Proof. intros Hu Hl. split; [rewrite length_take, length_drop; lia|by apply Forall_take, Forall_drop]. Qed.

(** ** Benign frames *)

(** The header length, the total length and the payload of an IPv4 packet. *)
Definition ip_ihl (p : list Z) : nat := Z.to_nat (Z.land (nth 0 p 0) 0xF * 4).
Definition ip_total (p : list Z) : nat := Z.to_nat (field16 p 2).
Definition ip_payload (p : list Z) : list Z := take (ip_total p - ip_ihl p) (drop (ip_ihl p) p).

Definition udp_benign (p : list Z) : bool := (length p <? 8)%nat || (8 <=? field16 p 4).

Definition ipv4_benign (p : list Z) : bool :=
  (ip_ihl p <=? ip_total p)%nat &&
  (if nth 9 p 0 =? 6 then seg_benign (ip_payload p) else if nth 9 p 0 =? 17 then udp_benign (ip_payload p) else true).

Definition ipv6_benign (p : list Z) : bool :=
  if nth 6 p 0 =? 6 then seg_benign (take (Z.to_nat (field16 p 4)) (drop 40 p)) else true.

Definition frame_benign (frame : list Z) : bool :=
  let p := drop 14 frame in
  if field16 frame 12 =? 0x0800 then ipv4_benign p else if field16 frame 12 =? 0x86DD then ipv6_benign p else true.

Section Safe.
Context {D : Type} `{!NetHost D}.
#[local] Hint Resolve bytes_u8 : net.

Lemma okn_run_handlers l src_port dst_port data : Forall is_u8 data ->
  okn (D := D) (fun _ => True) (run_handlers l src_port dst_port data).
Proof.
  intros Hu. induction l as [|h l IH]; cbn [run_handlers]; [by apply okn_ret|]. eapply okn_bind; [|intros ? ?; exact IH].
  destruct (_ && _); [|by apply (okn_ret (fun _ => True))]. unfold run_handler.
  destruct (u_handler h); [by apply okn_ret|by apply okn_handle_dhcp|by apply okn_handle_dns].
Qed.

Lemma okn_udp_dispatch p : Forall is_u8 p -> udp_benign p = true -> okn (D := D) (fun _ => True) (handle_udp_dispatch p).
Proof.
  intros Hu Hb. unfold handle_udp_dispatch, udp_benign in *. destruct (Nat.ltb_spec (length p) 8); [by apply okn_ret|].
  cbn [orb] in Hb. apply Z.leb_le in Hb. okb. okb. eapply okn_bind; [apply okn_be16_is; lia|intros ? ->].
  eapply okn_bind; [apply okn_sub; [done|lia]|intros d [_ Hd]]. eapply okn_bind; [by apply (okn_getn _ (fun _ => True))|intros l _].
  by apply okn_run_handlers.
Qed.

Lemma okn_handle_ipv4 mac p : bytes 6 mac -> Forall is_u8 p -> ipv4_benign p = true -> okn (D := D) (fun _ => True) (handle_ipv4 mac p).
Proof.
  intros Hm Hu Hb. unfold handle_ipv4. destruct (Nat.ltb_spec (length p) 20); [by apply okn_ret|].
  eapply okn_bind; [apply okn_idx_is; lia|intros ? ->]. destruct (negb _); [by apply okn_ret|]. cbv zeta.
  eapply okn_bind; [apply okn_be16_is; lia|intros ? ->]. fold (ip_ihl p). fold (ip_total p).
  destruct (Nat.ltb_spec (length p) (ip_ihl p)); cbn [orb]; [by apply okn_ret|].
  destruct (Nat.ltb_spec (length p) (ip_total p)); [by apply okn_ret|].
  eapply okn_bind; [apply okn_idx_is; lia|intros ? ->]. eapply okn_bind; [apply (okn_sub p 12 16); [done|lia]|intros src Hsrc].
  eapply okn_bind; [apply (okn_sub p 16 20); [done|lia]|intros dst Hdst]. okb. destruct (_ && _); [by apply okn_ret|].
  destruct Hm as [Lm Um]. eapply okn_bind; [apply (okn_sub mac 0 6); [done|lia]|intros m Hm].
  eapply okn_bind; [by apply okn_arp_learn|intros ? ?].
  unfold ipv4_benign in Hb. apply andb_true_iff in Hb as [Hi%Nat.leb_le Hb].
  eapply okn_bind; [apply okn_sub_is; lia|intros ? ->]. fold (ip_payload p).
  assert (Up : Forall is_u8 (ip_payload p)) by (by apply Forall_take, Forall_drop).
  destruct (nth 9 p 0 =? 1); [by apply okn_handle_icmp|]. destruct (nth 9 p 0 =? 6); [by apply okn_tcp_handle_segment|].
  destruct (nth 9 p 0 =? 17); [by apply okn_udp_dispatch|by apply okn_ret].
Qed.

Lemma okn_handle_ipv6 mac p : bytes 6 mac -> Forall is_u8 p -> ipv6_benign p = true -> okn (D := D) (fun _ => True) (handle_ipv6 mac p).
Proof.
  intros Hm Hu Hb. unfold handle_ipv6. destruct (Nat.ltb_spec (length p) 40); [by apply okn_ret|]. okb. destruct (negb _); [by apply okn_ret|].
  eapply okn_bind; [apply okn_be16_is; lia|intros ? ->]. cbv zeta. eapply okn_bind; [apply okn_idx_is; lia|intros ? ->].
  eapply okn_bind; [apply (okn_sub p 8 24); [done|lia]|intros src Hsrc]. eapply okn_bind; [apply (okn_sub p 24 40); [done|lia]|intros dst Hdst].
  set (n := Z.to_nat (field16 p 4)) in *. destruct (Nat.ltb_spec (length p) (40 + n)); [by apply okn_ret|].
  eapply okn_bind; [apply okn_sub_is; lia|intros ? ->]. okb. destruct Hdst as [Ld Ud]. okb. destruct (negb _); [by apply okn_ret|].
  destruct Hm as [Lm Um]. eapply okn_bind; [apply (okn_sub mac 0 6); [done|lia]|intros m Hm].
  eapply okn_bind; [by apply okn_ndp_learn|intros ? ?]. replace (40 + n - 40)%nat with n by lia.
  assert (Up : Forall is_u8 (take n (drop 40 p))) by (by apply Forall_take, Forall_drop).
  unfold ipv6_benign in Hb. fold n in Hb.
  destruct (nth 6 p 0 =? 58); [by apply okn_handle_icmpv6|]. destruct (nth 6 p 0 =? 6); [by apply okn_tcp_handle_segment|by apply okn_ret].
Qed.

Lemma okn_handle_frame frame : Forall is_u8 frame -> frame_benign frame = true -> okn (D := D) (fun _ => True) (handle_frame frame).
Proof.
  intros Hu Hb. unfold handle_frame. destruct (Nat.ltb_spec (length frame) 14); [by apply okn_ret|].
  eapply okn_bind; [apply (okn_sub frame 0 6); [done|lia]|intros dst [Ld Ud]]. okb. okb. okb. destruct (negb _); [by apply okn_ret|].
  eapply okn_bind; [apply (okn_sub frame 6 12); [done|lia]|intros src Hsrc]. eapply okn_bind; [apply okn_be16_is; lia|intros ? ->].
  eapply okn_bind; [apply okn_sub_is; lia|intros ? ->]. assert (Up : Forall is_u8 (drop 14 frame)) by (by apply Forall_drop).
  rewrite take_ge by (rewrite length_drop; lia). unfold frame_benign in Hb. cbv zeta in Hb.
  destruct (field16 frame 12 =? 0x0806) eqn:E; [by apply okn_handle_arp|].
  destruct (_ =? 0x0800); [by apply okn_handle_ipv4|]. destruct (_ =? 0x86DD); [by apply okn_handle_ipv6|by apply okn_ret].
Qed.

(** ** Runs of the stack *)

(** What the drivers, the timer interrupt and the system calls ask of the stack. *)
Inductive net_op :=
| OpFrame (frame : list Z)
| OpTimers
| OpListen (port : Z)
| OpWrite (id : nat) (data : list Z)
| OpRead (id len : nat)
| OpClose (id : nat)
| OpUdp (dst_ip : list Z) (dst_port src_port : Z) (data : list Z).

Definition net_perform (o : net_op) : N D unit :=
  match o with
  | OpFrame frame => handle_frame frame
  | OpTimers => arp_tick;; dhcp_tick;; tcp_tick;; ndp_tick
  | OpListen port => _ ← tcp_listen port; mret tt
  | OpWrite id data => _ ← tcp_write id data; mret tt
  | OpRead id len => _ ← tcp_read id len; mret tt
  | OpClose id => tcp_close id
  | OpUdp dst_ip dst_port src_port data => _ ← udp_send dst_ip dst_port src_port data; mret tt
  end.

Fixpoint net_run (ops : list net_op) : N D unit :=
  match ops with [] => mret tt | o :: ops' => net_perform o;; net_run ops' end.

(** Arguments of the right types, and only benign frames. *)
Definition op_ok (o : net_op) : Prop :=
  match o with
  | OpFrame frame => Forall is_u8 frame /\ frame_benign frame = true
  | OpListen port => is_u16 port
  | OpWrite _ data => Forall is_u8 data
  | OpUdp dst_ip _ _ data => bytes 4 dst_ip /\ Forall is_u8 data
  | _ => True
  end.

Lemma okn_perform o : op_ok o -> okn (fun _ => True) (net_perform o).
Proof.
  destruct o as [f| |port|id data|id len|id|ip dp sp data]; cbn [op_ok net_perform]; intros Ho.
  - destruct Ho. by apply okn_handle_frame.
  - eapply okn_bind; [apply okn_arp_tick|intros ? ?]. eapply okn_bind; [apply okn_dhcp_tick|intros ? ?].
    eapply okn_bind; [apply okn_tcp_tick|intros ? ?]. apply okn_ndp_tick.
  - eapply okn_bind; [by apply okn_tcp_listen|intros ? ?; by apply okn_ret].
  - eapply okn_bind; [by apply okn_tcp_write|intros ? ?; by apply okn_ret].
  - eapply okn_bind; [apply okn_tcp_read|intros ? ?; by apply okn_ret].
  - apply okn_tcp_close.
  - destruct Ho. eapply okn_bind; [by apply okn_udp_send|intros ? ?; by apply okn_ret].
Qed.


(** ** Frames that panic *)

(** An IPv4 packet for us is learned from, and its payload sliced out. *)
Lemma handle_ipv4_payload mac p (s : net D) : bytes 6 mac -> Forall is_u8 p -> (20 <= length p)%nat ->
  Z.shiftr (nth 0 p 0) 4 = 4 -> (ip_ihl p <= length p)%nat -> (ip_total p <= length p)%nat -> net_ok s ->
  take 4 (drop 16 p) = NET_IP (ifc s) ->
  exists s', net_ok s' /\ tcp s' = tcp s /\ ifc s' = ifc s /\ host s' = host s /\ handle_ipv4 mac p s = (ip_payload ← sub p (ip_ihl p) (ip_total p);
    if nth 9 p 0 =? 1 then handle_icmp mac (take 4 (drop 12 p)) ip_payload
    else if nth 9 p 0 =? 6 then tcp_handle_segment (V4 (take 4 (drop 12 p))) ip_payload
    else if nth 9 p 0 =? 17 then handle_udp_dispatch ip_payload else mret tt) s'.
Proof.
  intros Hm Hu Hl Hv Hi Ht Hs Hd.
  destruct (okn_arp_learn (D := D) (take 4 (drop 12 p)) (take 6 (drop 0 mac)) (part_bytes p 12 4 Hu ltac:(lia))
    (part_bytes mac 0 6 (proj2 Hm) ltac:(rewrite (proj1 Hm); lia)) s Hs) as ([] & s' & E & Hs' & _).
  assert (Et : tcp s' = tcp s /\ ifc s' = ifc s /\ host s' = host s).
  { unfold arp_learn, mbind, N_bind, getn, modn in E. destruct (list_find _ _) as [[i e]|]; by injection E as <-. }
  exists s'. split; [done|]. destruct Et as (-> & Ei & Eh). split; [done|]. split; [done|]. split; [done|]. unfold handle_ipv4. destruct (Nat.ltb_spec (length p) 20); [lia|].
  unfold mbind at 1, N_bind at 1. rewrite idx_eq by lia. rewrite Hv. cbn [Z.eqb Pos.eqb negb]. cbv zeta.
  unfold mbind at 1, N_bind at 1. rewrite be16_eq by lia. fold (ip_ihl p). fold (ip_total p).
  destruct (Nat.ltb_spec (length p) (ip_ihl p)); [lia|]. destruct (Nat.ltb_spec (length p) (ip_total p)); [lia|]. cbn [orb].
  unfold mbind at 1, N_bind at 1. rewrite idx_eq by lia. unfold mbind at 1, N_bind at 1. rewrite sub_eq by lia.
  unfold mbind at 1, N_bind at 1. rewrite sub_eq by lia. unfold mbind at 1, N_bind at 1, getn at 1.
  change (20 - 16)%nat with 4%nat. rewrite Hd, bool_decide_true by done. cbn [negb andb].
  unfold mbind at 1, N_bind at 1. rewrite sub_eq by (rewrite (proj1 Hm); lia). unfold mbind at 1, N_bind at 1.
  change (16 - 12)%nat with 4%nat. change (6 - 0)%nat with 6%nat. rewrite E. done.
Qed.

Lemma handle_frame_ipv4 frame (s : net D) : net_ok s -> (14 <= length frame)%nat -> take 6 frame = NET_MAC (ifc s) ->
  field16 frame 12 = 0x0800 -> handle_frame frame s = handle_ipv4 (take 6 (drop 6 frame)) (drop 14 frame) s.
Proof.
  intros Hs Hl Hm He. unfold handle_frame. destruct (Nat.ltb_spec (length frame) 14); [lia|].
  unfold mbind at 1, N_bind at 1. rewrite sub_eq by lia. change (6 - 0)%nat with 6%nat. rewrite drop_0.
  unfold mbind at 1, N_bind at 1, getn at 1. assert (length (take 6 frame) = 6%nat) by (rewrite length_take; lia).
  unfold mbind at 1, N_bind at 1. rewrite idx_eq by lia. unfold mbind at 1, N_bind at 1. rewrite idx_eq by lia.
  rewrite Hm, bool_decide_true by done. cbn [orb negb]. unfold mbind at 1, N_bind at 1. rewrite sub_eq by lia.
  unfold mbind at 1, N_bind at 1. rewrite be16_eq by lia. rewrite He. unfold mbind at 1, N_bind at 1. rewrite sub_eq by lia.
  rewrite (take_ge (drop 14 frame)) by (rewrite length_drop; lia). done.
Qed.

(** C38: A single malformed packet takes the kernel down.  Anyone who can send us an IPv4
    packet whose total length is smaller than its header length, or a UDP packet whose
    length field is below 8, makes the kernel panic: the bounds that are checked are not
    the ones that are sliced. *)
Theorem malformed_frame_panics frame (s : net D) : net_ok s -> Forall is_u8 frame -> (34 <= length frame)%nat ->
  take 6 frame = NET_MAC (ifc s) -> field16 frame 12 = 0x0800 ->
  let p := drop 14 frame in
  Z.shiftr (nth 0 p 0) 4 = 4 -> (ip_ihl p <= length p)%nat -> (ip_total p <= length p)%nat -> take 4 (drop 16 p) = NET_IP (ifc s) ->
  (ip_total p < ip_ihl p)%nat \/
    (ip_ihl p + 8 <= ip_total p)%nat /\ nth 9 p 0 = 17 /\ field16 (ip_payload p) 4 < 8 ->
  handle_frame frame s = Crashed.
Proof.
  intros Hs Hu Hl Hm He p Hv Hi Ht Hd Hbad. rewrite handle_frame_ipv4 by (done || lia). fold p.
  assert (Up : Forall is_u8 p) by (by apply Forall_drop). assert (Lp : (20 <= length p)%nat) by (unfold p; rewrite length_drop; lia).
  destruct (handle_ipv4_payload (take 6 (drop 6 frame)) p s) as (s' & Hs' & _ & _ & _ & ->);
    [by apply part_bytes; [|lia]|done|done|done|done|done|done|done|].
  unfold mbind at 1, N_bind at 1. destruct Hbad as [Hlt|(Hlt & Hp & Hb)].
  - unfold sub. rewrite (proj2 (Nat.leb_gt _ _)) by done. done.
  - rewrite sub_eq by lia. fold (ip_payload p). rewrite Hp. cbn [Z.eqb Pos.eqb]. unfold handle_udp_dispatch.
    assert (Lq : (8 <= length (ip_payload p))%nat) by (unfold ip_payload; rewrite length_take, length_drop; lia).
    destruct (Nat.ltb_spec (length (ip_payload p)) 8); [lia|].
    unfold mbind at 1, N_bind at 1. rewrite be16_eq by lia. unfold mbind at 1, N_bind at 1. rewrite be16_eq by lia.
    unfold mbind at 1, N_bind at 1. rewrite be16_eq by lia. unfold mbind at 1, N_bind at 1, sub.
    rewrite (proj2 (Nat.leb_gt 8 _)) by lia. done.
Qed.

End Safe.

(** ** A sample stack *)

(** A card that records what it is given, and a clock that stands still. *)
Record bench := mk_bench { sent : list (list Z); clock : Z }.
#[export] Instance bench_host : NetHost bench := {
  nic_send := fun _ f d => (true, mk_bench (sent d ++ [f]) (clock d));
  nic_recv := fun _ d => (None, d);
  nic_mac := fun _ _ => Some [2; 0; 0; 0; 0; 1];
  timer_count := fun d => (clock d, d);
  timer_freq := 1000000;
  ticks := fun d => (clock d, d);
}.

Lemma u8_list l : forallb (fun b => (0 <=? b) && (b <? 256)) l = true -> Forall is_u8 l.
Proof.
  intros H. apply List.Forall_forall. intros b Hb. eapply forallb_forall in H; [|exact Hb]. unfold is_u8. znorm. lia.
Qed.

Lemma zeroed_ok : conn_ok zeroed.
Proof. split; cbn; try done; apply zero4_ok. Qed.

Lemma net0_ok {D} (d : D) : net_ok (net0 d).
Proof.
  pose proof zero4_ok. assert (Hz : bytes 16 zero16) by (by apply bytes_replicate). pose proof zero_mac_ok.
  split; cbn [net0 ifc TX_BUF arp ndp CLIENT dns tcp].
  - by split.
  - by apply bytes_replicate.
  - split; [apply length_replicate|]. split; by apply Forall_replicate.
  - split; [apply length_replicate|]. split; by apply Forall_replicate.
  - by split_and!.
  - split; [apply length_replicate|]. split; [|done]. apply Forall_replicate. split; [apply length_replicate|]. split; [cbn; lia|done].
  - split; [apply length_replicate|]. split; [apply Forall_replicate, zeroed_ok|by split].
Qed.

(** 10.0.2.15 with a card of its own, and nothing else. *)
Definition sample_ifc : iface :=
  mk_iface [10; 0; 2; 15] [255; 255; 255; 0] [10; 0; 2; 2] [2; 0; 0; 0; 0; 1] true false
    (mac_to_link_local [2; 0; 0; 0; 0; 1]) zero16 zero16 false.
Definition sample_net : net bench := with_ifc sample_ifc (net0 (mk_bench [] 1000)).

Lemma sample_net_ok : net_ok sample_net.
Proof.
  apply with_ifc_ok; [apply net0_ok|]. assert (Hz : bytes 16 zero16) by (by apply bytes_replicate).
  split; cbn; try exact Hz; try (apply mac_ll_ok; by split; [|u8s]); (split; [done|u8s]).
Qed.

(** A frame from 10.0.2.2 for us, and its packet. *)
Definition to_us (ethertype packet : list Z) : list Z := [2; 0; 0; 0; 0; 1] ++ [2; 0; 0; 0; 0; 9] ++ ethertype ++ packet.
Definition ip_to_us (proto : Z) (payload : list Z) : list Z :=
  to_us [0x08; 0x00] (ipv4_header [0; 0] proto (length payload) [10; 0; 2; 2] [10; 0; 2; 15] ++ payload).

(** A SYN from port 1000 for port 80. *)
Definition syn_frame : list Z := ip_to_us 6 [3; 232; 0; 80; 0; 0; 0; 7; 0; 0; 0; 0; 0x50; 0x02; 16; 0; 0; 0; 0; 0].


(** A UDP packet of eight bytes that gives its length as zero. *)
Definition short_udp : list Z := ip_to_us 17 [0; 68; 0; 67; 0; 0; 0; 0].

Lemma malformed_frame_panics_witness : handle_frame short_udp sample_net = Crashed.
Proof.
  apply (malformed_frame_panics short_udp sample_net sample_net_ok).
  - apply u8_list. vm_compute. reflexivity.
  - vm_compute. lia.
  - vm_compute. reflexivity.
  - vm_compute. reflexivity.
  - vm_compute. reflexivity.
  - vm_compute. lia.
  - vm_compute. lia.
  - vm_compute. reflexivity.
  - right. split; [vm_compute; lia|]. split; vm_compute; reflexivity.
Defined.

(** The same for a total length of zero, by evaluation. *)
Example zero_length_panics : handle_frame (to_us [0x08; 0x00] ([0x45; 0; 0; 0] ++ replicate 12 0 ++ [10; 0; 2; 15])) sample_net = Crashed.
Proof. vm_compute. reflexivity. Qed.
