(* ===== verification/NetWire.v ===== *)
(** * Packets on their way in

    The fields of a packet of ours read back by the receiver, and the way of a frame
    through [handle_frame] and [handle_ipv4] to the handler of its protocol. *)

From stdpp Require Import base numbers list.
From Stdlib Require Import ZArith Lia Bool.
From S2P Require Import Prelude Sector NetState NetLink NetConf Tcp Net NetFrames NetInv NetSafe.

Lemma field16_app a v b n : n = length a -> is_u16 v -> field16 (a ++ to_be_bytes 2 v ++ b) n = v.
Proof.
  intros -> Hv. unfold field16. rewrite drop_app_length. change 2%nat with (length (to_be_bytes 2 v)) at 1.
  rewrite take_app_length, be_to_be_bytes. apply Z.mod_small. exact Hv.
Qed.
Lemma field32_app a v b n : n = length a -> is_u32 v -> field32 (a ++ to_be_bytes 4 v ++ b) n = v.
Proof.
  intros -> Hv. unfold field32. rewrite drop_app_length. change 4%nat with (length (to_be_bytes 4 v)) at 1.
  rewrite take_app_length, be_to_be_bytes. apply Z.mod_small. exact Hv.
Qed.

(** An IPv4 packet with [payload], as the stack builds it. *)
Definition v4_packet (ident : list Z) (proto : Z) (src dst payload : list Z) : list Z :=
  ipv4_header ident proto (length payload) src dst ++ payload.

Lemma packet_fields ident proto src dst payload : bytes 2 ident -> is_u8 proto -> bytes 4 src -> bytes 4 dst -> Forall is_u8 payload ->
  (length payload <= 2028)%nat ->
  let p := v4_packet ident proto src dst payload in
  Forall is_u8 p /\ (20 <= length p)%nat /\ Z.shiftr (nth 0 p 0) 4 = 4 /\ ip_ihl p = 20%nat /\ ip_total p = length p /\
  nth 9 p 0 = proto /\ take 4 (drop 12 p) = src /\ take 4 (drop 16 p) = dst /\ drop 20 p = payload.
Proof.
  intros [Hi2 Ui] Hp [Ls Us] [Ld Ud] Hu Hl p. destruct ident as [|i0 [|i1 [|]]]; try done.
  set (n := length payload) in *. set (t := Z.of_nat (20 + n)).
  assert (Es : exists k, p = ([0x45; 0] ++ to_be_bytes 2 t ++ [i0; i1; 0x40; 0; 64; proto] ++ to_be_bytes 2 k) ++ src ++ dst ++ payload).
  { exists (ip_checksum (ipv4_raw [i0; i1] proto n src dst)). unfold p, v4_packet. fold n. unfold ipv4_header. cbv zeta.
    generalize (ip_checksum (ipv4_raw [i0; i1] proto n src dst)). intros k. unfold ipv4_raw, splice. rewrite length_to_be_bytes. fold t.
    generalize t. intros t'. rewrite (app_assoc src dst payload), <- (app_assoc (take _ _)), <- (app_assoc (to_be_bytes 2 k)). reflexivity. }
  destruct Es as [k Es]. set (h := _ ++ to_be_bytes 2 t ++ _) in Es.
  assert (Hh : Forall is_u8 h).
  { unfold h. apply Forall_app_2; [u8s|]. apply Forall_app_2; [apply to_be_bytes_u8|]. apply Forall_app_2; [|apply to_be_bytes_u8].
    apply Forall_cons in Ui as [? Ui]. apply Forall_cons in Ui as [? _].
    repeat (apply Forall_cons_2; [done || by split|]). apply Forall_nil_2. }
  assert (Lh : length h = 12%nat) by reflexivity.
  assert (Lp : length p = (20 + n)%nat) by (rewrite Es, !length_app, Lh, Ls, Ld; unfold n; lia).
  assert (E12 : drop 12 p = src ++ dst ++ payload) by (rewrite Es; by apply drop_app_length').
  assert (E16 : drop 16 p = dst ++ payload).
  { change 16%nat with (12 + 4)%nat. rewrite <- drop_drop, E12. by apply drop_app_length'. }
  split; [rewrite Es; do 2 (apply Forall_app_2; [done|]); by apply Forall_app_2|]. split; [lia|]. split; [by rewrite Es|]. split; [by rewrite Es|]. split.
  { unfold ip_total. rewrite Es. unfold h. rewrite <- !app_assoc. rewrite (field16_app [_; _]) by (done || (unfold t, is_u16; lia)).
    rewrite !app_assoc, <- !(app_assoc _ _ [i0; i1; _; _; _; _]). unfold t. rewrite Nat2Z.id.
    rewrite !length_app, !length_to_be_bytes, Ls, Ld. cbn [length]. unfold n. lia. }
  split; [by rewrite Es|]. split; [rewrite E12; by apply take_app_length'|]. split; [rewrite E16; by apply take_app_length'|].
  change 20%nat with (16 + 4)%nat. rewrite <- drop_drop, E16. by apply drop_app_length'.
Qed.

Section Wire.
Context {D : Type} `{!NetHost D}.

(** The dispatch of [handle_ipv4]. *)
Definition dispatch_v4 (mac src : list Z) (proto : Z) (payload : list Z) : N D unit :=
  if proto =? 1 then handle_icmp mac src payload
  else if proto =? 6 then tcp_handle_segment (V4 src) payload
  else if proto =? 17 then handle_udp_dispatch payload else mret tt.

(** A frame for us goes to the handler of its protocol; before that only the address
    cache learns the sender. *)
Lemma frame_received mac src ident proto payload (s : net D) : bytes 6 mac -> bytes 4 src -> bytes 2 ident -> is_u8 proto ->
  Forall is_u8 payload -> (length payload <= 2028)%nat -> net_ok s ->
  exists s', net_ok s' /\ tcp s' = tcp s /\ ifc s' = ifc s /\ host s' = host s /\
    handle_frame (eth_header (NET_MAC (ifc s)) mac [0x08; 0x00] ++ v4_packet ident proto src (NET_IP (ifc s)) payload) s =
    dispatch_v4 mac src proto payload s'.
Proof.
  intros [Lm Um] Hsrc Hid Hp Hu Hl Hs. pose proof (io_ip _ (no_ifc _ Hs)) as Hb. destruct (io_mac _ (no_ifc _ Hs)) as [L6 U6].
  destruct (packet_fields ident proto src (NET_IP (ifc s)) payload Hid Hp Hsrc Hb Hu Hl) as (Up & Hlp & Hv & Hihl & Ht & H9 & H12 & H16 & H20).
  set (p := v4_packet _ _ _ _ _) in *. set (fr := _ ++ p).
  assert (Ef : fr = NET_MAC (ifc s) ++ mac ++ [8; 0] ++ p) by (unfold fr, eth_header; by rewrite <- !app_assoc).
  assert (Lf : length fr = (14 + length p)%nat) by (rewrite Ef, !length_app, L6, Lm; done).
  assert (E6 : drop 6 fr = mac ++ [8; 0] ++ p) by (rewrite Ef; by apply drop_app_length').
  assert (E12 : drop 12 fr = [8; 0] ++ p) by (change 12%nat with (6 + 6)%nat; rewrite <- drop_drop, E6; by apply drop_app_length').
  assert (E14 : drop 14 fr = p) by (change 14%nat with (12 + 2)%nat; by rewrite <- drop_drop, E12).
  rewrite handle_frame_ipv4; [|done|lia|rewrite Ef; by apply take_app_length'|unfold field16; by rewrite E12].
  rewrite E14, E6, take_app_length' by done.
  destruct (handle_ipv4_payload mac p s) as (s' & Hs' & Et & Ei & Eh & ->); try done; try lia.
  exists s'. split_and!; try done. rewrite H9, Hihl, Ht, H12. unfold mbind at 1, N_bind at 1. rewrite sub_eq by lia.
  rewrite (take_ge (drop 20 p)), H20 by (rewrite length_drop; lia). done.
Qed.

End Wire.
