(* ===== verification/TcpStream.v ===== *)
(** * TCP receives in order

    What a connection takes into its receive ring from segments in any order is a prefix
    of the peer's stream.  First what the parts of the segment handler leave alone. *)

From stdpp Require Import base numbers list.
From Stdlib Require Import ZArith Lia Bool.
From S2P Require Import Prelude Sector NetState NetLink NetConf Tcp Net NetFrames NetInv TcpRing TcpInv NetSafe.

#[local] Opaque BUF_SIZE.

Create HintDb leaves.

(** ** What computations leave alone *)

Section Leaves.
Context {D : Type} `{!NetHost D}.

(** Every run of [m] relates the states by [R]. *)
Definition leaves {A} (R : net D -> net D -> Prop) (m : N D A) : Prop := forall s a s', m s = Got (a, s') -> R s s'.

Context (R : net D -> net D -> Prop) (Rrefl : forall s, R s s) (Rtrans : forall a b c, R a b -> R b c -> R a c).

Lemma leaves_ret {A} (a : A) : leaves R (mret a).
Proof. by intros s b s' [= -> ->]. Qed.
Lemma leaves_bind {A B} (m : N D A) (f : A -> N D B) : leaves R m -> (forall a, leaves R (f a)) -> leaves R (m ≫= f).
Proof.
  intros Hm Hf s b s' E. unfold mbind, N_bind in E. destruct (m s) as [[a s1]| |] eqn:E1; try done.
  eapply Rtrans; [by eapply Hm|by eapply Hf].
Qed.
Lemma leaves_getn {A} (f : net D -> A) : leaves R (getn f).
Proof. by intros s b s' [= _ <-]. Qed.
Lemma leaves_modn f : (forall s, R s (f s)) -> leaves R (modn f).
Proof. by intros H s b s' [= _ <-]. Qed.
Lemma leaves_crash {A} : leaves R (crash_n (A := A)).
Proof. by intros s b s'. Qed.
Lemma leaves_stuck {A} : leaves R (stuck_n (A := A)).
Proof. by intros s b s'. Qed.
Lemma leaves_idx l i : leaves R (idx l i).
Proof. unfold idx. destruct (l !! i); [apply leaves_ret|apply leaves_crash]. Qed.
Lemma leaves_sub l a b : leaves R (sub l a b).
Proof. unfold sub. destruct (_ && _); [apply leaves_ret|apply leaves_crash]. Qed.
Lemma leaves_be16 l i : leaves R (be16 l i).
Proof. apply leaves_bind; [apply leaves_sub|intros a; apply leaves_ret]. Qed.
Lemma leaves_be32 l i : leaves R (be32 l i).
Proof. apply leaves_bind; [apply leaves_sub|intros a; apply leaves_ret]. Qed.
Lemma leaves_conn id : leaves R (conn id).
Proof. apply leaves_bind; [apply leaves_getn|]. intros l. destruct (l !! id); [apply leaves_ret|apply leaves_crash]. Qed.
Lemma leaves_find P `{!forall c, Decision (P c)} : leaves R (find_conn P).
Proof. apply leaves_bind; [apply leaves_getn|intros l; apply leaves_ret]. Qed.

(** A relation that sees neither the host nor the buffer nor the link tables. *)
Context (Rhost : forall d s, R s (with_host d s)) (Rtx : forall b s, R s (with_TX_BUF b s)).

Lemma leaves_now : leaves R now.
Proof. intros s b s' E. unfold now in E. destruct (ticks _) as [t d]. injection E as _ <-. apply Rhost. Qed.
Lemma leaves_counter : leaves R counter.
Proof. intros s b s' E. unfold counter in E. destruct (timer_count _) as [t d]. injection E as _ <-. apply Rhost. Qed.
Lemma leaves_tb_put off data : leaves R (tb_put off data).
Proof. intros s b s' E. unfold tb_put in E. destruct (_ <=? _)%nat; [|done]. injection E as _ <-. apply Rtx. Qed.
Lemma leaves_tb_puts l : leaves R (tb_puts l).
Proof.
  induction l as [|[off data] l IH]; cbn [tb_puts]; [apply leaves_ret|]. apply leaves_bind; [apply leaves_tb_put|by intros _].
Qed.
Lemma leaves_tb_send n : leaves R (tb_send n).
Proof.
  apply leaves_bind; [apply leaves_getn|intros tb]. apply leaves_bind; [apply leaves_sub|intros f].
  intros s b s' E. unfold net_send_frame in E. destruct (nic_send _ _ _) as [ok d]. injection E as _ <-. apply Rhost.
Qed.

Hint Resolve leaves_ret leaves_getn leaves_crash leaves_stuck leaves_idx leaves_sub leaves_be16 leaves_be32 leaves_conn leaves_find
  leaves_now leaves_counter leaves_tb_put leaves_tb_puts leaves_tb_send : leaves.
(** Part by part. *)
Ltac lv := repeat match goal with
  | |- leaves _ _ => solve [auto 2 with leaves nocore]
  | |- leaves _ (_ ≫= _) => apply leaves_bind; [|intros ?]
  | |- leaves _ (if ?b then _ else _) => destruct b
  | |- leaves _ (match ?x with _ => _ end) => destruct x
  end.

Lemma leaves_put_ipv4 m i p l d : leaves R (put_ipv4 m i p l d).
Proof. unfold put_ipv4. lv. Qed.
Lemma leaves_put_ipv6 m l n h a b : leaves R (put_ipv6 m l n h a b).
Proof. unfold put_ipv6. lv. Qed.
Lemma leaves_arp_packet m o t i : leaves R (arp_packet m o t i).
Proof. unfold arp_packet. lv. Qed.
Lemma leaves_resolve ip : leaves R (resolve_mac_nonblocking ip).
Proof. unfold resolve_mac_nonblocking, arp_lookup, send_arp_request. pose proof leaves_arp_packet. lv. Qed.
Lemma leaves_build_header off id flags data : leaves R (build_tcp_header off id flags data).
Proof. unfold build_tcp_header. lv. Qed.
Hint Resolve leaves_put_ipv4 leaves_put_ipv6 leaves_arp_packet leaves_resolve leaves_build_header : leaves.

(** Sending a segment changes no connection. *)
Lemma leaves_send_segment id flags data : leaves R (send_segment id flags data).
Proof. unfold send_segment, send_segment_v4, send_segment_v6, ndp_lookup. lv. Qed.
Lemma leaves_send_rst dst dp sp seq : leaves R (send_rst_raw dst dp sp seq).
Proof. unfold send_rst_raw. lv. Qed.
Hint Resolve leaves_send_segment leaves_send_rst : leaves.

(** Flushing changes a connection only where [f] says so. *)
Lemma leaves_flush_loop n id : (forall f, (forall c, rx (f c) = rx c /\ state (f c) = state c /\ rcv_nxt (f c) = rcv_nxt c /\
    remote_ip (f c) = remote_ip c /\ remote_port (f c) = remote_port c /\ local_port (f c) = local_port c) -> leaves R (modc id f)) ->
  leaves R (flush_loop n id).
Proof.
  intros Hm. induction n as [|n IH]; cbn [flush_loop]; lv; try (by apply Hm); exact IH.
Qed.

End Leaves.

(** ** The receiving side of a connection *)

(** The fields the receiving side lives on. *)
Definition recv_eq (c c' : TcpConn) : Prop :=
  rx c' = rx c /\ state c' = state c /\ rcv_nxt c' = rcv_nxt c /\
  remote_ip c' = remote_ip c /\ remote_port c' = remote_port c /\ local_port c' = local_port c.

(** Only connection [id] changed, and by [P]. *)
Definition only {D} (id : nat) (P : TcpConn -> TcpConn -> Prop) (s s' : net D) : Prop :=
  (forall j, j <> id -> CONNS (tcp s') !! j = CONNS (tcp s) !! j) /\
  (forall c, CONNS (tcp s) !! id = Some c -> exists c', CONNS (tcp s') !! id = Some c' /\ P c c').

Section Stream.
Context {D : Type} `{!NetHost D}.

Lemma only_refl id (P : TcpConn -> TcpConn -> Prop) (s : net D) : (forall c, P c c) -> only id P s s.
Proof. intros HP. split; eauto. Qed.

Lemma only_trans id (P : TcpConn -> TcpConn -> Prop) (s1 s2 s3 : net D) : (forall a b c, P a b -> P b c -> P a c) ->
  only id P s1 s2 -> only id P s2 s3 -> only id P s1 s3.
Proof.
  intros HP [H1 H1'] [H2 H2']. split.
  - intros j Hj. by rewrite H2, H1.
  - intros c Hc. destruct (H1' c Hc) as (c' & Hc' & ?). destruct (H2' c' Hc') as (c'' & ? & ?). eauto.
Qed.

Lemma recv_eq_trans a b c : recv_eq a b -> recv_eq b c -> recv_eq a c.
Proof. intros (? & ? & ? & ? & ? & ?) (? & ? & ? & ? & ? & ?). repeat split; congruence. Qed.

Lemma modc_eq id f c (s : net D) : CONNS (tcp s) !! id = Some c ->
  modc id f s = Got (tt, with_tcp (mk_tcps (<[id := f c]> (CONNS (tcp s))) (NEXT_PORT (tcp s))) s).
Proof. intros Hc. unfold modc, mbind, N_bind. by rewrite (conn_eq _ c). Qed.

Lemma leaves_modc id P f : (forall c, P c (f c)) -> leaves (only (D := D) id P) (modc id f).
Proof.
  intros Hf s a s' E. destruct (CONNS (tcp s) !! id) as [c|] eqn:Ec.
  - rewrite (modc_eq _ _ c) in E by done. injection E as _ <-. split; cbn.
    + intros j Hj. by apply list_lookup_insert_ne.
    + intros c' Hc'. rewrite Ec in Hc'. injection Hc' as <-. exists (f c). split; [|done]. apply list_lookup_insert_eq. by eapply lookup_lt_Some.
  - unfold modc, mbind, N_bind, conn, mbind, N_bind, conns, getn in E. by rewrite Ec in E.
Qed.

(** The acknowledgement part touches nothing of the receiving side. *)
Lemma leaves_on_ack id ack_num data : leaves (only (D := D) id recv_eq) (on_ack id ack_num data).
Proof.
  set (R := only (D := D) id recv_eq). assert (Rr : forall s, R s s) by (intros; by apply only_refl).
  assert (Rt : forall a b c, R a b -> R b c -> R a c) by (intros a b c; apply only_trans, recv_eq_trans).
  assert (Rh : forall d s, R s (with_host d s)) by (intros d s; apply (only_refl id recv_eq s); done).
  assert (Rb : forall b s, R s (with_TX_BUF b s)) by (intros b s; apply (only_refl id recv_eq s); done).
  assert (Hm : forall f, (forall c, recv_eq c (f c)) -> leaves R (modc id f)) by (intros f Hf; by apply leaves_modc).
  assert (Hfl : leaves R (flush_tx id)) by (apply leaves_flush_loop; auto).
  assert (Hs : forall n c, recv_eq c (slide ack_num n c)) by (intros n c; unfold slide; destruct (0 <? _); by repeat split).
  unfold on_ack. apply leaves_bind; [done|apply leaves_conn; auto|intros c]. cbv zeta. apply leaves_bind; [done| |intros _].
  - destruct (_ && _); [|destruct (_ && _ && _); [|by apply leaves_ret]].
    + apply leaves_bind; [done|by apply Hm|by intros _].
    + apply leaves_bind; [done|by apply Hm|intros _]. apply leaves_bind; [done|by apply leaves_conn|intros c'].
      destruct (_ =? 3); [|destruct (3 <? _); [|by apply leaves_ret]]; (apply leaves_bind; [done|by apply Hm|by intros _]).
  - apply leaves_bind; [done|by apply leaves_conn|intros c']. destruct (_ && _); [|by apply leaves_ret].
    apply leaves_bind; [done|by apply leaves_now|intros t]. by apply Hm.
Qed.

Lemma leaves_send_same id flags data : leaves (fun s s' : net D => tcp s' = tcp s) (send_segment id flags data).
Proof. apply leaves_send_segment; congruence || done. Qed.

(** From the triples: the computation returns, and what it leaves alone. *)
Lemma run_leaves {A} (R : net D -> net D -> Prop) (m : N D A) s : okn (fun _ => True) m -> leaves R m -> net_ok s ->
  exists a s', m s = Got (a, s') /\ net_ok s' /\ R s s'.
Proof. intros Hm HR Hs. destruct (Hm s Hs) as (a & s' & E & Hs' & _). exists a, s'. eauto. Qed.

(** What in-order data does to a connection. *)
Definition received (seq : Z) (data : list Z) (c c' : TcpConn) : Prop :=
  forall r, rx c = Some r ->
  let n := if negb (length data =? 0)%nat && (seq =? rcv_nxt c) then Nat.min (length data) (BUF_SIZE - rlen r) else 0%nat in
  (exists r', rx c' = Some r' /\ contents r' = contents r ++ take n data) /\ rcv_nxt c' = u32_add (rcv_nxt c) (Z.of_nat n) /\
  state c' = state c /\ remote_ip c' = remote_ip c /\ remote_port c' = remote_port c /\ local_port c' = local_port c.

Lemma deliver_run id seq data (s : net D) : net_ok s -> (id < 16)%nat -> Forall is_u8 data ->
  exists s', deliver id seq data s = Got (tt, s') /\ net_ok s' /\ only id (received seq data) s s'.
Proof.
  intros Hs Hid Hu. destruct (okn_deliver (D := D) id seq data Hid Hu s Hs) as ([] & s' & E & Hs' & _). exists s'. split; [done|].
  split; [done|]. destruct (no_tcp _ Hs) as (Hl & Hf & _). destruct (lookup_lt_is_Some_2 (CONNS (tcp s)) id) as [c Hc]; [lia|].
  pose proof (Forall_lookup_1 _ _ _ _ Hf Hc) as Hok. unfold deliver, mbind at 1, N_bind at 1 in E. rewrite (conn_eq _ c) in E by done.
  destruct (negb _ && _) eqn:Eb.
  - set (p := match rx c with Some r => _ | None => _ end) in E. destruct p as [n o] eqn:Ep.
    unfold mbind, N_bind in E. rewrite (modc_eq _ _ c) in E by done. apply leaves_send_same in E as Et. cbn in Et. split; rewrite Et; cbn [CONNS].
    + intros j Hj. by apply list_lookup_insert_ne.
    + intros c' Hc'. rewrite Hc in Hc'. injection Hc' as <-. eexists. split; [apply list_lookup_insert_eq; lia|]. intros r Hr. cbv zeta. rewrite Eb.
      unfold p in Ep. rewrite Hr in Ep. pose proof (co_rx _ Hok) as Hro. rewrite Hr in Hro. destruct (push_ok data r Hro Hu) as (E1 & _ & E2).
      destruct (push data r) as [n' r']. injection Ep as <- <-. cbn in *. subst n'. split; [by exists r'|]. done.
  - injection E as <-. split; [done|]. intros c' Hc'. rewrite Hc in Hc'. injection Hc' as <-. exists c. split; [done|]. intros r Hr. cbv zeta. rewrite Eb.
    rewrite take_0, app_nil_r. unfold u32_add. rewrite Z.add_0_r, as_u32_small by apply Hok. split; [by exists r|done].
Qed.

(** A segment without SYN, RST and FIN for an open connection. *)
Lemma established_run id seq ack_num flags data (s : net D) c : net_ok s -> CONNS (tcp s) !! id = Some c -> state c = Established ->
  is_u32 ack_num -> Forall is_u8 data -> has flags TCP_FIN = false ->
  exists s', on_established id seq ack_num flags data s = Got (tt, s') /\ net_ok s' /\ only id (received seq data) s s'.
Proof.
  intros Hs Hc Hst Ha Hu Hfin. assert (Hid : (id < 16)%nat).
  { destruct (no_tcp _ Hs) as (Hl & _). apply lookup_lt_Some in Hc. lia. }
  assert (H1 : exists s1, (if has flags TCP_ACK then on_ack id ack_num data else mret tt) s = Got (tt, s1) /\ net_ok s1 /\ only id recv_eq s s1).
  { destruct (has flags 16); [|exists s; split; [done|]; split; [done|]; by apply only_refl].
    destruct (run_leaves _ _ s (okn_on_ack id ack_num data Hid Ha) (leaves_on_ack id ack_num data) Hs) as ([] & s1 & ? & ? & ?). by exists s1. }
  destruct H1 as (s1 & E1 & Hs1 & [Ho1 Hc1]). destruct (deliver_run id seq data s1 Hs1 Hid Hu) as (s2 & E2 & Hs2 & [Ho2 Hc2]).
  destruct (Hc1 c Hc) as (c1 & Hc1' & Hr1). destruct (Hc2 c1 Hc1') as (c2 & Hc2' & Hr2).
  assert (Hst2 : state c2 = Established \/ rx c1 = None).
  { destruct (rx c1) as [r|] eqn:Er; [left|by right]. destruct (Hr2 r Er) as (_ & _ & E & _). rewrite E. destruct Hr1 as (_ & E' & _). congruence. }
  unfold on_established, mbind, N_bind. rewrite E1, E2, Hfin. cbn [mret N_ret]. unfold mret, N_ret. rewrite (conn_eq _ c2) by done.
  assert (Hdone : only id (received seq data) s s2).
  { split; [intros j Hj; by rewrite Ho2, Ho1|]. intros c' Hc'. rewrite Hc in Hc'. injection Hc' as <-. exists c2. split; [done|].
    destruct Hr1 as (Ea & Eb & Ec & Ed & Ee & Ef). intros r Hr. rewrite <- Ea in Hr. specialize (Hr2 r Hr). cbv zeta in *.
    rewrite Ec, Eb, Ed, Ee, Ef in Hr2. exact Hr2. }
  destruct Hst2 as [Hst2|Hn].
  - rewrite Hst2. rewrite bool_decide_false by done. by exists s2.
  - assert (Hid2 : only id (fun _ _ => True) s2 s2) by (by apply only_refl).
    destruct (bool_decide _ && _ && _); [|by exists s2].
    destruct (okn_modc (D := D) id (put_state FinWait2) Hid ltac:(conn_split) s2 Hs2) as ([] & s3 & E3 & Hs3 & _).
    exists s3. split; [done|]. split; [done|]. apply leaves_modc with (P := fun _ _ => True) in E3 as [Ho3 Hc3]; [|done].
    split; [intros j Hj; by rewrite Ho3, Ho2, Ho1|]. intros c' Hc'. rewrite Hc in Hc'. injection Hc' as <-.
    destruct (Hc3 c2 Hc2') as (c3 & ? & _). exists c3. split; [done|]. intros r Hr. destruct Hr1 as (Ea & _). congruence.
Qed.

(** ** Segments of a stream *)

(** The connection a segment belongs to. *)
Definition belongs (src_ip : IpAddr) (src_port dst_port : Z) (c : TcpConn) : Prop :=
  state c <> Free /\ remote_ip c = src_ip /\ remote_port c = src_port /\ local_port c = dst_port.

(** [id] is the slot of [c]: the first one its peer's segments belong to. *)
Definition slot_of (c : TcpConn) (id : nat) (s : net D) : Prop :=
  let P := belongs (remote_ip c) (remote_port c) (local_port c) in
  (exists c', CONNS (tcp s) !! id = Some c' /\ P c') /\ forall j y, CONNS (tcp s) !! j = Some y -> (j < id)%nat -> ~ P y.

Definition seg_data (payload : list Z) : list Z :=
  if (seg_doff payload <=? length payload)%nat then drop (seg_doff payload) payload else [].

(** A plain segment from the peer of [c]. *)
Definition plain (c : TcpConn) (payload : list Z) : Prop :=
  (20 <= length payload)%nat /\ Forall is_u8 payload /\ field16 payload 0 = remote_port c /\ field16 payload 2 = local_port c /\
  let flags := nth 13 payload 0 in has flags TCP_SYN = false /\ has flags TCP_RST = false /\ has flags TCP_FIN = false.

Lemma find_conn_first P `{!forall c, Decision (P c)} id c (s : net D) : CONNS (tcp s) !! id = Some c -> P c ->
  (forall j y, CONNS (tcp s) !! j = Some y -> (j < id)%nat -> ~ P y) -> find_conn P s = Got (Some id, s).
Proof.
  intros Hc HP Hf. unfold find_conn, mbind, N_bind, conns, getn.
  assert (E : list_find P (CONNS (tcp s)) = Some (id, c)) by (by apply list_find_Some). by rewrite E.
Qed.

Lemma segment_run c id payload (s : net D) : net_ok s -> CONNS (tcp s) !! id = Some c -> slot_of c id s -> state c = Established ->
  plain c payload ->
  exists s', tcp_handle_segment (remote_ip c) payload s = Got (tt, s') /\ net_ok s' /\
    only id (received (field32 payload 4) (seg_data payload)) s s'.
Proof.
  intros Hs Hc [_ Hfirst] Hst (Hl & Hu & Hsp & Hdp & Hsyn & Hrst & Hfin). unfold tcp_handle_segment.
  destruct (Nat.ltb_spec (length payload) 20); [lia|]. do 2 (unfold mbind at 1, N_bind at 1; rewrite be16_eq by lia).
  do 2 (unfold mbind at 1, N_bind at 1; rewrite be32_eq by lia). unfold mbind at 1, N_bind at 1. rewrite idx_eq by lia. cbv zeta.
  unfold mbind at 1, N_bind at 1. rewrite idx_eq by lia. unfold mbind at 1, N_bind at 1. rewrite be16_eq by lia.
  change (Z.to_nat (Z.shiftr (nth 12 payload 0%Z) 4) * 4)%nat with (seg_doff payload). fold (seg_data payload).
  unfold mbind at 1, N_bind at 1. rewrite Hsp, Hdp.
  rewrite (find_conn_first _ id c) by (done || by rewrite Hst). rewrite Hrst. unfold mbind at 1, N_bind at 1.
  set (w := field16 payload 14). assert (Hw : is_u16 w) by (apply (be_range 2), part_bytes; [done|lia]).
  assert (Hid : (id < 16)%nat) by (destruct (no_tcp _ Hs) as (Hlen & _); apply lookup_lt_Some in Hc; lia).
  destruct (okn_modc (D := D) id (put_snd_wnd w) Hid ltac:(conn_split) s Hs) as ([] & s1 & E1 & Hs1 & _). rewrite E1.
  assert (O1 : only id (fun a b => b = put_snd_wnd w a) s s1) by (by eapply leaves_modc in E1; [exact E1|]).
  destruct O1 as [Ho1 Hc1]. destruct (Hc1 c Hc) as (c1 & Hc1' & ->). unfold mbind at 1, N_bind at 1. rewrite (conn_eq _ (put_snd_wnd w c)) by done.
  cbn [put_snd_wnd state]. rewrite Hst.
  destruct (established_run id (field32 payload 4) (field32 payload 8) (nth 13 payload 0) (seg_data payload) s1 (put_snd_wnd w c))
    as (s2 & E2 & Hs2 & [Ho2 Hc2]); try done.
  - apply (be_range 4), part_bytes; [done|lia].
  - unfold seg_data. destruct (_ <=? _)%nat; [by apply Forall_drop|done].
  - exists s2. split; [done|]. split; [done|]. split; [intros j Hj; by rewrite Ho2, Ho1|].
    intros c' Hc'. rewrite Hc in Hc'. injection Hc' as <-. by destruct (Hc2 _ Hc1') as (c2 & ? & ?); exists c2.
Qed.

(** ** In order *)

(** What arrives and what is read. *)
Inductive recv_op := Seg (payload : list Z) | Take (len : nat).

Fixpoint recv_run (src_ip : IpAddr) (id : nat) (ops : list recv_op) : N D (list Z) :=
  match ops with
  | [] => mret []
  | Seg payload :: ops' => tcp_handle_segment src_ip payload;; recv_run src_ip id ops'
  | Take len :: ops' => b ← tcp_read id len; l ← recv_run src_ip id ops'; mret (b ++ l)
  end.

(** A segment carries a stretch of the peer's stream [stream], whose byte [k] has sequence
    number [isn + k]: resent, overlapping and reordered stretches included. *)
Definition carries (stream : list Z) (isn : Z) (payload : list Z) : Prop :=
  exists off, (off + length (seg_data payload) <= length stream)%nat /\ field32 payload 4 = u32_add isn (Z.of_nat off) /\
    seg_data payload = take (length (seg_data payload)) (drop off stream).

Definition op_of (c : TcpConn) (stream : list Z) (isn : Z) (o : recv_op) : Prop :=
  match o with Seg payload => plain c payload /\ carries stream isn payload | Take _ => True end.

Lemma u32_inj isn a b : 0 <= a < 2 ^ 32 -> 0 <= b < 2 ^ 32 -> u32_add isn a = u32_add isn b -> a = b.
Proof.
  intros Ha Hb E. unfold u32_add, as_u32, wrap in E. pose proof (Z.div_mod (isn + a) (2 ^ 32) ltac:(lia)).
  pose proof (Z.div_mod (isn + b) (2 ^ 32) ltac:(lia)). rewrite E in *.
  set (x := (isn + a) / 2 ^ 32) in *. set (y := (isn + b) / 2 ^ 32) in *. assert (x = y \/ x < y \/ y < x) as [-> |[?|?]] by lia; lia.
Qed.

Lemma u32_add_add isn a b : u32_add (u32_add isn a) b = u32_add isn (a + b).
Proof. unfold u32_add, as_u32, wrap. rewrite Z.add_mod_idemp_l by lia. f_equal. lia. Qed.

(** The state of the receiving side: [n] bytes of the stream so far. *)
Definition at_byte (c0 : TcpConn) (id : nat) (isn : Z) (n : nat) (q : list Z) (s : net D) : Prop :=
  slot_of c0 id s /\ exists c r, CONNS (tcp s) !! id = Some c /\ state c = Established /\ rx c = Some r /\ contents r = q /\
    rcv_nxt c = u32_add isn (Z.of_nat n) /\ remote_ip c = remote_ip c0 /\ remote_port c = remote_port c0 /\ local_port c = local_port c0.

Lemma seg_step c0 id stream isn n q payload (s : net D) : net_ok s -> at_byte c0 id isn n q s -> (n <= length stream)%nat ->
  Z.of_nat (length stream) < 2 ^ 32 -> plain c0 payload -> carries stream isn payload ->
  exists s' k, tcp_handle_segment (remote_ip c0) payload s = Got (tt, s') /\ net_ok s' /\ (n + k <= length stream)%nat /\
    at_byte c0 id isn (n + k) (q ++ take k (drop n stream)) s' /\
    (field32 payload 4 = u32_add isn (Z.of_nat n) -> k = Nat.min (length (seg_data payload)) (BUF_SIZE - length q)).
Proof.
  intros Hs (Hslot & c & r & Hc & Hst & Hr & Hq & Hnxt & E1 & E2 & E3) Hn HS Hp (off & Hoff & Hseq & Hdata).
  assert (Hslot' : slot_of c id s) by (unfold slot_of in *; by rewrite E1, E2, E3).
  assert (Hp' : plain c payload) by (unfold plain in *; by rewrite E2, E3).
  destruct (segment_run c id payload s Hs Hc Hslot' Hst Hp') as (s' & E & Hs' & Ho). rewrite E1 in E. 
  destruct (proj2 Ho c Hc) as (c' & Hc' & Hrec). specialize (Hrec r Hr). cbv zeta in Hrec.
  match type of Hrec with context [u32_add (rcv_nxt c) (Z.of_nat ?x)] => set (k := x) in Hrec end.
  destruct Hrec as ((r' & Hr' & Hq') & Hnxt' & Hst' & F1 & F2 & F3).
  assert (Hk : (k <= length (seg_data payload))%nat /\ take k (seg_data payload) = take k (drop n stream) /\ (n + k <= length stream)%nat).
  { unfold k. destruct (negb _ && _) eqn:Eb; [|rewrite !take_0; split; [lia|split; [done|lia]]]. apply andb_true_iff in Eb as [_ Eb%Z.eqb_eq].
    rewrite Hseq, Hnxt in Eb. apply u32_inj in Eb; [|lia|lia]. assert (off = n) as -> by lia. split; [lia|]. split; [|lia].
    etrans; [apply (f_equal (take _)); exact Hdata|]. rewrite take_take. f_equal. lia. }
  destruct Hk as (_ & Ek & Hk). exists s', k. split; [done|]. split; [done|]. split; [done|]. split; [split|].
  - destruct Hslot as [_ Hfirst]. split.
    + exists c'. split; [done|]. unfold belongs. rewrite Hst', F1, F2, F3, Hst. by rewrite E1, E2, E3.
    + intros j y Hj Hlt. rewrite (proj1 Ho) in Hj by lia. by eapply Hfirst.
  - exists c', r'. split_and!; try congruence. rewrite Hnxt', Hnxt, u32_add_add. f_equal. lia.
  - intros Ex. unfold k. rewrite Ex, Hnxt, Z.eqb_refl, <- Hq, length_contents, andb_true_r.
    destruct (Nat.eqb_spec (length (seg_data payload)) 0); cbn [negb]; lia.
Qed.

Lemma read_step c0 id isn n q len (s : net D) : net_ok s -> at_byte c0 id isn n q s ->
  exists s', tcp_read id len s = Got (take len q, s') /\ net_ok s' /\ at_byte c0 id isn n (drop len q) s'.
Proof.
  intros Hs (Hslot & c & r & Hc & Hst & Hr & Hq & Hrest). assert (Hid : (id < 16)%nat).
  { destruct (no_tcp _ Hs) as (Hl & _). apply lookup_lt_Some in Hc. lia. }
  destruct (okn_tcp_read (D := D) id len s Hs) as (b & s' & E & Hs' & _). exists s'. unfold tcp_read in *.
  rewrite (proj2 (Nat.leb_gt 16 id)) in * by done. unfold mbind at 1, N_bind at 1 in E. unfold mbind at 1, N_bind at 1.
  rewrite (conn_eq _ c), Hr in E by done. rewrite (conn_eq _ c), Hr by done.
  assert (Hok : ring_ok r) by (destruct (no_tcp _ Hs) as (_ & Hf & _); pose proof (co_rx _ (Forall_lookup_1 _ _ _ _ Hf Hc)) as H; by rewrite Hr in H).
  destruct (pop_ok len r Hok) as (P1 & P2 & P3). destruct (pop len r) as [l r']. cbn [fst snd] in *. unfold mbind, N_bind in *.
  rewrite (modc_eq _ _ c) in * by done. injection E as <- <-. rewrite P1, Hq. split; [done|]. split; [done|].
  assert (Hlt : (id < length (CONNS (tcp s)))%nat) by (by eapply lookup_lt_Some). destruct Hslot as [(c1 & Hc1 & Hb) Hfirst]. split.
  - split; cbn.
    + exists (put_rx (Some r') c). rewrite Hc in Hc1. injection Hc1 as <-. split; [by apply list_lookup_insert_eq|exact Hb].
    + intros j y Hj Hj'. rewrite list_lookup_insert_ne in Hj by lia. by eapply Hfirst.
  - exists (put_rx (Some r') c), r'. cbn. split; [by apply list_lookup_insert_eq|]. split; [done|]. split; [done|]. split; [by rewrite P3, Hq|done].
Qed.

(** C15: TCP delivers in order.  Whatever segments of the peer's stream arrive, in whatever
    order, resent or overlapping, and however the reads fall between them, the
    connection answers, and the bytes read followed by the bytes still buffered are the
    next bytes of the stream: none is lost, doubled or swapped, and the acknowledged
    sequence number is the one of the first byte not taken. *)
Theorem tcp_receives_in_order c0 id stream isn ops n q (s : net D) :
  net_ok s -> at_byte c0 id isn n q s -> (n <= length stream)%nat -> Z.of_nat (length stream) < 2 ^ 32 -> Forall (op_of c0 stream isn) ops ->
  exists bytes s' n' q', recv_run (remote_ip c0) id ops s = Got (bytes, s') /\ at_byte c0 id isn n' q' s' /\
    (n <= n' <= length stream)%nat /\ bytes ++ q' = q ++ take (n' - n) (drop n stream).
Proof.
  intros Hs Hat Hn HS Hops. revert s n q Hs Hat Hn. induction Hops as [|o ops Ho _ IH]; intros s n q Hs Hat Hn; cbn [recv_run].
  - exists [], s, n, q. rewrite Nat.sub_diag, take_0, app_nil_r. split; [done|]. split; [done|]. split; [lia|done].
  - destruct o as [payload|len]; unfold mbind, N_bind.
    + destruct Ho as [Hp Hc]. destruct (seg_step c0 id stream isn n q payload s Hs Hat Hn HS Hp Hc) as (s1 & k & -> & Hs1 & Hk & Hat1 & _).
      destruct (IH s1 (n + k)%nat _ Hs1 Hat1 Hk) as (bytes & s' & n' & q' & -> & Hat' & Hn' & E).
      exists bytes, s', n', q'. split; [done|]. split; [done|]. split; [lia|]. rewrite E, <- app_assoc. f_equal.
      replace (n' - n)%nat with (k + (n' - (n + k)))%nat by lia. rewrite <- drop_drop. apply take_take_drop.
    + destruct (read_step c0 id isn n q len s Hs Hat) as (s1 & -> & Hs1 & Hat1).
      destruct (IH s1 n _ Hs1 Hat1 Hn) as (bytes & s' & n' & q' & -> & Hat' & Hn' & E).
      exists (take len q ++ bytes), s', n', q'. split; [done|]. split; [done|]. split; [lia|].
      rewrite <- app_assoc, E, app_assoc. by rewrite take_drop.
Qed.

End Stream.

(** ** A sample connection *)

(** Port 80 of the sample stack, connected to port 1000 of 10.0.2.2; byte 8 is next. *)
Definition sample_conn : TcpConn :=
  mk_conn Established (V4 [10; 0; 2; 2]) 1000 80 501 501 0 8 4096 1460 0 0 1 0 2920 65536 0 501 0 false false 80
    (Some (RingBuf_new BUF_SIZE)) (Some (RingBuf_new BUF_SIZE)).

Lemma sample_conn_ok : conn_ok sample_conn.
Proof. pose proof RingBuf_new_ok. split; cbn; try done. by split; [|u8s]. Qed.

Definition conn_net : net bench := with_tcp (mk_tcps (<[0%nat := sample_conn]> (CONNS (tcp sample_net))) 49152) sample_net.

Lemma conn_net_ok : net_ok conn_net.
Proof.
  destruct sample_net_ok as [? ? ? ? ? ? (Hl & Hf & Hp)]. split; try done. split; [reflexivity|].
  split; [|by split]. apply Forall_insert; [done|apply sample_conn_ok].
Qed.

(** A segment with the bytes [data] at sequence number [seq]. *)
Definition data_seg (seq : Z) (data : list Z) : list Z :=
  [3; 232; 0; 80; 0; 0; 0; seq; 0; 0; 1; 245; 0x50; 0x10; 16; 0; 0; 0; 0; 0] ++ data.

Lemma tcp_receives_in_order_witness : exists bytes s' n' q',
  recv_run (V4 [10; 0; 2; 2]) 0 [Seg (data_seg 10 [3; 4]); Seg (data_seg 8 [1; 2]); Take 1; Seg (data_seg 10 [3; 4])] conn_net = Got (bytes, s') /\
  at_byte sample_conn 0 8 n' q' s' /\ (0 <= n' <= 4)%nat /\ bytes ++ q' = take (n' - 0) [1; 2; 3; 4].
Proof.
  apply (tcp_receives_in_order sample_conn 0 [1; 2; 3; 4] 8
    [Seg (data_seg 10 [3; 4]); Seg (data_seg 8 [1; 2]); Take 1; Seg (data_seg 10 [3; 4])] 0 [] conn_net conn_net_ok).
  - split; [split|].
    + exists sample_conn. split; [reflexivity|]. split; [discriminate|]. split; [reflexivity|]. split; reflexivity.
    + intros j y _ Hj. lia.
    + exists sample_conn, (RingBuf_new BUF_SIZE). split; [reflexivity|]. split; [reflexivity|]. split; [reflexivity|].
      split; [reflexivity|]. split; [vm_compute; reflexivity|]. split; [reflexivity|]. split; reflexivity.
  - cbn. lia.
  - cbn. lia.
  - assert (Hd : forall off data, (off + length data <= 4)%nat -> data = take (length data) (drop off [1; 2; 3; 4]) ->
      op_of sample_conn [1; 2; 3; 4] 8 (Seg (data_seg (8 + Z.of_nat off) data))).
    { intros off data Hl E. assert (Hu : Forall is_u8 [1; 2; 3; 4]) by u8s. split.
      - split; [cbn; lia|]. split; [|split; [reflexivity|split; [reflexivity|split; [reflexivity|split; reflexivity]]]].
        unfold data_seg. apply Forall_app_2; [|rewrite E; by apply Forall_take, Forall_drop].
        repeat (apply Forall_cons_2; [unfold is_u8; lia|]). apply Forall_nil_2.
      - exists off. split; [exact Hl|]. split; [|exact E]. unfold field32, u32_add, be_bytes. cbn. rewrite as_u32_small; unfold is_u32; lia. }
    repeat apply Forall_cons_2; try exact I; try apply Forall_nil_2; [apply (Hd 2%nat [3; 4])|apply (Hd 0%nat [1; 2])|apply (Hd 2%nat [3; 4])];
      reflexivity || (cbn; lia).
Defined.
