(* ===== verification/TcpSend.v ===== *)
(** * TCP sends the stream

    The frame of a segment, and the segments [flush_tx] makes of the transmit ring. *)

From stdpp Require Import base numbers list.
From Stdlib Require Import ZArith Lia Bool.
From S2P Require Import Prelude Sector NetState NetLink NetConf Tcp Net NetFrames NetInv TcpRing TcpInv NetSafe TcpStream.

#[local] Opaque BUF_SIZE.

(** ** The frame of a segment *)

Definition v4_frame (i : iface) (mac ip : list Z) (c : TcpConn) (flags : Z) (data : list Z) : list Z :=
  eth_header mac (NET_MAC i) [0x08; 0x00] ++ ipv4_header [0; 0] 6 (20 + options_len flags + length data) (NET_IP i) ip
  ++ tcp_segment (tcp_checksum (NET_IP i) ip) c flags data.

Lemma length_v4_frame i mac ip c flags data : iface_ok i -> length mac = 6%nat -> length ip = 4%nat ->
  length (v4_frame i mac ip c flags data) = (54 + options_len flags + length data)%nat.
Proof.
  intros Hi Hm Hip. unfold v4_frame, eth_header. repeat rewrite length_app. rewrite length_tcp_segment.
  rewrite length_ipv4_header by (done || apply Hi). destruct (io_mac i Hi) as [-> _]. cbn [length]. lia.
Qed.

Section Send.
Context {D : Type} `{!NetHost D}.

(** The state after a frame was sent from the buffer. *)
Definition after_send (frame : list Z) (s : net D) : net D :=
  with_host (nic_send (USE_E1000 (ifc s)) frame (host s)).2 (with_TX_BUF (splice 0 frame (TX_BUF s)) s).

Lemma send_segment_v4_eq id c ip mac flags data (s : net D) : net_ok s -> CONNS (tcp s) !! id = Some c -> remote_ip c = V4 ip ->
  resolve_mac_nonblocking ip s = Got (mac, s) -> (54 + options_len flags + length data <= 2048)%nat ->
  send_segment id flags data s = Got (tt, after_send (v4_frame (ifc s) mac ip c flags data) s).
Proof.
  intros Hs Hc Hip Hmac Hl. destruct (no_tx _ Hs) as [Lt _]. pose proof (no_ifc _ Hs) as Hi.
  assert (Hipl : bytes 4 ip).
  { destruct (no_tcp _ Hs) as (_ & Hf & _). pose proof (co_ip _ (Forall_lookup_1 _ _ _ _ Hf Hc)) as H. by rewrite Hip in H. }
  destruct (okn_resolve (D := D) ip Hipl s Hs) as (m & s1 & Em & _ & Hm). rewrite Hmac in Em. injection Em as <- <-.
  unfold send_segment, mbind at 1, N_bind at 1. rewrite (conn_eq _ c), Hip by done. unfold send_segment_v4. cbv zeta.
  set (n := (20 + options_len flags + length data)%nat). assert (Hn : (14 + (20 + n) <= 2048)%nat) by (unfold n; lia).
  unfold mbind at 1, N_bind at 1. rewrite Hmac.
  rewrite (proj2 (Nat.ltb_ge 2048 _)) by lia. unfold mbind at 1, N_bind at 1.
  rewrite put_ipv4_eq by (done || apply Hipl || apply Hm || apply Hi).
  set (h := eth_header mac (NET_MAC (ifc s)) [0x08; 0x00] ++ ipv4_header [0; 0] 6 n (NET_IP (ifc s)) ip).
  assert (Lh : length h = 34%nat).
  { unfold h, eth_header. rewrite !length_app, length_ipv4_header by (done || apply Hi || apply Hipl).
    destruct (io_mac _ Hi) as [-> _], Hm as [-> _]. done. }
  assert (Lb : length (splice 0 h (TX_BUF s)) = 2048%nat) by (rewrite length_splice; lia).
  unfold mbind at 1, N_bind at 1. rewrite (build_tcp_header_eq 34 id flags data c) by (done || (cbn [sent_buf TX_BUF with_TX_BUF]; lia)).
  unfold sent_buf. rewrite with_TX_BUF_twice. cbn [TX_BUF with_TX_BUF]. set (seg := tcp_header c flags ++ data).
  assert (Ls : length seg = n) by (unfold seg; rewrite length_app, length_tcp_header; lia).
  assert (E1 : splice 34 seg (splice 0 h (TX_BUF s)) = splice 0 (h ++ seg) (TX_BUF s)).
  { rewrite <- Lh. apply (splice_splice 0). lia. }
  rewrite E1. unfold mbind at 1, N_bind at 1, getn at 1. unfold mbind at 1, N_bind at 1, getn at 1. cbn [TX_BUF with_TX_BUF ifc].
  assert (Lhs : length (h ++ seg) = (34 + n)%nat) by (rewrite length_app; lia).
  unfold mbind at 1, N_bind at 1. rewrite sub_eq by (rewrite length_splice; lia).
  assert (E2 : take (34 + n - 34) (drop 34 (splice 0 (h ++ seg) (TX_BUF s))) = seg).
  { replace (34 + n - 34)%nat with n by lia. rewrite take_drop_commute, take_splice_0 by lia. rewrite <- Lh. apply drop_app_length. }
  rewrite E2. unfold mbind at 1, N_bind at 1.
  rewrite tb_put_eq by (cbn [TX_BUF with_TX_BUF]; rewrite length_splice, length_to_be_bytes; lia). rewrite with_TX_BUF_twice. cbn [TX_BUF with_TX_BUF].
  set (k := to_be_bytes 2 _). assert (Lk : length k = 2%nat) by apply length_to_be_bytes.
  assert (E3 : splice 50 k (splice 0 (h ++ seg) (TX_BUF s)) = splice 0 (h ++ splice 16 k seg) (TX_BUF s)).
  { rewrite <- (splice_app_r 16 k h seg 34) by done. change (34 + 16)%nat with 50%nat. apply (splice_inside 0 50); lia. }
  rewrite E3. assert (Ev : h ++ splice 16 k seg = v4_frame (ifc s) mac ip c flags data) by (unfold h, v4_frame, tcp_segment; by rewrite <- app_assoc).
  rewrite Ev. assert (Lf : length (v4_frame (ifc s) mac ip c flags data) = (14 + (20 + n))%nat)
    by (rewrite length_v4_frame by (done || apply Hm || apply Hipl); unfold n; lia).
  unfold mbind, N_bind. rewrite tb_send_eq by (cbn [TX_BUF with_TX_BUF]; rewrite length_splice; lia). cbn [TX_BUF with_TX_BUF].
  rewrite take_splice_0 by done. unfold net_send_frame, after_send. cbn [ifc with_TX_BUF host]. by destruct (nic_send _ _ _) as [ok d].
Qed.

(** The pseudo-header's part of the sum is small. *)
Lemma sum_pairs_4 a b : bytes 4 a -> bytes 4 b -> exists x, sum_pairs 0 a b = x /\ 0 <= x < 2 ^ 18 + 1.
Proof.
  intros [La Ua] [Lb Ub]. destruct a as [|a0 [|a1 [|a2 [|a3 [|]]]]]; try done. destruct b as [|b0 [|b1 [|b2 [|b3 [|]]]]]; try done.
  repeat match goal with H : Forall _ (_ :: _) |- _ => apply Forall_cons in H as [? H] end. cbn [sum_pairs]. rewrite !be2. unfold is_u8 in *.
  assert (Hle : forall z, 0 <= z -> 0 <= as_u32 z <= z).
  { intros z Hz. split; [apply as_u32_range|apply Z.mod_le; lia]. }
  eexists. split; [reflexivity|].
  do 4 match goal with |- context [as_u32 ?z] =>
    lazymatch z with context [as_u32] => fail | _ => let y := fresh "y" in let Hy := fresh "Hy" in
      pose proof (Hle z ltac:(lia)) as Hy; set (y := as_u32 z) in *; clearbody y end end.
  lia.
Qed.

(** A segment goes out exactly as built.  Whatever the transmit buffer held, the card
    is given one frame, the Ethernet, IP and TCP headers of the connection and the data;
    no byte of an earlier frame is in it, no connection changes, and both checksums
    verify at the receiver. *)
Theorem segment_on_the_wire id c ip mac flags data (s : net D) : net_ok s -> CONNS (tcp s) !! id = Some c -> remote_ip c = V4 ip ->
  resolve_mac_nonblocking ip s = Got (mac, s) -> is_u8 flags -> Forall is_u8 data -> (54 + options_len flags + length data <= 2048)%nat ->
  exists s', send_segment id flags data s = Got (tt, s') /\ tcp s' = tcp s /\
    host s' = (nic_send (USE_E1000 (ifc s)) (v4_frame (ifc s) mac ip c flags data) (host s)).2 /\
    ip_checksum (ipv4_header [0; 0] 6 (20 + options_len flags + length data) (NET_IP (ifc s)) ip) = 0 /\
    tcp_checksum (NET_IP (ifc s)) ip (tcp_segment (tcp_checksum (NET_IP (ifc s)) ip) c flags data) = 0.
Proof.
  intros Hs Hc Hip Hmac Hf Hu Hl. rewrite (send_segment_v4_eq id c ip mac) by done. eexists. split; [done|]. split; [done|]. split; [done|].
  assert (Hipl : bytes 4 ip).
  { destruct (no_tcp _ Hs) as (_ & Hfa & _). pose proof (co_ip _ (Forall_lookup_1 _ _ _ _ Hfa Hc)) as H. by rewrite Hip in H. }
  pose proof (io_ip _ (no_ifc _ Hs)) as Hme. split; [apply ipv4_header_verifies; try done; by split; [|u8s]|].
  assert (Hseg : Forall is_u8 (tcp_header c flags ++ data)) by (by apply tcp_raw_u8).
  destruct (sum_pairs_4 _ _ Hme Hipl) as (x & Hx & Hxr). unfold tcp_segment. set (seg := tcp_header c flags ++ data) in *.
  assert (Ls : length seg = (20 + options_len flags + length data)%nat) by (unfold seg; rewrite length_app, length_tcp_header; lia).
  unfold tcp_checksum at 1. rewrite length_splice by (rewrite length_to_be_bytes; lia). unfold tcp_checksum. rewrite Hx.
  apply filled_verifies; [done|lia|done|lia| |].
  - unfold seg, tcp_header. rewrite <- !app_assoc. unfold to_be_bytes. done.
  - rewrite (as_u32_small (x + 6)) by (unfold is_u32; lia). rewrite (as_u32_small (Z.of_nat _)) by (unfold is_u32; lia).
    rewrite as_u32_small by (unfold is_u32; lia). lia.
Qed.

End Send.

(** ** Flushing the transmit ring *)

(** The fields the sending side does not change while it sends. *)
Definition send_eq (c c' : TcpConn) : Prop :=
  tx c' = tx c /\ snd_una c' = snd_una c /\ snd_wnd c' = snd_wnd c /\ cwnd c' = cwnd c /\ mss c' = mss c /\
  remote_ip c' = remote_ip c /\ remote_port c' = remote_port c /\ local_port c' = local_port c /\ rcv_nxt c' = rcv_nxt c /\ rx c' = rx c.

Lemma send_eq_trans a b c : send_eq a b -> send_eq b c -> send_eq a c.
Proof. intros (? & ? & ? & ? & ? & ? & ? & ? & ? & ?) (? & ? & ? & ? & ? & ? & ? & ? & ? & ?). repeat split; congruence. Qed.

(** The segment at offset [off] behind the first byte not acknowledged. *)
Definition seg_frame (i : iface) (mac ip : list Z) (c : TcpConn) (off : nat) (chunk : list Z) : list Z :=
  v4_frame i mac ip (put_snd_nxt (u32_add (snd_una c) (Z.of_nat off)) c) TCP_ACK chunk.

Fixpoint seg_frames (i : iface) (mac ip : list Z) (c : TcpConn) (off : nat) (chunks : list (list Z)) : list (list Z) :=
  match chunks with
  | [] => []
  | ch :: rest => seg_frame i mac ip c off ch :: seg_frames i mac ip c (off + length ch) rest
  end.

Lemma seg_frame_eq i mac ip c c' off ch : send_eq c c' -> seg_frame i mac ip c' off ch = seg_frame i mac ip c off ch.
Proof.
  intros (_ & E1 & _ & _ & _ & _ & E2 & E3 & E4 & E5). unfold seg_frame, v4_frame, tcp_segment, tcp_header, window. cbn.
  by rewrite E1, E2, E3, E4, E5.
Qed.
Lemma seg_frames_eq i mac ip c c' off chs : send_eq c c' -> seg_frames i mac ip c' off chs = seg_frames i mac ip c off chs.
Proof. intros H. revert off. induction chs as [|ch chs IH]; intros off; cbn; [done|]. by rewrite IH, (seg_frame_eq i mac ip c c'). Qed.

(** A connection with [q] in its transmit ring, [snd_cur] bytes of it under way. *)
Record sender (ip mac : list Z) (id : nat) (c : TcpConn) (q : list Z) (s : net bench) : Prop := {
  se_conn : CONNS (tcp s) !! id = Some c;
  se_ip : remote_ip c = V4 ip;
  se_bc : ip <> broadcast_ip;
  se_mac : arp_find (next_hop (ifc s) ip) (ARP_TABLE (arp s)) = Some mac;
  se_tx : exists t, tx c = Some t /\ contents t = q;
  se_cur : (snd_cur c <= length q)%nat;
  se_nxt : snd_nxt c = u32_add (snd_una c) (Z.of_nat (snd_cur c));
}.

Lemma resolve_known ip mac (s : net bench) : ip <> broadcast_ip -> arp_find (next_hop (ifc s) ip) (ARP_TABLE (arp s)) = Some mac ->
  resolve_mac_nonblocking ip s = Got (mac, s).
Proof.
  intros Hb Hm. unfold resolve_mac_nonblocking. rewrite bool_decide_false by done. unfold mbind, N_bind, getn, arp_lookup, getn. by rewrite Hm.
Qed.

(** One segment. *)
Definition flush_step (t : Z) (n : nat) (c : TcpConn) : TcpConn :=
  let c' := put_snd_cur (snd_cur c + n)%nat (put_snd_nxt (u32_add (snd_nxt c) (Z.of_nat n)) c) in
  if (snd_cur c =? 0)%nat && (snd_una c =? snd_nxt c)
  then put_retx_backoff 1 (put_retx_count 0 (put_retx_ticks (u32_add t RETX_INIT) c')) else c'.

Lemma flush_step_eq t n c : send_eq c (flush_step t n c).
Proof. unfold flush_step. cbv zeta. destruct (_ && _); by repeat split. Qed.

Lemma put_conn_ok id c (s : net bench) : net_ok s -> conn_ok c ->
  net_ok (with_tcp (mk_tcps (<[id := c]> (CONNS (tcp s))) (NEXT_PORT (tcp s))) s).
Proof.
  intros [] Hc. destruct no_tcp as (Hl & Hf & Hp). split; try done. split; [cbn; by rewrite length_insert|]. split; [|done]. by apply Forall_insert.
Qed.

Lemma flush_step_ok t n c : conn_ok c -> conn_ok (flush_step t n c).
Proof. unfold flush_step. cbv zeta. destruct (_ && _); [|revert c; conn_split]. revert c. conn_split. Qed.

Lemma send_chunk ip mac id c q (s : net bench) : net_ok s -> sender ip mac id c q s -> (0 < send_size c)%nat ->
  let ch := take (send_size c) (drop (snd_cur c) q) in
  let c' := flush_step (as_u32 (clock (host s))) (length ch) c in
  exists s', (forall n, flush_loop (S n) id s = flush_loop n id s') /\ net_ok s' /\ sender ip mac id c' q s' /\ ifc s' = ifc s /\
    length ch = send_size c /\ clock (host s') = clock (host s) /\
    sent (host s') = sent (host s) ++ [seg_frame (ifc s) mac ip c (snd_cur c) ch].
Proof.
  intros Hs [Hc Hip Hb Hm (t & Ht & Hq) Hcur Hnxt] Hpos ch c'. destruct (no_tcp _ Hs) as (Hlen & Hf & _).
  pose proof (Forall_lookup_1 _ _ _ _ Hf Hc) as Hok. pose proof (co_tx _ Hok) as Hro. rewrite Ht in Hro.
  assert (Hlq : length q = rlen t) by (rewrite <- Hq; apply length_contents).
  assert (Hle : (send_size c <= length q - snd_cur c)%nat) by (unfold send_size; rewrite Ht; unfold avail; lia).
  assert (Hch : length ch = send_size c) by (unfold ch; rewrite length_take, length_drop; lia).
  pose proof (send_size_mss c) as Hmss. pose proof (co_mss _ Hok).
  assert (Epeek : peek_from (snd_cur c) (send_size c) t = ch) by (rewrite peek_from_eq, Hq by (done || lia); done).
  assert (Hid : (id < length (CONNS (tcp s)))%nat) by (by eapply lookup_lt_Some).
  set (f := v4_frame (ifc s) mac ip c TCP_ACK ch). set (s1 := after_send f s).
  assert (Ef : f = seg_frame (ifc s) mac ip c (snd_cur c) ch) by (unfold f, seg_frame; rewrite <- Hnxt; by destruct c).
  assert (Esend : send_segment id TCP_ACK ch s = Got (tt, s1)).
  { apply send_segment_v4_eq; [done|done|done|by apply resolve_known|]. change (options_len 16) with 0%nat. lia. }
  assert (Uch : Forall is_u8 ch) by (unfold ch; rewrite <- Hq; apply Forall_take, Forall_drop; by apply ring_bytes_u8).
  assert (Hs1 : net_ok s1).
  { destruct (okn_send_segment (D := bench) id 16 ch ltac:(lia) ltac:(by split) Uch s Hs) as ([] & s1' & E & ? & _). congruence. }
  exists (with_tcp (mk_tcps (<[id := c']> (CONNS (tcp s1))) (NEXT_PORT (tcp s1))) s1). split.
  - intros n. cbn [flush_loop]. unfold mbind at 1, N_bind at 1. rewrite (conn_eq _ c) by done. cbv zeta.
    rewrite (proj2 (Nat.eqb_neq _ 0)), (proj2 (Nat.ltb_ge 1460 _)) by lia. rewrite Ht, Epeek, (proj2 (Nat.eqb_neq _ 0)) by lia.
    unfold mbind at 1, N_bind at 1. rewrite Esend. unfold mbind at 1, N_bind at 1. rewrite (conn_eq _ c) by done.
    unfold mbind at 1, N_bind at 1. rewrite (modc_eq _ _ c) by done. unfold c', flush_step. cbv zeta.
    destruct ((snd_cur c =? 0)%nat && (snd_una c =? snd_nxt c)); [|done].
    unfold mbind at 1, N_bind at 1, mbind at 1, N_bind at 1. cbn [now ticks bench_host host with_tcp s1 after_send].
    erewrite modc_eq by (cbn; apply list_lookup_insert_eq; done). cbn. by rewrite list_insert_insert_eq.
  - split; [apply put_conn_ok; [done|by apply flush_step_ok]|]. rewrite <- Ef. split_and!; try done.
    pose proof (flush_step_eq (as_u32 (clock (host s))) (length ch) c) as He. fold c' in He.
    destruct He as (E1 & E2 & _ & _ & _ & E3 & _). split; try done.
    + cbn. by apply list_lookup_insert_eq.
    + by rewrite E3.
    + exists t. by rewrite E1.
    + unfold c', flush_step. cbv zeta. destruct (_ && _); cbn; lia.
    + rewrite E2. unfold c', flush_step. cbv zeta. destruct (_ && _); cbn; rewrite Hnxt, u32_add_add; f_equal; lia.
Qed.

Lemma send_size_wnd c : (send_size c <= Z.to_nat (Z.min (snd_wnd c) (cwnd c)) - snd_cur c)%nat.
Proof. unfold send_size. lia. Qed.

Lemma flush_loop_sends n ip mac id c q (s : net bench) : net_ok s -> sender ip mac id c q s ->
  exists chunks c' s', flush_loop n id s = Got (tt, s') /\ sender ip mac id c' q s' /\ send_eq c c' /\
    sent (host s') = sent (host s) ++ seg_frames (ifc s) mac ip c (snd_cur c) chunks /\
    snd_cur c' = (snd_cur c + length (concat chunks))%nat /\
    concat chunks = take (length (concat chunks)) (drop (snd_cur c) q) /\
    Forall (fun ch => 0 < length ch <= Z.to_nat (mss c))%nat chunks /\
    (chunks <> [] -> snd_cur c' <= Z.to_nat (Z.min (snd_wnd c) (cwnd c)))%nat /\
    (length chunks = n \/ length chunks < n /\ send_size c' = 0)%nat.
Proof.
  revert c s. induction n as [|n IH]; intros c s Hs Hse.
  - exists [], c, s. cbn. rewrite app_nil_r, Nat.add_0_r. split; [done|]. split; [done|]. split; [by repeat split|]. split_and!; done || by left.
  - destruct (decide (send_size c = 0)%nat) as [E0|E0].
    + exists [], c, s. cbn [flush_loop concat length seg_frames]. unfold mbind at 1, N_bind at 1. rewrite (conn_eq _ c) by apply Hse.
      cbv zeta. rewrite E0, app_nil_r, Nat.add_0_r. split; [done|]. split; [done|]. split; [by repeat split|]. split_and!; try done. right. split; [lia|done].
    + destruct (send_chunk ip mac id c q s Hs Hse) as (s1 & El & Hs1 & Hse1 & Ei & Hch & _ & Esent); [lia|].
      set (ch := take (send_size c) (drop (snd_cur c) q)) in *. set (c1 := flush_step _ _ c) in *.
      assert (He : send_eq c c1) by apply flush_step_eq.
      assert (Hc1 : snd_cur c1 = (snd_cur c + length ch)%nat) by (unfold c1, flush_step; cbv zeta; by destruct (_ && _)).
      destruct (IH c1 s1 Hs1 Hse1) as (chunks & c' & s' & E & Hse' & He' & Esent' & Hcur & Hcat & Hall & Hwnd & Hmax).
      pose proof He as (E1 & E2 & E3 & E4 & E5 & _).
      exists (ch :: chunks), c', s'. rewrite El. split; [done|]. split; [done|]. split; [by eapply send_eq_trans|].
      split; [rewrite Esent', Esent, Ei, <- app_assoc; cbn; by rewrite Hc1, (seg_frames_eq _ _ _ c c1)|].
      cbn [concat length]. rewrite length_app. split; [lia|]. split.
      { rewrite Hcat at 1. rewrite Hc1, <- drop_drop. unfold ch at 1. rewrite <- Hch. apply take_take_drop. }
      split; [constructor; [pose proof (send_size_mss c); lia|by rewrite <- E5]|]. split.
      { intros _. destruct chunks as [|ch2 chunks]; [pose proof (send_size_wnd c); cbn in Hcur; lia|]. rewrite <- E3, <- E4. by apply Hwnd. }
      destruct Hmax as [->|[Hlt Hz]]; [by left|right; split; [lia|done]].
Qed.

(** What [flush_tx] sends is the stream.  It sends at most eight segments; together
    they carry the bytes of the transmit ring that follow those under way, each at its
    own sequence number, none longer than the peer's segment size, and never beyond the
    smaller of the peer's and the congestion window.  It stops early only when nothing
    more may be sent, and keeps the bytes until they are acknowledged. *)
Theorem flush_sends_stream ip mac id c q (s : net bench) : net_ok s -> sender ip mac id c q s ->
  exists chunks c' s', flush_tx id s = Got (tt, s') /\ sender ip mac id c' q s' /\
    sent (host s') = sent (host s) ++ seg_frames (ifc s) mac ip c (snd_cur c) chunks /\
    snd_cur c' = (snd_cur c + length (concat chunks))%nat /\
    concat chunks = take (length (concat chunks)) (drop (snd_cur c) q) /\
    Forall (fun ch => 0 < length ch <= Z.to_nat (mss c))%nat chunks /\
    (chunks <> [] -> snd_cur c' <= Z.to_nat (Z.min (snd_wnd c) (cwnd c)))%nat /\
    (length chunks = 8 \/ length chunks < 8 /\ send_size c' = 0)%nat.
Proof.
  intros Hs Hse. destruct (flush_loop_sends 8 ip mac id c q s Hs Hse) as (chunks & c' & s' & ? & ? & _ & ? & ? & ? & ? & ? & ?).
  exists chunks, c', s'. split_and!; done.
Qed.

(** ** Samples *)

(** The sample connection with three bytes to send, and its peer's address known. *)
Definition sending_conn : TcpConn := put_tx (Some (push [65; 66; 67] (RingBuf_new BUF_SIZE)).2) sample_conn.
Definition sending_net : net bench :=
  with_arp (mk_arps (<[0%nat := mk_arp [10; 0; 2; 2] [2; 0; 0; 0; 0; 9] true]> (ARP_TABLE (arp conn_net))) 1 (ARP_PENDING (arp conn_net)))
    (with_tcp (mk_tcps (<[0%nat := sending_conn]> (CONNS (tcp conn_net))) 49152) conn_net).

Lemma sending_ring : contents (push [65; 66; 67] (RingBuf_new BUF_SIZE)).2 = [65; 66; 67] /\ ring_ok (push [65; 66; 67] (RingBuf_new BUF_SIZE)).2.
Proof.
  destruct (push_ok [65; 66; 67] _ RingBuf_new_ok) as (_ & H1 & H2); [u8s|]. split; [|done]. rewrite H2. Transparent BUF_SIZE. done.
Qed.

Lemma sending_net_ok : net_ok sending_net.
Proof.
  apply with_arp_ok; [apply put_conn_ok; [apply conn_net_ok|]|].
  - destruct sample_conn_ok. split; try done. apply sending_ring.
  - destruct (no_arp _ conn_net_ok) as (Hl & Hf & Hp). split; [reflexivity|]. split; [|done]. apply Forall_insert; [done|].
    split; (split; [done|u8s]).
Qed.

Lemma sending_sender : sender [10; 0; 2; 2] [2; 0; 0; 0; 0; 9] 0 sending_conn [65; 66; 67] sending_net.
Proof.
  split; try reflexivity; try done.
  - eexists. split; [reflexivity|apply sending_ring].
  - cbn. lia.
Qed.

Lemma flush_sends_stream_witness : exists chunks c' s', flush_tx 0 sending_net = Got (tt, s') /\
  sender [10; 0; 2; 2] [2; 0; 0; 0; 0; 9] 0 c' [65; 66; 67] s' /\
  sent (host s') = seg_frames sample_ifc [2; 0; 0; 0; 0; 9] [10; 0; 2; 2] sending_conn 0 chunks /\
  concat chunks = take (length (concat chunks)) [65; 66; 67].
Proof.
  destruct (flush_sends_stream [10; 0; 2; 2] [2; 0; 0; 0; 0; 9] 0 sending_conn [65; 66; 67] sending_net sending_net_ok sending_sender)
    as (chunks & c' & s' & E & Hse & Hsent & _ & Hcat & _).
  exists chunks, c', s'. split; [exact E|]. split; [exact Hse|]. split; [exact Hsent|exact Hcat].
Defined.

Lemma segment_on_the_wire_witness : exists s', send_segment 0 TCP_ACK [65; 66; 67] sending_net = Got (tt, s') /\
  sent (host s') = [v4_frame sample_ifc [2; 0; 0; 0; 0; 9] [10; 0; 2; 2] sending_conn TCP_ACK [65; 66; 67]].
Proof.
  destruct (segment_on_the_wire 0 sending_conn [10; 0; 2; 2] [2; 0; 0; 0; 0; 9] TCP_ACK [65; 66; 67] sending_net) as (s' & E & _ & Eh & _).
  - exact sending_net_ok.
  - reflexivity.
  - reflexivity.
  - apply resolve_known; [discriminate|reflexivity].
  - split; [lia|reflexivity].
  - u8s.
  - change (options_len 16) with 0%nat. cbn [length]. lia.
  - exists s'. split; [exact E|]. rewrite Eh. reflexivity.
Defined.
