(* ===== verification/TcpPair.v ===== *)
(** * From host to host

    The frames of one stack taken in by another: the fields of a segment read back, the
    way of a frame to the connection it belongs to, and the stream across. *)

From stdpp Require Import base numbers list.
From Stdlib Require Import ZArith Lia Bool.
From S2P Require Import Prelude Sector NetState NetLink NetConf Tcp Net NetFrames NetInv TcpRing TcpInv NetSafe NetWire TcpStream TcpSend.

Lemma BUF_SIZE_small : Z.of_nat BUF_SIZE = 32768.
Proof. reflexivity. Qed.

#[local] Opaque BUF_SIZE.

(** ** The fields of a segment *)

(** The fields of a segment of ours, read back. *)
Lemma segment_fields sum c flags data : conn_ok c ->
  let seg := tcp_segment sum c flags data in
  field16 seg 0 = local_port c /\ field16 seg 2 = remote_port c /\ field32 seg 4 = snd_nxt c /\ field32 seg 8 = rcv_nxt c /\
  nth 13 seg 0 = flags /\ field16 seg 14 = window c /\ seg_doff seg = (20 + options_len flags)%nat /\ seg_data seg = data.
Proof.
  intros Hc seg. set (o := if has flags 2 then 2 :: 4 :: to_be_bytes 2 1460 else []).
  set (d := Z.shiftl (Z.of_nat ((20 + options_len flags) / 4)) 4).
  assert (Es : exists k, seg = to_be_bytes 2 (local_port c) ++ to_be_bytes 2 (remote_port c) ++ to_be_bytes 4 (snd_nxt c)
    ++ to_be_bytes 4 (rcv_nxt c) ++ [d; flags] ++ to_be_bytes 2 (window c) ++ to_be_bytes 2 k ++ [0; 0] ++ o ++ data).
  { eexists. unfold seg, tcp_segment, tcp_header. cbv zeta. fold d. fold o. rewrite <- !app_assoc. unfold splice. rewrite length_to_be_bytes. reflexivity. }
  destruct Es as [k Es]. assert (Hw : is_u16 (window c)).
  { unfold window. destruct (rx c); unfold is_u16; lia. }
  assert (Lo : length o = options_len flags) by (unfold o, options_len; by destruct (has flags 2)).
  assert (Ed : seg_doff seg = (20 + options_len flags)%nat).
  { rewrite Es. unfold seg_doff. cbn [nth app to_be_bytes to_le_bytes reverse rev_append]. unfold d, options_len. by destruct (has flags 2). }
  split_and!; try (rewrite Es).
  - apply (field16_app []); [done|apply Hc].
  - apply (field16_app (to_be_bytes 2 _)); [done|apply Hc].
  - rewrite (app_assoc (to_be_bytes 2 _)). apply field32_app; [done|apply Hc].
  - rewrite (app_assoc (to_be_bytes 2 _)), (app_assoc (to_be_bytes 2 _ ++ _)). apply field32_app; [done|apply Hc].
  - reflexivity.
  - rewrite (app_assoc (to_be_bytes 2 _)), (app_assoc (to_be_bytes 2 _ ++ _)), (app_assoc ((_ ++ _) ++ _)), (app_assoc (((_ ++ _) ++ _) ++ _)).
    by apply field16_app.
  - rewrite <- Es. exact Ed.
  - rewrite <- Es. unfold seg_data. rewrite Ed.
    assert (Hl : (20 + options_len flags <= length seg)%nat) by (unfold seg; rewrite length_tcp_segment; lia).
    rewrite (proj2 (Nat.leb_le _ _)) by done. rewrite Es. rewrite <- Lo. rewrite !app_assoc. rewrite <- (app_assoc _ o).
    rewrite app_assoc. apply drop_app_length'. rewrite !length_app, !length_to_be_bytes. cbn. lia.
Qed.

(** ** A frame on its way in *)

Lemma tcp_segment_u8 sum c flags data : is_u8 flags -> Forall is_u8 data -> Forall is_u8 (tcp_segment sum c flags data).
Proof.
  intros Hf Hd. unfold tcp_segment. cbv zeta. apply splice_u8; [apply to_be_bytes_u8|]. by apply tcp_raw_u8.
Qed.

Section Pair.
Context {D : Type} `{!NetHost D}.

(** The frame of a segment goes to [tcp_handle_segment] at the host it is for. *)
Lemma segment_received i c flags data (s : net D) : iface_ok i -> is_u8 flags -> Forall is_u8 data ->
  (20 + options_len flags + length data <= 2028)%nat -> net_ok s ->
  exists s', net_ok s' /\ tcp s' = tcp s /\ ifc s' = ifc s /\
    handle_frame (v4_frame i (NET_MAC (ifc s)) (NET_IP (ifc s)) c flags data) s =
    tcp_handle_segment (V4 (NET_IP i)) (tcp_segment (tcp_checksum (NET_IP i) (NET_IP (ifc s))) c flags data) s'.
Proof.
  intros Hi Hf Hd Hl Hs. set (sum := tcp_checksum _ _).
  destruct (frame_received (NET_MAC i) (NET_IP i) [0; 0] 6 (tcp_segment sum c flags data) s) as (s' & Hs' & Et & Ei & _ & E); try done.
  - apply Hi.
  - apply Hi.
  - by split; [|u8s].
  - by apply tcp_segment_u8.
  - rewrite length_tcp_segment. lia.
  - exists s'. split_and!; try done. unfold v4_packet in E. rewrite length_tcp_segment in E. exact E.
Qed.

(** Handling a segment leaves our addresses alone. *)
Definition same_ifc (s s' : net D) : Prop := ifc s' = ifc s.

Lemma same_ifc_trans (a b c : net D) : same_ifc a b -> same_ifc b c -> same_ifc a c.
Proof. unfold same_ifc. congruence. Qed.

Ltac same := first [done | exact same_ifc_trans].
Ltac lvi := repeat match goal with
  | H : forall f, leaves _ (modc _ f) |- _ => apply H
  | |- leaves same_ifc (modn _) => by apply leaves_modn
  | |- leaves same_ifc (_ ≫= _) => apply leaves_bind; [same| |intros ?]
  | |- leaves same_ifc (if ?b then _ else _) => destruct b
  | |- leaves same_ifc (match ?x with _ => _ end) => destruct x
  | |- leaves same_ifc _ => first [apply leaves_ret; same | apply leaves_getn; same | apply leaves_crash | apply leaves_stuck
      | apply leaves_idx; same | apply leaves_sub; same | apply leaves_be16; same | apply leaves_be32; same | apply leaves_conn; same
      | apply leaves_find; same | apply leaves_now; same | apply leaves_counter; same | apply leaves_send_segment; same | apply leaves_send_rst; same]
  end.

Lemma modc_ifc id f : leaves same_ifc (modc (D := D) id f).
Proof. unfold modc. lvi. Qed.

Lemma segment_ifc src payload : leaves same_ifc (tcp_handle_segment (D := D) src payload).
Proof.
  pose proof modc_ifc as Hm. assert (Hfl : forall id, leaves same_ifc (flush_tx (D := D) id)) by (intros id; apply leaves_flush_loop; auto; same).
  assert (Hd : forall id seq data, leaves same_ifc (deliver (D := D) id seq data)) by (intros; unfold deliver; lvi; apply Hm).
  assert (Ha : forall id a data, leaves same_ifc (on_ack (D := D) id a data)).
  { intros. unfold on_ack. lvi; first [apply Hm | apply Hfl]. }
  assert (Hp : forall n opts oi m, leaves same_ifc (peer_mss (D := D) n opts oi m)).
  { induction n; intros; cbn [peer_mss]; lvi; auto. }
  unfold tcp_handle_segment, no_match, accept_syn, on_syn_rcvd, on_syn_sent, on_established, on_fin.
  lvi; first [apply Hm | apply Hd | apply Ha | apply Hp].
Qed.

(** ** The stream across *)

Lemma at_byte_tcp c0 id isn n q (s s' : net D) : tcp s' = tcp s -> at_byte c0 id isn n q s -> at_byte c0 id isn n q s'.
Proof. unfold at_byte, slot_of. by intros ->. Qed.

(** The frames as they come in. *)
Fixpoint take_in (frames : list (list Z)) : N D unit :=
  match frames with [] => mret tt | f :: rest => handle_frame f;; take_in rest end.

(** Connection [c] of the host with interface [i], and [c'], its other end. *)
Definition peers (i : iface) (c c' : TcpConn) : Prop :=
  remote_ip c' = V4 (NET_IP i) /\ remote_port c' = local_port c /\ local_port c' = remote_port c.

Lemma frame_crosses i c c' id q off ch qB (s : net D) : iface_ok i -> conn_ok c -> peers i c c' -> Forall is_u8 q -> Z.of_nat (length q) < 2 ^ 32 ->
  net_ok s -> at_byte c' id (snd_una c) off qB s -> (off + length ch <= length q)%nat -> ch = take (length ch) (drop off q) ->
  (length ch <= 1460)%nat -> (length qB + length ch <= BUF_SIZE)%nat ->
  exists s', handle_frame (seg_frame i (NET_MAC (ifc s)) (NET_IP (ifc s)) c off ch) s = Got (tt, s') /\ net_ok s' /\ ifc s' = ifc s /\
    at_byte c' id (snd_una c) (off + length ch) (qB ++ ch) s'.
Proof.
  intros Hi Hc (P1 & P2 & P3) Hq Lq Hs Hat Hoff Hch Hl Hroom. unfold seg_frame. set (c1 := put_snd_nxt _ c).
  assert (Hc1 : conn_ok c1) by (destruct Hc; split; cbn; try done; apply as_u32_range).
  assert (Uc : Forall is_u8 ch) by (rewrite Hch; by apply Forall_take, Forall_drop).
  destruct (segment_received i c1 TCP_ACK ch s) as (s1 & Hs1 & Et & Ei & ->);
    [done|by split|done|change (options_len 16) with 0%nat; lia|done|].
  set (sum := tcp_checksum _ _). destruct (segment_fields sum c1 TCP_ACK ch Hc1) as (F0 & F2 & F4 & _ & F13 & _ & _ & Fd).
  set (seg := tcp_segment sum c1 16 ch) in *.
  destruct (seg_step c' id q (snd_una c) off qB seg s1) as (s2 & k & E & Hs2 & _ & Hat2 & Hk); [done|by eapply at_byte_tcp|lia|done| | |].
  - split; [unfold seg; rewrite length_tcp_segment; lia|]. split; [by apply tcp_segment_u8|]. rewrite F0, F2, F13, P2, P3. done.
  - exists off. rewrite Fd, F4. done.
  - rewrite P1 in E. exists s2. split; [done|]. split; [done|]. split; [by rewrite (segment_ifc _ _ _ _ _ E)|].
    rewrite Fd in Hk. assert (k = length ch) as -> by (rewrite Hk by done; lia). by rewrite <- Hch in Hat2.
Qed.

Lemma frames_cross i c c' id q off chunks qB (s : net D) : iface_ok i -> conn_ok c -> peers i c c' -> Forall is_u8 q -> Z.of_nat (length q) < 2 ^ 32 ->
  net_ok s -> at_byte c' id (snd_una c) off qB s -> (off + length (concat chunks) <= length q)%nat ->
  concat chunks = take (length (concat chunks)) (drop off q) -> Forall (fun ch => length ch <= 1460)%nat chunks ->
  (length qB + length (concat chunks) <= BUF_SIZE)%nat ->
  exists s', take_in (seg_frames i (NET_MAC (ifc s)) (NET_IP (ifc s)) c off chunks) s = Got (tt, s') /\ net_ok s' /\
    at_byte c' id (snd_una c) (off + length (concat chunks)) (qB ++ concat chunks) s'.
Proof.
  intros Hi Hc Hp Hq Lq. revert off qB s. induction chunks as [|ch chunks IH]; intros off qB s Hs Hat Hoff Hcat Hall Hroom.
  - exists s. cbn. by rewrite Nat.add_0_r, app_nil_r.
  - cbn [concat seg_frames take_in] in *. rewrite length_app in *. apply Forall_cons in Hall as [Hch Hall].
    assert (E1 : ch = take (length ch) (drop off q)).
    { apply (f_equal (take (length ch))) in Hcat. rewrite take_app_length, take_take in Hcat. rewrite Hcat at 1. f_equal. lia. }
    assert (E2 : concat chunks = take (length (concat chunks)) (drop (off + length ch) q)).
    { apply (f_equal (drop (length ch))) in Hcat. rewrite drop_app_length, skipn_firstn_comm, drop_drop in Hcat. rewrite Hcat at 1. f_equal. lia. }
    destruct (frame_crosses i c c' id q off ch qB s) as (s1 & E & Hs1 & Ei & Hat1); try done; try lia.
    unfold mbind, N_bind. rewrite E, <- Ei.
    destruct (IH (off + length ch)%nat (qB ++ ch) s1) as (s2 & E' & Hs2 & Hat2); try done; try (rewrite ?length_app; lia).
    exists s2. split; [done|]. split; [done|]. by rewrite Nat.add_assoc, app_assoc.
Qed.

(** C14: The stream reaches the other side.  One stack flushes a connection, the other, at
    whose MAC and IP address the frames are and which holds the other end with room for
    the bytes, takes the frames in: it finds the connection from the headers alone, and
    its receive ring grows by exactly the bytes the sender now counts as under way. *)
Theorem stream_crosses mac ip id c q (a : net bench) c' id' qB (b : net D) : net_ok a -> sender ip mac id c q a ->
  net_ok b -> mac = NET_MAC (ifc b) -> ip = NET_IP (ifc b) -> peers (ifc a) c c' -> at_byte c' id' (snd_una c) (snd_cur c) qB b ->
  (length qB + (length q - snd_cur c) <= BUF_SIZE)%nat ->
  exists frames k a1 c1 b', flush_tx id a = Got (tt, a1) /\ sent (host a1) = sent (host a) ++ frames /\
    CONNS (tcp a1) !! id = Some c1 /\ snd_cur c1 = (snd_cur c + k)%nat /\
    (0 < send_size c -> 0 < k)%nat /\
    take_in frames b = Got (tt, b') /\ at_byte c' id' (snd_una c) (snd_cur c + k) (qB ++ take k (drop (snd_cur c) q)) b'.
Proof.
  intros Ha Hse Hb -> -> Hp Hat Hroom. pose proof Hse as [Hc _ _ _ (t & Ht & Hq) Hcur _].
  destruct (no_tcp _ Ha) as (_ & Hf & _). pose proof (Forall_lookup_1 _ _ _ _ Hf Hc) as Hok.
  pose proof (co_tx _ Hok) as Hr. rewrite Ht in Hr. cbn in Hr. assert (Lq : length q = rlen t) by (rewrite <- Hq; apply length_contents).
  destruct (flush_loop_sends 8 _ _ id c q a Ha Hse) as (chunks & c1 & a1 & E & Hse1 & He & Hs1 & Hc1 & Hcat & Hall & _ & Hmax).
  assert (Hn : (length (concat chunks) <= length q - snd_cur c)%nat).
  { apply (f_equal length) in Hcat. rewrite length_take, length_drop in Hcat. lia. }
  pose proof (ro_len _ Hr). pose proof (co_mss _ Hok). pose proof BUF_SIZE_small.
  destruct (frames_cross (ifc a) c c' id' q (snd_cur c) chunks qB b (no_ifc _ Ha) Hok Hp) as (b' & Eb & _ & Hat').
  - rewrite <- Hq. by apply ring_bytes_u8.
  - lia.
  - exact Hb.
  - exact Hat.
  - lia.
  - exact Hcat.
  - eapply Forall_impl; [exact Hall|]. cbn. lia.
  - lia.
  - exists (seg_frames (ifc a) (NET_MAC (ifc b)) (NET_IP (ifc b)) c (snd_cur c) chunks), (length (concat chunks)), a1, c1, b'.
    split; [exact E|]. split; [exact Hs1|]. split; [apply Hse1|]. split; [exact Hc1|]. split; [|by split; [|rewrite <- Hcat]].
    intros Hpos. destruct chunks as [|ch chunks]; [|apply Forall_cons in Hall as [? _]; cbn; rewrite length_app; lia].
    cbn in Hmax, Hc1. destruct Hmax as [?|[_ Hz]]; [lia|].
    destruct He as (E1 & _ & E3 & E4 & E5 & _). unfold send_size in Hz, Hpos. rewrite E1, E3, E4, E5, Hc1 in Hz. rewrite Nat.add_0_r in Hz. lia.
Qed.
End Pair.

(** ** A sample pair *)

(** 10.0.2.2, port 1000, at the other end of [sending_conn]. *)
Definition peer_ifc : iface :=
  mk_iface [10; 0; 2; 2] [255; 255; 255; 0] [10; 0; 2; 2] [2; 0; 0; 0; 0; 9] true false (mac_to_link_local [2; 0; 0; 0; 0; 9]) zero16 zero16 false.
Definition peer_conn : TcpConn :=
  mk_conn Established (V4 [10; 0; 2; 15]) 80 1000 8 8 0 501 4096 1460 0 0 1 0 2920 65536 0 8 0 false false 1000
    (Some (RingBuf_new BUF_SIZE)) (Some (RingBuf_new BUF_SIZE)).
Definition peer_net : net bench :=
  with_tcp (mk_tcps (<[0%nat := peer_conn]> (CONNS (tcp sample_net))) 49152) (with_ifc peer_ifc sample_net).

Lemma peer_net_ok : net_ok peer_net.
Proof.
  apply (put_conn_ok 0 peer_conn (with_ifc peer_ifc sample_net)).
  - apply with_ifc_ok; [apply sample_net_ok|]. assert (Hz : bytes 16 zero16) by (by apply bytes_replicate).
    split; cbn; try exact Hz; try (apply mac_ll_ok; by split; [|u8s]); (split; [done|u8s]).
  - pose proof RingBuf_new_ok. split; cbn; try done. by split; [|u8s].
Qed.

Lemma stream_crosses_witness : exists frames k a1 c1 b', flush_tx 0 sending_net = Got (tt, a1) /\ sent (host a1) = frames /\
  CONNS (tcp a1) !! 0%nat = Some c1 /\ snd_cur c1 = k /\ (0 < send_size sending_conn -> 0 < k)%nat /\
  take_in frames peer_net = Got (tt, b') /\ at_byte peer_conn 0 501 k (take k [65; 66; 67]) b'.
Proof.
  apply (stream_crosses [2; 0; 0; 0; 0; 9] [10; 0; 2; 2] 0 sending_conn [65; 66; 67] sending_net peer_conn 0 [] peer_net
    sending_net_ok sending_sender peer_net_ok).
  - reflexivity.
  - reflexivity.
  - split; [reflexivity|]. split; reflexivity.
  - split; [split|].
    + exists peer_conn. split; [reflexivity|]. split; [discriminate|]. split; [reflexivity|]. split; reflexivity.
    + intros j y _ Hj. lia.
    + exists peer_conn, (RingBuf_new BUF_SIZE). split; [reflexivity|]. split; [reflexivity|]. split; [reflexivity|].
      split; [reflexivity|]. split; [vm_compute; reflexivity|]. split; [reflexivity|]. split; reflexivity.
  - pose proof BUF_SIZE_small. cbn [length sending_conn sample_conn snd_cur put_tx]. lia.
Defined.
