(* ===== verification/NetServices.v ===== *)
(** * Echo, DHCP and DNS

    What the stack does with a ping, a lease and an answer of a name server. *)

From stdpp Require Import base numbers list.
From Stdlib Require Import ZArith Lia Bool.
From S2P Require Import Prelude Sector NetState NetLink NetConf Tcp Net NetFrames NetInv TcpRing TcpInv NetSafe NetWire.

(** ** Echo *)

(** The reply to an echo request: type and code 0, the rest of the request, and the sum. *)
Definition echo_reply (req : list Z) : list Z :=
  let body := [0; 0; 0; 0] ++ drop 4 req in splice 2 (to_be_bytes 2 (ip_checksum body)) body.

Lemma echo_reply_verifies req : Forall is_u8 req -> (8 <= length req <= 2014)%nat -> ip_checksum (echo_reply req) = 0.
Proof.
  intros Hu Hl. unfold echo_reply. cbv zeta. apply filled_verifies; try done; try (rewrite length_app, length_drop; cbn [length]; lia).
  apply Forall_app_2; [u8s|by apply Forall_drop].
Qed.

(** ** DHCP options *)

(** An option on the wire, and what the list of them says: the last option of a kind
    that is long enough counts. *)
Definition enc_opt (o : Z * list Z) : list Z := o.1 :: Z.of_nat (length o.2) :: o.2.
Definition opt_ok (o : Z * list Z) : Prop := o.1 <> 0 /\ o.1 <> 255.
Definition opt_value (tag : Z) (n : nat) (opts : list (Z * list Z)) : option (list Z) :=
  snd <$> last (filter (fun o => o.1 = tag /\ (n <= length o.2)%nat) opts).
Definition opt_field {A} (f : list Z -> A) (d : A) (o : option (list Z)) : A := match o with Some v => f v | None => d end.

Definition opts_of (opts : list (Z * list Z)) : dhcp_opts :=
  mk_opts (opt_field (fun v => nth 0 v 0) 0 (opt_value 53 1 opts)) (opt_field (take 4) zero4 (opt_value 54 4 opts))
    (opt_field (fun v => be_bytes (take 4 v)) 3600 (opt_value 51 4 opts)) (opt_field (take 4) [255; 255; 255; 0] (opt_value 1 4 opts))
    (opt_field (take 4) zero4 (opt_value 3 4 opts)) (opt_field (fun v => be_bytes (take 4 v)) 0 (opt_value 58 4 opts)).

Lemma opt_value_snoc tag n opts x : opt_value tag n (opts ++ [x]) =
  if (x.1 =? tag) && (n <=? length x.2)%nat then Some x.2 else opt_value tag n opts.
Proof.
  unfold opt_value. rewrite filter_app. destruct ((x.1 =? tag) && (n <=? length x.2)%nat) eqn:E.
  - apply andb_true_iff in E as [E1%Z.eqb_eq E2%Nat.leb_le]. rewrite (filter_cons_True _ x []) by done. by rewrite filter_nil, last_snoc.
  - rewrite (filter_cons_False _ x []), filter_nil, app_nil_r; [done|]. intros [E1 E2]. apply andb_false_iff in E as [E%Z.eqb_neq|E%Nat.leb_gt]; [done|lia].
Qed.

Lemma opts_of_fold opts : foldl (fun o x => dhcp_option x.1 x.2 o) dhcp_defaults opts = opts_of opts.
Proof.
  induction opts as [|[tag v] opts IH] using rev_ind; [done|]. rewrite foldl_app. cbn [foldl fst snd]. rewrite IH. clear IH.
  unfold dhcp_option, opts_of. rewrite !opt_value_snoc. cbn [fst snd msg_type o_server lease_time subnet o_gw o_t1]. set (long := (4 <=? length v)%nat).
  destruct (Z.eqb_spec tag 1) as [->|?]; [by destruct long|]. destruct (Z.eqb_spec tag 3) as [->|?]; [by destruct long|].
  destruct (Z.eqb_spec tag 51) as [->|?]; [by destruct long|]. destruct (Z.eqb_spec tag 53) as [->|?]; [by destruct (1 <=? length v)%nat|].
  destruct (Z.eqb_spec tag 54) as [->|?]; [by destruct long|]. destruct (Z.eqb_spec tag 58) as [->|?]; [by destruct long|done].
Qed.

Section Services.
Context {D : Type} `{!NetHost D}.

Lemma echo_reply_run src_mac src_ip req (s : net D) : net_ok s -> bytes 6 src_mac -> bytes 4 src_ip -> (8 <= length req <= 2014)%nat ->
  exists s', send_icmp_echo_reply src_mac src_ip req s = Got (tt, s') /\ tcp s' = tcp s /\
    host s' = (nic_send (USE_E1000 (ifc s)) (eth_header src_mac (NET_MAC (ifc s)) [0x08; 0x00] ++
                 v4_packet [0; 0] 1 (NET_IP (ifc s)) src_ip (echo_reply req)) (host s)).2.
Proof.
  intros Hs [Lm Um] [Li Ui] Hl. destruct (no_tx _ Hs) as [Lt _]. pose proof (no_ifc _ Hs) as Hi.
  unfold send_icmp_echo_reply. rewrite (proj2 (Nat.ltb_ge 2048 _)) by lia. unfold mbind at 1, N_bind at 1. rewrite sub_eq by lia.
  rewrite drop_0, take_ge by lia. unfold mbind at 1, N_bind at 1. rewrite put_ipv4_eq by (done || apply Hi).
  set (h := eth_header src_mac (NET_MAC (ifc s)) [0x08; 0x00] ++ _).
  assert (Lh : length h = 34%nat).
  { unfold h, eth_header. rewrite !length_app, length_ipv4_header by (done || apply Hi). destruct (io_mac _ Hi) as [-> _]. by rewrite Lm. }
  assert (Lb : length (splice 0 h (TX_BUF s)) = 2048%nat) by (rewrite length_splice; lia).
  unfold mbind at 1, N_bind at 1. rewrite tb_puts_eq.
  2: { cbn [sent_buf TX_BUF with_TX_BUF]. rewrite Lb. repeat (apply Forall_cons_2; [cbn [length]; lia|]). apply Forall_nil_2. }
  unfold sent_buf. rewrite with_TX_BUF_twice. cbn [TX_BUF with_TX_BUF]. set (body := [0; 0; 0; 0] ++ drop 4 req).
  assert (Lbo : length body = length req) by (unfold body; rewrite length_app, length_drop; cbn [length]; lia).
  assert (Ew : writes [(34%nat, req); (34%nat, [0; 0]); (36%nat, [0; 0])] (splice 0 h (TX_BUF s)) = splice 0 (h ++ body) (TX_BUF s)).
  { cbn [writes foldl]. assert (E1 : splice 34 req (splice 0 h (TX_BUF s)) = splice 0 (h ++ req) (TX_BUF s)).
    { rewrite <- Lh. apply (splice_splice 0). lia. }
    rewrite E1. pose proof (fun k c a => splice_inside 0 k c a (TX_BUF s)) as Hin. cbn [Nat.add] in Hin.
    rewrite Hin by (rewrite length_app; cbn [length]; lia). 
    pose proof (splice_app_r 0 [0; 0] h req 34 ltac:(done)) as E2. cbn [Nat.add] in E2. rewrite E2.
    rewrite Hin by (rewrite length_app, length_splice; cbn [length]; lia). change 36%nat with (34 + 2)%nat.
    rewrite (splice_app_r 2 [0; 0] h _ 34) by done. f_equal. f_equal. unfold body. by destruct req as [|? [|? [|? [|? req]]]]; cbn in Hl; try lia. }
  rewrite Ew. unfold mbind at 1, N_bind at 1, getn at 1. cbn [TX_BUF with_TX_BUF].
  assert (Lhb : length (h ++ body) = (34 + length req)%nat) by (rewrite length_app; lia).
  unfold mbind at 1, N_bind at 1. rewrite sub_eq by (rewrite length_splice; lia).
  assert (Eb : take (34 + length req - 34) (drop 34 (splice 0 (h ++ body) (TX_BUF s))) = body).
  { replace (34 + length req - 34)%nat with (length req) by lia. rewrite take_drop_commute, take_splice_0 by done. by apply drop_app_length'. }
  rewrite Eb. unfold mbind at 1, N_bind at 1.
  rewrite tb_put_eq by (cbn [TX_BUF with_TX_BUF]; rewrite length_splice, length_to_be_bytes; lia). rewrite with_TX_BUF_twice. cbn [TX_BUF with_TX_BUF].
  pose proof (splice_inside 0 36 (to_be_bytes 2 (ip_checksum body)) (h ++ body) (TX_BUF s)) as Hin. rewrite length_to_be_bytes in Hin. cbn [Nat.add] in Hin.
  rewrite Hin by lia. change 36%nat with (34 + 2)%nat. rewrite splice_app_r by done. change (splice 2 _ body) with (echo_reply req).
  assert (Lr : length (echo_reply req) = length req) by (unfold echo_reply; cbv zeta; fold body; rewrite length_splice; rewrite ?length_to_be_bytes; lia).
  unfold mbind, N_bind. rewrite tb_send_eq by (cbn [TX_BUF with_TX_BUF]; rewrite length_splice; rewrite ?length_app; lia).
  cbn [TX_BUF with_TX_BUF]. rewrite take_splice_0 by (rewrite length_app; lia). unfold net_send_frame. cbn [ifc with_TX_BUF host].
  assert (Ef : h ++ echo_reply req = eth_header src_mac (NET_MAC (ifc s)) [8; 0] ++ v4_packet [0; 0] 1 (NET_IP (ifc s)) src_ip (echo_reply req)).
  { unfold h, v4_packet. by rewrite Lr, <- app_assoc. }
  rewrite Ef. destruct (nic_send _ _ _) as [ok d]. by eexists.
Qed.

(** A ping is answered.  An echo request for us, with data of any length the buffer
    holds, makes the stack send exactly one frame back to the sender: type 0, the
    identifier, the sequence number and the data of the request, both checksums
    verifying. *)
Theorem ping_answered src_mac src_ip ident req (s : net D) : net_ok s -> bytes 6 src_mac -> bytes 4 src_ip -> bytes 2 ident ->
  Forall is_u8 req -> (8 <= length req <= 2014)%nat -> nth 0 req 0 = 8 ->
  exists s' reply, handle_frame (eth_header (NET_MAC (ifc s)) src_mac [0x08; 0x00] ++ v4_packet ident 1 src_ip (NET_IP (ifc s)) req) s = Got (tt, s') /\
    host s' = (nic_send (USE_E1000 (ifc s)) (eth_header src_mac (NET_MAC (ifc s)) [0x08; 0x00] ++
                 v4_packet [0; 0] 1 (NET_IP (ifc s)) src_ip reply) (host s)).2 /\
    take 2 reply = [0; 0] /\ drop 4 reply = drop 4 req /\ ip_checksum reply = 0 /\
    ip_checksum (ipv4_header [0; 0] 1 (length reply) (NET_IP (ifc s)) src_ip) = 0.
Proof.
  intros Hs Hm Hip Hid Hu Hl H8. destruct (frame_received src_mac src_ip ident 1 req s) as (s1 & Hs1 & Et & Ei & Eh & ->); try done; try lia.
  unfold dispatch_v4, handle_icmp. cbn [Z.eqb Pos.eqb]. rewrite (proj2 (Nat.ltb_ge _ 8)) by lia. unfold mbind at 1, N_bind at 1.
  rewrite idx_eq, H8 by lia. cbn [Z.eqb Pos.eqb]. destruct (echo_reply_run src_mac src_ip req s1) as (s' & E & _ & E'); try done.
  rewrite Ei, Eh in E'. exists s', (echo_reply req). split; [done|]. split; [done|].
  split; [by destruct req as [|? [|? [|? [|? req]]]]; cbn in Hl; try lia|].
  split; [by destruct req as [|? [|? [|? [|? req]]]]; cbn in Hl; try lia|].
  split; [by apply echo_reply_verifies|]. apply ipv4_header_verifies; try done; [by split; [|u8s]|apply Hs].
Qed.

(** ** The lease *)

Lemma dhcp_options_fold opts : forall rounds pre tail o (s : net D), Forall opt_ok opts -> (length opts < rounds)%nat ->
  dhcp_options rounds (pre ++ concat (enc_opt <$> opts) ++ 255 :: tail) (length pre) o s =
  Got (foldl (fun o x => dhcp_option x.1 x.2 o) o opts, s).
Proof.
  induction opts as [|[tag v] opts IH]; intros rounds pre tail o s Hok Hr; (destruct rounds as [|rounds]; [cbn in Hr; lia|]); cbn [dhcp_options fmap list_fmap concat foldl fst snd].
  - rewrite length_app. cbn [length app]. destruct (Nat.ltb_spec (length pre + 1) (length pre + S (length tail))); [|done].
    unfold mbind at 1, N_bind at 1, idx. rewrite list_lookup_middle by done. done.
  - apply Forall_cons in Hok as [[H0 H255] Hok]. cbn [fst] in *. set (rest := concat (enc_opt <$> opts) ++ 255 :: tail).
    assert (Ed : pre ++ (enc_opt (tag, v) ++ concat (enc_opt <$> opts)) ++ 255 :: tail = (pre ++ enc_opt (tag, v)) ++ rest)
      by (unfold rest; by rewrite <- !app_assoc).
    rewrite Ed. set (data := (pre ++ _) ++ rest). assert (Er : data = pre ++ tag :: Z.of_nat (length v) :: v ++ rest) by (unfold data; by rewrite <- app_assoc).
    assert (Lr : (0 < length rest)%nat) by (unfold rest; rewrite length_app; cbn; lia).
    assert (Ld : length data = (length pre + 2 + length v + length rest)%nat) by (rewrite Er, length_app; cbn; rewrite length_app; lia).
    assert (G0 : data !! length pre = Some tag) by (rewrite Er; by apply list_lookup_middle).
    assert (G1 : data !! (length pre + 1)%nat = Some (Z.of_nat (length v))).
    { rewrite Er, lookup_app_r by lia. by replace (length pre + 1 - length pre)%nat with 1%nat by lia. }
    rewrite (proj2 (Nat.ltb_lt _ _)) by lia. unfold mbind at 1, N_bind at 1, idx at 1. rewrite G0. unfold mret at 1, N_ret at 1.
    rewrite (proj2 (Z.eqb_neq tag 255)), (proj2 (Z.eqb_neq tag 0)) by done.
    unfold mbind at 1, N_bind at 1, idx at 1. rewrite G1. unfold mret at 1, N_ret at 1. rewrite Nat2Z.id, (proj2 (Nat.ltb_ge _ _)) by lia.
    unfold mbind at 1, N_bind at 1. rewrite sub_eq by lia.
    assert (Ev : take (length pre + 2 + length v - (length pre + 2)) (drop (length pre + 2) data) = v).
    { replace (length pre + 2 + length v - (length pre + 2))%nat with (length v) by lia. rewrite Er, <- drop_drop, drop_app_length. cbn [drop]. apply take_app_length. }
    rewrite Ev. replace (length pre + 2 + length v)%nat with (length (pre ++ enc_opt (tag, v))) by (rewrite length_app; cbn; lia).
    unfold data, rest. rewrite IH; [done|done|cbn in Hr; lia].
Qed.

(** C16: An acknowledgement of the server is taken as it says.  Whatever options it has, in
    whatever order, a client that asked takes the offered address, the mask of the last
    mask option or the default, the router of the last router option or the default
    second host, and the lease with its renewal time, and is bound. *)
Theorem dhcp_lease hd opts tail (s : net D) : d_state (CLIENT s) = Requesting \/ d_state (CLIENT s) = Renewing ->
  length hd = 240%nat -> nth 0 hd 0 = 2 -> field32 hd 4 = xid (CLIENT s) -> Forall opt_ok opts ->
  opt_field (fun v => nth 0 v 0) 0 (opt_value 53 1 opts) = 5 ->
  let ip := take 4 (drop 16 hd) in
  let lease := opt_field (fun v => be_bytes (take 4 v)) 3600 (opt_value 51 4 opts) in
  exists s', handle_dhcp_packet 67 (hd ++ concat (enc_opt <$> opts) ++ 255 :: tail) s = Got (tt, s') /\
    NET_IP (ifc s') = ip /\ NET_MASK (ifc s') = opt_field (take 4) [255; 255; 255; 0] (opt_value 1 4 opts) /\
    NET_GW (ifc s') = (let gw := opt_field (take 4) zero4 (opt_value 3 4 opts) in if bool_decide (gw = zero4) then take 3 ip ++ [2] else gw) /\
    d_state (CLIENT s') = Bound /\ lease_secs (CLIENT s') = lease /\
    t1_secs (CLIENT s') = (let t1 := opt_field (fun v => be_bytes (take 4 v)) 0 (opt_value 58 4 opts) in if 0 <? t1 then t1 else lease / 2).
Proof.
  intros Hst Lh H0 Hx Hok H5 ip lease. set (data := hd ++ _). assert (Ld : (240 + length opts < length data)%nat).
  { unfold data. rewrite !length_app, Lh. cbn [length]. assert (length opts <= length (concat (enc_opt <$> opts)))%nat; [|lia].
    clear. induction opts as [|x opts IH]; cbn; [done|]. rewrite length_app. cbn. lia. }
  assert (Hn : forall i, (i < 240)%nat -> nth i data 0 = nth i hd 0) by (intros i Hi; unfold data; apply app_nth1; lia).
  unfold handle_dhcp_packet. cbn [Z.eqb Pos.eqb negb]. rewrite (proj2 (Nat.ltb_ge _ 240)) by lia.
  unfold mbind at 1, N_bind at 1. rewrite idx_eq, Hn, H0 by lia. cbn [Z.eqb Pos.eqb negb]. unfold mbind at 1, N_bind at 1, getn at 1.
  unfold mbind at 1, N_bind at 1. rewrite be32_eq by lia.
  assert (Et : forall n m, (m + n <= 240)%nat -> take n (drop m data) = take n (drop m hd)).
  { intros n m Hm. unfold data. rewrite drop_app_le by lia. apply take_app_le. rewrite length_drop. lia. }
  unfold field32. rewrite Et by lia. fold (field32 hd 4). rewrite Hx, Z.eqb_refl. cbn [negb]. unfold mbind at 1, N_bind at 1. rewrite sub_eq by lia.
  change (20 - 16)%nat with 4%nat. rewrite Et by lia. fold ip. unfold mbind at 1, N_bind at 1.
  assert (Eo : dhcp_options (S (length data)) data 240 dhcp_defaults s = Got (opts_of opts, s)).
  { unfold data at 2. rewrite <- Lh, dhcp_options_fold, opts_of_fold by (done || lia). done. }
  rewrite Eo. cbn [msg_type opts_of]. rewrite H5. cbn [Z.eqb Pos.eqb andb].
  assert (Eb : bool_decide (d_state (CLIENT s) = Requesting) || bool_decide (d_state (CLIENT s) = Renewing) = true).
  { destruct Hst as [-> | ->]; [by rewrite bool_decide_true|]. by rewrite orb_comm, bool_decide_true. }
  rewrite Eb. unfold dhcp_bind, mbind, N_bind, modn, now. cbn [with_ifc host]. destruct (ticks (host s)) as [t d].
  unfold mod_client, modn. eexists. split; [reflexivity|]. split_and!; reflexivity.
Qed.

End Services.

(** A ping of four bytes from 10.0.2.2. *)
Lemma ping_answered_witness : exists s' reply,
  handle_frame (eth_header [2; 0; 0; 0; 0; 1] [2; 0; 0; 0; 0; 9] [0x08; 0x00] ++
    v4_packet [0; 7] 1 [10; 0; 2; 2] [10; 0; 2; 15] [8; 0; 0; 0; 0; 1; 0; 1; 97; 98; 99; 100]) sample_net = Got (tt, s') /\
  sent (host s') = [eth_header [2; 0; 0; 0; 0; 9] [2; 0; 0; 0; 0; 1] [0x08; 0x00] ++ v4_packet [0; 0] 1 [10; 0; 2; 15] [10; 0; 2; 2] reply] /\
  drop 4 reply = [0; 1; 0; 1; 97; 98; 99; 100] /\ ip_checksum reply = 0.
Proof.
  destruct (ping_answered [2; 0; 0; 0; 0; 9] [10; 0; 2; 2] [0; 7] [8; 0; 0; 0; 0; 1; 0; 1; 97; 98; 99; 100] sample_net)
    as (s' & reply & E & Eh & _ & Ed & Ec & _).
  - exact sample_net_ok.
  - split; [reflexivity|u8s].
  - split; [reflexivity|u8s].
  - split; [reflexivity|u8s].
  - u8s.
  - cbn [length]. lia.
  - reflexivity.
  - exists s', reply. split; [exact E|]. split; [rewrite Eh; reflexivity|]. split; [exact Ed|exact Ec].
Defined.

(** The client of the sample stack, which asked for 10.0.2.77 under number 7. *)
Definition asking_net : net bench :=
  with_CLIENT (set_d_state Requesting (set_xid 7 (CLIENT sample_net))) sample_net.
Definition ack_head : list Z := [2; 1; 6; 0; 0; 0; 0; 7; 0; 0; 0; 0; 0; 0; 0; 0; 10; 0; 2; 77] ++ replicate 220 0.

Lemma dhcp_lease_witness : exists s',
  handle_dhcp_packet 67 (ack_head ++ concat (enc_opt <$> [(53, [5]); (1, [255; 255; 0; 0]); (51, [0; 0; 14; 16])]) ++ 255 :: [0]) asking_net = Got (tt, s') /\
  NET_IP (ifc s') = [10; 0; 2; 77] /\ NET_MASK (ifc s') = [255; 255; 0; 0] /\ NET_GW (ifc s') = [10; 0; 2; 2] /\
  d_state (CLIENT s') = Bound /\ lease_secs (CLIENT s') = 3600 /\ t1_secs (CLIENT s') = 1800.
Proof.
  apply (dhcp_lease ack_head [(53, [5]); (1, [255; 255; 0; 0]); (51, [0; 0; 14; 16])] [0] asking_net).
  - left. reflexivity.
  - reflexivity.
  - reflexivity.
  - reflexivity.
  - repeat apply Forall_cons_2; try apply Forall_nil_2; split; discriminate.
  - reflexivity.
Defined.
