(* ===== verification/NetDns.v ===== *)
(** * Answers of the name server

    The standard encoding of a response, and what the resolver takes from it. *)

From stdpp Require Import base numbers list.
From Stdlib Require Import ZArith Lia Bool.
From S2P Require Import Prelude Sector NetState NetLink NetConf Tcp Net NetFrames NetInv TcpRing TcpInv NetSafe NetWire.

(** ** The encoding *)

(** A name: a compression pointer, or labels up to the root. *)
Inductive dname := Ptr (hi lo : Z) | Labels (ls : list (list Z)).
Definition enc_label (l : list Z) : list Z := Z.of_nat (length l) :: l.
Definition enc_name (n : dname) : list Z :=
  match n with Ptr hi lo => [hi; lo] | Labels ls => concat (enc_label <$> ls) ++ [0] end.
Definition name_ok (n : dname) : Prop :=
  match n with Ptr hi _ => 0xC0 <= hi | Labels ls => Forall (fun l => 1 <= length l < 192)%nat ls end.

(** A record: its name, type, class and time to live, and data; a question has the four
    bytes of type and class after its name. *)
Record rr := mk_rr { r_name : dname; r_type : Z; r_meta : list Z; r_data : list Z }.
Definition enc_rr (r : rr) : list Z :=
  enc_name (r_name r) ++ to_be_bytes 2 (r_type r) ++ r_meta r ++ to_be_bytes 2 (Z.of_nat (length (r_data r))) ++ r_data r.
Definition rr_ok (r : rr) : Prop :=
  name_ok (r_name r) /\ is_u16 (r_type r) /\ length (r_meta r) = 6%nat /\ Z.of_nat (length (r_data r)) < 65536.
Definition enc_question (q : dname * list Z) : list Z := enc_name q.1 ++ q.2.
Definition question_ok (q : dname * list Z) : Prop := name_ok q.1 /\ length q.2 = 4%nat.

(** The address the resolver is to take: the first A record; without one, an address it
    already had, or else the first AAAA record. *)
Definition is_a (r : rr) : bool := (r_type r =? 1) && (length (r_data r) =? 4)%nat.
Definition is_aaaa (r : rr) : bool := (r_type r =? 28) && (length (r_data r) =? 16)%nat.
Definition answer (rs : list rr) (had : option IpAddr) : option IpAddr :=
  match List.find is_a rs with
  | Some r => Some (V4 (r_data r))
  | None => match had with Some a => Some a | None => (fun r => V6 (r_data r)) <$> List.find is_aaaa rs end
  end.

Section Dns.
Context {D : Type} `{!NetHost D}.

(** ** The parsers on it *)

(** Reading at a place inside a list. *)
Lemma idx_at pre x rest (s : net D) : idx (pre ++ x :: rest) (length pre) s = Got (x, s).
Proof. unfold idx. by rewrite list_lookup_middle. Qed.

Lemma skip_labels ls : forall ptr rounds pre rest (s : net D), Forall (fun l => 1 <= length l < 192)%nat ls -> (length ls < rounds)%nat ->
  skip_name ptr rounds (pre ++ concat (enc_label <$> ls) ++ 0 :: rest) (length pre) s =
  Got (Some (length pre + length (concat (enc_label <$> ls)) + 1)%nat, s).
Proof.
  induction ls as [|l ls IH]; intros ptr rounds pre rest s Hok Hr; (destruct rounds as [|rounds]; [cbn in Hr; lia|]); cbn [skip_name fmap list_fmap concat].
  - rewrite (proj2 (Nat.leb_gt _ _)) by (rewrite length_app; cbn; lia). cbn [app]. unfold mbind at 1, N_bind at 1. rewrite idx_at.
    cbn. unfold mret, N_ret. do 3 f_equal. lia.
  - apply Forall_cons in Hok as [Hl Hok]. set (rest' := concat (enc_label <$> ls) ++ 0 :: rest).
    assert (Ed : pre ++ (enc_label l ++ concat (enc_label <$> ls)) ++ 0 :: rest = pre ++ Z.of_nat (length l) :: l ++ rest')
      by (unfold rest'; by rewrite <- !app_assoc).
    rewrite Ed. rewrite (proj2 (Nat.leb_gt _ _)) by (rewrite length_app; cbn; lia). unfold mbind at 1, N_bind at 1. rewrite idx_at.
    rewrite (proj2 (Z.eqb_neq _ 0)), (proj2 (Z.leb_gt 0xC0 _)) by lia. rewrite andb_false_r, Nat2Z.id.
    replace (pre ++ Z.of_nat (length l) :: l ++ rest') with ((pre ++ enc_label l) ++ rest') by (by rewrite <- app_assoc).
    replace (length pre + 1 + length l)%nat with (length (pre ++ enc_label l)) by (rewrite length_app; cbn; lia).
    unfold rest'. rewrite IH; [|done|cbn in Hr; lia]. do 3 f_equal. rewrite !length_app. cbn. lia.
Qed.

Lemma labels_short ls : (length ls <= length (concat (enc_label <$> ls)))%nat.
Proof. induction ls as [|l ls IH]; cbn; [done|]. rewrite length_app. lia. Qed.

(** The name of a question, and of a record. *)
Lemma skip_question_name n pre rest (s : net D) : name_ok n ->
  skip_name true (S (length (pre ++ enc_name n ++ rest))) (pre ++ enc_name n ++ rest) (length pre) s = Got (Some (length pre + length (enc_name n))%nat, s).
Proof.
  intros Hn. destruct n as [hi lo|ls]; cbn [enc_name name_ok] in *.
  - cbn [skip_name app]. rewrite (proj2 (Nat.leb_gt _ _)) by (rewrite length_app; cbn; lia). unfold mbind at 1, N_bind at 1. rewrite idx_at.
    rewrite (proj2 (Z.eqb_neq _ 0)), (proj2 (Z.leb_le _ _)) by lia. done.
  - rewrite <- app_assoc. cbn [app]. rewrite skip_labels; [|done|].
    + rewrite length_app. cbn [length]. do 3 f_equal. lia.
    + pose proof (labels_short ls). rewrite !length_app. lia.
Qed.

Lemma skip_record_name n pre rest (s : net D) : name_ok n ->
  (b ← idx (pre ++ enc_name n ++ rest) (length pre);
   (if 0xC0 <=? b then mret (Some (length pre + 2)%nat)
    else skip_name false (S (length (pre ++ enc_name n ++ rest))) (pre ++ enc_name n ++ rest) (length pre))) s
  = Got (Some (length pre + length (enc_name n))%nat, s).
Proof.
  intros Hn. destruct n as [hi lo|ls]; cbn [enc_name name_ok] in *.
  - cbn [app]. unfold mbind at 1, N_bind at 1. rewrite idx_at, (proj2 (Z.leb_le _ _)) by lia. done.
  - rewrite <- app_assoc. cbn [app]. set (data := pre ++ _).
    assert (Hb : exists b, idx data (length pre) s = Got (b, s) /\ b < 0xC0).
    { unfold data. destruct ls as [|l ls]; cbn [fmap list_fmap concat app]; [exists 0; by rewrite idx_at|].
      apply Forall_cons in Hn as [Hl _]. exists (Z.of_nat (length l)). unfold enc_label at 1. cbn [app]. rewrite idx_at. split; [done|lia]. }
    destruct Hb as (b & Eb & Hb). unfold mbind at 1, N_bind at 1. rewrite Eb, (proj2 (Z.leb_gt _ _)) by lia.
    unfold data. rewrite skip_labels; [|done|].
    + rewrite length_app. cbn [length]. do 3 f_equal. lia.
    + pose proof (labels_short ls). rewrite !length_app. lia.
Qed.

Lemma be16_at pre v rest off (s : net D) : off = length pre -> is_u16 v -> be16 (pre ++ to_be_bytes 2 v ++ rest) off s = Got (v, s).
Proof.
  intros -> Hv. rewrite be16_eq by (rewrite !length_app, length_to_be_bytes; lia). by rewrite field16_app.
Qed.

Lemma read_record_eq r pre rest (s : net D) : rr_ok r ->
  read_record (pre ++ enc_rr r ++ rest) (length pre) s = Got (Some (r_type r, r_data r, (length pre + length (enc_rr r))%nat), s).
Proof.
  intros (Hn & Ht & Hm & Hd). set (tl := to_be_bytes 2 (r_type r) ++ r_meta r ++ to_be_bytes 2 (Z.of_nat (length (r_data r))) ++ r_data r ++ rest).
  assert (Ed : pre ++ enc_rr r ++ rest = pre ++ enc_name (r_name r) ++ tl) by (unfold enc_rr, tl; by rewrite <- !app_assoc).
  assert (Ln : (1 <= length (enc_name (r_name r)))%nat) by (destruct (r_name r); cbn; rewrite ?length_app; cbn; lia).
  assert (Lr : length (enc_rr r) = (length (enc_name (r_name r)) + 10 + length (r_data r))%nat)
    by (unfold enc_rr; rewrite !length_app, !length_to_be_bytes; lia).
  pose proof (skip_record_name (r_name r) pre tl s Hn) as Hskip. rewrite <- Ed in Hskip.
  set (data := pre ++ enc_rr r ++ rest) in *. assert (Ld : length data = (length pre + length (enc_rr r) + length rest)%nat)
    by (unfold data; rewrite !length_app; lia).
  unfold read_record. rewrite (proj2 (Nat.leb_gt _ _)) by lia. unfold mbind, N_bind in Hskip. unfold mbind at 1, N_bind at 1.
  destruct (idx data (length pre) s) as [[b s1]| |]; try done. unfold mbind at 1, N_bind at 1. rewrite Hskip.
  set (p := pre ++ enc_name (r_name r)). assert (Lp : length p = (length pre + length (enc_name (r_name r)))%nat) by (unfold p; by rewrite length_app).
  rewrite <- Lp. rewrite (proj2 (Nat.ltb_ge _ _)) by lia.
  assert (Ep : data = p ++ tl) by (rewrite Ed; unfold p; by rewrite <- app_assoc).
  unfold mbind at 1, N_bind at 1. rewrite Ep at 1. unfold tl at 1. rewrite be16_at by done.
  set (p8 := p ++ to_be_bytes 2 (r_type r) ++ r_meta r). assert (Lp8 : length p8 = (length p + 8)%nat)
    by (unfold p8; rewrite !length_app, length_to_be_bytes, Hm; done).
  assert (Ep8 : data = p8 ++ to_be_bytes 2 (Z.of_nat (length (r_data r))) ++ r_data r ++ rest) by (rewrite Ep; unfold p8, tl; by rewrite <- !app_assoc).
  unfold mbind at 1, N_bind at 1. rewrite Ep8 at 1. rewrite be16_at by (lia || (unfold is_u16; lia)). cbv zeta. rewrite Nat2Z.id.
  rewrite (proj2 (Nat.ltb_ge _ _)) by lia. unfold mbind at 1, N_bind at 1. rewrite sub_eq by lia.
  assert (Er : drop (length p + 10) data = r_data r ++ rest).
  { rewrite Ep8, app_assoc. apply drop_app_length'. rewrite length_app, length_to_be_bytes. lia. }
  rewrite Er. replace (length p + 10 + length (r_data r) - (length p + 10))%nat with (length (r_data r)) by lia. rewrite take_app_length.
  unfold mret, N_ret. do 4 f_equal. lia.
Qed.

Lemma skip_questions_eq qs : forall pre rest (s : net D), Forall question_ok qs ->
  skip_questions (length qs) (pre ++ concat (enc_question <$> qs) ++ rest) (length pre) s =
  Got (Some (length pre + length (concat (enc_question <$> qs)))%nat, s).
Proof.
  induction qs as [|q qs IH]; intros pre rest s Hok; cbn [skip_questions length fmap list_fmap concat].
  - unfold mret, N_ret. do 3 f_equal. cbn. lia.
  - apply Forall_cons in Hok as [[Hn Hl] Hok]. set (tl := q.2 ++ concat (enc_question <$> qs) ++ rest).
    assert (Ed : pre ++ (enc_question q ++ concat (enc_question <$> qs)) ++ rest = pre ++ enc_name q.1 ++ tl)
      by (unfold tl, enc_question at 1; by rewrite <- !app_assoc).
    unfold mbind at 1, N_bind at 1. rewrite Ed, skip_question_name by done.
    assert (E : pre ++ enc_name q.1 ++ tl = (pre ++ enc_question q) ++ concat (enc_question <$> qs) ++ rest)
      by (rewrite <- Ed; by rewrite <- !app_assoc).
    rewrite E. replace (length pre + length (enc_name q.1) + 4)%nat with (length (pre ++ enc_question q))
      by (unfold enc_question; rewrite !length_app; lia).
    rewrite IH by done. do 3 f_equal. rewrite !length_app. lia.
Qed.

(** ** The answer *)

Definition pend (a : option IpAddr) (s : net D) : net D :=
  with_dns (mk_dnss (DNS_CACHE (dns s)) (CACHE_CURSOR (dns s)) (PENDING_TXN (dns s)) a) s.

Lemma read_answers_eq rs : forall pre rest (s : net D), Forall rr_ok rs ->
  read_answers (length rs) (pre ++ concat (enc_rr <$> rs) ++ rest) (length pre) s = Got (tt, pend (answer rs (PENDING_ADDR (dns s))) s).
Proof.
  induction rs as [|r rs IH]; intros pre rest s Hok; cbn [read_answers length fmap list_fmap concat].
  - unfold mret, N_ret, pend, answer. cbn [List.find]. destruct s as [? ? ? ? ? ? ? [? ? ? o] ? ?]. cbn. by destruct o.
  - apply Forall_cons in Hok as [Hr Hok]. rewrite <- app_assoc. set (rest' := concat (enc_rr <$> rs) ++ rest).
    unfold mbind at 1, N_bind at 1. rewrite read_record_eq by done. unfold answer. cbn [List.find].
    change ((r_type r =? 1) && (length (r_data r) =? 4)%nat) with (is_a r). change ((r_type r =? 28) && (length (r_data r) =? 16)%nat) with (is_aaaa r).
    assert (E : pre ++ enc_rr r ++ rest' = (pre ++ enc_rr r) ++ concat (enc_rr <$> rs) ++ rest) by (by rewrite <- app_assoc).
    rewrite E. replace (length pre + length (enc_rr r))%nat with (length (pre ++ enc_rr r)) by (by rewrite length_app).
    destruct (is_a r); [done|]. destruct (is_aaaa r) eqn:E6.
    + unfold mbind, N_bind, getn. destruct (PENDING_ADDR (dns s)) as [a|] eqn:Ea.
      * unfold mret, N_ret. rewrite IH by done. unfold answer. by rewrite Ea.
      * unfold set_pending, mod_dns, modn. rewrite IH by done. unfold answer. cbn. by destruct (List.find is_a rs).
    + rewrite IH by done. unfold answer. done.
Qed.

(** A response: its number, flags, counts, questions and answers. *)
Definition response (txn flags : Z) (more : list Z) (qs : list (dname * list Z)) (rs : list rr) (extra : list Z) : list Z :=
  to_be_bytes 2 txn ++ to_be_bytes 2 flags ++ to_be_bytes 2 (Z.of_nat (length qs)) ++ to_be_bytes 2 (Z.of_nat (length rs)) ++ more
  ++ concat (enc_question <$> qs) ++ concat (enc_rr <$> rs) ++ extra.

End Dns.

(** The answer 10.1.2.3 to a query for [a.bc], the name of the record compressed, after
    an alias that is skipped. *)
Definition query_net : net bench := with_dns (mk_dnss (DNS_CACHE (dns sample_net)) 0 77 None) sample_net.

