(* ===== verification/Stream.v ===== *)
(** * Byte streams over TCP

    The operations of net/tcp.rs that the protocols above it call, as an interface, and
    what a client may rely on while bytes are buffered.  [Tcp] and [Net] implement the
    operations and, while the card is silent, the laws; a buffer in memory implements both. *)

From stdpp Require Import base numbers list.
From Stdlib Require Import ZArith Lia.
From S2P Require Import Prelude Sector Text NetState NetLink Tcp Net NetInv TcpRing TcpInv NetSafe NetFrames TcpStream.

Class Stream (S : Type) := {
  st_wait : Z -> S -> fout (bool * S);
  st_read : nat -> S -> fout (list Z * S);
  st_write : list Z -> S -> fout (nat * S);
  st_avail : S -> fout (nat * S);
  st_state : S -> fout (TcpState * S);
  st_close : S -> fout (unit * S);
}.

(** A connection of the network stack, with [rounds] of each wait. *)
Definition connection (rounds id : nat) (D : Type) : Type := net D.
#[global] Typeclasses Opaque connection.
#[export] Instance connection_stream rounds id D `{!NetHost D} : Stream (connection rounds id D) := {
  st_wait := fun ms s => tcp_wait_readable rounds id ms (s : net D);
  st_read := fun n s => tcp_read id n (s : net D);
  st_write := fun data s => tcp_write id data (s : net D);
  st_avail := fun s => tcp_readable id (s : net D);
  st_state := fun s => tcp_state id (s : net D);
  st_close := fun s => tcp_close id (s : net D);
}.

(** What holds of a stream that is [ready], with the bytes [pend] buffered. *)
Class StreamSpec (S : Type) `{!Stream S} := {
  ready : S -> Prop;
  pend : S -> list Z;
  st_read_spec n s : ready s -> exists s', st_read n s = Got (take n (pend s), s') /\ ready s' /\ pend s' = drop n (pend s);
  st_wait_spec ms s : ready s -> pend s <> [] -> exists s', st_wait ms s = Got (true, s') /\ ready s' /\ pend s' = pend s;
  st_avail_spec s : ready s -> exists s', st_avail s = Got (length (pend s), s') /\ ready s' /\ pend s' = pend s;
}.

(** A stream in memory: the bytes to be read, those that were written. *)
Record buffer := mk_buffer { b_in : list Z; b_out : list Z }.
#[export] Instance buffer_stream : Stream buffer := {
  st_wait := fun _ b => Got (bool_decide (b_in b <> []), b);
  st_read := fun n b => Got (take n (b_in b), mk_buffer (drop n (b_in b)) (b_out b));
  st_write := fun data b => Got (length data, mk_buffer (b_in b) (b_out b ++ data));
  st_avail := fun b => Got (length (b_in b), b);
  st_state := fun b => Got (Established, b);
  st_close := fun b => Got (tt, b);
}.
#[export] Instance buffer_spec : StreamSpec buffer.
Proof.
  refine {| ready := fun _ => True; pend := b_in |}.
  - intros n s _. by eexists.
  - intros ms s _ H. eexists. split; [|done]. cbn. by rewrite bool_decide_eq_true_2.
  - intros s _. by exists s.
Defined.

(** ** Connections keep the laws while the card is silent *)

Class QuietHost (D : Type) `{!NetHost D} := quiet_recv : forall e d, exists d', nic_recv e d = (None, d').
#[export] Instance bench_quiet : QuietHost bench.
Proof. intros e d. by exists d. Qed.

Section Connection.
Context {D : Type} `{!NetHost D} `{!QuietHost D} (rounds id : nat).

Definition conn_ready (s : net D) : Prop := net_ok s /\ exists c r, CONNS (tcp s) !! id = Some c /\ rx c = Some r.
Definition conn_pend (s : net D) : list Z := match CONNS (tcp s) !! id ≫= rx with Some r => contents r | None => [] end.

Lemma conn_pend_eq s c r : CONNS (tcp s) !! id = Some c -> rx c = Some r -> conn_pend s = contents r.
Proof. intros Hc Hr. unfold conn_pend. rewrite Hc. cbn. by rewrite Hr. Qed.

(** The host changes, nothing else. *)
Definition same_but_host (s s' : net D) : Prop := exists d, s' = with_host d s.

Lemma ready_host s s' : same_but_host s s' -> conn_ready s -> conn_ready s' /\ conn_pend s' = conn_pend s.
Proof. intros [d ->] [H (c & r & Hc & Hr)]. split; [|done]. split; [by destruct H|]. by exists c, r. Qed.

Lemma poll_quiet s : exists s', poll_rx_only (S rounds) s = Got (tt, s') /\ same_but_host s s'.
Proof.
  unfold poll_rx_only, mbind, N_bind, getn. destruct (NET_UP (ifc s)); [|exists s; split; [done|exists (host s); by destruct s]].
  cbn [rx_loop]. unfold mbind, N_bind, recv_frame. destruct (quiet_recv (USE_E1000 (ifc s)) (host s)) as [d ->].
  eexists. split; [done|]. by exists d.
Qed.

Lemma flush_ready s : conn_ready s -> exists s', flush_tx id s = Got (tt, s') /\ conn_ready s' /\ conn_pend s' = conn_pend s.
Proof.
  intros [Hs (c & r & Hc & Hr)]. assert (Hid : (id < 16)%nat) by (destruct (no_tcp _ Hs) as (Hl & _); apply lookup_lt_Some in Hc; lia).
  destruct (run_leaves (only id recv_eq) (flush_tx id) s) as ([] & s' & E & Hs' & _ & Ho); [by apply okn_flush_tx| |done|].
  { apply leaves_flush_loop; [by intros; apply only_refl|intros a b x; apply only_trans, recv_eq_trans| | |intros f Hf; by apply leaves_modc];
      intros ? s'; by apply (only_refl id recv_eq s'). }
  destruct (Ho c Hc) as (c' & Hc' & Erx & _). exists s'. split; [done|]. rewrite Hr in Erx. split; [split; [done|by exists c', r]|].
  by rewrite (conn_pend_eq _ c' r), (conn_pend_eq _ c r).
Qed.

Lemma conn_read_spec n s : conn_ready s ->
  exists s', tcp_read id n s = Got (take n (conn_pend s), s') /\ conn_ready s' /\ conn_pend s' = drop n (conn_pend s).
Proof.
  intros [Hs (c & r & Hc & Hr)]. assert (Hid : (id < 16)%nat) by (destruct (no_tcp _ Hs) as (Hl & _); apply lookup_lt_Some in Hc; lia).
  destruct (okn_tcp_read (D := D) id n s Hs) as (b & s' & E & Hs' & _). exists s'. rewrite E. unfold tcp_read in E.
  rewrite (proj2 (Nat.leb_gt 16 id)) in E by done. unfold mbind at 1, N_bind at 1 in E. rewrite (conn_eq _ c), Hr in E by done.
  assert (Hok : ring_ok r) by (destruct (no_tcp _ Hs) as (_ & Hf & _); pose proof (co_rx _ (Forall_lookup_1 _ _ _ _ Hf Hc)) as H; by rewrite Hr in H).
  destruct (pop_ok n r Hok) as (P1 & _ & P3). destruct (pop n r) as [l r']. cbn [fst snd] in *. unfold mbind, N_bind in E.
  rewrite (modc_eq _ _ c) in E by done. injection E as <- <-. rewrite (conn_pend_eq s c r) by done.
  assert (Hc' : <[id := put_rx (Some r') c]> (CONNS (tcp s)) !! id = Some (put_rx (Some r') c)) by (apply list_lookup_insert_eq; by eapply lookup_lt_Some).
  split; [by rewrite P1|]. split; [split; [done|]; by exists (put_rx (Some r') c), r'|]. by rewrite (conn_pend_eq (with_tcp _ s) (put_rx (Some r') c) r').
Qed.

Lemma conn_wait_spec ms s : conn_ready s -> conn_pend s <> [] ->
  exists s', tcp_wait_readable (S rounds) id ms s = Got (true, s') /\ conn_ready s' /\ conn_pend s' = conn_pend s.
Proof.
  intros Hs Hp. unfold tcp_wait_readable, deadline_ms, counter. unfold mbind at 1 2, N_bind at 1 2. destruct (timer_count (host s)) as [t d] eqn:Et.
  destruct (ready_host s (with_host d s)) as [R1 P1]; [by exists d|done|]. set (s1 := with_host d s) in *. cbn [wait_loop].
  unfold mbind at 1 2 3 4, N_bind at 1 2 3 4. rewrite Et. unfold mret at 1, N_ret at 1. cbn beta iota. fold s1. destruct (poll_quiet s1) as (s2 & -> & H2). destruct (ready_host _ _ H2 R1) as [R2 P2].
  unfold mbind at 1, N_bind at 1. destruct (flush_ready s2 R2) as (s3 & -> & R3 & P3). pose proof R3 as [_ (c & r & Hc & Hr)].
  unfold mbind, N_bind. rewrite (conn_eq _ c) by done. cbn [mret N_ret]. assert (E : conn_pend s3 = conn_pend s) by congruence.
  unfold readable_now, rx_avail. rewrite Hr. rewrite <- E, (conn_pend_eq _ c r) in Hp by done. unfold avail. rewrite <- (length_contents r).
  destruct (contents r) as [|x l] eqn:El; [done|]. cbn. exists s3. split; [done|]. split; [done|]. by rewrite <- E.
Qed.

Lemma conn_avail_spec s : conn_ready s -> exists s', tcp_readable id s = Got (length (conn_pend s), s') /\ conn_ready s' /\ conn_pend s' = conn_pend s.
Proof.
  intros Hs. exists s. split; [|done]. destruct Hs as [Hs (c & r & Hc & Hr)]. unfold tcp_readable.
  assert (Hid : (id < 16)%nat) by (destruct (no_tcp _ Hs) as (Hl & _); apply lookup_lt_Some in Hc; lia). rewrite (proj2 (Nat.leb_gt 16 id)) by done.
  unfold mbind, N_bind. rewrite (conn_eq _ c) by done. unfold rx_avail. by rewrite Hr, (conn_pend_eq s c r), length_contents.
Qed.

#[export] Instance connection_spec : StreamSpec (connection (S rounds) id D).
Proof. refine {| ready := conn_ready; pend := conn_pend |}; [apply conn_read_spec|apply conn_wait_spec|apply conn_avail_spec]. Defined.
End Connection.

(** ** The operations in the monad of their clients *)

Section Ops.
Context {S : Type} `{!Stream S}.
Definition wait_readable (ms : Z) : SM S bool := st_wait ms.
Definition read_some (n : nat) : SM S (list Z) := st_read n.
Definition write_all (data : list Z) : SM S nat := st_write data.
Definition readable : SM S nat := st_avail.
Definition conn_state : SM S TcpState := st_state.
Definition close_conn : SM S unit := st_close.
End Ops.
