(* ===== verification/Ws.v ===== *)
(** * WebSocket (kernel/src/net/ws.rs)

    SHA-1, Base64, the handshake, frames and the search for a header, whole.  Fixed
    buffers of the caller are their lengths; the bytes written to them are returned. *)

From stdpp Require Import base numbers list strings.
From Stdlib Require Import ZArith Lia Bool.
From S2P Require Import Prelude Sector Text NetState Stream.

Definition WS_GUID : list Z := lit "258EAFA5-E914-47DA-95CA-C5AB0DC85B11".

(** ** SHA-1 *)

Definition sha1_init : list Z := [0x67452301; 0xEFCDAB89; 0x98BADCFE; 0x10325476; 0xC3D2E1F0].

(** The schedule of a block: sixteen words, then sixty-four made of them. *)
Definition block_words (buf : list Z) (i : nat) : list Z := (fun j => be_bytes (take 4 (drop (i + j * 4) buf))) <$> seq 0 16.
Fixpoint extend_words (n : nat) (w : list Z) : list Z :=
  match n with
  | O => w
  | S n' =>
      let j := length w in
      let at_ k := nth (j - k) w 0 in
      extend_words n' (w ++ [rotate_left 32 (Z.lxor (Z.lxor (Z.lxor (at_ 3%nat) (at_ 8%nat)) (at_ 14%nat)) (at_ 16%nat)) 1])
  end.

Definition round_f (j : nat) (b c d : Z) : Z * Z :=
  if (j <=? 19)%nat then (Z.lor (Z.land b c) (Z.land (not32 b) d), 0x5A827999)
  else if (j <=? 39)%nat then (Z.lxor (Z.lxor b c) d, 0x6ED9EBA1)
  else if (j <=? 59)%nat then (Z.lor (Z.lor (Z.land b c) (Z.land b d)) (Z.land c d), 0x8F1BBCDC)
  else (Z.lxor (Z.lxor b c) d, 0xCA62C1D6).

Definition sha1_round (w : list Z) (st : Z * Z * Z * Z * Z) (j : nat) : Z * Z * Z * Z * Z :=
  let '(a, b, c, d, e) := st in
  let '(f, k) := round_f j b c d in
  let temp := as_u32 (as_u32 (as_u32 (as_u32 (rotate_left 32 a 5 + f) + e) + k) + nth j w 0) in
  (temp, a, rotate_left 32 b 30, c, d).

Definition sha1_block (buf : list Z) (h : list Z) (i : nat) : list Z :=
  let w := extend_words 64 (block_words buf i) in
  let '(a, b, c, d, e) := foldl (sha1_round w) (nth 0 h 0, nth 1 h 0, nth 2 h 0, nth 3 h 0, nth 4 h 0) (seq 0 80) in
  [as_u32 (nth 0 h 0 + a); as_u32 (nth 1 h 0 + b); as_u32 (nth 2 h 0 + c); as_u32 (nth 3 h 0 + d); as_u32 (nth 4 h 0 + e)].

(** [while i + 64 <= tlen] *)
Fixpoint sha1_blocks (n : nat) (buf : list Z) (tlen i : nat) (h : list Z) : list Z :=
  match n with
  | O => h
  | S n' => if (i + 64 <=? tlen)%nat then sha1_blocks n' buf tlen (i + 64) (sha1_block buf h i) else h
  end.

(** The buffer of 256 bytes with the data, the padding and the length. *)
Definition sha1_buf (data : list Z) : list Z * nat :=
  let len := length data in
  let rem := ((len + 9) mod 64)%nat in
  let pad_len := if (rem =? 0)%nat then 9%nat else (9 + (64 - rem))%nat in
  let tlen := Nat.min (len + pad_len) 256 in
  let copy_len := Nat.min len 256 in
  let buf := splice 0 (take copy_len data) (replicate 256 0) in
  let buf := if (len <? 256)%nat then <[len := 0x80]> buf else buf in
  let buf := if (8 <=? tlen)%nat then splice (tlen - 8) (to_be_bytes 8 (as_u64 (Z.of_nat len * 8))) buf else buf in
  (buf, tlen).

Definition sha1 (data : list Z) : list Z :=
  let '(buf, tlen) := sha1_buf data in
  concat (to_be_bytes 4 <$> sha1_blocks 5 buf tlen 0 sha1_init).

(** ** Base64 *)

Definition B64 : list Z := lit "ABCDEFGHIJKLMNOPQRSTUVWXYZabcdefghijklmnopqrstuvwxyz0123456789+/".
Definition b64_char (v : Z) : Z := nth (Z.to_nat v) B64 0.

(** The encoding of up to three bytes. *)
Definition b64_quad (b0 : Z) (b1 b2 : option Z) : list Z :=
  let x1 := default 0 b1 in
  let x2 := default 0 b2 in
  [b64_char (Z.shiftr b0 2);
   b64_char (Z.lor (as_u8 (Z.shiftl (Z.land b0 3) 4)) (Z.shiftr x1 4));
   match b1 with Some _ => b64_char (Z.lor (as_u8 (Z.shiftl (Z.land x1 0xF) 2)) (Z.shiftr x2 6)) | None => 61 end;
   match b2 with Some _ => b64_char (Z.land x2 0x3F) | None => 61 end].

(** [base64_encode] into a buffer with room for [room] more bytes. *)
Fixpoint base64_encode (data : list Z) (room : nat) : list Z :=
  match data with
  | [] => []
  | b0 :: rest =>
      if (room <? 4)%nat then []
      else match rest with
           | [] => b64_quad b0 None None
           | [b1] => b64_quad b0 (Some b1) None
           | b1 :: b2 :: rest' => b64_quad b0 (Some b1) (Some b2) ++ base64_encode rest' (room - 4)
           end
  end.

Definition b64_val (c : Z) : option Z :=
  if (65 <=? c) && (c <=? 90) then Some (c - 65)
  else if (97 <=? c) && (c <=? 122) then Some (c - 97 + 26)
  else if (48 <=? c) && (c <=? 57) then Some (c - 48 + 52)
  else if c =? 43 then Some 62
  else if c =? 47 then Some 63
  else None.

(** A byte that may be padding. *)
Definition b64_pad_val (c : Z) : option Z := if c =? 61 then Some 0 else b64_val c.

(** The loop of [base64_decode]: the input left, the room of the output and what is in it. *)
Fixpoint base64_loop (n : nat) (input : list Z) (room : nat) (out : list Z) : list Z :=
  match n with
  | O => out
  | S n' =>
      match input with
      | i0 :: ((i1 :: i2 :: i3 :: rest) as tail) =>
          if (length out + 2 <? room)%nat then
            match b64_val i0 with
            | None => base64_loop n' tail room out
            | Some a =>
                match b64_val i1, b64_pad_val i2, b64_pad_val i3 with
                | Some b, Some c, Some d =>
                    let out := if (length out <? room)%nat then out ++ [Z.lor (as_u8 (Z.shiftl a 2)) (Z.shiftr b 4)] else out in
                    let out := if (length out <? room)%nat && negb (i2 =? 61) then out ++ [Z.lor (as_u8 (Z.shiftl b 4)) (Z.shiftr c 2)] else out in
                    let out := if (length out <? room)%nat && negb (i3 =? 61) then out ++ [Z.lor (as_u8 (Z.shiftl c 6)) d] else out in
                    base64_loop n' rest room out
                | _, _, _ => out
                end
            end
          else out
      | _ => out
      end
  end.
Definition base64_decode (input : list Z) (room : nat) : list Z := base64_loop (length input) input room [].

(** ** The handshake *)

Definition compute_accept (key_b64 : list Z) (room : nat) : list Z :=
  let klen := Nat.min (length key_b64) 60 in
  let glen := Nat.min (length WS_GUID) (64 - klen) in
  base64_encode (sha1 (take klen key_b64 ++ take glen WS_GUID)) room.

Definition CRLF : list Z := [13; 10].

Section Ws.
Context {T : Type} `{!Stream T}.

Definition ws_accept (key_b64 : list Z) : SM T bool :=
  let resp := lit "HTTP/1.1 101 Switching Protocols" ++ CRLF ++ lit "Upgrade: websocket" ++ CRLF ++ lit "Connection: Upgrade" ++ CRLF
              ++ lit "Sec-WebSocket-Accept: " ++ compute_accept key_b64 32 ++ CRLF ++ CRLF in
  n ← write_all (take 256 resp);
  mret (0 <? n)%nat.

(** ** Frames *)

Definition WS_OPCODE_TEXT : Z := 1.
Definition WS_OPCODE_CLOSE : Z := 8.

Definition ws_header (opcode : Z) (plen : Z) : list Z :=
  Z.lor 0x80 (Z.land opcode 0x0F) ::
  (if plen <=? 125 then [as_u8 plen]
   else if plen <=? 65535 then [126; as_u8 (Z.shiftr plen 8); as_u8 plen]
   else [127; 0; 0; 0; 0; as_u8 (Z.shiftr plen 24); as_u8 (Z.shiftr plen 16); as_u8 (Z.shiftr plen 8); as_u8 plen]).

Definition ws_send_frame (opcode : Z) (payload : list Z) : SM T unit :=
  write_all (ws_header opcode (Z.of_nat (length payload))) ≫= fun _ =>
  match payload with [] => mret tt | _ => _ ← write_all payload; mret tt end.
Definition ws_send_text (data : list Z) : SM T unit := ws_send_frame WS_OPCODE_TEXT data.
Definition ws_send_close : SM T unit := ws_send_frame WS_OPCODE_CLOSE [].

(** The loop that fills the buffer up to [to_read]. *)
Fixpoint read_payload (n : nat) (to_read : nat) (got : list Z) : SM T (list Z) :=
  match n with
  | O => if (length got <? to_read)%nat then stuck_s else mret got
  | S n' =>
      if (length got <? to_read)%nat then
        r ← wait_readable 2000;
        if r : bool then
          b ← read_some (to_read - length got);
          match b with [] => mret got | _ => read_payload n' to_read (got ++ b) end
        else mret got
      else mret got
  end.

(** [buf[i] ^= mask[i % 4]] *)
Definition unmask (mask payload : list Z) : list Z := imap (fun i b => Z.lxor b (nth (i mod 4) mask 0)) payload.

(** The payload length: after the second byte, of which [len7] are the low bits.  [None] when
    [ws_recv_frame] returns. *)
Definition payload_len (len7 : Z) : SM T (option Z) :=
  if len7 <=? 125 then mret (Some len7)
  else if len7 =? 126 then
    r ← wait_readable 1000;
    if negb r then mret None
    else b ← read_some 2; if (length b <? 2)%nat then mret None else mret (Some (be_bytes b))
  else
    r ← wait_readable 1000;
    if negb r then mret None
    else b ← read_some 8; mret (Some (be_bytes (take 4 (drop 4 (b ++ replicate (8 - length b) 0))))).

Definition read_mask (masked : bool) : SM T (option (list Z)) :=
  if masked then
    r ← wait_readable 1000;
    if negb r then mret None
    else b ← read_some 4; if (length b <? 4)%nat then mret None else mret (Some b)
  else mret (Some (replicate 4 0)).

(** The frame: opcode and the payload in the buffer of [room] bytes. *)
Definition ws_recv_frame (room : nat) (timeout_ms : Z) : SM T (option (Z * list Z)) :=
  r ← wait_readable timeout_ms;
  if negb r then mret None
  else
    hdr ← read_some 2;
    if (length hdr <? 2)%nat then mret None
    else
      let opcode := Z.land (nth 0 hdr 0) 0x0F in
      let masked := negb (Z.land (nth 1 hdr 0) 0x80 =? 0) in
      l ← payload_len (Z.land (nth 1 hdr 0) 0x7F);
      match l with
      | None => mret None
      | Some payload_len =>
          k ← read_mask masked;
          match k with
          | None => mret None
          | Some mask =>
              let to_read := Nat.min (Z.to_nat payload_len) room in
              got ← read_payload to_read to_read [];
              mret (Some (opcode, if masked then unmask mask got else got))
          end
      end.
End Ws.

(** ** Headers *)

(** Bytes without leading ASCII white space. *)
Definition is_ascii_ws (b : Z) : bool := (b =? 32) || (b =? 9) || (b =? 10) || (b =? 12) || (b =? 13).
Fixpoint trim_start (l : list Z) : list Z := match l with [] => [] | b :: l' => if is_ascii_ws b then trim_start l' else l end.

(** The value on a line, if the line is the header [name]. *)
Definition header_on (line name : list Z) : option (list Z) :=
  if (length name + 1 <? length line)%nat then
    let lname := take (length name) line in
    let rest := drop (length name) line in
    if ascii_eq_ci lname name && has_prefix [58] rest then Some (strip_cr (trim_start (drop 1 rest))) else None
  else None.

Fixpoint find_header_from (n : nat) (raw name : list Z) : option (list Z) :=
  match n with
  | O => None
  | S n' =>
      match raw with
      | [] => None
      | _ =>
          let end_ := default (length raw) (find_byte 10 raw) in
          let line := take end_ raw in
          if has_prefix [13] line || (length line =? 0)%nat then None
          else match header_on line name with
               | Some v => Some v
               | None => find_header_from n' (drop (end_ + 1) raw) name
               end
      end
  end.
Definition find_header_value (raw name : list Z) : option (list Z) := find_header_from (length raw) raw name.
