(* ===== verification/WsProofs.v ===== *)
(** * WebSocket: frames and Base64

    What a peer frames is what [ws_recv_frame] returns, on every stream that keeps the
    laws of [StreamSpec]; Base64 decodes what it encodes, in whole groups; the accept key
    of RFC 6455's example. *)

From stdpp Require Import base numbers list strings.
From Stdlib Require Import ZArith Lia Bool.
From S2P Require Import Prelude Sector Text NetState NetLink Tcp NetInv NetSafe NetFrames TcpRing TcpInv TcpStream TcpSend Stream Ws.

#[local] Opaque BUF_SIZE.

(** ** Base64 *)

(** All values below [n]. *)
Definition below (n : nat) : list Z := Z.of_nat <$> seq 0 n.
Lemma below_forall n (P : Z -> bool) : forallb P (below n) = true -> forall v, 0 <= v < Z.of_nat n -> P v = true.
Proof.
  intros H v Hv. eapply forallb_forall in H; [exact H|]. apply list_elem_of_In, list_elem_of_fmap. exists (Z.to_nat v).
  split; [lia|]. apply elem_of_seq. lia.
Qed.

Lemma b64_val_char v : 0 <= v < 64 -> b64_val (b64_char v) = Some v /\ b64_char v <> 61.
Proof.
  intros Hv. pose proof (below_forall 64 (fun v => bool_decide (b64_val (b64_char v) = Some v /\ b64_char v <> 61)) ltac:(by vm_compute) v Hv) as H.
  by apply bool_decide_eq_true_1 in H.
Qed.

Lemma b64_pad_char v : 0 <= v < 64 -> b64_pad_val (b64_char v) = Some v.
Proof. intros Hv. destruct (b64_val_char v Hv) as [E N]. unfold b64_pad_val. by destruct (Z.eqb_spec (b64_char v) 61). Qed.

(** The four six-bit values of three bytes, in range, and the bytes back. *)
Definition sextets (b0 b1 b2 : Z) : list Z :=
  [Z.shiftr b0 2; Z.lor (as_u8 (Z.shiftl (Z.land b0 3) 4)) (Z.shiftr b1 4); Z.lor (as_u8 (Z.shiftl (Z.land b1 0xF) 2)) (Z.shiftr b2 6); Z.land b2 0x3F].
Definition octets (a b c d : Z) : list Z :=
  [Z.lor (as_u8 (Z.shiftl a 2)) (Z.shiftr b 4); Z.lor (as_u8 (Z.shiftl b 4)) (Z.shiftr c 2); Z.lor (as_u8 (Z.shiftl c 6)) d].

Ltac pwn := change (2 ^ 2) with 4 in *; change (2 ^ 4) with 16 in *; change (2 ^ 6) with 64 in *;
  change (2 ^ (8 - 2)) with 64 in *; change (2 ^ (8 - 4)) with 16 in *; change (2 ^ (8 - 6)) with 4 in *.
Ltac pw := pwn; Z.div_mod_to_equations; lia.

Lemma pack x y k : 0 <= k <= 8 -> 0 <= y < 2 ^ k -> Z.lor (as_u8 (Z.shiftl x k)) y = (x mod 2 ^ (8 - k)) * 2 ^ k + y.
Proof.
  intros Hk Hy. rewrite Z.shiftl_mul_pow2 by lia. unfold as_u8, wrap. replace (2 ^ 8) with (2 ^ (8 - k) * 2 ^ k) by (rewrite <- Z.pow_add_r by lia; f_equal; lia).
  rewrite Z.mul_mod_distr_r by (apply Z.pow_nonzero; lia). rewrite Z.lor_comm, lor_high by lia. lia.
Qed.

Lemma octets_of_sextets b0 b1 b2 : is_u8 b0 -> is_u8 b1 -> is_u8 b2 ->
  exists a b c d, sextets b0 b1 b2 = [a; b; c; d] /\ octets a b c d = [b0; b1; b2] /\ Forall (fun v => 0 <= v < 64) [a; b; c; d].
Proof.
  unfold is_u8. intros H0 H1 H2. unfold sextets, octets.
  change (Z.land b0 3) with (Z.land b0 (Z.ones 2)). change (Z.land b1 15) with (Z.land b1 (Z.ones 4)). change (Z.land b2 63) with (Z.land b2 (Z.ones 6)).
  rewrite !Z.land_ones, !Z.shiftr_div_pow2 by lia. rewrite (pack _ (b1 / 2 ^ 4) 4), (pack _ (b2 / 2 ^ 6) 2) by (repeat rewrite ?(eq_refl : 2 ^ 4 = 16), ?(eq_refl : 2 ^ 6 = 64), ?(eq_refl : 2 ^ 2 = 4); Z.div_mod_to_equations; lia).
  do 4 eexists. split; [reflexivity|]. rewrite !Z.shiftr_div_pow2 by lia. rewrite !pack by (repeat rewrite ?(eq_refl : 2 ^ 4 = 16), ?(eq_refl : 2 ^ 6 = 64), ?(eq_refl : 2 ^ 2 = 4); Z.div_mod_to_equations; lia). pwn. split; [|repeat constructor; pw].
  f_equal; [pw|]. f_equal; [pw|]. f_equal. pw.
Qed.

(** The bytes a group holds. *)
Definition group (b0 : Z) (b1 b2 : option Z) : list Z := b0 :: option_list b1 ++ option_list b2.

Lemma base64_group n b0 b1 b2 tl room out : Forall is_u8 (group b0 b1 b2) -> (b1 = None -> b2 = None) -> (length out + 2 < room)%nat ->
  base64_loop (S n) (b64_quad b0 b1 b2 ++ tl) room out = base64_loop n tl room (out ++ group b0 b1 b2).
Proof.
  intros Hu Hb Hr. assert (L : forall l : list Z, (length l <= 2)%nat -> (length (out ++ l) <? room)%nat = true) by (intros l Hl; rewrite length_app; apply Nat.ltb_lt; lia).
  assert (is_u8 b0 /\ is_u8 (default 0 b1) /\ is_u8 (default 0 b2)) as (H0 & H1 & H2).
  { unfold group in Hu. destruct b1, b2; cbn in *; rewrite ?Forall_cons in Hu; destruct_and?; split_and!; unfold is_u8 in *; lia. }
  destruct (octets_of_sextets _ _ _ H0 H1 H2) as (a & b & c & d & Es & Eo & Hf). rewrite !Forall_cons in Hf. destruct Hf as (Ha & Hb' & Hc & Hd & _).
  unfold sextets in Es. injection Es as Ea Eb Ec Ed. unfold octets in Eo. injection Eo as Eo0 Eo1 Eo2.
  destruct (b64_val_char a Ha) as [Va _]. destruct (b64_val_char b Hb') as [Vb _]. destruct (b64_val_char c Hc) as [_ Nc]. destruct (b64_val_char d Hd) as [_ Nd].
  unfold b64_quad. cbv zeta. rewrite Ea, Eb. cbn [app base64_loop]. rewrite (proj2 (Nat.ltb_lt _ _) Hr), Va, Vb, Eo0.
  rewrite (proj2 (Nat.ltb_lt (length out) room)) by lia. unfold group. destruct b1 as [b1|]; cbn [default from_option id option_list app] in *.
  - rewrite Ec, (b64_pad_char c Hc), Eo1. rewrite (L [b0]) by (cbn; lia).
    rewrite (proj2 (Z.eqb_neq (b64_char c) 61) Nc). cbn [negb andb].
    destruct b2 as [b2|]; cbn [default from_option id option_list app] in *.
    + rewrite Ed, (b64_pad_char d Hd), Eo2, (proj2 (Z.eqb_neq (b64_char d) 61) Nd). rewrite <- app_assoc, L by (cbn; lia).
      cbn [negb andb]. by rewrite <- app_assoc.
    + cbn. rewrite andb_false_r. by rewrite <- !app_assoc.
  - rewrite Hb in * by done. cbn. by rewrite !andb_false_r.
Qed.

Lemma base64_loop_full n input room out : (room <= length out + 2)%nat -> base64_loop n input room out = out.
Proof.
  intros H. destruct n; cbn [base64_loop]; [done|]. rewrite (proj2 (Nat.ltb_ge _ _)) by lia. by destruct input as [|? [|? [|? [|? ?]]]].
Qed.

Lemma base64_loop_enc n data re fuel room out : (length data <= n)%nat -> Forall is_u8 data -> (4 * length data + 8 <= 3 * re)%nat -> (length data <= fuel)%nat ->
  base64_loop fuel (base64_encode data re) room out = out ++ take (3 * ((room - length out) / 3)) data.
Proof.
  revert data re fuel out. induction n as [|n IH]; intros data re fuel out Hn Hu Hre Hf.
  { destruct data; [|cbn in Hn; lia]. rewrite take_nil, app_nil_r. by destruct fuel. }
  destruct data as [|b0 data]; [rewrite take_nil, app_nil_r; by destruct fuel|]. destruct fuel as [|fuel]; [cbn in Hf; lia|].
  destruct (Nat.le_gt_cases room (length out + 2)) as [Hs|Hs].
  { rewrite base64_loop_full by done. rewrite Nat.div_small by lia. by rewrite app_nil_r. }
  assert (Hq : (3 <= 3 * ((room - length out) / 3))%nat) by (pose proof (Nat.div_le_lower_bound (room - length out) 3 1 ltac:(lia) ltac:(lia)); lia).
  cbn [base64_encode]. rewrite (proj2 (Nat.ltb_ge re 4)) by (cbn in Hre; lia). destruct data as [|b1 [|b2 data]].
  - rewrite <- (app_nil_r (b64_quad _ _ _)), base64_group; [|exact Hu|done|exact Hs]. rewrite take_ge by (cbn [length]; lia). by destruct fuel.
  - rewrite <- (app_nil_r (b64_quad _ _ _)), base64_group by (exact Hu || done || exact Hs). rewrite take_ge by (cbn [length]; lia). by destruct fuel.
  - rewrite !Forall_cons in Hu. destruct Hu as (? & ? & ? & Hu). cbn [length] in *.
    rewrite base64_group; [|unfold group; cbn; by rewrite !Forall_cons|done|lia]. rewrite IH by (done || lia). rewrite <- app_assoc. f_equal.
    rewrite length_app. change (length (group _ _ _)) with 3%nat. replace (room - length out)%nat with ((room - (length out + 3)) + 1 * 3)%nat by lia.
    rewrite Nat.div_add by lia. generalize ((room - (length out + 3)) / 3)%nat as k. intros k. by replace (3 * (k + 1))%nat with (S (S (S (3 * k)))) by lia.
Qed.

Lemma base64_encode_long n data re : (length data <= n)%nat -> (4 * length data + 8 <= 3 * re)%nat -> (length data <= length (base64_encode data re))%nat.
Proof.
  revert data re. induction n as [|n IH]; intros data re Hn Hre; [destruct data; cbn in *; lia|].
  destruct data as [|b0 data]; [done|]. cbn [base64_encode]. rewrite (proj2 (Nat.ltb_ge re 4)) by (cbn in Hre; lia).
  destruct data as [|b1 [|b2 data]]; [cbn; lia..|]. cbn [length] in *. rewrite length_app. specialize (IH data (re - 4)%nat). cbn. lia.
Qed.

(** Base64 decodes what it encodes, whole groups at a time.  Decoding the encoding of
    any bytes into a buffer of [room] bytes gives the bytes that fit whole groups of
    three, so the data come back when the buffer has two bytes to spare, and the last
    one or two bytes are lost in a buffer of their exact size. *)
Theorem base64_roundtrip data re room : Forall is_u8 data -> (4 * length data + 8 <= 3 * re)%nat ->
  base64_decode (base64_encode data re) room = take (3 * (room / 3)) data.
Proof.
  intros Hu Hre. unfold base64_decode. rewrite (base64_loop_enc (length data)); [by rewrite Nat.sub_0_r|done..|].
  by apply (base64_encode_long (length data)).
Qed.

Lemma base64_roundtrip_witness : base64_decode (base64_encode [77; 97; 110; 33] 8) 6 = [77; 97; 110; 33] /\
  base64_decode (base64_encode [77; 97; 110; 33] 8) 4 = [77; 97; 110].
Proof.
  assert (Hu : Forall is_u8 [77; 97; 110; 33]) by (repeat constructor; lia).
  split; [apply (base64_roundtrip [77; 97; 110; 33] 8 6)|apply (base64_roundtrip [77; 97; 110; 33] 8 4)]; (done || cbn; lia).
Defined.

(** ** Frames *)

(** The frame of RFC 6455, with the FIN bit: [mask] is the masking key, if the payload is masked. *)
Definition frame_len (mb n : Z) : list Z :=
  if n <=? 125 then [mb + n] else if n <=? 65535 then (mb + 126) :: to_be_bytes 2 n else (mb + 127) :: to_be_bytes 8 n.
(** Each byte of the payload with the next byte of the key, which starts over after four. *)
Fixpoint masked (k0 k1 k2 k3 : Z) (payload : list Z) : list Z :=
  match payload with [] => [] | b :: rest => Z.lxor b k0 :: masked k1 k2 k3 k0 rest end.
Definition on_wire (mask : option (list Z)) (payload : list Z) : list Z :=
  match mask with Some [k0; k1; k2; k3] => masked k0 k1 k2 k3 payload | _ => payload end.
Definition frame (opcode : Z) (mask : option (list Z)) (payload : list Z) : list Z :=
  (128 + opcode) :: frame_len (match mask with Some _ => 128 | None => 0 end) (Z.of_nat (length payload)) ++ default [] mask ++ on_wire mask payload.

Lemma unmask_masked k0 k1 k2 k3 payload : unmask [k0; k1; k2; k3] payload = masked k0 k1 k2 k3 payload.
Proof.
  revert k0 k1 k2 k3. induction payload as [|b l IH]; intros k0 k1 k2 k3; [done|]. unfold unmask. rewrite imap_cons. cbn [masked]. f_equal.
  rewrite <- IH. unfold unmask. apply imap_ext. intros i x _. cbn [compose]. f_equal. replace (S i) with (1 + i)%nat by lia. rewrite Nat.Div0.add_mod.
  pose proof (Nat.mod_upper_bound i 4 ltac:(lia)) as Hi. destruct (i mod 4)%nat as [|[|[|[|n]]]]; [done..|lia].
Qed.

Lemma on_wire_unmask mask payload : (forall k, mask = Some k -> length k = 4%nat) ->
  on_wire mask payload = match mask with Some k => unmask k payload | None => payload end.
Proof. intros Hk. destruct mask as [k|]; [|done]. specialize (Hk k eq_refl). destruct k as [|k0 [|k1 [|k2 [|k3 [|]]]]]; try done. by rewrite unmask_masked. Qed.

Lemma unmask_take k n payload : unmask k (take n (unmask k payload)) = take n payload.
Proof.
  unfold unmask. apply list_eq. intros i. rewrite list_lookup_imap. destruct (decide (i < n)%nat) as [Hi|Hi].
  - rewrite !lookup_take_lt by done. rewrite list_lookup_imap. destruct (payload !! i); [|done]. cbn. by rewrite Z.lxor_assoc, Z.lxor_nilpotent, Z.lxor_0_r.
  - by rewrite !lookup_take_ge by lia.
Qed.

Section Frames.
Context {T : Type} `{!Stream T, !StreamSpec T}.

Lemma wait_bind {A} ms (f : bool -> SM T A) s : ready s -> pend s <> [] ->
  exists s', (wait_readable ms ≫= f) s = f true s' /\ ready s' /\ pend s' = pend s.
Proof. intros Hr Hp. destruct (st_wait_spec ms s Hr Hp) as (s' & E & R & P). exists s'. split; [|done]. unfold mbind, SM_bind, wait_readable. by rewrite E. Qed.

Lemma read_bind {A} n (f : list Z -> SM T A) s a b : ready s -> pend s = a ++ b -> length a = n ->
  exists s', (read_some n ≫= f) s = f a s' /\ ready s' /\ pend s' = b.
Proof.
  intros Hr Hp <-. destruct (st_read_spec (length a) s Hr) as (s' & E & R & P). exists s'. unfold mbind, SM_bind, read_some. rewrite E, Hp, take_app_length.
  split; [done|]. split; [done|]. by rewrite P, Hp, drop_app_length.
Qed.

(** The next wait, the next read: [s'] is the state after it. *)
Ltac s_wait R P s' R' P' := match goal with |- context [(wait_readable ?ms ≫= ?f) ?s] =>
  let E := fresh in destruct (wait_bind ms f s R) as (s' & E & R' & P'); [by rewrite P|]; rewrite E; rewrite P in P'; clear E; cbv beta iota end.
Ltac s_read R P s' R' P' := match goal with |- context [(read_some ?n ≫= ?f) ?s] =>
  let E := fresh in edestruct (read_bind n f s) as (s' & E & R' & P'); [exact R|exact P|try done|]; [..|rewrite E; clear E; cbv beta iota] end.

Lemma read_payload_done n got : read_payload (T := T) n (length got) got = mret got.
Proof. destruct n; cbn [read_payload]; by rewrite Nat.ltb_irrefl. Qed.

Lemma read_payload_run s a b : ready s -> pend s = a ++ b ->
  exists s', read_payload (length a) (length a) [] s = Got (a, s') /\ ready s' /\ pend s' = b.
Proof.
  intros Hr Hp. destruct a as [|x a]; [by exists s|]. cbn [length read_payload Nat.ltb Nat.leb].
  s_wait Hr Hp s1 R1 P1. s_read R1 P1 s2 R2 P2. exists s2. split; [|done]. cbn [app]. by rewrite (read_payload_done _ (x :: a)).
Qed.

Lemma frame_len_bits mb n x l : mb = 0 \/ mb = 128 -> 0 <= n -> frame_len mb n = x :: l ->
  Z.land x 0x80 = mb /\ Z.land x 0x7F = if n <=? 125 then n else if n <=? 65535 then 126 else 127.
Proof.
  intros Hm Hn E. assert (B : forall v, 0 <= v < 128 -> Z.land (mb + v) 0x80 = mb /\ Z.land (mb + v) 0x7F = v).
  { intros v Hv. apply (below_forall 128 (fun v => bool_decide (Z.land (mb + v) 0x80 = mb /\ Z.land (mb + v) 0x7F = v))) in Hv; [by apply bool_decide_eq_true_1 in Hv|].
    destruct Hm as [-> | ->]; by vm_compute. }
  unfold frame_len in E. destruct (Z.leb_spec n 125); [|destruct (n <=? 65535)]; injection E as <- _; apply B; lia.
Qed.

Lemma payload_len_run mb n s rest x l : mb = 0 \/ mb = 128 -> 0 <= n < 2 ^ 32 -> ready s -> frame_len mb n = x :: l -> pend s = l ++ rest ->
  exists s', payload_len (Z.land x 0x7F) s = Got (Some n, s') /\ ready s' /\ pend s' = rest.
Proof.
  intros Hm Hn Hr E Hp. destruct (frame_len_bits mb n x l Hm ltac:(lia) E) as [_ ->]. unfold frame_len in E. unfold payload_len.
  destruct (Z.leb_spec n 125) as [H1|H1]; [|destruct (Z.leb_spec n 65535) as [H2|H2]].
  - injection E as _ <-. rewrite (proj2 (Z.leb_le n 125) H1). by exists s.
  - injection E as _ <-. cbn [Z.leb Z.eqb Z.compare Pos.compare Pos.compare_cont Pos.eqb negb]. s_wait Hr Hp s1 R1 P1. cbn [negb].
    s_read R1 P1 s2 R2 P2. rewrite length_to_be_bytes. cbn [Nat.ltb Nat.leb]. exists s2. rewrite be_to_be_bytes, Z.mod_small by lia. done.
  - injection E as _ <-. cbn [Z.leb Z.eqb Z.compare Pos.compare Pos.compare_cont Pos.eqb negb]. s_wait Hr Hp s1 R1 P1. cbn [negb].
    s_read R1 P1 s2 R2 P2. exists s2. rewrite length_to_be_bytes, app_nil_r. split; [|done].
    change (take 4 (drop 4 (to_be_bytes 8 n))) with (to_be_bytes 4 n). by rewrite be_to_be_bytes, Z.mod_small by lia.
Qed.
Lemma read_mask_run mask s rest : (forall k, mask = Some k -> length k = 4%nat) -> ready s -> pend s = default [] mask ++ rest ->
  exists s', read_mask (bool_decide (is_Some mask)) s = Got (Some (default (replicate 4 0) mask), s') /\ ready s' /\ pend s' = rest.
Proof.
  intros Hk Hr Hp. destruct mask as [k|]; [|by exists s]. specialize (Hk k eq_refl). cbn [default from_option id] in Hp. rewrite bool_decide_eq_true_2 by eauto.
  unfold read_mask. destruct k as [|k0 k]; [done|]. s_wait Hr Hp s1 R1 P1. cbn [negb]. s_read R1 P1 s2 R2 P2. exists s2. rewrite Hk. done.
Qed.

(** C22: WebSocket frames are received as they were sent.  On every stream that keeps the
    laws, with a whole frame buffered, of any length below 4 GiB, masked or not,
    [ws_recv_frame] returns the frame's opcode and the payload unmasked, cut to the
    caller's buffer; the rest of a payload that did not fit stays in the stream, before
    whatever follows the frame. *)
Theorem ws_frame_received s opcode mask payload rest room ms : ready s -> 0 <= opcode < 16 -> Z.of_nat (length payload) < 2 ^ 32 ->
  (forall k, mask = Some k -> length k = 4%nat) -> pend s = frame opcode mask payload ++ rest ->
  exists s', ws_recv_frame room ms s = Got (Some (opcode, take room payload), s') /\ ready s' /\
    pend s' = drop room (on_wire mask payload) ++ rest.
Proof.
  intros Hr Ho Hl Hk Hp. unfold ws_recv_frame. unfold frame in Hp. set (mb := match mask with Some _ => 128 | None => 0 end) in *.
  assert (Hm : mb = 0 \/ mb = 128) by (subst mb; destruct mask; auto).
  destruct (frame_len mb (Z.of_nat (length payload))) as [|x l] eqn:Ef; [unfold frame_len in Ef; by repeat case_match|].
  destruct (frame_len_bits _ _ _ _ Hm (Nat2Z.is_nonneg (length payload)) Ef) as [Bm _]. cbn [app] in Hp. rewrite <- !app_assoc in Hp.
  s_wait Hr Hp s1 R1 P1. cbn [negb]. change (128 + opcode :: x :: l ++ ?r) with ([128 + opcode; x] ++ l ++ r) in P1. s_read R1 P1 s2 R2 P2.
  cbn [length Nat.ltb Nat.leb nth]. unfold mbind at 1, SM_bind at 1.
  destruct (payload_len_run mb _ s2 _ x l Hm (conj (Nat2Z.is_nonneg _) Hl) R2 Ef P2) as (s3 & -> & R3 & P3).
  rewrite Bm. replace (negb (mb =? 0)) with (bool_decide (is_Some mask)) by (subst mb; by destruct mask).
  unfold mbind at 1, SM_bind at 1. destruct (read_mask_run mask s3 _ Hk R3 P3) as (s4 & -> & R4 & P4). rewrite Nat2Z.id.
  unfold mbind, SM_bind. rewrite <- (take_drop room (on_wire mask payload)), <- app_assoc in P4.
  destruct (read_payload_run s4 _ _ R4 P4) as (s5 & E5 & R5 & P5). replace (length (take room (on_wire mask payload))) with (Nat.min (length payload) room) in E5.
  2:{ rewrite length_take, (on_wire_unmask mask) by done. destruct mask; unfold unmask; rewrite ?length_imap; lia. }
  rewrite E5, (on_wire_unmask mask) by done. exists s5. split; [|by rewrite <- (on_wire_unmask mask)]. replace (Z.land (128 + opcode) 15) with opcode.
  - destruct mask as [k|]; [rewrite bool_decide_eq_true_2 by eauto; cbn; by rewrite unmask_take|by rewrite bool_decide_eq_false_2 by (by intros [? ?])].
  - symmetry. change 15 with (Z.ones 4). rewrite Z.land_ones by lia. change (2 ^ 4) with 16. Z.div_mod_to_equations. lia.
Qed.
End Frames.

(** The sample connection with a masked text frame in its buffer, and a byte after it. *)
Definition hello : list Z := frame 1 (Some [55; 250; 33; 61]) [72; 101; 108; 108; 111] ++ [7].
Definition hello_ring : RingBuf := (push hello (RingBuf_new BUF_SIZE)).2.
Definition hello_net : connection 1 0 bench :=
  with_tcp (mk_tcps (<[0%nat := put_rx (Some hello_ring) sample_conn]> (CONNS (tcp conn_net))) (NEXT_PORT (tcp conn_net))) conn_net.

Lemma hello_ring_ok : ring_ok hello_ring /\ contents hello_ring = hello.
Proof. destruct (push_ok hello _ RingBuf_new_ok) as (_ & H1 & H2); [u8s|]. split; [done|]. unfold hello_ring. rewrite H2. Transparent BUF_SIZE. done. Qed.
#[local] Opaque hello_ring BUF_SIZE.

Lemma hello_ready : ready hello_net /\ pend hello_net = hello.
Proof.
  destruct hello_ring_ok as [H1 H2]. split; [split|].
  - apply put_conn_ok; [apply conn_net_ok|]. destruct sample_conn_ok. by split.
  - exists (put_rx (Some hello_ring) sample_conn), hello_ring. split; reflexivity.
  - change (conn_pend 0 hello_net = hello). rewrite <- H2. apply (conn_pend_eq 0 hello_net (put_rx (Some hello_ring) sample_conn)); reflexivity.
Qed.

Lemma ws_frame_received_witness : exists s', ws_recv_frame 128 1000 hello_net = Got (Some (1, [72; 101; 108; 108; 111]), s') /\ pend s' = [7].
Proof.
  destruct hello_ready as [R P].
  destruct (ws_frame_received hello_net 1 (Some [55; 250; 33; 61]) [72; 101; 108; 108; 111] [7] 128 1000 R) as (s' & E & _ & P');
    [lia|cbn; lia|by intros k [= <-]|exact P|]. exists s'. split; [exact E|exact P'].
Defined.

(** What is sent is a frame without a mask. *)
Lemma ws_send_frames opcode payload b : 0 <= opcode < 16 -> Z.of_nat (length payload) < 2 ^ 32 ->
  ws_send_frame opcode payload b = Got (tt, mk_buffer (b_in b) (b_out b ++ frame opcode None payload)).
Proof.
  intros Ho Hl. assert (Eo : Z.lor 128 (Z.land opcode 15) = 128 + opcode).
  { change 15 with (Z.ones 4). rewrite Z.land_ones, Z.mod_small by lia. rewrite Z.lor_comm. change 128 with (1 * 2 ^ 7) at 1. rewrite lor_high by lia. lia. }
  assert (Eh : ws_header opcode (Z.of_nat (length payload)) = (128 + opcode) :: frame_len 0 (Z.of_nat (length payload))).
  { unfold ws_header, frame_len. rewrite Eo. set (n := Z.of_nat (length payload)) in *. destruct (Z.leb_spec n 125); [|destruct (Z.leb_spec n 65535)].
    - unfold as_u8, wrap. by rewrite Z.mod_small by lia.
    - unfold as_u8, wrap. by rewrite Z.shiftr_div_pow2 by lia.
    - unfold as_u8, wrap. rewrite !Z.shiftr_div_pow2 by lia. cbv [to_be_bytes to_le_bytes reverse rev_append]. rewrite !Z.div_div by lia.
      change (0 + 127) with 127. do 2 f_equal. repeat rewrite (Z.div_small n (256 * _)) by lia. done. }
  unfold ws_send_frame, mbind, SM_bind, write_all. cbn [st_write buffer_stream]. rewrite Eh. unfold frame. cbn [default from_option on_wire app b_in b_out].
  destruct payload; cbn [b_in b_out]; [by rewrite app_nil_r|]. unfold mbind, SM_bind. cbn [st_write buffer_stream b_in b_out mret SM_ret]. by rewrite <- app_assoc.
Qed.

(** The example of RFC 6455. *)
Example compute_accept_rfc : compute_accept (lit "dGhlIHNhbXBsZSBub25jZQ==") 32 = lit "s3pPLMBiTxaQ9kYGzzhZRbK+xOo=".
Proof. by vm_compute. Qed.
