(* ===== verification/Httpd.v ===== *)
(** * The HTTP server (kernel/src/net/httpd.rs)

    Everything but the task's accept loop: request parsing, the response builder, the
    pages, the router, the WebSocket session and the handler of a connection.  Loops that
    wait for other tasks or for the peer take [rounds]. *)

From stdpp Require Import base numbers list strings.
From Stdlib Require Import ZArith Lia Bool.
From S2P Require Import Prelude Sector Text Syscall NetState Stream Ws.

Definition RECV_BUF_SIZE : nat := 4096.
Definition BODY_BUF_SIZE : nat := 512.
Definition RESP_BUF_SIZE : nat := Z.to_nat 8192.
Definition AI_TIMEOUT_TICK : Z := 6000.
Definition NUMENOR_TID : nat := 1.
Definition SEMANTIC_TID : nat := 2.
Definition AI_OP_INFER : Z := 2.
Definition AI_OP_INFER_STREAM : Z := 10.
Definition AI_OP_TOKEN : Z := 11.
Definition AI_OP_STREAM_END : Z := 12.

(** ** Request parsing *)

(** [l.splitn(2, |b| b == c)]: what is before the first [c], and what is after it. *)
Definition split1 (c : Z) (l : list Z) : list Z * option (list Z) :=
  match find_byte c l with Some k => (take k l, Some (drop (k + 1) l)) | None => (l, None) end.

(** [l.windows(needle.len()).position(|w| w == needle)] *)
Fixpoint find_sub (needle l : list Z) : option nat :=
  if has_prefix needle l then Some O else match l with [] => None | _ :: l' => S <$> find_sub needle l' end.

Definition parse_request_line (raw : list Z) : option (list Z * list Z * list Z) :=
  line_end ← find_byte 13 raw;
  let line := take line_end raw in
  let '(method, rest) := split1 32 line in
  rest ← rest;
  let '(path, version) := split1 32 rest in
  Some (method, path, default (lit "HTTP/1.0") version).

(** The digits at the front of a number. *)
Fixpoint decimal (val : Z) (num : list Z) : Z :=
  match num with
  | [] => val
  | b :: num' => if (b <? 48) || (57 <? b) then val else decimal (as_u64 (as_u64 (val * 10) + (b - 48))) num'
  end.

Definition CONTENT_LENGTH : list Z := lit "Content-Length: ".
Definition parse_content_length (raw : list Z) : option Z :=
  pos ← find_sub CONTENT_LENGTH raw;
  let rest := drop (pos + length CONTENT_LENGTH) raw in
  let num := take (default (length rest) (find_byte 13 rest)) rest in
  Some (decimal 0 num).

Definition CRLF2 : list Z := [13; 10; 13; 10].
Definition find_body_start (raw : list Z) : option nat := (fun i => i + 4)%nat <$> find_sub CRLF2 raw.
Definition has_end_of_headers (raw : list Z) : bool := bool_decide (is_Some (find_sub CRLF2 raw)).

(** The value of [key] in a flat JSON object; the argument is the text from the current index on. *)
Fixpoint extract_from (n : nat) (json key : list Z) : option (list Z) :=
  match n, json with
  | O, _ | _, [] => None
  | S n', b :: rest =>
      if b =? 34 then
        if has_prefix key rest && (length key + 2 <? length rest)%nat && bool_decide (rest !! length key = Some 34) then
          let r := drop (length key + 1) rest in
          match find_byte 34 r with
          | None => None
          | Some j => let v := drop (j + 1) r in Some (take (default (length v) (find_byte 34 v)) v)
          end
        else extract_from n' (drop (default (length rest) (find_byte 34 rest) + 1) rest) key
      else extract_from n' rest key
  end.
Definition extract_json_string (json key : list Z) : option (list Z) := extract_from (length json) json key.

(** ** Responses *)

(** The digits of a number, into a buffer of twenty bytes from the back. *)
Fixpoint digits_of (room : nat) (n : Z) (acc : list Z) : list Z :=
  match room with
  | O => acc
  | S room' => if 0 <? n then digits_of room' (n / 10) (48 + n mod 10 :: acc) else acc
  end.
Definition num_to_str (n : Z) : list Z := if n =? 0 then [48] else digits_of 20 n [].

Definition status_str (status : Z) : list Z :=
  if status =? 200 then lit "200 OK"
  else if status =? 400 then lit "400 Bad Request"
  else if status =? 404 then lit "404 Not Found"
  else if status =? 413 then lit "413 Payload Too Large"
  else if status =? 503 then lit "503 Service Unavailable"
  else if status =? 504 then lit "504 Gateway Timeout"
  else lit "200 OK".

Definition build_response (status : Z) (content_type body : list Z) : list Z :=
  take RESP_BUF_SIZE
    (lit "HTTP/1.1 " ++ status_str status ++ CRLF ++ lit "Content-Type: " ++ content_type ++ CRLF
     ++ CONTENT_LENGTH ++ num_to_str (Z.of_nat (length body))
     ++ CRLF ++ lit "Connection: close" ++ CRLF ++ lit "Server: Aeglos/1.0" ++ CRLF
     ++ lit "Access-Control-Allow-Origin: *" ++ CRLF ++ CRLF ++ body).

(** [buf[a..b].copy_from_slice(src)] *)
Definition copy_range (a b : nat) (src buf : list Z) : fout (list Z) :=
  if (a <=? b)%nat && (b <=? length buf)%nat && (length src =? b - a)%nat then Got (splice a src buf) else Crashed.

(** ** The rest of the kernel, as the server sees it *)

Record status := mk_status {
  s_ip : list Z; free_pages : Z; total_pages : Z; task_count : Z; idle_ticks : Z; total_ticks : Z;
}.
Class HttpHost (T : Type) := {
  (** [scheduler::send_message]: whether the message was accepted *)
  h_send : nat -> list Z -> T -> fout (bool * T);
  (** [scheduler::recv_message] and [try_recv_message]: the sender and the data *)
  h_recv : T -> fout (option (nat * list Z) * T);
  h_try_recv : T -> fout (option (nat * list Z) * T);
  h_yield : T -> fout (unit * T);
  (** [tick_count], [physical_timer_count] and [physical_timer_freq] *)
  h_ticks : T -> fout (Z * T);
  h_counter : T -> fout (Z * T);
  h_freq : Z;
  h_status : T -> fout (status * T);
  (** the address of a buffer of the handler, and the bytes at an address *)
  h_addr : list Z -> Z;
  h_bytes : Z -> nat -> T -> fout (list Z * T);
}.

Section Httpd.
Context {T : Type} `{!Stream T, !HttpHost T} (rounds : nat).
Local Abbreviation M := (SM T).

Definition host_status : M status := h_status.
Definition counter_now : M Z := h_counter.
Definition ticks_now : M Z := h_ticks.

(** ** Pages *)

Definition mb (pages : Z) : Z := as_u64 (pages * 4096) / 1048576.

Definition dotted (ip : list Z) : list Z := concat (imap (fun i b => num_to_str b ++ (if (i <? 3)%nat then lit "." else [])) ip).

Definition page_index : M (list Z) :=
  st ← host_status;
  let body := take 2048
    (lit "<html><head><title>Aeglos OS</title></head><body>" ++ lit "<h1>Aeglos OS — AI-Native Kernel</h1><pre>" ++ lit "IP     : "
     ++ dotted (s_ip st) ++ 10 :: lit "Memory : " ++ num_to_str (mb (free_pages st)) ++ lit " MB free / " ++ num_to_str (mb (total_pages st))
     ++ lit " MB total" ++ 10 :: lit "Routes : GET /health  GET /stats  POST /infer  GET /mem?q=..." ++ lit "</pre></body></html>") in
  mret (build_response 200 (lit "text/html") body).

(** The quote character, which the string literals of this file cannot hold. *)
Definition quote : list Z := [34].
Definition quoted (s : string) : list Z := quote ++ lit s ++ quote.

Definition page_health : list Z :=
  build_response 200 (lit "application/json") (lit "{" ++ quoted "status" ++ lit ":" ++ quoted "ok" ++ lit "}").

Definition page_stats : M (list Z) :=
  st ← host_status;
  let cpu_pct := if 0 <? total_ticks st then as_u64 (100 - as_u64 (idle_ticks st * 100) / total_ticks st) else 0 in
  let body := take 256
    (lit "{" ++ quoted "free_mb" ++ lit ":" ++ num_to_str (mb (free_pages st))
     ++ lit "," ++ quoted "total_mb" ++ lit ":" ++ num_to_str (mb (total_pages st))
     ++ lit "," ++ quoted "cpu_pct" ++ lit ":" ++ num_to_str cpu_pct
     ++ lit "," ++ quoted "task_cnt" ++ lit ":" ++ num_to_str (task_count st) ++ lit "}") in
  mret (build_response 200 (lit "application/json") body).

(** [loop { if let Some(msg) = recv_message() { if msg.sender == tid { break } } ... }] *)
Fixpoint await_reply (n : nat) (tid : nat) (deadline : Z) : M (option (list Z)) :=
  match n with
  | O => stuck_s
  | S n' =>
      m ← (h_recv : M _);
      match m with
      | Some (sender, data) => if (sender =? tid)%nat then mret (Some data) else
          t ← ticks_now; if deadline <=? t then mret None else (h_yield : M _) ≫= fun _ => await_reply n' tid deadline
      | None => t ← ticks_now; if deadline <=? t then mret None else (h_yield : M _) ≫= fun _ => await_reply n' tid deadline
      end
  end.

(** The fields of [AiMessage::from_bytes]. *)
Definition ai_field (k : nat) (data : list Z) : Z := le_bytes (take 8 (drop (8 * k) data)).

Definition page_infer (prompt : list Z) : M (list Z) :=
  if (length prompt =? 0)%nat then mret (build_response 400 (lit "text/plain") (lit "Empty prompt"))
  else if (BODY_BUF_SIZE <? length prompt)%nat then mret (build_response 413 (lit "text/plain") (lit "Prompt too large"))
  else
    ok ← (h_send NUMENOR_TID (ai_to_bytes AI_OP_INFER (h_addr prompt) (Z.of_nat (length prompt))) : M _);
    if negb ok then mret (build_response 503 (lit "text/plain") (lit "Numenor unavailable"))
    else
      t ← ticks_now;
      reply ← await_reply rounds NUMENOR_TID (t +u AI_TIMEOUT_TICK);
      match reply with
      | None => mret (build_response 504 (lit "text/plain") (lit "Numenor timeout"))
      | Some data =>
          let resp_ptr := ai_field 1 data in
          let resp_len := ai_field 2 data in
          response ← (if (resp_ptr =? 0) || (resp_len =? 0) then mret [] else (h_bytes resp_ptr (Z.to_nat (Z.min resp_len 4096)) : M _));
          mret (build_response 200 (lit "text/plain") response)
      end.

(** [l.split(|b| b == c)] *)
Fixpoint split_all (n : nat) (c : Z) (l : list Z) : list (list Z) :=
  match n with
  | O => [l]
  | S n' => match split1 c l with (a, None) => [a] | (a, Some r) => a :: split_all n' c r end
  end.

Fixpoint q_param (kvs : list (list Z)) : option (list Z) :=
  match kvs with
  | [] => None
  | kv :: kvs' => match split1 61 kv with (key, Some val) => if bool_decide (key = lit "q") then Some val else q_param kvs' | _ => q_param kvs' end
  end.

Definition error_body (s : string) : list Z := lit "{" ++ quoted "error" ++ lit ":" ++ quoted s ++ lit "}".

Definition mem_request (q : list Z) : list Z := splice 4 (take 28 q) (<[0%nat := 104]> (replicate 32 0)).

(** The page of a reply. *)
Definition mem_page (data : list Z) : fout (list Z) :=
  result_len ← byte_at data 1;
  result ← subslice data 4 (4 + Nat.min (Z.to_nat result_len) 28);
  body ← copy_range 0 13 (lit "{" ++ quoted "result" ++ lit ":" ++ quote) (replicate 128 0);
  let p := 11%nat in
  let copy := Nat.min (length result) (128 - p - 4) in
  body ← copy_range p (p + copy) (take copy result) body;
  let body := <[(p + copy)%nat := 34]> body in
  let body := <[(p + copy + 1)%nat := 125]> body in
  mret (build_response 200 (lit "application/json") (take (p + copy + 2) body)).

Definition page_mem (query : list Z) : M (list Z) :=
  let q := default [] (q_param (split_all (length query) 38 query)) in
  if (length q =? 0)%nat then mret (build_response 400 (lit "application/json") (error_body "missing q= parameter"))
  else
    ok ← (h_send SEMANTIC_TID (mem_request q) : M _);
    if negb ok then mret (build_response 503 (lit "application/json") (error_body "semantic service unavailable"))
    else
      t ← ticks_now;
      reply ← await_reply rounds SEMANTIC_TID (t +u 500);
      match reply with
      | None => mret (build_response 504 (lit "application/json") (error_body "semantic timeout"))
      | Some data => lift_f (mem_page data)
      end.

Definition page_404 : list Z := build_response 404 (lit "text/plain") (lit "Not Found").

Definition send_400 : M unit := _ ← write_all (build_response 400 (lit "text/plain") (lit "Bad Request")); mret tt.

Definition route (method path body : list Z) : M (list Z) :=
  let '(path_base, query) := split1 63 path in
  if bool_decide (method = lit "GET" /\ path_base = lit "/") then page_index
  else if bool_decide (method = lit "GET" /\ path_base = lit "/health") then mret page_health
  else if bool_decide (method = lit "GET" /\ path_base = lit "/stats") then page_stats
  else if bool_decide (method = lit "POST" /\ path_base = lit "/infer") then page_infer body
  else if bool_decide (method = lit "GET" /\ path_base = lit "/mem") then page_mem (default [] query)
  else mret page_404.

(** ** The WebSocket session *)

(** Forwarding the tokens of the inference service until it ends or sixty seconds are over. *)
Fixpoint forward_tokens (n : nat) (deadline : Z) : M unit :=
  match n with
  | O => stuck_s
  | S n' =>
      c ← counter_now;
      if deadline <=? c then mret tt
      else
        m ← (h_try_recv : M _);
        match m with
        | None => (h_yield : M _) ≫= fun _ => forward_tokens n' deadline
        | Some (sender, data) =>
            if negb (sender =? NUMENOR_TID)%nat then forward_tokens n' deadline
            else
              let op := ai_field 0 data in
              if op =? AI_OP_TOKEN then
                let tlen := Nat.min (Z.to_nat (nth 8 data 0)) 23 in
                ws_send_text (take tlen (drop 9 data)) ≫= fun _ => forward_tokens n' deadline
              else if op =? AI_OP_STREAM_END then ws_send_text (lit "{" ++ quoted "done" ++ lit ":true}")
              else forward_tokens n' deadline
        end
  end.

Fixpoint ws_loop (n : nat) : M unit :=
  match n with
  | O => stuck_s
  | S n' =>
      f ← ws_recv_frame 1024 30000;
      match f with
      | None => mret tt
      | Some (opcode, text) =>
          if opcode =? WS_OPCODE_CLOSE then mret tt
          else if negb (opcode =? WS_OPCODE_TEXT) then ws_loop n'
          else
            let prompt := default text (extract_json_string text (lit "prompt")) in
            _ ← (h_send NUMENOR_TID (ai_to_bytes AI_OP_INFER_STREAM (h_addr prompt) (Z.of_nat (length prompt))) : M bool);
            c ← counter_now;
            forward_tokens rounds (c +u as_u64 (h_freq * 60)) ≫= fun _ => ws_loop n'
      end
  end.
Definition handle_ws_session : M unit := ws_loop rounds ≫= fun _ => ws_send_close.

(** ** The handler of a connection *)

(** Reading until the headers are complete or the buffer is full; [None] when the peer is silent. *)
Fixpoint read_request (n : nat) (raw : list Z) : M (option (list Z)) :=
  match n with
  | O => stuck_s
  | S n' =>
      r ← wait_readable 5000;
      if negb r then mret None
      else
        b ← read_some (RECV_BUF_SIZE - length raw);
        if (length b =? 0)%nat then mret (Some raw)
        else
          let raw := raw ++ b in
          if has_end_of_headers raw then mret (Some raw)
          else if (RECV_BUF_SIZE <=? length raw)%nat then mret (Some raw)
          else read_request n' raw
  end.

(** Reading the body up to [goal] bytes. *)
Fixpoint read_body (n : nat) (deadline goal : Z) (got : list Z) : M (list Z) :=
  match n with
  | O => stuck_s
  | S n' =>
      if Z.of_nat (length got) <? goal then
        r ← wait_readable 1000;
        if negb r then mret got
        else if Z.of_nat BODY_BUF_SIZE <? goal then crash_s
        else
          b ← read_some (Z.to_nat goal - length got);
          if (length b =? 0)%nat then mret got
          else
            let got := got ++ b in
            c ← counter_now;
            if deadline <=? c then mret got else read_body n' deadline goal got
      else mret got
  end.

(** The body: what came with the headers, and what is still to come. *)
Definition request_body (raw : list Z) (content_length : Z) : M (list Z) :=
  let body_start := default (length raw) (find_body_start raw) in
  let already := drop body_start raw in
  let n := Z.of_nat (length already) in
  let need := Z.min (Z.max 0 (content_length - n)) (as_u64 (Z.of_nat BODY_BUF_SIZE - n)) in
  got ← (if 0 <? need then
           c ← counter_now;
           read_body (S BODY_BUF_SIZE) (c +u as_u64 (h_freq * 5)) (n + need) already
         else mret already);
  if (BODY_BUF_SIZE <? length got)%nat then crash_s else mret got.

Fixpoint write_response (n : nat) (resp : list Z) : M unit :=
  match n with
  | O => mret tt
  | S n' => match resp with
            | [] => mret tt
            | _ => k ← write_all resp; if (k =? 0)%nat then mret tt else write_response n' (drop k resp)
            end
  end.

Definition is_ws_upgrade (raw : list Z) : bool :=
  match find_header_value raw (lit "Upgrade") with Some v => ascii_eq_ci v (lit "websocket") | None => false end.

(** What is done with a request that was read. *)
Definition serve (raw : list Z) : M unit :=
  match parse_request_line raw with
  | None => send_400
  | Some (method, path, _) =>
      body ← request_body raw (default 0 (parse_content_length raw));
      if is_ws_upgrade raw then
        let ws_key := default [] (find_header_value raw (lit "Sec-WebSocket-Key")) in
        if bool_decide ((split1 63 path).1 = lit "/ws") then
          ok ← ws_accept ws_key;
          if ok : bool then handle_ws_session else mret tt
        else send_400
      else
        resp ← route method path body;
        write_response (length resp) resp
  end.

Definition handle_connection : M unit :=
  raw ← read_request (S RECV_BUF_SIZE) [];
  match raw with
  | None | Some [] => close_conn
  | Some raw => serve raw ≫= fun _ => close_conn
  end.
End Httpd.
