(* ===== verification/Http.v ===== *)
(** * The HTTP client (kernel/src/net/http.rs)

    URLs, the request, the response reader over a stream, and [http_get] over the network
    stack.  [https_get] only calls the TLS client. *)

From stdpp Require Import base numbers list strings.
From Stdlib Require Import ZArith Lia Bool.
From S2P Require Import Prelude Sector Text NetState NetLink Tcp Net Stream Ws Httpd.

(** [Ok] carries the bytes written to the caller's buffer. *)
Inductive HttpResult := HttpOk (body : list Z) | DnsError | TcpError | HttpError (status : Z) | HttpTimeout | BufferTooSmall.

Definition build_request (host path : list Z) : list Z :=
  take 1024 (lit "GET " ++ path ++ lit " HTTP/1.1" ++ CRLF ++ lit "Host: " ++ host ++ CRLF ++ lit "Connection: close" ++ CRLF
             ++ lit "User-Agent: Aeglos/1.0" ++ CRLF ++ CRLF).

(** ** Headers *)

Fixpoint three_digits (n : nat) (code : Z) (l : list Z) : Z :=
  match n with
  | O => code
  | S n' => match l with [] => 0 | b :: l' => if (b <? 48) || (57 <? b) then 0 else three_digits n' (as_u16 (as_u16 (code * 10) + (b - 48))) l' end
  end.

Definition parse_status (hdr : list Z) : Z :=
  if (length hdr <? 12)%nat then 0
  else if negb (has_prefix (lit "HTTP/") hdr) then 0
  else let l := drop 5 hdr in three_digits 3 0 (drop (default (length l) (find_byte 32 l) + 1) l).

Definition NEEDLE : list Z := lit "content-length:".

Fixpoint skip_blanks (l : list Z) : list Z := match l with b :: l' => if (b =? 32) || (b =? 9) then skip_blanks l' else l | [] => [] end.

(** The value on the line [hdr] starts with, or on a later one. *)
Fixpoint content_length_from (n : nat) (hdr : list Z) : option Z :=
  match n with
  | O => None
  | S n' =>
      match hdr with
      | [] => None
      | _ =>
          if bool_decide (lower (take (length NEEDLE) hdr) = NEEDLE) then Some (decimal 0 (skip_blanks (drop (length NEEDLE) hdr)))
          else match find_byte 10 hdr with None => None | Some k => content_length_from n' (drop (k + 1) hdr) end
      end
  end.
Definition parse_content_length (hdr : list Z) : option Z := content_length_from (S (length hdr)) hdr.

(** ** The response *)

Inductive header_phase := HeaderEnd (hdr : list Z) (hdr_end : nat) | HeaderReturn (r : HttpResult).

Section Client.
Context {T : Type} `{!Stream T} (rounds : nat).

(** Phase 1: the bytes received and the offset past the blank line, 0 when there is none. *)
Fixpoint read_header (n : nat) (hdr : list Z) : SM T header_phase :=
  match n with
  | O => stuck_s
  | S n' =>
      r ← wait_readable 10000;
      if negb r then
        st ← conn_state;
        match st with
        | CloseWait | Closed | Free | TimeWait => mret (HeaderEnd hdr 0)
        | _ => mret (HeaderReturn HttpTimeout)
        end
      else
        b ← read_some (2048 - length hdr);
        if (length b =? 0)%nat then read_header n' hdr
        else
          let search_from := (length hdr - 3)%nat in
          let hdr := hdr ++ b in
          match find_sub CRLF2 (drop search_from hdr) with
          | Some i => mret (HeaderEnd hdr (search_from + i + 4))
          | None => if (2048 <=? length hdr)%nat then mret (HeaderReturn (HttpError 0)) else read_header n' hdr
          end
  end.

Definition reached (content_length : option Z) (written : nat) : bool :=
  match content_length with Some cl => cl <=? Z.of_nat written | None => false end.

(** Phase 2: the rest of the body into a buffer of [room] bytes. *)
Fixpoint read_rest (n : nat) (content_length : option Z) (room : nat) (buf : list Z) : SM T HttpResult :=
  match n with
  | O => stuck_s
  | S n' =>
      avail ← readable;
      if (0 <? avail)%nat then
        if (room <=? length buf)%nat then mret BufferTooSmall
        else
          b ← read_some (room - length buf);
          let buf := buf ++ b in
          if reached content_length (length buf) then mret (HttpOk buf) else read_rest n' content_length room buf
      else
        st ← conn_state;
        match st with
        | Closed | Free | TimeWait | CloseWait | FinWait2 => mret (HttpOk buf)
        | _ => r ← wait_readable 8000; if negb r then mret (HttpOk buf) else read_rest n' content_length room buf
        end
  end.

Definition read_response (room : nat) : SM T HttpResult :=
  h ← read_header rounds [];
  match h with
  | HeaderReturn r => mret r
  | HeaderEnd hdr hdr_end =>
      if (hdr_end =? 0)%nat then mret TcpError
      else
        let status := parse_status (take hdr_end hdr) in
        if status =? 0 then mret TcpError
        else if negb ((200 <=? status) && (status <? 300)) then mret (HttpError status)
        else
          let content_length := parse_content_length (take hdr_end hdr) in
          let pre := drop hdr_end hdr in
          match pre with
          | [] => read_rest rounds content_length room []
          | _ => if (room <? length pre)%nat then mret BufferTooSmall
                 else if reached content_length (length pre) then mret (HttpOk pre)
                 else read_rest rounds content_length room pre
          end
  end.
End Client.

(** ** Requests over the network stack *)

Section Get.
Context {D : Type} `{!NetHost D} (rounds : nat).

Definition http_get (host path : list Z) (port : Z) (room : nat) : N D HttpResult :=
  ip ← dns_resolve rounds host;
  match ip with
  | None => mret DnsError
  | Some ip =>
      id ← tcp_connect rounds ip port;
      match id with
      | None => mret TcpError
      | Some id =>
          up ← tcp_wait_established rounds id 25000;
          if negb up then tcp_close id;; mret TcpError
          else
            n ← tcp_write id (build_request host path);
            if (n =? 0)%nat then tcp_close id;; mret TcpError
            else
              result ← (read_response (T := connection rounds id D) rounds room : N D HttpResult);
              tcp_close id;; mret result
      end
  end.
End Get.

(** ** URLs *)

(** [str::parse::<u16>] *)
Fixpoint parse_digits (val : Z) (l : list Z) : option Z :=
  match l with
  | [] => Some val
  | b :: l' => if is_digit b then let v := val * 10 + (b - 48) in if 65535 <? v then None else parse_digits v l' else None
  end.
Definition parse_u16 (l : list Z) : option Z :=
  match (match l with 43 :: (_ :: _) as l' => drop 1 l' | _ => l end) with [] => None | l => parse_digits 0 l end.

(** [l.rfind(c)] *)
Definition rfind_byte (c : Z) (l : list Z) : option nat := (fun k => length l - 1 - k)%nat <$> find_byte c (reverse l).

(** Scheme, host, port and path. *)
Definition parse_url (url : list Z) : option (bool * list Z * Z * list Z) :=
  '(https, rest) ← (if has_prefix (lit "https://") url then Some (true, drop 8 url)
                    else if has_prefix (lit "http://") url then Some (false, drop 7 url) else None);
  let '(authority, path) := match find_byte 47 rest with Some idx => (take idx rest, drop idx rest) | None => (rest, lit "/") end in
  '(host, port) ← (match rfind_byte 58 authority with
                   | Some idx => p ← parse_u16 (drop (idx + 1) authority); Some (take idx authority, p)
                   | None => Some (authority, if https : bool then 443 else 80)
                   end);
  Some (https, host, port, path).
