(* ===== verification/HttpProofs.v ===== *)
(** * HTTP: headers, bodies and numbers

    Searches in header blocks, decimal numbers, and the client reading what the server
    sends. *)

From stdpp Require Import base numbers list strings.
From Stdlib Require Import ZArith Lia Bool.
From S2P Require Import Prelude Sector Text NetState NetLink Tcp NetInv NetSafe TcpStream Stream Ws WsProofs Httpd Http.

(** ** Searches *)

Lemma find_sub_skip c needle l r : c ∉ l -> find_sub (c :: needle) (l ++ r) = (fun k => length l + k)%nat <$> find_sub (c :: needle) r.
Proof.
  induction l as [|b l IH]; [intros _; cbn [app length]; by destruct (find_sub _ r)|]. intros [Hb Hl]%not_elem_of_cons. cbn [app find_sub].
  assert (has_prefix (c :: needle) (b :: l ++ r) = false) as ->. { apply bool_decide_eq_false_2. cbn. congruence. }
  rewrite IH by done. by destruct (find_sub (c :: needle) r).
Qed.

Lemma find_sub_here needle r : find_sub needle (needle ++ r) = Some 0%nat.
Proof. destruct (needle ++ r) eqn:E; cbn [find_sub]; rewrite <- E, has_prefix_app; done. Qed.

(** A block of lines, each with its end. *)
Definition block (ls : list (list Z)) : list Z := concat ((fun l => l ++ CRLF) <$> ls).
Definition line_ok (l : list Z) : Prop := l <> [] /\ 13 ∉ l.

Lemma block_cons l ls : block (l :: ls) = l ++ CRLF ++ block ls.
Proof. unfold block. cbn. by rewrite <- app_assoc. Qed.

Lemma block_not_cr ls r : Forall line_ok ls -> ls <> [] -> exists b t, block ls ++ r = b :: t /\ b <> 13.
Proof.
  destruct ls as [|l ls]; [done|]. intros [[Hn Hc] _]%Forall_cons _. rewrite block_cons. destruct l as [|b l]; [done|].
  exists b. eexists. split; [done|]. apply not_elem_of_cons in Hc as [? _]. congruence.
Qed.

(** The blank line after a block. *)
Lemma blank_line ls body : Forall line_ok ls -> ls <> [] ->
  find_sub CRLF2 (block ls ++ CRLF ++ body) = Some (length (block ls) - 2)%nat.
Proof.
  induction ls as [|l ls IH]; [done|]. intros [[Hn Hc] Hls]%Forall_cons _. rewrite block_cons, <- !app_assoc. unfold CRLF2.
  rewrite find_sub_skip by done. fold CRLF2. destruct ls as [|l' ls].
  - cbn [block concat fmap list_fmap app]. change (CRLF ++ CRLF ++ body) with (CRLF2 ++ body). rewrite find_sub_here. cbn. rewrite !length_app. cbn. f_equal. lia.
  - destruct (block_not_cr (l' :: ls) (CRLF ++ body) Hls) as (b & t & E & Hb); [done|]. specialize (IH Hls ltac:(done)). rewrite E in *.
    unfold CRLF. cbn [app find_sub]. assert (has_prefix CRLF2 (13 :: 10 :: b :: t) = false) as ->. { apply bool_decide_eq_false_2. unfold CRLF2. destruct t; cbn; congruence. }
    assert (has_prefix CRLF2 (10 :: b :: t) = false) as ->. { by apply bool_decide_eq_false_2. }
    assert (HB : (2 <= length (block (l' :: ls)))%nat) by (rewrite block_cons, !length_app; change (length CRLF) with 2%nat; lia).
    cbn [find_sub] in IH. rewrite IH. clear -HB. generalize dependent (block (l' :: ls)). intros B HB. cbn. rewrite length_app. cbn. f_equal. lia.
Qed.

(** ** Numbers *)

Definition value (v : Z) (ds : list Z) : Z := foldl (fun v b => v * 10 + (b - 48)) v ds.
Definition digit (b : Z) : Prop := 48 <= b <= 57.

Lemma value_ge v ds : 0 <= v -> Forall digit ds -> v <= value v ds.
Proof.
  revert v. induction ds as [|b ds IH]; intros v Hv; [cbn; lia|]. intros [Hb Hds]%Forall_cons. unfold digit in Hb. cbn.
  specialize (IH (v * 10 + (b - 48)) ltac:(lia) Hds). unfold value in IH. lia.
Qed.

Lemma decimal_app v ds tail : 0 <= v -> Forall digit ds -> value v ds < 2 ^ 64 -> decimal v (ds ++ tail) = decimal (value v ds) tail.
Proof.
  revert v. induction ds as [|b ds IH]; intros v Hv; [done|]. intros [Hb Hds]%Forall_cons Hl. unfold digit in Hb. cbn [app decimal].
  rewrite (proj2 (Z.ltb_ge b 48)), (proj2 (Z.ltb_ge 57 b)) by lia. cbn [orb]. cbn in Hl.
  pose proof (value_ge (v * 10 + (b - 48)) ds ltac:(lia) Hds) as G. unfold value in G.
  unfold as_u64, wrap. rewrite (Z.mod_small (v * 10)) by lia. rewrite Z.mod_small by lia. by apply IH; [lia| |].
Qed.

Lemma digits_of_spec room n acc : 0 <= n < 10 ^ Z.of_nat room ->
  exists ds, digits_of room n acc = ds ++ acc /\ Forall digit ds /\ value 0 ds = n /\ (0 < n -> ds <> []).
Proof.
  revert n acc. induction room as [|room IH]; intros n acc Hn; [exists []; repeat split; try constructor; cbn in *; lia|].
  cbn [digits_of]. destruct (Z.ltb_spec 0 n) as [Hp|Hp]; [|exists []; repeat split; try constructor; cbn in *; lia].
  rewrite Nat2Z.inj_succ, Z.pow_succ_r in Hn by lia. destruct (IH (n / 10) (48 + n mod 10 :: acc)) as (ds & E & Hf & Hv & _); [Z.div_mod_to_equations; lia|].
  exists (ds ++ [48 + n mod 10]). rewrite E, <- app_assoc. split; [done|]. split; [|split].
  - apply Forall_app. split; [done|]. repeat constructor; Z.div_mod_to_equations; lia.
  - unfold value in *. rewrite foldl_app, Hv. cbn. Z.div_mod_to_equations; lia.
  - intros _ Hx. by destruct ds.
Qed.

Lemma num_to_str_spec n : is_u64 n -> exists d ds, num_to_str n = d :: ds /\ Forall digit (d :: ds) /\ value 0 (d :: ds) = n.
Proof.
  intros Hn. unfold num_to_str. destruct (Z.eqb_spec n 0) as [->|]; [exists 48, []; repeat constructor; lia|].
  destruct (digits_of_spec 20 n []) as (ds & E & Hf & Hv & Hne); [unfold is_u64 in Hn; change (10 ^ Z.of_nat 20) with 100000000000000000000; lia|].
  rewrite E, app_nil_r. destruct ds as [|d ds]; [by destruct Hne; [unfold is_u64 in Hn; lia|]|]. by exists d, ds.
Qed.

Lemma digits_no c ds : Forall digit ds -> ~ digit c -> c ∉ ds.
Proof. intros Hf Hc Hin. by eapply Forall_forall in Hf; [|exact Hin]. Qed.

Lemma decimal_num n tail : is_u64 n -> (forall b t, tail = b :: t -> ~ digit b) -> decimal 0 (num_to_str n ++ tail) = n.
Proof.
  intros Hn Ht. destruct (num_to_str_spec n Hn) as (d & ds & -> & Hf & Hv). unfold is_u64 in Hn. rewrite decimal_app by (done || lia). rewrite Hv.
  destruct tail as [|b t]; [done|]. specialize (Ht b t eq_refl). unfold digit in Ht. cbn.
  destruct (Z.ltb_spec b 48); [done|]. destruct (Z.ltb_spec 57 b); [done|]. lia.
Qed.

(** ** The server's responses *)

Definition STATUSES : list Z := [200; 400; 404; 413; 503; 504].
Definition TYPES : list (list Z) := [lit "text/html"; lit "application/json"; lit "text/plain"].

Definition resp_lines (status : Z) (content_type : list Z) (n : Z) : list (list Z) :=
  [lit "HTTP/1.1 " ++ status_str status; lit "Content-Type: " ++ content_type; CONTENT_LENGTH ++ num_to_str n;
   lit "Connection: close"; lit "Server: Aeglos/1.0"; lit "Access-Control-Allow-Origin: *"].
Definition resp_head (status : Z) (content_type : list Z) (n : Z) : list Z := block (resp_lines status content_type n).

Lemma build_response_block status ct body :
  build_response status ct body = take RESP_BUF_SIZE (resp_head status ct (Z.of_nat (length body)) ++ CRLF ++ body).
Proof.
  unfold build_response, resp_head, resp_lines. f_equal. rewrite !block_cons. cbn [block fmap list_fmap concat]. by rewrite <- !app_assoc.
Qed.

Lemma length_digits_of room n acc : (length (digits_of room n acc) <= room + length acc)%nat.
Proof. revert n acc. induction room as [|room IH]; intros n acc; cbn [digits_of]; [done|]. destruct (0 <? n); [|lia]. pose proof (IH (n / 10) (48 + n mod 10 :: acc)) as H. cbn in H. lia. Qed.
Lemma length_num_to_str n : (length (num_to_str n) <= 20)%nat.
Proof. unfold num_to_str. destruct (n =? 0); [cbn; lia|]. pose proof (length_digits_of 20 n []). cbn in *. lia. Qed.

Ltac each_status Hs := unfold STATUSES in Hs; rewrite !elem_of_cons, elem_of_nil in Hs; destruct_or! Hs; try done; subst.
Ltac each_type Ht := unfold TYPES in Ht; rewrite !elem_of_cons, elem_of_nil in Ht; destruct_or! Ht; try done; subst.

Lemma resp_head_short status ct n : status ∈ STATUSES -> ct ∈ TYPES -> (length (resp_head status ct n) <= 200)%nat.
Proof.
  intros Hs Ht. pose proof (length_num_to_str n) as H. unfold resp_head, resp_lines. rewrite !block_cons, !length_app.
  assert (H1 : (length (status_str status) <= 23)%nat) by (each_status Hs; cbn; lia).
  assert (H2 : (length ct <= 16)%nat) by (each_type Ht; cbn; lia). clear -H H1 H2. cbn. lia.
Qed.

Lemma resp_lines_ok status ct n : is_u64 n -> status ∈ STATUSES -> ct ∈ TYPES -> Forall line_ok (resp_lines status ct n).
Proof.
  intros Hn Hs Ht. destruct (num_to_str_spec n Hn) as (d & ds & E & Hf & _). unfold resp_lines. rewrite E.
  assert (H13 : 13 ∉ d :: ds) by (apply digits_no; [done|unfold digit; lia]). clear -Hs Ht H13.
  assert (L : forall l, l <> [] -> forallb (fun b => negb (b =? 13)) l = true -> line_ok l).
  { intros l Hl Hb. split; [done|]. intros Hin. eapply forallb_forall in Hb; [|apply list_elem_of_In; exact Hin]. done. }
  repeat apply Forall_cons_2; try apply Forall_nil_2; try (apply L; done).
  - apply L; each_status Hs; done.
  - apply L; each_type Ht; done.
  - split; [done|]. rewrite elem_of_app. intros [Hin|Hin]; [|done]. by eapply (proj2 (L CONTENT_LENGTH ltac:(done) ltac:(done))).
Qed.

Lemma status_of_head status ct n : status ∈ STATUSES -> parse_status (resp_head status ct n ++ CRLF) = status.
Proof. intros Hs. each_status Hs; reflexivity. Qed.

Lemma content_length_skip m l r : 10 ∉ l -> lower (take (length NEEDLE) (l ++ 10 :: r)) <> NEEDLE ->
  content_length_from (S m) (l ++ 10 :: r) = content_length_from m r.
Proof.
  intros Hl Hn. cbn [content_length_from]. rewrite bool_decide_eq_false_2 by done. rewrite find_byte_app by done.
  change (10 :: r) with ([10] ++ r). rewrite app_assoc, drop_app_length' by (rewrite length_app; done). by destruct l.
Qed.

Lemma content_length_line m l r : 10 ∉ l -> lower (take (length NEEDLE) (l ++ CRLF ++ r)) <> NEEDLE ->
  content_length_from (S m) (l ++ CRLF ++ r) = content_length_from m r.
Proof.
  intros Hl Hn. change (CRLF ++ r) with ([13] ++ 10 :: r) in *. rewrite app_assoc in *. apply content_length_skip; [|done].
  rewrite elem_of_app, list_elem_of_singleton. by intros [?|?].
Qed.

Lemma content_length_here m n r : is_u64 n -> content_length_from (S m) ((CONTENT_LENGTH ++ num_to_str n) ++ CRLF ++ r) = Some n.
Proof.
  intros Hn. rewrite <- app_assoc. cbn [content_length_from CONTENT_LENGTH lit app]. rewrite bool_decide_eq_true_2 by reflexivity.
  change (Some (decimal 0 (skip_blanks (32 :: num_to_str n ++ CRLF ++ r))) = Some n). f_equal.
  destruct (num_to_str_spec n Hn) as (d & ds & E & Hf & _). apply Forall_cons in Hf as [Hd _]. unfold digit in Hd.
  assert (skip_blanks (32 :: num_to_str n ++ CRLF ++ r) = num_to_str n ++ CRLF ++ r) as ->.
  { rewrite E. cbn. rewrite (proj2 (Z.eqb_neq d 32)), (proj2 (Z.eqb_neq d 9)) by lia. done. }
  apply decimal_num; [done|]. intros b t [= <- <-]. unfold digit. lia.
Qed.

Lemma content_length_of_head status ct n : is_u64 n -> status ∈ STATUSES -> ct ∈ TYPES ->
  Http.parse_content_length (resp_head status ct n ++ CRLF) = Some n.
Proof.
  intros Hn Hs Ht. unfold Http.parse_content_length, resp_head, resp_lines. rewrite !block_cons, <- !app_assoc.
  rewrite length_app. change (length (lit "HTTP/1.1 ")) with 9%nat. cbn [Nat.add].
  rewrite (app_assoc (lit "HTTP/1.1 ")), content_length_line, (app_assoc (lit "Content-Type: ")), content_length_line, (app_assoc CONTENT_LENGTH).
  - by apply content_length_here.
  - apply (bool_decide_unpack _). clear Hs. each_type Ht; vm_compute; done.
  - clear Hs. each_type Ht; discriminate.
  - apply (bool_decide_unpack _). clear Ht. each_status Hs; vm_compute; done.
  - discriminate.
Qed.

(** ** The client *)

Section Client.
Context {T : Type} `{!Stream T, !StreamSpec T}.

Lemma read_header_run m ls body s : Forall line_ok ls -> ls <> [] -> (length (block ls) + 2 <= 2048)%nat -> ready s -> pend s = block ls ++ CRLF ++ body ->
  exists s', read_header (S m) [] s = Got (HeaderEnd (block ls ++ CRLF ++ take (2046 - length (block ls)) body) (length (block ls) + 2), s') /\
    ready s' /\ pend s' = drop (2046 - length (block ls)) body.
Proof.
  intros Hl Hne Hlen Hr Hp. set (k := (2046 - length (block ls))%nat). cbn [read_header length]. change (2048 - 0)%nat with 2048%nat.
  destruct (block_not_cr ls (CRLF ++ body) Hl Hne) as (b & t & E & _).
  assert (Hp' : pend s = (block ls ++ CRLF ++ take k body) ++ drop k body) by (by rewrite Hp, <- !app_assoc, take_drop).
  assert (L : (2 <= length (block ls))%nat).
  { destruct ls as [|l ls]; [done|]. rewrite block_cons, !length_app. change (length CRLF) with 2%nat. lia. }
  match goal with |- context [(wait_readable ?ms ≫= ?f) ?s] => destruct (wait_bind ms f s Hr) as (s1 & -> & R1 & P1) end; [by rewrite Hp, E|].
  cbv beta iota. cbn [negb]. unfold mbind, SM_bind, read_some. destruct (st_read_spec 2048 s1 R1) as (s2 & -> & R2 & P2). rewrite P1, Hp' in *.
  assert (Lk : length (block ls ++ CRLF ++ take k body) = (length (block ls) + 2 + Nat.min k (length body))%nat)
    by (rewrite !length_app, length_take; change (length CRLF) with 2%nat; lia).
  assert (HA : take 2048 ((block ls ++ CRLF ++ take k body) ++ drop k body) = block ls ++ CRLF ++ take k body /\
    drop 2048 ((block ls ++ CRLF ++ take k body) ++ drop k body) = drop k body).
  { destruct (Nat.le_gt_cases (length body) k) as [Hb|Hb].
    - rewrite (drop_ge body) by done. rewrite app_nil_r, (take_ge (block ls ++ _)), (drop_ge (block ls ++ _)) by lia. done.
    - rewrite take_app_length', drop_app_length' by lia. done. }
  destruct HA as [-> HA2]. rewrite HA2 in P2. rewrite (proj2 (Nat.eqb_neq (length (block ls ++ CRLF ++ take k body)) 0)) by lia.
  cbn [app Nat.sub drop]. rewrite drop_0, (blank_line ls) by done. exists s2. split; [|done]. cbn [Nat.add].
  by replace (length (block ls) - 2 + 4)%nat with (length (block ls) + 2)%nat by lia.
Qed.

Lemma read_rest_run m room buf rest s : ready s -> pend s = rest -> rest <> [] -> (length (buf ++ rest) <= room)%nat ->
  exists s', read_rest (S m) (Some (Z.of_nat (length (buf ++ rest)))) room buf s = Got (HttpOk (buf ++ rest), s').
Proof.
  intros Hr <- Hne Hroom. cbn [read_rest]. rewrite length_app in Hroom. assert (0 < length (pend s))%nat by (destruct (pend s); [done|cbn; lia]).
  unfold mbind at 1, SM_bind at 1, readable. destruct (st_avail_spec s Hr) as (s1 & -> & R1 & P1). rewrite (proj2 (Nat.ltb_lt 0 _)) by lia.
  rewrite (proj2 (Nat.leb_gt room (length buf))) by lia. unfold mbind, SM_bind, read_some. destruct (st_read_spec (room - length buf) s1 R1) as (s2 & -> & R2 & P2).
  rewrite P1, take_ge by lia. unfold reached. rewrite Z.leb_refl. by exists s2.
Qed.

(** C21: The client reads what the server sends.  On every stream that keeps the laws and holds
    a response of the server in full, [read_response] gives the body when the status is
    200, and the status as the error when it is any other status of the server. *)
Theorem client_reads_server rounds status ct body room s : status ∈ STATUSES -> ct ∈ TYPES -> body <> [] -> Z.of_nat (length body) <= 7990 ->
  (length body <= room)%nat -> (0 < rounds)%nat -> ready s -> pend s = build_response status ct body ->
  exists s', read_response rounds room s = Got (if status =? 200 then HttpOk body else HttpError status, s').
Proof.
  intros Hs Ht Hb Hl Hroom Hrounds Hr Hp. pose proof (resp_head_short status ct (Z.of_nat (length body)) Hs Ht) as Hh.
  assert (Hn : is_u64 (Z.of_nat (length body))) by (unfold is_u64; lia). destruct rounds as [|m]; [lia|].
  rewrite build_response_block, take_ge in Hp. 2:{ rewrite !length_app. change (length CRLF) with 2%nat. unfold RESP_BUF_SIZE. lia. }
  pose proof (resp_lines_ok status ct _ Hn Hs Ht) as Hok. pose proof (status_of_head status ct (Z.of_nat (length body)) Hs) as Hst.
  pose proof (content_length_of_head status ct _ Hn Hs Ht) as Hcl. unfold read_response, mbind at 1, SM_bind at 1. unfold resp_head in *. set (ls := resp_lines _ _ _) in *.
  destruct (read_header_run m ls body s Hok) as (s1 & -> & R1 & P1); [done|lia|done|done|]. set (k := (2046 - length (block ls))%nat) in *.
  assert (Et : take (length (block ls) + 2) (block ls ++ CRLF ++ take k body) = block ls ++ CRLF) by (rewrite app_assoc; apply take_app_length'; rewrite length_app; done).
  assert (Ed : drop (length (block ls) + 2) (block ls ++ CRLF ++ take k body) = take k body) by (rewrite app_assoc; apply drop_app_length'; rewrite length_app; done).
  rewrite Et, Ed. replace (length (block ls) + 2 =? 0)%nat with false by (symmetry; apply Nat.eqb_neq; lia).
  rewrite Hst, Hcl. rewrite (proj2 (Z.eqb_neq status 0)) by (clear -Hs; by each_status Hs).
  destruct (Z.eqb_spec status 200) as [->|H2]; [|replace (_ && _) with false by (clear -Hs H2; each_status Hs; done); by exists s1].
  cbn [Z.leb Z.ltb Z.compare Pos.compare Pos.compare_cont andb negb].
  assert (Hk : take k body <> []).
  { intros E. apply (f_equal length) in E. rewrite length_take in E. destruct body; [done|]. unfold k in E. cbn [length] in E. lia. }
  assert (Ek : drop k body = [] \/ (length (take k body) < length body)%nat /\ drop k body <> []).
  { destruct (Nat.le_gt_cases (length body) k); [left; by apply drop_ge|right]. split; [rewrite length_take; lia|].
    intros E. apply (f_equal length) in E. rewrite length_drop in E. cbn [length] in E. lia. }
  destruct (take k body) as [|x pre] eqn:Epre; [done|]. rewrite <- Epre in *.
  assert (Hpl : (length (take k body) <= length body)%nat) by (rewrite length_take; lia). rewrite (proj2 (Nat.ltb_ge room _)) by lia.
  unfold reached. destruct Ek as [Ek|[Ek1 Ek2]].
  - assert (Eb : take k body = body) by (rewrite <- (take_drop k body) at 2; by rewrite Ek, app_nil_r). rewrite Eb, Z.leb_refl. by exists s1.
  - rewrite (proj2 (Z.leb_gt (Z.of_nat (length body)) _)) by lia.
    destruct (read_rest_run m room (take k body) (drop k body) s1 R1 P1 Ek2) as [s2 E2]; rewrite take_drop in *; [done|]. exists s2. exact E2.
Qed.
End Client.

Lemma client_reads_server_witness : exists s', read_response 1 64 (mk_buffer (build_response 200 (lit "text/plain") (lit "hello")) []) = Got (HttpOk (lit "hello"), s').
Proof.
  destruct (client_reads_server 1 200 (lit "text/plain") (lit "hello") 64 (mk_buffer (build_response 200 (lit "text/plain") (lit "hello")) [])) as [s' E];
    [apply (bool_decide_unpack _); vm_compute; exact I..|discriminate|cbn; lia|cbn; lia|lia|exact I|reflexivity|].
  exists s'. exact E.
Defined.

(** ** URLs *)

Definition scheme (https : bool) : list Z := if https then lit "https://" else lit "http://".

Lemma parse_digits_value v ds : 0 <= v -> Forall digit ds -> value v ds <= 65535 -> parse_digits v ds = Some (value v ds).
Proof.
  revert v. induction ds as [|b ds IH]; intros v Hv; [done|]. intros [Hb Hds]%Forall_cons Hl. unfold digit in Hb. cbn [parse_digits]. cbn in Hl.
  pose proof (value_ge (v * 10 + (b - 48)) ds ltac:(lia) Hds) as G. unfold value in G. unfold is_digit. rewrite (proj2 (Z.leb_le 48 b)), (proj2 (Z.leb_le b 57)) by lia.
  cbn [andb]. rewrite (proj2 (Z.ltb_ge 65535 _)) by lia. by apply IH; [lia| |].
Qed.

Lemma parse_u16_num p : 0 <= p <= 65535 -> parse_u16 (num_to_str p) = Some p.
Proof.
  intros Hp. destruct (num_to_str_spec p) as (d & ds & -> & Hf & Hv); [unfold is_u64; lia|]. unfold parse_u16. pose proof (Forall_cons_1 _ _ _ Hf) as [Hd _].
  unfold digit in Hd. assert (parse_digits 0 (d :: ds) = Some p) as E by (rewrite <- Hv; apply parse_digits_value; [lia|done|lia]).
  destruct (decide (d = 43)) as [->|Hn]; [lia|]. rewrite <- E. repeat case_match; congruence || lia || done.
Qed.

Lemma rfind_byte_app c a b : c ∉ b -> rfind_byte c (a ++ c :: b) = Some (length a).
Proof.
  intros Hc. unfold rfind_byte. rewrite reverse_app, reverse_cons, <- app_assoc. cbn [app]. rewrite find_byte_app by (by rewrite elem_of_reverse).
  cbn. rewrite length_reverse, length_app. cbn. f_equal. lia.
Qed.

(** A URL written out is parsed back: scheme, host, port and path. *)
Theorem parse_url_print https host port path : 47 ∉ host -> 0 <= port <= 65535 ->
  parse_url (scheme https ++ host ++ lit ":" ++ num_to_str port ++ (47 :: path)) = Some (https, host, port, 47 :: path).
Proof.
  intros Hh Hp. unfold parse_url. set (rest := host ++ lit ":" ++ num_to_str port ++ (47 :: path)).
  assert (Hd : (47 ∉ num_to_str port) /\ (58 ∉ num_to_str port)).
  { destruct (num_to_str_spec port) as (d & ds & -> & Hf & _); [unfold is_u64; lia|]. split; apply digits_no; try done; unfold digit; lia. }
  assert (E1 : (if has_prefix (lit "https://") (scheme https ++ rest) then Some (true, drop 8 (scheme https ++ rest))
      else if has_prefix (lit "http://") (scheme https ++ rest) then Some (false, drop 7 (scheme https ++ rest)) else None) = Some (https, rest)).
  { destruct https; cbn [scheme]; [by rewrite has_prefix_app|]. rewrite (has_prefix_app (lit "http://")). assert (has_prefix (lit "https://") (lit "http://" ++ rest) = false) as ->; [|done].
    apply bool_decide_eq_false_2. by destruct rest. }
  rewrite E1. cbn [mbind option_bind]. set (auth := host ++ lit ":" ++ num_to_str port).
  assert (Er : rest = auth ++ 47 :: path) by (subst rest auth; by rewrite <- !app_assoc).
  assert (Ha : 47 ∉ auth). { subst auth. rewrite !elem_of_app. intros [H|[H|H]]; [done| |by destruct Hd]. cbn in H. apply list_elem_of_singleton in H. discriminate. }
  rewrite Er, find_byte_app by done. rewrite take_app_length, drop_app_length. subst auth. change (lit ":" ++ num_to_str port) with (58 :: num_to_str port).
  rewrite rfind_byte_app by (by destruct Hd). assert (drop (length host + 1) (host ++ 58 :: num_to_str port) = num_to_str port) as ->.
  { rewrite (cons_middle 58), app_assoc. apply drop_app_length'. by rewrite length_app. }
  rewrite parse_u16_num by done. cbn. by rewrite take_app_length.
Qed.
