(* ===== verification/X509.v ===== *)
(** * Certificates (kernel/src/net/x509.rs)

    The DER walker, the parser of a certificate and the checks of the TLS client, whole.
    An index or a slice out of range is a panic ([Crashed]); each loop has one round per
    byte of its input, which [X509Proofs] shows to be enough.  The clock ([rtc_now]) is
    an argument; the lines on the serial port are left out. *)

From stdpp Require Import base numbers list.
From Stdlib Require Import ZArith Lia Bool.
From S2P Require Import Prelude Sector Text.

(** ** The walker *)

Record Der := mk_der { ddata : list Z; dpos : nat }.

Definition Der_new (data : list Z) : Der := mk_der data 0.
Definition remaining (d : Der) : bool := (dpos d <? length (ddata d))%nat.
Definition peek_tag (d : Der) : fout (option Z) :=
  if (dpos d <? length (ddata d))%nat then b ← byte_at (ddata d) (dpos d); mret (Some b) else mret None.

(** The bytes of a long length. *)
Fixpoint len_bytes (n : nat) (len : Z) (d : Der) : fout (Z * Der) :=
  match n with
  | O => mret (len, d)
  | S n' =>
      b ← byte_at (ddata d) (dpos d);
      len_bytes n' (Z.lor (as_u64 (Z.shiftl len 8)) b) (mk_der (ddata d) (dpos d + 1))
  end.

Definition read_len (d : Der) : fout (option Z * Der) :=
  if (length (ddata d) <=? dpos d)%nat then mret (None, d)
  else
    b ← byte_at (ddata d) (dpos d);
    let d := mk_der (ddata d) (dpos d + 1) in
    if b <? 0x80 then mret (Some b, d)
    else
      let n := Z.to_nat (Z.land b 0x7F) in
      if (n =? 0)%nat || (4 <? n)%nat || (length (ddata d) <? dpos d + n)%nat then mret (None, d)
      else '(len, d) ← len_bytes n 0 d; mret (Some len, d).

Definition next_tlv (d : Der) : fout (option (Z * list Z) * Der) :=
  if (length (ddata d) <=? dpos d)%nat then mret (None, d)
  else
    tag ← byte_at (ddata d) (dpos d);
    '(len, d) ← read_len (mk_der (ddata d) (dpos d + 1));
    match len with
    | None => mret (None, d)
    | Some len =>
        if Z.of_nat (length (ddata d)) <? Z.of_nat (dpos d) + len then mret (None, d)
        else
          let n := Z.to_nat len in
          v ← subslice (ddata d) (dpos d) (dpos d + n);
          mret (Some (tag, v), mk_der (ddata d) (dpos d + n))
    end.

Definition skip (d : Der) : fout Der := '(_, d) ← next_tlv d; mret d.

(** ** Time *)

Definition parse2 (a b : Z) : option Z := if is_digit a && is_digit b then Some ((a - 48) * 10 + (b - 48)) else None.
Definition is_leap (y : Z) : bool := ((y mod 4 =? 0) && negb (y mod 100 =? 0)) || (y mod 400 =? 0).

Definition days_in_month (m y : Z) : Z :=
  if existsb (Z.eqb m) [1; 3; 5; 7; 8; 10; 12] then 31
  else if existsb (Z.eqb m) [4; 6; 9; 11] then 30
  else if m =? 2 then (if is_leap y then 29 else 28)
  else 0.

(** [a..b] of a loop. *)
Definition zrange (a b : Z) : list Z := (fun i => a + Z.of_nat i) <$> seq 0 (Z.to_nat (b - a)).

Definition ymd_hms_to_unix (year mon day hour min sec : Z) : Z :=
  if (year <? 1970) || (mon <? 1) || (12 <? mon) || (day <? 1) || (31 <? day) then 0
  else
    let days := foldl (fun days y => days +u (if is_leap y then 366 else 365)) 0 (zrange 1970 year) in
    let days := foldl (fun days m => days +u days_in_month m year) days (zrange 1 mon) in
    let days := days +u (day - 1) in
    days *u 86400 +u hour *u 3600 +u min *u 60 +u sec.

(** Two digits at [i], or a default. *)
Definition digits_at (v : list Z) (i : nat) (dflt : Z) : fout Z :=
  a ← byte_at v i; b ← byte_at v (i + 1); mret (default dflt (parse2 a b)).

Definition parse_utctime (v : list Z) : fout Z :=
  if (length v <? 13)%nat then mret 0
  else
    yy ← digits_at v 0 99;
    let year := if yy <=? 49 then 2000 + yy else 1900 + yy in
    mon ← digits_at v 2 0; day ← digits_at v 4 0; hour ← digits_at v 6 0; min ← digits_at v 8 0; sec ← digits_at v 10 0;
    mret (ymd_hms_to_unix year mon day hour min sec).

Definition parse_gentime (v : list Z) : fout Z :=
  if (length v <? 15)%nat then mret 0
  else
    hi ← digits_at v 0 0; lo ← digits_at v 2 0;
    let year := hi * 100 + lo in
    mon ← digits_at v 4 0; day ← digits_at v 6 0; hour ← digits_at v 8 0; min ← digits_at v 10 0; sec ← digits_at v 12 0;
    mret (ymd_hms_to_unix year mon day hour min sec).

(** ** The fields of a certificate *)

(** [san]: the first [san_count] elements of the array. *)
Record CertInfo := mk_cert { cn : option (list Z); san : list (list Z); not_before : Z; not_after : Z }.

Definition OID_CN : list Z := [0x55; 0x04; 0x03].
Definition OID_SAN : list Z := [0x55; 0x1D; 0x11].
Definition is_string_tag (t : Z) : bool := (t =? 0x0C) || (t =? 0x13) || (t =? 0x14) || (t =? 0x16).

(** The loop over the attributes of a name: [Some r] when [extract_cn] returns [r] in it. *)
Fixpoint cn_attributes (n : nat) (rdn : Der) : fout (option (option (list Z))) :=
  match n with
  | O => if remaining rdn then Stuck else mret None
  | S n' =>
      if remaining rdn then
        '(x, rdn) ← next_tlv rdn;
        match x with
        | None => mret (Some None)
        | Some (t_atv, atv_val) =>
            if negb (t_atv =? 0x30) then cn_attributes n' rdn
            else
              '(y, atv) ← next_tlv (Der_new atv_val);
              match y with
              | None => mret (Some None)
              | Some (t_oid, oid_val) =>
                  if negb (t_oid =? 0x06) then cn_attributes n' rdn
                  else if negb (bool_decide (oid_val = OID_CN)) then cn_attributes n' rdn
                  else
                    '(z, _) ← next_tlv atv;
                    match z with
                    | None => mret (Some None)
                    | Some (tv, vv) => if is_string_tag tv then mret (Some (Some vv)) else cn_attributes n' rdn
                    end
              end
        end
      else mret None
  end.

Fixpoint cn_names (n : nat) (d : Der) : fout (option (list Z)) :=
  match n with
  | O => if remaining d then Stuck else mret None
  | S n' =>
      if remaining d then
        '(x, d) ← next_tlv d;
        match x with
        | None => mret None
        | Some (t_rdn, rdn_val) =>
            if negb (t_rdn =? 0x31) then cn_names n' d
            else
              r ← cn_attributes (length rdn_val) (Der_new rdn_val);
              match r with Some r => mret r | None => cn_names n' d end
        end
      else mret None
  end.
Definition extract_cn (name_val : list Z) : fout (option (list Z)) := cn_names (length name_val) (Der_new name_val).

(** The loop over the alternative names. *)
Fixpoint san_names (n : nat) (seq_ : Der) (acc : list (list Z)) : fout (list (list Z)) :=
  match n with
  | O => if remaining seq_ && (length acc <? 8)%nat then Stuck else mret acc
  | S n' =>
      if remaining seq_ && (length acc <? 8)%nat then
        '(x, seq_) ← next_tlv seq_;
        match x with
        | None => mret acc
        | Some (gn_tag, gn_val) => san_names n' seq_ (if gn_tag =? 0x82 then acc ++ [gn_val] else acc)
        end
      else mret acc
  end.

Definition extract_san (extn_val : list Z) (acc : list (list Z)) : fout (list (list Z)) :=
  '(x, _) ← next_tlv (Der_new extn_val);
  match x with
  | None => mret acc
  | Some (t, seq_val) => if negb (t =? 0x30) then mret acc else san_names (length seq_val) (Der_new seq_val) acc
  end.

(** The body of the loop over the extensions. *)
Definition extension (ext_body : list Z) (acc : list (list Z)) : fout (list (list Z)) :=
  '(x, ext) ← next_tlv (Der_new ext_body);
  match x with
  | None => mret acc
  | Some (t_oid, oid_val) =>
      if negb (t_oid =? 0x06) then mret acc
      else
        p ← peek_tag ext;
        ext ← (if bool_decide (p = Some 0x01) then skip ext else mret ext);
        '(y, _) ← next_tlv ext;
        match y with
        | None => mret acc
        | Some (t_oct, oct_val) =>
            if negb (t_oct =? 0x04) then mret acc
            else if bool_decide (oid_val = OID_SAN) then extract_san oct_val acc else mret acc
        end
  end.

Fixpoint extensions (n : nat) (exts : Der) (acc : list (list Z)) : fout (list (list Z)) :=
  match n with
  | O => if remaining exts then Stuck else mret acc
  | S n' =>
      if remaining exts then
        '(x, exts) ← next_tlv exts;
        match x with
        | None => mret acc
        | Some (t_ext, ext_body) =>
            if negb (t_ext =? 0x30) then extensions n' exts acc
            else acc ← extension ext_body acc; extensions n' exts acc
        end
      else mret acc
  end.

Definition parse_extensions (ext_val : list Z) (acc : list (list Z)) : fout (list (list Z)) :=
  '(x, _) ← next_tlv (Der_new ext_val);
  match x with
  | None => mret acc
  | Some (t_outer, seq_val) => if negb (t_outer =? 0x30) then mret acc else extensions (length seq_val) (Der_new seq_val) acc
  end.

(** [x.next_tlv()?] that must have a tag: the rest of the function is [k]. *)
Definition expect {A} (tag : Z) (d : Der) (k : list Z -> Der -> fout (option A)) : fout (option A) :=
  '(x, d) ← next_tlv d;
  match x with
  | None => mret None
  | Some (t, v) => if t =? tag then k v d else mret None
  end.

(** The optional fields before the extensions. *)
Fixpoint skip_unique_ids (n : nat) (tbs : Der) : fout Der :=
  p ← peek_tag tbs;
  match p with
  | None => mret tbs
  | Some tag =>
      if tag =? 0xA3 then mret tbs
      else match n with O => Stuck | S n' => tbs ← skip tbs; skip_unique_ids n' tbs end
  end.

Definition parse_cert (der : list Z) : fout (option CertInfo) :=
  expect 0x30 (Der_new der) (fun cert_val _ =>
  expect 0x30 (Der_new cert_val) (fun tbs_val _ =>
    let tbs := Der_new tbs_val in
    p ← peek_tag tbs;
    tbs ← (if bool_decide (p = Some 0xA0) then skip tbs else mret tbs);
    expect 0x02 tbs (fun _ tbs =>
    expect 0x30 tbs (fun _ tbs =>
    expect 0x30 tbs (fun _ tbs =>
    expect 0x30 tbs (fun val_body tbs =>
      '(x, validity) ← next_tlv (Der_new val_body);
      match x with
      | None => mret None
      | Some (t_nb, nb_val) =>
          not_before ← (if t_nb =? 0x17 then parse_utctime nb_val else if t_nb =? 0x18 then parse_gentime nb_val else mret 0);
          '(y, _) ← next_tlv validity;
          match y with
          | None => mret None
          | Some (t_na, na_val) =>
              not_after ← (if t_na =? 0x17 then parse_utctime na_val else if t_na =? 0x18 then parse_gentime na_val else mret (2 ^ 64 - 1));
              expect 0x30 tbs (fun sub_val tbs =>
                cn ← extract_cn sub_val;
                expect 0x30 tbs (fun _ tbs =>
                  tbs ← skip_unique_ids (length (ddata tbs)) tbs;
                  p ← peek_tag tbs;
                  if bool_decide (p = Some 0xA3) then
                    '(z, _) ← next_tlv tbs;
                    match z with
                    | None => mret None
                    | Some (_, ext_val) => san ← parse_extensions ext_val []; mret (Some (mk_cert cn san not_before not_after))
                    end
                  else mret (Some (mk_cert cn [] not_before not_after))))
          end
      end)))))).

(** ** The checks *)

Definition dns_name_match (pattern host : list Z) : fout bool :=
  if bool_decide (take 2 pattern = [42; 46]) then
    pat_suffix ← subslice pattern 2 (length pattern);
    match find_byte 46 host with
    | Some dot => host_suffix ← subslice host (dot + 1) (length host); mret (ascii_eq_ci pat_suffix host_suffix)
    | None => mret false
    end
  else mret (ascii_eq_ci pattern host).

Fixpoint any_name_match (names : list (list Z)) (host : list Z) : fout bool :=
  match names with
  | [] => mret false
  | n :: rest => r ← dns_name_match n host; if (r : bool) then mret true else any_name_match rest host
  end.

Definition hostname_match (info : CertInfo) (host : list Z) : fout bool :=
  match san info with
  | [] => match cn info with Some c => dns_name_match c host | None => mret false end
  | _ => any_name_match (san info) host
  end.

Definition validity_ok (now : Z) (info : CertInfo) : bool :=
  if now =? 0 then true else (not_before info <=? now) && (now <=? not_after info).

(** A 24-bit number. *)
Definition u24_at (l : list Z) (i : nat) : fout Z :=
  a ← byte_at l i; b ← byte_at l (i + 1); c ← byte_at l (i + 2);
  mret (Z.lor (Z.lor (Z.shiftl a 16) (Z.shiftl b 8)) c).

Definition verify_cert_chain (now : Z) (msg_body host : list Z) : fout bool :=
  if (length msg_body <? 4)%nat then mret false
  else
    c ← byte_at msg_body 0;
    let context_len := Z.to_nat c in
    if (length msg_body <? 1 + context_len + 3)%nat then mret false
    else
      list_len ← u24_at msg_body (1 + context_len);
      let pos := (1 + context_len + 3)%nat in
      let list_end := (pos + Z.to_nat list_len)%nat in
      if (length msg_body <? list_end)%nat then mret false
      else if (list_end <? pos + 3)%nat then mret false
      else
        cert_len ← u24_at msg_body pos;
        let pos := (pos + 3)%nat in
        if (list_end <? pos + Z.to_nat cert_len)%nat then mret false
        else
          cert_der ← subslice msg_body pos (pos + Z.to_nat cert_len);
          info ← parse_cert cert_der;
          match info with
          | None => mret false
          | Some info => if negb (validity_ok now info) then mret false else hostname_match info host
          end.
