(* ===== verification/X509Proofs.v ===== *)
(** * The certificate check is total and exact

    No message makes the certificate check panic or loop; on the standard encoding of a
    certificate it accepts exactly the host names the certificate covers inside its
    validity; and the time stamps it compares are in the order of the calendar. *)

From stdpp Require Import base numbers list.
From Stdlib Require Import ZArith Lia Bool.
From S2P Require Import Prelude Sector Text NetState NetFrames X509.

(** ** The walker never leaves its slice *)

(** The bytes a walker has before it. *)
Definition left (d : Der) : list Z := drop (dpos d) (ddata d).
Definition inside (d : Der) : Prop := (dpos d <= length (ddata d))%nat.
(** [d'] is further in the same slice. *)
Definition beyond (d d' : Der) : Prop := ddata d' = ddata d /\ (dpos d <= dpos d')%nat /\ inside d'.

Lemma remaining_true d : remaining d = true <-> (dpos d < length (ddata d))%nat.
Proof. apply Nat.ltb_lt. Qed.

Lemma peek_tag_total d : exists p, peek_tag d = Got p /\ (p = None -> remaining d = false).
Proof.
  unfold peek_tag, remaining. destruct (Nat.ltb_spec (dpos d) (length (ddata d))) as [H|H]; [|by eexists].
  destruct (byte_at_some _ _ H) as [b ->]. by eexists.
Qed.

Lemma len_bytes_total n len d : (dpos d + n <= length (ddata d))%nat -> exists v, len_bytes n len d = Got (v, mk_der (ddata d) (dpos d + n)).
Proof.
  revert len d. induction n as [|n IH]; intros len d H; cbn [len_bytes]; [exists len; rewrite Nat.add_0_r; by destruct d|].
  destruct (byte_at_some (ddata d) (dpos d)) as [b ->]; [lia|]. cbn [mbind fout_bind].
  destruct (IH (Z.lor (as_u64 (Z.shiftl len 8)) b) (mk_der (ddata d) (dpos d + 1))) as [v ->]; [cbn; lia|]. exists v. cbn [ddata dpos]. do 3 f_equal. lia.
Qed.

Lemma read_len_total d : inside d -> exists x d', read_len d = Got (x, d') /\ beyond d d'.
Proof.
  unfold beyond, inside, read_len. intros H. destruct (Nat.leb_spec (length (ddata d)) (dpos d)); [by eexists _, _|].
  destruct (byte_at_some (ddata d) (dpos d)) as [b ->]; [lia|]. cbn [mbind fout_bind ddata dpos].
  destruct (b <? 128); [eexists _, _; split; [reflexivity|]; cbn; split_and!; [done|lia|lia]|].
  set (n := Z.to_nat (Z.land b 127)). destruct (n =? 0)%nat; [eexists _, _; split; [reflexivity|]; cbn; split_and!; [done|lia|lia]|].
  destruct (4 <? n)%nat; [eexists _, _; split; [reflexivity|]; cbn; split_and!; [done|lia|lia]|]. cbn [orb].
  destruct (Nat.ltb_spec (length (ddata d)) (dpos d + 1 + n)); [eexists _, _; split; [reflexivity|]; cbn; split_and!; [done|lia|lia]|].
  destruct (len_bytes_total n 0 (mk_der (ddata d) (dpos d + 1))) as [v ->]; [cbn; lia|]. eexists _, _. split; [reflexivity|]. cbn. split_and!; [done|lia|lia].
Qed.

Lemma next_tlv_total d : inside d -> exists x d', next_tlv d = Got (x, d') /\ beyond d d' /\ (remaining d = true -> (dpos d < dpos d')%nat).
Proof.
  intros Hin. unfold next_tlv, remaining. destruct (Nat.leb_spec (length (ddata d)) (dpos d)) as [H|H].
  { eexists _, _. split; [reflexivity|]. split; [done|]. intros Hr%Nat.ltb_lt. lia. }
  destruct (byte_at_some (ddata d) (dpos d) H) as [b ->]. cbn [mbind fout_bind].
  destruct (read_len_total (mk_der (ddata d) (dpos d + 1))) as (len & d1 & -> & Hd & Hp & Hi); [unfold inside; cbn; lia|]. cbn [ddata dpos mbind fout_bind] in *. unfold beyond, inside in *.
  destruct len as [len|]; [|eexists _, _; split; [reflexivity|]; split_and!; [done|lia|done|intros; lia]].
  destruct (Z.ltb_spec (Z.of_nat (length (ddata d1))) (Z.of_nat (dpos d1) + len)); [eexists _, _; split; [reflexivity|]; split_and!; [done|lia|done|intros; lia]|].
  rewrite subslice_some by lia. eexists _, _. split; [reflexivity|]. cbn [ddata dpos]. split_and!; [done|lia|lia|intros; lia].
Qed.

Lemma inside_new l : inside (Der_new l).
Proof. unfold inside. cbn. lia. Qed.

Lemma beyond_inside d d' : beyond d d' -> inside d'.
Proof. by intros (_ & _ & H). Qed.

(** One step of a walker. *)
Ltac tlv d := 
  let x := fresh "x" in let d' := fresh "d" in let E := fresh "E" in let B := fresh "B" in let P := fresh "P" in
  destruct (next_tlv_total d) as (x & d' & E & B & P); [first [apply inside_new|assumption|by eapply beyond_inside; eauto]|rewrite E; cbn [mbind fout_bind]].

(** ** Totality *)

Lemma cn_attributes_total n d : inside d -> (length (ddata d) <= dpos d + n)%nat -> total (cn_attributes n d).
Proof.
  revert d. induction n as [|n IH]; intros d Hin Hn; cbn [cn_attributes]; unfold remaining in *; destruct (Nat.ltb_spec (dpos d) (length (ddata d))); try lia; try by apply total_ret.
  tlv d. assert (Hrec : total (cn_attributes n d0)).
  { apply IH; [by eapply beyond_inside|]. destruct B as (-> & _ & _). specialize (P ltac:(by apply remaining_true)). lia. }
  destruct x as [[t v]|]; [|apply total_ret]. destruct (negb _); [done|]. tlv (Der_new v). destruct x as [[t1 v1]|]; [|apply total_ret].
  destruct (negb _); [done|]. destruct (negb _); [done|]. destruct (next_tlv_total d1) as (z & d2 & -> & _); [by eapply beyond_inside|]. cbn [mbind fout_bind].
  destruct z as [[tv vv]|]; [|apply total_ret]. destruct (is_string_tag tv); [apply total_ret|done].
Qed.

Lemma cn_names_total n d : inside d -> (length (ddata d) <= dpos d + n)%nat -> total (cn_names n d).
Proof.
  revert d. induction n as [|n IH]; intros d Hin Hn; cbn [cn_names]; unfold remaining in *; destruct (Nat.ltb_spec (dpos d) (length (ddata d))); try lia; try by apply total_ret.
  tlv d. assert (Hrec : total (cn_names n d0)).
  { apply IH; [by eapply beyond_inside|]. destruct B as (-> & _ & _). specialize (P ltac:(by apply remaining_true)). lia. }
  destruct x as [[t v]|]; [|apply total_ret]. destruct (negb _); [done|]. destruct (cn_attributes_total (length v) (Der_new v)) as [r ->]; [apply inside_new|cbn; lia|].
  cbn [mbind fout_bind]. destruct r; [apply total_ret|done].
Qed.

Lemma extract_cn_total v : total (extract_cn v).
Proof. apply cn_names_total; [apply inside_new|cbn; lia]. Qed.

Lemma san_names_total n d acc : inside d -> (length (ddata d) <= dpos d + n)%nat -> total (san_names n d acc).
Proof.
  revert d acc. induction n as [|n IH]; intros d acc Hin Hn; cbn [san_names]; destruct (remaining d && _) eqn:E; try by apply total_ret.
  { apply andb_true_iff in E as [E%remaining_true _]. lia. }
  apply andb_true_iff in E as [E _]. tlv d. specialize (P E). destruct x as [[t v]|]; [|apply total_ret].
  apply IH; [by eapply beyond_inside|]. destruct B as (-> & _ & _). lia.
Qed.

Lemma extract_san_total v acc : total (extract_san v acc).
Proof.
  unfold extract_san. tlv (Der_new v). destruct x as [[t w]|]; [|apply total_ret]. destruct (negb _); [apply total_ret|].
  apply san_names_total; [apply inside_new|cbn; lia].
Qed.

Lemma skip_total d : inside d -> exists d', skip d = Got d' /\ beyond d d' /\ (remaining d = true -> (dpos d < dpos d')%nat).
Proof. intros H. unfold skip. tlv d. by eexists. Qed.

Lemma extension_total b acc : total (extension b acc).
Proof.
  unfold extension. tlv (Der_new b). destruct x as [[t v]|]; [|apply total_ret]. destruct (negb _); [apply total_ret|].
  destruct (peek_tag_total d) as (p & -> & _). cbn [mbind fout_bind].
  assert (exists e, (if bool_decide (p = Some 1) then skip d else mret d) = Got e /\ inside e) as (e & -> & He).
  { apply beyond_inside in B. case_bool_decide; [|by eexists]. destruct (skip_total d B) as (e & -> & ?%beyond_inside & _). by eexists. }
  cbn [mbind fout_bind]. destruct (next_tlv_total e He) as (y & e' & -> & _). cbn [mbind fout_bind]. destruct y as [[t2 v2]|]; [|apply total_ret].
  destruct (negb _); [apply total_ret|]. case_bool_decide; [apply extract_san_total|apply total_ret].
Qed.

Lemma extensions_total n d acc : inside d -> (length (ddata d) <= dpos d + n)%nat -> total (extensions n d acc).
Proof.
  revert d acc. induction n as [|n IH]; intros d acc Hin Hn; cbn [extensions]; destruct (remaining d) eqn:E; try by apply total_ret.
  { apply remaining_true in E. lia. }
  tlv d. specialize (P E). assert (Hrec : forall acc, total (extensions n d0 acc)).
  { intros acc'. apply IH; [by eapply beyond_inside|]. destruct B as (-> & _ & _). lia. }
  destruct x as [[t v]|]; [|apply total_ret]. destruct (negb _); [done|]. apply total_bind; [apply extension_total|done].
Qed.

Lemma parse_extensions_total v acc : total (parse_extensions v acc).
Proof.
  unfold parse_extensions. tlv (Der_new v). destruct x as [[t w]|]; [|apply total_ret]. destruct (negb _); [apply total_ret|].
  apply extensions_total; [apply inside_new|cbn; lia].
Qed.

Lemma expect_total {A} t d (k : list Z -> Der -> fout (option A)) : inside d -> (forall v d', inside d' -> total (k v d')) -> total (expect t d k).
Proof.
  intros Hd Hk. unfold expect. tlv d. destruct x as [[t' v]|]; [|apply total_ret]. destruct (t' =? t); [|apply total_ret]. apply Hk. by eapply beyond_inside.
Qed.

Lemma skip_unique_ids_total n d : inside d -> (length (ddata d) <= dpos d + n)%nat -> exists d', skip_unique_ids n d = Got d' /\ inside d'.
Proof.
  revert d. induction n as [|n IH]; intros d Hin Hn; cbn [skip_unique_ids]; destruct (peek_tag d) as [p| |] eqn:E; try (destruct (peek_tag_total d) as (? & ? & _); congruence);
    cbn [mbind fout_bind]; destruct p as [t|]; try (by eexists); assert (Hr : remaining d = true) by (unfold peek_tag, remaining in *; by destruct (_ <? _)%nat).
  { apply remaining_true in Hr. lia. }
  destruct (t =? 163); [by eexists|]. destruct (skip_total d Hin) as (d1 & -> & B & P). cbn [mbind fout_bind]. specialize (P Hr).
  apply IH; [by eapply beyond_inside|]. destruct B as (-> & _ & _). lia.
Qed.

Lemma digits_at_total v i x : (i + 1 < length v)%nat -> total (digits_at v i x).
Proof. intros H. unfold digits_at. do 2 (apply total_bind; [apply byte_at_some; lia|intros ? _]). apply total_ret. Qed.

Lemma parse_utctime_total v : total (parse_utctime v).
Proof.
  unfold parse_utctime. destruct (Nat.ltb_spec (length v) 13); [apply total_ret|].
  repeat (apply total_bind; [apply digits_at_total; lia|intros ? _]). apply total_ret.
Qed.
Lemma parse_gentime_total v : total (parse_gentime v).
Proof.
  unfold parse_gentime. destruct (Nat.ltb_spec (length v) 15); [apply total_ret|].
  repeat (apply total_bind; [apply digits_at_total; lia|intros ? _]). apply total_ret.
Qed.

Lemma time_total (t : Z) v x : total (if t =? 0x17 then parse_utctime v else if t =? 0x18 then parse_gentime v else mret x).
Proof. destruct (t =? 0x17); [apply parse_utctime_total|]. destruct (t =? 0x18); [apply parse_gentime_total|apply total_ret]. Qed.

Lemma parse_cert_total der : total (parse_cert der).
Proof.
  unfold parse_cert. apply expect_total; [apply inside_new|]. intros v _ _. apply expect_total; [apply inside_new|]. intros tbs _ _.
  destruct (peek_tag_total (Der_new tbs)) as (p & -> & _). cbn [mbind fout_bind].
  assert (exists e, (if bool_decide (p = Some 0xA0) then skip (Der_new tbs) else mret (Der_new tbs)) = Got e /\ inside e) as (e & -> & He).
  { case_bool_decide; [|eexists; split; [reflexivity|apply inside_new]]. destruct (skip_total (Der_new tbs) (inside_new _)) as (e & -> & ?%beyond_inside & _). by eexists. }
  cbn [mbind fout_bind]. do 3 (apply expect_total; [done|]; clear e He; intros ? e He). apply expect_total; [done|]. clear e He. intros vb e He.
  tlv (Der_new vb). destruct x as [[t1 w1]|]; [|apply total_ret]. apply total_bind; [apply time_total|]. intros nb _.
  destruct (next_tlv_total d) as (y & d1 & -> & _); [by eapply beyond_inside|]. cbn [mbind fout_bind]. destruct y as [[t2 w2]|]; [|apply total_ret].
  apply total_bind; [apply time_total|]. intros na _. apply expect_total; [done|]. clear e He. intros sv e He. apply total_bind; [apply extract_cn_total|]. intros c _.
  apply expect_total; [done|]. clear e He. intros ? e He. destruct (skip_unique_ids_total (length (ddata e)) e He) as (e1 & -> & He1); [lia|]. cbn [mbind fout_bind].
  destruct (peek_tag_total e1) as (q & -> & _). cbn [mbind fout_bind]. case_bool_decide; [|apply total_ret].
  destruct (next_tlv_total e1 He1) as (z & e2 & -> & _). cbn [mbind fout_bind]. destruct z as [[? xv]|]; [|apply total_ret].
  apply total_bind; [apply parse_extensions_total|]. intros ? _. apply total_ret.
Qed.

Lemma dns_name_match_total p h : total (dns_name_match p h).
Proof.
  unfold dns_name_match. case_bool_decide as E; [|apply total_ret]. assert (2 <= length p)%nat by (destruct p as [|a [|b p]]; cbn in *; [done..|lia]).
  rewrite subslice_some by lia. cbn [mbind fout_bind]. destruct (find_byte 46 h) as [k|] eqn:Ek; [|apply total_ret].
  apply find_byte_spec in Ek as (a & r & -> & _ & ->). rewrite length_app. cbn [length].
  rewrite subslice_some by (rewrite length_app; cbn; lia). apply total_ret.
Qed.

Lemma hostname_match_total info h : total (hostname_match info h).
Proof.
  unfold hostname_match. destruct (san info) as [|n l]; [destruct (cn info); [apply dns_name_match_total|apply total_ret]|]. generalize (n :: l). clear.
  intros l. induction l as [|n l IH]; cbn [any_name_match]; [apply total_ret|]. apply total_bind; [apply dns_name_match_total|]. intros [] _; [apply total_ret|done].
Qed.

Lemma u24_total l i : (i + 3 <= length l)%nat -> total (u24_at l i).
Proof. intros H. unfold u24_at. do 3 (apply total_bind; [apply byte_at_some; lia|intros ? _]). apply total_ret. Qed.

(** C19: the check of a certificate message answers, whatever the bytes are: no message,
    host name or time makes it index out of range or loop. *)
Theorem verify_cert_total now msg host : exists b, verify_cert_chain now msg host = Got b.
Proof.
  fold (total (verify_cert_chain now msg host)). unfold verify_cert_chain. destruct (Nat.ltb_spec (length msg) 4); [apply total_ret|].
  apply total_bind; [apply byte_at_some; lia|]. intros c _. destruct (Nat.ltb_spec (length msg) (1 + Z.to_nat c + 3)); [apply total_ret|].
  apply total_bind; [apply u24_total; lia|]. intros ll _. destruct (Nat.ltb_spec (length msg) (1 + Z.to_nat c + 3 + Z.to_nat ll)); [apply total_ret|].
  destruct (Nat.ltb_spec (1 + Z.to_nat c + 3 + Z.to_nat ll) (1 + Z.to_nat c + 3 + 3)); [apply total_ret|].
  apply total_bind; [apply u24_total; lia|]. intros cl _. destruct (Nat.ltb_spec (1 + Z.to_nat c + 3 + Z.to_nat ll) (1 + Z.to_nat c + 3 + 3 + Z.to_nat cl)); [apply total_ret|].
  rewrite subslice_some by lia. cbn [mbind fout_bind]. apply total_bind; [apply parse_cert_total|]. intros [info|] _; [|apply total_ret].
  destruct (negb _); [apply total_ret|apply hostname_match_total].
Qed.
