(* ===== verification/X509Encode.v ===== *)
(** * What the certificate check accepts

    The standard encoding of certificates, and the parser on it: the check accepts
    exactly the hosts that the names of the certificate cover, in its validity. *)

From stdpp Require Import base numbers list.
From Stdlib Require Import ZArith Lia Bool.
From S2P Require Import Prelude Sector Text NetState NetFrames X509 X509Proofs.

(** ** Elements *)

(** The shortest encoding of a length. *)
Definition len_code (n : Z) : list Z :=
  if n <? 128 then [n]
  else if n <? 2 ^ 8 then 0x81 :: to_be_bytes 1 n
  else if n <? 2 ^ 16 then 0x82 :: to_be_bytes 2 n
  else if n <? 2 ^ 24 then 0x83 :: to_be_bytes 3 n
  else 0x84 :: to_be_bytes 4 n.
Definition tlv (t : Z) (v : list Z) : list Z := t :: len_code (Z.of_nat (length v)) ++ v.

Definition short (l : list Z) : Prop := Z.of_nat (length l) < 2 ^ 32.

Lemma short_app a b : short (a ++ b) -> short a /\ short b.
Proof. unfold short. rewrite length_app. lia. Qed.
Lemma short_tlv t v : short (tlv t v) -> short v.
Proof. unfold tlv, short. cbn [length]. rewrite length_app. lia. Qed.
Lemma short_concat ls l : short (concat ls) -> l ∈ ls -> short l.
Proof. intros H Hin. induction Hin as [x ls|x y ls _ IH]; cbn in H; apply short_app in H as [? ?]; auto. Qed.

Lemma left_cons d b r : left d = b :: r -> ddata d !! dpos d = Some b /\ (dpos d < length (ddata d))%nat /\ left (mk_der (ddata d) (dpos d + 1)) = r.
Proof.
  unfold left. cbn [ddata dpos]. intros H. assert (Hl : ddata d !! dpos d = Some b).
  { pose proof (lookup_drop (ddata d) (dpos d) 0) as E. rewrite H, Nat.add_0_r in E. by rewrite <- E. }
  split; [done|]. split; [by eapply lookup_lt_Some|]. rewrite <- drop_drop, H. done.
Qed.

Lemma left_app d a r : left d = a ++ r -> (dpos d + length a <= length (ddata d))%nat \/ a = [].
Proof.
  intros H. destruct a as [|x a]; [by right|]. left. assert (Hlen : length (left d) = length ((x :: a) ++ r)) by (by rewrite H).
  unfold left in Hlen. rewrite length_drop, length_app in Hlen. cbn [length] in *. lia.
Qed.

Lemma be_fold l acc : foldl (fun a b => a * 256 + b) acc l = acc * 256 ^ Z.of_nat (length l) + be_bytes l.
Proof.
  induction l as [|x l IH] using rev_ind; [unfold be_bytes; cbn; lia|]. rewrite foldl_app. cbn [foldl]. rewrite IH.
  unfold be_bytes. rewrite reverse_app, length_app. cbn [length reverse app rev_append le_bytes]. change (reverse [x]) with [x]. cbn [app le_bytes].
  rewrite Nat2Z.inj_add, Z.pow_add_r by lia. change (256 ^ Z.of_nat 1) with 256. lia.
Qed.

Lemma lor_byte a b : 0 <= a < 2 ^ 56 -> is_u8 b -> Z.lor (as_u64 (Z.shiftl a 8)) b = a * 256 + b.
Proof.
  intros Ha Hb. unfold is_u8 in Hb. rewrite Z.shiftl_mul_pow2 by lia. rewrite as_u64_small by (unfold is_u64; lia).
  rewrite Z.lor_comm, lor_high by lia. lia.
Qed.

Lemma len_bytes_left l acc d r : left d = l ++ r -> Forall is_u8 l -> 0 <= acc -> (acc + 1) * 256 ^ Z.of_nat (length l) <= 2 ^ 56 ->
  exists d', len_bytes (length l) acc d = Got (foldl (fun a b => a * 256 + b) acc l, d') /\ left d' = r /\ ddata d' = ddata d.
Proof.
  revert acc d. induction l as [|b l IH]; intros acc d Hd Hl Ha Hb; [by exists d|]. apply Forall_cons in Hl as [Hb8 Hl]. cbn [app] in Hd.
  destruct (left_cons d b (l ++ r) Hd) as (Hlk & _ & Hr). cbn [length len_bytes foldl]. unfold byte_at, at_idx. rewrite Hlk. cbn [mbind fout_bind].
  cbn [length] in Hb. rewrite Nat2Z.inj_succ, Z.pow_succ_r in Hb by lia.
  assert (0 < 256 ^ Z.of_nat (length l)) by (apply Z.pow_pos_nonneg; lia). unfold is_u8 in Hb8.
  rewrite lor_byte; [|nia|done]. destruct (IH (acc * 256 + b) _ Hr Hl ltac:(lia) ltac:(nia)) as (d' & -> & Hl' & Hdd). by exists d'.
Qed.

Lemma read_len_code d n r : 0 <= n < 2 ^ 32 -> left d = len_code n ++ r -> exists d', read_len d = Got (Some n, d') /\ left d' = r /\ ddata d' = ddata d.
Proof.
  intros Hn Hd. unfold len_code in Hd.
  assert (Hlong : forall k m, (0 < k <= 4)%nat -> n < 256 ^ Z.of_nat k -> left d = m :: to_be_bytes k n ++ r -> m = 0x80 + Z.of_nat k ->
    exists d', read_len d = Got (Some n, d') /\ left d' = r /\ ddata d' = ddata d).
  { intros k m Hk Hnk Hd' ->. destruct (left_cons _ _ _ Hd') as (Hlk & Hlt & Hr). unfold read_len. rewrite (proj2 (Nat.leb_gt _ _)) by lia. unfold byte_at, at_idx. rewrite Hlk.
    cbn [mbind fout_bind]. rewrite (proj2 (Z.ltb_ge _ _)) by lia.
    assert (Z.to_nat (Z.land (128 + Z.of_nat k) 127) = k) as -> by (assert (k = 1 \/ k = 2 \/ k = 3 \/ k = 4)%nat as [-> | [-> | [-> | ->]]] by lia; reflexivity).
    rewrite (proj2 (Nat.eqb_neq k 0)), (proj2 (Nat.ltb_ge 4 k)) by lia. cbn [orb ddata dpos].
    destruct (left_app _ _ _ Hr) as [Hfit|He]; [|apply (f_equal length) in He; rewrite length_to_be_bytes in He; cbn in He; lia]. cbn [ddata dpos] in Hfit. rewrite length_to_be_bytes in Hfit.
    rewrite (proj2 (Nat.ltb_ge _ _)) by lia. destruct (len_bytes_left (to_be_bytes k n) 0 _ r Hr) as (d' & He & Hl' & Hdd); [apply to_be_bytes_u8|lia| |].
    { rewrite length_to_be_bytes. assert (256 ^ Z.of_nat k <= 256 ^ 4) as Hp by (apply Z.pow_le_mono_r; lia).
      change (0 + 1) with 1. rewrite Z.mul_1_l. etrans; [exact Hp|done]. }
    rewrite length_to_be_bytes in He. rewrite He. cbn [mbind fout_bind]. exists d'. split; [|done]. rewrite be_fold, be_to_be_bytes.
    rewrite Z.mod_small by lia. done. }
  destruct (Z.ltb_spec n 128).
  { destruct (left_cons _ _ _ Hd) as (Hlk & Hlt & Hr). unfold read_len. rewrite (proj2 (Nat.leb_gt _ _)) by lia. unfold byte_at, at_idx. rewrite Hlk. cbn [mbind fout_bind].
    rewrite (proj2 (Z.ltb_lt _ _)) by lia. by eexists. }
  destruct (Z.ltb_spec n (2 ^ 8)); [by apply (Hlong 1%nat 0x81); [lia|done|..]|].
  destruct (Z.ltb_spec n (2 ^ 16)); [by apply (Hlong 2%nat 0x82); [lia|done|..]|].
  destruct (Z.ltb_spec n (2 ^ 24)); [by apply (Hlong 3%nat 0x83); [lia|done|..]|]. by apply (Hlong 4%nat 0x84); [lia|lia|..].
Qed.

Lemma next_tlv_left d t v r : short v -> left d = tlv t v ++ r -> exists d', next_tlv d = Got (Some (t, v), d') /\ left d' = r /\ ddata d' = ddata d.
Proof.
  intros Hs Hd. unfold tlv in Hd. cbn [app] in Hd. destruct (left_cons _ _ _ Hd) as (Hlk & Hlt & Hr). unfold next_tlv. rewrite (proj2 (Nat.leb_gt _ _)) by lia.
  unfold byte_at, at_idx. rewrite Hlk. cbn [mbind fout_bind]. rewrite <- app_assoc in Hr. assert (Hn : 0 <= Z.of_nat (length v) < 2 ^ 32) by (unfold short in Hs; lia).
  destruct (read_len_code _ _ _ Hn Hr) as (d1 & E1 & Hl1 & Hdd).
  destruct (read_len_total (mk_der (ddata d) (dpos d + 1))) as (o2 & d2 & E2 & B); [unfold inside; cbn; lia|]. rewrite E1 in E2. injection E2 as <- <-. apply beyond_inside in B. unfold inside in B.
  rewrite E1. cbn [mbind fout_bind ddata] in *. assert (Hlen : length (left d1) = length (v ++ r)) by (by rewrite Hl1).
  unfold left in Hlen. rewrite length_drop, length_app in Hlen. rewrite (proj2 (Z.ltb_ge _ _)) by lia. rewrite Nat2Z.id, subslice_some by lia. cbn [mbind fout_bind].
  exists (mk_der (ddata d1) (dpos d1 + length v)). split; [|split; [|exact Hdd]].
  - fold (left d1). rewrite Hl1, take_app_length' by lia. reflexivity.
  - unfold left in *. cbn [ddata dpos]. rewrite <- drop_drop, Hl1. by apply drop_app_length'.
Qed.

Lemma remaining_nil d : left d = [] -> remaining d = false.
Proof. unfold left, remaining. intros H. apply (f_equal length) in H. rewrite length_drop in H. cbn in H. apply Nat.ltb_ge. lia. Qed.
Lemma remaining_tlv d t v r : left d = tlv t v ++ r -> remaining d = true.
Proof. intros H. apply remaining_true. by destruct (left_cons d t _ H) as (_ & ? & _). Qed.

Lemma peek_tag_nil d : left d = [] -> peek_tag d = Got None.
Proof. intros H%remaining_nil. unfold peek_tag. fold (remaining d). by rewrite H. Qed.
Lemma peek_tag_tlv d t v r : left d = tlv t v ++ r -> peek_tag d = Got (Some t).
Proof.
  intros H. pose proof (remaining_tlv d t v r H) as Hr. unfold peek_tag. fold (remaining d). rewrite Hr. destruct (left_cons d t _ H) as (Hl & _). unfold byte_at, at_idx. by rewrite Hl.
Qed.

Lemma left_new l : left (Der_new l) = l.
Proof. done. Qed.

Lemma length_tlv t v : (length (tlv t v) = S (length (len_code (Z.of_nat (length v))) + length v))%nat.
Proof. unfold tlv. cbn. by rewrite length_app. Qed.

(** One element read: the walker afterwards. *)
Ltac reads H :=
  let d' := fresh "d" in let E := fresh "E" in let L := fresh "L" in let K := fresh "K" in
  destruct (fun hs => next_tlv_left _ _ _ _ hs H) as (d' & E & L & K); [|rewrite E; cbn [mbind fout_bind]].

(** ** Certificates *)

Record attribute := mk_attr { at_oid : list Z; at_tag : Z; at_value : list Z }.
Definition attr_bytes (a : attribute) : list Z := tlv 0x30 (tlv 0x06 (at_oid a) ++ tlv (at_tag a) (at_value a)).
Definition rdn_bytes (l : list attribute) : list Z := tlv 0x31 (concat (attr_bytes <$> l)).

Inductive extn :=
| SubjectAltName (critical : bool) (names : list (Z * list Z))
| OtherExtn (oid : list Z) (critical : bool) (value : list Z).
Definition names_bytes (names : list (Z * list Z)) : list Z := concat ((fun n => tlv n.1 n.2) <$> names).
Definition extn_oid (e : extn) : list Z := match e with SubjectAltName _ _ => OID_SAN | OtherExtn oid _ _ => oid end.
Definition extn_critical (e : extn) : bool := match e with SubjectAltName c _ | OtherExtn _ c _ => c end.
Definition extn_value (e : extn) : list Z := match e with SubjectAltName _ names => tlv 0x30 (names_bytes names) | OtherExtn _ _ v => v end.
Definition extn_bytes (e : extn) : list Z :=
  tlv 0x30 (tlv 0x06 (extn_oid e) ++ (if extn_critical e then tlv 0x01 [255] else []) ++ tlv 0x04 (extn_value e)).
Definition extn_ok (e : extn) : Prop := match e with SubjectAltName _ _ => True | OtherExtn oid _ _ => oid <> OID_SAN end.

(** A time: UTCTime has a year of two digits, GeneralizedTime of four. *)
Record clock := mk_clock { k_year : Z; k_mon : Z; k_day : Z; k_hour : Z; k_min : Z; k_sec : Z }.
Inductive time := UtcTime (k : clock) | GeneralizedTime (k : clock).
Definition two (n : Z) : list Z := [48 + n / 10; 48 + n mod 10].
Definition clock_bytes (k : clock) : list Z := two (k_mon k) ++ two (k_day k) ++ two (k_hour k) ++ two (k_min k) ++ two (k_sec k) ++ [90].
Definition time_bytes (t : time) : list Z :=
  match t with
  | UtcTime k => tlv 0x17 (two (k_year k mod 100) ++ clock_bytes k)
  | GeneralizedTime k => tlv 0x18 (two (k_year k / 100) ++ two (k_year k mod 100) ++ clock_bytes k)
  end.
Definition clock_of (t : time) : clock := match t with UtcTime k | GeneralizedTime k => k end.
Definition two_digits (n : Z) : Prop := 0 <= n < 100.
Definition time_ok (t : time) : Prop :=
  let k := clock_of t in
  two_digits (k_mon k) /\ two_digits (k_day k) /\ two_digits (k_hour k) /\ two_digits (k_min k) /\ two_digits (k_sec k) /\
  match t with UtcTime k => 1950 <= k_year k < 2050 | GeneralizedTime k => 0 <= k_year k < 10000 end.
Definition unix_of (t : time) : Z :=
  let k := clock_of t in ymd_hms_to_unix (k_year k) (k_mon k) (k_day k) (k_hour k) (k_min k) (k_sec k).

Record certificate := mk_certificate {
  c_version : option (list Z);
  c_serial : list Z;
  c_sigalg : list Z;
  c_issuer : list Z;
  c_from : time;
  c_to : time;
  c_subject : list (list attribute);
  c_spki : list Z;
  c_ids : list (Z * list Z);
  c_extns : option (list extn);
  c_signature : list Z;
}.

Definition tbs_bytes (c : certificate) : list Z :=
  match c_version c with Some v => tlv 0xA0 v | None => [] end ++
  tlv 0x02 (c_serial c) ++ tlv 0x30 (c_sigalg c) ++ tlv 0x30 (c_issuer c) ++ tlv 0x30 (time_bytes (c_from c) ++ time_bytes (c_to c)) ++
  tlv 0x30 (concat (rdn_bytes <$> c_subject c)) ++ tlv 0x30 (c_spki c) ++ names_bytes (c_ids c) ++
  match c_extns c with Some es => tlv 0xA3 (tlv 0x30 (concat (extn_bytes <$> es))) | None => [] end.
Definition cert_bytes (c : certificate) : list Z := tlv 0x30 (tlv 0x30 (tbs_bytes c) ++ c_signature c).

Record cert_ok (c : certificate) : Prop := {
  ck_short : short (cert_bytes c);
  ck_from : time_ok (c_from c);
  ck_to : time_ok (c_to c);
  ck_ids : Forall (fun n => n.1 <> 0xA3) (c_ids c);
  ck_extns : Forall extn_ok (default [] (c_extns c));
}.

(** What the certificate says. *)
Definition is_cn (a : attribute) : bool := bool_decide (at_oid a = OID_CN) && is_string_tag (at_tag a).
Definition common_name (c : certificate) : option (list Z) := at_value <$> List.find is_cn (concat (c_subject c)).
Definition dns_names (names : list (Z * list Z)) : list (list Z) := snd <$> List.filter (fun n => n.1 =? 0x82) names.
Definition extn_names (e : extn) : list (list Z) := match e with SubjectAltName _ names => dns_names names | OtherExtn _ _ _ => [] end.
Definition alt_names (c : certificate) : list (list Z) := concat (extn_names <$> default [] (c_extns c)).

(** ** The parser on them *)

Lemma cn_attributes_spec n d (attrs : list attribute) : left d = concat (attr_bytes <$> attrs) -> short (left d) -> (length (left d) <= n)%nat ->
  cn_attributes n d = Got ((fun a => Some (at_value a)) <$> List.find is_cn attrs).
Proof.
  revert d attrs. induction n as [|n IH]; intros d attrs Hd Hs Hn; destruct attrs as [|a attrs]; cbn [fmap list_fmap concat] in Hd; cbn [cn_attributes].
  - by rewrite (remaining_nil d Hd).
  - exfalso. rewrite Hd, length_app in Hn. unfold attr_bytes in Hn. rewrite length_tlv in Hn. lia.
  - by rewrite (remaining_nil d Hd).
  - unfold attr_bytes at 1 in Hd. rewrite Hd in Hs, Hn. apply short_app in Hs as [Hsa Hs]. apply short_tlv in Hsa. pose proof (short_app _ _ Hsa) as [Hso Hsv].
    apply short_tlv in Hso, Hsv. rewrite (remaining_tlv _ _ _ _ Hd). reads Hd; [done|].
    assert (Hrec : cn_attributes n d0 = Got ((fun a => Some (at_value a)) <$> List.find is_cn attrs)).
    { apply IH; [done|by rewrite L|]. rewrite L. rewrite length_app, length_tlv in Hn. lia. }
    cbn [Z.eqb Pos.eqb negb]. pose proof (left_new (tlv 6 (at_oid a) ++ tlv (at_tag a) (at_value a))) as Ho. reads Ho; [done|]. cbn [Z.eqb Pos.eqb negb List.find].
    unfold is_cn. case_bool_decide; cbn [negb andb]; [|exact Hrec]. rewrite <- (app_nil_r (tlv (at_tag a) (at_value a))) in L0. reads L0; [done|].
    destruct (is_string_tag (at_tag a)); [done|exact Hrec].
Qed.

Lemma cn_names_spec n d (rdns : list (list attribute)) : left d = concat (rdn_bytes <$> rdns) -> short (left d) -> (length (left d) <= n)%nat ->
  cn_names n d = Got (at_value <$> List.find is_cn (concat rdns)).
Proof.
  revert d rdns. induction n as [|n IH]; intros d rdns Hd Hs Hn; destruct rdns as [|a rdns]; cbn [fmap list_fmap concat] in Hd; cbn [cn_names].
  - by rewrite (remaining_nil d Hd).
  - exfalso. rewrite Hd, length_app in Hn. unfold rdn_bytes in Hn. rewrite length_tlv in Hn. lia.
  - by rewrite (remaining_nil d Hd).
  - unfold rdn_bytes at 1 in Hd. rewrite Hd in Hs, Hn. apply short_app in Hs as [Hsa Hs]. apply short_tlv in Hsa. rewrite (remaining_tlv _ _ _ _ Hd). reads Hd; [done|].
    cbn [Z.eqb Pos.eqb negb]. rewrite (cn_attributes_spec _ _ a) by done. cbn [mbind fout_bind concat]. rewrite find_app.
    destruct (List.find is_cn a); [done|]. cbn. apply IH; [done|by rewrite L|]. rewrite L. rewrite length_app, length_tlv in Hn. lia.
Qed.

Lemma dns_names_cons t v names : dns_names ((t, v) :: names) = (if t =? 0x82 then [v] else []) ++ dns_names names.
Proof. unfold dns_names. cbn. by destruct (t =? 130). Qed.

Lemma take_8_more {A} (acc l : list A) : (length acc <= 8)%nat -> ~ (length acc < 8)%nat -> take 8 (acc ++ l) = acc.
Proof. intros H1 H2. rewrite take_app_le by lia. by apply take_ge. Qed.

Lemma san_names_spec n d names acc : left d = names_bytes names -> short (left d) -> (length (left d) <= n)%nat -> (length acc <= 8)%nat ->
  san_names n d acc = Got (take 8 (acc ++ dns_names names)).
Proof.
  revert d names acc. induction n as [|n IH]; intros d names acc Hd Hs Hn Ha; destruct names as [|[t v] names]; unfold names_bytes in Hd; cbn [fmap list_fmap concat] in Hd; cbn [san_names].
  - rewrite (remaining_nil d Hd). cbn. by rewrite app_nil_r, take_ge.
  - exfalso. rewrite Hd, length_app, length_tlv in Hn. lia.
  - rewrite (remaining_nil d Hd). cbn. by rewrite app_nil_r, take_ge.
  - rewrite (remaining_tlv _ _ _ _ Hd). cbn [andb]. destruct (Nat.ltb_spec (length acc) 8); [|by rewrite take_8_more by lia].
    rewrite Hd in Hs, Hn. apply short_app in Hs as [Hsa Hs]. apply short_tlv in Hsa. reads Hd; [done|]. cbn [fst snd].
    rewrite (IH _ names); [|done|by rewrite L|rewrite L; rewrite length_app, length_tlv in Hn; lia|destruct (t =? 130); rewrite ?length_app; cbn; lia].
    rewrite dns_names_cons. destruct (t =? 130); [by rewrite <- app_assoc|done].
Qed.

Definition extn_body (e : extn) : list Z := tlv 0x06 (extn_oid e) ++ (if extn_critical e then tlv 0x01 [255] else []) ++ tlv 0x04 (extn_value e).

Lemma extension_spec e acc : extn_ok e -> short (extn_body e) -> (length acc <= 8)%nat -> extension (extn_body e) acc = Got (take 8 (acc ++ extn_names e)).
Proof.
  intros He Hs Ha. unfold extension. pose proof (left_new (extn_body e)) as Hd. pose proof Hs as Hs'. unfold extn_body in Hs', Hd at 2.
  apply short_app in Hs' as [Hso%short_tlv Hs']. apply short_app in Hs' as [Hsc Hsv%short_tlv]. reads Hd; [done|]. cbn [Z.eqb Pos.eqb negb].
  assert (exists d1, (p ← peek_tag d; (if bool_decide (p = Some 0x01) then skip d else mret d)) = Got d1 /\ left d1 = tlv 0x04 (extn_value e) ++ []) as (d1 & Hp & Hd1).
  { rewrite app_nil_r. destruct (extn_critical e).
    - rewrite (peek_tag_tlv _ _ _ _ L). cbn [mbind fout_bind]. rewrite bool_decide_eq_true_2 by done. unfold skip. reads L; [by apply short_tlv in Hsc|]. by eexists.
    - cbn [app] in L. rewrite <- (app_nil_r (tlv 4 _)) in L. rewrite (peek_tag_tlv _ _ _ _ L), app_nil_r in *. cbn [mbind fout_bind]. by eexists. }
  destruct (peek_tag d) as [p| |]; [|done..]. cbn [mbind fout_bind] in *. rewrite Hp. cbn [mbind fout_bind]. reads Hd1; [done|]. cbn [Z.eqb Pos.eqb negb].
  destruct e as [c names|oid c v]; cbn [extn_oid extn_value extn_names extn_ok] in *.
  - rewrite bool_decide_eq_true_2 by done. unfold extract_san. pose proof (left_new (tlv 48 (names_bytes names))) as Hn. rewrite <- (app_nil_r (tlv 48 _)) in Hn at 2.
    apply short_tlv in Hsv. reads Hn; [done|]. cbn [Z.eqb Pos.eqb negb]. by apply san_names_spec.
  - rewrite bool_decide_eq_false_2 by done. rewrite app_nil_r. by rewrite take_ge.
Qed.

Lemma extensions_spec n d es acc : left d = concat (extn_bytes <$> es) -> short (left d) -> (length (left d) <= n)%nat -> (length acc <= 8)%nat -> Forall extn_ok es ->
  extensions n d acc = Got (take 8 (acc ++ concat (extn_names <$> es))).
Proof.
  revert d es acc. induction n as [|n IH]; intros d es acc Hd Hs Hn Ha Hok; destruct es as [|e es]; cbn [fmap list_fmap concat] in Hd; cbn [extensions].
  - rewrite (remaining_nil d Hd). cbn. by rewrite app_nil_r, take_ge.
  - exfalso. rewrite Hd, length_app in Hn. unfold extn_bytes in Hn. rewrite length_tlv in Hn. lia.
  - rewrite (remaining_nil d Hd). cbn. by rewrite app_nil_r, take_ge.
  - change (extn_bytes e) with (tlv 0x30 (extn_body e)) in Hd. apply Forall_cons in Hok as [He Hok]. rewrite (remaining_tlv _ _ _ _ Hd).
    rewrite Hd in Hs, Hn. apply short_app in Hs as [Hsa%short_tlv Hs]. reads Hd; [done|]. cbn [Z.eqb Pos.eqb negb]. rewrite extension_spec by done. cbn [mbind fout_bind].
    rewrite (IH _ es); [|done|by rewrite L|rewrite L; rewrite length_app, length_tlv in Hn; lia|rewrite length_take; lia|done].
    cbn [fmap list_fmap concat]. f_equal. rewrite app_assoc. generalize (acc ++ extn_names e). intros l. destruct (decide (length l <= 8)%nat); [by rewrite (take_ge l) by lia|].
    rewrite take_8_more by (rewrite length_take; lia). by rewrite take_app_le by lia.
Qed.

(** *** Times *)

Lemma digits_two v i a x : two_digits a -> take 2 (drop i v) = two a -> digits_at v i x = Got a.
Proof.
  intros Ha H. unfold digits_at, byte_at, at_idx. assert (v !! i = Some (48 + a / 10)) as ->.
  { pose proof (lookup_take_lt (drop i v) 2 0 ltac:(lia)) as E. rewrite H, lookup_drop, Nat.add_0_r in E. by rewrite <- E. }
  assert (v !! (i + 1)%nat = Some (48 + a mod 10)) as ->.
  { pose proof (lookup_take_lt (drop i v) 2 1 ltac:(lia)) as E. rewrite H, lookup_drop in E. by rewrite <- E. }
  cbn [mbind fout_bind]. unfold parse2, is_digit, two_digits in *. pose proof (Z.div_mod a 10). pose proof (Z.mod_pos_bound a 10).
  assert (0 <= a / 10 < 10) by (split; [apply Z.div_pos; lia|apply Z.div_lt_upper_bound; lia]).
  rewrite !(proj2 (Z.leb_le _ _)) by lia. cbn. unfold mret, fout_ret. f_equal. lia.
Qed.

Lemma time_spec t v : time_ok t -> time_bytes t = v ->
  exists tag body, v = tlv tag body /\ (length body < 128)%nat /\ forall x, (if tag =? 0x17 then parse_utctime body else if tag =? 0x18 then parse_gentime body else mret x) = Got (unix_of t).
Proof.
  intros (H1 & H2 & H3 & H4 & H5 & Hy) <-. destruct t as [k|k]; cbn [clock_of time_bytes] in *; (eexists _, _; split; [reflexivity|]; split; [unfold clock_bytes, two; cbn; lia|]; intros x).
  - cbn [Z.eqb Pos.eqb]. unfold parse_utctime. change (length _ <? 13)%nat with false. cbv iota. assert (two_digits (k_year k mod 100)) by (apply Z.mod_pos_bound; lia).
    do 6 (erewrite digits_two; [cbn [mbind fout_bind]| |reflexivity]; [|done]). unfold unix_of, mret, fout_ret. cbn [clock_of]. f_equal. f_equal.
    pose proof (Z.div_mod (k_year k) 100 ltac:(lia)). unfold two_digits in *. destruct (Z.leb_spec (k_year k mod 100) 49); lia.
  - cbn [Z.eqb Pos.eqb]. unfold parse_gentime. change (length _ <? 15)%nat with false. cbv iota. assert (two_digits (k_year k mod 100)) by (apply Z.mod_pos_bound; lia).
    assert (two_digits (k_year k / 100)) by (unfold two_digits; split; [apply Z.div_pos; lia|apply Z.div_lt_upper_bound; lia]).
    do 7 (erewrite digits_two; [cbn [mbind fout_bind]| |reflexivity]; [|done]). unfold unix_of, mret, fout_ret. cbn [clock_of]. f_equal. f_equal.
    pose proof (Z.div_mod (k_year k) 100 ltac:(lia)). lia.
Qed.

(** *** The certificate *)

Lemma expect_left {A} t v d r (k : list Z -> Der -> fout (option A)) : short v -> left d = tlv t v ++ r ->
  exists d', expect t d k = k v d' /\ left d' = r.
Proof. intros Hs Hd. unfold expect. reads Hd; [done|]. rewrite Z.eqb_refl. by exists d0. Qed.

Lemma skip_left d t v r : short v -> left d = tlv t v ++ r -> exists d', skip d = Got d' /\ left d' = r.
Proof. intros Hs Hd. unfold skip. reads Hd; [done|]. by exists d0. Qed.

Lemma skip_unique_ids_spec n d ids r : left d = names_bytes ids ++ r -> (r = [] \/ exists v, r = tlv 0xA3 v) -> short (names_bytes ids) ->
  Forall (fun x => x.1 <> 0xA3) ids -> (length (left d) <= n)%nat -> exists d', skip_unique_ids n d = Got d' /\ left d' = r.
Proof.
  intros Hd Hr. revert d ids Hd. induction n as [|n IH]; intros d ids Hd Hs Hok Hn; destruct ids as [|[t v] ids]; unfold names_bytes in *; cbn [fmap list_fmap concat] in *.
  1, 3: cbn [app skip_unique_ids] in *; destruct Hr as [->|[v ->]]; [rewrite (peek_tag_nil d Hd); by exists d|];
    rewrite <- (app_nil_r (tlv 163 v)) in Hd; rewrite (peek_tag_tlv _ _ _ _ Hd), app_nil_r in *; by exists d.
  - rewrite Hd, !length_app, length_tlv in Hn. lia.
  - rewrite <- app_assoc in Hd. cbn [skip_unique_ids]. rewrite (peek_tag_tlv _ _ _ _ Hd). cbn [mbind fout_bind fst snd] in *. apply Forall_cons in Hok as [Ht Hok]. cbn [fst] in Ht.
    destruct (Z.eqb_spec t 163); [done|]. apply short_app in Hs as [Hv%short_tlv Hs]. destruct (skip_left _ _ _ _ Hv Hd) as (d1 & -> & L). cbn [mbind fout_bind].
    apply (IH d1 ids); [done|done|done|]. rewrite L. rewrite Hd, length_app, length_tlv in Hn. lia.
Qed.

Lemma version_left ver r : (forall v, ver = Some v -> short v) -> (exists v r', r = tlv 0x02 v ++ r') ->
  let tbs := Der_new (match ver with Some v => tlv 0xA0 v | None => [] end ++ r) in
  exists d, (p ← peek_tag tbs; (if bool_decide (p = Some 0xA0) then skip tbs else mret tbs)) = Got d /\ left d = r.
Proof.
  intros Hs (v & r' & Hr) tbs. destruct ver as [w|].
  - assert (Hd : left tbs = tlv 0xA0 w ++ r) by done. rewrite (peek_tag_tlv _ _ _ _ Hd). cbn [mbind fout_bind]. rewrite bool_decide_eq_true_2 by done.
    by destruct (skip_left _ _ _ _ (Hs w eq_refl) Hd) as (d & -> & L); exists d.
  - assert (Hd : left tbs = tlv 0x02 v ++ r') by done. rewrite (peek_tag_tlv _ _ _ _ Hd). by exists tbs.
Qed.

Lemma validity_spec c : time_ok (c_from c) -> time_ok (c_to c) ->
  forall A (k : Z -> Z -> fout (option A)),
  ('(x, validity) ← next_tlv (Der_new (time_bytes (c_from c) ++ time_bytes (c_to c)));
   match x with
   | None => mret None
   | Some (t_nb, nb_val) =>
       not_before ← (if t_nb =? 0x17 then parse_utctime nb_val else if t_nb =? 0x18 then parse_gentime nb_val else mret 0);
       '(y, _) ← next_tlv validity;
       match y with
       | None => mret None
       | Some (t_na, na_val) =>
           not_after ← (if t_na =? 0x17 then parse_utctime na_val else if t_na =? 0x18 then parse_gentime na_val else mret (2 ^ 64 - 1));
           k not_before not_after
       end
   end) = k (unix_of (c_from c)) (unix_of (c_to c)).
Proof.
  intros Hf Ht A k. destruct (time_spec _ _ Hf eq_refl) as (tf & bf & Ef & Lf & Pf), (time_spec _ _ Ht eq_refl) as (tt & bt & Et & Lt & Pt). rewrite Ef, Et.
  pose proof (left_new (tlv tf bf ++ tlv tt bt)) as Hd. reads Hd; [unfold short; lia|]. rewrite Pf. cbn [mbind fout_bind].
  rewrite <- (app_nil_r (tlv tt bt)) in L. reads L; [unfold short; lia|]. rewrite Pt. done.
Qed.

Definition info_of (c : certificate) : CertInfo :=
  mk_cert (common_name c) (take 8 (alt_names c)) (unix_of (c_from c)) (unix_of (c_to c)).

Lemma extns_left d (es : option (list extn)) (info : list (list Z) -> CertInfo) : Forall extn_ok (default [] es) ->
  left d = match es with Some es => tlv 0xA3 (tlv 0x30 (concat (extn_bytes <$> es))) | None => [] end -> short (left d) ->
  (p ← peek_tag d;
   if bool_decide (p = Some 0xA3) then
     '(z, _) ← next_tlv d;
     match z with
     | None => mret None
     | Some (_, ext_val) => san ← parse_extensions ext_val []; mret (Some (info san))
     end
   else mret (Some (info []))) = Got (Some (info (take 8 (concat (extn_names <$> default [] es))))).
Proof.
  intros Hok Hd Hs. rewrite Hd in Hs. destruct es as [es|].
  - rewrite <- (app_nil_r (tlv 0xA3 _)) in Hd. rewrite (peek_tag_tlv _ _ _ _ Hd). cbn [mbind fout_bind]. rewrite bool_decide_eq_true_2 by done.
    apply short_tlv in Hs. reads Hd; [done|]. unfold parse_extensions. pose proof (left_new (tlv 48 (concat (extn_bytes <$> es)))) as Hx. rewrite <- (app_nil_r (tlv 48 _)) in Hx at 2.
    apply short_tlv in Hs. reads Hx; [done|]. cbn [Z.eqb Pos.eqb negb]. rewrite (extensions_spec _ _ es []); [done|done|done|done|cbn; lia|done].
  - rewrite (peek_tag_nil d Hd). cbn [mbind fout_bind]. rewrite bool_decide_eq_false_2 by done. done.
Qed.

(** The element [expect] waits for is there. *)
Ltac expects Hs Hd :=
  let d := fresh "d" in let L := fresh "L" in
  match goal with |- expect _ _ ?k = _ => destruct (expect_left _ _ _ _ k Hs Hd) as (d & -> & L) end.

Lemma parse_cert_bytes c : cert_ok c -> parse_cert (cert_bytes c) = Got (Some (info_of c)).
Proof.
  intros [Hs Hf Ht Hids Hx]. unfold parse_cert. pose proof (left_new (cert_bytes c)) as Hd. unfold cert_bytes in Hd at 2. rewrite <- (app_nil_r (tlv 48 _)) in Hd.
  apply short_tlv in Hs. expects Hs Hd. apply short_app in Hs as [Hs%short_tlv _]. pose proof (left_new (tlv 48 (tbs_bytes c) ++ c_signature c)) as Hd1. expects Hs Hd1.
  unfold tbs_bytes in Hs. apply short_app in Hs as [Hver Hs]. apply short_app in Hs as [S1%short_tlv Hs]. apply short_app in Hs as [S2%short_tlv Hs].
  apply short_app in Hs as [S3%short_tlv Hs]. apply short_app in Hs as [S4%short_tlv Hs]. apply short_app in Hs as [S5%short_tlv Hs]. apply short_app in Hs as [S6%short_tlv Hs].
  apply short_app in Hs as [S7 S8]. unfold tbs_bytes.
  destruct (version_left (c_version c) (tlv 0x02 (c_serial c) ++ tlv 0x30 (c_sigalg c) ++ tlv 0x30 (c_issuer c) ++ tlv 0x30 (time_bytes (c_from c) ++ time_bytes (c_to c)) ++
    tlv 0x30 (concat (rdn_bytes <$> c_subject c)) ++ tlv 0x30 (c_spki c) ++ names_bytes (c_ids c) ++
    match c_extns c with Some es => tlv 0xA3 (tlv 0x30 (concat (extn_bytes <$> es))) | None => [] end)) as (e & He & L1).
  { intros v E. rewrite E in Hver. by apply short_tlv in Hver. }
  { by eexists _, _. }
  destruct (peek_tag _) as [p| |]; [|done..]. cbn [mbind fout_bind] in He |- *. rewrite He. cbn [mbind fout_bind].
  expects S1 L1. expects S2 L2. expects S3 L3. expects S4 L4.
  rewrite (validity_spec c Hf Ht). expects S5 L5. unfold extract_cn. rewrite (cn_names_spec _ _ (c_subject c)); [|done|done|done]. cbn [mbind fout_bind].
  expects S6 L6. destruct (skip_unique_ids_spec (length (ddata d6)) d6 (c_ids c) _ L7) as (d7 & -> & L8); [destruct (c_extns c); [right; by eexists|by left]|done|done|unfold left; rewrite length_drop; lia|].
  cbn [mbind fout_bind]. refine (extns_left d7 (c_extns c) (fun san => mk_cert (common_name c) san (unix_of (c_from c)) (unix_of (c_to c))) Hx L8 _). by rewrite L8.
Qed.

(** ** Names that cover a host *)

(** A name covers itself in any case of letters; a star stands for the first label. *)
Inductive covers : list Z -> list Z -> Prop :=
| covers_same name host : take 2 name <> [42; 46] -> lower name = lower host -> covers name host
| covers_star suffix label rest : 46 ∉ label -> lower suffix = lower rest -> covers (42 :: 46 :: suffix) (label ++ 46 :: rest).

Lemma dns_name_match_covers p h : dns_name_match p h = Got true <-> covers p h.
Proof.
  unfold dns_name_match. case_bool_decide as E.
  - destruct p as [|a [|b p]]; [done..|]. cbn in E. injection E as -> ->. rewrite subslice_some by (cbn; lia). cbn [mbind fout_bind].
    assert (take (length (42 :: 46 :: p) - 2) (drop 2 (42 :: 46 :: p)) = p) as -> by (cbn; rewrite Nat.sub_0_r; by rewrite firstn_all). split.
    + destruct (find_byte 46 h) as [k|] eqn:Ek; [|done]. destruct (find_byte_spec 46 h k Ek) as (label & rest & -> & Hl & ->). rewrite subslice_some by (rewrite length_app; cbn; lia).
      cbn [mbind fout_bind]. intros [= Hm]. apply covers_star; [done|]. apply ascii_eq_ci_lower in Hm. rewrite Hm. f_equal.
      rewrite cons_middle, app_assoc, drop_app_length' by (by rewrite length_app). apply take_ge. rewrite !length_app. cbn. lia.
    + inversion 1 as [? ? Hn|? label rest Hl Hlow]; subst; [done|]. rewrite (find_byte_app 46 label rest Hl). rewrite subslice_some by (rewrite length_app; cbn; lia). cbn [mbind fout_bind].
      unfold mret, fout_ret. f_equal. apply ascii_eq_ci_lower. rewrite Hlow. f_equal. symmetry.
      rewrite cons_middle, app_assoc, drop_app_length' by (by rewrite length_app). apply take_ge. rewrite !length_app. cbn. lia.
  - split.
    + intros [= Hm]. apply covers_same; [done|by apply ascii_eq_ci_lower].
    + inversion 1; subst; [|done]. unfold mret, fout_ret. f_equal. by apply ascii_eq_ci_lower.
Qed.

Lemma any_name_match_covers names h : any_name_match names h = Got true <-> exists n, n ∈ names /\ covers n h.
Proof.
  induction names as [|n names IH]; cbn [any_name_match].
  { split; [done|]. intros (n & Hn & _). by apply elem_of_nil in Hn. }
  destruct (dns_name_match_total n h) as [b Hb]. pose proof (dns_name_match_covers n h) as Hc. rewrite Hb in Hc |- *. cbn [mbind fout_bind]. destruct b.
  - split; [|done]. intros _. exists n. split; [left|by apply Hc].
  - rewrite IH. split; [intros (m & Hm & ?); exists m; split; [by right|done]|].
    intros (m & [->|Hm]%elem_of_cons & Hcm); [by apply Hc in Hcm|]. by exists m.
Qed.

(** ** The message *)

Lemma u24_app pre n r : 0 <= n < 2 ^ 24 -> u24_at (pre ++ to_be_bytes 3 n ++ r) (length pre) = Got n.
Proof.
  intros Hn. assert (to_be_bytes 3 n = [n / 65536 mod 256; n / 256 mod 256; n mod 256]) as ->.
  { unfold to_be_bytes. cbn [to_le_bytes]. rewrite Z.div_div by lia. done. }
  unfold u24_at, byte_at, at_idx. cbn [app]. rewrite (list_lookup_middle pre _ _ _ eq_refl). cbn [mbind fout_bind app].
  assert ((pre ++ n / 65536 mod 256 :: n / 256 mod 256 :: n mod 256 :: r) !! (length pre + 1)%nat = Some (n / 256 mod 256)) as -> by (by rewrite lookup_app_r, Nat.add_comm, Nat.add_sub by lia).
  assert ((pre ++ n / 65536 mod 256 :: n / 256 mod 256 :: n mod 256 :: r) !! (length pre + 2)%nat = Some (n mod 256)) as -> by (by rewrite lookup_app_r, Nat.add_comm, Nat.add_sub by lia).
  cbn [mbind fout_bind]. unfold mret, fout_ret. f_equal. set (a := n / 65536 mod 256). set (b := n / 256 mod 256). set (c := n mod 256).
  assert (0 <= a < 256 /\ 0 <= b < 256 /\ 0 <= c < 256) as (? & ? & ?) by (subst a b c; split_and!; apply Z.mod_pos_bound; lia).
  rewrite !Z.shiftl_mul_pow2 by lia. rewrite (Z.lor_comm (a * _)), lor_high by lia. replace (b * 2 ^ 8 + a * 2 ^ 16) with ((b + a * 2 ^ 8) * 2 ^ 8) by lia.
  rewrite Z.lor_comm, lor_high by lia. subst a b c. pose proof (Z.div_mod n 256 ltac:(lia)). pose proof (Z.div_mod (n / 256) 256 ltac:(lia)).
  rewrite Z.div_div in * by lia. change (256 * 256) with 65536 in *. rewrite (Z.mod_small (n / 65536)); [lia|]. split; [apply Z.div_pos; lia|apply Z.div_lt_upper_bound; lia].
Qed.

(** The body of a TLS Certificate message: a context, then a list that starts with [der]. *)
Definition cert_entry (der more : list Z) : list Z := to_be_bytes 3 (Z.of_nat (length der)) ++ der ++ more.
Definition cert_message (context der more rest : list Z) : list Z :=
  (Z.of_nat (length context) :: context) ++ to_be_bytes 3 (Z.of_nat (length (cert_entry der more))) ++ cert_entry der more ++ rest.

(** The names that count: the first eight alternative names, or the common name. *)
Definition checked_names (c : certificate) : list (list Z) :=
  match alt_names c with [] => match common_name c with Some n => [n] | None => [] end | _ => take 8 (alt_names c) end.

Lemma verify_message now context der more rest host : Z.of_nat (length (cert_entry der more)) < 2 ^ 24 ->
  verify_cert_chain now (cert_message context der more rest) host =
    (info ← parse_cert der;
     match info with None => mret false | Some info => if negb (validity_ok now info) then mret false else hostname_match info host end).
Proof.
  intros Hl. unfold verify_cert_chain, cert_message. set (entry := cert_entry der more) in *. set (pre := Z.of_nat (length context) :: context).
  assert (Hp : length pre = S (length context)) by done. assert (He : (3 + length der <= length entry)%nat) by (unfold entry, cert_entry; rewrite !length_app, length_to_be_bytes; lia).
  set (msg := pre ++ _). assert (Hm : length msg = (length pre + 3 + length entry + length rest)%nat) by (unfold msg; rewrite !length_app, length_to_be_bytes; lia).
  rewrite (proj2 (Nat.ltb_ge _ 4)) by lia. change (byte_at msg 0) with (Got (Z.of_nat (length context))). cbn [mbind fout_bind]. rewrite Nat2Z.id.
  assert (Hmsg : msg = (pre ++ to_be_bytes 3 (Z.of_nat (length entry))) ++ to_be_bytes 3 (Z.of_nat (length der)) ++ der ++ more ++ rest).
  { unfold msg, entry, cert_entry. by rewrite <- !app_assoc. }
  assert (Hpos : (1 + length context + 3)%nat = length (pre ++ to_be_bytes 3 (Z.of_nat (length entry)))) by (rewrite length_app, length_to_be_bytes; lia).
  assert (U1 : u24_at msg (1 + length context) = Got (Z.of_nat (length entry))) by (apply (u24_app pre); lia).
  assert (U2 : u24_at msg (1 + length context + 3) = Got (Z.of_nat (length der))) by (rewrite Hpos, Hmsg; apply u24_app; lia).
  rewrite (proj2 (Nat.ltb_ge _ _)) by lia. rewrite U1. cbn [mbind fout_bind]. rewrite Nat2Z.id, (proj2 (Nat.ltb_ge _ _)) by lia. rewrite (proj2 (Nat.ltb_ge _ _)) by lia.
  rewrite U2. cbn [mbind fout_bind]. rewrite Nat2Z.id, (proj2 (Nat.ltb_ge _ _)) by lia. rewrite subslice_some by lia. cbn [mbind fout_bind].
  assert (drop (1 + length context + 3 + 3) msg = der ++ more ++ rest) as ->; [|by rewrite take_app_length' by lia].
  rewrite Hmsg, app_assoc, drop_app_length'; [done|]. rewrite length_app, <- Hpos, length_to_be_bytes. done.
Qed.

(** C18: what the check of a server certificate accepts.  On a Certificate message whose
    first certificate is the standard encoding of [c], with any issuer, extensions and
    further certificates, the check accepts a host exactly when the clock is not set or
    inside the validity of [c], and one of the names that count covers the host: itself
    in any case of letters, or with a star for its first label.  A common name does not
    count beside alternative names. *)
Theorem certificate_accepted_iff c now context more rest host : cert_ok c -> Z.of_nat (length (cert_entry (cert_bytes c) more)) < 2 ^ 24 ->
  verify_cert_chain now (cert_message context (cert_bytes c) more rest) host = Got true <->
  (now = 0 \/ unix_of (c_from c) <= now <= unix_of (c_to c)) /\ exists name, name ∈ checked_names c /\ covers name host.
Proof.
  intros Hc Hl. rewrite verify_message by done. rewrite parse_cert_bytes by done. cbn [mbind fout_bind].
  assert (Hv : validity_ok now (info_of c) = true <-> now = 0 \/ unix_of (c_from c) <= now <= unix_of (c_to c)).
  { unfold validity_ok, info_of. cbn [not_before not_after]. destruct (Z.eqb_spec now 0); [split; [by left|done]|]. rewrite andb_true_iff, !Z.leb_le. lia. }
  assert (Hh : hostname_match (info_of c) host = Got true <-> exists name, name ∈ checked_names c /\ covers name host).
  { unfold hostname_match, checked_names, info_of. cbn [san cn]. destruct (alt_names c) as [|n l]; [|apply any_name_match_covers].
    change (take 8 ([] : list (list Z))) with ([] : list (list Z)). cbv iota. destruct (common_name c) as [n|].
    - rewrite dns_name_match_covers. split; [intros; exists n; split; [left|done]|]. by intros (m & ->%list_elem_of_singleton & ?).
    - split; [done|]. intros (m & Hm & _). by apply elem_of_nil in Hm. }
  rewrite <- Hv, <- Hh. destruct (validity_ok now (info_of c)); cbn [negb]; [naive_solver|]. split; [done|]. by intros [? _].
Qed.

(** ** An example *)

(** A certificate for *.ab with validity from 2020 to 2049. *)
Definition sample_cert : certificate :=
  mk_certificate (Some [2; 1; 2]) [7] [6; 1; 42] [] (UtcTime (mk_clock 2020 1 1 0 0 0)) (UtcTime (mk_clock 2049 12 31 23 59 59))
    [[mk_attr OID_CN 0x0C [122]]] [1; 2; 3] [] (Some [OtherExtn [0x55; 0x1D; 0x0F] true [5]; SubjectAltName false [(0x82, [42; 46; 97; 98])]]) [3; 2; 0; 9].

Lemma certificate_accepted_iff_witness : verify_cert_chain 1600000000 (cert_message [] (cert_bytes sample_cert) [0; 0] []) [119; 46; 65; 66] = Got true.
Proof.
  apply (certificate_accepted_iff sample_cert 1600000000 [] [0; 0] [] [119; 46; 65; 66]).
  - split; [vm_compute; reflexivity|unfold time_ok, two_digits; cbn; lia..|constructor|]. repeat constructor. discriminate.
  - vm_compute. reflexivity.
  - split; [right; vm_compute; split; discriminate|]. exists [42; 46; 97; 98]. split; [left|]. apply (covers_star [97; 98] [119] [65; 66]); [|reflexivity].
    apply not_elem_of_cons. split; [discriminate|apply not_elem_of_nil].
Defined.
