(* ===== verification/X509Time.v ===== *)
(** * The time stamps of certificates

    The two loops of [ymd_hms_to_unix] against the closed form of the calendar. *)

From stdpp Require Import base numbers list.
From Stdlib Require Import ZArith Lia Bool.
From S2P Require Import Prelude Sector Text X509.

(** The days of the years before [y], of the months before [m] and the leap days up to year [n]. *)
Definition leap_days (n : Z) : Z := n / 4 - n / 100 + n / 400.
Definition days_before_year (y : Z) : Z := 365 * (y - 1970) + (leap_days (y - 1) - leap_days 1969).
Definition month_table : list Z := [0; 31; 59; 90; 120; 151; 181; 212; 243; 273; 304; 334].
Definition days_before_month (m y : Z) : Z := nth (Z.to_nat (m - 1)) month_table 0 + (if is_leap y && (2 <? m) then 1 else 0).

Lemma leap_step y : leap_days y - leap_days (y - 1) = if is_leap y then 1 else 0.
Proof.
  unfold leap_days, is_leap. assert (Hstep : forall n, 0 < n -> y / n - (y - 1) / n = if y mod n =? 0 then 1 else 0).
  { intros n Hn. pose proof (Z.div_mod y n ltac:(lia)). pose proof (Z.mod_pos_bound y n Hn). pose proof (Z.div_mod (y - 1) n ltac:(lia)). pose proof (Z.mod_pos_bound (y - 1) n Hn).
    destruct (Z.eqb_spec (y mod n) 0); nia. }
  pose proof (Hstep 4 ltac:(lia)). pose proof (Hstep 100 ltac:(lia)). pose proof (Hstep 400 ltac:(lia)).
  assert (y mod 400 = 0 -> y mod 100 = 0) by (intros E; apply Z.mod_divide in E as [k ->]; [|lia]; apply Z.mod_divide; [lia|]; exists (4 * k); lia).
  assert (y mod 100 = 0 -> y mod 4 = 0) by (intros E; apply Z.mod_divide in E as [k ->]; [|lia]; apply Z.mod_divide; [lia|]; exists (25 * k); lia).
  destruct (Z.eqb_spec (y mod 4) 0), (Z.eqb_spec (y mod 100) 0), (Z.eqb_spec (y mod 400) 0); cbn [andb orb negb]; try lia; tauto.
Qed.

(** A loop that adds small numbers does not wrap. *)
Lemma sum_loop (f : Z -> Z) l acc : Forall (fun x => 0 <= f x <= 366) l -> 0 <= acc -> acc + 366 * Z.of_nat (length l) < 2 ^ 64 ->
  foldl (fun a x => a +u f x) acc l = foldl (fun a x => a + f x) acc l /\ 0 <= foldl (fun a x => a + f x) acc l <= acc + 366 * Z.of_nat (length l).
Proof.
  revert acc. induction l as [|x l IH]; intros acc Hl Ha Hb; cbn [foldl length] in *; [lia|]. apply Forall_cons in Hl as [Hx Hl].
  rewrite as_u64_small by (unfold is_u64; lia). destruct (IH (acc + f x) Hl) as [-> ?]; [lia|lia|]. split; [done|lia].
Qed.

Lemma zrange_snoc a b : a <= b -> zrange a (b + 1) = zrange a b ++ [b].
Proof.
  intros H. unfold zrange. replace (Z.to_nat (b + 1 - a)) with (S (Z.to_nat (b - a))) by lia. rewrite seq_S, fmap_app. cbn. do 2 f_equal. lia.
Qed.

Lemma year_loop y : 1970 <= y -> foldl (fun days y => days + (if is_leap y then 366 else 365)) 0 (zrange 1970 y) = days_before_year y.
Proof.
  intros Hy. replace y with (1970 + Z.of_nat (Z.to_nat (y - 1970))) by lia. generalize (Z.to_nat (y - 1970)). clear. induction n as [|n IH]; [done|].
  replace (1970 + Z.of_nat (S n)) with (1970 + Z.of_nat n + 1) by lia. rewrite zrange_snoc, foldl_app, IH by lia. cbn [foldl]. set (y := 1970 + Z.of_nat n).
  unfold days_before_year. replace (y + 1 - 1) with y by lia. pose proof (leap_step y). destruct (is_leap y); lia.
Qed.

(** Closed subterms of the month loop, computed. *)
Ltac month_case :=
  match goal with |- context [zrange 1 ?b] => let r := eval vm_compute in (zrange 1 b) in change (zrange 1 b) with r end;
  match goal with |- context [nth ?k month_table 0] => let r := eval vm_compute in (nth k month_table 0) in change (nth k month_table 0) with r end;
  match goal with |- context [2 <? ?b] => let r := eval vm_compute in (2 <? b) in change (2 <? b) with r end.

Lemma month_loop acc m y : 1 <= m <= 12 -> foldl (fun days m => days + days_in_month m y) acc (zrange 1 m) = acc + days_before_month m y.
Proof.
  intros Hm. unfold days_before_month, days_in_month. generalize (is_leap y). intros b.
  assert (m = 1 \/ m = 2 \/ m = 3 \/ m = 4 \/ m = 5 \/ m = 6 \/ m = 7 \/ m = 8 \/ m = 9 \/ m = 10 \/ m = 11 \/ m = 12) as Hc by lia.
  repeat (destruct Hc as [-> | Hc]); try subst m; month_case; destruct b; cbn; lia.
Qed.

Lemma length_zrange a b : length (zrange a b) = Z.to_nat (b - a).
Proof. unfold zrange. by rewrite length_fmap, length_seq. Qed.

Lemma days_in_month_range m y : 0 <= days_in_month m y <= 366.
Proof. unfold days_in_month. repeat case_match; lia. Qed.

(** the time stamp of a date is its Unix time: the days of the whole years and months
    before it by the closed form of the Gregorian calendar, and the seconds of the day.
    The loops over years and months never wrap for the years a certificate can name. *)
Theorem unix_time_closed_form year mon day hour min sec :
  1970 <= year <= 9999 -> 1 <= mon <= 12 -> 1 <= day <= 31 -> 0 <= hour < 100 -> 0 <= min < 100 -> 0 <= sec < 100 ->
  ymd_hms_to_unix year mon day hour min sec =
    (days_before_year year + days_before_month mon year + (day - 1)) * 86400 + hour * 3600 + min * 60 + sec.
Proof.
  intros Hy Hm Hd Hh Hmi Hs. unfold ymd_hms_to_unix. destruct (Z.ltb_spec year 1970), (Z.ltb_spec mon 1), (Z.ltb_spec 12 mon), (Z.ltb_spec day 1), (Z.ltb_spec 31 day); try lia. cbn [orb].
  destruct (sum_loop (fun y => if is_leap y then 366 else 365) (zrange 1970 year) 0) as [-> B1]; [apply Forall_forall; intros x _; destruct (is_leap x); lia|lia|rewrite length_zrange; lia|].
  rewrite length_zrange in B1. rewrite year_loop in * by lia.
  destruct (sum_loop (fun m => days_in_month m year) (zrange 1 mon) (days_before_year year)) as [-> B2];
    [apply Forall_forall; intros x _; apply days_in_month_range|lia|rewrite length_zrange; lia|].
  rewrite length_zrange in B2. rewrite month_loop in * by lia.
  rewrite (as_u64_small (_ + (day - 1))) by (unfold is_u64; lia). rewrite (as_u64_small (_ * 86400)) by (unfold is_u64; lia).
  rewrite (as_u64_small (hour * 3600)), (as_u64_small (min * 60)) by (unfold is_u64; lia). set (days := _ * 86400).
  assert (0 <= days < 2 ^ 40) by (subst days; lia). rewrite (as_u64_small (days + _)), (as_u64_small (days + _ + _)), (as_u64_small (days + _ + _ + _)) by (unfold is_u64; lia). done.
Qed.

Lemma unix_time_closed_form_witness : ymd_hms_to_unix 2024 2 29 12 30 15 = 1709209815.
Proof. rewrite (unix_time_closed_form 2024 2 29 12 30 15); [reflexivity|lia..]. Defined.
