(* ===== verification/Dtb.v ===== *)
(** * The device tree (kernel/src/dtb.rs)

    The walker over the flattened device tree that firmware leaves in memory, whole.  The
    blob is read through the memory [m]; the reserve map is followed until its end, in at
    most [rounds] entries; the structure block has one round per token, of which
    [total_size / 4 + 1] are enough since every token advances by four bytes at least. *)

From stdpp Require Import base numbers list gmap strings.
From Stdlib Require Import ZArith Lia Bool.
From S2P Require Import Prelude Sector Text.

Definition FDT_MAGIC : Z := 0xD00DFEED.
Definition FDT_BEGIN_NODE : Z := 1.
Definition FDT_END_NODE : Z := 2.
Definition FDT_PROP : Z := 3.
Definition FDT_NOP : Z := 4.
Definition FDT_END : Z := 9.

Definition DEFAULT_UART_BASE : Z := 0x09000000.
Definition MAX_DEPTH : nat := 12.

(** [reserved]: the first [reserved_count] elements of the array. *)
Record DtbInfo := mk_dtb {
  ram_base : Z;
  ram_size : Z;
  cpu_count : Z;
  psci : bool;
  gic_dist : Z;
  gic_cpu : Z;
  uart_base : Z;
  timer_freq : Z;
  pcie_ecam : Z;
  aic_base : Z;
  fb_base : Z;
  fb_width : Z;
  fb_height : Z;
  fb_stride : Z;
  reserved : list (Z * Z);
}.

Definition defaults : DtbInfo :=
  mk_dtb 0x40000000 0x100000000 1 false 0x08000000 0x08010000 DEFAULT_UART_BASE 0 0 0 0 0 0 0 [].

Inductive Ctx := COther | CRoot | CMemory | CCpus | CCpu | CIntc | CUart | CResvMem | CResvRegion | CPsci | CChosen | CPcie | CSimpleFb | CAic.
#[export] Instance Ctx_eq_dec : EqDecision Ctx.
Proof. solve_decision. Defined.

(** *** Updates *)

Definition set_ram (b s : Z) (i : DtbInfo) : DtbInfo :=
  mk_dtb b s (cpu_count i) (psci i) (gic_dist i) (gic_cpu i) (uart_base i) (timer_freq i) (pcie_ecam i) (aic_base i) (fb_base i) (fb_width i) (fb_height i) (fb_stride i) (reserved i).
Definition set_cpus (n : Z) (i : DtbInfo) : DtbInfo :=
  mk_dtb (ram_base i) (ram_size i) n (psci i) (gic_dist i) (gic_cpu i) (uart_base i) (timer_freq i) (pcie_ecam i) (aic_base i) (fb_base i) (fb_width i) (fb_height i) (fb_stride i) (reserved i).
Definition set_psci (i : DtbInfo) : DtbInfo :=
  mk_dtb (ram_base i) (ram_size i) (cpu_count i) true (gic_dist i) (gic_cpu i) (uart_base i) (timer_freq i) (pcie_ecam i) (aic_base i) (fb_base i) (fb_width i) (fb_height i) (fb_stride i) (reserved i).
Definition set_gic (d c : Z) (i : DtbInfo) : DtbInfo :=
  mk_dtb (ram_base i) (ram_size i) (cpu_count i) (psci i) d c (uart_base i) (timer_freq i) (pcie_ecam i) (aic_base i) (fb_base i) (fb_width i) (fb_height i) (fb_stride i) (reserved i).
Definition set_uart (b : Z) (i : DtbInfo) : DtbInfo :=
  mk_dtb (ram_base i) (ram_size i) (cpu_count i) (psci i) (gic_dist i) (gic_cpu i) b (timer_freq i) (pcie_ecam i) (aic_base i) (fb_base i) (fb_width i) (fb_height i) (fb_stride i) (reserved i).
Definition set_freq (f : Z) (i : DtbInfo) : DtbInfo :=
  mk_dtb (ram_base i) (ram_size i) (cpu_count i) (psci i) (gic_dist i) (gic_cpu i) (uart_base i) f (pcie_ecam i) (aic_base i) (fb_base i) (fb_width i) (fb_height i) (fb_stride i) (reserved i).
Definition set_ecam (b : Z) (i : DtbInfo) : DtbInfo :=
  mk_dtb (ram_base i) (ram_size i) (cpu_count i) (psci i) (gic_dist i) (gic_cpu i) (uart_base i) (timer_freq i) b (aic_base i) (fb_base i) (fb_width i) (fb_height i) (fb_stride i) (reserved i).
Definition set_aic (b : Z) (i : DtbInfo) : DtbInfo :=
  mk_dtb (ram_base i) (ram_size i) (cpu_count i) (psci i) (gic_dist i) (gic_cpu i) (uart_base i) (timer_freq i) (pcie_ecam i) b (fb_base i) (fb_width i) (fb_height i) (fb_stride i) (reserved i).
Definition set_fb (b w h s : Z) (i : DtbInfo) : DtbInfo :=
  mk_dtb (ram_base i) (ram_size i) (cpu_count i) (psci i) (gic_dist i) (gic_cpu i) (uart_base i) (timer_freq i) (pcie_ecam i) (aic_base i) b w h s (reserved i).
Definition set_reserved (l : list (Z * Z)) (i : DtbInfo) : DtbInfo :=
  mk_dtb (ram_base i) (ram_size i) (cpu_count i) (psci i) (gic_dist i) (gic_cpu i) (uart_base i) (timer_freq i) (pcie_ecam i) (aic_base i) (fb_base i) (fb_width i) (fb_height i) (fb_stride i) l.

(** ** Reading *)

Definition rbe32 (m : gmap Z Z) (p : Z) : Z :=
  Z.lor (Z.lor (Z.lor (Z.shiftl (ldb m p) 24) (Z.shiftl (ldb m (p + 1)) 16)) (Z.shiftl (ldb m (p + 2)) 8)) (ldb m (p + 3)).
Definition rbe64 (m : gmap Z Z) (p : Z) : Z := Z.lor (Z.shiftl (rbe32 m p) 32) (rbe32 m (p + 4)).

(** The bytes of [want], then a NUL. *)
Fixpoint streq_from (m : gmap Z Z) (p : Z) (want : list Z) : bool :=
  match want with
  | [] => ldb m p =? 0
  | b :: rest => if negb (ldb m p =? b) then false else streq_from m (p + 1) rest
  end.
Definition streq (m : gmap Z Z) (strs nameoff : Z) (want : list Z) : bool := streq_from m (strs + nameoff) want.

Definition name_matches (slice prefix : list Z) : bool :=
  (length prefix <=? length slice)%nat && bool_decide (take (length prefix) slice = prefix)
  && ((length slice =? length prefix)%nat || bool_decide (slice !! length prefix = Some 64)).

(** The bytes of a node's name: up to a NUL, at most 128. *)
Fixpoint name_len (n : nat) (m : gmap Z Z) (p : Z) : nat :=
  match n with O => O | S n' => if ldb m p =? 0 then O else S (name_len n' m (p + 1)) end.

(** ** The reserve map *)

Fixpoint reserve_map (rounds : nat) (m : gmap Z Z) (rp : Z) (info : DtbInfo) : fout DtbInfo :=
  match rounds with
  | O => Stuck
  | S r =>
      let addr := rbe64 m rp in
      let size := rbe64 m (rp + 8) in
      if (addr =? 0) && (size =? 0) then mret info
      else
        reserve_map r m (rp + 16)
          (if (length (reserved info) <? 8)%nat then set_reserved (reserved info ++ [(addr, size)]) info else info)
  end.

(** ** Nodes *)

(** The kind of a node that begins. *)
Definition classify (at_root : bool) (parent : Ctx) (name : list Z) : Ctx :=
  if at_root then CRoot
  else if name_matches name (lit "memory") then CMemory
  else if bool_decide (name = lit "cpus") then CCpus
  else if bool_decide (parent = CCpus) && name_matches name (lit "cpu") then CCpu
  else if name_matches name (lit "intc") || name_matches name (lit "gic") || name_matches name (lit "interrupt-controller") then CIntc
  else if name_matches name (lit "pl011") || name_matches name (lit "uart") || name_matches name (lit "serial") then CUart
  else if bool_decide (name = lit "reserved-memory") then CResvMem
  else if bool_decide (parent = CResvMem) then CResvRegion
  else if bool_decide (name = lit "psci") then CPsci
  else if bool_decide (name = lit "chosen") then CChosen
  else if name_matches name (lit "pcie") || name_matches name (lit "pci") then CPcie
  else if bool_decide (name = lit "aic") then CAic
  else if name_matches name (lit "framebuffer") || name_matches name (lit "simple-framebuffer") || name_matches name (lit "display") then CSimpleFb
  else COther.

Section Prop_.
Variables (m : gmap Z Z) (named : list Z -> bool) (prop_len data parent_ac parent_sc : Z).

(** An address of one or two cells. *)
Definition cell (two : bool) (p : Z) : Z := if two then rbe64 m p else rbe32 m p.

(** The arms of the match on the kind of the node; [named] is [streq] on the property's name. *)
Definition memory_prop (i : DtbInfo) : DtbInfo :=
  if named (lit "reg") && (16 <=? prop_len) then
    let base := rbe64 m data in
    let size := rbe64 m (data + 8) in
    if 0 <? size then set_ram base size i else i
  else i.

Definition cpu_prop (i : DtbInfo) : DtbInfo :=
  let i := if named (lit "clock-frequency") && (prop_len =? 4) && (timer_freq i =? 0) then set_freq (rbe32 m data) i else i in
  if named (lit "enable-method") && (4 <=? prop_len) && bool_decide (load_bytes 4 m data = lit "psci") then set_psci i else i.

Definition intc_prop (i : DtbInfo) : DtbInfo :=
  if named (lit "reg") then
    let entry_bytes := as_u32 (as_u32 (parent_ac + parent_sc) * 4) in
    if entry_bytes * 2 <=? prop_len then
      let dist := cell (parent_ac =? 2) data in
      let cpu := cell (parent_ac =? 2) (data + entry_bytes) in
      set_gic (if 0 <? dist then dist else gic_dist i) (if 0 <? cpu then cpu else gic_cpu i) i
    else i
  else i.

Definition uart_prop (i : DtbInfo) : DtbInfo :=
  if named (lit "reg") && (8 <=? prop_len) then
    let base := cell ((parent_ac =? 2) && (16 <=? prop_len)) data in
    if (0 <? base) && (uart_base i =? DEFAULT_UART_BASE) then set_uart base i else i
  else i.

Definition region_prop (i : DtbInfo) : DtbInfo :=
  if named (lit "reg") then
    let entry_bytes := as_u32 (as_u32 (parent_ac + parent_sc) * 4) in
    if (entry_bytes <=? prop_len) && (length (reserved i) <? 8)%nat then
      let base := cell (parent_ac =? 2) data in
      let size := cell (parent_sc =? 2) (data + as_u32 (parent_ac * 4)) in
      if 0 <? size then set_reserved (reserved i ++ [(base, size)]) i else i
    else i
  else i.

Definition pcie_prop (i : DtbInfo) : DtbInfo :=
  if named (lit "reg") && (8 <=? prop_len) then
    let ecam := cell (16 <=? prop_len) data in
    if (0 <? ecam) && (pcie_ecam i =? 0) then set_ecam ecam i else i
  else i.

Definition aic_prop (i : DtbInfo) : DtbInfo :=
  if named (lit "reg") && (4 <=? prop_len) then
    let base := cell (16 <=? prop_len) data in
    if (0 <? base) && (aic_base i =? 0) then set_aic base i else i
  else i.

Definition fb_prop (i : DtbInfo) : DtbInfo :=
  let i := if named (lit "reg") && (8 <=? prop_len) then
             let base := cell ((parent_ac =? 2) && (16 <=? prop_len)) data in
             if 0 <? base then set_fb base (fb_width i) (fb_height i) (fb_stride i) i else i
           else i in
  let i := if named (lit "width") && (prop_len =? 4) then set_fb (fb_base i) (rbe32 m data) (fb_height i) (fb_stride i) i else i in
  let i := if named (lit "height") && (prop_len =? 4) then set_fb (fb_base i) (fb_width i) (rbe32 m data) (fb_stride i) i else i in
  if named (lit "stride") && (prop_len =? 4) then set_fb (fb_base i) (fb_width i) (fb_height i) (rbe32 m data) i else i.

Definition prop_arm (cur : Ctx) (i : DtbInfo) : DtbInfo :=
  match cur with
  | CMemory => memory_prop i
  | CCpu => cpu_prop i
  | CIntc => intc_prop i
  | CUart => uart_prop i
  | CResvRegion => region_prop i
  | CPcie => pcie_prop i
  | CAic => aic_prop i
  | CSimpleFb => fb_prop i
  | _ => i
  end.
End Prop_.

(** ** The structure block *)

Record walker := mk_walker {
  w_off : Z;
  w_depth : nat;
  w_ctx : list Ctx;
  w_ac : list Z;
  w_sc : list Z;
  w_info : DtbInfo;
}.

(** [(n + 3) & !3] *)
Definition align4 (n : Z) : Z := Z.ldiff (n + 3) 3.

Section Walk.
Variables (m : gmap Z Z) (sblk strs : Z).

Definition begin_node (w : walker) : fout walker :=
  let off := w_off w in
  let nlen := name_len 128 m (sblk + off) in
  let name := load_bytes nlen m (sblk + off) in
  let off := off + align4 (Z.of_nat nlen + 1) in
  parent_ctx ← (if (0 <? w_depth w)%nat then at_idx (w_ctx w) (w_depth w - 1) else mret COther);
  let new_ctx := classify (w_depth w =? 0)%nat parent_ctx name in
  let info := if bool_decide (new_ctx = CCpu) then set_cpus (cpu_count (w_info w) +u 1) (w_info w) else w_info w in
  if (w_depth w <? MAX_DEPTH)%nat then
    '(ac, sc) ← (if (0 <? w_depth w)%nat then
                   a ← at_idx (w_ac w) (w_depth w - 1);
                   s ← at_idx (w_sc w) (w_depth w - 1);
                   mret (<[w_depth w := a]> (w_ac w), <[w_depth w := s]> (w_sc w))
                 else mret (w_ac w, w_sc w));
    mret (mk_walker off (w_depth w + 1) (<[w_depth w := new_ctx]> (w_ctx w)) ac sc info)
  else mret (mk_walker off (w_depth w) (w_ctx w) (w_ac w) (w_sc w) info).

Definition property (w : walker) : fout walker :=
  let off := w_off w in
  let prop_len := rbe32 m (sblk + off) in
  let name_off := rbe32 m (sblk + off + 4) in
  let data := sblk + off + 8 in
  let off := off + 8 + align4 prop_len in
  cur ← (if (0 <? w_depth w)%nat then at_idx (w_ctx w) (w_depth w - 1) else mret COther);
  let d := (w_depth w - 1)%nat in
  parent_ac ← (if (0 <? d)%nat then at_idx (w_ac w) (d - 1) else mret 2);
  parent_sc ← (if (0 <? d)%nat then at_idx (w_sc w) (d - 1) else mret 2);
  let named := streq m strs name_off in
  if named (lit "#address-cells") && (prop_len =? 4) then
    mret (mk_walker off (w_depth w) (w_ctx w) (<[d := rbe32 m data]> (w_ac w)) (w_sc w) (w_info w))
  else if named (lit "#size-cells") && (prop_len =? 4) then
    mret (mk_walker off (w_depth w) (w_ctx w) (w_ac w) (<[d := rbe32 m data]> (w_sc w)) (w_info w))
  else mret (mk_walker off (w_depth w) (w_ctx w) (w_ac w) (w_sc w) (prop_arm m named prop_len data parent_ac parent_sc cur (w_info w))).

(** One token; [None] when the loop ends. *)
Definition token_step (off_struct total_size : Z) (w : walker) : fout (option walker) :=
  if total_size <? off_struct + w_off w + 4 then mret None
  else
    let token := rbe32 m (sblk + w_off w) in
    let w := mk_walker (w_off w + 4) (w_depth w) (w_ctx w) (w_ac w) (w_sc w) (w_info w) in
    if token =? FDT_BEGIN_NODE then w ← begin_node w; mret (Some w)
    else if token =? FDT_END_NODE then mret (Some (mk_walker (w_off w) (w_depth w - 1) (w_ctx w) (w_ac w) (w_sc w) (w_info w)))
    else if token =? FDT_PROP then w ← property w; mret (Some w)
    else if token =? FDT_NOP then mret (Some w)
    else mret None.

Fixpoint walk_tokens (n : nat) (off_struct total_size : Z) (w : walker) : fout DtbInfo :=
  match n with
  | O => Stuck
  | S n' =>
      r ← token_step off_struct total_size w;
      match r with None => mret (w_info w) | Some w => walk_tokens n' off_struct total_size w end
  end.
End Walk.

Definition walk (rounds : nat) (m : gmap Z Z) (blob : Z) : fout DtbInfo :=
  if negb (rbe32 m blob =? FDT_MAGIC) then mret defaults
  else
    let total_size := rbe32 m (blob + 4) in
    let off_struct := rbe32 m (blob + 8) in
    let off_strings := rbe32 m (blob + 12) in
    let off_rsvmap := rbe32 m (blob + 16) in
    info ← reserve_map rounds m (blob + off_rsvmap) defaults;
    info ← walk_tokens m (blob + off_struct) (blob + off_strings) (S (Z.to_nat (total_size / 4))) off_struct total_size
             (mk_walker 0 0 (replicate MAX_DEPTH COther) (replicate MAX_DEPTH 2) (replicate MAX_DEPTH 2) info);
    mret (if 1 <? cpu_count info then set_cpus (cpu_count info - 1) info else info).

Definition parse (rounds : nat) (m : gmap Z Z) (dtb_ptr : Z) : fout DtbInfo :=
  if dtb_ptr =? 0 then mret defaults else walk rounds m dtb_ptr.

Definition parse_memory (rounds : nat) (m : gmap Z Z) (dtb_ptr : Z) : fout (Z * Z) :=
  info ← parse rounds m dtb_ptr; mret (ram_base info, ram_size info).
