(* ===== verification/DtbProofs.v ===== *)
(** * The device tree walker is total

    On any memory the walker neither panics nor loops. *)

From stdpp Require Import base numbers list gmap strings.
From Stdlib Require Import ZArith Lia Bool.
From S2P Require Import Prelude Sector Text Dtb.

(** ** Totality *)

Record walker_ok (w : walker) : Prop := {
  wk_off : 0 <= w_off w;
  wk_depth : (w_depth w <= MAX_DEPTH)%nat;
  wk_ctx : length (w_ctx w) = MAX_DEPTH;
  wk_ac : length (w_ac w) = MAX_DEPTH;
  wk_sc : length (w_sc w) = MAX_DEPTH;
}.

Lemma align4_nonneg n : 0 <= n -> 0 <= align4 n.
Proof. intros H. unfold align4. apply Z.ldiff_nonneg. left. lia. Qed.

Lemma rbe32_nonneg m p : (forall a, is_u8 (ldb m a)) -> 0 <= rbe32 m p.
Proof.
  intros H. unfold rbe32. assert (forall a, 0 <= ldb m a) by (intros a; destruct (H a); lia). rewrite !Z.lor_nonneg. split_and!; try done; by apply Z.shiftl_nonneg.
Qed.

Section Total.
Variables (m : gmap Z Z) (sblk strs : Z).
Hypothesis Hm : forall a, is_u8 (ldb m a).

Lemma idx_before {A} (l : list A) k : length l = MAX_DEPTH -> (k <= MAX_DEPTH)%nat -> (0 < k)%nat -> exists x, at_idx l (k - 1) = Got x.
Proof. intros Hl Hk H0. apply at_idx_some. unfold MAX_DEPTH in *. lia. Qed.

Lemma begin_node_total w : walker_ok w -> exists w', begin_node m sblk w = Got w' /\ walker_ok w' /\ w_off w <= w_off w'.
Proof.
  intros [Ho Hd Hc Ha Hs]. unfold begin_node. set (nlen := name_len _ _ _). pose proof (align4_nonneg (Z.of_nat nlen + 1) ltac:(lia)).
  destruct (Nat.ltb_spec 0 (w_depth w)).
  - destruct (idx_before (w_ctx w) (w_depth w)) as [c ->]; [done..|]. cbn [mbind fout_bind]. destruct (Nat.ltb_spec (w_depth w) MAX_DEPTH).
    + destruct (idx_before (w_ac w) (w_depth w)) as [a ->]; [done..|]. destruct (idx_before (w_sc w) (w_depth w)) as [s E]; [done..|]. cbn [mbind fout_bind]. rewrite E. cbn [mbind fout_bind]. eexists. split; [reflexivity|].
      cbn [w_off]. split; [|lia]. split; cbn [w_off w_depth w_ctx w_ac w_sc]; rewrite ?length_insert; try done; lia.
    + eexists. split; [reflexivity|]. cbn [w_off]. split; [|lia]. split; cbn [w_off w_depth w_ctx w_ac w_sc]; try done; lia.
  - cbn [mbind fout_bind]. destruct (Nat.ltb_spec (w_depth w) MAX_DEPTH).
    + cbn [mbind fout_bind]. eexists. split; [reflexivity|]. cbn [w_off]. split; [|lia]. split; cbn [w_off w_depth w_ctx w_ac w_sc]; rewrite ?length_insert; try done; lia.
    + eexists. split; [reflexivity|]. cbn [w_off]. split; [|lia]. split; cbn [w_off w_depth w_ctx w_ac w_sc]; try done; lia.
Qed.

Lemma property_total w : walker_ok w -> exists w', property m sblk strs w = Got w' /\ walker_ok w' /\ w_off w <= w_off w'.
Proof.
  intros [Ho Hd Hc Ha Hs]. unfold property. set (len := rbe32 m (sblk + w_off w)). pose proof (align4_nonneg len ltac:(by apply rbe32_nonneg)).
  assert (total (if (0 <? w_depth w)%nat then at_idx (w_ctx w) (w_depth w - 1) else mret COther)) as [cur ->].
  { destruct (Nat.ltb_spec 0 (w_depth w)); [by apply idx_before|apply total_ret]. }
  assert (forall l : list Z, length l = MAX_DEPTH -> total (if (0 <? w_depth w - 1)%nat then at_idx l (w_depth w - 1 - 1) else mret 2)) as Hcells.
  { intros l Hl. destruct (Nat.ltb_spec 0 (w_depth w - 1)); [apply idx_before; [done|lia|lia]|apply total_ret]. }
  destruct (Hcells _ Ha) as [pac Ea], (Hcells _ Hs) as [psc Es]. cbn [mbind fout_bind]. rewrite Ea. cbn [mbind fout_bind]. rewrite Es. cbn [mbind fout_bind].
  repeat case_match; (eexists; split; [reflexivity|]; cbn [w_off]; split; [|lia]; split; cbn [w_off w_depth w_ctx w_ac w_sc]; rewrite ?length_insert; try done; lia).
Qed.

Lemma token_step_total os ts w : walker_ok w -> exists r, token_step m sblk strs os ts w = Got r /\
  match r with None => True | Some w' => walker_ok w' /\ os + w_off w + 4 <= ts /\ w_off w + 4 <= w_off w' end.
Proof.
  intros Hw. unfold token_step. destruct (Z.ltb_spec ts (os + w_off w + 4)); [by eexists|]. set (w1 := mk_walker (w_off w + 4) _ _ _ _ _).
  assert (Hw1 : walker_ok w1) by (destruct Hw; split; cbn; try done; lia). destruct (_ =? FDT_BEGIN_NODE).
  { destruct (begin_node_total w1 Hw1) as (w' & -> & Hw' & Hoff). by eexists. }
  destruct (_ =? FDT_END_NODE). { eexists. split; [reflexivity|]. destruct Hw. split; [split; cbn; try done; lia|cbn; lia]. }
  destruct (_ =? FDT_PROP). { destruct (property_total w1 Hw1) as (w' & -> & Hw' & Hoff). by eexists. }
  destruct (_ =? FDT_NOP); [|by eexists]. eexists. split; [reflexivity|]. split; [done|cbn; lia].
Qed.

Lemma walk_tokens_total n os ts w : walker_ok w -> 0 <= os -> ts < w_off w + 4 * Z.of_nat (S n) -> total (walk_tokens m sblk strs (S n) os ts w).
Proof.
  intros Hw Ho. revert w Hw. induction n as [|n IH]; intros w Hw Hn; cbn [walk_tokens];
    (destruct (token_step_total os ts w Hw) as ([w'|] & -> & Hr); cbn [mbind fout_bind]; [destruct Hr as (Hw' & H1 & H2)|apply total_ret]); [lia|].
  apply IH; [done|lia].
Qed.
End Total.

(** Whatever memory holds, the walk comes to its end once the reserve map has one. *)
Theorem dtb_parse_total rounds m ptr : (forall a, is_u8 (ldb m a)) -> total (reserve_map rounds m (ptr + rbe32 m (ptr + 16)) defaults) ->
  exists info, parse rounds m ptr = Got info.
Proof.
  intros Hm [i0 Hi]. unfold parse. destruct (ptr =? 0); [by eexists|]. unfold walk. destruct (negb _); [by eexists|]. rewrite Hi. cbn [mbind fout_bind].
  set (ts := rbe32 m (ptr + 4)). set (w := mk_walker _ _ _ _ _ _). pose proof (rbe32_nonneg m (ptr + 4) Hm) as H0. fold ts in H0.
  destruct (walk_tokens_total m (ptr + rbe32 m (ptr + 8)) (ptr + rbe32 m (ptr + 12)) Hm (Z.to_nat (ts / 4)) (rbe32 m (ptr + 8)) ts w) as [i ->].
  - unfold w. split; cbn; rewrite ?length_replicate; try done; unfold MAX_DEPTH; lia.
  - by apply rbe32_nonneg.
  - cbn [w_off w]. pose proof (Z.div_mod ts 4 ltac:(lia)). pose proof (Z.mod_pos_bound ts 4 ltac:(lia)). assert (0 <= ts / 4) by (apply Z.div_pos; lia). lia.
  - cbn [mbind fout_bind]. by eexists.
Qed.
