(* ===== verification/DtbTree.v ===== *)
(** * The device tree walker reads the tree

    On the standard encoding of a device tree the walker, with its offsets, its stack of
    node kinds and its arrays of cell counts, computes what a recursive evaluator over
    the tree computes. *)

From stdpp Require Import base numbers list gmap strings.
From Stdlib Require Import ZArith Lia Bool.
From S2P Require Import Prelude Sector Text NetState NetFrames Dtb DtbProofs.

(** ** Trees *)

Inductive node := Node (name : list Z) (props : list (list Z * list Z)) (children : list node).

Fixpoint height (n : node) : nat := match n with Node _ _ cs => S (List.list_max (List.map height cs)) end.

(** The number of tokens of a node. *)
Fixpoint tokens (n : node) : nat := match n with Node _ ps cs => (2 + length ps + List.list_sum (List.map tokens cs))%nat end.

(** ** What a tree says *)

(** A property in isolation: its data alone in memory, at address 0. *)
Definition prop_value (ctx : Ctx) (pac psc : Z) (p : list Z * list Z) (st : Z * Z * DtbInfo) : Z * Z * DtbInfo :=
  let '(name, d) := p in
  let '(ac, sc, i) := st in
  let four := (length d =? 4)%nat in
  if bool_decide (name = lit "#address-cells") && four then (be_bytes d, sc, i)
  else if bool_decide (name = lit "#size-cells") && four then (ac, be_bytes d, i)
  else (ac, sc, prop_arm (store_bytes ∅ 0 d) (fun want => bool_decide (name = want)) (Z.of_nat (length d)) 0 pac psc ctx i).

Definition prop_values (ctx : Ctx) (pac psc : Z) (ps : list (list Z * list Z)) (st : Z * Z * DtbInfo) : Z * Z * DtbInfo :=
  foldl (fun st p => prop_value ctx pac psc p st) st ps.

Definition enter (ctx : Ctx) (i : DtbInfo) : DtbInfo := if bool_decide (ctx = CCpu) then set_cpus (cpu_count i +u 1) i else i.

(** [pac] and [psc]: the cell counts of the parent, and of the node until it declares its own. *)
Fixpoint eval (at_root : bool) (parent : Ctx) (pac psc : Z) (n : node) (i : DtbInfo) : DtbInfo :=
  match n with
  | Node name ps cs =>
      let ctx := classify at_root parent name in
      let '(ac, sc, i) := prop_values ctx pac psc ps (pac, psc, enter ctx i) in
      List.fold_left (fun i c => eval false ctx ac sc c i) cs i
  end.

(** ** The encoding *)

Definition pad4 (l : list Z) : list Z := l ++ replicate (Z.to_nat (align4 (Z.of_nat (length l))) - length l) 0.
Definition word (v : Z) : list Z := to_be_bytes 4 v.

Section Encoding.
Variable noff : list Z -> Z.

Definition enc_prop (p : list Z * list Z) : list Z := word FDT_PROP ++ word (Z.of_nat (length p.2)) ++ word (noff p.1) ++ pad4 p.2.
Definition enc_props (ps : list (list Z * list Z)) : list Z := concat (enc_prop <$> ps).
Fixpoint enc_node (n : node) : list Z :=
  match n with
  | Node name ps cs => word FDT_BEGIN_NODE ++ pad4 (name ++ [0]) ++ enc_props ps ++ List.concat (List.map enc_node cs) ++ word FDT_END_NODE
  end.
End Encoding.

(** ** Memory *)

Definition holds (m : gmap Z Z) (a : Z) (l : list Z) : Prop := load_bytes (length l) m a = l.

Lemma load_bytes_app n k m a : load_bytes (n + k) m a = load_bytes n m a ++ load_bytes k m (a + Z.of_nat n).
Proof.
  revert a. induction n as [|n IH]; intros a; [cbn; by rewrite Z.add_0_r|].
  transitivity (ldb m a :: load_bytes (n + k) m (a + 1)); [done|]. rewrite IH. by replace (a + Z.of_nat (S n)) with (a + 1 + Z.of_nat n) by lia.
Qed.

Lemma holds_app m a l1 l2 : holds m a (l1 ++ l2) <-> holds m a l1 /\ holds m (a + Z.of_nat (length l1)) l2.
Proof.
  unfold holds. rewrite length_app, load_bytes_app. split; [|intros [-> ->]; done].
  intros H. apply app_inj_1 in H; [done|]. apply length_load_bytes.
Qed.

Lemma holds_byte m a l k : holds m a l -> (k < length l)%nat -> ldb m (a + Z.of_nat k) = nth k l 0.
Proof. intros H Hk. rewrite <- H at 1. by rewrite nth_load_bytes. Qed.

Lemma rbe32_bytes m p a b c d : is_u8 a -> is_u8 b -> is_u8 c -> is_u8 d ->
  ldb m p = a -> ldb m (p + 1) = b -> ldb m (p + 2) = c -> ldb m (p + 3) = d -> rbe32 m p = be_bytes [a; b; c; d].
Proof.
  unfold is_u8. intros Ha Hb Hc Hd Ea Eb Ec Ed. unfold rbe32. rewrite Ea, Eb, Ec, Ed. rewrite !Z.shiftl_mul_pow2 by lia.
  rewrite (Z.lor_comm (a * _)), (lor_high (b * 2 ^ 16) a 24) by lia. replace (b * 2 ^ 16 + a * 2 ^ 24) with ((b + a * 2 ^ 8) * 2 ^ 16) by lia.
  rewrite (Z.lor_comm _ (c * _)), (lor_high (c * 2 ^ 8) _ 16) by lia. replace (c * 2 ^ 8 + (b + a * 2 ^ 8) * 2 ^ 16) with ((c + (b + a * 2 ^ 8) * 2 ^ 8) * 2 ^ 8) by lia.
  rewrite Z.lor_comm, (lor_high d _ 8) by lia. unfold be_bytes. cbn. lia.
Qed.

Lemma rbe32_holds m p l : Forall is_u8 l -> length l = 4%nat -> holds m p l -> rbe32 m p = be_bytes l.
Proof.
  intros Hl Hn H. destruct l as [|a [|b [|c [|d [|]]]]]; try done. rewrite !Forall_cons in Hl. destruct Hl as (? & ? & ? & ? & _).
  assert (Hb : forall k, (k < 4)%nat -> ldb m (p + Z.of_nat k) = nth k [a; b; c; d] 0) by (intros k Hk; by apply holds_byte).
  apply rbe32_bytes; [done..|rewrite <- (Z.add_0_r p); apply (Hb 0%nat); lia|apply (Hb 1%nat); lia|apply (Hb 2%nat); lia|apply (Hb 3%nat); lia].
Qed.

Lemma rbe32_word m p v : 0 <= v < 2 ^ 32 -> holds m p (word v) -> rbe32 m p = v.
Proof.
  intros Hv H. rewrite (rbe32_holds m p (word v)); [|apply to_be_bytes_u8|apply length_to_be_bytes|done]. unfold word. rewrite be_to_be_bytes. by apply Z.mod_small.
Qed.

(** *** Strings *)

Lemma streq_from_holds m p n want : holds m p (n ++ [0]) -> 0 ∉ n -> 0 ∉ want -> streq_from m p want = bool_decide (n = want).
Proof.
  revert p n. induction want as [|b want IH]; intros p n H Hn Hw; cbn [streq_from].
  - pose proof (holds_byte _ _ _ 0 H) as E. rewrite Z.add_0_r in E. rewrite length_app in E. rewrite E by (cbn; lia). destruct n as [|c n]; cbn; [done|].
    apply not_elem_of_cons in Hn as [Hc _]. rewrite bool_decide_eq_false_2 by done. by apply Z.eqb_neq.
  - apply not_elem_of_cons in Hw as [Hb Hw]. pose proof (holds_byte _ _ _ 0 H) as E. rewrite Z.add_0_r, length_app in E. rewrite E by (cbn; lia).
    destruct n as [|c n]; cbn [app nth]. { destruct (Z.eqb_spec 0 b); [done|]. cbn. by rewrite bool_decide_eq_false_2. }
    apply not_elem_of_cons in Hn as [Hc Hn]. destruct (Z.eqb_spec c b) as [->|Hne]; cbn [negb].
    + change ((b :: n) ++ [0]) with ([b] ++ n ++ [0]) in H. apply holds_app in H as [_ H]. rewrite (IH _ n) by done. apply bool_decide_ext. split; [by intros ->|by intros [= ->]].
    + rewrite bool_decide_eq_false_2; [done|]. by intros [= ->].
Qed.

Lemma name_len_holds k m p n r : holds m p (n ++ 0 :: r) -> 0 ∉ n -> (length n < k)%nat -> name_len k m p = length n.
Proof.
  revert p n. induction k as [|k IH]; intros p n H Hn Hk; [lia|]. cbn [name_len]. pose proof (holds_byte _ _ _ 0 H) as E. rewrite Z.add_0_r, length_app in E.
  rewrite E by (cbn; lia). destruct n as [|c n]; cbn [app nth length]; [done|]. apply not_elem_of_cons in Hn as [Hc Hn]. destruct (Z.eqb_spec c 0); [congruence|].
  f_equal. change ((c :: n) ++ 0 :: r) with ([c] ++ n ++ 0 :: r) in H. apply holds_app in H as [_ H]. cbn [length] in *. apply IH; [done|done|lia].
Qed.

(** ** A property in place *)

Definition no_nul (l : list Z) : bool := forallb (fun b => negb (b =? 0)) l.

Lemma no_nul_spec l : no_nul l = true <-> 0 ∉ l.
Proof.
  induction l as [|b l IH]; [split; [intros _; apply not_elem_of_nil|done]|]. cbn [no_nul forallb]. rewrite not_elem_of_cons, andb_true_iff, negb_true_iff, Z.eqb_neq.
  fold (no_nul l). rewrite IH. split; intros [? ?]; split; auto.
Qed.

(** The cell counts for which a [reg] of the kind is read inside its bounds. *)
Definition cells_fit (ctx : Ctx) (pac psc : Z) : Prop :=
  match ctx with
  | CIntc => (pac = 1 \/ pac = 2) /\ 0 <= psc <= 3
  | CResvRegion => (pac = 1 \/ pac = 2) /\ (psc = 1 \/ psc = 2)
  | _ => True
  end.

Section Local.
Variables (m m' : gmap Z Z) (a a' : Z) (d : list Z).
Hypotheses (H : holds m a d) (H' : holds m' a' d).

Lemma byte_same k : 0 <= k < Z.of_nat (length d) -> ldb m (a + k) = ldb m' (a' + k).
Proof. intros Hk. replace k with (Z.of_nat (Z.to_nat k)) by lia. rewrite (holds_byte m a d), (holds_byte m' a' d) by (done || lia). done. Qed.

Lemma rbe32_same k : 0 <= k -> k + 4 <= Z.of_nat (length d) -> rbe32 m (a + k) = rbe32 m' (a' + k).
Proof. intros H0 Hk. unfold rbe32. rewrite <- !Z.add_assoc. by rewrite !byte_same by lia. Qed.

Lemma rbe64_same k : 0 <= k -> k + 8 <= Z.of_nat (length d) -> rbe64 m (a + k) = rbe64 m' (a' + k).
Proof. intros H0 Hk. unfold rbe64. rewrite <- !Z.add_assoc. by rewrite !rbe32_same by lia. Qed.

Lemma cell_same (two : bool) k : 0 <= k -> k + (if two then 8 else 4) <= Z.of_nat (length d) -> cell m two (a + k) = cell m' two (a' + k).
Proof. intros H0 Hk. unfold cell. destruct two; [by apply rbe64_same|by apply rbe32_same]. Qed.

Lemma load_same n : (n <= length d)%nat -> load_bytes n m a = load_bytes n m' a'.
Proof.
  intros Hn. unfold holds in *. rewrite <- (take_drop n d), length_app in H, H'. assert (Hl : length (take n d) = n) by (rewrite length_take; lia).
  rewrite Hl, load_bytes_app in H, H'.
  apply app_inj_1 in H as [-> _]; [|by rewrite length_load_bytes]. apply app_inj_1 in H' as [-> _]; [done|by rewrite length_load_bytes].
Qed.

Lemma cell_start (two : bool) : (if two then 8 else 4) <= Z.of_nat (length d) -> cell m two a = cell m' two a'.
Proof. intros Hk. rewrite <- (Z.add_0_r a), <- (Z.add_0_r a'). by apply cell_same. Qed.

Lemma prop_arm_same named named' pac psc ctx i : (forall want, no_nul want = true -> named want = named' want) -> cells_fit ctx pac psc ->
  prop_arm m named (Z.of_nat (length d)) a pac psc ctx i = prop_arm m' named' (Z.of_nat (length d)) a' pac psc ctx i.
Proof.
  intros Hnm Hfit. set (L := Z.of_nat (length d)) in *. pose proof (cell_start true) as C8. pose proof (cell_start false) as C4. fold L in C4, C8. cbn [cell] in C4, C8.
  destruct ctx; cbn [prop_arm cells_fit] in *; try done.
  - unfold memory_prop. rewrite !Hnm by reflexivity. destruct (named' _); [|done]. destruct (Z.leb_spec 16 L); [|done]. cbn [andb]. by rewrite rbe64_same, C8 by lia.
  - unfold cpu_prop. rewrite !Hnm by reflexivity. assert (Hf : L = 4 -> rbe32 m a = rbe32 m' a') by (intros; apply C4; lia).
    assert (Hl : 4 <= L -> load_bytes 4 m a = load_bytes 4 m' a') by (intros; apply load_same; lia).
    destruct (named' _), (named' _), (Z.eqb_spec L 4), (Z.leb_spec 4 L); cbn [andb]; rewrite ?Hf, ?Hl by lia; done.
  - unfold intc_prop. rewrite !Hnm by reflexivity. destruct (named' _); [|done]. destruct Hfit as [Hp Hq].
    assert (Heb : as_u32 (as_u32 (pac + psc) * 4) = (pac + psc) * 4) by (unfold as_u32; rewrite (wrap_small 32 (pac + psc)) by lia; rewrite wrap_small; lia). rewrite Heb.
    destruct (Z.leb_spec ((pac + psc) * 4 * 2) L); [|done]. rewrite (cell_start (pac =? 2)), (cell_same (pac =? 2)); [done|lia|destruct (Z.eqb_spec pac 2); lia..].
  - unfold uart_prop. rewrite !Hnm by reflexivity. destruct (named' _); [|done]. destruct (Z.leb_spec 8 L); [|done]. cbn [andb].
    rewrite cell_start; [done|]. destruct (_ && _); lia.
  - unfold region_prop. rewrite !Hnm by reflexivity. destruct (named' _); [|done]. destruct Hfit as [Hp Hq].
    assert (Heb : as_u32 (as_u32 (pac + psc) * 4) = (pac + psc) * 4) by (unfold as_u32; rewrite (wrap_small 32 (pac + psc)) by lia; rewrite wrap_small; lia). rewrite Heb.
    assert (Hsb : as_u32 (pac * 4) = pac * 4) by (unfold as_u32; rewrite wrap_small; lia). rewrite Hsb.
    destruct (Z.leb_spec ((pac + psc) * 4) L); [|done]. rewrite (cell_start (pac =? 2)), (cell_same (psc =? 2)); [done|lia|destruct (Z.eqb_spec psc 2); lia|destruct (Z.eqb_spec pac 2); lia].
  - unfold pcie_prop. rewrite !Hnm by reflexivity. destruct (named' _); [|done]. destruct (Z.leb_spec 8 L); [|done]. cbn [andb]. rewrite cell_start; [done|].
    fold L. destruct (Z.leb_spec 16 L); lia.
  - unfold fb_prop. rewrite !Hnm by reflexivity. assert (Hf : L = 4 -> rbe32 m a = rbe32 m' a') by (intros; apply C4; lia).
    assert (Hc : 8 <= L -> cell m ((pac =? 2) && (16 <=? L)) a = cell m' ((pac =? 2) && (16 <=? L)) a') by (intros; apply cell_start; destruct (_ && _); lia).
    destruct (named' _), (named' _), (named' _), (named' _), (Z.eqb_spec L 4), (Z.leb_spec 8 L); cbn [andb]; rewrite ?Hf, ?Hc by lia; done.
  - unfold aic_prop. rewrite !Hnm by reflexivity. destruct (named' _); [|done]. destruct (Z.leb_spec 4 L); [|done]. cbn [andb]. rewrite cell_start; [done|].
    fold L. destruct (Z.leb_spec 16 L); lia.
Qed.
End Local.

(** ** The walker on an encoded node *)

Lemma align4_spec n : 0 <= n -> n <= align4 n <= n + 3 /\ (4 | align4 n).
Proof.
  intros Hn. assert (E : forall x, Z.ldiff x 3 = x / 4 * 4).
  { intros x. change (Z.ldiff x 3) with (Z.ldiff x (Z.ones 2)). rewrite Z.ldiff_ones_r, Z.shiftl_mul_pow2, Z.shiftr_div_pow2 by lia. done. }
  unfold align4. rewrite E.
  pose proof (Z.div_mod (n + 3) 4 ltac:(lia)). pose proof (Z.mod_pos_bound (n + 3) 4 ltac:(lia)). split; [lia|]. by exists ((n + 3) / 4).
Qed.

Lemma length_pad4 l : Z.of_nat (length (pad4 l)) = align4 (Z.of_nat (length l)).
Proof. unfold pad4. rewrite length_app, length_replicate. pose proof (align4_spec (Z.of_nat (length l)) ltac:(lia)) as [? _]. lia. Qed.

Lemma length_word v : length (word v) = 4%nat.
Proof. apply length_to_be_bytes. Qed.

(** The walker inside nodes of kinds [ctxs] with cell counts [acs] and [scs], the root first. *)
Record at_level (ctxs : list Ctx) (acs scs : list Z) (w : walker) : Prop := {
  al_ok : walker_ok w;
  al_depth : w_depth w = length ctxs;
  al_ctx : take (length ctxs) (w_ctx w) = ctxs;
  al_ac : take (length ctxs) (w_ac w) = acs;
  al_sc : take (length ctxs) (w_sc w) = scs;
}.

Lemma take_last_idx {A} (l : list A) l0 x k : take k l = l0 ++ [x] -> k = S (length l0) -> at_idx l (k - 1) = Got x.
Proof.
  intros H ->. unfold at_idx. assert (E : take (S (length l0)) l !! length l0 = Some x) by (rewrite H; by apply list_lookup_middle).
  apply lookup_take_Some in E as [E _]. replace (S (length l0) - 1)%nat with (length l0) by lia. by rewrite E.
Qed.

Lemma take_insert_snoc {A} (l : list A) k x : (k < length l)%nat -> take (S k) (<[k := x]> l) = take k l ++ [x].
Proof. intros H. rewrite (take_S_r _ _ x) by (by apply list_lookup_insert_eq). by rewrite take_insert_ge. Qed.

Section Walk.
Variables (m : gmap Z Z) (sblk strs : Z) (noff : list Z -> Z) (os ts : Z).

Definition prop_ok (p : list Z * list Z) : Prop :=
  no_nul p.1 = true /\ holds m (strs + noff p.1) (p.1 ++ [0]) /\ 0 <= noff p.1 < 2 ^ 32 /\ Z.of_nat (length p.2) < 2 ^ 32 /\ Forall is_u8 p.2.

(** A token and the walker after it. *)
Lemma token_read t w : 0 <= t < 2 ^ 32 -> holds m (sblk + w_off w) (word t) -> os + w_off w + 4 <= ts ->
  token_step m sblk strs os ts w =
    (let w := mk_walker (w_off w + 4) (w_depth w) (w_ctx w) (w_ac w) (w_sc w) (w_info w) in
     if t =? FDT_BEGIN_NODE then w ← begin_node m sblk w; mret (Some w)
     else if t =? FDT_END_NODE then mret (Some (mk_walker (w_off w) (w_depth w - 1) (w_ctx w) (w_ac w) (w_sc w) (w_info w)))
     else if t =? FDT_PROP then w ← property m sblk strs w; mret (Some w)
     else if t =? FDT_NOP then mret (Some w)
     else mret None).
Proof. intros Ht Hh Hb. unfold token_step. rewrite (proj2 (Z.ltb_ge _ _)) by lia. by rewrite (rbe32_word m _ t). Qed.

Lemma property_spec ctxs acs scs ctx ac sc pac psc w name d :
  at_level (ctxs ++ [ctx]) (acs ++ [ac]) (scs ++ [sc]) w -> length acs = length ctxs -> length scs = length ctxs ->
  pac = default 2 (last acs) -> psc = default 2 (last scs) -> cells_fit ctx pac psc -> prop_ok (name, d) ->
  holds m (sblk + w_off w) (word (Z.of_nat (length d)) ++ word (noff name) ++ pad4 d) ->
  exists w', property m sblk strs w = Got w' /\ w_off w' = w_off w + 8 + Z.of_nat (length (pad4 d)) /\
    let '(ac', sc', i') := prop_value ctx pac psc (name, d) (ac, sc, w_info w) in
    at_level (ctxs ++ [ctx]) (acs ++ [ac']) (scs ++ [sc']) w' /\ w_info w' = i'.
Proof.
  intros [Hok Hd Hc Ha Hs] La Ls Epac Epsc Hfit (Hnn & Hstr & Hno & Hlen & Hb) Hh. cbn [fst snd] in *.
  apply holds_app in Hh as [H1 Hh]. apply holds_app in Hh as [H2 H3]. rewrite !length_word in *. rewrite <- Z.add_assoc in H3. change (Z.of_nat 4 + Z.of_nat 4) with 8 in H3.
  apply holds_app in H3 as [H3 _]. rewrite length_app in *. cbn [length] in *. rewrite Nat.add_1_r in *.
  assert (R1 : rbe32 m (sblk + w_off w) = Z.of_nat (length d)) by (apply rbe32_word; [lia|exact H1]).
  assert (R2 : rbe32 m (sblk + w_off w + 4) = noff name) by (apply rbe32_word; [lia|exact H2]). unfold property. rewrite R1, R2.
  rewrite Hd. change (0 <? S (length ctxs))%nat with true. cbv iota. rewrite (take_last_idx (w_ctx w) ctxs ctx _ Hc) by done. cbn [mbind fout_bind]. replace (S (length ctxs) - 1)%nat with (length ctxs) by lia.
  assert (Hcell : forall l s x, take (S (length ctxs)) l = s ++ [x] -> length s = length ctxs ->
    (if (0 <? length ctxs)%nat then at_idx l (length ctxs - 1) else mret 2) = Got (default 2 (last s)) /\ length l <> O).
  { intros l s x Ht Hlx. split; [|intros E; apply nil_length_inv in E as ->; cbn in Ht; by destruct s]. destruct (Nat.ltb_spec 0 (length ctxs)); [|destruct s; [done|cbn in *; lia]].
    destruct s as [|y s _] using rev_ind; [cbn in *; lia|]. rewrite last_snoc. rewrite length_app in Hlx. cbn in Hlx.
    apply (take_last_idx l s y); [|lia]. apply (f_equal (take (length ctxs))) in Ht. rewrite take_take, Nat.min_l in Ht by lia. rewrite Ht. rewrite take_app_le by (rewrite length_app; cbn; lia).
    apply take_ge. rewrite length_app. cbn. lia. }
  destruct (Hcell _ _ _ Ha La) as [-> _]. cbn [mbind fout_bind]. destruct (Hcell _ _ _ Hs Ls) as [-> _]. cbn [mbind fout_bind]. rewrite <- Epac, <- Epsc.
  assert (Hnamed : forall want, no_nul want = true -> streq m strs (noff name) want = bool_decide (name = want)).
  { intros want Hw. unfold streq. apply streq_from_holds; [done|by apply no_nul_spec..]. }
  assert (Hset : forall (l : list Z) s x y, take (S (length ctxs)) l = s ++ [x] -> length s = length ctxs -> length l = MAX_DEPTH -> take (S (length ctxs)) (<[length ctxs := y]> l) = s ++ [y]).
  { intros l s x y Ht Hls Hll. rewrite take_insert_snoc. 2: { apply (f_equal length) in Ht. rewrite length_take, length_app in Ht. cbn [length] in Ht. lia. }
    f_equal. apply (f_equal (take (length ctxs))) in Ht. rewrite take_take, Nat.min_l in Ht by lia. rewrite Ht, <- Hls. apply take_app_length. }
  unfold prop_value. rewrite !Hnamed by reflexivity. assert (Hfour : (Z.of_nat (length d) =? 4) = (length d =? 4)%nat) by (destruct (Z.eqb_spec (Z.of_nat (length d)) 4), (Nat.eqb_spec (length d) 4); lia || done).
  rewrite Hfour. pose proof (align4_nonneg (Z.of_nat (length d)) ltac:(lia)). rewrite length_pad4. destruct Hok as [K1 K2 K3 K4 K5].
  assert (Hval : length d = 4%nat -> rbe32 m (sblk + w_off w + 8) = be_bytes d) by (intros; by apply rbe32_holds).
  destruct (bool_decide (name = lit "#address-cells") && (length d =? 4)%nat) eqn:E1; [|destruct (bool_decide (name = lit "#size-cells") && (length d =? 4)%nat) eqn:E2]; (eexists; split; [reflexivity|]; cbn [w_off]; split; [lia|]).
  - apply andb_true_iff in E1 as [_ E1%Nat.eqb_eq]. rewrite Hval by done. split; [|done]. split; cbn [w_off w_depth w_ctx w_ac w_sc]; rewrite ?length_app; cbn [length]; rewrite ?Nat.add_1_r; try done.
    + split; cbn; rewrite ?length_insert; try done; lia.
    + by eapply Hset.
  - apply andb_true_iff in E2 as [_ E2%Nat.eqb_eq]. rewrite Hval by done. split; [|done]. split; cbn [w_off w_depth w_ctx w_ac w_sc]; rewrite ?length_app; cbn [length]; rewrite ?Nat.add_1_r; try done.
    + split; cbn; rewrite ?length_insert; try done; lia.
    + by eapply Hset.
  - split; [split; cbn [w_off w_depth w_ctx w_ac w_sc]; rewrite ?length_app; cbn [length]; rewrite ?Nat.add_1_r; try done; split; cbn; try done; lia|]. cbn [w_info].
    apply prop_arm_same; [done| |done|done]. unfold holds. apply load_store_bytes.
Qed.

Lemma begin_spec ctxs acs scs w name : at_level ctxs acs scs w -> (length ctxs < MAX_DEPTH)%nat ->
  (ctxs = [] -> w_ac w !! O = Some 2 /\ w_sc w !! O = Some 2) -> no_nul name = true -> (length name < 128)%nat ->
  holds m (sblk + w_off w) (pad4 (name ++ [0])) ->
  let ctx := classify (length ctxs =? 0)%nat (default COther (last ctxs)) name in
  exists w', begin_node m sblk w = Got w' /\ w_off w' = w_off w + Z.of_nat (length (pad4 (name ++ [0]))) /\
    at_level (ctxs ++ [ctx]) (acs ++ [default 2 (last acs)]) (scs ++ [default 2 (last scs)]) w' /\ w_info w' = enter ctx (w_info w).
Proof.
  intros [Hok Hd Hc Ha Hs] Hk Hroot Hnn Hlen Hh ctx. destruct Hok as [K1 K2 K3 K4 K5].
  assert (Hh' : holds m (sblk + w_off w) (name ++ 0 :: replicate (Z.to_nat (align4 (Z.of_nat (length (name ++ [0])))) - length (name ++ [0])) 0)).
  { unfold pad4 in Hh. by rewrite <- app_assoc in Hh. }
  assert (Hn : name_len 128 m (sblk + w_off w) = length name) by (eapply name_len_holds; [exact Hh'|by apply no_nul_spec|done]).
  apply holds_app in Hh' as [Hname _]. unfold begin_node. rewrite Hn, Hname, Hd. pose proof (align4_nonneg (Z.of_nat (length name) + 1) ltac:(lia)).
  assert (Hlp : Z.of_nat (length (pad4 (name ++ [0]))) = align4 (Z.of_nat (length name) + 1)) by (rewrite length_pad4, length_app; cbn [length]; f_equal; lia).
  rewrite Hlp. rewrite (proj2 (Nat.ltb_lt _ _)) by done. destruct ctxs as [|c0 ctxs _] using rev_ind.
  - cbn [length Nat.ltb Nat.leb Nat.eqb] in *. cbn [mbind fout_bind]. destruct (Hroot eq_refl) as [Ra Rs]. rewrite take_0 in Ha, Hs. subst acs scs. eexists. split; [reflexivity|]. cbn [w_off].
    split; [done|]. split; [|done]. split; cbn [w_off w_depth w_ctx w_ac w_sc app length last default]; [split; cbn; rewrite ?length_insert; try done; lia|done|..].
    + rewrite (take_insert_snoc _ 0) by (rewrite K3; done). done.
    + by rewrite (take_S_r _ _ 2 Ra).
    + by rewrite (take_S_r _ _ 2 Rs).
  - clear Hlp Hn Hname Hh. rewrite !length_app in *. cbn [length] in *. rewrite !Nat.add_1_r in *. change (0 <? S (length ctxs))%nat with true. cbv iota. rewrite (take_last_idx _ _ _ _ Hc eq_refl). cbn [mbind fout_bind].
    assert (La : length acs = S (length ctxs)) by (rewrite <- Ha, length_take; lia). assert (Ls : length scs = S (length ctxs)) by (rewrite <- Hs, length_take; lia).
    destruct acs as [|a acs _] using rev_ind; [done|]. destruct scs as [|sc scs _] using rev_ind; [done|]. rewrite length_app in La, Ls. cbn [length] in La, Ls.
    rewrite (take_last_idx _ _ _ _ Ha) by lia. cbn [mbind fout_bind]. rewrite (take_last_idx _ _ _ _ Hs) by lia. cbn [mbind fout_bind]. subst ctx. rewrite !last_snoc, !length_app. cbn [default length]. rewrite !Nat.add_1_r.
    eexists. split; [reflexivity|]. cbn [w_off]. split; [done|]. split; [|done].
    split; cbn [w_off w_depth w_ctx w_ac w_sc]; rewrite ?length_app; cbn [length]; rewrite ?Nat.add_1_r; [split; cbn; rewrite ?length_insert; try done; lia|done|..];
      rewrite take_insert_snoc by (unfold MAX_DEPTH in *; lia); [by rewrite Hc|by rewrite Ha|by rewrite Hs].
Qed.

(** The cell counts after the properties do not depend on the rest. *)
Definition cells_after (ps : list (list Z * list Z)) (pac psc : Z) : Z * Z := (prop_values COther pac psc ps (pac, psc, defaults)).1.

Lemma prop_value_cells ctx pac psc p ac sc i ctx' i' : (prop_value ctx pac psc p (ac, sc, i)).1 = (prop_value ctx' pac psc p (ac, sc, i')).1.
Proof. destruct p as [name d]. unfold prop_value. destruct (_ && _); [done|]. by destruct (_ && _). Qed.

Lemma prop_values_cells ctx pac psc ps ac sc i ctx' i' : (prop_values ctx pac psc ps (ac, sc, i)).1 = (prop_values ctx' pac psc ps (ac, sc, i')).1.
Proof.
  revert ac sc i i'. induction ps as [|p ps IH]; intros ac sc i i'; [done|]. unfold prop_values in *. cbn [foldl]. pose proof (prop_value_cells ctx pac psc p ac sc i ctx' i') as E.
  destruct (prop_value ctx _ _ _ _) as [[ac1 sc1] i1], (prop_value ctx' _ _ _ _) as [[ac2 sc2] i2]. cbn in E. injection E as -> ->. apply IH.
Qed.

Fixpoint node_ok (at_root : bool) (parent : Ctx) (pac psc : Z) (n : node) : Prop :=
  match n with
  | Node name ps cs =>
      let ctx := classify at_root parent name in
      no_nul name = true /\ (length name < 128)%nat /\ Forall prop_ok ps /\ cells_fit ctx pac psc /\
      let '(ac, sc) := cells_after ps pac psc in
      List.fold_right and True (List.map (node_ok false ctx ac sc) cs)
  end.

Lemma walk_tokens_step n w w' : token_step m sblk strs os ts w = Got (Some w') -> walk_tokens m sblk strs (S n) os ts w = walk_tokens m sblk strs n os ts w'.
Proof. intros H. cbn [walk_tokens]. by rewrite H. Qed.

Lemma props_walk ps ctxs acs scs ctx ac sc pac psc w f :
  at_level (ctxs ++ [ctx]) (acs ++ [ac]) (scs ++ [sc]) w -> length acs = length ctxs -> length scs = length ctxs ->
  pac = default 2 (last acs) -> psc = default 2 (last scs) -> cells_fit ctx pac psc -> Forall prop_ok ps ->
  holds m (sblk + w_off w) (enc_props noff ps) -> os + w_off w + Z.of_nat (length (enc_props noff ps)) <= ts ->
  exists w', walk_tokens m sblk strs (length ps + f) os ts w = walk_tokens m sblk strs f os ts w' /\
    w_off w' = w_off w + Z.of_nat (length (enc_props noff ps)) /\
    let '(ac', sc', i') := prop_values ctx pac psc ps (ac, sc, w_info w) in
    at_level (ctxs ++ [ctx]) (acs ++ [ac']) (scs ++ [sc']) w' /\ w_info w' = i'.
Proof.
  intros Hl La Ls Epac Epsc Hfit. revert ac sc w Hl. induction ps as [|[name d] ps IH]; intros ac sc w Hl Hps Hh Hb.
  { exists w. cbn. split; [done|]. split; [lia|done]. }
  apply Forall_cons in Hps as [Hp Hps]. unfold enc_props in Hh, Hb |- *. cbn [fmap list_fmap concat] in *. unfold enc_prop at 1 in Hh. cbn [fst snd] in Hh.
  set (head := word (Z.of_nat (length d)) ++ word (noff name) ++ pad4 d) in *. rewrite <- app_assoc in Hh. apply holds_app in Hh as [Ht Hh]. apply holds_app in Hh as [Hhd Hh]. rewrite length_word in *.
  assert (Hlen : Z.of_nat (length (enc_prop noff (name, d))) = 4 + Z.of_nat (length head)) by (unfold enc_prop; rewrite length_app, length_word; cbn [fst snd]; fold head; lia).
  assert (Hhl : Z.of_nat (length head) = 8 + Z.of_nat (length (pad4 d))) by (unfold head; rewrite !length_app, !length_word; lia).
  rewrite length_app in Hb. cbn [length Nat.add].
  set (w1 := mk_walker (w_off w + 4) (w_depth w) (w_ctx w) (w_ac w) (w_sc w) (w_info w)).
  assert (Hl1 : at_level (ctxs ++ [ctx]) (acs ++ [ac]) (scs ++ [sc]) w1) by (destruct Hl as [[] ? ? ? ?]; split; try done; split; cbn; try done; lia).
  destruct (property_spec ctxs acs scs ctx ac sc pac psc w1 name d Hl1 La Ls Epac Epsc Hfit Hp) as (w2 & Ew2 & Ho2 & Hv).
  { cbn [w_off w1]. by replace (sblk + (w_off w + 4)) with (sblk + w_off w + Z.of_nat 4) by lia. }
  assert (Estep : token_step m sblk strs os ts w = Got (Some w2)) by (rewrite (token_read FDT_PROP); [cbn -[property]; fold w1; by rewrite Ew2|done|done|lia]).
  rewrite (walk_tokens_step _ _ _ Estep). unfold prop_values. cbn [foldl]. change (w_info w1) with (w_info w) in Hv. destruct (prop_value ctx pac psc (name, d) (ac, sc, w_info w)) as [[ac2 sc2] i2]. destruct Hv as [Hl2 Hi2].
  cbn [w_off w1] in Ho2. destruct (IH ac2 sc2 w2 Hl2 Hps) as (w3 & Ew3 & Ho3 & Hv3).
  { replace (sblk + w_off w2) with (sblk + w_off w + Z.of_nat 4 + Z.of_nat (length head)) by lia. exact Hh. }
  { unfold enc_props. lia. }
  exists w3. split; [exact Ew3|]. split; [rewrite length_app; unfold enc_props in Ho3; lia|]. by rewrite Hi2 in Hv3.
Qed.

Definition walks (f : nat) (w : walker) : fout DtbInfo := walk_tokens m sblk strs f os ts w.
Definition enc_nodes (cs : list node) : list Z := List.concat (List.map (enc_node noff) cs).
Definition nodes_ok (ctx : Ctx) (ac sc : Z) (cs : list node) : Prop := List.fold_right and True (List.map (node_ok false ctx ac sc) cs).

(** What the walk over an encoded node does. *)
Definition node_walks (n : node) : Prop := forall ctxs acs scs w f,
  at_level ctxs acs scs w -> length acs = length ctxs -> length scs = length ctxs -> (length ctxs + height n <= MAX_DEPTH)%nat ->
  (ctxs = [] -> w_ac w !! O = Some 2 /\ w_sc w !! O = Some 2) ->
  node_ok (length ctxs =? 0)%nat (default COther (last ctxs)) (default 2 (last acs)) (default 2 (last scs)) n ->
  holds m (sblk + w_off w) (enc_node noff n) -> os + w_off w + Z.of_nat (length (enc_node noff n)) <= ts ->
  exists w', walks (tokens n + f) w = walks f w' /\ at_level ctxs acs scs w' /\ w_off w' = w_off w + Z.of_nat (length (enc_node noff n)) /\
    w_info w' = eval (length ctxs =? 0)%nat (default COther (last ctxs)) (default 2 (last acs)) (default 2 (last scs)) n (w_info w).

Lemma children_walk cs ctxs acs scs ctx ac sc w f : Forall node_walks cs ->
  at_level (ctxs ++ [ctx]) (acs ++ [ac]) (scs ++ [sc]) w -> length acs = length ctxs -> length scs = length ctxs ->
  (S (length ctxs) + List.list_max (List.map height cs) <= MAX_DEPTH)%nat -> nodes_ok ctx ac sc cs ->
  holds m (sblk + w_off w) (enc_nodes cs) -> os + w_off w + Z.of_nat (length (enc_nodes cs)) <= ts ->
  exists w', walks (List.list_sum (List.map tokens cs) + f) w = walks f w' /\ at_level (ctxs ++ [ctx]) (acs ++ [ac]) (scs ++ [sc]) w' /\
    w_off w' = w_off w + Z.of_nat (length (enc_nodes cs)) /\ w_info w' = List.fold_left (fun i c => eval false ctx ac sc c i) cs (w_info w).
Proof.
  intros Hcs Hl La Ls. revert w Hl. induction Hcs as [|c cs Hc _ IH]; intros w Hl Hh Hok Hm Hb; unfold enc_nodes in *; cbn [List.map List.concat List.fold_left List.fold_right] in *.
  { exists w. cbn. split_and!; [done|done|lia|done]. }
  change (List.list_max (height c :: List.map height cs)) with (Nat.max (height c) (List.list_max (List.map height cs))) in Hh.
  apply holds_app in Hm as [Hm1 Hm2]. rewrite length_app in Hb. destruct Hok as [Hok1 Hok2].
  destruct (Hc (ctxs ++ [ctx]) (acs ++ [ac]) (scs ++ [sc]) w (List.list_sum (List.map tokens cs) + f)%nat Hl) as (w1 & E1 & Hl1 & Ho1 & Hi1); try (rewrite ?length_app; cbn [length]; lia).
  { intros E. by destruct ctxs. }
  { rewrite !last_snoc, length_app, Nat.add_1_r. exact Hok1. }
  { exact Hm1. }
  destruct (IH w1 Hl1 ltac:(lia) Hok2) as (w2 & E2 & Hl2 & Ho2 & Hi2); [by rewrite Ho1, Z.add_assoc|lia|].
  exists w2. split_and!; [|done|rewrite length_app; lia|].
  - change (List.list_sum (tokens c :: List.map tokens cs)) with (tokens c + List.list_sum (List.map tokens cs))%nat. rewrite <- Nat.add_assoc. by rewrite E1.
  - rewrite Hi2, Hi1, !last_snoc, length_app, Nat.add_1_r. done.
Qed.

Lemma node_walk n : node_walks n.
Proof.
  remember (height n) as h eqn:Hheight. assert (Hle : (height n <= h)%nat) by lia. clear Hheight. revert n Hle. induction h as [|h IHh]; intros [name ps cs] Hle; [cbn in Hle; lia|].
  intros ctxs acs scs w f Hl La Ls Hh Hroot Hok Hm Hb. cbn [enc_node height tokens node_ok eval] in *. fold (enc_nodes cs) in *.
  set (ctx := classify _ _ name) in *. set (pac := default 2 (last acs)) in *. set (psc := default 2 (last scs)) in *. destruct Hok as (Hnn & Hnl & Hps & Hfit & Hcs).
  rewrite !length_app, !length_word in Hb. apply holds_app in Hm as [Mt Hm]. apply holds_app in Hm as [Mn Hm]. apply holds_app in Hm as [Mp Hm]. apply holds_app in Hm as [Mc Me]. rewrite length_word in *.
  set (w1 := mk_walker (w_off w + 4) (w_depth w) (w_ctx w) (w_ac w) (w_sc w) (w_info w)).
  assert (Hl1 : at_level ctxs acs scs w1) by (destruct Hl as [[] ? ? ? ?]; split; try done; split; cbn; try done; lia).
  destruct (begin_spec ctxs acs scs w1 name Hl1 ltac:(lia) Hroot Hnn Hnl) as (w2 & E2 & Ho2 & Hl2 & Hi2).
  { cbn [w_off w1]. by replace (sblk + (w_off w + 4)) with (sblk + w_off w + Z.of_nat 4) by lia. }
  fold ctx pac psc in Hl2, Hi2. cbn [w_off w_info w1] in Ho2, Hi2.
  assert (S1 : token_step m sblk strs os ts w = Got (Some w2)) by (rewrite (token_read FDT_BEGIN_NODE); [cbn -[begin_node]; fold w1; by rewrite E2|done|done|lia]).
  destruct (props_walk ps ctxs acs scs ctx pac psc pac psc w2 (List.list_sum (List.map tokens cs) + S f)%nat Hl2 La Ls eq_refl eq_refl Hfit Hps) as (w3 & E3 & Ho3 & Hv3).
  { by replace (sblk + w_off w2) with (sblk + w_off w + Z.of_nat 4 + Z.of_nat (length (pad4 (name ++ [0])))) by lia. }
  { lia. }
  rewrite Hi2 in Hv3. pose proof (prop_values_cells COther pac psc ps pac psc defaults ctx (enter ctx (w_info w))) as Ecells. unfold cells_after in Hcs. rewrite Ecells in Hcs.
  destruct (prop_values ctx pac psc ps (pac, psc, enter ctx (w_info w))) as [[ac sc] i3]. cbn [fst] in Hcs. destruct Hv3 as [Hl3 Hi3].
  assert (Hsub : Forall node_walks cs).
  { apply Forall_forall. intros c Hc. apply IHh. assert (height c <= List.list_max (List.map height cs))%nat; [|lia].
    apply list_elem_of_In in Hc. pose proof (proj1 (List.list_max_le (List.map height cs) _) (Nat.le_refl _)) as Hmax. rewrite List.Forall_forall in Hmax. apply Hmax. by apply List.in_map. }
  destruct (children_walk cs ctxs acs scs ctx ac sc w3 (S f) Hsub Hl3 La Ls ltac:(lia) Hcs) as (w4 & E4 & Hl4 & Ho4 & Hi4).
  { replace (sblk + w_off w3) with (sblk + w_off w + Z.of_nat 4 + Z.of_nat (length (pad4 (name ++ [0]))) + Z.of_nat (length (enc_props noff ps))) by lia. exact Mc. }
  { lia. }
  set (w5 := mk_walker (w_off w4 + 4) (w_depth w4 - 1) (w_ctx w4) (w_ac w4) (w_sc w4) (w_info w4)).
  assert (S5 : token_step m sblk strs os ts w4 = Got (Some w5)).
  { rewrite (token_read FDT_END_NODE); [done|done| |lia]. replace (sblk + w_off w4) with (sblk + w_off w + Z.of_nat 4 + Z.of_nat (length (pad4 (name ++ [0]))) + Z.of_nat (length (enc_props noff ps)) + Z.of_nat (length (enc_nodes cs))) by lia. exact Me. }
  exists w5. split_and!.
  - replace (2 + length ps + List.list_sum (List.map tokens cs) + f)%nat with (S (length ps + (List.list_sum (List.map tokens cs) + S f))) by lia.
    unfold walks in *. rewrite (walk_tokens_step _ _ _ S1), E3, E4. by apply walk_tokens_step.
  - destruct Hl4 as [[K1 K2 K3 K4 K5] Hd Hc Ha Hs]. rewrite length_app in *. cbn [length] in *. rewrite Nat.add_1_r in *.
    assert (Hcut : forall A (l : list A) s x, take (S (length ctxs)) l = s ++ [x] -> length s = length ctxs -> take (length ctxs) l = s).
    { intros A l s x Ht Hls. apply (f_equal (take (length ctxs))) in Ht. rewrite take_take, Nat.min_l in Ht by lia. rewrite Ht, <- Hls. apply take_app_length. }
    split; cbn [w_off w_depth w_ctx w_ac w_sc w5]; [split; cbn; try done; lia|lia|by eapply Hcut..].
  - cbn [w_off w5]. rewrite !length_app, !length_word. lia.
  - cbn [w_info w5]. by rewrite Hi4, Hi3.
Qed.
End Walk.

(** ** The blob *)

Definition dword (v : Z) : list Z := word (v / 2 ^ 32) ++ word (v mod 2 ^ 32).
Definition rsv_bytes (l : list (Z * Z)) : list Z := concat ((fun p => dword p.1 ++ dword p.2) <$> l) ++ dword 0 ++ dword 0.
Definition rsv_ok (p : Z * Z) : Prop := is_u64 p.1 /\ is_u64 p.2 /\ p <> (0, 0).

Lemma rbe64_dword m p v : is_u64 v -> holds m p (dword v) -> rbe64 m p = v.
Proof.
  unfold is_u64. intros Hv H. unfold dword in H. apply holds_app in H as [H1 H2]. rewrite length_word in H2.
  assert (0 <= v / 2 ^ 32 < 2 ^ 32) by (split; [apply Z.div_pos; lia|apply Z.div_lt_upper_bound; lia]). pose proof (Z.mod_pos_bound v (2 ^ 32) ltac:(lia)).
  unfold rbe64. rewrite (rbe32_word m p (v / 2 ^ 32)), (rbe32_word m (p + 4) (v mod 2 ^ 32)) by done. rewrite Z.shiftl_mul_pow2, Z.lor_comm, lor_high by lia.
  pose proof (Z.div_mod v (2 ^ 32) ltac:(lia)). lia.
Qed.

Lemma length_dword v : length (dword v) = 8%nat.
Proof. unfold dword. by rewrite length_app, !length_word. Qed.

Lemma reserve_map_S r m rp i : reserve_map (S r) m rp i =
  if (rbe64 m rp =? 0) && (rbe64 m (rp + 8) =? 0) then mret i
  else reserve_map r m (rp + 16) (if (length (reserved i) <? 8)%nat then set_reserved (reserved i ++ [(rbe64 m rp, rbe64 m (rp + 8))]) i else i).
Proof. done. Qed.

Lemma reserve_map_spec m p l i : holds m p (rsv_bytes l) -> Forall rsv_ok l -> (length (reserved i) <= 8)%nat ->
  reserve_map (S (length l)) m p i = Got (set_reserved (take 8 (reserved i ++ l)) i).
Proof.
  intros H Hl. revert p i H. induction Hl as [|[a s] l [Ha [Hs Hne]] _ IH]; intros p i H Hr; unfold rsv_bytes in H; cbn [fmap list_fmap concat app length fst snd] in *.
  - apply holds_app in H as [H1 H2]. rewrite length_dword in H2. cbn [reserve_map]. rewrite (rbe64_dword m p 0), (rbe64_dword m (p + 8) 0) by done. cbn [Z.eqb andb].
    rewrite app_nil_r, take_ge by lia. by destruct i.
  - rewrite <- !app_assoc in H. apply holds_app in H as [H1 H]. apply holds_app in H as [H2 H]. rewrite !length_dword in *. rewrite reserve_map_S.
    rewrite (rbe64_dword m p a), (rbe64_dword m (p + 8) s) by done.
    assert (((a =? 0) && (s =? 0)) = false) as -> by (destruct (Z.eqb_spec a 0), (Z.eqb_spec s 0); subst; done).
    rewrite IH; [| |destruct (Nat.ltb_spec (length (reserved i)) 8); cbn [reserved set_reserved]; rewrite ?length_app; cbn [length]; lia].
    + destruct (Nat.ltb_spec (length (reserved i)) 8); cbn [reserved set_reserved]; [by rewrite <- app_assoc|]. by rewrite !take_app_le by lia.
    + by replace (p + 16) with (p + Z.of_nat 8 + Z.of_nat 8) by lia.
Qed.

Lemma tokens_bound noff n : (4 * tokens n <= length (enc_node noff n))%nat.
Proof.
  remember (height n) as h eqn:Hh. assert (Hle : (height n <= h)%nat) by lia. clear Hh. revert n Hle. induction h as [|h IH]; intros [name ps cs] Hle; [cbn in Hle; lia|].
  cbn [tokens enc_node]. rewrite !length_app, !length_word. assert (4 * length ps <= length (enc_props noff ps))%nat.
  { clear. induction ps as [|p ps IH]; [done|]. unfold enc_props in *. cbn [fmap list_fmap concat length]. rewrite length_app. unfold enc_prop at 1. rewrite !length_app, !length_word. lia. }
  assert (4 * List.list_sum (List.map tokens cs) <= length (List.concat (List.map (enc_node noff) cs)))%nat; [|lia].
  cbn [height] in Hle. assert (Hall : forall c, In c cs -> (4 * tokens c <= length (enc_node noff c))%nat).
  { intros c Hc. apply IH. pose proof (proj1 (List.list_max_le (List.map height cs) _) (Nat.le_refl _)) as Hmax. rewrite List.Forall_forall in Hmax.
    specialize (Hmax (height c) (List.in_map _ _ _ Hc)). lia. }
  clear -Hall. induction cs as [|c cs IH]; [done|]. cbn [List.map List.concat]. rewrite length_app. pose proof (Hall c (or_introl eq_refl)).
  specialize (IH (fun x Hx => Hall x (or_intror Hx))). change (List.list_sum (tokens c :: List.map tokens cs)) with (tokens c + List.list_sum (List.map tokens cs))%nat. lia.
Qed.

Definition finish (i : DtbInfo) : DtbInfo := if 1 <? cpu_count i then set_cpus (cpu_count i - 1) i else i.

(** C23: the device tree is read as it is meant.  On a blob with the standard header, a
    reserve map and the encoding of a tree at most twelve levels deep, whose interrupt
    controllers and reserved regions have parents with one or two address and size cells, the walker
    gives exactly what a recursive evaluation of the tree gives: each node classified by
    its name and its parent, each property applied with the cell counts of the parent,
    children with the counts in force at the end of the properties. *)
Theorem dtb_reads_tree m ptr noff total_size off_struct off_strings off_rsvmap rsv tree : ptr <> 0 ->
  holds m ptr (word FDT_MAGIC ++ word total_size ++ word off_struct ++ word off_strings ++ word off_rsvmap) ->
  0 <= total_size < 2 ^ 32 -> 0 <= off_struct < 2 ^ 32 -> 0 <= off_strings < 2 ^ 32 -> 0 <= off_rsvmap < 2 ^ 32 ->
  holds m (ptr + off_rsvmap) (rsv_bytes rsv) -> Forall rsv_ok rsv ->
  holds m (ptr + off_struct) (enc_node noff tree ++ word FDT_END) -> off_struct + Z.of_nat (length (enc_node noff tree)) + 4 <= total_size ->
  (height tree <= MAX_DEPTH)%nat -> node_ok m (ptr + off_strings) noff true COther 2 2 tree ->
  parse (S (length rsv)) m ptr = Got (finish (eval true COther 2 2 tree (set_reserved (take 8 rsv) defaults))).
Proof.
  intros Hp Hh Ht Hs Hst Hr Hrsv Hrok Htree Hfit Hht Hok. unfold parse. rewrite (proj2 (Z.eqb_neq _ _)) by done.
  apply holds_app in Hh as [A1 Hh]. apply holds_app in Hh as [A2 Hh]. apply holds_app in Hh as [A3 Hh]. apply holds_app in Hh as [A4 A5]. rewrite !length_word in *.
  assert (R1 : rbe32 m ptr = FDT_MAGIC) by (by apply rbe32_word). assert (R2 : rbe32 m (ptr + 4) = total_size) by (by apply rbe32_word).
  assert (R3 : rbe32 m (ptr + 8) = off_struct) by (replace (ptr + 8) with (ptr + Z.of_nat 4 + Z.of_nat 4) by lia; by apply rbe32_word).
  assert (R4 : rbe32 m (ptr + 12) = off_strings) by (replace (ptr + 12) with (ptr + Z.of_nat 4 + Z.of_nat 4 + Z.of_nat 4) by lia; by apply rbe32_word).
  assert (R5 : rbe32 m (ptr + 16) = off_rsvmap) by (replace (ptr + 16) with (ptr + Z.of_nat 4 + Z.of_nat 4 + Z.of_nat 4 + Z.of_nat 4) by lia; by apply rbe32_word).
  unfold walk. rewrite R1, R2, R3, R4, R5. cbn [Z.eqb FDT_MAGIC Pos.eqb negb]. rewrite (reserve_map_spec m _ rsv defaults Hrsv Hrok) by (cbn; lia). cbn [mbind fout_bind reserved defaults app].
  set (i0 := set_reserved _ _). set (w := mk_walker _ _ _ _ _ _). apply holds_app in Htree as [M1 M2].
  pose proof (tokens_bound noff tree) as Htok. assert (Z.of_nat (tokens tree) + 1 <= total_size / 4) by (apply Z.div_le_lower_bound; lia).
  replace (S (Z.to_nat (total_size / 4))) with (tokens tree + S (Z.to_nat (total_size / 4) - tokens tree))%nat by lia.
  destruct (node_walk m (ptr + off_struct) (ptr + off_strings) noff off_struct total_size tree [] [] [] w (S (Z.to_nat (total_size / 4) - tokens tree))) as (w' & E & Hl & Ho & Hi); try done.
  { split; try done. split; try done. cbn. unfold MAX_DEPTH. lia. }
  { cbn [w_off w]. by rewrite Z.add_0_r. }
  { cbn [w_off w]. lia. }
  unfold walks in E. rewrite E. cbn [walk_tokens]. rewrite (token_read m _ _ off_struct total_size FDT_END); [|done| |cbn [w_off w] in Ho; lia].
  - cbn [Z.eqb FDT_END FDT_BEGIN_NODE FDT_END_NODE FDT_PROP FDT_NOP Pos.eqb]. cbn [mbind fout_bind mret fout_ret]. rewrite Hi. done.
  - rewrite Ho. cbn [w_off w]. exact M2.
Qed.

(** ** An example: a machine with two cores *)

Definition cells2 (a s : Z) : list (list Z * list Z) := [(lit "#address-cells", word a); (lit "#size-cells", word s)].
Definition sample_tree : node :=
  Node [] (cells2 2 2)
    [Node (lit "memory@80000000") [(lit "reg", dword 0x80000000 ++ dword 0x20000000)] [];
     Node (lit "cpus") (cells2 1 0) [Node (lit "cpu@0") [(lit "enable-method", lit "psci" ++ [0])] []; Node (lit "cpu@1") [] []];
     Node (lit "reserved-memory") (cells2 2 2) [Node (lit "fw@90000000") [(lit "reg", dword 0x90000000 ++ dword 0x1000)] []];
     Node (lit "pl011@9000000") [(lit "reg", dword 0x0A000000 ++ dword 0x1000)] []].

Definition sample_names : list (list Z) := [lit "#address-cells"; lit "#size-cells"; lit "reg"; lit "enable-method"].
Fixpoint name_offset (names : list (list Z)) (n : list Z) : Z :=
  match names with [] => 0 | x :: rest => if bool_decide (x = n) then 0 else Z.of_nat (length x) + 1 + name_offset rest n end.
Definition sample_noff : list Z -> Z := name_offset sample_names.
Definition sample_struct : list Z := enc_node sample_noff sample_tree.
Definition sample_header : list Z := word FDT_MAGIC ++ word 2000 ++ word 68 ++ word (72 + Z.of_nat (length sample_struct)) ++ word 20.
Definition sample_mem : gmap Z Z :=
  store_bytes ∅ 0x1000 (sample_header ++ rsv_bytes [(0x48000000, 0x1000); (0x48001000, 0x1000)] ++ sample_struct ++ word FDT_END ++ concat ((fun n => n ++ [0]) <$> sample_names)).

Lemma u8_all l : forallb (fun b => (0 <=? b) && (b <? 256)) l = true -> Forall is_u8 l.
Proof.
  induction l as [|b l IH]; cbn; [done|]. intros [H1 H2]%andb_true_iff. apply andb_true_iff in H1 as [?%Z.leb_le ?%Z.ltb_lt]. constructor; [unfold is_u8; lia|by apply IH].
Qed.

Lemma dtb_reads_tree_witness : parse 3 sample_mem 0x1000 =
  Got (mk_dtb 0x80000000 0x20000000 2 true 0x08000000 0x08010000 0x0A000000 0 0 0 0 0 0 0 [(0x48000000, 0x1000); (0x48001000, 0x1000); (0x90000000, 0x1000)]).
Proof.
  transitivity (Got (finish (eval true COther 2 2 sample_tree (set_reserved (take 8 [(0x48000000, 0x1000); (0x48001000, 0x1000)]) defaults)))); [|vm_compute; reflexivity].
  apply (dtb_reads_tree sample_mem 0x1000 sample_noff 2000 68 (72 + Z.of_nat (length sample_struct)) 20 [(0x48000000, 0x1000); (0x48001000, 0x1000)] sample_tree);
    [discriminate|vm_compute; reflexivity|lia|lia|split; vm_compute; [discriminate|reflexivity]|lia|vm_compute; reflexivity| |vm_compute; reflexivity|vm_compute; discriminate|unfold MAX_DEPTH; cbn; lia|].
  - repeat constructor; discriminate.
  - unfold sample_tree, cells2.
    repeat match goal with
      | |- node_ok _ _ _ _ _ _ _ (Node _ _ _) => cbn [node_ok]
      | |- _ /\ _ => split
      | |- Forall is_u8 _ => apply u8_all; reflexivity
      | |- Forall _ _ => constructor
      | |- prop_ok _ _ _ _ => unfold prop_ok; cbn [fst snd]
      | |- holds _ _ _ => vm_compute; reflexivity
      | |- (_ < _)%nat => cbn; lia
      | |- cells_fit _ _ _ => vm_compute; tauto
      | |- context [cells_after ?ps ?a ?s] => let r := eval vm_compute in (cells_after ps a s) in change (cells_after ps a s) with r; cbn [List.map List.fold_right]
      end; done.
Defined.
