(* ===== verification/Semantic.v ===== *)
(** * The semantic store (semantic/src)

    A content-addressed store in the last part of the disk: the block manager, the hash,
    the index, the searches and the message handlers.  A sector buffer is a list of 512
    bytes.  The disk behind the two system calls is the class [BlockDevice]; pointers in
    messages are resolved in the byte memory of [Machine].  [f32] is IEEE binary32 of
    the standard library's [SpecFloat]; [sqrtf] of the C library is a parameter. *)

From stdpp Require Import base numbers list gmap.
From Stdlib Require Import ZArith Lia Bool SpecFloat.
From S2P Require Import Prelude Machine Sector.

(** ** Floats *)

Definition f32 : Type := spec_float.
Definition f32_zero : f32 := S754_zero false.
Definition f32_add : f32 -> f32 -> f32 := SFadd 24 128.
Definition f32_mul : f32 -> f32 -> f32 := SFmul 24 128.
Definition f32_div : f32 -> f32 -> f32 := SFdiv 24 128.

(** [f32::from_bits] and [to_bits]. *)
Definition from_bits (b : Z) : f32 :=
  let s := Z.testbit b 31 in
  let e := Z.land (Z.shiftr b 23) 0xFF in
  let m := Z.land b 0x7FFFFF in
  if e =? 255 then (if m =? 0 then S754_infinity s else S754_nan)
  else if e =? 0 then match m with Zpos p => S754_finite s p (-149) | _ => S754_zero s end
  else match m + 2 ^ 23 with Zpos p => S754_finite s p (e - 150) | _ => S754_nan end.

Definition to_bits (f : f32) : Z :=
  let sign (s : bool) := if s then 2 ^ 31 else 0 in
  match f with
  | S754_zero s => sign s
  | S754_infinity s => sign s + Z.shiftl 255 23
  | S754_nan => 0x7FC00000
  | S754_finite s m e => sign s + (if Zpos m <? 2 ^ 23 then Zpos m else Z.shiftl (e + 150) 23 + (Zpos m - 2 ^ 23))
  end.

(** ** vector.rs *)

Definition EMBEDDING_DIM : nat := 384.

(** An embedding as the bits of its floats. *)
Record Embedding := mk_emb { evector : list Z }.

Definition Embedding_zero : Embedding := mk_emb (replicate EMBEDDING_DIM 0).

Definition Embedding_from_bytes (src : list Z) : Embedding :=
  let floats := Nat.min EMBEDDING_DIM (length src / 4) in
  mk_emb (((fun i => le_bytes (take 4 (drop (i * 4) src))) <$> seq 0 floats) ++ replicate (EMBEDDING_DIM - floats) 0).

(** The bytes of an embedding in memory. *)
Definition emb_bytes (v : Embedding) : list Z := concat (to_le_bytes 4 <$> evector v).

(** The loop over the dimensions: the product and the two squares. *)
Fixpoint dot_norms (a b : list Z) (acc : f32 * f32 * f32) : f32 * f32 * f32 :=
  match a, b with
  | x :: a', y :: b' =>
      let '(dot, norm_a, norm_b) := acc in
      let x := from_bits x in
      let y := from_bits y in
      dot_norms a' b' (f32_add dot (f32_mul x y), f32_add norm_a (f32_mul x x), f32_add norm_b (f32_mul y y))
  | _, _ => acc
  end.

Definition cosine_similarity (sqrtf : f32 -> f32) (a b : Embedding) : f32 :=
  let '(dot, norm_a, norm_b) := dot_norms (evector a) (evector b) (f32_zero, f32_zero, f32_zero) in
  if SFeqb norm_a f32_zero || SFeqb norm_b f32_zero then f32_zero
  else f32_div dot (f32_mul (sqrtf norm_a) (sqrtf norm_b)).

(** ** hash.rs *)

Definition hash_prime : Z := 0x1099511628211.
Definition hash_step (h b : Z) : Z := Z.lxor h b *u hash_prime.

Definition hash_buf (buf : list Z) : list Z :=
  let h := foldl hash_step 0xcbf29ce484222325 buf in
  concat ((fun i => to_le_bytes 8 ((h +u i) *u hash_prime)) <$> [0; 1; 2; 3]).

(** ** metadata.rs *)

Record Metadata := mk_meta {
  created : Z;
  accessed : Z;
  content_type : Z;
  parent : list Z;
  mflags : Z;
  tags : list Z;
  padding : list Z;
}.

Definition Metadata_new (ct : Z) : Metadata := mk_meta 0 0 ct (replicate 32 0) 0 (replicate 128 0) (replicate 72 0).

(** The layout of the structure in memory, 256 bytes. *)
Definition meta_bytes (m : Metadata) : list Z :=
  to_le_bytes 8 (created m) ++ to_le_bytes 8 (accessed m) ++ to_le_bytes 4 (content_type m) ++ parent m
  ++ to_le_bytes 4 (mflags m) ++ tags m ++ padding m.

Definition meta_at (b : list Z) : Metadata :=
  mk_meta (le_bytes (take 8 b)) (le_bytes (take 8 (drop 8 b))) (le_bytes (take 4 (drop 16 b))) (take 32 (drop 20 b))
    (le_bytes (take 4 (drop 52 b))) (take 128 (drop 56 b)) (take 72 (drop 184 b)).

(** ** block_manager.rs *)

Definition TOTAL_BLOCKS : Z := 20480.
Definition SEMANTIC_BASE_SECTOR : Z := 14680064.
Definition SUPERBLOCK_MAGIC : list Z := [65; 69; 71; 76; 79; 83; 1; 0].

Record sem (D : Type) := mk_sem { sdisk : D; next_free : Z }.
Arguments mk_sem {D}.
Arguments sdisk {D}.
Arguments next_free {D}.

Section Store.
Context {D : Type} `{!BlockDevice D}.

(** [BlockManager::new]. *)
Definition bm_new (d : D) : sem D := mk_sem d 101.

Definition bm_read_block (sector : Z) (s : sem D) : list Z := read_block (sdisk s) (SEMANTIC_BASE_SECTOR +u sector).
Definition bm_write_block (sector : Z) (buf : list Z) (s : sem D) : sem D :=
  mk_sem (write_block (sdisk s) (SEMANTIC_BASE_SECTOR +u sector) buf) (next_free s).

Definition superblock (next : Z) : list Z := SUPERBLOCK_MAGIC ++ to_le_bytes 4 1 ++ to_le_bytes 8 next ++ replicate 492 0.
Definition flush_superblock (s : sem D) : sem D := bm_write_block 0 (superblock (next_free s)) s.

Definition bm_init (s : sem D) : sem D :=
  let buf := bm_read_block 0 s in
  if bool_decide (take 8 buf = SUPERBLOCK_MAGIC) then
    let next := le_bytes (take 8 (drop 12 buf)) in
    mk_sem (sdisk s) (if (101 <=? next) && (next <? TOTAL_BLOCKS) then next else 101)
  else flush_superblock s.

Definition allocate (s : sem D) : option Z * sem D :=
  let block := next_free s in
  let s := mk_sem (sdisk s) (block +u 1) in
  if TOTAL_BLOCKS <=? block then (None, s) else (Some block, flush_superblock s).

(** ** store.rs *)

Record IndexEntry := mk_entry { e_hash : list Z; e_sector : Z; e_len : Z; e_meta : Z; e_vec : Z }.

Definition read_u64 (buf : list Z) (offset : nat) : Z := le_bytes (take 8 (drop offset buf)).
Definition read_u32 (buf : list Z) (offset : nat) : Z := le_bytes (take 4 (drop offset buf)).

(** Entry [j] of an index sector. *)
Definition entry_at (buf : list Z) (j : nat) : IndexEntry :=
  let off := (j * 64)%nat in
  mk_entry (take 32 (drop off buf)) (read_u64 buf (off + 32)) (read_u64 buf (off + 40)) (read_u64 buf (off + 48))
    (read_u64 buf (off + 56)).
Definition entry_bytes (e : IndexEntry) : list Z :=
  e_hash e ++ to_le_bytes 8 (e_sector e) ++ to_le_bytes 8 (e_len e) ++ to_le_bytes 8 (e_meta e) ++ to_le_bytes 8 (e_vec e).

(** The two loops of [lookup_index]: [n] entries from [j] on, [n] sectors from [i] on. *)
Fixpoint lookup_entries (n j : nat) (hash buf : list Z) : option (Z * Z) :=
  match n with
  | O => None
  | S n' =>
      let e := entry_at buf j in
      if negb (e_sector e =? 0) && bool_decide (e_hash e = hash) then Some (e_sector e, e_len e)
      else lookup_entries n' (j + 1) hash buf
  end.
Fixpoint lookup_sectors (n : nat) (i : Z) (hash : list Z) (s : sem D) : option (Z * Z) :=
  match n with
  | O => None
  | S n' =>
      match lookup_entries 8 0 hash (bm_read_block (1 + i) s) with
      | Some r => Some r
      | None => lookup_sectors n' (i + 1) hash s
      end
  end.
Definition lookup_index (hash : list Z) (s : sem D) : option (Z * Z) := lookup_sectors 100 0 hash s.

(** The first free slot of a sector, and of the index. *)
Fixpoint free_slot_in (n j : nat) (buf : list Z) : option nat :=
  match n with
  | O => None
  | S n' => if e_sector (entry_at buf j) =? 0 then Some j else free_slot_in n' (j + 1) buf
  end.
Fixpoint write_index_from (n : nat) (i : Z) (e : IndexEntry) (s : sem D) : bool * sem D :=
  match n with
  | O => (false, s)
  | S n' =>
      let buf := bm_read_block (1 + i) s in
      match free_slot_in 8 0 buf with
      | Some j => (true, bm_write_block (1 + i) (splice (j * 64) (entry_bytes e) buf) s)
      | None => write_index_from n' (i + 1) e s
      end
  end.
Definition write_index (hash : list Z) (sector len meta_sec vec_sec : Z) (s : sem D) : bool * sem D :=
  write_index_from 100 0 (mk_entry hash sector len meta_sec vec_sec) s.

(** A buffer of 512 bytes that starts with [data]. *)
Definition block_of (data : list Z) : list Z := data ++ replicate (512 - length data) 0.

(** The error strings of [store_full] and [retrieve]. *)
Inductive store_error := DataTooLarge | DiskFull | DiskFullMeta | DiskFullVec | IndexFull | BufferTooSmall | NotFound.

(** The metadata sector: [0] without metadata. *)
Definition store_meta (metadata : option Metadata) (s : sem D) : result Z store_error * sem D :=
  match metadata with
  | None => (Ok 0, s)
  | Some m =>
      let '(o, s) := allocate s in
      match o with
      | None => (Err DiskFullMeta, s)
      | Some sec => (Ok sec, bm_write_block sec (block_of (meta_bytes m)) s)
      end
  end.

(** The three sectors of the embedding; the first is recorded. *)
Definition store_vec (vector : option Embedding) (s : sem D) : result Z store_error * sem D :=
  match vector with
  | None => (Ok 0, s)
  | Some v =>
      let '(o1, s) := allocate s in
      match o1 with
      | None => (Err DiskFullVec, s)
      | Some s1 =>
          let '(o2, s) := allocate s in
          match o2 with
          | None => (Err DiskFullVec, s)
          | Some s2 =>
              let '(o3, s) := allocate s in
              match o3 with
              | None => (Err DiskFullVec, s)
              | Some s3 =>
                  let b := emb_bytes v in
                  (Ok s1, bm_write_block s3 (take 512 (drop 1024 b)) (bm_write_block s2 (take 512 (drop 512 b))
                            (bm_write_block s1 (take 512 b) s)))
              end
          end
      end
  end.

Definition store_full (data : list Z) (metadata : option Metadata) (vector : option Embedding) (s : sem D)
  : result (list Z) store_error * sem D :=
  let hash := hash_buf data in
  match lookup_index hash s with
  | Some _ => (Ok hash, s)
  | None =>
      if (512 <? length data)%nat then (Err DataTooLarge, s)
      else
        let '(o, s) := allocate s in
        match o with
        | None => (Err DiskFull, s)
        | Some sector =>
            let '(r, s) := store_meta metadata s in
            match r with
            | Err e => (Err e, s)
            | Ok meta_sector =>
                let '(r, s) := store_vec vector s in
                match r with
                | Err e => (Err e, s)
                | Ok vec_sector =>
                    let s := bm_write_block sector (block_of data) s in
                    let '(ok, s) := write_index hash sector (Z.of_nat (length data)) meta_sector vec_sector s in
                    (if ok then Ok hash else Err IndexFull, s)
                end
            end
        end
  end.

(** [retrieve] into a buffer of [room] bytes: the bytes written at its start.  A length
    above 512 in the index is a slice out of range. *)
Definition retrieve (hash : list Z) (room : Z) (s : sem D) : outcome (result (list Z) store_error) :=
  match lookup_index hash s with
  | None => Done (Err NotFound)
  | Some (sector, len) =>
      if room <? len then Done (Err BufferTooSmall)
      else if 512 <? len then Panic
      else Done (Ok (take (Z.to_nat len) (bm_read_block sector s)))
  end.

(** ** index.rs and query.rs *)

Record SearchResult := mk_res { r_hash : list Z; r_sector : Z; r_len : Z }.

(** The loop of [contains] from offset [i] on. *)
Fixpoint contains_from (n i : nat) (haystack needle : list Z) : bool :=
  match n with
  | O => false
  | S n' =>
      if (i + length needle <=? length haystack)%nat then
        if bool_decide (take (length needle) (drop i haystack) = needle) then true else contains_from n' (i + 1) haystack needle
      else false
  end.
Definition contains (haystack needle : list Z) : bool :=
  if (length needle =? 0)%nat || (length haystack <? length needle)%nat then (length needle =? 0)%nat
  else contains_from (S (length haystack)) 0 haystack needle.

(** The loops of the three searches over the index with at most eight results: [hit]
    is the body for an entry in use. *)
Fixpoint search_entries (n j : nat) (hit : IndexEntry -> bool) (buf : list Z) (results : list SearchResult) : list SearchResult :=
  match n with
  | O => results
  | S n' =>
      if (length results <? 8)%nat then
        let e := entry_at buf j in
        let results := if negb (e_sector e =? 0) && hit e then results ++ [mk_res (e_hash e) (e_sector e) (e_len e)] else results in
        search_entries n' (j + 1) hit buf results
      else results
  end.
Fixpoint search_sectors (n : nat) (i : Z) (hit : IndexEntry -> bool) (s : sem D) (results : list SearchResult) : list SearchResult :=
  match n with
  | O => results
  | S n' =>
      if (length results <? 8)%nat then
        search_sectors n' (i + 1) hit s (search_entries 8 0 hit (bm_read_block (1 + i) s) results)
      else results
  end.

(** The bytes before the first NUL. *)
Fixpoint until_nul (l : list Z) : list Z :=
  match l with [] => [] | b :: l' => if b =? 0 then [] else b :: until_nul l' end.

Definition tag_hit (tag : list Z) (s : sem D) (e : IndexEntry) : bool :=
  negb (e_meta e =? 0) && contains (until_nul (take 128 (drop 56 (bm_read_block (e_meta e) s)))) tag.
Definition search_by_tag (tag : list Z) (s : sem D) : list SearchResult := search_sectors 100 0 (tag_hit tag s) s [].

Definition type_hit (ct : Z) (s : sem D) (e : IndexEntry) : bool :=
  negb (e_meta e =? 0) && (read_u32 (bm_read_block (e_meta e) s) 16 =? ct).
Definition search_by_type (ct : Z) (s : sem D) : list SearchResult := search_sectors 100 0 (type_hit ct s) s [].

Definition keyword_hit (keyword : list Z) (s : sem D) (e : IndexEntry) : bool :=
  negb ((e_len e =? 0) || (512 <? e_len e)) && contains (take (Z.to_nat (e_len e)) (bm_read_block (e_sector e) s)) keyword.
Definition search_keyword (keyword : list Z) (s : sem D) : list SearchResult :=
  if (length keyword =? 0)%nat then [] else search_sectors 100 0 (keyword_hit keyword s) s [].

(** *** Similarity *)

Record VecResult := mk_vres { v_hash : list Z; v_sector : Z; v_len : Z; similarity : f32 }.

(** [while k > 0 && results[k].similarity > results[k - 1].similarity]: the element at
    [k] moves up. *)
Fixpoint bubble_up (k : nat) (results : list VecResult) : list VecResult :=
  match k with
  | O => results
  | S k' =>
      match results !! k, results !! k' with
      | Some a, Some b => if SFltb (similarity b) (similarity a) then bubble_up k' (<[k' := a]> (<[k := b]> results)) else results
      | _, _ => results
      end
  end.

(** A candidate is put into the results, of which there are at most eight. *)
Definition add_candidate (c : VecResult) (results : list VecResult) : list VecResult :=
  if (length results <? 8)%nat then bubble_up (length results) (results ++ [c])
  else match results !! 7%nat with
       | Some last => if SFltb (similarity last) (similarity c) then bubble_up 7 (<[7%nat := c]> results) else results
       | None => results
       end.

Section Vector.
Context (sqrtf : f32 -> f32) (query : Embedding) (threshold : f32).

(** The embedding of an entry, and its similarity when it has one that is high enough. *)
Definition stored_emb (vec_sector : Z) (s : sem D) : Embedding :=
  Embedding_from_bytes (bm_read_block vec_sector s ++ bm_read_block (vec_sector +u 1) s ++ bm_read_block (vec_sector +u 2) s).
Definition candidate (s : sem D) (e : IndexEntry) : option VecResult :=
  if (e_sector e =? 0) || (e_vec e =? 0) then None
  else
    let sim := cosine_similarity sqrtf query (stored_emb (e_vec e) s) in
    if SFleb threshold sim then Some (mk_vres (e_hash e) (e_sector e) (e_len e) sim) else None.

Fixpoint vector_entries (n j : nat) (buf : list Z) (s : sem D) (results : list VecResult) : list VecResult :=
  match n with
  | O => results
  | S n' =>
      vector_entries n' (j + 1) buf s
        match candidate s (entry_at buf j) with Some c => add_candidate c results | None => results end
  end.
Fixpoint vector_sectors (n : nat) (i : Z) (s : sem D) (results : list VecResult) : list VecResult :=
  match n with
  | O => results
  | S n' => vector_sectors n' (i + 1) s (vector_entries 8 0 (bm_read_block (1 + i) s) s results)
  end.
Definition search_by_vector (s : sem D) : list VecResult := vector_sectors 100 0 s [].

End Vector.

(** ** lib.rs *)

(** The physical range of RAM, under either address. *)
Definition valid_ptr (ptr len : Z) : bool :=
  let RAM_BASE := 0x40000000 in
  let RAM_END := 0x140000000 in
  let KVA_BASE := KERNEL_VA_OFFSET + RAM_BASE in
  let base := if KVA_BASE <=? ptr then ptr - KERNEL_VA_OFFSET else ptr in
  if (base <? RAM_BASE) || (RAM_END <=? base) then false
  else if base + len <? 2 ^ 64 then base + len <=? RAM_END else false.

(** Memory and the store. *)
Record service := mk_service { smem : gmap Z Z; sstore : sem D }.

(** [slice::from_raw_parts]. *)
Definition bytes_in (ptr len : Z) (v : service) : list Z := load_bytes (Z.to_nat len) (smem v) (to_dma_addr ptr).
(** [ptr::copy_nonoverlapping] to [ptr]. *)
Definition write_mem (ptr : Z) (l : list Z) (v : service) : service := mk_service (kcopy (smem v) ptr l) (sstore v).

(** A reply: status and a second part, zeros after them. *)
Definition reply_of (status : Z) (rest : list Z) : list Z := to_le_bytes 8 status ++ rest ++ replicate (24 - length rest) 0.

Definition handle_store (data : list Z) (v : service) : list Z * service :=
  let ptr := read_u64 data 8 in
  let len := read_u64 data 16 in
  let hash_ptr := read_u64 data 24 in
  if valid_ptr ptr len && valid_ptr hash_ptr 32 && (0 <? len) then
    let '(r, s) := store_full (bytes_in ptr len v) None None (sstore v) in
    let v := mk_service (smem v) s in
    match r with
    | Ok h => (reply_of 0 [], write_mem hash_ptr h v)
    | Err _ => (reply_of 1 [], v)
    end
  else (reply_of 2 [], v).

Definition handle_retrieve (data : list Z) (v : service) : outcome (list Z * service) :=
  let hash_ptr := read_u64 data 8 in
  let out := read_u64 data 16 in
  let out_len := read_u64 data 24 in
  if valid_ptr hash_ptr 32 && valid_ptr out out_len then
    r ← retrieve (bytes_in hash_ptr 32 v) out_len (sstore v);
    match r with
    | Ok d => mret (reply_of 0 (to_le_bytes 8 (Z.of_nat (length d))), write_mem out d v)
    | Err _ => mret (reply_of 1 (to_le_bytes 8 0), v)
    end
  else mret (reply_of 2 (to_le_bytes 8 0), v).

Definition handle_store_meta (data : list Z) (v : service) : list Z * service :=
  let ptr := read_u64 data 8 in
  let len := read_u64 data 16 in
  let meta_ptr := read_u64 data 24 in
  if valid_ptr ptr len && (0 <? len) then
    let meta := if valid_ptr meta_ptr 256 then Some (meta_at (bytes_in meta_ptr 256 v)) else None in
    let '(r, s) := store_full (bytes_in ptr len v) meta None (sstore v) in
    let v := mk_service (smem v) s in
    match r with
    | Ok h => (reply_of 0 (take 24 h), v)
    | Err _ => (reply_of 1 (replicate 24 0), v)
    end
  else (reply_of 2 (replicate 24 0), v).

(** The hashes of the results, 32 bytes each, from [ptr] on. *)
Fixpoint write_hashes (ptr : Z) (results : list SearchResult) (v : service) : service :=
  match results with
  | [] => v
  | r :: rest => write_hashes (ptr + 32) rest (write_mem ptr (r_hash r) v)
  end.

(** [handle_search_tag] and [handle_query]: the search differs. *)
Definition handle_search (search : list Z -> sem D -> list SearchResult) (data : list Z) (v : service) : list Z * service :=
  let ptr := read_u64 data 8 in
  let len := read_u64 data 16 in
  let result_ptr := read_u64 data 24 in
  if valid_ptr ptr len && (0 <? len) && valid_ptr result_ptr 256 then
    let results := search (bytes_in ptr len v) (sstore v) in
    (reply_of 0 (to_le_bytes 8 (Z.of_nat (length results))), write_hashes result_ptr results v)
  else (reply_of 2 (to_le_bytes 8 0), v).
Definition handle_search_tag : list Z -> service -> list Z * service := handle_search search_by_tag.
Definition handle_query : list Z -> service -> list Z * service := handle_search search_keyword.

(** The results of a similarity search, 40 bytes each. *)
Fixpoint write_vec_results (ptr : Z) (results : list VecResult) (v : service) : service :=
  match results with
  | [] => v
  | r :: rest =>
      write_vec_results (ptr + 40) rest (write_mem (ptr + 32) (to_le_bytes 4 (to_bits (similarity r))) (write_mem ptr (v_hash r) v))
  end.

Definition handle_vector_search (sqrtf : f32 -> f32) (data : list Z) (v : service) : list Z * service :=
  let emb_ptr := read_u64 data 8 in
  let threshold := from_bits (read_u32 data 16) in
  let result_ptr := read_u64 data 24 in
  if valid_ptr emb_ptr 1536 && valid_ptr result_ptr 320 then
    let query := Embedding_from_bytes (bytes_in emb_ptr 1536 v) in
    let results := search_by_vector sqrtf query threshold (sstore v) in
    (reply_of 0 (to_le_bytes 8 (Z.of_nat (length results))), write_vec_results result_ptr results v)
  else (reply_of 2 (to_le_bytes 8 0), v).

Definition handle_store_vec (data : list Z) (v : service) : list Z * service :=
  let ptr := read_u64 data 8 in
  let len := read_u64 data 16 in
  let emb_ptr := read_u64 data 24 in
  if valid_ptr ptr len && (0 <? len) && valid_ptr emb_ptr 1536 then
    let e := Embedding_from_bytes (bytes_in emb_ptr 1536 v) in
    let '(r, s) := store_full (bytes_in ptr len v) None (Some e) (sstore v) in
    let v := mk_service (smem v) s in
    match r with
    | Ok h => (reply_of 0 (take 24 h), v)
    | Err _ => (reply_of 1 (replicate 24 0), v)
    end
  else (reply_of 2 (replicate 24 0), v).

(** One round of [main]: the reply to a message, none for an unknown operation. *)
Definition serve_message (sqrtf : f32 -> f32) (data : list Z) (v : service) : outcome (option (list Z) * service) :=
  let answer (r : list Z * service) := mret (Some r.1, r.2) in
  let op := read_u64 data 0 in
  if op =? 100 then answer (handle_store data v)
  else if op =? 101 then r ← handle_retrieve data v; answer r
  else if op =? 102 then answer (handle_store_meta data v)
  else if op =? 103 then answer (handle_search_tag data v)
  else if op =? 104 then answer (handle_query data v)
  else if op =? 105 then answer (handle_vector_search sqrtf data v)
  else if op =? 106 then answer (handle_store_vec data v)
  else mret (None, v).

(** The messages [main] receives, in order, after its start. *)
Fixpoint serve_all (sqrtf : f32 -> f32) (msgs : list (list Z)) (v : service) : outcome (list (option (list Z)) * service) :=
  match msgs with
  | [] => mret ([], v)
  | m :: rest => '(r, v) ← serve_message sqrtf m v; '(rs, v) ← serve_all sqrtf rest v; mret (r :: rs, v)
  end.

End Store.
