(* ===== verification/SemanticInv.v ===== *)
(** * The index of the semantic store

    The index as a list of entries, what its two loops compute on it, and the invariant
    of the store. *)

From stdpp Require Import base numbers list gmap.
From Stdlib Require Import ZArith Lia Bool.
From S2P Require Import Prelude Machine Sector Semantic.

(** ** Parts of a buffer *)

Lemma part_inside n k off data b : (k + n <= length data)%nat -> (off + length data <= length b)%nat ->
  take n (drop (off + k) (splice off data b)) = take n (drop k data).
Proof.
  intros Hk Hb. unfold splice. assert (Ht : length (take off b) = off) by (apply length_take_le; lia).
  rewrite <- drop_drop. rewrite (drop_app_length' (take off b)) by done. rewrite drop_app_le by lia. apply take_app_le. rewrite length_drop. lia.
Qed.

Lemma part_outside n o off data b : (off + length data <= length b)%nat -> (o + n <= off \/ off + length data <= o)%nat ->
  take n (drop o (splice off data b)) = take n (drop o b).
Proof.
  intros Hb [Ho|Ho]; unfold splice; assert (Ht : length (take off b) = off) by (apply length_take_le; lia).
  - rewrite drop_app_le by lia. rewrite take_app_le by (rewrite length_drop; lia). rewrite <- (take_drop off b) at 2.
    rewrite drop_app_le by lia. by rewrite take_app_le by (rewrite length_drop; lia).
  - rewrite app_assoc, drop_app_ge by (rewrite length_app; lia). rewrite length_app, Ht, drop_drop. f_equal. f_equal. lia.
Qed.

(** ** Entries *)

Definition in_use (e : IndexEntry) : bool := negb (e_sector e =? 0).
Definition free_entry : IndexEntry := mk_entry (replicate 32 0) 0 0 0 0.

Record entry_ok (e : IndexEntry) : Prop := {
  eo_hash : length (e_hash e) = 32%nat;
  eo_sector : is_u64 (e_sector e);
  eo_len : is_u64 (e_len e);
  eo_meta : is_u64 (e_meta e);
  eo_vec : is_u64 (e_vec e);
}.

Lemma length_entry_bytes e : length (e_hash e) = 32%nat -> length (entry_bytes e) = 64%nat.
Proof. intros H. unfold entry_bytes. rewrite !length_app, !length_to_le_bytes, H. done. Qed.

Lemma le_u64 v : is_u64 v -> le_bytes (to_le_bytes 8 v) = v.
Proof. intros H. rewrite le_to_le_bytes. apply Z.mod_small. exact H. Qed.

(** The entries of a sector, and one of them written. *)
Definition sector_entries (buf : list Z) : list IndexEntry := entry_at buf <$> seq 0 8.

Lemma entry_at_bytes e : entry_ok e -> entry_at (entry_bytes e) 0 = e.
Proof.
  intros [Hh Hs Hl Hm Hv]. destruct e as [h s l m v]. cbn [e_hash e_sector e_len e_meta e_vec] in *.
  unfold entry_at, read_u64, entry_bytes. cbn [e_hash e_sector e_len e_meta e_vec Nat.mul Nat.add]. f_equal.
  - rewrite drop_0. by apply take_app_length'.
  - rewrite drop_app_length' by done. rewrite take_app_length' by (by rewrite length_to_le_bytes). by apply le_u64.
  - rewrite (app_assoc h), drop_app_length' by (rewrite length_app, length_to_le_bytes; lia).
    rewrite take_app_length' by (by rewrite length_to_le_bytes). by apply le_u64.
  - rewrite (app_assoc h), (app_assoc (h ++ _)), drop_app_length' by (rewrite !length_app, !length_to_le_bytes; lia).
    rewrite take_app_length' by (by rewrite length_to_le_bytes). by apply le_u64.
  - rewrite (app_assoc h), (app_assoc (h ++ _)), (app_assoc ((h ++ _) ++ _)), drop_app_length' by (rewrite !length_app, !length_to_le_bytes; lia).
    rewrite take_ge by (rewrite length_to_le_bytes; lia). by apply le_u64.
Qed.

Lemma entry_at_shift buf j : entry_at buf j = entry_at (take 64 (drop (j * 64) buf)) 0.
Proof.
  unfold entry_at, read_u64. cbn [Nat.mul Nat.add]. f_equal;
    rewrite ?drop_0, ?take_take, ?skipn_firstn_comm, ?take_take, ?drop_drop; done.
Qed.

Lemma sector_entries_splice j e buf : (j < 8)%nat -> length buf = 512%nat -> entry_ok e ->
  sector_entries (splice (j * 64) (entry_bytes e) buf) = <[j := e]> (sector_entries buf).
Proof.
  intros Hj Hb He. pose proof (length_entry_bytes e (eo_hash e He)) as Hl. apply list_eq. intros k. unfold sector_entries.
  rewrite list_lookup_fmap. destruct (decide (k < 8)%nat) as [Hk|Hk].
  - rewrite lookup_seq_lt by lia. cbn [fmap option_fmap option_map Nat.add]. destruct (decide (k = j)) as [->|Hne].
    + rewrite list_lookup_insert_eq by (rewrite length_fmap, length_seq; lia). f_equal. rewrite entry_at_shift.
      rewrite <- (Nat.add_0_r (j * 64)) at 1. rewrite part_inside by lia. rewrite drop_0, take_ge by lia. by apply entry_at_bytes.
    + rewrite list_lookup_insert_ne by done. rewrite list_lookup_fmap, lookup_seq_lt by lia. cbn. f_equal.
      rewrite (entry_at_shift _ k), (entry_at_shift buf k). by rewrite part_outside by lia.
  - rewrite !lookup_ge_None_2; [done|rewrite length_insert, length_fmap, length_seq; lia|rewrite length_seq; lia].
Qed.

(** ** The index *)

Section Index.
Context {D : Type} `{!BlockDevice D} `{!BlockDeviceSpec D}.
Implicit Types (s : sem D).

(** The entries of [n] index sectors from the [i]-th on. *)
Definition index_part (i n : nat) (s : sem D) : list IndexEntry :=
  concat ((fun k => sector_entries (bm_read_block (1 + Z.of_nat k) s)) <$> seq i n).
Definition index (s : sem D) : list IndexEntry := index_part 0 100 s.

Lemma index_part_S i n s : index_part i (S n) s = sector_entries (bm_read_block (1 + Z.of_nat i) s) ++ index_part (S i) n s.
Proof. done. Qed.

Definition has_hash (hash : list Z) (e : IndexEntry) : bool := in_use e && bool_decide (e_hash e = hash).
Definition place (e : IndexEntry) : Z * Z := (e_sector e, e_len e).

Lemma lookup_entries_find n j hash buf : lookup_entries n j hash buf = place <$> List.find (has_hash hash) (entry_at buf <$> seq j n).
Proof.
  revert j. induction n as [|n IH]; intros j; [done|]. cbn [lookup_entries seq fmap list_fmap List.find]. unfold has_hash at 1, in_use.
  destruct (_ && _); [done|]. by rewrite Nat.add_1_r, IH.
Qed.

Lemma lookup_sectors_find n i hash s : lookup_sectors n (Z.of_nat i) hash s = place <$> List.find (has_hash hash) (index_part i n s).
Proof.
  revert i. induction n as [|n IH]; intros i; [done|]. cbn [lookup_sectors]. rewrite lookup_entries_find, index_part_S, find_app.
  unfold sector_entries. destruct (List.find _ _); [done|]. cbn [fmap option_fmap option_map]. rewrite <- IH. f_equal. lia.
Qed.

(** [lookup_index] finds the first entry in use with the hash. *)
Lemma lookup_index_find hash s : lookup_index hash s = place <$> List.find (has_hash hash) (index s).
Proof. exact (lookup_sectors_find 100 0 hash s). Qed.

(** Logical sectors of the store are different physical ones. *)
Definition is_block (a : Z) : Prop := 0 <= a < TOTAL_BLOCKS.

Lemma bm_read_write_same a buf s : length buf = 512%nat -> bm_read_block a (bm_write_block a buf s) = buf.
Proof. intros H. by apply read_write_same. Qed.
Lemma bm_read_write_other a b buf s : is_block a -> is_block b -> a <> b -> bm_read_block b (bm_write_block a buf s) = bm_read_block b s.
Proof.
  intros Ha Hb Hne. apply read_write_other. unfold is_block, TOTAL_BLOCKS in *. rewrite !as_u64_small by (unfold is_u64, SEMANTIC_BASE_SECTOR; lia). lia.
Qed.
Lemma length_bm_read a s : length (bm_read_block a s) = 512%nat.
Proof. apply read_block_length. Qed.

(** A write outside the index leaves it alone. *)
Lemma index_part_write i n a buf s : (i + n <= 100)%nat -> is_block a -> a = 0 \/ 101 <= a ->
  index_part i n (bm_write_block a buf s) = index_part i n s.
Proof.
  intros Hi Ha Hout. unfold index_part. f_equal. apply list_fmap_ext. intros k x Hk. apply lookup_seq in Hk as [-> Hk].
  f_equal. apply bm_read_write_other; [done| |lia]. unfold is_block, TOTAL_BLOCKS. lia.
Qed.
Lemma index_write a buf s : is_block a -> a = 0 \/ 101 <= a -> index (bm_write_block a buf s) = index s.
Proof. intros. by apply index_part_write. Qed.

(** ** A free slot *)

Lemma free_slot_in_spec n j buf : free_slot_in n j buf =
  match list_find (fun e => in_use e = false) (entry_at buf <$> seq j n) with Some (k, _) => Some (j + k)%nat | None => None end.
Proof.
  revert j. induction n as [|n IH]; intros j; [done|]. cbn [free_slot_in seq fmap list_fmap list_find].
  assert (Eu : in_use (entry_at buf j) = negb (e_sector (entry_at buf j) =? 0)) by done.
  destruct (decide (in_use (entry_at buf j) = false)) as [E|E]; rewrite Eu in E; destruct (e_sector (entry_at buf j) =? 0); try done.
  - f_equal. lia.
  - rewrite Nat.add_1_r, IH. destruct (list_find _ _) as [[k e]|]; cbn; [|done]. f_equal. lia.
Qed.

(** The first free entry of a list takes [e]. *)
Fixpoint take_slot (e : IndexEntry) (l : list IndexEntry) : option (list IndexEntry) :=
  match l with
  | [] => None
  | x :: l' => if in_use x then (fun r => x :: r) <$> take_slot e l' else Some (e :: l')
  end.

Lemma take_slot_app e l1 l2 : take_slot e (l1 ++ l2) =
  match take_slot e l1 with Some r => Some (r ++ l2) | None => (fun r => l1 ++ r) <$> take_slot e l2 end.
Proof.
  induction l1 as [|x l1 IH]; cbn; [by destruct (take_slot e l2)|]. destruct (in_use x); [|done]. rewrite IH.
  destruct (take_slot e l1); [done|]. by destruct (take_slot e l2).
Qed.

Lemma take_slot_find e l : take_slot e l =
  match list_find (fun x => in_use x = false) l with Some (k, _) => Some (<[k := e]> l) | None => None end.
Proof.
  induction l as [|x l IH]; [done|]. cbn. destruct (in_use x) eqn:E.
  - rewrite decide_False by done. rewrite IH. by destruct (list_find _ l) as [[k y]|].
  - by rewrite decide_True.
Qed.

Lemma write_index_from_spec n i e s : (i + n <= 100)%nat -> entry_ok e ->
  match take_slot e (index_part i n s) with
  | None => write_index_from n (Z.of_nat i) e s = (false, s)
  | Some l => exists a buf, write_index_from n (Z.of_nat i) e s = (true, bm_write_block a buf s) /\ 1 + Z.of_nat i <= a < 1 + Z.of_nat (i + n) /\
      index_part i n (bm_write_block a buf s) = l
  end.
Proof.
  revert i. induction n as [|n IH]; intros i Hi He; [done|]. cbn [write_index_from]. rewrite index_part_S, take_slot_app.
  set (buf := bm_read_block (1 + Z.of_nat i) s). assert (Lb : length buf = 512%nat) by apply length_bm_read.
  rewrite free_slot_in_spec. rewrite take_slot_find. unfold sector_entries at 1. destruct (list_find _ _) as [[k x]|] eqn:Ek; cbn [Nat.add].
  - apply list_find_Some in Ek as (Hk & _). apply lookup_lt_Some in Hk. rewrite length_fmap, length_seq in Hk.
    set (nb := splice (k * 64) (entry_bytes e) buf).
    assert (Ln : length nb = 512%nat) by (unfold nb; rewrite length_splice; rewrite ?(length_entry_bytes e (eo_hash e He)); lia).
    exists (1 + Z.of_nat i), nb. split; [done|]. split; [lia|]. rewrite index_part_S, bm_read_write_same by done. f_equal.
    + unfold nb. by rewrite sector_entries_splice.
    + unfold index_part. f_equal. apply list_fmap_ext. intros m y Hm. apply lookup_seq in Hm as [-> Hm]. f_equal.
      apply bm_read_write_other; [| |lia]; unfold is_block, TOTAL_BLOCKS; lia.
  - specialize (IH (S i) ltac:(lia) He). replace (Z.of_nat i + 1) with (Z.of_nat (S i)) by lia.
    destruct (take_slot e (index_part (S i) n s)) as [l|]; [|done]. destruct IH as (a & b & E & Ha & El). exists a, b.
    split; [done|]. split; [lia|]. rewrite index_part_S, El. unfold buf. rewrite bm_read_write_other; [done| | |lia]; unfold is_block, TOTAL_BLOCKS; lia.
Qed.

(** [write_index] fills the first free slot, or finds none. *)
Lemma write_index_spec e s : entry_ok e ->
  match take_slot e (index s) with
  | None => write_index (e_hash e) (e_sector e) (e_len e) (e_meta e) (e_vec e) s = (false, s)
  | Some l => exists a buf, write_index (e_hash e) (e_sector e) (e_len e) (e_meta e) (e_vec e) s = (true, bm_write_block a buf s) /\
      1 <= a < 101 /\ index (bm_write_block a buf s) = l
  end.
Proof.
  intros He. unfold write_index. replace (mk_entry _ _ _ _ _) with e by (by destruct e).
  pose proof (write_index_from_spec 100 0 e s ltac:(lia) He) as H. fold (index s) in H. destruct (take_slot e (index s)); [|exact H].
  destruct H as (a & buf & E & Ha & El). exists a, buf. split; [exact E|]. split; [lia|exact El].
Qed.

End Index.
