(* ===== verification/SemanticProofs.v ===== *)
(** * The semantic store is a content-addressed map

    The store against a finite map from hashes to contents and a count of blocks, with
    every error; persistence over a restart, and where it fails. *)

From stdpp Require Import base numbers list gmap fin_maps.
From Stdlib Require Import ZArith Lia Bool Permutation.
From S2P Require Import Prelude Machine Sector Semantic SemanticInv.

(** ** The specification *)

Record spec := mk_spec { sp_map : gmap (list Z) (list Z); sp_blocks : Z }.

(** Blocks are handed out one after the other; each request has its own error. *)
Fixpoint reserve (errors : list store_error) (n : Z) : option store_error * Z :=
  match errors with
  | [] => (None, n)
  | e :: rest => if TOTAL_BLOCKS <=? n then (Some e, n + 1) else reserve rest (n + 1)
  end.

Definition requests (metadata : option Metadata) (vector : option Embedding) : list store_error :=
  DiskFull :: match metadata with Some _ => [DiskFullMeta] | None => [] end
  ++ match vector with Some _ => [DiskFullVec; DiskFullVec; DiskFullVec] | None => [] end.

Definition spec_store (data : list Z) (metadata : option Metadata) (vector : option Embedding) (p : spec) : result (list Z) store_error * spec :=
  let hash := hash_buf data in
  match sp_map p !! hash with
  | Some _ => (Ok hash, p)
  | None =>
      if (512 <? length data)%nat then (Err DataTooLarge, p)
      else match reserve (requests metadata vector) (sp_blocks p) with
           | (Some e, n) => (Err e, mk_spec (sp_map p) n)
           | (None, n) =>
               if (size (sp_map p) <? 800)%nat then (Ok hash, mk_spec (<[hash := data]> (sp_map p)) n)
               else (Err IndexFull, mk_spec (sp_map p) n)
           end
  end.

Definition spec_retrieve (hash : list Z) (room : Z) (p : spec) : result (list Z) store_error :=
  match sp_map p !! hash with
  | None => Err NotFound
  | Some d => if room <? Z.of_nat (length d) then Err BufferTooSmall else Ok d
  end.

(** ** The invariant *)

Section Refines.
Context {D : Type} `{!BlockDevice D} `{!BlockDeviceSpec D}.
Implicit Types (s : sem D).

Definition used s : list IndexEntry := List.filter in_use (index s).
Definition content (e : IndexEntry) s : list Z := take (Z.to_nat (e_len e)) (bm_read_block (e_sector e) s).

(** An entry in use: its block is one that was handed out, and its hash that of its data. *)
Definition held s (e : IndexEntry) : Prop :=
  101 <= e_sector e < next_free s /\ e_sector e < TOTAL_BLOCKS /\ 0 <= e_len e <= 512 /\ hash_buf (content e s) = e_hash e.

Record sem_ok s : Prop := {
  so_next : 101 <= next_free s;
  so_held : Forall (held s) (used s);
  so_hashes : NoDup (e_hash <$> used s);
  so_super : bm_read_block 0 s = superblock (Z.min (next_free s) TOTAL_BLOCKS);
}.

(** The map a state of the disk stands for. *)
Definition pairs s : list (list Z * list Z) := (fun e => (e_hash e, content e s)) <$> used s.
Definition stored_map s : gmap (list Z) (list Z) := list_to_map (pairs s).
Definition stands_for s (p : spec) : Prop := sp_map p = stored_map s /\ sp_blocks p = next_free s.

Lemma lookup_pairs hash l s : (list_to_map ((fun e => (e_hash e, content e s)) <$> List.filter in_use l) : gmap _ _) !! hash =
  (fun e => content e s) <$> List.find (has_hash hash) l.
Proof.
  induction l as [|e l IH]; [done|]. cbn [List.filter List.find]. unfold has_hash at 1. destruct (in_use e); [|exact IH]. cbn [fmap list_fmap andb].
  cbn [list_to_map foldr]. case_bool_decide as E.
  - subst hash. change (foldr _ ∅ _) with (list_to_map ((fun e => (e_hash e, content e s)) <$> List.filter in_use l) : gmap (list Z) (list Z)).
    cbn. by rewrite lookup_insert_eq.
  - cbn. by rewrite lookup_insert_ne.
Qed.

Lemma stored_lookup hash s : stored_map s !! hash = (fun e => content e s) <$> List.find (has_hash hash) (index s).
Proof. apply lookup_pairs. Qed.

Lemma keys_pairs s : (pairs s).*1 = e_hash <$> used s.
Proof. unfold pairs. rewrite <- list_fmap_compose. done. Qed.

Lemma find_used hash s e : List.find (has_hash hash) (index s) = Some e -> e ∈ used s /\ e_hash e = hash.
Proof.
  intros H. apply List.find_some in H as [Hin He]. unfold has_hash in He. apply andb_true_iff in He as [Hu Hh%bool_decide_eq_true].
  split; [|done]. apply list_elem_of_In. apply List.filter_In. done.
Qed.

Lemma held_of s e : sem_ok s -> e ∈ used s -> held s e.
Proof. intros Hs He. eapply Forall_forall; [apply Hs|exact He]. Qed.

Lemma length_content s e : held s e -> length (content e s) = Z.to_nat (e_len e).
Proof. intros (_ & _ & Hl & _). unfold content. rewrite length_take, length_bm_read. lia. Qed.

(** ** Retrieval *)

Lemma retrieve_spec hash room s p : sem_ok s -> stands_for s p -> retrieve hash room s = Done (spec_retrieve hash room p).
Proof.
  intros Hs [Hm _]. unfold retrieve, spec_retrieve. rewrite Hm, stored_lookup, lookup_index_find.
  destruct (List.find _ _) as [e|] eqn:Ef; cbn [fmap option_fmap option_map place]; [|done].
  apply find_used in Ef as [Hin _]. pose proof (held_of s e Hs Hin) as He. rewrite (length_content s e He).
  destruct He as (_ & _ & Hl & _). rewrite Z2Nat.id by lia. destruct (room <? e_len e); [done|].
  destruct (Z.ltb_spec 512 (e_len e)); [lia|done].
Qed.

(** ** Storing *)

(** What storing does to the disk before the index: from [s0] on only new blocks. *)
Record grown s0 s : Prop := {
  g_index : index s = index s0;
  g_next : next_free s0 <= next_free s;
  g_data : forall a, 101 <= a < next_free s0 -> a < TOTAL_BLOCKS -> bm_read_block a s = bm_read_block a s0;
  g_super : bm_read_block 0 s = superblock (Z.min (next_free s) TOTAL_BLOCKS);
}.

Lemma grown_refl s : sem_ok s -> grown s s.
Proof. intros []. by split. Qed.

Lemma length_superblock n : length (superblock n) = 512%nat.
Proof. unfold superblock. rewrite !length_app, !length_to_le_bytes, length_replicate. done. Qed.

Lemma grown_allocate s0 s : 101 <= next_free s0 -> grown s0 s -> next_free s + 1 < 2 ^ 64 ->
  let '(o, s') := allocate s in
  o = (if TOTAL_BLOCKS <=? next_free s then None else Some (next_free s)) /\ next_free s' = next_free s + 1 /\ grown s0 s'.
Proof.
  intros H0 [Gi Gn Gd Gs] Hn. unfold allocate. rewrite as_u64_small by (unfold is_u64; lia). destruct (Z.leb_spec TOTAL_BLOCKS (next_free s)).
  - split; [done|]. split; [done|]. split; try done; cbn [next_free]; [lia|]. rewrite !Z.min_r in * by lia. exact Gs.
  - split; [done|]. split; [done|]. unfold flush_superblock. cbn [next_free sdisk]. split.
    + rewrite index_write; [exact Gi|unfold is_block, TOTAL_BLOCKS; lia|by left].
    + cbn. lia.
    + intros a Ha Ht. rewrite bm_read_write_other; [by apply Gd| | |lia]; unfold is_block, TOTAL_BLOCKS in *; lia.
    + rewrite bm_read_write_same by apply length_superblock. cbn. rewrite Z.min_l by lia. done.
Qed.

Lemma grown_write s0 s a buf : 101 <= next_free s0 -> grown s0 s -> next_free s0 <= a -> a < TOTAL_BLOCKS -> grown s0 (bm_write_block a buf s).
Proof.
  intros H0 [Gi Gn Gd Gs] Ha Ht. assert (is_block a) by (unfold is_block; lia). split.
  - rewrite index_write; [done|done|right; lia].
  - done.
  - intros b Hb Hbt. rewrite bm_read_write_other; [by apply Gd|done|unfold is_block; lia|lia].
  - rewrite bm_read_write_other; [exact Gs|done|unfold is_block, TOTAL_BLOCKS; lia|lia].
Qed.

Lemma reserve_app a b n : reserve (a ++ b) n = match reserve a n with (None, n') => reserve b n' | r => r end.
Proof. revert n. induction a as [|e a IH]; intros n; [done|]. cbn. destruct (TOTAL_BLOCKS <=? n); [done|apply IH]. Qed.

Lemma reserve_bounds l n o n' : reserve l n = (o, n') -> n <= n' <= n + Z.of_nat (length l).
Proof.
  revert n. induction l as [|e l IH]; intros n; cbn [reserve length]; [intros [= _ <-]; lia|].
  destruct (TOTAL_BLOCKS <=? n); [intros [= _ <-]; lia|]. intros H%IH. lia.
Qed.

(** A step of storing that asks for blocks: its result, as [reserve] says, and the disk. *)
Definition asks (errors : list store_error) s0 s (q : result Z store_error * sem D) : Prop :=
  let '(r, s') := q in
  next_free s' = snd (reserve errors (next_free s)) /\ grown s0 s' /\
  match fst (reserve errors (next_free s)) with Some e => r = Err e | None => exists m, r = Ok m /\ is_u64 m end.

Lemma store_meta_asks metadata s0 s : 101 <= next_free s0 -> grown s0 s -> next_free s + 1 < 2 ^ 64 ->
  asks match metadata with Some _ => [DiskFullMeta] | None => [] end s0 s (store_meta metadata s).
Proof.
  intros H0 G Hn. pose proof (g_next _ _ G). destruct metadata as [m|]; cbn [store_meta].
  2: { cbn. split; [done|]. split; [done|]. exists 0. done. }
  pose proof (grown_allocate s0 s H0 G Hn) as Ha. destruct (allocate s) as [o s1]. destruct Ha as (-> & Hn1 & G1). unfold asks. cbn [reserve].
  destruct (Z.leb_spec TOTAL_BLOCKS (next_free s)); cbn; [done|]. split; [done|]. split.
  - apply grown_write; try done; lia.
  - exists (next_free s). split; [done|]. unfold is_u64. lia.
Qed.

Lemma store_vec_asks vector s0 s : 101 <= next_free s0 -> grown s0 s -> next_free s + 3 < 2 ^ 64 ->
  asks match vector with Some _ => [DiskFullVec; DiskFullVec; DiskFullVec] | None => [] end s0 s (store_vec vector s).
Proof.
  intros H0 G Hn. pose proof (g_next _ _ G). destruct vector as [v|]; cbn [store_vec].
  2: { cbn. split; [done|]. split; [done|]. exists 0. done. }
  pose proof (grown_allocate s0 s H0 G ltac:(lia)) as Ha. destruct (allocate s) as [o s1]. destruct Ha as (-> & Hn1 & G1). unfold asks. cbn [reserve].
  destruct (Z.leb_spec TOTAL_BLOCKS (next_free s)); [cbn; split_and!; [lia|done|done]|].
  pose proof (grown_allocate s0 s1 H0 G1 ltac:(lia)) as Ha. destruct (allocate s1) as [o s2]. destruct Ha as (-> & Hn2 & G2). rewrite Hn1.
  destruct (Z.leb_spec TOTAL_BLOCKS (next_free s + 1)); [cbn; split_and!; [lia|done|done]|].
  pose proof (grown_allocate s0 s2 H0 G2 ltac:(lia)) as Ha. destruct (allocate s2) as [o s3]. destruct Ha as (-> & Hn3 & G3). rewrite Hn2, Hn1.
  destruct (Z.leb_spec TOTAL_BLOCKS (next_free s + 1 + 1)); cbn [fst snd]; [split_and!; [lia|done|done]|].
  split; [cbn; lia|]. split.
  - repeat (apply grown_write; [lia| |lia|lia]). done.
  - exists (next_free s). split; [done|]. unfold is_u64. lia.
Qed.

(** *** The index afterwards *)

Lemma grown_content s0 s e : grown s0 s -> held s0 e -> content e s = content e s0.
Proof. intros G (Hs & Ht & _). unfold content. by rewrite (g_data _ _ G). Qed.

Lemma grown_held s0 s e : grown s0 s -> held s0 e -> held s e.
Proof.
  intros G He. pose proof (grown_content _ _ _ G He) as Hc. destruct He as (Hs & Ht & Hl & Hh). pose proof (g_next _ _ G).
  split; [lia|]. split; [done|]. split; [done|]. by rewrite Hc.
Qed.

Lemma grown_used s0 s : grown s0 s -> used s = used s0.
Proof. intros G. unfold used. by rewrite (g_index _ _ G). Qed.

Lemma grown_ok s0 s : sem_ok s0 -> grown s0 s -> sem_ok s.
Proof.
  intros Hs G. pose proof (g_next _ _ G). destruct Hs as [Hn Hh Hd _]. split.
  - lia.
  - rewrite (grown_used _ _ G). eapply Forall_impl; [exact Hh|]. intros e. by apply grown_held.
  - by rewrite (grown_used _ _ G).
  - apply G.
Qed.

Lemma pairs_eq s s' l : Forall (fun e => content e s' = content e s) l ->
  (fun e => (e_hash e, content e s')) <$> l = (fun e => (e_hash e, content e s)) <$> l.
Proof. intros H. apply list_fmap_ext. intros i e Hi. f_equal. eapply Forall_lookup_1 in H; eauto. Qed.

Lemma grown_map s0 s : sem_ok s0 -> grown s0 s -> stored_map s = stored_map s0.
Proof.
  intros Hs G. unfold stored_map, pairs. rewrite (grown_used _ _ G). f_equal. apply pairs_eq. eapply Forall_impl; [apply Hs|]. intros e. by apply grown_content.
Qed.

Lemma take_slot_used e l l' : in_use e = true -> take_slot e l = Some l' -> List.filter in_use l' ≡ₚ e :: List.filter in_use l.
Proof.
  intros He. revert l'. induction l as [|x l IH]; intros l'; [done|]. cbn [take_slot List.filter]. destruct (in_use x) eqn:Ex.
  - destruct (take_slot e l) as [r|] eqn:Er; [|done]. intros [= <-]. cbn [List.filter]. rewrite Ex, (IH r eq_refl). constructor.
  - intros [= <-]. cbn [List.filter]. by rewrite He.
Qed.

Lemma take_slot_none e l : take_slot e l = None <-> length (List.filter in_use l) = length l.
Proof.
  induction l as [|x l IH]; [done|]. cbn [take_slot List.filter]. destruct (in_use x).
  - cbn. destruct (take_slot e l); [|naive_solver lia]. cbn. split; [done|]. intros [= H]. by apply IH in H.
  - split; [done|]. cbn. intros H. pose proof (List.filter_length_le in_use l). lia.
Qed.

Lemma length_index s : length (index s) = 800%nat.
Proof. done. Qed.

Lemma size_stored s : sem_ok s -> size (stored_map s) = length (used s).
Proof.
  intros Hs. unfold stored_map. rewrite <- length_map_to_list, map_to_list_to_map by (rewrite keys_pairs; apply Hs).
  unfold pairs. by rewrite length_fmap.
Qed.

(** The index is a matter of the disk alone. *)
Lemma index_disk s s' : sdisk s = sdisk s' -> index s = index s'.
Proof. intros H. unfold index, index_part. f_equal. apply list_fmap_ext. intros i k _. unfold bm_read_block. by rewrite H. Qed.

#[local] Opaque index.

(** The index entry of new data, in its slot. *)
Lemma index_entry_ok s0 s a buf e l data : sem_ok s0 -> grown s0 s -> take_slot e (index s) = Some l -> 1 <= a < 101 ->
  index (bm_write_block a buf s) = l -> stored_map s0 !! hash_buf data = None -> e_hash e = hash_buf data -> held s e -> content e s = data ->
  sem_ok (bm_write_block a buf s) /\ stored_map (bm_write_block a buf s) = <[hash_buf data := data]> (stored_map s0).
Proof.
  intros Hs G Ht Ha Hi Hnew Hh He Hc. set (s' := bm_write_block a buf s). pose proof (grown_ok _ _ Hs G) as Hok.
  assert (Hrd : forall b, is_block b -> b <> a -> bm_read_block b s' = bm_read_block b s).
  { intros b Hb Hne. apply bm_read_write_other; [unfold is_block, TOTAL_BLOCKS; lia|done|lia]. }
  assert (Hkeep : forall x, held s x -> content x s' = content x s).
  { intros x (Hx & Hxt & _). unfold content. rewrite Hrd; [done|unfold is_block; lia|lia]. }
  assert (Hperm : used s' ≡ₚ e :: used s).
  { unfold used, s'. rewrite Hi. apply take_slot_used; [|done]. destruct He as (? & _). unfold in_use. destruct (Z.eqb_spec (e_sector e) 0); [lia|done]. }
  assert (Hall : Forall (held s) (e :: used s)) by (constructor; [done|exact (so_held s Hok)]).
  assert (Hnd : NoDup (e_hash <$> e :: used s)).
  { cbn. constructor; [|exact (so_hashes s Hok)]. rewrite <- keys_pairs, Hh. apply not_elem_of_list_to_map. rewrite <- Hnew. by rewrite <- (grown_map _ _ Hs G). }
  split.
  - split.
    + exact (so_next s Hok).
    + rewrite Hperm. eapply Forall_impl; [exact Hall|]. intros x Hx. pose proof (Hkeep x Hx) as Hk. destruct Hx as (? & ? & ? & ?).
      split; [done|]. split; [done|]. split; [done|]. by rewrite Hk.
    + by rewrite Hperm.
    + rewrite Hrd; [apply G|unfold is_block, TOTAL_BLOCKS; lia|lia].
  - rewrite <- (grown_map _ _ Hs G). unfold stored_map at 1, pairs. erewrite (list_to_map_proper _ _ _ (fmap_Permutation _ _ _ Hperm)).
    rewrite (pairs_eq s s') by (eapply Forall_impl; [exact Hall|exact Hkeep]). cbn. by rewrite Hh, Hc.
  Unshelve. rewrite <- list_fmap_compose. by rewrite Hperm.
Qed.

Lemma length_hash_buf data : length (hash_buf data) = 32%nat.
Proof. unfold hash_buf. cbn [fmap list_fmap concat]. rewrite !length_app, !length_to_le_bytes. done. Qed.

Lemma length_block_of data : (length data <= 512)%nat -> length (block_of data) = 512%nat.
Proof. intros H. unfold block_of. rewrite length_app, length_replicate. lia. Qed.

(** The last part of storing: the data and its index entry, once the blocks are there. *)
Lemma store_index_spec s0 s data m v : sem_ok s0 -> grown s0 s -> next_free s0 < TOTAL_BLOCKS -> next_free s0 < next_free s ->
  (length data <= 512)%nat -> is_u64 m -> is_u64 v -> stored_map s0 !! hash_buf data = None ->
  let '(ok, s') := write_index (hash_buf data) (next_free s0) (Z.of_nat (length data)) m v (bm_write_block (next_free s0) (block_of data) s) in
  ok = (size (stored_map s0) <? 800)%nat /\ sem_ok s' /\ next_free s' = next_free s /\
  stored_map s' = if ok then <[hash_buf data := data]> (stored_map s0) else stored_map s0.
Proof.
  intros Hs G Ht Hlt Hl Hm Hv Hnew. pose proof (so_next s0 Hs) as Hn. set (s1 := bm_write_block _ _ s).
  assert (G1 : grown s0 s1) by (apply grown_write; [lia|done|lia|lia]).
  set (e := mk_entry (hash_buf data) (next_free s0) (Z.of_nat (length data)) m v).
  assert (Hc : content e s1 = data).
  { unfold content, s1, e. cbn [e_len e_sector]. rewrite bm_read_write_same by (by apply length_block_of). rewrite Nat2Z.id. unfold block_of. by apply take_app_length'. }
  assert (He : held s1 e) by (unfold held; rewrite Hc; cbn; split_and!; lia || done).
  assert (Hsz : size (stored_map s0) = length (used s1)) by (rewrite (size_stored s0 Hs); by rewrite (grown_used s0 s1 G1)).
  assert (Heo : entry_ok e) by (split; unfold e; cbn [e_hash e_sector e_len e_meta e_vec]; [apply length_hash_buf|unfold is_u64, TOTAL_BLOCKS in *; lia..|done|done]).
  pose proof (write_index_spec e s1 Heo) as Hw. destruct (take_slot e (index s1)) as [l|] eqn:Et.
  - destruct Hw as (a & buf & Hw & Ha & Hi). unfold e in Hw. cbn [e_hash e_sector e_len e_meta e_vec] in Hw. rewrite Hw.
    destruct (index_entry_ok s0 s1 a buf e l data Hs G1 Et Ha Hi Hnew eq_refl He Hc) as [Hok Hmap].
    split; [|by split_and!]. symmetry. apply Nat.ltb_lt. rewrite Hsz.
    assert (length (used s1) <> 800%nat) by (intros E; rewrite <- (length_index s1) in E; apply (take_slot_none e) in E; congruence).
    pose proof (List.filter_length_le in_use (index s1)) as Hle. rewrite length_index in Hle. unfold used in *. lia.
  - unfold e in Hw. cbn [e_hash e_sector e_len e_meta e_vec] in Hw. rewrite Hw. apply take_slot_none in Et. rewrite length_index in Et. split; [|split_and!; [by eapply grown_ok|done|by apply grown_map]].
    symmetry. apply Nat.ltb_ge. rewrite Hsz. unfold used. lia.
Qed.

(** Results and states that agree. *)
Definition agrees (q : result (list Z) store_error * sem D) (r : result (list Z) store_error * spec) : Prop :=
  fst q = fst r /\ sem_ok (snd q) /\ stands_for (snd q) (snd r).

Lemma agrees_failed s0 s e n p : sem_ok s0 -> stands_for s0 p -> grown s0 s -> next_free s = n ->
  agrees (Err e, s) (Err e, mk_spec (sp_map p) n).
Proof. intros Hs [Hm Hn] G <-. split; [done|]. cbn. split; [by eapply grown_ok|]. split; [|done]. cbn. by rewrite (grown_map _ _ Hs G). Qed.

Lemma store_spec data metadata vector s p : sem_ok s -> stands_for s p -> next_free s + 5 < 2 ^ 64 ->
  agrees (store_full data metadata vector s) (spec_store data metadata vector p).
Proof.
  intros Hs Hp Hn. pose proof (so_next s Hs) as H0. unfold store_full, spec_store, requests. destruct (Hp) as [Hm Hb]. rewrite Hm, Hb.
  pose proof (stored_lookup (hash_buf data) s) as Hlk. rewrite lookup_index_find. destruct (List.find _ _) as [e|]; cbn [fmap option_fmap option_map] in *; rewrite Hlk; [done|].
  destruct (Nat.ltb_spec 512 (length data)); [done|]. pose proof (grown_refl s Hs) as G.
  pose proof (grown_allocate s s H0 G ltac:(lia)) as Ha. destruct (allocate s) as [o s1]. destruct Ha as (-> & Hn1 & G1). cbn [reserve].
  destruct (Z.leb_spec TOTAL_BLOCKS (next_free s)); [rewrite <- Hm; by apply (agrees_failed s)|]. rewrite reserve_app.
  pose proof (store_meta_asks metadata s s1 H0 G1 ltac:(lia)) as Ha. destruct (store_meta metadata s1) as [r s2]. destruct Ha as (Hn2 & G2 & Hr). rewrite Hn1 in Hr, Hn2.
  destruct (reserve _ (next_free s + 1)) as [[e|] n2] eqn:E2; cbn [fst snd] in *; [subst r; rewrite <- Hm; by apply (agrees_failed s)|]. destruct Hr as (ms & -> & Hms).
  apply reserve_bounds in E2. assert (n2 <= next_free s + 2) by (destruct metadata; cbn in E2; lia).
  pose proof (store_vec_asks vector s s2 H0 G2 ltac:(lia)) as Ha. destruct (store_vec vector s2) as [r s3]. destruct Ha as (Hn3 & G3 & Hr). rewrite Hn2 in Hr, Hn3.
  destruct (reserve _ n2) as [[e|] n3] eqn:E3; cbn [fst snd] in *; [subst r; rewrite <- Hm; by apply (agrees_failed s)|]. destruct Hr as (vs & -> & Hvs).
  apply reserve_bounds in E3.
  pose proof (store_index_spec s s3 data ms vs Hs G3 ltac:(lia) ltac:(lia) ltac:(lia) Hms Hvs Hlk) as Hi.
  destruct (write_index _ _ _ _ _ _) as [ok s4]. destruct Hi as (-> & Hok & Hn4 & Hmap).
  destruct (_ <? 800)%nat; (split; [done|]; split; [done|]; split; cbn [fst snd sp_map sp_blocks]; [by rewrite Hmap|lia]).
Qed.

(** ** Restart *)

Definition restart s : sem D := bm_init (bm_new (sdisk s)).

Lemma superblock_next n : is_u64 n -> take 8 (superblock n) = SUPERBLOCK_MAGIC /\ le_bytes (take 8 (drop 12 (superblock n))) = n.
Proof.
  intros Hn. unfold superblock. split; [by apply take_app_length'|]. rewrite (app_assoc SUPERBLOCK_MAGIC), drop_app_length' by (by rewrite length_app, length_to_le_bytes).
  rewrite take_app_length' by (by rewrite length_to_le_bytes). by apply le_u64.
Qed.

Lemma restart_reads s : bm_read_block 0 s = superblock (Z.min (next_free s) TOTAL_BLOCKS) -> 101 <= next_free s ->
  restart s = if next_free s <? TOTAL_BLOCKS then s else mk_sem (sdisk s) 101.
Proof.
  intros Hs H0. unfold restart, bm_init. change (bm_read_block 0 (bm_new (sdisk s))) with (bm_read_block 0 s). rewrite Hs.
  destruct (superblock_next (Z.min (next_free s) TOTAL_BLOCKS)) as [Hm Hn]; [unfold is_u64, TOTAL_BLOCKS; lia|].
  rewrite Hn, bool_decide_eq_true_2 by exact Hm. cbn [sdisk bm_new]. destruct (Z.leb_spec 101 (Z.min (next_free s) TOTAL_BLOCKS)); [|unfold TOTAL_BLOCKS in *; lia].
  destruct (Z.ltb_spec (next_free s) TOTAL_BLOCKS).
  - rewrite Z.min_l by lia. destruct (Z.ltb_spec (next_free s) TOTAL_BLOCKS); [|lia]. by destruct s.
  - rewrite Z.min_r by lia. by rewrite Z.ltb_irrefl.
Qed.

(** ** Runs *)

Inductive sem_op :=
| Store (data : list Z) (metadata : option Metadata) (vector : option Embedding)
| Retrieve (hash : list Z) (room : Z)
| Restart.

Definition sem_do (o : sem_op) s : outcome (result (list Z) store_error * sem D) :=
  match o with
  | Store data metadata vector => Done (store_full data metadata vector s)
  | Retrieve hash room => match retrieve hash room s with Done r => Done (r, s) | Panic => Panic end
  | Restart => Done (Ok [], restart s)
  end.

(** The specification says nothing of a restart once the disk is full. *)
Definition spec_do (o : sem_op) (p : spec) : option (result (list Z) store_error * spec) :=
  match o with
  | Store data metadata vector => Some (spec_store data metadata vector p)
  | Retrieve hash room => Some (spec_retrieve hash room p, p)
  | Restart => if sp_blocks p <? TOTAL_BLOCKS then Some (Ok [], p) else None
  end.

Fixpoint sem_run (ops : list sem_op) s : outcome (list (result (list Z) store_error) * sem D) :=
  match ops with
  | [] => Done ([], s)
  | o :: rest =>
      match sem_do o s with
      | Panic => Panic
      | Done (r, s1) => match sem_run rest s1 with Panic => Panic | Done (rs, s2) => Done (r :: rs, s2) end
      end
  end.

Fixpoint spec_run (ops : list sem_op) (p : spec) : option (list (result (list Z) store_error) * spec) :=
  match ops with
  | [] => Some ([], p)
  | o :: rest =>
      match spec_do o p with
      | None => None
      | Some (r, p1) => match spec_run rest p1 with None => None | Some (rs, p2) => Some (r :: rs, p2) end
      end
  end.

Lemma spec_do_blocks o p r p' : spec_do o p = Some (r, p') -> sp_blocks p' <= sp_blocks p + 5.
Proof.
  destruct o as [data m v|h room|]; cbn [spec_do]; [|by intros [= _ <-]; lia|destruct (_ <? _); [intros [= _ <-]; lia|done]].
  intros [= H]. unfold spec_store in H. destruct (sp_map p !! _); [simplify_eq; lia|]. destruct (_ <? _)%nat; [simplify_eq; lia|].
  destruct (reserve _ _) as [o n] eqn:E. apply reserve_bounds in E. unfold requests in E.
  assert (n <= sp_blocks p + 5) by (destruct m, v; cbn in E; lia). destruct o; [simplify_eq; cbn; lia|]. destruct (_ <? _)%nat; simplify_eq; cbn; lia.
Qed.

Lemma sem_do_spec o s p r p' : sem_ok s -> stands_for s p -> next_free s + 5 < 2 ^ 64 -> spec_do o p = Some (r, p') ->
  exists s', sem_do o s = Done (r, s') /\ sem_ok s' /\ stands_for s' p'.
Proof.
  intros Hs Hp Hn. destruct o as [data m v|h room|]; cbn [spec_do sem_do].
  - intros [= H]. pose proof (store_spec data m v s p Hs Hp Hn) as Ha. rewrite H in Ha. destruct (store_full data m v s) as [r1 s1]. destruct Ha as (Hr & Hok & Hp').
    cbn in Hr. subst r1. by exists s1.
  - rewrite (retrieve_spec h room s p Hs Hp). intros [= <- <-]. by exists s.
  - destruct (Z.ltb_spec (sp_blocks p) TOTAL_BLOCKS); [|done]. intros [= <- <-]. exists s. rewrite restart_reads by apply Hs.
    destruct Hp as [Hm Hb]. destruct (Z.ltb_spec (next_free s) TOTAL_BLOCKS); [done|lia].
Qed.

Lemma sem_run_spec ops s p rs p' : sem_ok s -> stands_for s p -> next_free s + 5 * Z.of_nat (length ops) < 2 ^ 64 -> spec_run ops p = Some (rs, p') ->
  exists s', sem_run ops s = Done (rs, s') /\ sem_ok s' /\ stands_for s' p'.
Proof.
  revert s p rs. induction ops as [|o ops IH]; intros s p rs Hs Hp Hn; cbn [spec_run sem_run length]; [intros [= <- <-]; by exists s|].
  destruct (spec_do o p) as [[r p1]|] eqn:Eo; [|done]. destruct (spec_run ops p1) as [[rs1 p2]|] eqn:Er; [|done]. intros [= <- <-].
  cbn [length] in Hn. destruct (sem_do_spec o s p r p1 Hs Hp ltac:(lia) Eo) as (s1 & -> & Hs1 & Hp1).
  apply spec_do_blocks in Eo. destruct (IH s1 p1 rs1 Hs1 Hp1) as (s2 & -> & Hs2 & Hp2); [destruct Hp as [_ Hb], Hp1 as [_ Hb1]; lia|done|]. by exists s2.
Qed.

(** A disk that was never formatted: no superblock, and an index of zeros. *)
Definition blank (d : D) : Prop :=
  take 8 (bm_read_block 0 (bm_new d)) <> SUPERBLOCK_MAGIC /\ Forall (fun e => in_use e = false) (index (bm_new d)).

Lemma filter_unused l : Forall (fun e => in_use e = false) l -> List.filter in_use l = [].
Proof. induction 1 as [|e l He _ IH]; [done|]. cbn. by rewrite He. Qed.

Lemma blank_ok d : blank d -> sem_ok (bm_init (bm_new d)) /\ stands_for (bm_init (bm_new d)) (mk_spec ∅ 101).
Proof.
  intros [Hm Hi]. unfold bm_init. rewrite bool_decide_eq_false_2 by exact Hm. unfold flush_superblock.
  set (s := bm_write_block _ _ _). assert (Hu : used s = []).
  { unfold used, s. rewrite index_write; [by apply filter_unused|unfold is_block, TOTAL_BLOCKS; lia|by left]. }
  split.
  - split; [cbn; lia|by rewrite Hu|rewrite Hu; constructor|]. unfold s. by rewrite bm_read_write_same by apply length_superblock.
  - split; [|done]. unfold stored_map, pairs. by rewrite Hu.
Qed.

(** ** Claims *)


(** *** The full disk *)

Lemma take_slot_lookup e l l' hash : take_slot e l = Some l' -> e_hash e <> hash -> List.find (has_hash hash) l' = List.find (has_hash hash) l.
Proof.
  intros H Hne. revert l' H. induction l as [|x l IH]; intros l'; [done|]. cbn [take_slot]. destruct (in_use x) eqn:Ex.
  - destruct (take_slot e l) as [r|]; [|done]. intros [= <-]. cbn [List.find]. by rewrite (IH r eq_refl).
  - intros [= <-]. cbn [List.find]. unfold has_hash at 1 3. rewrite Ex, bool_decide_eq_false_2, andb_false_r by done. done.
Qed.

Lemma find_used_unique s e : sem_ok s -> e ∈ used s -> List.find (has_hash (e_hash e)) (index s) = Some e.
Proof.
  intros Hs He. destruct (List.find (has_hash (e_hash e)) (index s)) as [x|] eqn:Ef.
  - apply find_used in Ef as [Hx Hh]. f_equal. apply list_elem_of_lookup_1 in Hx as [i Hi], He as [j Hj]. pose proof (so_hashes s Hs) as Hnd.
    assert (i = j) by (eapply NoDup_lookup; [exact Hnd|rewrite list_lookup_fmap, Hi; cbn; reflexivity|rewrite list_lookup_fmap, Hj; cbn; by rewrite Hh]).
    congruence.
  - apply list_elem_of_In, List.filter_In in He as [Hin Hu]. pose proof (List.find_none _ _ Ef e Hin) as Hn. unfold has_hash in Hn.
    by rewrite Hu, bool_decide_eq_true_2 in Hn.
Qed.

Lemma restarted_store s data : 101 <= next_free s -> next_free s < TOTAL_BLOCKS -> lookup_index (hash_buf data) s = None -> (length data <= 512)%nat ->
  (length (used s) < 800)%nat ->
  exists s', store_full data None None s = (Ok (hash_buf data), s') /\
    bm_read_block (next_free s) s' = block_of data /\
    forall hash, hash <> hash_buf data -> List.find (has_hash hash) (index s') = List.find (has_hash hash) (index s).
Proof.
  intros H0 Ht Hlk Hl Hu. unfold store_full. rewrite Hlk. destruct (Nat.ltb_spec 512 (length data)); [lia|]. unfold allocate.
  destruct (Z.leb_spec TOTAL_BLOCKS (next_free s)); [lia|]. cbn [store_meta store_vec]. set (s1 := flush_superblock _).
  set (s2 := bm_write_block (next_free s) (block_of data) s1).
  assert (Hi : index s2 = index s).
  { unfold s2. rewrite index_write by (unfold is_block; lia). unfold s1, flush_superblock. by rewrite index_write by (unfold is_block, TOTAL_BLOCKS; lia). }
  set (e := mk_entry (hash_buf data) (next_free s) (Z.of_nat (length data)) 0 0).
  assert (Heo : entry_ok e) by (split; unfold e; cbn [e_hash e_sector e_len e_meta e_vec]; [apply length_hash_buf|unfold is_u64, TOTAL_BLOCKS in *; lia..]).
  pose proof (write_index_spec e s2 Heo) as Hw. destruct (take_slot e (index s2)) as [l|] eqn:Et.
  2: { apply take_slot_none in Et. rewrite length_index, Hi in Et. unfold used in Hu. lia. }
  destruct Hw as (a & buf & Hw & Ha & Hl'). unfold e in Hw. cbn [e_hash e_sector e_len e_meta e_vec] in Hw. rewrite Hw.
  eexists. split; [done|]. split.
  - rewrite bm_read_write_other; [apply bm_read_write_same; by apply length_block_of|unfold is_block, TOTAL_BLOCKS in *; lia..].
  - intros h Hh. rewrite Hl', <- Hi. eapply take_slot_lookup; [exact Et|]. exact (not_eq_sym Hh).
Qed.

End Refines.

(** ** The claims at work *)

Lemma all_unused l : List.forallb (fun e => negb (in_use e)) l = true -> Forall (fun e => in_use e = false) l.
Proof. induction l as [|e l IH]; cbn; [done|]. intros [He Hl]%andb_true_iff. constructor; [by destruct (in_use e)|by apply IH]. Qed.

Definition disk0 : gmap Z (list Z) := ∅.

Lemma disk0_blank : blank disk0.
Proof. split; [by vm_compute|]. apply all_unused. by vm_compute. Qed.

Definition blob : list Z := [104; 105; 33].
Definition disk0_run : list sem_op :=
  [Store blob None None; Retrieve (hash_buf blob) 512; Retrieve (replicate 32 0) 512; Restart; Store blob None None; Retrieve (hash_buf blob) 2; Retrieve (hash_buf blob) 3].


(** A disk whose last block has been handed out, with [blob] in its first. *)
Definition one_blob : sem (gmap Z (list Z)) := snd (store_full blob None None (bm_init (bm_new disk0))).
Definition full_disk : sem (gmap Z (list Z)) := bm_write_block 0 (superblock TOTAL_BLOCKS) (mk_sem (sdisk one_blob) TOTAL_BLOCKS).

Lemma one_blob_ok : sem_ok one_blob.
Proof.
  destruct (blank_ok disk0 disk0_blank) as [H0 P0]. destruct (store_spec blob None None _ _ H0 P0) as (_ & H1 & _); [vm_compute; reflexivity|]. exact H1.
Qed.

Lemma full_disk_ok : sem_ok full_disk.
Proof.
  apply (grown_ok one_blob); [exact one_blob_ok|]. unfold full_disk. set (s := mk_sem (sdisk one_blob) TOTAL_BLOCKS). split.
  - rewrite index_write by (unfold is_block, TOTAL_BLOCKS; lia). by apply index_disk.
  - vm_compute. done.
  - intros a Ha Ht. rewrite bm_read_write_other by (unfold is_block, TOTAL_BLOCKS in *; lia). done.
  - by rewrite bm_read_write_same by apply length_superblock.
Qed.

