(* ===== verification/SemanticSearch.v ===== *)
(** * The searches of the semantic store

    What [search_keyword] and [search_by_vector] return, in terms of the map the store
    stands for and of the order of [f32]. *)

From stdpp Require Import base numbers list gmap sorting.
From Stdlib Require Import ZArith Lia Bool SpecFloat.
From S2P Require Import Prelude Machine Sector Semantic SemanticInv SemanticProofs.

(** ** Substrings *)

Definition occurs (needle hay : list Z) : Prop := exists a b, hay = a ++ needle ++ b.

Lemma contains_from_spec n i hay needle : (length hay < i + n)%nat ->
  contains_from n i hay needle = true <-> exists k, (i <= k)%nat /\ (k + length needle <= length hay)%nat /\ take (length needle) (drop k hay) = needle.
Proof.
  revert i. induction n as [|n IH]; intros i Hn; cbn [contains_from]; [split; [done|intros (k & ? & ? & _); lia]|].
  destruct (Nat.leb_spec (i + length needle) (length hay)); [|split; [done|intros (k & ? & ? & _); lia]].
  case_bool_decide as E; [split; [intros _; exists i; split_and!; [lia|lia|done]|done]|]. rewrite IH by lia.
  split; intros (k & Hk & Hl & Ht); exists k; split_and!; try done; try lia. assert (k <> i) by (intros ->; done). lia.
Qed.

Lemma contains_occurs hay needle : contains hay needle = true <-> occurs needle hay.
Proof.
  unfold contains, occurs. destruct needle as [|x needle]; [cbn; split; [intros _; by exists [], hay|done]|]. set (nd := x :: needle).
  assert (Hnd : (length nd =? 0)%nat = false) by done. rewrite Hnd. cbn [orb]. destruct (Nat.ltb_spec (length hay) (length nd)) as [Hlt|Hge].
  - split; [done|]. intros (a & b & ->). rewrite !length_app in Hlt. lia.
  - rewrite contains_from_spec by lia. split.
    + intros (k & _ & Hk & Ht). exists (take k hay), (drop (length nd) (drop k hay)). rewrite <- Ht at 1. by rewrite take_drop, take_drop.
    + intros (a & b & ->). exists (length a). rewrite !length_app. split_and!; [lia|lia|]. by rewrite drop_app_length, take_app_length.
Qed.

(** ** The loops with eight results *)

Definition result_of (e : IndexEntry) : SearchResult := mk_res (e_hash e) (e_sector e) (e_len e).
Definition hits (hit : IndexEntry -> bool) (l : list IndexEntry) : list SearchResult :=
  result_of <$> List.filter (fun e => in_use e && hit e) l.

Lemma hits_app hit l1 l2 : hits hit (l1 ++ l2) = hits hit l1 ++ hits hit l2.
Proof. unfold hits. by rewrite List.filter_app, fmap_app. Qed.

Lemma search_entries_spec n j hit buf results : (length results <= 8)%nat ->
  search_entries n j hit buf results = take 8 (results ++ hits hit (entry_at buf <$> seq j n)).
Proof.
  revert j results. induction n as [|n IH]; intros j results Hr; cbn [search_entries seq fmap list_fmap].
  { cbn. by rewrite app_nil_r, take_ge. }
  destruct (Nat.ltb_spec (length results) 8).
  - rewrite Nat.add_1_r. unfold hits. cbn [List.filter]. unfold in_use at 1. destruct (negb _ && hit _).
    + rewrite IH by (rewrite length_app; cbn; lia). cbn [fmap list_fmap]. by rewrite <- app_assoc.
    + by rewrite IH by lia.
  - assert (length results = 8%nat) as Hl by lia. rewrite take_app_le by lia. by rewrite take_ge by lia.
Qed.

Section Search.
Context {D : Type} `{!BlockDevice D} `{!BlockDeviceSpec D}.
Implicit Types (s : sem D).

Lemma search_sectors_spec n i hit s results : (length results <= 8)%nat ->
  search_sectors n (Z.of_nat i) hit s results = take 8 (results ++ hits hit (index_part i n s)).
Proof.
  revert i results. induction n as [|n IH]; intros i results Hr; cbn [search_sectors].
  { cbn. by rewrite app_nil_r, take_ge. }
  rewrite index_part_S, hits_app. destruct (Nat.ltb_spec (length results) 8).
  - rewrite search_entries_spec by lia. replace (Z.of_nat i + 1) with (Z.of_nat (S i)) by lia.
    rewrite IH by (rewrite length_take; lia). fold (sector_entries (bm_read_block (1 + Z.of_nat i) s)).
    set (h1 := hits hit (sector_entries _)). set (h2 := hits hit (index_part (S i) n s)). rewrite app_assoc.
    destruct (decide (length (results ++ h1) <= 8)%nat).
    + by rewrite (take_ge (results ++ h1)) by lia.
    + rewrite take_app_le by (rewrite length_take; lia). rewrite take_take, Nat.min_id. by rewrite (take_app_le (results ++ h1) h2) by lia.
  - assert (length results = 8%nat) as Hl by lia. rewrite take_app_le by lia. by rewrite take_ge by lia.
Qed.

Lemma search_index hit s : search_sectors 100 0 hit s [] = take 8 (hits hit (index s)).
Proof. exact (search_sectors_spec 100 0 hit s [] ltac:(cbn; lia)). Qed.

#[local] Opaque index.

Lemma stored_used s e : sem_ok s -> e ∈ used s -> stored_map s !! e_hash e = Some (content e s).
Proof. intros Hs He. by rewrite stored_lookup, (find_used_unique s e Hs He). Qed.

Lemma stored_from s h blob : stored_map s !! h = Some blob -> exists e, e ∈ used s /\ e_hash e = h /\ content e s = blob.
Proof.
  rewrite stored_lookup. destruct (List.find _ _) as [e|] eqn:Ef; cbn [fmap option_fmap option_map]; [|done]. intros [= <-].
  apply find_used in Ef as [He Hh]. by exists e.
Qed.

Lemma keyword_hit_spec kw s e : kw <> [] -> held s e -> keyword_hit kw s e = true <-> occurs kw (content e s).
Proof.
  intros Hk He. pose proof (length_content s e He) as Hl. destruct He as (_ & _ & Hlen & _). unfold keyword_hit. fold (content e s).
  destruct (Z.ltb_spec 512 (e_len e)); [lia|]. destruct (Z.eqb_spec (e_len e) 0) as [E|E]; cbn [orb negb andb].
  - rewrite E in Hl. apply nil_length_inv in Hl. split; [done|]. rewrite Hl. intros (a & b & H'). symmetry in H'. apply app_eq_nil in H' as [_ [-> _]%app_eq_nil]. done.
  - apply contains_occurs.
Qed.

Lemma elem_of_hits hit s r : r ∈ hits hit (index s) <-> exists e, e ∈ used s /\ hit e = true /\ r = result_of e.
Proof.
  unfold hits. rewrite list_elem_of_fmap. split.
  - intros (e & -> & He%list_elem_of_In). apply List.filter_In in He as [Hin [Hu Hh]%andb_true_iff]. exists e. split_and!; try done.
    apply list_elem_of_In, List.filter_In. done.
  - intros (e & He%list_elem_of_In & Hh & ->). apply List.filter_In in He as [Hin Hu]. exists e. split; [done|]. apply list_elem_of_In, List.filter_In. by rewrite Hu, Hh.
Qed.

Lemma hits_sublist hit l : (r_hash <$> hits hit l) `sublist_of` (e_hash <$> List.filter in_use l).
Proof.
  unfold hits. induction l as [|e l IH]; [done|]. cbn [List.filter]. destruct (in_use e); cbn [andb]; [|done].
  destruct (hit e); cbn; by constructor.
Qed.

Lemma hits_NoDup hit s : sem_ok s -> NoDup (r_hash <$> hits hit (index s)).
Proof.
  intros Hs. eapply sublist_NoDup; [apply (so_hashes s Hs)|apply hits_sublist].
Qed.

(** A keyword search of the store answers for the map it stands for: at most eight
    results, no hash twice, each the hash of a stored blob in which the keyword occurs;
    and when there are fewer than eight, every stored blob in which it occurs is among
    them. *)
Theorem keyword_search_exact s kw : sem_ok s -> kw <> [] ->
  (length (search_keyword kw s) <= 8)%nat /\ NoDup (r_hash <$> search_keyword kw s) /\
  (forall r, r ∈ search_keyword kw s -> exists blob, stored_map s !! r_hash r = Some blob /\ occurs kw blob) /\
  ((length (search_keyword kw s) < 8)%nat -> forall h blob, stored_map s !! h = Some blob -> occurs kw blob ->
     exists r, r ∈ search_keyword kw s /\ r_hash r = h).
Proof.
  intros Hs Hk. unfold search_keyword. destruct (Nat.eqb_spec (length kw) 0) as [E|_]; [by apply nil_length_inv in E|]. rewrite search_index.
  set (hs := hits _ _). split_and!.
  - rewrite length_take. lia.
  - rewrite fmap_take. eapply sublist_NoDup; [exact (hits_NoDup (keyword_hit kw s) s Hs)|apply sublist_take].
  - intros r Hr. assert (Hin : r ∈ hs) by (eapply list_elem_of_lookup in Hr as [i Hi]; apply lookup_take_Some in Hi as [Hi _]; by eapply list_elem_of_lookup_2).
    apply elem_of_hits in Hin as (e & He & Hh & ->). exists (content e s). split; [by apply stored_used|]. apply keyword_hit_spec in Hh; [done|done|by apply held_of].
  - intros Hlt h blob Hm Ho. rewrite length_take in Hlt. rewrite take_ge by lia. apply stored_from in Hm as (e & He & Hh & Hc). exists (result_of e).
    split; [|done]. apply elem_of_hits. exists e. split_and!; [done| |done]. apply keyword_hit_spec; [done|by apply held_of|by rewrite Hc].
Qed.
End Search.

(** ** The order of the similarities *)

(** Floats other than NaN by a key in lexicographic order. *)
Definition fkey (f : f32) : Z * Z * Z :=
  match f with
  | S754_zero _ | S754_nan => (0, 0, 0)
  | S754_infinity s => (if s then -2 else 2, 0, 0)
  | S754_finite s m e => if s then (-1, - e, Zneg m) else (1, e, Zpos m)
  end.
Definition key_lt (a b : Z * Z * Z) : Prop :=
  let '(a1, a2, a3) := a in let '(b1, b2, b3) := b in a1 < b1 \/ a1 = b1 /\ (a2 < b2 \/ a2 = b2 /\ a3 < b3).
Definition number (f : f32) : Prop := f <> S754_nan.

Lemma SFltb_key a b : number a -> number b -> SFltb a b = true <-> key_lt (fkey a) (fkey b).
Proof.
  intros Ha Hb. unfold SFltb, SFcompare, key_lt, fkey. destruct a as [sa|sa| |sa ma ea], b as [sb|sb| |sb mb eb]; try done; try destruct sa; try destruct sb;
    try (split; [done || lia|lia || done]).
  - change (PosDef.Pos.compare_cont Eq ma mb) with (Pos.compare ma mb). destruct (Z.compare_spec ea eb); [|split; [done|lia]|split; [lia|done]].
    destruct (Pos.compare_spec ma mb); cbn; (split; [done || lia|lia || done]).
  - change (PosDef.Pos.compare_cont Eq ma mb) with (Pos.compare ma mb). destruct (Z.compare_spec ea eb); [|split; [lia|done]|split; [done|lia]].
    destruct (Pos.compare_spec ma mb); cbn; (split; [done || lia|lia || done]).
Qed.

Lemma SFltb_false_key a b : number a -> number b -> SFltb a b = false <-> ~ key_lt (fkey a) (fkey b).
Proof. intros Ha Hb. rewrite <- SFltb_key by done. by destruct (SFltb a b). Qed.

(** [at_least a b]: the similarity of [b] is not above that of [a]. *)
Definition at_least (a b : VecResult) : Prop := SFltb (similarity a) (similarity b) = false.
Definition numeric (c : VecResult) : Prop := number (similarity c).

Lemma at_least_trans a b c : numeric a -> numeric b -> numeric c -> at_least a b -> at_least b c -> at_least a c.
Proof.
  unfold at_least, numeric. intros Ha Hb Hc. rewrite !SFltb_false_key by done. destruct (fkey _) as [[a1 a2] a3], (fkey _) as [[b1 b2] b3], (fkey _) as [[c1 c2] c3].
  cbn. lia.
Qed.

Lemma above_at_least a b : numeric a -> numeric b -> SFltb (similarity a) (similarity b) = true -> at_least b a.
Proof.
  unfold at_least, numeric. intros Ha Hb. rewrite SFltb_false_key, SFltb_key by done. destruct (fkey _) as [[a1 a2] a3], (fkey _) as [[b1 b2] b3].
  cbn. lia.
Qed.

(** ** The insertion *)

Lemma bubble_up_snoc l b c t : bubble_up (length (l ++ [b])) ((l ++ [b]) ++ c :: t) =
  if SFltb (similarity b) (similarity c) then bubble_up (length l) (l ++ c :: b :: t) else (l ++ [b]) ++ c :: t.
Proof.
  rewrite length_app. cbn [length]. rewrite Nat.add_1_r. cbn [bubble_up].
  assert (((l ++ [b]) ++ c :: t) !! S (length l) = Some c) as ->.
  { apply list_lookup_middle. rewrite length_app. cbn. lia. }
  assert (((l ++ [b]) ++ c :: t) !! length l = Some b) as ->.
  { rewrite <- app_assoc. by apply list_lookup_middle. }
  destruct (SFltb _ _); [|done]. f_equal. rewrite <- !app_assoc. cbn [app]. rewrite (insert_app_r_alt l) by lia.
  replace (S (length l) - length l)%nat with 1%nat by lia. cbn. rewrite (insert_app_r_alt l) by lia. by rewrite Nat.sub_diag.
Qed.

Lemma bubble_up_perm l c t : bubble_up (length l) (l ++ c :: t) ≡ₚ c :: l ++ t.
Proof.
  revert t. induction l as [|b l IH] using rev_ind; intros t; [done|]. rewrite bubble_up_snoc. destruct (SFltb _ _).
  - rewrite IH, <- app_assoc. done.
  - by rewrite Permutation_middle.
Qed.

Lemma bubble_up_sorted l c t : Forall numeric (c :: l ++ t) -> StronglySorted at_least (l ++ t) -> Forall (at_least c) t ->
  StronglySorted at_least (bubble_up (length l) (l ++ c :: t)).
Proof.
  revert t. induction l as [|b l IH] using rev_ind; intros t Hn Hs Hc; [cbn; by constructor|]. rewrite bubble_up_snoc.
  rewrite <- !app_assoc in *. cbn [app] in *. apply Forall_cons in Hn as [Hnc Hn]. apply Forall_app in Hn as [Hnl [Hnb Hnt]%Forall_cons].
  destruct (SFltb (similarity b) (similarity c)) eqn:E.
  - apply IH; [|done|constructor; [by apply above_at_least|done]]. constructor; [done|]. apply Forall_app. split; [done|by constructor].
  - apply StronglySorted_app in Hs as (Hx & Hl & Hbt). apply StronglySorted_inv in Hbt as [Ht Hb]. assert (at_least b c) as Hbc by exact E.
    apply StronglySorted_app_2; [|done|].
    + intros x y Hxl [->|[->|Hy]%elem_of_cons]%elem_of_cons; [apply Hx; [done|left]| |apply Hx; [done|by right]].
      assert (numeric x) by (by eapply Forall_forall in Hxl; [|exact Hnl]). apply (at_least_trans x b c); try done. apply Hx; [done|left].
    + constructor; [by constructor|]. constructor; [done|]. done.
Qed.

(** [results] are the best eight of [cands], best first. *)
Definition best_of (cands results : list VecResult) : Prop :=
  exists rest, cands ≡ₚ results ++ rest /\ length results = Nat.min 8 (length cands) /\ StronglySorted at_least results /\
    forall r c, r ∈ results -> c ∈ rest -> at_least r c.

Lemma add_when_room c cands results : (length results < 8)%nat -> Forall numeric (cands ++ [c]) -> best_of cands results ->
  best_of (cands ++ [c]) (bubble_up (length results) (results ++ [c])).
Proof.
  intros Hl Hn (rest & Hp & Hlen & Hs & Hr). pose proof (Permutation_length Hp) as Hpl. rewrite length_app in Hpl.
  assert (rest = []) as -> by (apply nil_length_inv; lia). rewrite app_nil_r in Hp. pose proof (bubble_up_perm results c []) as Hb. rewrite app_nil_r in Hb.
  exists []. split_and!.
  - rewrite app_nil_r, Hb, Hp. by rewrite Permutation_app_comm.
  - rewrite Hb. rewrite length_app. cbn [length]. lia.
  - apply bubble_up_sorted; [|by rewrite app_nil_r|done]. rewrite app_nil_r, <- Hp. by rewrite Permutation_app_comm in Hn.
  - intros r x _ Hx. by apply elem_of_nil in Hx.
Qed.

Lemma add_in_place c cands l last : length l = 7%nat -> Forall numeric (cands ++ [c]) -> best_of cands (l ++ [last]) ->
  SFltb (similarity last) (similarity c) = true -> best_of (cands ++ [c]) (bubble_up 7 (l ++ [c])).
Proof.
  intros Hl Hn (rest & Hp & Hlen & Hs & Hr) Hlt. rewrite Forall_app, Forall_singleton in Hn. destruct Hn as [Hn Hnc]. rewrite Hp, !Forall_app, Forall_singleton in Hn.
  destruct Hn as [[Hnl Hnla] Hnr]. rewrite <- Hl. pose proof (bubble_up_perm l c []) as Hb. rewrite app_nil_r in Hb.
  apply StronglySorted_app in Hs as (Hx & Hsl & _). pose proof (above_at_least last c Hnla Hnc Hlt) as Hcl. exists (last :: rest). split_and!.
  - rewrite Hb, Hp. rewrite (Permutation_app_comm _ [c]), <- !app_assoc. done.
  - rewrite Hb. rewrite length_app in *. cbn [length] in *. lia.
  - apply bubble_up_sorted; [|by rewrite app_nil_r|done]. rewrite app_nil_r. by constructor.
  - intros r x Hrin Hxin. rewrite Hb in Hrin. assert (at_least r last /\ numeric r) as [Hrl Hnr1].
    { apply elem_of_cons in Hrin as [->|Hrin]; [done|]. split; [apply Hx; [done|left]|by eapply Forall_forall in Hrin; [|exact Hnl]]. }
    apply elem_of_cons in Hxin as [->|Hxin]; [done|]. apply (at_least_trans r last x); try done; [by eapply Forall_forall in Hxin; [|exact Hnr]|].
    apply Hr; [apply elem_of_app; right; left|done].
Qed.

Lemma add_too_low c cands l last : Forall numeric (cands ++ [c]) -> best_of cands (l ++ [last]) -> length l = 7%nat ->
  SFltb (similarity last) (similarity c) = false -> best_of (cands ++ [c]) (l ++ [last]).
Proof.
  intros Hn (rest & Hp & Hlen & Hs & Hr) Hl Hge. rewrite Forall_app, Forall_singleton in Hn. destruct Hn as [Hn Hnc]. rewrite Hp, !Forall_app, Forall_singleton in Hn.
  destruct Hn as [[Hnl Hnla] Hnr]. exists (c :: rest). split_and!.
  - rewrite Hp. rewrite (Permutation_app_comm _ [c]). by rewrite <- (Permutation_middle (l ++ [last])).
  - rewrite !length_app in *. cbn [length] in *. lia.
  - done.
  - apply StronglySorted_app in Hs as (Hx & _). intros r x Hrin [->|Hxin]%elem_of_cons; [|by apply Hr].
    apply elem_of_app in Hrin as [Hrin|Hrin]; [|apply list_elem_of_singleton in Hrin as ->; done].
    apply (at_least_trans r last c); try done; [by eapply Forall_forall in Hrin; [|exact Hnl]|apply Hx; [done|left]].
Qed.

Lemma add_candidate_best c cands results : Forall numeric (cands ++ [c]) -> best_of cands results -> best_of (cands ++ [c]) (add_candidate c results).
Proof.
  intros Hn Hb. unfold add_candidate. destruct (Nat.ltb_spec (length results) 8); [by apply add_when_room|].
  assert (length results = 8%nat) as Hl by (destruct Hb as (? & _ & ? & _); lia).
  destruct results as [|last l _] using rev_ind; [done|]. rewrite length_app in Hl. cbn in Hl. assert (length l = 7%nat) as Hl7 by lia.
  rewrite (list_lookup_middle l [] last 7) by done. destruct (SFltb _ _) eqn:E.
  - rewrite (insert_app_r_alt l) by lia. rewrite Hl7. by eapply add_in_place.
  - by apply add_too_low.
Qed.

Lemma fold_best cands l results : Forall numeric (cands ++ l) -> best_of cands results -> best_of (cands ++ l) (foldl (fun r c => add_candidate c r) results l).
Proof.
  revert cands results. induction l as [|c l IH]; intros cands results Hn Hb; cbn [foldl]; [by rewrite app_nil_r|].
  rewrite cons_middle, app_assoc in *. apply IH; [done|]. apply add_candidate_best; [|done]. by apply Forall_app in Hn as [? _].
Qed.

Section VectorSearch.
Context {D : Type} `{!BlockDevice D} (sqrtf : f32 -> f32) (query : Embedding) (threshold : f32).
Implicit Types (s : sem D).

Lemma vector_entries_fold n j buf s results : vector_entries sqrtf query threshold n j buf s results =
  foldl (fun r c => add_candidate c r) results (omap (candidate sqrtf query threshold s) (entry_at buf <$> seq j n)).
Proof.
  revert j results. induction n as [|n IH]; intros j results; [done|]. cbn [vector_entries seq fmap list_fmap]. rewrite IH, Nat.add_1_r.
  cbn [omap list_omap]. by destruct (candidate _ _ _ _ _).
Qed.

Lemma vector_sectors_fold n i s results : vector_sectors sqrtf query threshold n (Z.of_nat i) s results =
  foldl (fun r c => add_candidate c r) results (omap (candidate sqrtf query threshold s) (index_part i n s)).
Proof.
  revert i results. induction n as [|n IH]; intros i results; [done|]. cbn [vector_sectors]. replace (Z.of_nat i + 1) with (Z.of_nat (S i)) by lia.
  rewrite IH, index_part_S, omap_app, foldl_app, vector_entries_fold. done.
Qed.

Lemma candidate_numeric s e c : candidate sqrtf query threshold s e = Some c -> numeric c.
Proof.
  unfold candidate. destruct (_ || _); [done|]. destruct (SFleb _ _) eqn:E; [|done]. intros [= <-]. unfold numeric. cbn. intros H. rewrite H in E.
  by destruct threshold.
Qed.

(** The entries in use with an embedding at least as similar as the threshold. *)
Definition candidates s : list VecResult := omap (candidate sqrtf query threshold s) (index s).

(** C26: a similarity search returns the best: of the entries in use whose embedding is
    at least [threshold] similar to the query it returns eight, or all when there are
    fewer; they are in descending order of similarity, and no entry left out is more
    similar than one that is returned.  (A similarity that is not a number is below
    every threshold, so the order of [f32] is total on the candidates.) *)
Theorem vector_search_best s :
  exists rest, candidates s ≡ₚ search_by_vector sqrtf query threshold s ++ rest /\
    length (search_by_vector sqrtf query threshold s) = Nat.min 8 (length (candidates s)) /\
    StronglySorted at_least (search_by_vector sqrtf query threshold s) /\
    forall r c, r ∈ search_by_vector sqrtf query threshold s -> c ∈ rest -> at_least r c.
Proof.
  unfold search_by_vector. rewrite (vector_sectors_fold 100 0). change (index_part 0 100 s) with (index s). fold (candidates s).
  apply (fold_best [] (candidates s) []).
  - apply Forall_forall. intros c (e & _ & He)%list_elem_of_omap. by eapply candidate_numeric.
  - exists []. split_and!; [done|done|constructor|]. intros r c Hr. by apply elem_of_nil in Hr.
Qed.
End VectorSearch.

Lemma keyword_search_exact_witness : exists r, r ∈ search_keyword [105; 33] one_blob /\ r_hash r = hash_buf blob.
Proof.
  destruct (keyword_search_exact one_blob [105; 33] one_blob_ok ltac:(discriminate)) as (_ & _ & _ & H).
  apply (H ltac:(apply Nat.ltb_lt; vm_compute; reflexivity) (hash_buf blob) blob).
  - vm_compute. reflexivity.
  - exists [104], []. reflexivity.
Defined.
