(* ===== verification/Config.v ===== *)
(** * Kernel configuration (kernel/src/config.rs)

    The table of keys and values, its text form, and the operations that load it, look
    up, set and remove keys and write the file back.  The file operations are an interface:
    the FAT32 volume implements it, and so does a store in memory, with its laws. *)

From stdpp Require Import base numbers list strings gmap.
From Stdlib Require Import ZArith Lia Bool.
From S2P Require Import Prelude Sector Text Fat Syscall.

Definition CONFIG_PATH : list Z := lit "/config".
Definition CONFIG_TMP : list Z := lit "/config.t".
Definition CONFIG_MAX_ENTRIES : nat := 32.
Definition KEY_MAX : nat := 32.
Definition VAL_MAX : nat := 128.
Definition FILE_BUF : nat := 4096.

(** The first [N_ENTRIES] entries of the table: [key[..klen]] and [val[..vlen]]. *)
Definition Entry : Type := list Z * list Z.

(** ** The text form *)

(** The entry on a line, if there is one. *)
Definition parse_line (line : list Z) : option Entry :=
  let line := strip_cr line in
  match find_byte 61 line with
  | None => None
  | Some eq => Some (take KEY_MAX (take eq line), take VAL_MAX (drop (eq + 1) line))
  end.

Fixpoint parse_lines (n : nat) (data : list Z) (table : list Entry) : list Entry :=
  match n, data with
  | O, _ | _, [] => table
  | S n', _ =>
      if (length table <? CONFIG_MAX_ENTRIES)%nat then
        let k := default (length data) (find_byte 10 data) in
        let rest := drop (k + 1) data in
        match parse_line (take k data) with
        | Some e => parse_lines n' rest (table ++ [e])
        | None => parse_lines n' rest table
        end
      else table
  end.
Definition parse_config (data : list Z) : list Entry := parse_lines (length data) data [].

Definition entry_text (e : Entry) : list Z := match e.1 with [] => [] | _ => e.1 ++ [61] ++ e.2 ++ [10] end.
(** Into a buffer of [room] bytes. *)
Definition serialise (room : nat) (table : list Entry) : list Z := take room (concat (entry_text <$> table)).

(** ** Files *)

Class Files (S : Type) := {
  f_open : list Z -> S -> fout (option nat * S);
  f_open_write : list Z -> S -> fout (option nat * S);
  f_read : nat -> nat -> S -> fout ((Z * list Z) * S);
  f_write : nat -> list Z -> S -> fout (Z * S);
  f_close : nat -> S -> fout (unit * S);
  f_rename : list Z -> list Z -> S -> fout (bool * S);
}.

#[export] Instance fat_files C `{!Sectors C} (rounds : nat) : Files (fatfs C) := {
  f_open := Fat.open rounds; f_open_write := Fat.open_write rounds; f_read := fun fd n => Fat.read (Z.of_nat fd) n;
  f_write := fun fd data => Fat.write rounds (Z.of_nat fd) data; f_close := fun fd => Fat.close (Z.of_nat fd); f_rename := Fat.rename rounds;
}.

(** ** Operations *)

Record config (S : Type) := mk_config { TABLE : list Entry; LOADED : bool; files : S }.
Arguments mk_config {S}.
Arguments TABLE {S}.
Arguments LOADED {S}.
Arguments files {S}.

(** [from_utf8(b).unwrap_or("")], of the key and of the value. *)
Definition str_of (b : list Z) : list Z := if from_utf8_ok b then b else [].

Section Ops.
Context {S : Type} `{!Files S}.
Local Abbreviation M := (SM (config S)).

Definition on_files {A} (m : S -> fout (A * S)) : M A := fun c =>
  match m (files c) with Got (a, s) => Got (a, mk_config (TABLE c) (LOADED c) s) | Crashed => Crashed | Stuck => Stuck end.
Definition table_of : M (list Entry) := fun c => Got (TABLE c, c).
Definition set_table (t : list Entry) : M unit := fun c => Got (tt, mk_config t (LOADED c) (files c)).
Definition set_loaded : M unit := fun c => Got (tt, mk_config (TABLE c) true (files c)).

Definition flush_to_disk : M unit :=
  t ← table_of;
  let buf := serialise FILE_BUF t in
  fd ← on_files (f_open_write CONFIG_TMP);
  match fd with
  | None => mret tt
  | Some fd =>
      _ ← on_files (f_write fd buf);
      _ ← on_files (f_close fd);
      _ ← on_files (f_rename CONFIG_TMP CONFIG_PATH);
      mret tt
  end.

(** [loop { let n = read(fd, &mut FILE_BUF[total..]); if n <= 0 { break } ... }] *)
Fixpoint read_file (n : nat) (fd : nat) (got : list Z) : M (list Z) :=
  match n with
  | O => stuck_s
  | Datatypes.S n' =>
      '(k, b) ← on_files (f_read fd (FILE_BUF - length got));
      if k <=? 0 then mret got
      else
        let got := got ++ b in
        if (FILE_BUF <=? length got)%nat then mret got else read_file n' fd got
  end.

Definition init : M unit :=
  fd ← on_files (f_open CONFIG_PATH);
  _ ← (match fd with
       | Some fd =>
           data ← read_file (Datatypes.S FILE_BUF) fd [];
           _ ← on_files (f_close fd);
           set_table (match data with [] => [] | _ => parse_config data end)
       | None => set_table []
       end);
  set_loaded.

Definition position_of (key : list Z) (t : list Entry) : option nat := fst <$> list_find (fun e => str_of e.1 = key) t.

Definition get (key : list Z) : M (option (list Z)) :=
  t ← table_of;
  mret (i ← position_of key t; str_of ∘ snd <$> t !! i).

Definition set (key val : list Z) : M bool :=
  if (KEY_MAX <? length key)%nat || (VAL_MAX <? length val)%nat then mret false
  else
    t ← table_of;
    match position_of key t with
    | Some i => _ ← set_table (alter (fun e => (e.1, val)) i t); _ ← flush_to_disk; mret true
    | None =>
        if (CONFIG_MAX_ENTRIES <=? length t)%nat then mret false
        else _ ← set_table (t ++ [(key, val)]); _ ← flush_to_disk; mret true
    end.

Definition remove (key : list Z) : M bool :=
  t ← table_of;
  match position_of key t with
  | Some i => _ ← set_table (delete i t); _ ← flush_to_disk; mret true
  | None => mret false
  end.

(** The pairs [for_each] passes to its callback. *)
Definition for_each : M (list (list Z * list Z)) := t ← table_of; mret ((fun e => (str_of e.1, str_of e.2)) <$> t).
End Ops.
