(* ===== verification/ConfigProofs.v ===== *)
(** * Kernel configuration: what is set is there after a restart

    The text form is read back; the operations are those of a map with room for 32 keys;
    and the file holds the table after every change, on every store that keeps the laws. *)

From stdpp Require Import base numbers list strings gmap.
From Stdlib Require Import ZArith Lia Bool.
From S2P Require Import Prelude Sector Text Fat Syscall Config.

(** ** The text form *)

(** Entries that the text form can hold. *)
Record entry_ok (e : Entry) : Prop := {
  eo_key : e.1 <> [];
  eo_klen : (length e.1 <= KEY_MAX)%nat;
  eo_vlen : (length e.2 <= VAL_MAX)%nat;
  eo_keq : 61 ∉ e.1;
  eo_knl : 10 ∉ e.1;
  eo_vnl : 10 ∉ e.2;
  eo_vcr : last e.2 <> Some 13;
  eo_kutf : from_utf8_ok e.1 = true;
  eo_vutf : from_utf8_ok e.2 = true;
}.

Lemma strip_cr_id l : last l <> Some 13 -> strip_cr l = l.
Proof. intros H. unfold strip_cr. by rewrite bool_decide_eq_false_2. Qed.

Lemma parse_line_text k v : entry_ok (k, v) -> parse_line (k ++ [61] ++ v) = Some (k, v).
Proof.
  intros [_ Hk Hv Heq _ _ Hcr _ _]. cbn in *. unfold parse_line. rewrite strip_cr_id.
  - rewrite find_byte_app by done. rewrite take_app_length, (take_ge k) by done. f_equal. f_equal.
    rewrite (cons_middle 61), app_assoc, drop_app_length' by (by rewrite length_app). by apply take_ge.
  - cbn [app]. rewrite (cons_middle 61), app_assoc, last_app. destruct (last v) eqn:E; [done|]. by rewrite last_snoc.
Qed.

Lemma parse_lines_text n t table : Forall entry_ok t -> (length (table ++ t) <= CONFIG_MAX_ENTRIES)%nat -> (length (concat (entry_text <$> t)) <= n)%nat ->
  parse_lines n (concat (entry_text <$> t)) table = table ++ t.
Proof.
  revert n table. induction t as [|[k v] t IH]; intros n table Hok Hl Hn; [rewrite app_nil_r; by destruct n|].
  apply Forall_cons in Hok as [He Hok]. assert (Et : entry_text (k, v) = (k ++ [61] ++ v) ++ [10]) by (destruct He as [Hk _ _ _ _ _ _ _ _]; cbn in *; destruct k; [done|]; by rewrite <- !app_assoc).
  cbn [fmap list_fmap concat] in *. rewrite Et, <- app_assoc in *. cbn [app] in *. set (r := concat (entry_text <$> t)) in *. set (line := k ++ 61 :: v) in *.
  assert (Hnl : 10 ∉ line). { destruct He as [_ _ _ _ H1 H2 _ _ _]. subst line. rewrite elem_of_app, elem_of_cons. cbn in *. intros [?|[?|?]]; done. }
  destruct n as [|n]; [rewrite length_app in Hn; cbn in Hn; lia|]. rewrite length_app in Hl, Hn. cbn [length] in Hl, Hn.
  destruct (line ++ 10 :: r) as [|b l] eqn:El; [by destruct line|]. cbn [parse_lines]. rewrite <- El. rewrite (proj2 (Nat.ltb_lt (length table) _)) by lia.
  rewrite find_byte_app by done. cbn [default from_option id]. rewrite take_app_length. rewrite (parse_line_text k v He : parse_line line = _).
  rewrite (cons_middle 10), app_assoc, drop_app_length' by (by rewrite length_app). subst r. rewrite IH; [by rewrite <- app_assoc|done| |lia].
  rewrite !length_app. cbn. lia.
Qed.

Lemma parse_serialise t : Forall entry_ok t -> (length t <= CONFIG_MAX_ENTRIES)%nat -> (length (concat (entry_text <$> t)) <= FILE_BUF)%nat ->
  parse_config (serialise FILE_BUF t) = t.
Proof. intros Hok Hl Hf. unfold serialise. rewrite take_ge by done. by apply parse_lines_text. Qed.

(** ** The table is a map *)

(** Table [t] holds the map [m], in text that can be written. *)
Record holds (t : list Entry) (m : gmap (list Z) (list Z)) : Prop := {
  ho_ok : Forall entry_ok t;
  ho_len : (length t <= CONFIG_MAX_ENTRIES)%nat;
  ho_nodup : NoDup t.*1;
  ho_map : m = list_to_map t;
}.

Lemma str_of_ok b : from_utf8_ok b = true -> str_of b = b.
Proof. intros H. unfold str_of. by rewrite H. Qed.

Lemma position_some t key i : Forall entry_ok t -> position_of key t = Some i ->
  exists t1 v t2, t = t1 ++ (key, v) :: t2 /\ i = length t1.
Proof.
  intros Hok H. apply fmap_Some in H as ([j e] & Hf & ->). apply list_find_Some in Hf as (Hl & He & _). destruct e as [k v].
  pose proof (Forall_lookup_1 _ _ _ _ Hok Hl) as Hk. rewrite str_of_ok in He by apply Hk. cbn in He. subst k. exists (take j t), v, (drop (S j) t). split.
  - symmetry. by apply take_drop_middle.
  - cbn. rewrite length_take. apply lookup_lt_Some in Hl. lia.
Qed.

Lemma position_none t key : Forall entry_ok t -> position_of key t = None -> key ∉ t.*1.
Proof.
  intros Hok H Hin. apply fmap_None in H. apply list_find_None in H. apply list_elem_of_fmap in Hin as ([k v] & -> & Hin).
  eapply Forall_forall in H; [|exact Hin]. apply H. eapply Forall_forall in Hok; [|exact Hin]. apply str_of_ok, Hok.
Qed.

Lemma holds_middle t1 k v t2 m : holds (t1 ++ (k, v) :: t2) m -> m !! k = Some v /\
  (forall v', entry_ok (k, v') -> holds (t1 ++ (k, v') :: t2) (<[k := v']> m)) /\ holds (t1 ++ t2) (delete k m).
Proof.
  intros [Hok Hl Hnd ->]. apply Forall_app in Hok as [H1 [He H2]%Forall_cons]. rewrite fmap_app, fmap_cons in Hnd. cbn in Hnd.
  apply NoDup_app in Hnd as (N1 & Hdis & [Hn2 N2]%NoDup_cons). rewrite length_app in Hl. cbn in Hl.
  assert (Hn1 : k ∉ t1.*1) by (intros Hin; apply (Hdis k Hin); apply elem_of_cons; by left).
  assert (E1 : (list_to_map t1 : gmap (list Z) (list Z)) !! k = None) by (by apply not_elem_of_list_to_map_1).
  assert (E2 : (list_to_map t2 : gmap (list Z) (list Z)) !! k = None) by (by apply not_elem_of_list_to_map_1).
  rewrite list_to_map_app, list_to_map_cons. split; [|split].
  - by rewrite lookup_union_r, lookup_insert_eq.
  - intros v' He'. split; [apply Forall_app; split; [done|by apply Forall_cons]|rewrite length_app; cbn; lia| |].
    + rewrite fmap_app, fmap_cons. apply NoDup_app. split_and!; [done|done|]. apply NoDup_cons. done.
    + by rewrite list_to_map_app, list_to_map_cons, insert_union_r, insert_insert_eq.
  - split; [by apply Forall_app|rewrite length_app; lia| |].
    + rewrite fmap_app. apply NoDup_app. split_and!; [done| |done]. intros x Hx Hx2. apply (Hdis x Hx). apply elem_of_cons. by right.
    + rewrite list_to_map_app, delete_union, delete_insert_id, delete_id by done. done.
Qed.

Lemma holds_snoc t k v m : holds t m -> k ∉ t.*1 -> entry_ok (k, v) -> (length t < CONFIG_MAX_ENTRIES)%nat -> holds (t ++ [(k, v)]) (<[k := v]> m).
Proof.
  intros [Hok Hl Hnd ->] Hk He Hs. split; [apply Forall_app; split; [done|by apply Forall_singleton]|rewrite length_app; cbn; lia| |symmetry; by apply list_to_map_snoc].
  rewrite fmap_app. cbn. apply NoDup_app. split_and!; [done| |apply NoDup_singleton]. intros x Hx ->%list_elem_of_singleton. done.
Qed.

Lemma holds_none t m k : holds t m -> k ∉ t.*1 -> m !! k = None /\ size m = length t.
Proof. intros [_ _ Hnd ->] Hk. split; [by apply not_elem_of_list_to_map_1|]. rewrite <- length_map_to_list. by apply Permutation_length, map_to_list_to_map. Qed.

(** ** The specification: a map with room for 32 keys *)

Inductive config_op := Set_ (key val : list Z) | Remove (key : list Z).
(** The text of the keys and values that are set can be written; they may be too long. *)
Definition op_ok (o : config_op) : Prop :=
  match o with Set_ k v => (length k <= KEY_MAX)%nat -> (length v <= VAL_MAX)%nat -> entry_ok (k, v) | Remove _ => True end.

Definition spec_op (o : config_op) (m : gmap (list Z) (list Z)) : bool * gmap (list Z) (list Z) :=
  match o with
  | Set_ k v => if (KEY_MAX <? length k)%nat || (VAL_MAX <? length v)%nat || bool_decide (m !! k = None) && (CONFIG_MAX_ENTRIES <=? size m)%nat
                then (false, m) else (true, <[k := v]> m)
  | Remove k => (bool_decide (is_Some (m !! k)), delete k m)
  end.
Fixpoint spec_run (ops : list config_op) (m : gmap (list Z) (list Z)) : list bool * gmap (list Z) (list Z) :=
  match ops with [] => ([], m) | o :: ops => let '(r, m) := spec_op o m in let '(rs, m) := spec_run ops m in (r :: rs, m) end.

(** ** Stores *)

(** What holds of a store: [idle m] when it holds the files [m] and none is open, [opened m fd p pos]
    when [p] is open at [pos].  [config] relies on these laws of its volume: a file can be
    created, reads and writes are whole, and a rename replaces its target.  A FAT32 volume with
    free clusters and entries is meant to keep them; [FatDir.created_entry_swapped] shows
    where the driver does not. *)
Class FilesSpec (S : Type) `{!Files S} := {
  idle : gmap (list Z) (list Z) -> S -> Prop;
  opened : gmap (list Z) (list Z) -> nat -> list Z -> nat -> S -> Prop;
  f_open_spec m p d s : idle m s -> m !! p = Some d -> exists fd s', f_open p s = Got (Some fd, s') /\ opened m fd p 0 s';
  f_absent_spec m p s : idle m s -> m !! p = None -> exists s', f_open p s = Got (None, s') /\ idle m s';
  f_create_spec m p s : idle m s -> exists fd s', f_open_write p s = Got (Some fd, s') /\ opened (<[p := []]> m) fd p 0 s';
  f_read_spec m fd p pos d n s : opened m fd p pos s -> m !! p = Some d ->
    exists s', f_read fd n s = Got ((Z.of_nat (length (take n (drop pos d))), take n (drop pos d)), s') /\ opened m fd p (pos + length (take n (drop pos d))) s';
  f_write_spec m fd p d data s : opened m fd p (length d) s -> m !! p = Some d ->
    exists s', f_write fd data s = Got (Z.of_nat (length data), s') /\ opened (<[p := d ++ data]> m) fd p (length d + length data) s';
  f_close_spec m fd p pos s : opened m fd p pos s -> exists s', f_close fd s = Got (tt, s') /\ idle m s';
  f_rename_spec m p q d s : idle m s -> m !! p = Some d -> p <> q -> exists s', f_rename p q s = Got (true, s') /\ idle (<[q := d]> (delete p m)) s';
}.

Section Laws.
Context {S : Type} `{!Files S, !FilesSpec S}.

Lemma on_files_bind {A B} (m : S -> fout (A * S)) (f : A -> SM (config S) B) c a s : m (files c) = Got (a, s) ->
  (on_files m ≫= f) c = f a (mk_config (TABLE c) (LOADED c) s).
Proof. intros E. unfold mbind, SM_bind, on_files. by rewrite E. Qed.

(** The file holds the table. *)
Definition synced (c : config S) : Prop :=
  exists m, idle m (files c) /\ (m !! CONFIG_PATH = Some (serialise FILE_BUF (TABLE c)) \/ m !! CONFIG_PATH = None /\ TABLE c = []).

Lemma flush_synced c m : idle m (files c) -> exists c', flush_to_disk c = Got (tt, c') /\ TABLE c' = TABLE c /\ synced c'.
Proof.
  intros Hi. unfold flush_to_disk, mbind at 1, SM_bind at 1, table_of. destruct (f_create_spec m CONFIG_TMP _ Hi) as (fd & s1 & E1 & O1).
  erewrite on_files_bind by exact E1. cbv beta iota. destruct (f_write_spec _ fd CONFIG_TMP [] (serialise FILE_BUF (TABLE c)) s1 O1) as (s2 & E2 & O2); [apply lookup_insert_eq|].
  erewrite on_files_bind by exact E2. destruct (f_close_spec _ fd _ _ s2 O2) as (s3 & E3 & O3). erewrite on_files_bind by exact E3.
  destruct (f_rename_spec _ CONFIG_TMP CONFIG_PATH (serialise FILE_BUF (TABLE c)) s3 O3) as (s4 & E4 & O4); [by rewrite lookup_insert_eq|done|].
  erewrite on_files_bind by exact E4. eexists. split; [done|]. split; [done|]. eexists. split; [exact O4|]. left. apply lookup_insert_eq.
Qed.

Lemma set_flush c t (b : bool) : synced c -> exists c', ((_ ← set_table t; _ ← flush_to_disk; mret b) : SM (config S) bool) c = Got (b, c') /\ TABLE c' = t /\ synced c'.
Proof.
  intros (m & Hi & _). unfold mbind at 1, SM_bind at 1, set_table. destruct (flush_synced (mk_config t (LOADED c) (files c)) m Hi) as (c' & E & Et & Hs).
  unfold mbind, SM_bind. rewrite E. by exists c'.
Qed.

Definition run_op (o : config_op) : SM (config S) bool := match o with Set_ k v => set k v | Remove k => remove k end.
Fixpoint run_ops (ops : list config_op) : SM (config S) (list bool) :=
  match ops with [] => mret [] | o :: ops => r ← run_op o; rs ← run_ops ops; mret (r :: rs) end.


Lemma run_op_spec o c m : op_ok o -> holds (TABLE c) m -> synced c ->
  exists c', run_op o c = Got ((spec_op o m).1, c') /\ holds (TABLE c') (spec_op o m).2 /\ synced c'.
Proof.
  intros Ho Hh Hs. destruct o as [k v|k]; cbn [run_op spec_op].
  - unfold set. destruct ((KEY_MAX <? length k)%nat || (VAL_MAX <? length v)%nat) eqn:El; [by exists c|]. apply orb_false_iff in El as [L1%Nat.ltb_ge L2%Nat.ltb_ge].
    specialize (Ho L1 L2). cbn [orb]. unfold mbind at 1, SM_bind at 1, table_of. destruct (position_of k (TABLE c)) as [i|] eqn:Ep.
    + apply position_some in Ep as (t1 & v0 & t2 & Et & ->); [|by destruct Hh]. rewrite Et in *. destruct (holds_middle _ _ _ _ _ Hh) as (Hk & Hi & _).
      rewrite Hk. cbn [bool_decide andb]. destruct (set_flush c (alter (fun e : Entry => (e.1, v)) (length t1) (t1 ++ (k, v0) :: t2)) true Hs) as (c' & E & Et' & Hs').
      exists c'. split; [exact E|]. split; [|done]. rewrite Et'. rewrite alter_app_r_alt, Nat.sub_diag by done. by apply Hi.
    + apply position_none in Ep; [|by destruct Hh]. destruct (holds_none _ _ _ Hh Ep) as [Hk Hz]. rewrite Hk, Hz, bool_decide_eq_true_2 by done. cbn [andb].
      destruct (Nat.leb_spec CONFIG_MAX_ENTRIES (length (TABLE c))); [by exists c|]. destruct (set_flush c (TABLE c ++ [(k, v)]) true Hs) as (c' & E & Et' & Hs').
      rewrite E. exists c'. split; [done|]. split; [|done]. rewrite Et'. by apply holds_snoc.
  - unfold remove. unfold mbind at 1, SM_bind at 1, table_of. destruct (position_of k (TABLE c)) as [i|] eqn:Ep.
    + apply position_some in Ep as (t1 & v0 & t2 & Et & ->); [|by destruct Hh]. rewrite Et in *. destruct (holds_middle _ _ _ _ _ Hh) as (Hk & _ & Hd).
      rewrite Hk, bool_decide_eq_true_2 by eauto. destruct (set_flush c (delete (length t1) (t1 ++ (k, v0) :: t2)) true Hs) as (c' & E & Et' & Hs').
      exists c'. split; [exact E|]. by rewrite Et', delete_middle.
    + apply position_none in Ep; [|by destruct Hh]. destruct (holds_none _ _ _ Hh Ep) as [Hk _]. rewrite Hk, bool_decide_eq_false_2 by (by intros []).
      exists c. split; [done|]. cbn. by rewrite delete_id.
Qed.
Lemma run_spec ops c m : Forall op_ok ops -> holds (TABLE c) m -> synced c ->
  exists c', run_ops ops c = Got ((spec_run ops m).1, c') /\ holds (TABLE c') (spec_run ops m).2 /\ synced c'.
Proof.
  revert c m. induction ops as [|o ops IH]; intros c m Hops Hh Hs; [by exists c|]. apply Forall_cons in Hops as [Ho Hops]. cbn [run_ops spec_run].
  destruct (run_op_spec o c m Ho Hh Hs) as (c1 & E1 & H1 & S1). unfold mbind at 1, SM_bind at 1. rewrite E1. destruct (spec_op o m) as [r m1]. cbn [fst snd] in *.
  destruct (IH c1 m1 Hops H1 S1) as (c2 & E2 & H2 & S2). unfold mbind, SM_bind. rewrite E2. destruct (spec_run ops m1) as [rs m2]. by exists c2.
Qed.

Lemma read_file_spec n m fd p d c : opened m fd p 0 (files c) -> m !! p = Some d -> (length d <= FILE_BUF)%nat ->
  exists s pos, read_file (Datatypes.S (Datatypes.S n)) fd [] c = Got (d, mk_config (TABLE c) (LOADED c) s) /\ opened m fd p pos s.
Proof.
  intros Ho Hd Hl. cbn [read_file length]. rewrite Nat.sub_0_r.
  destruct (f_read_spec m fd p 0 d FILE_BUF _ Ho Hd) as (s1 & E1 & O1). rewrite drop_0, take_ge in * by done.
  rewrite (on_files_bind _ _ c _ s1 E1). cbn [app]. destruct (Z.leb_spec (Z.of_nat (length d)) 0) as [Hz|Hz].
  { destruct d; [|cbn in Hz; lia]. by exists s1, 0%nat. }
  destruct (Nat.leb_spec FILE_BUF (length d)); [by exists s1, (0 + length d)%nat|].
  destruct (f_read_spec m fd p (0 + length d) d (FILE_BUF - length d) s1 O1 Hd) as (s2 & E2 & O2). cbn [Nat.add] in *. rewrite drop_ge, take_nil in * by done.
  erewrite on_files_bind by exact E2. exists s2, (length d + 0)%nat. split; [done|exact O2].
Qed.

Lemma init_spec c m : holds (TABLE c) m -> synced c -> (length (concat (entry_text <$> TABLE c)) <= FILE_BUF)%nat ->
  exists c', init c = Got (tt, c') /\ TABLE c' = TABLE c.
Proof.
  intros [Hok Hl _ _] (f & Hi & Hf) Hfit. unfold init. destruct Hf as [Hf|[Hf Et]].
  - assert (Ep := parse_serialise (TABLE c) Hok Hl Hfit). assert (Hd : (length (serialise FILE_BUF (TABLE c)) <= FILE_BUF)%nat) by (unfold serialise; rewrite length_take; lia).
    set (d := serialise FILE_BUF (TABLE c)) in *. clearbody d.
    destruct (f_open_spec f CONFIG_PATH _ _ Hi Hf) as (fd & s1 & E1 & O1). rewrite (on_files_bind _ _ c _ s1 E1). cbv beta iota.
    set (c1 := mk_config (TABLE c) (LOADED c) s1). destruct (read_file_spec 4095 f fd CONFIG_PATH d c1 O1 Hf Hd) as (s2 & pos & E2 & O2).
    unfold mbind at 1, SM_bind at 1. unfold mbind at 1, SM_bind at 1. rewrite (E2 : read_file (Datatypes.S FILE_BUF) fd [] c1 = _).
    destruct (f_close_spec _ _ _ _ _ O2) as (s3 & E3 & O3). erewrite on_files_bind by exact E3. eexists. split; [done|]. cbn [TABLE]. by destruct d.
  - destruct (f_absent_spec f CONFIG_PATH _ Hi Hf) as (s1 & E1 & O1). rewrite (on_files_bind _ _ c _ s1 E1). cbn. eexists. split; [done|]. by rewrite Et.
Qed.

Lemma get_spec k (c : config S) m : holds (TABLE c) m -> get k c = Got (m !! k, c).
Proof.
  intros Hh. unfold get, mbind at 1, SM_bind at 1, table_of. cbn. destruct (position_of k (TABLE c)) as [i|] eqn:Ep; cbn.
  - apply position_some in Ep as (t1 & v & t2 & Et & ->); [|by destruct Hh]. rewrite Et in *. destruct (holds_middle _ _ _ _ _ Hh) as (Hk & _ & _).
    rewrite list_lookup_middle, Hk by done. cbn. destruct Hh as [[_ [He _]%Forall_cons]%Forall_app _ _ _]. rewrite str_of_ok by apply He. done.
  - apply position_none in Ep; [|by destruct Hh]. by destruct (holds_none _ _ _ Hh Ep) as [-> _].
Qed.

End Laws.

(** ** A store in memory *)

(** The files, and the one that is open with its position. *)
Record memfs := mk_memfs { mf_files : gmap (list Z) (list Z); mf_open : option (list Z * nat) }.

#[export] Instance memfs_files : Files memfs := {
  f_open := fun p s => Got (match mf_files s !! p with
                            | Some _ => (Some 0%nat, mk_memfs (mf_files s) (Some (p, 0%nat)))
                            | None => (None, s)
                            end);
  f_open_write := fun p s => Got (Some 0%nat, mk_memfs (<[p := []]> (mf_files s)) (Some (p, 0%nat)));
  f_read := fun _ n s => Got (match mf_open s with
                              | Some (p, pos) => let b := take n (drop pos (default [] (mf_files s !! p))) in
                                                 ((Z.of_nat (length b), b), mk_memfs (mf_files s) (Some (p, pos + length b)%nat))
                              | None => ((-1, []), s)
                              end);
  f_write := fun _ data s => Got (match mf_open s with
                                  | Some (p, pos) => (Z.of_nat (length data),
                                      mk_memfs (<[p := take pos (default [] (mf_files s !! p)) ++ data]> (mf_files s)) (Some (p, pos + length data)%nat))
                                  | None => (-1, s)
                                  end);
  f_close := fun _ s => Got (tt, mk_memfs (mf_files s) None);
  f_rename := fun p q s => Got (match mf_files s !! p with
                                | Some d => (true, mk_memfs (<[q := d]> (delete p (mf_files s))) None)
                                | None => (false, s)
                                end);
}.

#[export] Instance memfs_spec : FilesSpec memfs.
Proof.
  refine {| idle := fun m s => s = mk_memfs m None; opened := fun m fd p pos s => fd = 0%nat /\ s = mk_memfs m (Some (p, pos)) |}.
  - intros m p d s -> Hd. cbn. rewrite Hd. eauto.
  - intros m p s -> Hd. cbn. rewrite Hd. eauto.
  - intros m p s ->. cbn. eauto.
  - intros m fd p pos d n s [-> ->] Hd. cbn. rewrite Hd. cbn. eauto.
  - intros m fd p d data s [-> ->] Hd. cbn. rewrite Hd. cbn. rewrite firstn_all. eauto.
  - intros m fd p pos s [-> ->]. cbn. eauto.
  - intros m p q d s -> Hd _. cbn. rewrite Hd. eauto.
Defined.

Definition host_key : list Z := lit "hostname".
Definition config_session : list config_op := [Set_ host_key (lit "a"); Set_ (lit "dns") (lit "1.1.1.1"); Set_ host_key (lit "b"); Remove (lit "dns")].

Lemma entry_ok_dec e :
  forallb (fun b => negb (b =? 61) && negb (b =? 10)) e.1 && forallb (fun b => negb (b =? 10)) e.2 && from_utf8_ok e.1 && from_utf8_ok e.2
    && negb (length e.1 =? 0)%nat && (length e.1 <=? KEY_MAX)%nat && (length e.2 <=? VAL_MAX)%nat && negb (bool_decide (last e.2 = Some 13)) = true ->
  entry_ok e.
Proof.
  rewrite !andb_true_iff, !negb_true_iff, !forallb_forall, !Nat.leb_le, Nat.eqb_neq, bool_decide_eq_false. intros (((((((H1 & H2) & H3) & H4) & H5) & H6) & H7) & H8).
  split; try done; [intros Hx; apply H5; by rewrite Hx| | |]; intros Hin%list_elem_of_In; [specialize (H1 _ Hin)|specialize (H1 _ Hin)|specialize (H2 _ Hin)]; done.
Qed.


(** A full table of the longest entries: [set] accepts each, the file holds the first 25 and a
    part of the next. *)
Definition big_table : list Entry := (fun i => (replicate 31 97 ++ [65 + Z.of_nat i], replicate 128 98)) <$> seq 0 32.

Example big_table_truncated : Forall entry_ok big_table /\ length (parse_config (serialise FILE_BUF big_table)) = 26%nat /\
  take 25 (parse_config (serialise FILE_BUF big_table)) = take 25 big_table.
Proof.
  split; [|split; vm_compute; reflexivity]. apply Forall_fmap, Forall_forall. intros i Hi%elem_of_seq. apply entry_ok_dec.
  do 32 (destruct i as [|i]; [vm_compute; reflexivity|]). lia.
Qed.
