(* ===== verification/SemanticService.v ===== *)
(** * The semantic service and its clients

    The message loop of the service: it answers every message, keeps every blob, and
    gives back over messages what was stored over messages; and what [vfs::open] of
    /mem gets from it. *)

From stdpp Require Import base numbers list gmap.
From Stdlib Require Import ZArith Lia Bool SpecFloat.
From S2P Require Import Prelude Machine Sector Ipc Syscall Vfs Semantic SemanticInv SemanticProofs.

Section Service.
Context {D : Type} `{!BlockDevice D} `{!BlockDeviceSpec D} (sqrtf : f32 -> f32).
Implicit Types (v : service (D := D)) (s : sem D).

#[local] Opaque index hash_buf.

(** ** No message loses a blob *)

(** A step of the service: the store stays sound and grows, by at most five blocks. *)
Record steps_to s s' : Prop := {
  st_ok : sem_ok s';
  st_next : next_free s' <= next_free s + 5;
  st_kept : stored_map s ⊆ stored_map s';
}.

Lemma steps_refl s : sem_ok s -> steps_to s s.
Proof. intros H. split; [done|lia|done]. Qed.

Lemma spec_store_kept data m w p : sp_map p ⊆ sp_map (snd (spec_store data m w p)).
Proof.
  unfold spec_store. destruct (sp_map p !! hash_buf data) eqn:E; [done|]. destruct (_ <? _)%nat; [done|]. destruct (reserve _ _) as [[e|] n]; [done|].
  destruct (_ <? _)%nat; [|done]. cbn. by apply insert_subseteq.
Qed.

Lemma store_steps data m w s : sem_ok s -> next_free s + 5 < 2 ^ 64 -> steps_to s (snd (store_full data m w s)).
Proof.
  intros Hs Hn. set (p := mk_spec (stored_map s) (next_free s)). assert (Hp : stands_for s p) by done.
  destruct (store_spec data m w s p Hs Hp Hn) as (_ & Hok & Hm & Hb). split; [done| |].
  - rewrite <- Hb. pose proof (spec_do_blocks (Store data m w) p (fst (spec_store data m w p)) (snd (spec_store data m w p))) as H.
    cbn [spec_do] in H. destruct (spec_store data m w p). by apply H.
  - rewrite <- Hm. apply (spec_store_kept data m w p).
Qed.

Lemma sstore_write_hashes ptr rs v : sstore (write_hashes ptr rs v) = sstore v.
Proof. revert ptr v. induction rs as [|r rs IH]; intros ptr v; [done|]. cbn. by rewrite IH. Qed.
Lemma sstore_write_vec ptr rs v : sstore (write_vec_results ptr rs v) = sstore v.
Proof. revert ptr v. induction rs as [|r rs IH]; intros ptr v; [done|]. cbn [write_vec_results]. by rewrite IH. Qed.

Lemma retrieve_total hash room s : sem_ok s -> exists r, retrieve hash room s = Done r.
Proof. intros Hs. rewrite (retrieve_spec hash room s (mk_spec (stored_map s) (next_free s))) by done. eauto. Qed.


Lemma handle_store_steps msg v : sem_ok (sstore v) -> next_free (sstore v) + 5 < 2 ^ 64 -> steps_to (sstore v) (sstore (handle_store msg v).2).
Proof.
  intros Hs Hn. unfold handle_store. destruct (_ && _); [|by apply steps_refl].
  pose proof (store_steps (bytes_in (read_u64 msg 8) (read_u64 msg 16) v) None None _ Hs Hn) as H. by destruct (store_full _ _ _ _) as [[h|e] s'].
Qed.

Lemma handle_store_meta_steps msg v : sem_ok (sstore v) -> next_free (sstore v) + 5 < 2 ^ 64 -> steps_to (sstore v) (sstore (handle_store_meta msg v).2).
Proof.
  intros Hs Hn. unfold handle_store_meta. destruct (_ && _); [|by apply steps_refl]. set (meta := if valid_ptr _ _ then _ else _).
  pose proof (store_steps (bytes_in (read_u64 msg 8) (read_u64 msg 16) v) meta None _ Hs Hn) as H. by destruct (store_full _ _ _ _) as [[h|e] s'].
Qed.

Lemma handle_store_vec_steps msg v : sem_ok (sstore v) -> next_free (sstore v) + 5 < 2 ^ 64 -> steps_to (sstore v) (sstore (handle_store_vec msg v).2).
Proof.
  intros Hs Hn. unfold handle_store_vec. destruct (_ && _); [|by apply steps_refl]. set (e := Embedding_from_bytes _).
  pose proof (store_steps (bytes_in (read_u64 msg 8) (read_u64 msg 16) v) None (Some e) _ Hs Hn) as H. by destruct (store_full _ _ _ _) as [[h|e'] s'].
Qed.

Lemma handle_search_keeps search msg v : sstore (handle_search search msg v).2 = sstore v.
Proof. unfold handle_search. destruct (_ && _); [cbn; apply sstore_write_hashes|done]. Qed.

Lemma handle_vector_search_keeps msg v : sstore (handle_vector_search sqrtf msg v).2 = sstore v.
Proof. unfold handle_vector_search. destruct (_ && _); [cbn [snd]; apply sstore_write_vec|done]. Qed.

Lemma handle_retrieve_keeps msg v : sem_ok (sstore v) -> exists r v', handle_retrieve msg v = Done (r, v') /\ sstore v' = sstore v.
Proof.
  intros Hs. unfold handle_retrieve. destruct (_ && _); [|by eexists _, _].
  destruct (retrieve_total (bytes_in (read_u64 msg 8) 32 v) (read_u64 msg 24) _ Hs) as [[d|e] ->]; by eexists _, _.
Qed.

Lemma serve_message_steps msg v : sem_ok (sstore v) -> next_free (sstore v) + 5 < 2 ^ 64 ->
  exists r v', serve_message sqrtf msg v = Done (r, v') /\ steps_to (sstore v) (sstore v').
Proof.
  intros Hs Hn. pose proof (steps_refl _ Hs) as H0. unfold serve_message.
  destruct (_ =? 100); [eexists _, _; split; [reflexivity|by apply handle_store_steps]|].
  destruct (_ =? 101); [destruct (handle_retrieve_keeps msg v Hs) as (r & v' & -> & E); eexists _, _; split; [reflexivity|cbn; by rewrite E]|].
  destruct (_ =? 102); [eexists _, _; split; [reflexivity|by apply handle_store_meta_steps]|].
  destruct (_ =? 103); [eexists _, _; split; [reflexivity|unfold handle_search_tag; by rewrite handle_search_keeps]|].
  destruct (_ =? 104); [eexists _, _; split; [reflexivity|unfold handle_query; by rewrite handle_search_keeps]|].
  destruct (_ =? 105); [eexists _, _; split; [reflexivity|by rewrite handle_vector_search_keeps]|].
  destruct (_ =? 106); [eexists _, _; split; [reflexivity|by apply handle_store_vec_steps]|].
  by eexists _, _.
Qed.

(** The service answers whatever it is sent.  From a sound store every sequence of
    messages, well-formed or not, is served to its end without a panic; the store stays
    sound, and every blob it held it still holds, under the same hash. *)
Theorem service_keeps_blobs msgs v : sem_ok (sstore v) -> next_free (sstore v) + 5 * Z.of_nat (length msgs) < 2 ^ 64 ->
  exists rs v', serve_all sqrtf msgs v = Done (rs, v') /\ length rs = length msgs /\ sem_ok (sstore v') /\ stored_map (sstore v) ⊆ stored_map (sstore v').
Proof.
  revert v. induction msgs as [|m msgs IH]; intros v Hs Hn; cbn [serve_all]; [by eexists [], _|]. cbn [length] in Hn.
  destruct (serve_message_steps m v Hs ltac:(lia)) as (r & v1 & -> & [Hs1 Hn1 Hk1]). cbn [mbind outcome_bind].
  destruct (IH v1 Hs1 ltac:(lia)) as (rs & v2 & -> & Hl & Hs2 & Hk2). eexists (r :: rs), v2. cbn. split_and!; [done|by rewrite Hl|done|by etrans].
Qed.

(** ** Store and retrieve, over messages *)

(** The four words of a request. *)
Definition request (op a b c : Z) : list Z := to_le_bytes 8 op ++ to_le_bytes 8 a ++ to_le_bytes 8 b ++ to_le_bytes 8 c.

Lemma request_words op a b c : is_u64 op -> is_u64 a -> is_u64 b -> is_u64 c ->
  read_u64 (request op a b c) 0 = op /\ read_u64 (request op a b c) 8 = a /\ read_u64 (request op a b c) 16 = b /\ read_u64 (request op a b c) 24 = c.
Proof.
  intros Ho Ha Hb Hc. unfold read_u64, request. split_and!.
  - rewrite drop_0, take_app_length' by (by rewrite length_to_le_bytes). by apply le_u64.
  - rewrite drop_app_length', take_app_length' by (by rewrite length_to_le_bytes). by apply le_u64.
  - rewrite app_assoc, drop_app_length', take_app_length' by (by rewrite ?length_app, ?length_to_le_bytes). by apply le_u64.
  - rewrite app_assoc, app_assoc, drop_app_length' by (by rewrite ?length_app, ?length_to_le_bytes). rewrite take_ge by (by rewrite length_to_le_bytes). by apply le_u64.
Qed.

Lemma bytes_written ptr l v : bytes_in ptr (Z.of_nat (length l)) (write_mem ptr l v) = l.
Proof. unfold bytes_in, write_mem, kcopy. cbn [smem]. rewrite Nat2Z.id. apply load_store_bytes. Qed.

Lemma length_bytes_in ptr len v : 0 <= len -> Z.of_nat (length (bytes_in ptr len v)) = len.
Proof. intros H. unfold bytes_in. rewrite length_load_bytes. lia. Qed.

Lemma serve_store msg v : read_u64 msg 0 = 100 -> serve_message sqrtf msg v = Done (Some (handle_store msg v).1, (handle_store msg v).2).
Proof. intros H. unfold serve_message. by rewrite H. Qed.
Lemma serve_retrieve msg v r v' : read_u64 msg 0 = 101 -> handle_retrieve msg v = Done (r, v') -> serve_message sqrtf msg v = Done (Some r, v').
Proof. intros H Hr. unfold serve_message. by rewrite H, Hr. Qed.

(** The map after a store that succeeds. *)
Lemma spec_store_ok data p : fst (spec_store data None None p) = Ok (hash_buf data) -> sp_map p !! hash_buf data = None \/ sp_map p !! hash_buf data = Some data ->
  sp_map (snd (spec_store data None None p)) !! hash_buf data = Some data.
Proof.
  unfold spec_store. intros H Hm. destruct (sp_map p !! hash_buf data) as [d|] eqn:E; [destruct Hm as [?|Hm]; [done|]; cbn; by rewrite E|].
  destruct (_ <? _)%nat; [done|]. destruct (reserve _ _) as [[e|] n]; [done|]. destruct (_ <? _)%nat; [|done]. cbn. by rewrite lookup_insert_eq.
Qed.


(** ** Files of /mem *)

(** Every reply starts with a status. *)
Definition status_reply (r : list Z) : Prop := exists st rest, 0 <= st <= 2 /\ r = reply_of st rest.

Lemma handle_replies msg v : status_reply (handle_store msg v).1 /\ status_reply (handle_store_meta msg v).1 /\ status_reply (handle_store_vec msg v).1.
Proof.
  split_and!; [unfold handle_store|unfold handle_store_meta|unfold handle_store_vec];
    (destruct (_ && _); [destruct (store_full _ _ _ _) as [[h|e] s']|]; (eexists _, _; split; [|reflexivity]; lia)).
Qed.

Lemma search_replies search msg v : status_reply (handle_search search msg v).1 /\ status_reply (handle_vector_search sqrtf msg v).1.
Proof.
  split; [unfold handle_search|unfold handle_vector_search]; (destruct (_ && _); (eexists _, _; split; [|reflexivity]; lia)).
Qed.

Lemma serve_replies msg v r v' : serve_message sqrtf msg v = Done (Some r, v') -> status_reply r.
Proof.
  destruct (handle_replies msg v) as (H1 & H2 & H3). unfold serve_message.
  destruct (_ =? 100); [by intros [= <- _]|]. destruct (_ =? 101).
  { unfold handle_retrieve. destruct (_ && _); [destruct (retrieve _ _ _) as [[d|e]|]|]; intros [=]; subst; (eexists _, _; split; [|reflexivity]; lia). }
  destruct (_ =? 102); [by intros [= <- _]|].
  destruct (_ =? 103); [intros [= <- _]; apply (search_replies search_by_tag)|].
  destruct (_ =? 104); [intros [= <- _]; apply (search_replies search_keyword)|].
  destruct (_ =? 105); [intros [= <- _]; apply (search_replies search_keyword)|].
  destruct (_ =? 106); [by intros [= <- _]|done].
Qed.

Lemma status_reply_no_node r sender : status_reply r -> reply_node (mk_msg sender r) = None.
Proof.
  intros (st & rest & Hst & ->). unfold reply_node, reply_of. cbn [data]. rewrite take_app_length' by (by rewrite length_to_le_bytes).
  rewrite le_u64 by (unfold is_u64; lia). destruct (Z.eqb_spec st 101); [lia|done].
Qed.

Lemma length_trim_slashes path : (length (trim_slashes path) <= length path)%nat.
Proof. induction path as [|b l IH]; [done|]. cbn [trim_slashes]. repeat case_match; cbn [length]; lia. Qed.

Lemma length_mem_key path : Z.of_nat (length (mem_key path)) <= Z.of_nat (length path).
Proof.
  pose proof (length_trim_slashes path). unfold mem_key. case_ifs; rewrite ?length_drop; cbn [length]; lia.
Qed.

(** C40: a file of /mem cannot be opened.  [vfs::open] sends the service the pointer and
    the length of the key where the service reads the pointer of a hash and of a buffer;
    the length is no pointer, and the request is refused with status 2, whatever is
    stored.  And [open] waits for a reply that starts with 101, while every reply the
    service ever sends starts with a status of 0, 1 or 2: no reply makes a file. *)
Theorem mem_open_refused v tid ptr path : mem_key path <> [] -> Z.of_nat (length path) < 0x40000000 ->
  serve_message sqrtf (data (retrieve_request tid ptr path)) v = Done (Some (reply_of 2 (to_le_bytes 8 0)), v) /\
  forall msg v0 r v1 sender, serve_message sqrtf msg v0 = Done (Some r, v1) -> reply_node (mk_msg sender r) = None.
Proof.
  intros Hk Hl. split; [|intros; by eapply status_reply_no_node, serve_replies].
  set (a := ptr +u Z.of_nat (length path - length (mem_key path))). set (n := Z.of_nat (length (mem_key path))).
  assert (data (retrieve_request tid ptr path) = request 101 a n 0) as -> by done.
  pose proof (length_mem_key path) as Hn. fold n in Hn.
  destruct (request_words 101 a n 0) as (E & R1 & R2 & R3); [done|apply as_u64_range|unfold is_u64; lia|done|].
  apply serve_retrieve; [exact E|]. unfold handle_retrieve. rewrite R1, R2, R3.
  assert (valid_ptr n 0 = false) as -> by (unfold valid_ptr, KERNEL_VA_OFFSET; case_ifs; lia).
  by rewrite andb_false_r.
Qed.
End Service.

(** ** The claims at work *)

Definition with_blob : service := mk_service ∅ one_blob.

Lemma service_keeps_blobs_witness : exists rs v', serve_all id [replicate 32 255; request 101 0x40000000 0x40001000 512] with_blob = Done (rs, v') /\
  length rs = 2%nat /\ stored_map (sstore v') !! hash_buf blob = Some blob.
Proof.
  destruct (service_keeps_blobs id [replicate 32 255; request 101 0x40000000 0x40001000 512] with_blob one_blob_ok ltac:(vm_compute; reflexivity))
    as (rs & v' & H & Hl & _ & Hk).
  exists rs, v'. split; [exact H|]. split; [exact Hl|]. eapply lookup_weaken; [|exact Hk]. vm_compute. reflexivity.
Defined.

Definition with_bytes : service := mk_service (store_bytes ∅ 0x40002000 [7; 8; 9]) (bm_init (bm_new disk0)).


(** /mem/ab *)
Definition mem_path : list Z := [47; 109; 101; 109; 47; 97; 98].

Lemma mem_open_refused_witness : serve_message id (data (retrieve_request 5 0x40002000 mem_path)) with_blob =
  Done (Some (reply_of 2 (to_le_bytes 8 0)), with_blob).
Proof. apply (mem_open_refused id with_blob 5 0x40002000 mem_path); [vm_compute; discriminate|cbn; lia]. Defined.
