(* ===== verification/HttpdProofs.v ===== *)
(** * The HTTP server: dispatch of requests, and the memory search

    What [handle_connection] does with a complete request on every stream that keeps the
    laws of [StreamSpec], and what the search page gets from the semantic service. *)

From stdpp Require Import base numbers list strings gmap.
From Stdlib Require Import ZArith Lia Bool SpecFloat.
From S2P Require Import Prelude Machine Sector Text NetState NetLink Tcp NetInv NetSafe TcpStream Stream Ws WsProofs Httpd Http HttpProofs Semantic SemanticProofs.

(** ** Requests *)

Definition request_line (method path version : list Z) : list Z := method ++ 32 :: path ++ 32 :: version.
Definition request (method path version : list Z) (headers : list (list Z)) (body : list Z) : list Z :=
  block (request_line method path version :: headers) ++ CRLF ++ body.

Record request_ok (method path version : list Z) (headers : list (list Z)) : Prop := {
  ro_method : (32 ∉ method) /\ 13 ∉ method;
  ro_path : (32 ∉ path) /\ 13 ∉ path;
  ro_version : 13 ∉ version;
  ro_headers : Forall line_ok headers;
}.

Lemma split1_app c a b : c ∉ a -> split1 c (a ++ c :: b) = (a, Some b).
Proof.
  intros Hc. unfold split1. rewrite find_byte_app by done. rewrite take_app_length. f_equal. f_equal.
  rewrite (cons_middle c), app_assoc. apply drop_app_length'. by rewrite length_app.
Qed.

Lemma line_no_cr method path version headers : request_ok method path version headers -> 13 ∉ request_line method path version.
Proof.
  intros [[_ H1] [_ H2] H3 _]. unfold request_line. rewrite elem_of_app, elem_of_cons, elem_of_app, elem_of_cons. intros [?|[?|[?|[?|?]]]]; done.
Qed.

Lemma parse_request method path version headers body : request_ok method path version headers ->
  parse_request_line (request method path version headers body) = Some (method, path, version).
Proof.
  intros Hok. pose proof (line_no_cr _ _ _ _ Hok) as Hcr. destruct Hok as [[H1 _] [H2 _] _ _]. unfold parse_request_line, request.
  rewrite block_cons, <- !app_assoc. change (CRLF ++ ?x) with (13 :: 10 :: x). rewrite find_byte_app by done. cbn [mbind option_bind]. rewrite take_app_length.
  unfold request_line. rewrite split1_app by done. cbn [mbind option_bind]. by rewrite split1_app.
Qed.

Lemma request_lines_ok method path version headers : request_ok method path version headers ->
  Forall line_ok (request_line method path version :: headers).
Proof.
  intros Hok. apply Forall_cons. split; [split; [|by eapply line_no_cr]|by destruct Hok]. unfold request_line. by destruct method.
Qed.

Lemma body_start method path version headers body : request_ok method path version headers ->
  find_body_start (request method path version headers body) = Some (length (request method path version headers body) - length body)%nat.
Proof.
  intros Hok. unfold find_body_start, request. rewrite blank_line by (done || by apply request_lines_ok). cbn [fmap option_fmap option_map].
  f_equal. rewrite !length_app. change (length CRLF) with 2%nat. rewrite block_cons, !length_app. change (length CRLF) with 2%nat. lia.
Qed.

Section Serve.
Context {T : Type} `{!Stream T, !StreamSpec T, !HttpHost T} (rounds : nat).

Lemma read_request_run m raw s : ready s -> pend s = raw -> raw <> [] -> (length raw <= RECV_BUF_SIZE)%nat -> has_end_of_headers raw = true ->
  exists s', read_request (S m) [] s = Got (Some raw, s') /\ ready s' /\ pend s' = [].
Proof.
  intros Hr Hp Hne Hl He. cbn [read_request]. match goal with |- context [(wait_readable ?ms ≫= ?f) ?s] => destruct (wait_bind ms f s Hr) as (s1 & -> & R1 & P1) end; [by rewrite Hp|].
  cbv beta iota. cbn [negb length]. rewrite Nat.sub_0_r. unfold mbind, SM_bind, read_some. destruct (st_read_spec RECV_BUF_SIZE s1 R1) as (s2 & -> & R2 & P2).
  rewrite P1, Hp in *. rewrite take_ge by done. rewrite drop_ge in P2 by done. destruct raw as [|b raw]; [done|]. cbn [length Nat.eqb app].
  rewrite He. by exists s2.
Qed.

Lemma request_body_run raw body cl s : find_body_start raw = Some (length raw - length body)%nat -> drop (length raw - length body) raw = body ->
  cl <= Z.of_nat (length body) -> request_body raw cl s = if (BODY_BUF_SIZE <? length body)%nat then Crashed else Got (body, s).
Proof.
  intros Hs Hd Hc. unfold request_body. rewrite Hs. cbn [default from_option id]. rewrite Hd.
  assert (0 <= as_u64 (Z.of_nat BODY_BUF_SIZE - Z.of_nat (length body))) by (unfold as_u64, wrap; apply Z.mod_pos_bound; lia).
  rewrite (proj2 (Z.ltb_ge 0 _)) by lia. unfold mbind, SM_bind. cbn [mret SM_ret]. by destruct (_ <? _)%nat.
Qed.

(** C20: A request reaches its page, and a long body stops the kernel.  A request that has arrived
    in full within the server's buffer, with any method, path, version and headers, and
    no more than its body announced, is read, taken apart as it was put together and
    answered with what [route] gives for it, on every stream that keeps the laws; when
    the body has more than 512 bytes the handler panics instead. *)
Theorem request_dispatched method path version headers body s : request_ok method path version headers ->
  let raw := request method path version headers body in
  (length raw <= RECV_BUF_SIZE)%nat -> default 0 (Httpd.parse_content_length raw) <= Z.of_nat (length body) -> is_ws_upgrade raw = false ->
  ready s -> pend s = raw ->
  exists s', ready s' /\ pend s' = [] /\
    handle_connection rounds s =
      if (BODY_BUF_SIZE <? length body)%nat then Crashed
      else ((resp ← route rounds method path body; write_response (length resp) resp) ≫= fun _ => close_conn) s'.
Proof.
  intros Hok raw Hl Hc Hw Hr Hp. assert (Hne : raw <> []). { subst raw. unfold request. rewrite block_cons. unfold request_line. by destruct method. }
  assert (He : has_end_of_headers raw = true).
  { apply bool_decide_eq_true_2. unfold raw, request. rewrite blank_line by (done || by apply request_lines_ok). done. }
  unfold handle_connection, mbind at 1, SM_bind at 1. destruct (read_request_run RECV_BUF_SIZE raw s Hr Hp Hne Hl He) as (s1 & -> & R1 & P1).
  exists s1. split; [done|]. split; [done|]. destruct raw as [|b raw'] eqn:Eraw; [done|]. rewrite <- Eraw in *. unfold mbind at 1, SM_bind at 1, serve.
  rewrite (parse_request _ _ _ headers body Hok : parse_request_line raw = _). unfold mbind at 1, SM_bind at 1.
  rewrite (request_body_run raw body _ s1 (body_start _ _ _ _ body Hok)); [|unfold raw, request; rewrite app_assoc; apply drop_app_length'; rewrite !length_app; lia|done].
  destruct (BODY_BUF_SIZE <? length body)%nat; [done|]. rewrite Hw. reflexivity.
Qed.
End Serve.

(** ** A server on a stream in memory *)

(** No other task answers; the clock stands still. *)
#[export] Instance buffer_host : HttpHost buffer := {
  h_send := fun _ _ b => Got (false, b); h_recv := fun b => Got (None, b); h_try_recv := fun b => Got (None, b); h_yield := fun b => Got (tt, b);
  h_ticks := fun b => Got (0, b); h_counter := fun b => Got (0, b); h_freq := 1000000;
  h_status := fun b => Got (mk_status [10; 0; 2; 15] 1000 2000 4 50 100, b); h_addr := fun _ => 0x40000000; h_bytes := fun _ n b => Got (replicate n 0, b);
}.

Definition health_request (body : list Z) : list Z := request (lit "GET") (lit "/health?x=1") (lit "HTTP/1.1") [lit "Host: aeglos"] body.

Lemma health_request_ok : request_ok (lit "GET") (lit "/health?x=1") (lit "HTTP/1.1") [lit "Host: aeglos"].
Proof. split; [split; apply (bool_decide_unpack _); vm_compute; exact I..| |]; [apply (bool_decide_unpack _); vm_compute; exact I|]. repeat constructor; [done|]. apply (bool_decide_unpack _); vm_compute; exact I. Qed.

Lemma request_dispatched_witness :
  handle_connection 1 (mk_buffer (health_request []) []) = Got (tt, mk_buffer [] page_health) /\
  handle_connection 1 (mk_buffer (health_request (replicate 513 65)) []) = Crashed.
Proof.
  split.
  - destruct (request_dispatched 1 (lit "GET") (lit "/health?x=1") (lit "HTTP/1.1") [lit "Host: aeglos"] [] (mk_buffer (health_request []) []) health_request_ok)
      as (s' & _ & _ & E); [vm_compute; lia|vm_compute; discriminate|vm_compute; reflexivity|exact I|reflexivity|]. vm_compute. reflexivity.
  - destruct (request_dispatched 1 (lit "GET") (lit "/health?x=1") (lit "HTTP/1.1") [lit "Host: aeglos"] (replicate 513 65)
      (mk_buffer (health_request (replicate 513 65)) []) health_request_ok) as (s' & _ & _ & E);
      [vm_compute; lia|vm_compute; discriminate|vm_compute; reflexivity|exact I|reflexivity|]. exact E.
Defined.

(** ** The memory search *)

Lemma le_bytes_nonneg l : Forall is_u8 l -> 0 <= le_bytes l.
Proof. induction 1 as [|b l Hb Hl IH]; cbn; [lia|]. unfold is_u8 in Hb. lia. Qed.

(** The memory search of the web server cannot succeed.  The message [page_mem] sends for a
    query of text is none the semantic service knows: it carries the text in the upper
    half of the operation number, and the service sends no reply to it; and the page
    made from a reply of any kind panics, because it copies eleven bytes into a slice
    of thirteen. *)
Theorem web_search_fails {D} `{!BlockDevice D} (sqrtf : f32 -> f32) (q0 : Z) (q : list Z) (v : service (D := D)) data :
  0 < q0 < 256 -> Forall is_u8 q -> length data = 32%nat ->
  serve_message sqrtf (mem_request (q0 :: q)) v = Done (None, v) /\ mem_page data = Crashed.
Proof.
  intros H0 Hq Hd. split.
  - assert (E : read_u64 (mem_request (q0 :: q)) 0 > 106); [|unfold serve_message; rewrite !(proj2 (Z.eqb_neq _ _)) by lia; done].
    unfold mem_request, splice, read_u64. cbn [replicate insert list_insert take app drop]. set (r := take 3 _).
    assert (Hr : Forall is_u8 r). { apply Forall_take, Forall_app. split; [by apply Forall_take|]. apply Forall_drop. repeat constructor; lia. }
    pose proof (le_bytes_nonneg r Hr). cbn [le_bytes]. lia.
  - unfold mem_page. destruct (byte_at_some data 1 ltac:(lia)) as [b ->]. cbn [mbind fout_bind]. rewrite subslice_some by lia. reflexivity.
Qed.

Lemma web_search_fails_witness : let v := mk_service ∅ (bm_init (bm_new disk0)) in
  serve_message id (mem_request (lit "cat")) v = Done (None, v) /\ mem_page (replicate 32 0) = Crashed.
Proof. cbv zeta. apply (web_search_fails id 99 (lit "at")); [lia|repeat constructor; lia|reflexivity]. Defined.
