(* ===== verification/WasmParse.v ===== *)
(** * The WASM loader (kernel/src/wasm/mod.rs)

    LEB128 decoding, the binary parser, [load] and [validate].  A parser works on
    a byte slice and a position; [None] is the parse failure every caller turns
    into [InvalidSection], [Panic] an index or slice out of range. *)

From stdpp Require Import base numbers list gmap strings.
From Stdlib Require Import ZArith Lia Ascii.
From S2P Require Import Prelude Machine PageAlloc Syscall.


(** ** Bytes and strings *)

(** A string literal as bytes. *)
Fixpoint str (s : string) : list Z :=
  match s with
  | EmptyString => []
  | String c s' => Z.of_N (N_of_ascii c) :: str s'
  end.

(** [data[i]] and [&data[a..b]]. *)
Definition index (l : list Z) (i : nat) : outcome Z :=
  match l !! i with Some b => Done b | None => Panic end.
Definition subslice (l : list Z) (a b : nat) : outcome (list Z) :=
  if (a <=? b)%nat && (b <=? length l)%nat then Done (take (b - a) (drop a l)) else Panic.

(** [String::from_utf8_lossy]: an ill-formed prefix of a character becomes U+FFFD. *)
Definition REPLACEMENT : list Z := [0xEF; 0xBF; 0xBD].

(** The number of bytes of the character at the head, or the length of the
    ill-formed prefix to replace. *)
Definition utf8_head (l : list Z) : bool * nat :=
  match l with
  | [] => (true, O)
  | b :: r =>
      if b <? 0x80 then (true, 1%nat)
      else if in_range 0xC2 b 0xDF then
        match r with c1 :: _ => if utf8_cont c1 then (true, 2%nat) else (false, 1%nat) | [] => (false, 1%nat) end
      else if in_range 0xE0 b 0xEF then
        match r with
        | c1 :: r1 =>
            if utf8_second3 b c1 then
              match r1 with c2 :: _ => if utf8_cont c2 then (true, 3%nat) else (false, 2%nat) | [] => (false, 2%nat) end
            else (false, 1%nat)
        | [] => (false, 1%nat)
        end
      else if in_range 0xF0 b 0xF4 then
        match r with
        | c1 :: r1 =>
            if utf8_second4 b c1 then
              match r1 with
              | c2 :: r2 =>
                  if utf8_cont c2 then
                    match r2 with c3 :: _ => if utf8_cont c3 then (true, 4%nat) else (false, 3%nat) | [] => (false, 3%nat) end
                  else (false, 2%nat)
              | [] => (false, 2%nat)
              end
            else (false, 1%nat)
        | [] => (false, 1%nat)
        end
      else (false, 1%nat)
  end.

(** Each round consumes at least one byte, so [length l] rounds are enough. *)
Fixpoint utf8_lossy_loop (fuel : nat) (l : list Z) : list Z :=
  match fuel, l with
  | S f, _ :: _ => let '(ok, n) := utf8_head l in
      (if ok : bool then take n l else REPLACEMENT) ++ utf8_lossy_loop f (drop n l)
  | _, _ => []
  end.
Definition from_utf8_lossy (l : list Z) : list Z := utf8_lossy_loop (length l) l.

(** ** Data *)

Inductive ValType := I32 | I64 | F32 | F64.
#[export] Instance ValType_eq_dec : EqDecision ValType.
Proof. solve_decision. Defined.

Definition from_byte (b : Z) : option ValType :=
  if b =? 0x7F then Some I32
  else if b =? 0x7E then Some I64
  else if b =? 0x7D then Some F32
  else if b =? 0x7C then Some F64
  else None.

Record FuncType := mk_functype { params : list ValType; results : list ValType }.

Inductive ImportKind :=
| IFunc (type_idx : Z)
| ITable
| IMemory (min : Z) (max : option Z)
| IGlobal.

Record Import := mk_import { imp_module : list Z; imp_name : list Z; imp_kind : ImportKind }.

Inductive ExportKind := EFunc | ETable | EMemory | EGlobal.
#[export] Instance ExportKind_eq_dec : EqDecision ExportKind.
Proof. solve_decision. Defined.

Record Export := mk_export { exp_name : list Z; exp_kind : ExportKind; exp_idx : Z }.
Record GlobalDef := mk_global { gl_type : ValType; gl_mutable : bool; gl_init : Z }.
Record FuncBody := mk_body { body_locals : list (Z * ValType); body_code : list Z }.
Record DataSegment := mk_data { data_mem : Z; data_offset : Z; data_bytes : list Z }.
Record ElemSegment := mk_elem { elem_table : Z; elem_offset : Z; elem_funcs : list Z }.

Record WasmModule := mk_module {
  types : list FuncType;
  imports : list Import;
  func_types : list Z;
  table_size : Z;
  mem_min : Z;
  mem_max : option Z;
  globals : list GlobalDef;
  exports : list Export;
  start : option Z;
  elem : list ElemSegment;
  code : list FuncBody;
  mdata : list DataSegment;
  caps : Z;
}.

(** Updates of one field. *)
Definition set_types v m := mk_module v (imports m) (func_types m) (table_size m) (mem_min m) (mem_max m)
  (globals m) (exports m) (start m) (elem m) (code m) (mdata m) (caps m).
Definition set_imports v m := mk_module (types m) v (func_types m) (table_size m) (mem_min m) (mem_max m)
  (globals m) (exports m) (start m) (elem m) (code m) (mdata m) (caps m).
Definition set_func_types v m := mk_module (types m) (imports m) v (table_size m) (mem_min m) (mem_max m)
  (globals m) (exports m) (start m) (elem m) (code m) (mdata m) (caps m).
Definition set_table_size v m := mk_module (types m) (imports m) (func_types m) v (mem_min m) (mem_max m)
  (globals m) (exports m) (start m) (elem m) (code m) (mdata m) (caps m).
Definition set_mem mn mx m := mk_module (types m) (imports m) (func_types m) (table_size m) mn mx
  (globals m) (exports m) (start m) (elem m) (code m) (mdata m) (caps m).
Definition set_globals v m := mk_module (types m) (imports m) (func_types m) (table_size m) (mem_min m) (mem_max m)
  v (exports m) (start m) (elem m) (code m) (mdata m) (caps m).
Definition set_exports v m := mk_module (types m) (imports m) (func_types m) (table_size m) (mem_min m) (mem_max m)
  (globals m) v (start m) (elem m) (code m) (mdata m) (caps m).
Definition set_start v m := mk_module (types m) (imports m) (func_types m) (table_size m) (mem_min m) (mem_max m)
  (globals m) (exports m) v (elem m) (code m) (mdata m) (caps m).
Definition set_elem v m := mk_module (types m) (imports m) (func_types m) (table_size m) (mem_min m) (mem_max m)
  (globals m) (exports m) (start m) v (code m) (mdata m) (caps m).
Definition set_code v m := mk_module (types m) (imports m) (func_types m) (table_size m) (mem_min m) (mem_max m)
  (globals m) (exports m) (start m) (elem m) v (mdata m) (caps m).
Definition set_mdata v m := mk_module (types m) (imports m) (func_types m) (table_size m) (mem_min m) (mem_max m)
  (globals m) (exports m) (start m) (elem m) (code m) v (caps m).

Inductive WasmError :=
| InvalidMagic
| InvalidSection
| UnsupportedSection (id : Z)
| OutOfMemory
| ExportNotFound
| TypeMismatch
| Trap (why : string)
| MemoryFault (addr : Z)
| DivisionByZero
| StackOverflow
| Unimplemented (what : string).

Definition WASM_DEFAULT_CAPS : Z := Z.lor CAP_SEND CAP_RECV.

(** [import_func_count], [total_func_count], [func_type], [find_export]. *)
Definition is_func_import (i : Import) : bool :=
  match imp_kind i with IFunc _ => true | _ => false end.
Definition import_func_count (m : WasmModule) : nat := length (List.filter is_func_import (imports m)).
Definition total_func_count (m : WasmModule) : nat := (import_func_count m + length (code m))%nat.

(** The type index of the [idx]-th imported function. *)
Fixpoint import_type (l : list Import) (fi idx : Z) : option Z :=
  match l with
  | [] => None
  | imp :: l' =>
      match imp_kind imp with
      | IFunc ti => if fi =? idx then Some ti else import_type l' (fi + 1) idx
      | _ => import_type l' fi idx
      end
  end.

Definition func_type (m : WasmModule) (idx : Z) : option FuncType :=
  let n_imports := Z.of_nat (import_func_count m) in
  if idx <? n_imports then
    match import_type (imports m) 0 idx with Some ti => types m !! Z.to_nat ti | None => None end
  else
    match func_types m !! Z.to_nat (idx - n_imports) with
    | Some ti => types m !! Z.to_nat ti
    | None => None
    end.

Definition find_export (m : WasmModule) (name : list Z) : option Z :=
  exp_idx <$> List.find (fun e => bool_decide (exp_kind e = EFunc) && bool_decide (exp_name e = name)) (exports m).

(** ** LEB128

    [loop] bodies; after byte [n] the code gives up at shift 35 (70 for 64 bits),
    so five (ten) rounds are enough. *)

Fixpoint leb_u32 (fuel : nat) (data : list Z) (i : nat) (result shift : Z) : outcome (option (Z * nat)) :=
  match fuel with
  | O => Panic
  | S f =>
      if (length data <=? i)%nat then Done None
      else
        b ← index data i;
        let result := Z.lor result (as_u32 (Z.shiftl (Z.land b 0x7F) shift)) in
        let shift := shift + 7 in
        if Z.land b 0x80 =? 0 then Done (Some (result, S i))
        else if 35 <=? shift then Done None
        else leb_u32 f data (S i) result shift
  end.

(** The value and the number of bytes consumed. *)
Definition read_leb128_u32 (data : list Z) (pos : nat) : outcome (option (Z * nat)) :=
  r ← leb_u32 5 data pos 0 0;
  Done (match r with Some (v, i) => Some (v, (i - pos)%nat) | None => None end).

(** The two signed decoders, at width [w] and with the give-up shift [limit]. *)
Fixpoint leb_signed (w limit : Z) (fuel : nat) (data : list Z) (i : nat) (result shift : Z)
  : outcome (option (Z * nat)) :=
  match fuel with
  | O => Panic
  | S f =>
      if (length data <=? i)%nat then Done None
      else
        b ← index data i;
        let result := Z.lor result (signed w (Z.shiftl (Z.land b 0x7F) shift)) in
        let shift := shift + 7 in
        if Z.land b 0x80 =? 0 then
          let result := if (shift <? w) && negb (Z.land b 0x40 =? 0)
                        then Z.lor result (signed w (- signed w (Z.shiftl 1 shift))) else result in
          Done (Some (result, S i))
        else if limit <=? shift then Done None
        else leb_signed w limit f data (S i) result shift
  end.

Definition read_leb128_i32 (data : list Z) (pos : nat) : outcome (option (Z * nat)) :=
  r ← leb_signed 32 35 5 data pos 0 0;
  Done (match r with Some (v, i) => Some (v, (i - pos)%nat) | None => None end).

Definition read_leb128_i64 (data : list Z) (pos : nat) : outcome (option (Z * nat)) :=
  r ← leb_signed 64 70 10 data pos 0 0;
  Done (match r with Some (v, i) => Some (v, (i - pos)%nat) | None => None end).

(** ** The parser *)

Record Parser := mk_parser { pdata : list Z; ppos : nat }.

Definition P (A : Type) : Type := Parser -> outcome (option (A * Parser)).
#[export] Instance P_ret : MRet P := fun A a p => Done (Some (a, p)).
#[export] Instance P_bind : MBind P := fun A B f m p =>
  match m p with
  | Done (Some (a, p')) => f a p'
  | Done None => Done None
  | Panic => Panic
  end.
Definition pfail {A} : P A := fun _ => Done None.
(** A parse of another slice. *)
Definition pnested {A} (o : outcome (option A)) : P A := fun p =>
  match o with
  | Done (Some a) => Done (Some (a, p))
  | Done None => Done None
  | Panic => Panic
  end.

Definition Parser_new (data : list Z) : Parser := mk_parser data 0.
Definition remaining (p : Parser) : nat := (length (pdata p) - ppos p)%nat.
Definition eof (p : Parser) : bool := (length (pdata p) <=? ppos p)%nat.

Definition byte : P Z := fun p =>
  if eof p then Done None
  else b ← index (pdata p) (ppos p); Done (Some (b, mk_parser (pdata p) (S (ppos p)))).

Definition bytes (n : nat) : P (list Z) := fun p =>
  if (length (pdata p) <? ppos p + n)%nat then Done None
  else s ← subslice (pdata p) (ppos p) (ppos p + n); Done (Some (s, mk_parser (pdata p) (ppos p + n))).

(** A decoder applied at the position. *)
Definition leb (read : list Z -> nat -> outcome (option (Z * nat))) : P Z := fun p =>
  r ← read (pdata p) (ppos p);
  Done (match r with Some (v, n) => Some (v, mk_parser (pdata p) (ppos p + n)%nat) | None => None end).

Definition u32_leb : P Z := leb read_leb128_u32.
Definition i32_leb : P Z := leb read_leb128_i32.
Definition i64_leb : P Z := leb read_leb128_i64.

Definition pname : P (list Z) :=
  len ← u32_leb; b ← bytes (Z.to_nat len); mret (from_utf8_lossy b).

Definition val_type : P ValType :=
  b ← byte; match from_byte b with Some t => mret t | None => pfail end.

(** [for _ in 0..n { v.push(item()?) }] *)
Fixpoint repeat_p {A} (n : nat) (item : P A) : P (list A) :=
  match n with
  | O => mret []
  | S n' => a ← item; l ← repeat_p n' item; mret (a :: l)
  end.
Definition pvec {A} (item : P A) : P (list A) := n ← u32_leb; repeat_p (Z.to_nat n) item.

Definition vec_val_types : P (list ValType) := pvec val_type.

Definition const_expr : P Z :=
  op ← byte;
  val ← (if op =? 0x41 then v ← i32_leb; mret (as_u64 v)
         else if op =? 0x42 then v ← i64_leb; mret (as_u64 v)
         else if op =? 0x43 then _ ← bytes 4; mret 0
         else if op =? 0x44 then _ ← bytes 8; mret 0
         else pfail);
  end_ ← byte;
  if negb (end_ =? 0x0B) then pfail else mret val.

Definition limits : P (Z * option Z) :=
  flag ← byte;
  min ← u32_leb;
  if flag =? 1 then max ← u32_leb; mret (min, Some max) else mret (min, None).

(** ** Sections *)

Definition func_type_p : P FuncType :=
  tag ← byte;
  if negb (tag =? 0x60) then pfail
  else params ← vec_val_types; results ← vec_val_types; mret (mk_functype params results).

Definition import_p : P Import :=
  module ← pname;
  name ← pname;
  kind_b ← byte;
  kind ← (if kind_b =? 0x00 then ti ← u32_leb; mret (IFunc ti)
          else if kind_b =? 0x01 then _ ← byte; _ ← limits; mret ITable
          else if kind_b =? 0x02 then '(min, max) ← limits; mret (IMemory min max)
          else if kind_b =? 0x03 then _ ← val_type; _ ← byte; mret IGlobal
          else pfail);
  mret (mk_import module name kind).

Definition global_p : P GlobalDef :=
  vt ← val_type; mut ← byte; init ← const_expr; mret (mk_global vt (negb (mut =? 0)) init).

Definition export_p : P Export :=
  name ← pname;
  kind_b ← byte;
  kind ← (if kind_b =? 0 then mret EFunc
          else if kind_b =? 1 then mret ETable
          else if kind_b =? 2 then mret EMemory
          else if kind_b =? 3 then mret EGlobal
          else pfail);
  idx ← u32_leb;
  mret (mk_export name kind idx).

Definition elem_p : P ElemSegment :=
  table_idx ← u32_leb;
  offset ← const_expr;
  idxs ← pvec u32_leb;
  mret (mk_elem table_idx (as_u32 offset) idxs).

(** [parse_func_body]: the local groups, then the rest is code. *)
Definition parse_func_body (p : Parser) : outcome (option FuncBody) :=
  r ← pvec (count ← u32_leb; vt ← val_type; mret (count, vt)) p;
  match r with
  | None => Done None
  | Some (locals, p') =>
      code ← subslice (pdata p') (ppos p') (length (pdata p'));
      Done (Some (mk_body locals code))
  end.

Definition code_p : P FuncBody :=
  body_sz ← u32_leb;
  body ← bytes (Z.to_nat body_sz);
  pnested (parse_func_body (Parser_new body)).

Definition data_p : P DataSegment :=
  mem_idx ← u32_leb;
  offset ← const_expr;
  len ← u32_leb;
  raw ← bytes (Z.to_nat len);
  mret (mk_data mem_idx (as_u32 offset) raw).

(** The arm of the [match section_id]: the module after the section. *)
Definition section (id : Z) (m : WasmModule) : P WasmModule :=
  if id =? 1 then l ← pvec func_type_p; mret (set_types (types m ++ l) m)
  else if id =? 2 then l ← pvec import_p; mret (set_imports (imports m ++ l) m)
  else if id =? 3 then l ← pvec u32_leb; mret (set_func_types (func_types m ++ l) m)
  else if id =? 4 then
    l ← pvec (_ ← byte; '(min, _) ← limits; mret min);
    mret (set_table_size (foldl Z.max (table_size m) l) m)
  else if id =? 5 then
    l ← pvec limits;
    mret (match l with (min, max) :: _ => set_mem min max m | [] => m end)
  else if id =? 6 then l ← pvec global_p; mret (set_globals (globals m ++ l) m)
  else if id =? 7 then l ← pvec export_p; mret (set_exports (exports m ++ l) m)
  else if id =? 8 then s ← u32_leb; mret (set_start (Some s) m)
  else if id =? 9 then l ← pvec elem_p; mret (set_elem (elem m ++ l) m)
  else if id =? 10 then l ← pvec code_p; mret (set_code (code m ++ l) m)
  else if id =? 11 then l ← pvec data_p; mret (set_mdata (mdata m ++ l) m)
  else mret m.

(** The [while !p.eof()] loop; every round consumes at least two bytes. *)
Fixpoint load_sections (fuel : nat) (m : WasmModule) (p : Parser) : outcome (result WasmModule WasmError) :=
  if eof p then Done (Ok m)
  else match fuel with
  | O => Panic
  | S f =>
      h ← (id ← byte; len ← u32_leb; mret (id, len)) p;
      match h with
      | None => Done (Err InvalidSection)
      | Some ((section_id, len), p) =>
          let section_len := Z.to_nat len in
          if (remaining p <? section_len)%nat then Done (Err InvalidSection)
          else
            sec_data ← subslice (pdata p) (ppos p) (ppos p + section_len);
            let p := mk_parser (pdata p) (ppos p + section_len) in
            r ← section section_id m (Parser_new sec_data);
            match r with
            | None => Done (Err InvalidSection)
            | Some (m, _) => load_sections f m p
            end
      end
  end.

Definition WASM_MAGIC : list Z := [0; 97; 115; 109].

Definition empty_module : WasmModule :=
  mk_module [] [] [] 0 1 None [] [] None [] [] [] WASM_DEFAULT_CAPS.

Definition load (b : list Z) : outcome (result WasmModule WasmError) :=
  if (length b <? 8)%nat then Done (Err InvalidMagic)
  else
    magic ← subslice b 0 4;
    if negb (bool_decide (magic = WASM_MAGIC)) then Done (Err InvalidMagic)
    else
      v ← subslice b 4 8;
      if negb (le_bytes v =? 1) then Done (Err InvalidMagic)
      else
        rest ← subslice b 8 (length b);
        load_sections (length b) empty_module (Parser_new rest).

(** ** [validate] *)

Fixpoint validate_sections (fuel : nat) (data : list Z) (pos : nat) : outcome (result unit string) :=
  if (length data <=? pos)%nat then Done (Ok tt)
  else match fuel with
  | O => Panic
  | S f =>
      section_id ← index data pos;
      if 12 <? section_id then Done (Err "section ID out of valid range (0-12)"%string)
      else
        r ← read_leb128_u32 data (S pos);
        match r with
        | None => Done (Err "malformed section length"%string)
        | Some (len, n) =>
            let pos := (S pos + n)%nat in
            let section_len := Z.to_nat len in
            if (length data <? pos + section_len)%nat then Done (Err "section extends past end of module"%string)
            else validate_sections f data (pos + section_len)
        end
  end.

Definition validate (b : list Z) : outcome (result unit string) :=
  if (length b <? 8)%nat then Done (Err "too short to be a valid WASM module"%string)
  else
    magic ← subslice b 0 4;
    if negb (bool_decide (magic = WASM_MAGIC)) then Done (Err "invalid WASM magic bytes"%string)
    else
      v ← subslice b 4 8;
      if negb (le_bytes v =? 1) then Done (Err "unsupported WASM version (expected 1)"%string)
      else validate_sections (length b) b 8.
