(* ===== verification/WasmParseProofs.v ===== *)
(** * Properties of the WASM loader

    LEB128 decoding inverts encoding; the readers and the parser combinators never
    index outside their input and only move forward. *)

From stdpp Require Import base numbers list gmap strings.
From Stdlib Require Import ZArith Lia.
From S2P Require Import Prelude Machine PageAlloc Syscall WasmParse.

(** ** LEB128 *)

(** The reference encoders. *)
Fixpoint uleb_encode (n : nat) (v : Z) : list Z :=
  match n with
  | O => []
  | S n' => if v <? 128 then [v] else (v mod 128 + 128) :: uleb_encode n' (v / 128)
  end.

Fixpoint sleb_encode (n : nat) (v : Z) : list Z :=
  match n with
  | O => []
  | S n' => if (-64 <=? v) && (v <? 64) then [v mod 128] else (v mod 128 + 128) :: sleb_encode n' (v / 128)
  end.

(** [l] sits in [data] at position [i]. *)
Definition at_pos (data : list Z) (i : nat) (l : list Z) : Prop := exists pre post, data = pre ++ l ++ post /\ length pre = i.

Lemma at_pos_head data i b l : at_pos data i (b :: l) ->
  data !! i = Some b /\ (i < length data)%nat /\ at_pos data (S i) l.
Proof.
  intros (pre & post & -> & <-). split; [|split].
  - by rewrite lookup_app_r, Nat.sub_diag by lia.
  - rewrite length_app. simpl. lia.
  - exists (pre ++ [b]), post. split; [by rewrite <- app_assoc|]. rewrite length_app. simpl. lia.
Qed.

Lemma at_pos_index data i b l : at_pos data i (b :: l) ->
  (length data <=? i)%nat = false /\ index data i = Done b.
Proof.
  intros (H1 & H2 & _)%at_pos_head. split; [by apply Nat.leb_gt|]. unfold index. by rewrite H1.
Qed.

(** The two fields of a byte. *)
Lemma byte_last b : 0 <= b < 128 -> Z.land b 0x7F = b /\ Z.land b 0x80 = 0.
Proof.
  intros Hb. split; [change 0x7F with (2 ^ 7 - 1); rewrite land_ones_mod by lia; by apply Z.mod_small|].
  apply Z.eqb_eq. change 0x80 with (2 ^ 7). rewrite land_bit_eqb by lia. by rewrite (testbit_high 7).
Qed.

Lemma byte_more g : 0 <= g < 128 -> Z.land (g + 128) 0x7F = g /\ (Z.land (g + 128) 0x80 =? 0) = false.
Proof.
  intros Hg. replace (g + 128) with (g + 1 * 2 ^ 7) by lia. split.
  - change 0x7F with (2 ^ 7 - 1). rewrite land_ones_mod, Z.mod_add by lia. by apply Z.mod_small.
  - change 0x80 with (2 ^ 7). rewrite land_bit_eqb by lia. apply negb_false_iff.
    rewrite <- lor_high by lia. rewrite Z.lor_spec, Z.mul_pow2_bits by lia. apply orb_true_r.
Qed.

Lemma leb_u32_ok fuel k data i result v :
  (fuel + k = 5)%nat -> (k <= 4)%nat -> 0 <= v -> 0 <= result < 2 ^ (7 * Z.of_nat k) ->
  result + v * 2 ^ (7 * Z.of_nat k) < 2 ^ 32 -> at_pos data i (uleb_encode fuel v) ->
  leb_u32 fuel data i result (7 * Z.of_nat k) =
  Done (Some (result + v * 2 ^ (7 * Z.of_nat k), (i + length (uleb_encode fuel v))%nat)).
Proof.
  revert k i result v. induction fuel as [|f IH]; intros k i result v Hk Hk4 Hv Hr Hb Hat; [lia|].
  set (s := 7 * Z.of_nat k) in *. assert (Hp : 0 < 2 ^ s) by (apply Z.pow_pos_nonneg; lia).
  cbn [uleb_encode leb_u32] in *. pose proof (Z.mod_pos_bound v 128 ltac:(lia)) as Hg.
  destruct (Z.ltb_spec v 128).
  - destruct (at_pos_index data i v [] Hat) as [-> ->]. cbn [mbind outcome_bind].
    destruct (byte_last v) as [-> ->]; [lia|]. rewrite Z.shiftl_mul_pow2 by lia.
    rewrite as_u32_small by (unfold is_u32; nia). rewrite lor_high by lia. cbn [Z.eqb length].
    do 4 f_equal. lia.
  - destruct (at_pos_index data i _ _ Hat) as [-> ->]. cbn [mbind outcome_bind].
    destruct (byte_more (v mod 128)) as [-> ->]; [lia|]. rewrite Z.shiftl_mul_pow2 by lia.
    rewrite as_u32_small by (unfold is_u32; nia). rewrite lor_high by lia.
    assert (Hk3 : (k < 4)%nat).
    { destruct (Nat.lt_ge_cases k 4) as [|Hge]; [done|exfalso].
      assert (2 ^ 28 <= 2 ^ s) by (apply Z.pow_le_mono_r; unfold s; lia). nia. }
    rewrite (proj2 (Z.leb_gt 35 (s + 7))) by (unfold s; lia).
    assert (Es : s + 7 = 7 * Z.of_nat (S k)) by (unfold s; lia).
    assert (Ep : 2 ^ (s + 7) = 128 * 2 ^ s) by (rewrite Z.pow_add_r by lia; lia).
    pose proof (Z.div_mod v 128 ltac:(lia)) as Hd.
    rewrite Es, (IH (S k) (S i) (result + v mod 128 * 2 ^ s) (v / 128)); rewrite <- ?Es, ?Ep; try lia.
    + cbn [length]. do 3 f_equal; [nia|lia].
    + nia.
    + by apply at_pos_head in Hat as (_ & _ & ?).
Qed.

Lemma read_u32_ok data pos v : is_u32 v -> at_pos data pos (uleb_encode 5 v) ->
  read_leb128_u32 data pos = Done (Some (v, length (uleb_encode 5 v))).
Proof.
  intros Hv Hat. unfold read_leb128_u32, is_u32 in *.
  pose proof (leb_u32_ok 5 0 data pos 0 v) as E. change (7 * Z.of_nat 0) with 0 in E.
  rewrite E by (done || lia). cbn [mbind outcome_bind]. do 3 f_equal; lia.
Qed.

(** Widths and give-up shifts of the two signed decoders. *)
Definition sleb_width (w limit : Z) (rounds : nat) : Prop :=
  (w = 32 /\ limit = 35 /\ rounds = 5%nat) \/ (w = 64 /\ limit = 70 /\ rounds = 10%nat).

Lemma signed_small w z : 1 <= w -> - 2 ^ (w - 1) <= z < 2 ^ (w - 1) -> signed w z = z.
Proof.
  intros Hw Hz. assert (E : 2 ^ w = 2 * 2 ^ (w - 1)) by (rewrite <- Z.pow_succ_r by lia; f_equal; lia).
  unfold signed, wrap. destruct (Z.lt_ge_cases z 0).
  - replace (z mod 2 ^ w) with (z + 2 ^ w).
    + case_ifs; lia.
    + symmetry. rewrite <- (Z.mod_add z 1), Z.mul_1_l by lia. apply Z.mod_small. lia.
  - rewrite Z.mod_small by lia. case_ifs; lia.
Qed.

Lemma signed_wrap w a b : 0 <= w -> a mod 2 ^ w = b mod 2 ^ w -> signed w a = signed w b.
Proof. intros Hw E. unfold signed, wrap. by rewrite E. Qed.

(** Bit 6 of a final group is the sign. *)
Lemma sign_bit v : -64 <= v < 64 -> (Z.land (v mod 128) 0x40 =? 0) = (0 <=? v).
Proof.
  intros Hv. change 0x40 with (2 ^ 6). rewrite land_bit_eqb by lia.
  destruct (Z.leb_spec 0 v).
  - rewrite Z.mod_small by lia. by rewrite (testbit_high 6) by lia.
  - replace (v mod 128) with ((v + 64) + 1 * 2 ^ 6).
    + rewrite <- lor_high by lia. rewrite Z.lor_spec, Z.mul_pow2_bits by lia. by rewrite orb_true_r.
    + replace v with (v + 128 + (-1) * 128) at 2 by lia. rewrite Z.mod_add by lia. rewrite Z.mod_small; lia.
Qed.

(** The last group, with its sign extension. *)
Lemma leb_last w s result v : w = 32 \/ w = 64 -> 0 <= s -> s mod 7 = 0 -> s < w ->
  -64 <= v < 64 -> 0 <= result < 2 ^ s -> - 2 ^ (w - 1) <= result + v * 2 ^ s < 2 ^ (w - 1) ->
  let r := Z.lor result (signed w (Z.shiftl (v mod 128) s)) in
  (if (s + 7 <? w) && negb (Z.land (v mod 128) 0x40 =? 0)
   then Z.lor r (signed w (- signed w (Z.shiftl 1 (s + 7)))) else r) = result + v * 2 ^ s.
Proof.
  intros Hw Hs0 Hs7 Hsw Hv Hr Hb r. unfold r. rewrite sign_bit by done. rewrite !Z.shiftl_mul_pow2 by lia.
  assert (Hp : 0 < 2 ^ s) by (apply Z.pow_pos_nonneg; lia).
  assert (Ep : 2 ^ (s + 7) = 128 * 2 ^ s) by (rewrite Z.pow_add_r by lia; lia).
  assert (Ew : 2 ^ w = 2 * 2 ^ (w - 1)) by (rewrite <- Z.pow_succ_r by lia; f_equal; lia).
  destruct (Z.leb_spec 0 v); cbn [negb]; rewrite ?andb_false_r, ?andb_true_r.
  - rewrite Z.mod_small, signed_small by nia. by apply lor_high.
  - assert (Em : v mod 128 = v + 128).
    { replace v with (v + 128 + (-1) * 128) at 1 by lia. rewrite Z.mod_add by lia. rewrite Z.mod_small; lia. }
    rewrite Em. destruct (Z.ltb_spec (s + 7) w) as [Hlt|Hge].
    + assert (Hle : 2 ^ (s + 7) <= 2 ^ (w - 1)) by (apply Z.pow_le_mono_r; lia).
      rewrite (signed_small w ((v + 128) * 2 ^ s)) by nia. rewrite lor_high by lia.
      assert (E : signed w (- signed w (1 * 2 ^ (s + 7))) = (-1) * 2 ^ (s + 7)).
      { destruct (Z.eq_dec (2 ^ (s + 7)) (2 ^ (w - 1))) as [E|Hne].
        - rewrite Z.mul_1_l, E. assert (Es : signed w (2 ^ (w - 1)) = - 2 ^ (w - 1)).
          { rewrite <- (signed_small w (- 2 ^ (w - 1))) by lia. apply signed_wrap; [lia|].
            rewrite <- (Z.mod_add (- 2 ^ (w - 1)) 1) by lia. f_equal. lia. }
          rewrite Es, Z.opp_involutive, Es. lia.
        - rewrite (signed_small w (1 * _)) by lia. rewrite signed_small by lia. lia. }
      rewrite E, lor_high by nia. nia.
    + rewrite (signed_wrap w ((v + 128) * 2 ^ s) (v * 2 ^ s)); [|lia|].
      2: { assert (Ed : 128 * 2 ^ s = 2 ^ (s + 7 - w) * 2 ^ w) by (rewrite <- Z.pow_add_r by lia; rewrite <- Ep; f_equal; lia).
           rewrite Z.mul_add_distr_r, Ed, Z.mod_add by lia. done. }
      assert (Eq : 2 ^ (w - 1) = 2 ^ (w - 1 - s) * 2 ^ s) by (rewrite <- Z.pow_add_r by lia; f_equal; lia).
      assert (- 2 ^ (w - 1 - s) <= v) by nia. rewrite signed_small by nia. by apply lor_high.
Qed.

(** A group that is not the last leaves room for another one. *)
Lemma leb_room w limit rounds k result v :
  sleb_width w limit rounds -> (k < rounds)%nat ->
  let s := 7 * Z.of_nat k in
  0 <= result < 2 ^ s -> - 2 ^ (w - 1) <= result + v * 2 ^ s < 2 ^ (w - 1) -> ~ -64 <= v < 64 ->
  s + 7 <= w - 1 /\ s + 7 < limit /\ (S k < rounds)%nat.
Proof.
  intros Hw Hk s Hr Hb Hv. assert (Hp : 0 < 2 ^ s) by (apply Z.pow_pos_nonneg; lia).
  assert (Hlt : s + 7 < w).
  { destruct (Z.lt_ge_cases (s + 7) w) as [|Hge]; [done|exfalso].
    assert (Hle : 2 ^ (w - 1) <= 2 ^ (s + 6)) by (apply Z.pow_le_mono_r; lia).
    rewrite Z.pow_add_r in Hle by lia. change (2 ^ 6) with 64 in Hle. nia. }
  unfold s in *. destruct Hw as [(? & ? & ?)|(? & ? & ?)]; lia.
Qed.

Lemma leb_signed_ok w limit rounds fuel k data i result v :
  sleb_width w limit rounds -> (fuel + k = rounds)%nat -> (1 <= fuel)%nat ->
  let s := 7 * Z.of_nat k in
  0 <= result < 2 ^ s -> - 2 ^ (w - 1) <= result + v * 2 ^ s < 2 ^ (w - 1) ->
  at_pos data i (sleb_encode fuel v) ->
  leb_signed w limit fuel data i result s =
  Done (Some (result + v * 2 ^ s, (i + length (sleb_encode fuel v))%nat)).
Proof.
  intros Hw. revert k i result v. induction fuel as [|f IH]; intros k i result v Hk Hf s Hr Hb Hat; [lia|].
  assert (Hw' : w = 32 \/ w = 64) by (destruct Hw as [(? & _)|(? & _)]; auto).
  assert (Hsw : s < w) by (unfold s; destruct Hw as [(? & ? & ?)|(? & ? & ?)]; lia).
  assert (Hs7 : s mod 7 = 0) by (unfold s; rewrite Z.mul_comm; by apply Z.mod_mul).
  assert (Hp : 0 < 2 ^ s) by (apply Z.pow_pos_nonneg; lia).
  cbn [sleb_encode leb_signed] in *. pose proof (Z.mod_pos_bound v 128 ltac:(lia)) as Hg.
  destruct ((-64 <=? v) && (v <? 64)) eqn:Ev.
  { destruct (at_pos_index data i _ [] Hat) as [-> ->]. cbn [mbind outcome_bind].
    destruct (byte_last (v mod 128)) as [E1 ->]; [lia|]. cbn [Z.eqb length]. rewrite E1.
    rewrite leb_last by (done || lia). do 3 f_equal. lia. }
  destruct (at_pos_index data i _ _ Hat) as [-> ->]. cbn [mbind outcome_bind].
  destruct (byte_more (v mod 128)) as [-> ->]; [lia|]. rewrite Z.shiftl_mul_pow2 by lia.
  destruct (leb_room w limit rounds k result v Hw) as (Hr1 & Hr2 & Hr3); [lia|done|done|lia|]. fold s in Hr1, Hr2.
  assert (Ep : 2 ^ (s + 7) = 128 * 2 ^ s) by (rewrite Z.pow_add_r by lia; lia).
  assert (Hle : 2 ^ (s + 7) <= 2 ^ (w - 1)) by (apply Z.pow_le_mono_r; lia).
  rewrite signed_small by nia. rewrite lor_high by lia.
  rewrite (proj2 (Z.leb_gt limit (s + 7))) by lia.
  assert (Es : s + 7 = 7 * Z.of_nat (S k)) by (unfold s; lia).
  pose proof (Z.div_mod v 128 ltac:(lia)) as Hd.
  rewrite Es, (IH (S k) (S i) (result + v mod 128 * 2 ^ s) (v / 128)); rewrite <- ?Es, ?Ep; try lia.
  - cbn [length]. do 3 f_equal; [nia|lia].
  - nia.
  - by apply at_pos_head in Hat as (_ & _ & ?).
Qed.

Lemma read_i32_ok data pos v : - 2 ^ 31 <= v < 2 ^ 31 -> at_pos data pos (sleb_encode 5 v) ->
  read_leb128_i32 data pos = Done (Some (v, length (sleb_encode 5 v))).
Proof.
  intros Hv Hat. unfold read_leb128_i32.
  pose proof (leb_signed_ok 32 35 5 5 0 data pos 0 v) as E. change (7 * Z.of_nat 0) with 0 in E.
  rewrite E by (done || lia || (left; done)). cbn [mbind outcome_bind]. do 3 f_equal; lia.
Qed.

Lemma read_i64_ok data pos v : - 2 ^ 63 <= v < 2 ^ 63 -> at_pos data pos (sleb_encode 10 v) ->
  read_leb128_i64 data pos = Done (Some (v, length (sleb_encode 10 v))).
Proof.
  intros Hv Hat. unfold read_leb128_i64.
  pose proof (leb_signed_ok 64 70 10 10 0 data pos 0 v) as E. change (7 * Z.of_nat 0) with 0 in E.
  rewrite E by (done || lia || (right; done)). cbn [mbind outcome_bind]. do 3 f_equal; lia.
Qed.

(** ** The parser is total *)

(** Any decoder result lies inside the data. *)
Definition in_data (data : list Z) (i : nat) (r : option (Z * nat)) : Prop :=
  match r with Some (_, j) => (i < j <= length data)%nat | None => True end.

Lemma index_ok data i : (i < length data)%nat -> exists b, index data i = Done b.
Proof. intros [b Hb]%lookup_lt_is_Some. exists b. unfold index. by rewrite Hb. Qed.

Lemma leb_u32_total fuel k data i result :
  (fuel + k = 5)%nat -> (1 <= fuel)%nat ->
  exists r, leb_u32 fuel data i result (7 * Z.of_nat k) = Done r /\ in_data data i r.
Proof.
  revert k i result. induction fuel as [|f IH]; intros k i result Hk Hf; [lia|]. cbn [leb_u32].
  destruct (Nat.leb_spec (length data) i); [by exists None|].
  destruct (index_ok data i) as [b ->]; [lia|]. cbn [mbind outcome_bind].
  destruct (_ =? 0); [eexists; split; [done|]; simpl; lia|].
  destruct (Z.leb_spec 35 (7 * Z.of_nat k + 7)); [by exists None|].
  replace (7 * Z.of_nat k + 7) with (7 * Z.of_nat (S k)) in * by lia.
  destruct (IH (S k) (S i) (Z.lor result (as_u32 (Z.shiftl (Z.land b 127) (7 * Z.of_nat k))))) as (r & -> & Hr); [lia..|].
  exists r. split; [done|]. destruct r as [[v j]|]; simpl in *; lia.
Qed.

Lemma leb_signed_total w limit rounds fuel k data i result :
  sleb_width w limit rounds -> (fuel + k = rounds)%nat -> (1 <= fuel)%nat ->
  exists r, leb_signed w limit fuel data i result (7 * Z.of_nat k) = Done r /\ in_data data i r.
Proof.
  intros Hw. revert k i result. induction fuel as [|f IH]; intros k i result Hk Hf; [lia|]. cbn [leb_signed].
  destruct (Nat.leb_spec (length data) i); [by exists None|].
  destruct (index_ok data i) as [b ->]; [lia|]. cbn [mbind outcome_bind].
  destruct (Z.land b 128 =? 0); [eexists; split; [done|]; simpl; lia|].
  destruct (Z.leb_spec limit (7 * Z.of_nat k + 7)); [by exists None|].
  replace (7 * Z.of_nat k + 7) with (7 * Z.of_nat (S k)) in * by lia.
  destruct (IH (S k) (S i) (Z.lor result (signed w (Z.shiftl (Z.land b 127) (7 * Z.of_nat k))))) as (r & -> & Hr); [lia| |].
  { destruct Hw as [(? & ? & ?)|(? & ? & ?)]; lia. }
  exists r. split; [done|]. destruct r as [[v j]|]; simpl in *; lia.
Qed.

(** The decoders consume at least one byte and stay inside the data. *)
Definition reads (read : list Z -> nat -> outcome (option (Z * nat))) : Prop :=
  forall data pos, exists r, read data pos = Done r /\
    match r with Some (_, n) => (1 <= n /\ pos + n <= length data)%nat | None => True end.

Lemma reads_u32 : reads read_leb128_u32.
Proof.
  intros data pos. unfold read_leb128_u32.
  destruct (leb_u32_total 5 0 data pos 0) as (r & E & Hr); [lia..|]. change (7 * Z.of_nat 0) with 0 in E.
  rewrite E. eexists. split; [reflexivity|]. destruct r as [[v j]|]; simpl in *; lia.
Qed.

Lemma reads_i32 : reads read_leb128_i32.
Proof.
  intros data pos. unfold read_leb128_i32.
  destruct (leb_signed_total 32 35 5 5 0 data pos 0) as (r & E & Hr); [by left|lia..|].
  change (7 * Z.of_nat 0) with 0 in E.
  rewrite E. eexists. split; [reflexivity|]. destruct r as [[v j]|]; simpl in *; lia.
Qed.

Lemma reads_i64 : reads read_leb128_i64.
Proof.
  intros data pos. unfold read_leb128_i64.
  destruct (leb_signed_total 64 70 10 10 0 data pos 0) as (r & E & Hr); [by right|lia..|].
  change (7 * Z.of_nat 0) with 0 in E.
  rewrite E. eexists. split; [reflexivity|]. destruct r as [[v j]|]; simpl in *; lia.
Qed.

(** A parser is safe: from a position inside the data it never panics, keeps the
    data and moves at least [n] bytes forward, inside the data. *)
Definition psafe {A} (n : nat) (m : P A) : Prop :=
  forall p, (ppos p <= length (pdata p))%nat -> exists r, m p = Done r /\
    match r with
    | Some (_, p') => pdata p' = pdata p /\ (ppos p + n <= ppos p' <= length (pdata p))%nat
    | None => True
    end.

Create HintDb psafe discriminated.
#[export] Hint Constants Opaque : psafe.

Lemma psafe_ret {A} (a : A) : psafe 0 (mret a).
Proof. intros p Hp. eexists. split; [reflexivity|]. split; [done|simpl; lia]. Qed.

Lemma psafe_fail {A} n : psafe n (pfail : P A).
Proof. intros p Hp. by exists None. Qed.

Lemma psafe_bind {A B} n n' (m : P A) (f : A -> P B) :
  psafe n m -> (forall a, psafe n' (f a)) -> psafe (n + n') (m ≫= f).
Proof.
  intros Hm Hf p Hp. unfold mbind, P_bind. destruct (Hm p Hp) as ([[a p1]|] & -> & H1); [|by exists None].
  destruct H1 as [E H1]. destruct (Hf a p1) as (r & -> & H2); [rewrite E; lia|].
  exists r. split; [done|]. destruct r as [[b p2]|]; [|done]. rewrite E in H2. destruct H2 as [-> H2]. split; [done|lia].
Qed.

Lemma psafe_weaken {A} n n' (m : P A) : (n <= n')%nat -> psafe n' m -> psafe n m.
Proof.
  intros Hn Hm p Hp. destruct (Hm p Hp) as (r & -> & Hr). exists r. split; [done|].
  destruct r as [[a p']|]; [|done]. split; [apply Hr|lia].
Qed.

Lemma psafe_byte : psafe 1 byte.
Proof.
  intros p Hp. unfold byte, eof. destruct (Nat.leb_spec (length (pdata p)) (ppos p)); [by exists None|].
  destruct (index_ok (pdata p) (ppos p)) as [b ->]; [lia|]. eexists. split; [reflexivity|]. split; [done|simpl; lia].
Qed.

Lemma subslice_ok l a b : (a <= b)%nat -> (b <= length l)%nat -> subslice l a b = Done (take (b - a) (drop a l)).
Proof. intros Ha Hb. unfold subslice. by rewrite (proj2 (Nat.leb_le _ _)), (proj2 (Nat.leb_le _ _)) by lia. Qed.

Lemma psafe_bytes n : psafe 0 (bytes n).
Proof.
  intros p Hp. unfold bytes. destruct (Nat.ltb_spec (length (pdata p)) (ppos p + n)); [by exists None|].
  rewrite subslice_ok by lia. eexists. split; [reflexivity|]. split; [done|simpl; lia].
Qed.

Lemma psafe_leb read : reads read -> psafe 1 (leb read).
Proof.
  intros Hr p Hp. unfold leb. destruct (Hr (pdata p) (ppos p)) as (r & -> & H). cbn [mbind outcome_bind].
  eexists. split; [reflexivity|]. destruct r as [[v n]|]; simpl; [|done]. split; [done|lia].
Qed.

Lemma psafe_u32_leb : psafe 1 u32_leb.
Proof. apply psafe_leb, reads_u32. Qed.

Lemma psafe_i32_leb : psafe 1 i32_leb.
Proof. apply psafe_leb, reads_i32. Qed.

Lemma psafe_i64_leb : psafe 1 i64_leb.
Proof. apply psafe_leb, reads_i64. Qed.

#[export] Hint Resolve psafe_byte psafe_bytes psafe_u32_leb psafe_i32_leb psafe_i64_leb : psafe.

(** Safety of a compound parser, down to the primitives. *)
Ltac psafe_step :=
  match goal with
  | |- psafe _ (mret _) => apply psafe_ret
  | |- psafe _ pfail => apply psafe_fail
  | |- psafe 0 (_ ≫= _) => apply (psafe_bind 0 0); [|intros]
  | |- psafe 0 (match ?x with _ => _ end) => destruct x
  | |- psafe 0 _ => solve [eapply psafe_weaken; [|solve [eauto 3 with psafe nocore]]; lia]
  end.
Ltac psafe_solve := repeat psafe_step.

Lemma psafe_repeat {A} n (item : P A) : psafe 0 item -> psafe 0 (repeat_p n item).
Proof. intros Hi. induction n as [|n IH]; cbn [repeat_p]; psafe_solve; done. Qed.

Lemma psafe_vec {A} (item : P A) : psafe 0 item -> psafe 0 (pvec item).
Proof. intros Hi. unfold pvec. psafe_solve. by apply psafe_repeat. Qed.
