(* ===== verification/WasmLoad.v ===== *)
(** * Loading a WASM binary

    [load] returns for every input, and inverts a reference encoder of modules. *)

From stdpp Require Import base numbers list gmap strings.
From Stdlib Require Import ZArith Lia.
From S2P Require Import Prelude Machine PageAlloc Syscall WasmParse WasmParseProofs.

(** ** Totality *)

Lemma psafe_limits : psafe 0 limits.
Proof. unfold limits. psafe_solve. Qed.

Lemma psafe_const : psafe 0 const_expr.
Proof. unfold const_expr. psafe_solve. Qed.

Lemma psafe_name : psafe 0 pname.
Proof. unfold pname. psafe_solve. Qed.

Lemma psafe_val_type : psafe 0 val_type.
Proof. unfold val_type. psafe_solve. Qed.

#[export] Hint Resolve psafe_limits psafe_const psafe_name psafe_val_type : psafe.

Lemma psafe_func_type : psafe 0 func_type_p.
Proof. unfold func_type_p, vec_val_types. psafe_solve; apply psafe_vec; eauto with psafe. Qed.

Lemma psafe_import : psafe 0 import_p.
Proof. unfold import_p. psafe_solve. Qed.

Lemma psafe_global : psafe 0 global_p.
Proof. unfold global_p. psafe_solve. Qed.

Lemma psafe_export : psafe 0 export_p.
Proof. unfold export_p. psafe_solve. Qed.

Lemma psafe_u32 : psafe 0 u32_leb.
Proof. psafe_solve. Qed.

#[export] Hint Resolve psafe_func_type psafe_import psafe_global psafe_export psafe_u32 : psafe.

Lemma psafe_elem : psafe 0 elem_p.
Proof. unfold elem_p. psafe_solve. apply psafe_vec. eauto with psafe. Qed.

Lemma psafe_data : psafe 0 data_p.
Proof. unfold data_p. psafe_solve. Qed.

Lemma parse_func_body_total b : exists r, parse_func_body (Parser_new b) = Done r.
Proof.
  unfold parse_func_body.
  destruct (psafe_vec (count ← u32_leb; vt ← val_type; mret (count, vt))) with (p := Parser_new b)
    as (r & -> & Hr); [psafe_solve|simpl; lia|].
  cbn [mbind outcome_bind]. destruct r as [[l p]|]; [|by eexists].
  destruct Hr as [E Hr]. rewrite E. rewrite subslice_ok by (simpl in *; lia). by eexists.
Qed.

Lemma psafe_code : psafe 0 code_p.
Proof.
  unfold code_p. psafe_solve. intros p Hp. unfold pnested.
  destruct (parse_func_body_total a0) as [[b|] ->]; eexists; (split; [reflexivity|]); [|done]. split; [done|lia].
Qed.

#[export] Hint Resolve psafe_elem psafe_data psafe_code : psafe.

Lemma psafe_section id m : psafe 0 (section id m).
Proof. unfold section. psafe_solve; apply psafe_vec; psafe_solve. Qed.

(** Every round of the section loop consumes at least two bytes. *)
Lemma load_sections_total fuel m p : (ppos p <= length (pdata p))%nat -> (remaining p <= fuel)%nat ->
  exists r, load_sections fuel m p = Done r.
Proof.
  revert m p. induction fuel as [|f IH]; intros m p Hp Hf; unfold remaining in *; cbn [load_sections]; unfold eof.
  all: destruct (Nat.leb_spec (length (pdata p)) (ppos p)); [by eexists|].
  { lia. }
  assert (Hh : psafe 2 (id ← byte; len ← u32_leb; mret (id, len))).
  { apply (psafe_bind 1 1); [apply psafe_byte|]. intros id.
    apply (psafe_bind 1 0); [apply psafe_u32_leb|]. intros. apply psafe_ret. }
  destruct (Hh p Hp) as (r & -> & Hr). cbn [mbind outcome_bind].
  destruct r as [[[id len] p1]|]; [|by eexists]. destruct Hr as [E Hr]. unfold remaining. rewrite E.
  destruct (Nat.ltb_spec (length (pdata p) - ppos p1) (Z.to_nat len)); [by eexists|].
  rewrite subslice_ok by lia. cbn [mbind outcome_bind].
  destruct (psafe_section id m (Parser_new (take (ppos p1 + Z.to_nat len - ppos p1) (drop (ppos p1) (pdata p)))))
    as (r & -> & _); [simpl; lia|]. cbn [mbind outcome_bind].
  destruct r as [[m' p']|]; [|by eexists]. apply IH; cbn [pdata ppos]; lia.
Qed.

Lemma load_total b : exists r, load b = Done r.
Proof.
  unfold load. destruct (Nat.ltb_spec (length b) 8); [by eexists|].
  rewrite (subslice_ok b 0 4) by lia. cbn [mbind outcome_bind]. destruct (negb _); [by eexists|].
  rewrite (subslice_ok b 4 8) by lia. cbn [mbind outcome_bind]. destruct (negb _); [by eexists|].
  rewrite (subslice_ok b 8) by lia. cbn [mbind outcome_bind].
  apply load_sections_total; unfold remaining; cbn [pdata ppos Parser_new]; [lia|].
  rewrite length_take, length_drop. lia.
Qed.

Lemma validate_sections_total fuel data pos : (length data - pos <= fuel)%nat ->
  exists r, validate_sections fuel data pos = Done r.
Proof.
  revert pos. induction fuel as [|f IH]; intros pos Hf; cbn [validate_sections].
  all: destruct (Nat.leb_spec (length data) pos); [by eexists|].
  { lia. }
  destruct (index_ok data pos) as [id ->]; [lia|]. cbn [mbind outcome_bind].
  destruct (12 <? id); [by eexists|].
  destruct (reads_u32 data (S pos)) as (r & -> & Hr). cbn [mbind outcome_bind].
  destruct r as [[len n]|]; [|by eexists]. destruct (_ <? _)%nat; [by eexists|]. apply IH. lia.
Qed.

Lemma validate_total b : exists r, validate b = Done r.
Proof.
  unfold validate. destruct (Nat.ltb_spec (length b) 8); [by eexists|].
  rewrite (subslice_ok b 0 4) by lia. cbn [mbind outcome_bind]. destruct (negb _); [by eexists|].
  rewrite (subslice_ok b 4 8) by lia. cbn [mbind outcome_bind]. destruct (negb _); [by eexists|].
  apply validate_sections_total. lia.
Qed.

(** ** A reference encoder *)

Definition enc_u32 (v : Z) : list Z := uleb_encode 5 v.
Definition enc_vec {A} (enc : A -> list Z) (l : list A) : list Z :=
  enc_u32 (Z.of_nat (length l)) ++ concat (enc <$> l).
Definition enc_bytes (l : list Z) : list Z := enc_u32 (Z.of_nat (length l)) ++ l.

Definition enc_val_type (t : ValType) : list Z :=
  match t with I32 => [0x7F] | I64 => [0x7E] | F32 => [0x7D] | F64 => [0x7C] end.
Definition enc_func_type (f : FuncType) : list Z :=
  [0x60] ++ enc_vec enc_val_type (params f) ++ enc_vec enc_val_type (results f).
Definition enc_limits (l : Z * option Z) : list Z :=
  match l with
  | (mn, Some mx) => [1] ++ enc_u32 mn ++ enc_u32 mx
  | (mn, None) => [0] ++ enc_u32 mn
  end.
Definition enc_import_kind (k : ImportKind) : list Z :=
  match k with
  | IFunc ti => [0x00] ++ enc_u32 ti
  | ITable => [0x01; 0x70; 0x00] ++ enc_u32 0
  | IMemory mn mx => [0x02] ++ enc_limits (mn, mx)
  | IGlobal => [0x03; 0x7F; 0x00]
  end.
Definition enc_import (i : Import) : list Z :=
  enc_bytes (imp_module i) ++ enc_bytes (imp_name i) ++ enc_import_kind (imp_kind i).
Definition enc_const64 (v : Z) : list Z := [0x42] ++ sleb_encode 10 (as_i64 v) ++ [0x0B].
Definition enc_const32 (v : Z) : list Z := [0x41] ++ sleb_encode 5 (as_i32 v) ++ [0x0B].
Definition enc_global (g : GlobalDef) : list Z :=
  enc_val_type (gl_type g) ++ [if gl_mutable g then 1 else 0] ++ enc_const64 (gl_init g).
Definition enc_export_kind (k : ExportKind) : Z :=
  match k with EFunc => 0 | ETable => 1 | EMemory => 2 | EGlobal => 3 end.
Definition enc_export (e : Export) : list Z :=
  enc_bytes (exp_name e) ++ [enc_export_kind (exp_kind e)] ++ enc_u32 (exp_idx e).
Definition enc_elem (e : ElemSegment) : list Z :=
  enc_u32 (elem_table e) ++ enc_const32 (elem_offset e) ++ enc_vec enc_u32 (elem_funcs e).
Definition enc_body (b : FuncBody) : list Z :=
  enc_vec (fun '(c, t) => enc_u32 c ++ enc_val_type t) (body_locals b) ++ body_code b.
Definition enc_code (b : FuncBody) : list Z := enc_bytes (enc_body b).
Definition enc_data (d : DataSegment) : list Z :=
  enc_u32 (data_mem d) ++ enc_const32 (data_offset d) ++ enc_bytes (data_bytes d).

Definition enc_section (id : Z) (payload : list Z) : list Z := [id] ++ enc_bytes payload.

(** The numbered sections of a module. *)
Definition sections (m : WasmModule) : list (Z * list Z) :=
  [ (1, enc_vec enc_func_type (types m));
    (2, enc_vec enc_import (imports m));
    (3, enc_vec enc_u32 (func_types m));
    (4, enc_vec (fun n => [0x70] ++ enc_limits (n, None)) [table_size m]);
    (5, enc_vec enc_limits [(mem_min m, mem_max m)]);
    (6, enc_vec enc_global (globals m));
    (7, enc_vec enc_export (exports m)) ] ++
  (match start m with Some s => [(8, enc_u32 s)] | None => [] end) ++
  [ (9, enc_vec enc_elem (elem m));
    (10, enc_vec enc_code (code m));
    (11, enc_vec enc_data (mdata m)) ].

Definition encode (m : WasmModule) : list Z :=
  WASM_MAGIC ++ [1; 0; 0; 0] ++ concat ((fun s => enc_section s.1 s.2) <$> sections m).

(** ** What can be encoded *)

Definition small {A} (l : list A) : Prop := Z.of_nat (length l) < 2 ^ 32.
Definition name_ok (l : list Z) : Prop := small l /\ from_utf8_ok l = true.

Definition func_type_ok (f : FuncType) : Prop := small (params f) /\ small (results f).
Definition limits_ok (l : Z * option Z) : Prop :=
  is_u32 l.1 /\ match l.2 with Some mx => is_u32 mx | None => True end.
Definition import_ok (i : Import) : Prop :=
  name_ok (imp_module i) /\ name_ok (imp_name i) /\
  match imp_kind i with IFunc ti => is_u32 ti | IMemory mn mx => limits_ok (mn, mx) | _ => True end.
Definition global_ok (g : GlobalDef) : Prop := is_u64 (gl_init g).
Definition export_ok (e : Export) : Prop := name_ok (exp_name e) /\ is_u32 (exp_idx e).
Definition elem_ok (e : ElemSegment) : Prop :=
  is_u32 (elem_table e) /\ is_u32 (elem_offset e) /\ small (elem_funcs e) /\ Forall is_u32 (elem_funcs e).
Definition body_ok (b : FuncBody) : Prop :=
  small (body_locals b) /\ Forall (fun l => is_u32 l.1) (body_locals b) /\ small (enc_body b).
Definition data_ok (d : DataSegment) : Prop :=
  is_u32 (data_mem d) /\ is_u32 (data_offset d) /\ small (data_bytes d).

Definition vec_ok {A} (ok : A -> Prop) (l : list A) : Prop := small l /\ Forall ok l.

Record module_ok (m : WasmModule) : Prop := {
  ok_types : vec_ok func_type_ok (types m);
  ok_imports : vec_ok import_ok (imports m);
  ok_funcs : vec_ok is_u32 (func_types m);
  ok_table : is_u32 (table_size m);
  ok_mem : limits_ok (mem_min m, mem_max m);
  ok_globals : vec_ok global_ok (globals m);
  ok_exports : vec_ok export_ok (exports m);
  ok_start : match start m with Some s => is_u32 s | None => True end;
  ok_elem : vec_ok elem_ok (elem m);
  ok_code : vec_ok body_ok (code m);
  ok_data : vec_ok data_ok (mdata m);
  ok_caps : caps m = WASM_DEFAULT_CAPS;
  ok_sizes : Forall (fun s => small s.2) (sections m);
}.

(** ** Item by item *)

(** [m] reads [l] as [a], wherever [l] stands. *)
Definition parses {A} (m : P A) (l : list Z) (a : A) : Prop :=
  forall data pos, at_pos data pos l -> m (mk_parser data pos) = Done (Some (a, mk_parser data (pos + length l))).

Lemma at_pos_app data pos l l' : at_pos data pos (l ++ l') -> at_pos data pos l /\ at_pos data (pos + length l) l'.
Proof.
  intros (pre & post & -> & <-). split.
  - exists pre, (l' ++ post). by rewrite <- !app_assoc.
  - exists (pre ++ l), post. rewrite length_app. split; [by rewrite <- !app_assoc|lia].
Qed.

Lemma at_pos_len data pos l : at_pos data pos l -> (pos + length l <= length data)%nat.
Proof. intros (pre & post & -> & <-). rewrite !length_app. lia. Qed.

Lemma at_pos_sub data pos l : at_pos data pos l -> subslice data pos (pos + length l) = Done l.
Proof.
  intros Hat. pose proof (at_pos_len _ _ _ Hat). rewrite subslice_ok by lia.
  destruct Hat as (pre & post & -> & <-). rewrite drop_app_length.
  replace (length pre + length l - length pre)%nat with (length l) by lia. by rewrite take_app_length.
Qed.

Lemma parses_ret {A} (a : A) : parses (mret a) [] a.
Proof. intros data pos _. cbn. by rewrite Nat.add_0_r. Qed.

Lemma parses_bind {A B} (m : P A) (f : A -> P B) l l' a b :
  parses m l a -> parses (f a) l' b -> parses (m ≫= f) (l ++ l') b.
Proof.
  intros Hm Hf data pos [H1 H2]%at_pos_app. unfold mbind, P_bind. rewrite (Hm _ _ H1), (Hf _ _ H2).
  rewrite length_app. by rewrite Nat.add_assoc.
Qed.

(** The last step of a bind chain. *)
Lemma parses_last {A B} (m : P A) (f : A -> B) l a :
  parses m l a -> parses (m ≫= fun x => mret (f x)) l (f a).
Proof. intros Hm. rewrite <- (app_nil_r l). eapply parses_bind; [exact Hm|apply parses_ret]. Qed.

Lemma parses_byte b : parses byte [b] b.
Proof.
  intros data pos Hat. unfold byte, eof. cbn [pdata ppos].
  destruct (at_pos_index _ _ _ _ Hat) as [-> ->]. cbn. by rewrite Nat.add_1_r.
Qed.

Lemma parses_bytes l : parses (bytes (length l)) l l.
Proof.
  intros data pos Hat. unfold bytes. cbn [pdata ppos]. pose proof (at_pos_len _ _ _ Hat).
  rewrite (proj2 (Nat.ltb_ge _ _)) by done. by rewrite at_pos_sub.
Qed.

Lemma parses_leb read l v :
  (forall data pos, at_pos data pos l -> read data pos = Done (Some (v, length l))) -> parses (leb read) l v.
Proof. intros Hr data pos Hat. unfold leb. cbn [pdata ppos]. by rewrite Hr. Qed.

Lemma parses_u32 v : is_u32 v -> parses u32_leb (enc_u32 v) v.
Proof. intros Hv. apply parses_leb. intros data pos. by apply read_u32_ok. Qed.

Lemma parses_i32 v : - 2 ^ 31 <= v < 2 ^ 31 -> parses i32_leb (sleb_encode 5 v) v.
Proof. intros Hv. apply parses_leb. intros data pos. by apply read_i32_ok. Qed.

Lemma parses_i64 v : - 2 ^ 63 <= v < 2 ^ 63 -> parses i64_leb (sleb_encode 10 v) v.
Proof. intros Hv. apply parses_leb. intros data pos. by apply read_i64_ok. Qed.

Lemma parses_repeat {A} (item : P A) (enc : A -> list Z) l :
  Forall (fun a => parses item (enc a) a) l -> parses (repeat_p (length l) item) (concat (enc <$> l)) l.
Proof.
  induction 1 as [|a l Ha _ IH]; cbn [length repeat_p fmap list_fmap concat]; [apply parses_ret|].
  eapply parses_bind; [exact Ha|]. apply (parses_last _ (fun l => a :: l)), IH.
Qed.

Lemma parses_vec {A} (item : P A) (enc : A -> list Z) (ok : A -> Prop) l :
  (forall a, ok a -> parses item (enc a) a) -> vec_ok ok l -> parses (pvec item) (enc_vec enc l) l.
Proof.
  intros Hi [Hs Hf]. eapply parses_bind; [apply parses_u32; unfold is_u32, small in *; lia|].
  rewrite Nat2Z.id. apply parses_repeat. eapply Forall_impl; [exact Hf|]. intros a. apply Hi.
Qed.

(** Take the branch a concrete tag selects. *)
Ltac parse_branch := repeat (cbv beta iota; match goal with
  | |- parses (if ?c then _ else _) _ _ => let v := eval vm_compute in c in change c with v
  | |- parses ((if ?c then _ else _) ≫= _) _ _ => let v := eval vm_compute in c in change c with v
  end); cbv beta iota.
Ltac parse_tag := eapply parses_bind; [apply parses_byte|]; parse_branch.

Lemma parses_enc_bytes {B} l (f : list Z -> B) : small l ->
  parses (len ← u32_leb; b ← bytes (Z.to_nat len); mret (f b)) (enc_bytes l) (f l).
Proof.
  intros Hs. eapply parses_bind; [apply parses_u32; unfold is_u32, small in *; lia|].
  rewrite Nat2Z.id. apply parses_last, parses_bytes.
Qed.

(** A well-formed string is its own lossy decoding. *)
Lemma utf8_head_ok l : l <> [] -> from_utf8_ok l = true ->
  exists n, utf8_head l = (true, n) /\ (1 <= n <= length l)%nat /\ from_utf8_ok (drop n l) = true.
Proof.
  destruct l as [|b r]; [done|]. intros _. cbn [from_utf8_ok utf8_head]. destruct (b <? 0x80).
  { intros Hr. exists 1%nat. split; [done|]. simpl. split; [lia|done]. }
  destruct r as [|c1 r1]; [done|]. destruct (in_range 0xC2 b 0xDF).
  { intros [-> Hr]%andb_prop. exists 2%nat. split; [done|]. simpl. split; [lia|done]. }
  destruct r1 as [|c2 r2]; [done|]. destruct (in_range 0xE0 b 0xEF).
  { intros [[-> ->]%andb_prop Hr]%andb_prop. exists 3%nat. split; [done|]. simpl. split; [lia|done]. }
  destruct r2 as [|c3 r3]; [done|]. intros [[[H4 ->]%andb_prop ->]%andb_prop Hr]%andb_prop.
  assert (in_range 0xF0 b 0xF4 = true) as ->.
  { unfold utf8_second4, in_range in *. destruct (Z.eqb_spec b 0xF0), (Z.eqb_spec b 0xF4); lia. }
  rewrite H4. exists 4%nat. split; [done|]. simpl. split; [lia|done].
Qed.

Lemma from_utf8_lossy_ok l : from_utf8_ok l = true -> from_utf8_lossy l = l.
Proof.
  unfold from_utf8_lossy. generalize (le_n (length l)). generalize (length l) at 2 3 as fuel.
  intros fuel. revert l. induction fuel as [|f IH]; intros l Hf Hl.
  { by destruct l; [|simpl in Hf; lia]. }
  destruct l as [|b r] eqn:E; [done|]. rewrite <- E in *.
  destruct (utf8_head_ok l) as (n & Hn & Hr & Hd); [by rewrite E|done|].
  assert (utf8_lossy_loop (S f) l = take n l ++ utf8_lossy_loop f (drop n l)) as ->.
  { rewrite E in *. cbn [utf8_lossy_loop]. by rewrite Hn. }
  rewrite IH; [by rewrite take_drop| |done]. rewrite length_drop. lia.
Qed.

Lemma parses_name l : name_ok l -> parses pname (enc_bytes l) l.
Proof.
  intros [Hs Hu]. rewrite <- (from_utf8_lossy_ok l Hu) at 2. by apply (parses_enc_bytes l from_utf8_lossy).
Qed.

Lemma parses_val_type t : parses val_type (enc_val_type t) t.
Proof. destruct t; rewrite <- (app_nil_r (enc_val_type _)); (eapply parses_bind; [apply parses_byte|apply parses_ret]). Qed.

Lemma parses_func_type f : func_type_ok f -> parses func_type_p (enc_func_type f) f.
Proof.
  intros [H1 H2]. destruct f as [ps rs]. parse_tag.
  assert (Hv : forall l, small l -> parses vec_val_types (enc_vec enc_val_type l) l).
  { intros l Hl. apply (parses_vec _ _ (fun _ => True)); [intros; apply parses_val_type|].
    split; [done|by apply Forall_true]. }
  eapply parses_bind; [by apply Hv|]. apply (parses_last _ (fun r => mk_functype ps r)). by apply Hv.
Qed.

Lemma parses_limits l : limits_ok l -> parses limits (enc_limits l) l.
Proof.
  destruct l as [mn [mx|]]; intros [H1 H2]; cbn [enc_limits fst snd] in *.
  - eapply parses_bind; [apply parses_byte|]. eapply parses_bind; [by apply parses_u32|]. parse_branch.
    apply (parses_last _ (fun x => (mn, Some x))). by apply parses_u32.
  - eapply parses_bind; [apply parses_byte|]. rewrite <- (app_nil_r (enc_u32 mn)).
    eapply parses_bind; [by apply parses_u32|]. parse_branch. apply parses_ret.
Qed.

Lemma parses_import_kind k :
  match k with IFunc ti => is_u32 ti | IMemory mn mx => limits_ok (mn, mx) | _ => True end ->
  parses (kind_b ← byte;
    if kind_b =? 0x00 then ti ← u32_leb; mret (IFunc ti)
    else if kind_b =? 0x01 then _ ← byte; _ ← limits; mret ITable
    else if kind_b =? 0x02 then '(min, max) ← limits; mret (IMemory min max)
    else if kind_b =? 0x03 then _ ← val_type; _ ← byte; mret IGlobal
    else pfail) (enc_import_kind k) k.
Proof.
  destruct k as [ti| |mn mx|]; intros Hk; cbn [enc_import_kind].
  - parse_tag. by apply (parses_last _ IFunc), parses_u32.
  - eapply (parses_bind _ _ [1] ([0x70] ++ enc_limits (0, None))); [apply parses_byte|]. parse_branch.
    eapply parses_bind; [apply parses_byte|].
    apply (parses_last _ (fun _ => ITable) _ (0, None)). by apply (parses_limits (0, None)).
  - parse_tag. rewrite <- (app_nil_r (enc_limits _)). eapply parses_bind; [by apply parses_limits|]. apply parses_ret.
  - eapply (parses_bind _ _ [3] ([0x7F] ++ [0])); [apply parses_byte|]. parse_branch.
    eapply parses_bind; [apply (parses_val_type I32)|].
    eapply (parses_last _ (fun _ => IGlobal)), parses_byte.
Qed.

(** The kind sits inside a longer chain. *)
Lemma parses_assoc {A B C} (m : P A) (f : A -> P B) (g : B -> P C) l a :
  parses ((m ≫= f) ≫= g) l a -> parses (m ≫= fun x => f x ≫= g) l a.
Proof.
  intros Hp data pos Hat. specialize (Hp data pos Hat). revert Hp. unfold mbind, P_bind.
  by destruct (m _) as [[[x p]|]|].
Qed.

Lemma parses_import i : import_ok i -> parses import_p (enc_import i) i.
Proof.
  destruct i as [mo na k]. intros (H1 & H2 & H3). cbn [imp_module imp_name imp_kind] in *.
  eapply parses_bind; [by apply parses_name|]. eapply parses_bind; [by apply parses_name|].
  apply parses_assoc, (parses_last _ (fun k => mk_import mo na k)). by apply parses_import_kind.
Qed.

Lemma as_u64_i64 v : is_u64 v -> as_u64 (as_i64 v) = v.
Proof. intros Hv. unfold as_u64, as_i64. rewrite wrap_signed by lia. by apply wrap_small. Qed.

Lemma as_u32_const v : is_u32 v -> as_u32 (as_u64 (as_i32 v)) = v.
Proof.
  intros Hv. unfold as_u32, as_u64, as_i32. unfold wrap.
  rewrite Z.mod_mod_divide by (by exists (2 ^ 32)).
  change (wrap 32 (signed 32 v) = v). rewrite wrap_signed by lia. by apply wrap_small.
Qed.

Lemma parses_const64 v : is_u64 v -> parses const_expr (enc_const64 v) v.
Proof.
  intros Hv. parse_tag. eapply parses_bind.
  - apply (parses_last _ as_u64). apply parses_i64. apply (signed_range 64). lia.
  - rewrite as_u64_i64 by done. rewrite <- (app_nil_r [0x0B]). parse_tag. apply parses_ret.
Qed.

Lemma parses_const32 v : is_u32 v -> parses const_expr (enc_const32 v) (as_u64 (as_i32 v)).
Proof.
  intros Hv. parse_tag. eapply parses_bind.
  - apply (parses_last _ as_u64). apply parses_i32. apply (signed_range 32). lia.
  - rewrite <- (app_nil_r [0x0B]). parse_tag. apply parses_ret.
Qed.

Lemma parses_global g : global_ok g -> parses global_p (enc_global g) g.
Proof.
  destruct g as [t mu v]. intros Hv. eapply parses_bind; [apply parses_val_type|].
  eapply parses_bind; [apply parses_byte|]. destruct mu;
    (eapply (parses_last _ (fun i => mk_global t _ i)); by apply parses_const64).
Qed.

Lemma parses_export_kind k :
  parses (kind_b ← byte;
    if kind_b =? 0 then mret EFunc
    else if kind_b =? 1 then mret ETable
    else if kind_b =? 2 then mret EMemory
    else if kind_b =? 3 then mret EGlobal
    else pfail) [enc_export_kind k] k.
Proof. rewrite <- (app_nil_r [_]). destruct k; parse_tag; apply parses_ret. Qed.

Lemma parses_export e : export_ok e -> parses export_p (enc_export e) e.
Proof.
  destruct e as [na k i]. intros [H1 H2]. eapply parses_bind; [by apply parses_name|].
  apply parses_assoc. eapply parses_bind; [apply parses_export_kind|].
  by apply (parses_last _ (fun i => mk_export na k i)), parses_u32.
Qed.

Lemma parses_elem e : elem_ok e -> parses elem_p (enc_elem e) e.
Proof.
  destruct e as [t o fs]. intros (H1 & H2 & H3 & H4). cbn in H1, H2, H3, H4.
  eapply parses_bind; [by apply parses_u32|]. eapply parses_bind; [by apply parses_const32|].
  rewrite as_u32_const by done. apply (parses_last _ (fun l => mk_elem t o l)).
  apply (parses_vec _ _ is_u32); [apply parses_u32|done].
Qed.

Lemma parses_data d : data_ok d -> parses data_p (enc_data d) d.
Proof.
  destruct d as [mi o bs]. intros (H1 & H2 & H3). cbn in H1, H2, H3.
  eapply parses_bind; [by apply parses_u32|]. eapply parses_bind; [by apply parses_const32|].
  rewrite as_u32_const by done. by apply (parses_enc_bytes bs (fun b => mk_data mi o b)).
Qed.

Lemma parse_func_body_ok b : body_ok b -> parse_func_body (Parser_new (enc_body b)) = Done (Some b).
Proof.
  destruct b as [ls co]. intros (H1 & H2 & H3). unfold parse_func_body, enc_body, Parser_new. cbn [body_locals body_code] in *.
  rewrite (parses_vec _ (fun '(c, t) => enc_u32 c ++ enc_val_type t) (fun l => is_u32 l.1) ls) with (pos := O).
  - cbn [mbind outcome_bind pdata ppos]. rewrite Nat.add_0_l.
    set (pre := enc_vec _ ls). rewrite subslice_ok by (rewrite ?length_app; lia).
    rewrite drop_app_length, take_ge by (rewrite length_app; lia). done.
  - intros [c t] Hc. eapply parses_bind; [by apply parses_u32|].
    apply (parses_last _ (fun t => (c, t))), parses_val_type.
  - done.
  - exists [], co. done.
Qed.

Lemma parses_code b : body_ok b -> parses code_p (enc_code b) b.
Proof.
  intros Hb. unfold code_p, enc_code, enc_bytes. pose proof Hb as (_ & _ & Hs).
  eapply parses_bind; [apply parses_u32; unfold is_u32, small in *; lia|]. rewrite Nat2Z.id.
  set (l := enc_body b). rewrite <- (app_nil_r l) at 2.
  eapply parses_bind; [apply parses_bytes|]. unfold l. rewrite parse_func_body_ok by done.
  intros data pos _. unfold pnested. by rewrite Nat.add_0_r.
Qed.

(** ** Section by section *)

(** The sections [ss] take the module from [m] to [m']. *)
Fixpoint sections_run (ss : list (Z * list Z)) (m m' : WasmModule) : Prop :=
  match ss with
  | [] => m' = m
  | (id, payload) :: ss' => exists m1, parses (section id m) payload m1 /\ sections_run ss' m1 m'
  end.

Lemma sections_run_app ss ss' m m1 m' : sections_run ss m m1 -> sections_run ss' m1 m' ->
  sections_run (ss ++ ss') m m'.
Proof.
  revert m. induction ss as [|[id pl] ss IH]; intros m; cbn [sections_run app].
  - by intros ->.
  - intros (m2 & Hp & H1) H2. exists m2. split; [done|]. by apply IH.
Qed.

Definition enc_sections (ss : list (Z * list Z)) : list Z := concat ((fun s => enc_section s.1 s.2) <$> ss).

Lemma at_pos_new l : at_pos l 0 l.
Proof. exists [], []. by rewrite app_nil_r. Qed.

Definition enc_head (id : Z) (pl : list Z) : list Z := [id] ++ enc_u32 (Z.of_nat (length pl)).

Lemma enc_sections_cons id pl ss :
  enc_sections ((id, pl) :: ss) = enc_head id pl ++ pl ++ enc_sections ss.
Proof. unfold enc_sections, enc_head. cbn. unfold enc_section, enc_bytes. by rewrite <- !app_assoc. Qed.

Lemma parses_head id pl : small pl ->
  parses (id ← byte; len ← u32_leb; mret (id, len)) (enc_head id pl) (id, Z.of_nat (length pl)).
Proof.
  intros Hs. eapply parses_bind; [apply parses_byte|]. apply (parses_last _ (fun n => (id, n))), parses_u32.
  unfold is_u32, small in *. lia.
Qed.

Lemma take_prefix (data pre rest : list Z) n : data = pre ++ rest -> length pre = n -> data = take n data ++ rest.
Proof. intros E <-. rewrite E at 2. rewrite take_app_length. done. Qed.

Lemma load_sections_enc ss data pos fuel m m' :
  data = take pos data ++ enc_sections ss -> (pos <= length data)%nat -> (length data - pos <= fuel)%nat ->
  Forall (fun s => small s.2) ss -> sections_run ss m m' ->
  load_sections fuel m (mk_parser data pos) = Done (Ok m').
Proof.
  revert pos fuel m. induction ss as [|[id pl] ss IH]; intros pos fuel m Hd Hp Hf Hs Hr.
  { assert (El : length data = pos).
    { apply (f_equal length) in Hd. rewrite length_app, length_take in Hd. simpl in Hd. lia. }
    cbn in Hr. subst m'. destruct fuel; cbn [load_sections]; unfold eof; cbn [pdata ppos];
      by rewrite (proj2 (Nat.leb_le _ _)) by lia. }
  destruct Hr as (m1 & Hpm & Hr). apply Forall_cons in Hs as [Hs1 Hs2]. cbn [snd] in Hs1.
  rewrite enc_sections_cons in Hd. set (hd := enc_head id pl) in *.
  assert (Hlp : length (take pos data) = pos) by (rewrite length_take; lia).
  assert (Hat : at_pos data pos (hd ++ pl ++ enc_sections ss)).
  { exists (take pos data), []. rewrite app_nil_r. by split. }
  apply at_pos_app in Hat as [H1 H2]. apply at_pos_app in H2 as [H2 _].
  pose proof (at_pos_len _ _ _ H2) as Hl.
  assert (Hhd : (1 <= length hd)%nat) by (unfold hd, enc_head; rewrite length_app; simpl; lia).
  destruct fuel as [|f]; [lia|]. cbn [load_sections]. unfold eof. cbn [pdata ppos].
  rewrite (proj2 (Nat.leb_gt _ _)) by lia. rewrite (parses_head id pl Hs1 data pos H1). cbn [mbind outcome_bind].
  rewrite Nat2Z.id. unfold remaining. cbn [pdata ppos]. fold hd. rewrite (proj2 (Nat.ltb_ge _ _)) by lia.
  rewrite (at_pos_sub _ _ _ H2). cbn [mbind outcome_bind].
  unfold Parser_new. rewrite (Hpm pl O (at_pos_new pl)). cbn [mbind outcome_bind].
  apply IH; [|lia..|done|done]. apply (take_prefix data (take pos data ++ hd ++ pl)).
  - by rewrite <- !app_assoc.
  - rewrite !length_app. lia.
Qed.

Lemma section_vec {A} (item : P A) (enc : A -> list Z) (ok : A -> Prop) (f : list A -> WasmModule) l :
  (forall a, ok a -> parses item (enc a) a) -> vec_ok ok l ->
  parses (l ← pvec item; mret (f l)) (enc_vec enc l) (f l).
Proof. intros Hi Hl. apply parses_last. by apply (parses_vec _ _ ok). Qed.

Lemma vec_ok_one {A} (ok : A -> Prop) a : ok a -> vec_ok ok [a].
Proof. intros Ha. split; [unfold small; simpl; lia|by apply Forall_singleton]. Qed.

Lemma section_tables m n : is_u32 n ->
  parses (section 4 m) (enc_vec (fun n => [0x70] ++ enc_limits (n, None)) [n])
    (set_table_size (Z.max (table_size m) n) m).
Proof.
  intros Hn. apply (section_vec _ _ is_u32 (fun l => set_table_size (foldl Z.max (table_size m) l) m));
    [|by apply vec_ok_one].
  intros a Ha. eapply parses_bind; [apply parses_byte|]. rewrite <- (app_nil_r (enc_limits _)).
  eapply parses_bind; [apply parses_limits; by split|apply parses_ret].
Qed.

Lemma section_memory m mn mx : limits_ok (mn, mx) ->
  parses (section 5 m) (enc_vec enc_limits [(mn, mx)]) (set_mem mn mx m).
Proof.
  intros Hl. apply (section_vec _ _ limits_ok (fun l => match l with (min, max) :: _ => set_mem min max m | [] => m end));
    [apply parses_limits|by apply vec_ok_one].
Qed.

Lemma sections_run_cons id pl ss m m1 m' :
  parses (section id m) pl m1 -> sections_run ss m1 m' -> sections_run ((id, pl) :: ss) m m'.
Proof. intros. by exists m1. Qed.

(** One section that is a vector of items, added to the module by [f]. *)
Ltac run_vec f ok item :=
  match goal with |- sections_run _ ?m _ =>
    eapply sections_run_cons; [apply (section_vec _ _ ok (fun l => f l m)); [exact item|assumption]|] end.

Lemma sections_ok m : module_ok m -> sections_run (sections m) empty_module m.
Proof.
  intros []. destruct m as [ty im ft ts mn mx gl ex st el co da ca];
    cbn [types imports func_types table_size mem_min mem_max globals exports start elem code mdata caps] in *. subst ca.
  clear ok_sizes0.
  unfold sections. cbn [types imports func_types table_size mem_min mem_max globals exports start elem code mdata].
  apply (sections_run_app _ _ _ (mk_module ty im ft ts mn mx gl ex None [] [] [] WASM_DEFAULT_CAPS)).
  - run_vec (fun l m => set_types (types m ++ l) m) func_type_ok parses_func_type.
    run_vec (fun l m => set_imports (imports m ++ l) m) import_ok parses_import.
    run_vec (fun l m => set_func_types (func_types m ++ l) m) is_u32 parses_u32.
    eapply sections_run_cons; [by apply section_tables|]. eapply sections_run_cons; [by apply section_memory|].
    run_vec (fun l m => set_globals (globals m ++ l) m) global_ok parses_global.
    run_vec (fun l m => set_exports (exports m ++ l) m) export_ok parses_export.
    cbn. unfold set_exports, set_globals. cbn. f_equal. unfold is_u32 in *. lia.
  - apply (sections_run_app _ _ _ (mk_module ty im ft ts mn mx gl ex st [] [] [] WASM_DEFAULT_CAPS)).
    + destruct st as [s|]; [|done].
      eapply sections_run_cons; [apply (parses_last _ (fun s => set_start (Some s) _)); by apply parses_u32|done].
    + run_vec (fun l m => set_elem (elem m ++ l) m) elem_ok parses_elem.
      run_vec (fun l m => set_code (code m ++ l) m) body_ok parses_code.
      run_vec (fun l m => set_mdata (mdata m ++ l) m) data_ok parses_data. done.
Qed.

Lemma encode_eq m : encode m = WASM_MAGIC ++ [1; 0; 0; 0] ++ enc_sections (sections m).
Proof. done. Qed.


Definition demo_module : WasmModule :=
  mk_module [mk_functype [I32; I64] [I32]] [mk_import [97; 101] [109; 115] (IFunc 0)] [0] 4 1 (Some 300)
    [mk_global I32 true 5] [mk_export [114; 117; 110] EFunc 1] (Some 1)
    [mk_elem 0 2 [0; 1]] [mk_body [(3, I32)] [0x20; 0; 0x0B]] [mk_data 0 65535 [1; 2; 3]] WASM_DEFAULT_CAPS.


(** the LEB128 readers invert the encoding.  Wherever the shortest
    encoding of a value stands in a buffer, [read_leb128_u32], [_i32] and
    [_i64] return that value together with the number of bytes it takes, over
    the whole range of the type: the sign extension and the shift limit are
    right for every length. *)
Theorem leb128_roundtrip pre post u i j :
  is_u32 u -> - 2 ^ 31 <= i < 2 ^ 31 -> - 2 ^ 63 <= j < 2 ^ 63 ->
  read_leb128_u32 (pre ++ uleb_encode 5 u ++ post) (length pre) = Done (Some (u, length (uleb_encode 5 u))) /\
  read_leb128_i32 (pre ++ sleb_encode 5 i ++ post) (length pre) = Done (Some (i, length (sleb_encode 5 i))) /\
  read_leb128_i64 (pre ++ sleb_encode 10 j ++ post) (length pre) = Done (Some (j, length (sleb_encode 10 j))).
Proof.
  intros Hu Hi Hj. split; [|split].
  - apply read_u32_ok; [done|by exists pre, post].
  - apply read_i32_ok; [done|by exists pre, post].
  - apply read_i64_ok; [done|by exists pre, post].
Qed.

Lemma leb128_roundtrip_witness :
  uleb_encode 5 4294967295 = [255; 255; 255; 255; 15] /\
  read_leb128_i64 ([9] ++ sleb_encode 10 (- 2 ^ 63) ++ [7]) 1 = Done (Some (- 2 ^ 63, 10%nat)).
Proof.
  split; [vm_compute; reflexivity|].
  apply (leb128_roundtrip [9] [7] 4294967295 (- 2 ^ 31) (- 2 ^ 63)); unfold is_u32; lia.
Defined.

