(* ===== verification/WasmMem.v ===== *)
(** * WASM linear memory (kernel/src/wasm/memory.rs)

    A block of physical pages seen by a module as addresses 0 .. 64 KiB * pages.
    Every accessor checks the range first; the theorems say that what passes the
    check stays inside the block. *)

From stdpp Require Import base numbers list gmap.
From Stdlib Require Import ZArith Lia.
From S2P Require Import Prelude Machine PageAlloc.

Definition WASM_PAGE_SIZE : Z := 65536.
Definition WASM_MAX_PAGES : Z := 64.
Definition KERNEL_PAGES_PER_WASM_PAGE : Z := WASM_PAGE_SIZE / PAGE_SIZE.

Record LinearMemory := mk_lmem {
  base : Z;
  lpages : Z;
  cap_pages : Z;
}.

Definition LinearMemory_new (m : machine) (min_pages : Z) : outcome (option LinearMemory * machine) :=
  let cap := Z.min (Z.max min_pages 1) WASM_MAX_PAGES in
  '(r, m) ← alloc_pages m (cap * KERNEL_PAGES_PER_WASM_PAGE);
  match r with
  | None => Done (None, m)
  | Some b =>
      Done (Some (mk_lmem b (Z.min min_pages cap) cap),
            mk_machine (pg m) (kzero (ram m) b (cap * WASM_PAGE_SIZE)))
  end.

Definition size (l : LinearMemory) : Z := as_u32 (lpages l).

(** The answer, an [i32], and the memory afterwards. *)
Definition grow (l : LinearMemory) (delta : Z) : Z * LinearMemory :=
  let new := lpages l +u delta in
  if cap_pages l <? new then (-1, l)
  else (as_i32 (lpages l), mk_lmem (base l) new (cap_pages l)).

(** [addr.saturating_add(size) <= pages * WASM_PAGE_SIZE]. *)
Definition check (l : LinearMemory) (addr sz : Z) : bool :=
  Z.min (addr + sz) u64_max <=? lpages l * WASM_PAGE_SIZE.

(** [load_uN] and [store_uN] for [n] bytes, little-endian, byte by byte. *)
Definition load_le (n : nat) (l : LinearMemory) (r : gmap Z Z) (addr : Z) : option Z :=
  if negb (check l addr (Z.of_nat n)) then None else Some (kld n r (base l +u addr)).
Definition load_u8 := load_le 1.
Definition load_u16 := load_le 2.
Definition load_u32 := load_le 4.
Definition load_u64 := load_le 8.

Definition store_le (n : nat) (l : LinearMemory) (r : gmap Z Z) (addr v : Z) : bool * gmap Z Z :=
  if negb (check l addr (Z.of_nat n)) then (false, r) else (true, kst n r (base l +u addr) v).
Definition store_u8 := store_le 1.
Definition store_u16 := store_le 2.
Definition store_u32 := store_le 4.
Definition store_u64 := store_le 8.

Definition read_bytes (l : LinearMemory) (r : gmap Z Z) (addr len : Z) : option (list Z) :=
  if negb (check l addr len) then None
  else Some (load_bytes (Z.to_nat len) r (to_dma_addr (base l +u addr))).

Definition write_bytes (l : LinearMemory) (r : gmap Z Z) (addr : Z) (data : list Z) : bool * gmap Z Z :=
  if negb (check l addr (Z.of_nat (length data))) then (false, r)
  else (true, kcopy r (base l +u addr) data).

(** ** The block *)

(** The memory is a block of RAM of [cap_pages] pages, [lpages] of them visible. *)
Record lmem_wf (l : LinearMemory) : Prop := {
  lm_base : 0 <= base l;
  lm_cap : 0 < cap_pages l <= WASM_MAX_PAGES;
  lm_pages : 0 <= lpages l <= cap_pages l;
  lm_top : base l + cap_pages l * WASM_PAGE_SIZE <= MAX_RAM_END;
}.

(** Physical addresses of the visible part. *)
Definition in_lmem (l : LinearMemory) (a : Z) : Prop :=
  base l <= a < base l + lpages l * WASM_PAGE_SIZE.

Lemma check_spec l addr n : lmem_wf l -> 0 <= addr -> 0 <= n ->
  check l addr n = true <-> addr + n <= lpages l * WASM_PAGE_SIZE.
Proof.
  intros [? [? ?] [? ?] ?] Ha Hn. unfold check, u64_max, WASM_PAGE_SIZE, WASM_MAX_PAGES in *.
  rewrite Z.leb_le. lia.
Qed.

Lemma lmem_addr l addr n : lmem_wf l -> 0 <= addr -> 0 <= n -> check l addr n = true ->
  to_dma_addr (base l +u addr) = base l + addr /\ addr + n <= lpages l * WASM_PAGE_SIZE.
Proof.
  intros Hw Ha Hn Hc. pose proof (proj1 (check_spec _ _ _ Hw Ha Hn) Hc) as Hr. destruct Hw as [? [? ?] [? ?] ?].
  unfold WASM_PAGE_SIZE, WASM_MAX_PAGES, MAX_RAM_END in *. split; [|lia].
  rewrite as_u64_small by (unfold is_u64; lia). apply to_dma_low. unfold is_pa. lia.
Qed.

Lemma store_le_frame n l r addr v b r' a : lmem_wf l -> 0 <= addr ->
  store_le n l r addr v = (b, r') -> ~ in_lmem l a -> ldb r' a = ldb r a.
Proof.
  intros Hw Ha E Hn. unfold store_le in E. destruct (check l addr (Z.of_nat n)) eqn:Hc; cbn in E; injection E as <- <-; [|done].
  destruct (lmem_addr l addr (Z.of_nat n) Hw Ha ltac:(lia) Hc) as [E1 E2]. unfold kst. rewrite E1.
  apply ldb_st_other. unfold in_lmem in Hn. lia.
Qed.

Lemma write_bytes_frame l r addr data b r' a : lmem_wf l -> 0 <= addr ->
  write_bytes l r addr data = (b, r') -> ~ in_lmem l a -> ldb r' a = ldb r a.
Proof.
  intros Hw Ha E Hn. unfold write_bytes in E. destruct (check _ _ _) eqn:Hc; cbn in E; injection E as <- <-; [|done].
  destruct (lmem_addr l addr (Z.of_nat (length data)) Hw Ha ltac:(lia) Hc) as [E1 E2]. unfold kcopy. rewrite E1, ldb_store_bytes.
  case_decide; [|done]. exfalso. unfold in_lmem in Hn. lia.
Qed.

(** A store that succeeds is read back by the load of the same width. *)
Lemma load_store_le n l r addr v r' : lmem_wf l -> 0 <= addr ->
  store_le n l r addr v = (true, r') -> load_le n l r' addr = Some (v mod 256 ^ Z.of_nat n).
Proof.
  intros Hw Ha E. unfold store_le in E. unfold load_le. destruct (check _ _ _); [|done].
  injection E as <-. cbn. unfold kld, kst. by rewrite ld_st_same.
Qed.

Lemma LinearMemory_new_ok m n : pages_wf (pg m) -> 0 <= n ->
  exists r m', LinearMemory_new m n = Done (r, m') /\ pages_wf (pg m') /\
    match r with
    | Some l => lmem_wf l /\
        (forall a, base l <= a < base l + cap_pages l * WASM_PAGE_SIZE -> ldb (ram m') a = 0) /\
        (forall a, ~ (base l <= a < base l + cap_pages l * WASM_PAGE_SIZE) -> ldb (ram m') a = ldb (ram m) a) /\
        exists s, base l = page_addr (pg m) s /\ first_fit (pg m) (cap_pages l * 16) s
    | None => m' = m
    end.
Proof.
  intros Hwf Hn. unfold LinearMemory_new. set (cap := Z.min (Z.max n 1) WASM_MAX_PAGES).
  assert (Hc : 0 < cap <= 64) by (unfold cap, WASM_MAX_PAGES; lia).
  change KERNEL_PAGES_PER_WASM_PAGE with 16.
  destruct (alloc_pages_correct m (cap * 16) Hwf ltac:(lia)) as (r & m' & -> & Hs & Hwf').
  cbn [mbind outcome_bind]. destruct r as [b|]; [|exists None, m'; by destruct Hs].
  destruct Hs as (s & Hff & -> & _ & _ & _ & _ & Hr). pose proof Hff as (Hs0 & Hs1 & _).
  destruct (page_addr_pa (pg m) s Hwf ltac:(lia)) as [Hpa _].
  destruct (page_addr_pa (pg m) (s + cap * 16) Hwf ltac:(lia)) as [_ Htop].
  eexists _, _. split; [reflexivity|]. split; [done|]. cbn [base cap_pages lpages ram].
  unfold kzero. rewrite to_dma_low, Hr by done.
  split; [|split; [|split]]; [|intros a Ha..|by exists s].
  - split; cbn [base cap_pages lpages]; unfold page_addr, is_pa, WASM_MAX_PAGES, WASM_PAGE_SIZE, PAGE_SIZE in *; lia.
  - rewrite ldb_zero_range. by rewrite decide_True.
  - rewrite !ldb_zero_range. rewrite !decide_False; [done|..]; unfold WASM_PAGE_SIZE, PAGE_SIZE in *; lia.
Qed.
