(* ===== verification/WasmNum.v ===== *)
(** * Integer instructions of the WASM interpreter (kernel/src/wasm/interp.rs)

    The value of each one- and two-operand instruction as a function of the
    64-bit stack slots, one table row per arm of [step_frame]. *)

From stdpp Require Import base numbers list strings.
From Stdlib Require Import ZArith Lia.
From S2P Require Import Prelude Machine PageAlloc Vmm Ipc Task Sched Syscall WasmParse.

(** ** Rust's integer methods *)

Definition leading_zeros (w x : Z) : Z := if x =? 0 then w else w - 1 - Z.log2 x.

Fixpoint count_ones (n : nat) (x : Z) : Z :=
  match n with
  | O => 0
  | S n' => (if Z.testbit x 0 then 1 else 0) + count_ones n' (Z.shiftr x 1)
  end.

Definition wrapping_shl (w x n : Z) : Z := wrap w (Z.shiftl x (n mod w)).
(** Logical on an unsigned [x], arithmetic on a signed one. *)
Definition wrapping_shr (w x n : Z) : Z := Z.shiftr x (n mod w).

Definition wrapping_div (w a b : Z) : Z := signed w (Z.quot a b).
Definition wrapping_rem (w a b : Z) : Z := Z.rem a b.

Definition b2u (b : bool) : Z := if b then 1 else 0.

(** ** One operand *)

Definition unops : list (Z * (Z -> Z)) :=
  [ (0x45, fun a => b2u (as_i32 a =? 0));
    (0x50, fun a => b2u (as_i64 a =? 0));
    (0x67, fun a => leading_zeros 32 (as_u32 a));
    (0x68, fun a => trailing_zeros 32 (as_u32 a));
    (0x69, fun a => count_ones 32 (as_u32 a));
    (0x79, fun a => leading_zeros 64 a);
    (0x7A, fun a => trailing_zeros 64 a);
    (0x7B, fun a => count_ones 64 a);
    (0xA7, fun a => as_u32 a);
    (0xA8, fun a => as_u64 (as_i32 (as_i64 a)));
    (0xA9, fun a => Z.land a 0xFFFFFFFF);
    (0xAA, fun a => as_u64 (as_i32 (as_i64 a)));
    (0xAB, fun a => Z.land a 0xFFFFFFFF);
    (0xAC, fun a => as_u64 (as_i32 a));
    (0xAD, fun a => as_u32 a);
    (0xBC, fun a => Z.land a 0xFFFFFFFF);
    (0xC0, fun a => as_u64 (as_i8 a));
    (0xC1, fun a => as_u64 (as_i16 a));
    (0xC2, fun a => as_u64 (as_i8 a));
    (0xC3, fun a => as_u64 (as_i16 a));
    (0xC4, fun a => as_u64 (as_i32 a)) ].

(** ** Two operands: [b] is popped first *)

(** The divisions, which refuse a zero divisor. *)
Definition nonzero (b : Z) (v : Z) : result Z WasmError := if b =? 0 then Err DivisionByZero else Ok v.

Definition i32_binops : list (Z * (Z -> Z -> result Z WasmError)) :=
  [ (0x46, fun b a => Ok (b2u (as_i32 a =? as_i32 b)));
    (0x47, fun b a => Ok (b2u (negb (as_i32 a =? as_i32 b))));
    (0x48, fun b a => Ok (b2u (as_i32 a <? as_i32 b)));
    (0x49, fun b a => Ok (b2u (as_u32 a <? as_u32 b)));
    (0x4A, fun b a => Ok (b2u (as_i32 b <? as_i32 a)));
    (0x4B, fun b a => Ok (b2u (as_u32 b <? as_u32 a)));
    (0x4C, fun b a => Ok (b2u (as_i32 a <=? as_i32 b)));
    (0x4D, fun b a => Ok (b2u (as_u32 a <=? as_u32 b)));
    (0x4E, fun b a => Ok (b2u (as_i32 b <=? as_i32 a)));
    (0x4F, fun b a => Ok (b2u (as_u32 b <=? as_u32 a)));
    (0x6A, fun b a => Ok (as_u32 (as_u32 a + as_u32 b)));
    (0x6B, fun b a => Ok (as_u32 (as_u32 a - as_u32 b)));
    (0x6C, fun b a => Ok (as_u32 (as_u32 a * as_u32 b)));
    (0x6D, fun b a => nonzero (as_i32 b) (as_u64 (wrapping_div 32 (as_i32 a) (as_i32 b))));
    (0x6E, fun b a => nonzero (as_u32 b) (as_u32 a / as_u32 b));
    (0x6F, fun b a => nonzero (as_i32 b) (as_u64 (wrapping_rem 32 (as_i32 a) (as_i32 b))));
    (0x70, fun b a => nonzero (as_u32 b) (as_u32 a mod as_u32 b));
    (0x71, fun b a => Ok (Z.land (as_u32 a) (as_u32 b)));
    (0x72, fun b a => Ok (Z.lor (as_u32 a) (as_u32 b)));
    (0x73, fun b a => Ok (Z.lxor (as_u32 a) (as_u32 b)));
    (0x74, fun b a => Ok (wrapping_shl 32 (as_u32 a) (as_u32 b)));
    (0x75, fun b a => Ok (as_u64 (wrapping_shr 32 (as_i32 a) (as_u32 b))));
    (0x76, fun b a => Ok (wrapping_shr 32 (as_u32 a) (as_u32 b)));
    (0x77, fun b a => Ok (rotate_left 32 (as_u32 a) (as_u32 b)));
    (0x78, fun b a => Ok (rotate_right 32 (as_u32 a) (as_u32 b))) ].

Definition i64_binops : list (Z * (Z -> Z -> result Z WasmError)) :=
  [ (0x51, fun b a => Ok (b2u (as_i64 a =? as_i64 b)));
    (0x52, fun b a => Ok (b2u (negb (as_i64 a =? as_i64 b))));
    (0x53, fun b a => Ok (b2u (as_i64 a <? as_i64 b)));
    (0x54, fun b a => Ok (b2u (a <? b)));
    (0x55, fun b a => Ok (b2u (as_i64 b <? as_i64 a)));
    (0x56, fun b a => Ok (b2u (b <? a)));
    (0x57, fun b a => Ok (b2u (as_i64 a <=? as_i64 b)));
    (0x58, fun b a => Ok (b2u (a <=? b)));
    (0x59, fun b a => Ok (b2u (as_i64 b <=? as_i64 a)));
    (0x5A, fun b a => Ok (b2u (b <=? a)));
    (0x7C, fun b a => Ok (a +u b));
    (0x7D, fun b a => Ok (a -u b));
    (0x7E, fun b a => Ok (a *u b));
    (0x7F, fun b a => nonzero (as_i64 b) (as_u64 (wrapping_div 64 (as_i64 a) (as_i64 b))));
    (0x80, fun b a => nonzero b (a / b));
    (0x81, fun b a => nonzero (as_i64 b) (as_u64 (wrapping_rem 64 (as_i64 a) (as_i64 b))));
    (0x82, fun b a => nonzero b (a mod b));
    (0x83, fun b a => Ok (Z.land a b));
    (0x84, fun b a => Ok (Z.lor a b));
    (0x85, fun b a => Ok (Z.lxor a b));
    (0x86, fun b a => Ok (wrapping_shl 64 a (as_u32 b)));
    (0x87, fun b a => Ok (as_u64 (wrapping_shr 64 (as_i64 a) (as_u32 b))));
    (0x88, fun b a => Ok (wrapping_shr 64 a (as_u32 b)));
    (0x89, fun b a => Ok (rotate_left 64 a (as_u32 b)));
    (0x8A, fun b a => Ok (rotate_right 64 a (as_u32 b))) ].

(** The row of an opcode. *)
Fixpoint row {A} (op : Z) (l : list (Z * A)) : option A :=
  match l with
  | [] => None
  | (k, a) :: l' => if op =? k then Some a else row op l'
  end.

Definition unop (op : Z) : option (Z -> Z) :=
  if (0xAE <=? op) && (op <=? 0xBB) || (0xBD <=? op) && (op <=? 0xBF) then Some (fun a => a)
  else if (0x8B <=? op) && (op <=? 0xA6) then Some (fun _ => 0)
  else row op unops.

Definition binop (op : Z) : option (Z -> Z -> result Z WasmError) :=
  if (0x5B <=? op) && (op <=? 0x66) then Some (fun _ _ => Ok 0)
  else row op (i32_binops ++ i64_binops).

(** ** Memory instructions *)

(** Width and extension of a load. *)
Definition loads : list (Z * (nat * (Z -> Z))) :=
  [ (0x28, (4%nat, fun v => v)); (0x29, (8%nat, fun v => v));
    (0x2C, (1%nat, fun v => as_u64 (as_i8 v))); (0x2D, (1%nat, fun v => v));
    (0x2E, (2%nat, fun v => as_u64 (as_i16 v))); (0x2F, (2%nat, fun v => v));
    (0x30, (1%nat, fun v => as_u64 (as_i8 v))); (0x31, (1%nat, fun v => v));
    (0x32, (2%nat, fun v => as_u64 (as_i16 v))); (0x33, (2%nat, fun v => v));
    (0x34, (4%nat, fun v => as_u64 (as_i32 v))); (0x35, (4%nat, fun v => v)) ].

(** Width of a store. *)
Definition stores : list (Z * nat) :=
  [ (0x36, 4%nat); (0x37, 8%nat); (0x3A, 1%nat); (0x3B, 2%nat); (0x3C, 1%nat); (0x3D, 2%nat); (0x3E, 4%nat) ].
