(* ===== verification/WasmScan.v ===== *)
(** * Control-flow scanning in the WASM interpreter (kernel/src/wasm/interp.rs)

    [find_end] and [find_else] look for the end of a block by walking over the
    raw bytecode and skipping immediates.  They always return, and on the code of
    a structured instruction sequence they find exactly its end. *)

From stdpp Require Import base numbers list strings.
From Stdlib Require Import ZArith Lia.
From S2P Require Import Prelude Machine PageAlloc Syscall WasmParse WasmParseProofs WasmLoad.

(** ** The scanners *)

(** [if let Some((_, n)) = read(code, i) { i += n; }] *)
Definition skip_leb (read : list Z -> nat -> outcome (option (Z * nat))) (code : list Z) (i : nat) : outcome nat :=
  r ← read code i; Done (match r with Some (_, n) => (i + n)%nat | None => i end).

(** [for _ in 0..n { skip }] *)
Fixpoint skip_many (n : nat) (code : list Z) (i : nat) : outcome nat :=
  match n with
  | O => Done i
  | S n' => i ← skip_leb read_leb128_u32 code i; skip_many n' code i
  end.

(** The block type after [block], [loop] and [if]. *)
Definition skip_blocktype (code : list Z) (i : nat) : outcome nat :=
  if (i <? length code)%nat then
    b ← index code i;
    if (b =? 0x40) || in_range 0x7C b 0x7F then Done (S i) else skip_leb read_leb128_i32 code i
  else Done i.

(** The operands of every other instruction. *)
Definition skip_operands (op : Z) (code : list Z) (i : nat) : outcome nat :=
  if (op =? 0x0C) || (op =? 0x0D) then skip_leb read_leb128_u32 code i
  else if op =? 0x0E then
    r ← read_leb128_u32 code i;
    match r with
    | Some (cnt, n) => skip_many (Z.to_nat (cnt + 1)) code (i + n)
    | None => Done i
    end
  else if op =? 0x10 then skip_leb read_leb128_u32 code i
  else if op =? 0x11 then i ← skip_leb read_leb128_u32 code i; skip_leb read_leb128_u32 code i
  else if in_range 0x20 op 0x24 then skip_leb read_leb128_u32 code i
  else if in_range 0x28 op 0x3E then i ← skip_leb read_leb128_u32 code i; skip_leb read_leb128_u32 code i
  else if (op =? 0x3F) || (op =? 0x40) then Done (S i)
  else if op =? 0x41 then skip_leb read_leb128_i32 code i
  else if op =? 0x42 then skip_leb read_leb128_i64 code i
  else if op =? 0x43 then Done (i + 4)%nat
  else if op =? 0x44 then Done (i + 8)%nat
  else Done i.

Definition is_block (op : Z) : bool := in_range 0x02 op 0x04.

(** The [while i < code.len()] loops; every round consumes a byte, so [length code]
    rounds are enough. *)
Fixpoint find_end_loop (fuel : nat) (code : list Z) (depth : Z) (i : nat) : outcome (result nat WasmError) :=
  if (length code <=? i)%nat then Done (Err (Trap "find_end: no matching end"))
  else match fuel with
  | O => Panic
  | S f =>
      op ← index code i;
      let i := S i in
      if is_block op then i ← skip_blocktype code i; find_end_loop f code (depth +u 1) i
      else if op =? 0x0B then
        let depth := depth -u 1 in
        if depth =? 0 then Done (Ok (i - 1)%nat) else find_end_loop f code depth i
      else i ← skip_operands op code i; find_end_loop f code depth i
  end.

Definition find_end (code : list Z) (start : nat) : outcome (result nat WasmError) :=
  find_end_loop (length code) code 1 start.

Fixpoint find_else_loop (fuel : nat) (code : list Z) (depth : Z) (i : nat) : outcome (option nat) :=
  if (length code <=? i)%nat then Done None
  else match fuel with
  | O => Panic
  | S f =>
      op ← index code i;
      let i := S i in
      if is_block op then i ← skip_blocktype code i; find_else_loop f code (depth +u 1) i
      else if op =? 0x05 then
        if depth =? 1 then Done (Some (i - 1)%nat) else find_else_loop f code depth i
      else if op =? 0x0B then
        let depth := depth -u 1 in
        if depth =? 0 then Done None else find_else_loop f code depth i
      else i ← skip_operands op code i; find_else_loop f code depth i
  end.

Definition find_else (code : list Z) (start : nat) : outcome (option nat) :=
  find_else_loop (length code) code 1 start.

(** ** They return *)

#[local] Opaque read_leb128_u32 read_leb128_i32 read_leb128_i64.

Lemma skip_leb_total read code i : reads read -> exists j, skip_leb read code i = Done j /\ (i <= j)%nat.
Proof.
  intros Hr. unfold skip_leb. destruct (Hr code i) as (r & -> & H). cbn [mbind outcome_bind]. eexists. split; [reflexivity|].
  destruct r as [[v n]|]; lia.
Qed.

Lemma skip_many_total n code i : exists j, skip_many n code i = Done j /\ (i <= j)%nat.
Proof.
  revert i. induction n as [|n IH]; intros i; cbn [skip_many]; [by eexists|].
  destruct (skip_leb_total read_leb128_u32 code i reads_u32) as (j & -> & Hj). cbn [mbind outcome_bind].
  destruct (IH j) as (j' & -> & Hj'). eexists. split; [reflexivity|lia].
Qed.

Lemma skip_blocktype_total code i : exists j, skip_blocktype code i = Done j /\ (i <= j)%nat.
Proof.
  unfold skip_blocktype. destruct (Nat.ltb_spec i (length code)) as [Hl|Hl]; [|by eexists].
  destruct (index_ok code i Hl) as [b ->]. cbn [mbind outcome_bind]. case_if; [eexists; split; [reflexivity|lia]|].
  apply skip_leb_total, reads_i32.
Qed.

Lemma skip_two_total code i : exists j,
  (i ← skip_leb read_leb128_u32 code i; skip_leb read_leb128_u32 code i) = Done j /\ (i <= j)%nat.
Proof.
  destruct (skip_leb_total read_leb128_u32 code i reads_u32) as (j & -> & Hj). cbn [mbind outcome_bind].
  destruct (skip_leb_total read_leb128_u32 code j reads_u32) as (j' & -> & Hj'). eexists. split; [reflexivity|lia].
Qed.

Lemma skip_operands_total op code i : exists j, skip_operands op code i = Done j /\ (i <= j)%nat.
Proof.
  unfold skip_operands.
  case_if; [apply (skip_leb_total _ _ _ reads_u32)|]. case_if.
  { destruct (reads_u32 code i) as ([[v n]|] & -> & H); cbn [mbind outcome_bind]; [|by eexists].
    destruct (skip_many_total (Z.to_nat (v + 1)) code (i + n)) as (j & -> & Hj). eexists. split; [reflexivity|lia]. }
  case_if; [apply (skip_leb_total _ _ _ reads_u32)|]. case_if; [apply skip_two_total|].
  case_if; [apply (skip_leb_total _ _ _ reads_u32)|]. case_if; [apply skip_two_total|].
  case_if; [eexists; split; [reflexivity|lia]|]. case_if; [apply (skip_leb_total _ _ _ reads_i32)|].
  case_if; [apply (skip_leb_total _ _ _ reads_i64)|].
  do 2 (case_if; [eexists; split; [reflexivity|lia]|]). by eexists.
Qed.

Lemma find_end_loop_total fuel code depth i : (length code - i <= fuel)%nat ->
  exists r, find_end_loop fuel code depth i = Done r.
Proof.
  revert depth i. induction fuel as [|f IH]; intros depth i Hf; cbn [find_end_loop];
    destruct (Nat.leb_spec (length code) i) as [Hl|Hl]; [by eexists|lia|by eexists|].
  destruct (index_ok code i Hl) as [op ->]. cbn [mbind outcome_bind].
  destruct (skip_blocktype_total code (S i)) as (j & -> & Hj). cbn [mbind outcome_bind].
  destruct (skip_operands_total op code (S i)) as (j' & -> & Hj'). cbn [mbind outcome_bind].
  case_ifs; eauto; apply IH; lia.
Qed.

Lemma find_end_total code start : exists r, find_end code start = Done r.
Proof. apply find_end_loop_total. lia. Qed.

Lemma find_else_loop_total fuel code depth i : (length code - i <= fuel)%nat ->
  exists r, find_else_loop fuel code depth i = Done r.
Proof.
  revert depth i. induction fuel as [|f IH]; intros depth i Hf; cbn [find_else_loop];
    destruct (Nat.leb_spec (length code) i) as [Hl|Hl]; [by eexists|lia|by eexists|].
  destruct (index_ok code i Hl) as [op ->]. cbn [mbind outcome_bind].
  destruct (skip_blocktype_total code (S i)) as (j & -> & Hj). cbn [mbind outcome_bind].
  destruct (skip_operands_total op code (S i)) as (j' & -> & Hj'). cbn [mbind outcome_bind].
  case_ifs; eauto; apply IH; lia.
Qed.

Lemma find_else_total code start : exists r, find_else code start = Done r.
Proof. apply find_else_loop_total. lia. Qed.

(** ** Structured code *)

(** The bytes of a block type: empty, one value type, or a type index. *)
Inductive blocktype : list Z -> Prop :=
| bt_empty : blocktype [0x40]
| bt_value b : 0x7C <= b <= 0x7F -> blocktype [b]
| bt_index v : 0 <= v < 2 ^ 31 -> blocktype (sleb_encode 5 v).

(** The immediate bytes of an instruction that opens or closes no block. *)
Inductive immediates : Z -> list Z -> Prop :=
| im_none op : is_block op = false -> ~ 0x0B <= op <= 0x0E -> op <> 0x05 -> ~ 0x10 <= op <= 0x11 ->
    ~ 0x20 <= op <= 0x24 -> ~ 0x28 <= op <= 0x44 -> immediates op []
| im_index op v : op = 0x0C \/ op = 0x0D \/ op = 0x10 \/ 0x20 <= op <= 0x24 -> is_u32 v ->
    immediates op (uleb_encode 5 v)
| im_two op v v' : op = 0x11 \/ 0x28 <= op <= 0x3E -> is_u32 v -> is_u32 v' ->
    immediates op (uleb_encode 5 v ++ uleb_encode 5 v')
| im_table ts : 0 < Z.of_nat (length ts) <= 2 ^ 32 -> Forall is_u32 ts ->
    immediates 0x0E (uleb_encode 5 (Z.of_nat (length ts) - 1) ++ concat (uleb_encode 5 <$> ts))
| im_reserved op b : op = 0x3F \/ op = 0x40 -> immediates op [b]
| im_i32 v : - 2 ^ 31 <= v < 2 ^ 31 -> immediates 0x41 (sleb_encode 5 v)
| im_i64 v : - 2 ^ 63 <= v < 2 ^ 63 -> immediates 0x42 (sleb_encode 10 v)
| im_f32 l : length l = 4%nat -> immediates 0x43 l
| im_f64 l : length l = 8%nat -> immediates 0x44 l.

(** Instruction sequences as the binary format defines them. *)
Inductive structured : list Z -> Prop :=
| st_nil : structured []
| st_plain op imm rest : immediates op imm -> structured rest -> structured (op :: imm ++ rest)
| st_block op bt body rest : is_block op = true -> blocktype bt -> structured body -> structured rest ->
    structured (op :: bt ++ body ++ 0x0B :: rest)
| st_else bt body body' rest : blocktype bt -> structured body -> structured body' -> structured rest ->
    structured (0x04 :: bt ++ body ++ 0x05 :: body' ++ 0x0B :: rest).

Lemma skip_leb_ok read code i v n : read code i = Done (Some (v, n)) -> skip_leb read code i = Done (i + n)%nat.
Proof. unfold skip_leb. by intros ->. Qed.

Lemma skip_u32_ok code i v : is_u32 v -> at_pos code i (uleb_encode 5 v) ->
  skip_leb read_leb128_u32 code i = Done (i + length (uleb_encode 5 v))%nat.
Proof. intros Hv Hat. eapply skip_leb_ok. by apply read_u32_ok. Qed.

Lemma skip_many_ok ts code i : Forall is_u32 ts -> at_pos code i (concat (uleb_encode 5 <$> ts)) ->
  skip_many (length ts) code i = Done (i + length (concat (uleb_encode 5 <$> ts)))%nat.
Proof.
  intros Hf. revert i. induction Hf as [|v ts Hv _ IH]; intros i Hat; cbn [length skip_many fmap list_fmap concat] in *;
    [by rewrite Nat.add_0_r|].
  apply at_pos_app in Hat as [H1 H2]. rewrite (skip_u32_ok _ _ _ Hv H1). cbn [mbind outcome_bind].
  rewrite (IH _ H2), length_app. f_equal. lia.
Qed.

(** A type index does not start like the other block types. *)
Lemma type_index_head v : 0 <= v -> exists b l, sleb_encode 5 v = b :: l /\ (b =? 0x40) = false /\ in_range 0x7C b 0x7F = false.
Proof.
  intros Hv. cbn [sleb_encode]. unfold in_range. pose proof (Z.mod_pos_bound v 128 ltac:(lia)).
  destruct ((-64 <=? v) && (v <? 64)) eqn:Ev; znorm; eexists _, _; (split; [done|]); [rewrite Z.mod_small by lia|]; split; lia.
Qed.

Lemma skip_blocktype_ok bt code i : blocktype bt -> at_pos code i bt ->
  skip_blocktype code i = Done (i + length bt)%nat.
Proof.
  intros Hb Hat. unfold skip_blocktype. pose proof (at_pos_len _ _ _ Hat).
  destruct Hb as [|b0 Hb0|v Hv].
  1, 2: destruct (at_pos_index _ _ _ _ Hat) as [_ ->]; cbn [mbind outcome_bind length] in *.
  - rewrite (proj2 (Nat.ltb_lt _ _)) by lia. cbn. f_equal. lia.
  - rewrite (proj2 (Nat.ltb_lt _ _)) by lia. unfold in_range.
    rewrite (proj2 (Z.leb_le _ _)), (proj2 (Z.leb_le _ _)), orb_true_r by lia. f_equal. lia.
  - destruct (type_index_head v) as (b & l & E & H1 & H2); [lia|].
    pose proof Hat as Hat'. rewrite E in Hat'. destruct (at_pos_index _ _ _ _ Hat') as [Hl ->].
    rewrite (proj2 (Nat.ltb_lt _ _)) by (apply Nat.leb_gt in Hl; lia). cbn [mbind outcome_bind]. rewrite H1, H2.
    eapply skip_leb_ok, read_i32_ok; [lia|done].
Qed.

(** Such an instruction is no bracket, so the scanners take their last branch. *)
Lemma immediates_plain op imm : immediates op imm -> is_block op = false /\ op <> 0x05 /\ op <> 0x0B.
Proof. inversion 1; subst; unfold is_block, in_range in *; repeat split; lia. Qed.

(** Resolve the tests of [skip_operands] on an opcode with known bounds. *)
Ltac op_tests := unfold skip_operands, in_range;
  repeat match goal with |- context [if ?b then _ else _] =>
    first [replace b with true by lia | replace b with false by lia]; cbn [orb andb] end.

Lemma skip_operands_ok op imm code i : immediates op imm -> at_pos code i imm ->
  skip_operands op code i = Done (i + length imm)%nat.
Proof.
  intros Hi Hat. destruct Hi as [op Hb ? ? ? ? ?|op v Hop Hv|op v v' Hop Hv Hv'|ts Hl Hts|op b Hop|v Hv|v Hv|l Hl|l Hl];
    try (op_tests; cbn [length]; f_equal; lia).
  - destruct Hop as [->|[->|[->|Hop]]]; op_tests; by apply skip_u32_ok.
  - apply at_pos_app in Hat as [H1 H2].
    destruct Hop as [->|Hop]; op_tests; rewrite (skip_u32_ok _ _ _ Hv H1); cbn [mbind outcome_bind];
      rewrite (skip_u32_ok _ _ _ Hv' H2), length_app; f_equal; lia.
  - apply at_pos_app in Hat as [H1 H2]. op_tests. assert (Hcnt : is_u32 (Z.of_nat (length ts) - 1)) by (unfold is_u32; lia).
    rewrite (read_u32_ok _ _ _ Hcnt H1). cbn [mbind outcome_bind].
    replace (Z.to_nat (Z.of_nat (length ts) - 1 + 1)) with (length ts) by lia.
    rewrite (skip_many_ok _ _ _ Hts H2), length_app. f_equal. lia.
  - op_tests. eapply skip_leb_ok. by apply read_i32_ok.
  - op_tests. eapply skip_leb_ok. by apply read_i64_ok.
Qed.

(** ** Walking over structured code

    Both scanners are instances of one loop: on a bracket they change the depth,
    on [else] and [end] they may stop. *)

(** What a scan answers from [(d, i)] it answers from [(d', j)]. *)
Definition passes (code : list Z) (scan : nat -> Z -> nat -> Prop) (d : Z) (i : nat) (d' : Z) (j : nat) : Prop :=
  forall f, (length code - i <= f)%nat -> exists f', (length code - j <= f')%nat /\ (scan f' d' j -> scan f d i).

Lemma passes_refl code scan d i : passes code scan d i d i.
Proof. intros f Hf. eauto. Qed.

Lemma passes_trans code scan d i d' j d'' k :
  passes code scan d i d' j -> passes code scan d' j d'' k -> passes code scan d i d'' k.
Proof.
  intros H1 H2 f Hf. destruct (H1 f Hf) as (f1 & Hf1 & I1). destruct (H2 f1 Hf1) as (f2 & Hf2 & I2). eauto.
Qed.

(** One round of the loop at the instruction [op]. *)
Lemma passes_round code scan op l d i d' j : at_pos code i (op :: l) -> (i < j)%nat ->
  (forall f, scan f d' j -> scan (S f) d i) -> passes code scan d i d' j.
Proof.
  intros Hat Hij Hstep f Hf. pose proof (at_pos_len _ _ _ Hat) as Hl. cbn [length] in Hl.
  destruct f as [|f]; [lia|]. exists f. split; [lia|apply Hstep].
Qed.

(** What a scanner does in one round. *)
Record scanner (code : list Z) (scan : nat -> Z -> nat -> Prop) : Prop := {
  sc_plain f op imm d i : immediates op imm -> at_pos code i (op :: imm) ->
    scan f d (S i + length imm)%nat -> scan (S f) d i;
  sc_open f op bt d i : is_block op = true -> blocktype bt -> at_pos code i (op :: bt) ->
    scan f (d +u 1) (S i + length bt)%nat -> scan (S f) d i;
  sc_else f d i : 1 < d -> at_pos code i [0x05] -> scan f d (S i) -> scan (S f) d i;
  sc_close f d i : 1 < d < 2 ^ 64 -> at_pos code i [0x0B] -> scan f (d - 1) (S i) -> scan (S f) d i;
}.

Lemma at_pos_cons code i op l rest : at_pos code i (op :: l ++ rest) ->
  at_pos code i (op :: l) /\ at_pos code (S i + length l)%nat rest.
Proof. intros [H1 H2]%(at_pos_app _ _ (op :: l)). split; [done|]. by rewrite Nat.add_succ_comm. Qed.

Section Walk.
Context (code : list Z) (scan : nat -> Z -> nat -> Prop) (Hsc : scanner code scan).

Lemma passes_plain op imm d i : immediates op imm -> at_pos code i (op :: imm) ->
  passes code scan d i d (S i + length imm).
Proof. intros Him Hat. apply (passes_round _ _ _ _ _ _ _ _ Hat); [lia|]. intros f. by apply (sc_plain _ _ Hsc _ op). Qed.

Lemma passes_open op bt d i : is_block op = true -> blocktype bt -> at_pos code i (op :: bt) ->
  1 <= d -> d + 1 < 2 ^ 64 -> passes code scan d i (d + 1) (S i + length bt).
Proof.
  intros Hop Hbt Hat Hd Hb. apply (passes_round _ _ _ _ _ _ _ _ Hat); [lia|]. intros f.
  rewrite <- (as_u64_small (d + 1)) by (unfold is_u64; lia). by apply (sc_open _ _ Hsc _ op).
Qed.

Lemma passes_else d i : 1 < d -> at_pos code i [0x05] -> passes code scan d i d (S i).
Proof. intros Hd Hat. apply (passes_round _ _ _ _ _ _ _ _ Hat); [lia|]. intros f. by apply (sc_else _ _ Hsc). Qed.

Lemma passes_close d i : 1 <= d -> d + 1 < 2 ^ 64 -> at_pos code i [0x0B] -> passes code scan (d + 1) i d (S i).
Proof.
  intros Hd Hb Hat. apply (passes_round _ _ _ _ _ _ _ _ Hat); [lia|]. intros f.
  replace d with (d + 1 - 1) at 1 by lia. apply (sc_close _ _ Hsc); [lia|done].
Qed.

(** A scanner passes over structured code and is at the same depth behind it. *)
Lemma structured_passes body : structured body ->
  forall d i, 1 <= d -> d + Z.of_nat (length body) < 2 ^ 64 -> at_pos code i body ->
  passes code scan d i d (i + length body).
Proof.
  induction 1 as [|op imm rest Him _ IH|op bt body rest Hop Hbt _ IH1 _ IH2
    |bt body body' rest Hbt _ IH1 _ IH2 _ IH3]; intros d i Hd Hb Hat; cbn [length] in *;
    repeat (rewrite ?length_app in *; cbn [length] in * ).
  - rewrite Nat.add_0_r. apply passes_refl.
  - apply at_pos_cons in Hat as [H1 H2]. eapply passes_trans; [apply (passes_plain _ _ _ _ Him H1)|].
    replace (i + S (length imm + length rest))%nat with (S i + length imm + length rest)%nat by lia.
    apply IH; [lia..|done].
  - apply at_pos_cons in Hat as [H1 H2]. apply at_pos_app in H2 as [H2 H3].
    apply (at_pos_cons _ _ _ []) in H3 as [H3 H4]. cbn [length] in H4. rewrite Nat.add_0_r in H4.
    eapply passes_trans; [apply (passes_open op bt); [done..|lia|lia]|].
    eapply passes_trans; [apply IH1; [lia..|done]|]. eapply passes_trans; [apply passes_close; [lia..|done]|].
    replace (i + _)%nat with (S (S i + length bt + length body) + length rest)%nat by lia. apply IH2; [lia..|done].
  - apply at_pos_cons in Hat as [H1 H2]. apply at_pos_app in H2 as [H2 H3].
    apply (at_pos_cons _ _ _ []) in H3 as [H3 H4]. cbn [length] in H4. rewrite Nat.add_0_r in H4.
    apply at_pos_app in H4 as [H4 H5]. apply (at_pos_cons _ _ _ []) in H5 as [H5 H6]. cbn [length] in H6. rewrite Nat.add_0_r in H6.
    eapply passes_trans; [apply (passes_open 0x04 bt); [done..|lia|lia]|].
    eapply passes_trans; [apply IH1; [lia..|done]|]. eapply passes_trans; [apply passes_else; [lia|done]|].
    eapply passes_trans; [apply IH2; [lia..|done]|]. eapply passes_trans; [apply passes_close; [lia..|done]|].
    replace (i + _)%nat with (S (S (S i + length bt + length body) + length body') + length rest)%nat by lia.
    apply IH3; [lia..|done].
Qed.

End Walk.

(** ** The two scanners *)

Lemma at_pos_op code i op l : at_pos code i (op :: l) ->
  (length code <=? i)%nat = false /\ index code i = Done op /\ at_pos code (S i) l.
Proof. intros Hat. destruct (at_pos_index _ _ _ _ Hat). by apply at_pos_head in Hat as (_ & _ & ?). Qed.

(** Enter a round at the instruction that stands at the position. *)
Ltac enter_round Hat Hl := apply at_pos_op in Hat as (El & Ei & Hl);
  cbn [find_end_loop find_else_loop]; rewrite El, Ei; cbn [mbind outcome_bind].

Lemma scanner_end code r : scanner code (fun f d i => find_end_loop f code d i = r).
Proof.
  split.
  - intros f op imm d i Him Hat Hr. enter_round Hat Hl. destruct (immediates_plain _ _ Him) as (-> & _ & Hn).
    rewrite (proj2 (Z.eqb_neq _ _) Hn). by rewrite (skip_operands_ok _ _ _ _ Him Hl).
  - intros f op bt d i Hop Hbt Hat Hr. enter_round Hat Hl. rewrite Hop. by rewrite (skip_blocktype_ok _ _ _ Hbt Hl).
  - intros f d i Hd Hat Hr. by enter_round Hat Hl.
  - intros f d i Hd Hat Hr. enter_round Hat Hl. cbn -[Z.sub]. rewrite as_u64_small by (unfold is_u64; lia).
    by rewrite (proj2 (Z.eqb_neq _ _)) by lia.
Qed.

Lemma scanner_else code r : scanner code (fun f d i => find_else_loop f code d i = r).
Proof.
  split.
  - intros f op imm d i Him Hat Hr. enter_round Hat Hl. destruct (immediates_plain _ _ Him) as (-> & Hn & Hn').
    rewrite (proj2 (Z.eqb_neq _ _) Hn), (proj2 (Z.eqb_neq _ _) Hn'). by rewrite (skip_operands_ok _ _ _ _ Him Hl).
  - intros f op bt d i Hop Hbt Hat Hr. enter_round Hat Hl. rewrite Hop. by rewrite (skip_blocktype_ok _ _ _ Hbt Hl).
  - intros f d i Hd Hat Hr. enter_round Hat Hl. cbn -[Z.sub]. by rewrite (proj2 (Z.eqb_neq _ _)) by lia.
  - intros f d i Hd Hat Hr. enter_round Hat Hl. cbn -[Z.sub]. rewrite as_u64_small by (unfold is_u64; lia).
    by rewrite (proj2 (Z.eqb_neq _ _)) by lia.
Qed.

Lemma passes_scan code (scan : nat -> Z -> nat -> Prop) c i j : passes code scan 1 i 1 j ->
  at_pos code j [c] -> (forall f, scan (S f) 1 j) -> scan (length code) 1 i.
Proof.
  intros Hp Hat Hend. destruct (Hp (length code)) as (f' & Hf' & Himp); [lia|].
  apply Himp. destruct f' as [|f']; [|by apply Hend]. pose proof (at_pos_len _ _ _ Hat) as H3. cbn [length] in H3. lia.
Qed.

(** A scan from the start of structured code gets to its end. *)
Lemma scan_reaches code scan body c i : scanner code scan -> structured body -> Z.of_nat (length body) < 2 ^ 63 ->
  at_pos code i (body ++ [c]) -> (forall f, scan (S f) 1 (i + length body)%nat) -> scan (length code) 1 i.
Proof.
  intros Hsc Hb Hl [H1 H2]%at_pos_app. apply (passes_scan _ _ c); [|done].
  apply structured_passes; [done..|lia|lia|done].
Qed.

Lemma find_end_at code i body : structured body -> Z.of_nat (length body) < 2 ^ 63 ->
  at_pos code i (body ++ [0x0B]) -> find_end code i = Done (Ok (i + length body)%nat).
Proof.
  intros Hb Hl Hat. apply (scan_reaches _ _ _ _ _ (scanner_end _ _) Hb Hl Hat). intros f.
  apply at_pos_app in Hat as [_ Hat]. enter_round Hat Hl'. cbn. do 2 f_equal. lia.
Qed.

Lemma find_else_none code i body : structured body -> Z.of_nat (length body) < 2 ^ 63 ->
  at_pos code i (body ++ [0x0B]) -> find_else code i = Done None.
Proof.
  intros Hb Hl Hat. apply (scan_reaches _ _ _ _ _ (scanner_else _ _) Hb Hl Hat). intros f.
  apply at_pos_app in Hat as [_ Hat]. by enter_round Hat Hl'.
Qed.

Lemma find_else_at code i body : structured body -> Z.of_nat (length body) < 2 ^ 63 ->
  at_pos code i (body ++ [0x05]) -> find_else code i = Done (Some (i + length body)%nat).
Proof.
  intros Hb Hl Hat. apply (scan_reaches _ _ _ _ _ (scanner_else _ _) Hb Hl Hat). intros f.
  apply at_pos_app in Hat as [_ Hat]. enter_round Hat Hl'. cbn. do 2 f_equal. lia.
Qed.

(** From a branch of [if] that an [else] closes, [find_end] goes on to the [end]. *)
Lemma find_end_over code i body body' : structured body -> structured body' ->
  Z.of_nat (length (body ++ 0x05 :: body')) < 2 ^ 63 -> at_pos code i (body ++ 0x05 :: body' ++ [0x0B]) ->
  find_end code i = Done (Ok (S (i + length body) + length body')%nat).
Proof.
  intros Hb Hb' Hl [H1 H2]%at_pos_app. pose proof (at_pos_cons _ _ _ [] _ H2) as [H3 H4]. cbn [length] in H4.
  rewrite Nat.add_0_r in H4. apply at_pos_app in H4 as [H4 H5]. rewrite length_app in *. cbn [length] in *.
  set (r := Done (Ok _)).
  apply (passes_scan _ (fun f d i => find_end_loop f code d i = r) 0x0B _ (S (i + length body) + length body')); [|done|].
  - eapply passes_trans; [apply (structured_passes _ _ (scanner_end _ r) body); [done|lia|lia|done]|].
    eapply passes_trans; [eapply (passes_round _ _ _ _ 1 _ 1 (S (i + length body))); [exact H3|lia|]
      |apply structured_passes; [apply (scanner_end _ r)|done|lia|lia|done]].
    intros f Hf. by enter_round H3 Hl'.
  - intros f. enter_round H5 Hl'. cbn. unfold r. do 2 f_equal; lia.
Qed.

(** the scanners find the block structure.  In front of a structured
    instruction sequence that an [end] closes, [find_end] answers the position of
    that [end] and [find_else] answers that there is no [else]; in front of one
    that an [else] closes, [find_else] answers the position of that [else], and
    [find_end] the position of the [end] behind the other branch.  Nested blocks and immediates that look like opcodes do not mislead them. *)
Theorem scanners_find_structure pre body body' post :
  structured body -> structured body' -> Z.of_nat (length (body ++ 0x05 :: body')) < 2 ^ 63 ->
  let i := (length pre + length body)%nat in
  find_end (pre ++ body ++ 0x0B :: post) (length pre) = Done (Ok i) /\
  find_else (pre ++ body ++ 0x0B :: post) (length pre) = Done None /\
  find_else (pre ++ body ++ 0x05 :: body' ++ 0x0B :: post) (length pre) = Done (Some i) /\
  find_end (pre ++ body ++ 0x05 :: body' ++ 0x0B :: post) (length pre) = Done (Ok (S i + length body')%nat).
Proof.
  intros Hb Hb' Hl i.
  assert (Hat : forall c post, at_pos (pre ++ body ++ c :: post) (length pre) (body ++ [c]))
    by (intros c post'; exists pre, post'; by rewrite <- !app_assoc).
  assert (Z.of_nat (length body) < 2 ^ 63) by (rewrite length_app in Hl; lia).
  split; [|split; [|split]]; [by apply find_end_at|by apply (find_else_none _ _ body)|by apply find_else_at|].
  apply find_end_over; [done..|].
  exists pre, post. split; [|done]. by do 2 (rewrite <- ?app_assoc, <- ?app_comm_cons).
Qed.

(** [if (result i32) (i32.const 11) else (block nop end) end]: the immediate 11 is the
    opcode of [end]. *)
Lemma scanners_find_structure_witness :
  find_end [9; 0x04; 0x7F; 0x41; 0x0B; 0x05; 0x02; 0x40; 0x01; 0x0B; 0x0B; 0x0B; 7] 1 = Done (Ok 11%nat).
Proof.
  apply (scanners_find_structure [9] [0x04; 0x7F; 0x41; 0x0B; 0x05; 0x02; 0x40; 0x01; 0x0B; 0x0B] [] [7]);
    [|apply st_nil|simpl; lia].
  apply (st_else [0x7F] [0x41; 0x0B] [0x02; 0x40; 0x01; 0x0B] []); [apply bt_value; lia| | |apply st_nil].
  - apply (st_plain 0x41 [0x0B] []); [|apply st_nil]. apply (im_i32 0x0B). lia.
  - apply (st_block 0x02 [0x40] [0x01] []); [done|apply bt_empty| |apply st_nil].
    apply (st_plain 0x01 [] []); [|apply st_nil]. apply im_none; [done|lia..].
Defined.
