(* ===== verification/WasmInterp.v ===== *)
(** * The WASM interpreter (kernel/src/wasm/interp.rs)

    Values, frames and labels, one instruction, the two nested loops of [call],
    the host imports, instantiation and [call_export].  A computation works on the
    interpreter and the kernel around it; it ends with a value, with an error, or
    not at all within the rounds it was given.  The value stack, the frames and
    the labels are lists whose head is the last element of the Rust vector. *)

From stdpp Require Import base numbers list gmap strings.
From Stdlib Require Import ZArith Lia.
From S2P Require Import Prelude Machine PageAlloc Vmm Ipc Task Sched Heap Elf Syscall.
From S2P Require Import WasmParse WasmMem WasmNum WasmScan.

Definition MAX_STACK_DEPTH : nat := 4096.
Definition MAX_CALL_DEPTH : nat := 256.

(** ** Data *)

Inductive LabelKind := KBlock | KLoop | KIf.

Record Label := mk_label {
  lb_kind : LabelKind;
  lb_arity : nat;
  lb_base_sp : nat;
  lb_br_target : nat;
  lb_end_pc : nat;
}.

Record Frame := mk_frame {
  fr_func_idx : Z;
  fr_pc : nat;
  fr_locals : list Z;
  fr_base_sp : nat;
  fr_labels : list Label;
}.

Definition with_pc (pc : nat) (f : Frame) : Frame :=
  mk_frame (fr_func_idx f) pc (fr_locals f) (fr_base_sp f) (fr_labels f).
Definition with_locals (l : list Z) (f : Frame) : Frame :=
  mk_frame (fr_func_idx f) (fr_pc f) l (fr_base_sp f) (fr_labels f).
Definition with_labels (l : list Label) (f : Frame) : Frame :=
  mk_frame (fr_func_idx f) (fr_pc f) (fr_locals f) (fr_base_sp f) l.

Record TableEntry := mk_entry { te_func_idx : Z; te_valid : bool }.

Inductive StepResult :=
| Continue
| Return (vals : list Z)
| Call (func_idx : Z) (args : list Z).

(** [v.get(i)] and [v.get_mut(i)] for an index of any size. *)
Definition vec_get {A} (l : list A) (i : Z) : option A :=
  if i <? Z.of_nat (length l) then l !! Z.to_nat i else None.
Definition vec_set {A} (l : list A) (i : Z) (a : A) : option (list A) :=
  if i <? Z.of_nat (length l) then Some (<[Z.to_nat i := a]> l) else None.

(** ** The rest of the kernel

    What the host imports call outside the modelled components: the console, the
    FAT32 driver, HTTP, the cycle counter, and the work of the other cores while
    this one waits for a message. *)
Class WasmHost (W : Type) := {
  uart_put : list Z -> W -> W;
  fat_open : list Z -> W -> option Z * W;
  (** descriptor and buffer size; the count and the buffer afterwards *)
  fat_read : Z -> Z -> W -> (Z * list Z) * W;
  fat_write : Z -> list Z -> W -> Z * W;
  fat_close : Z -> W -> W;
  parse_url : list Z -> option (bool * list Z * Z * list Z);
  http_get : list Z -> list Z -> Z -> Z -> W -> (HttpResult * list Z) * W;
  cntpct : W -> Z * W;
  others : kernel -> W -> kernel * W;
}.

(** The interpreter, the kernel with its heap, and the rest. *)
Record ist (H W : Type) := mk_ist {
  i_mem : LinearMemory;
  i_globals : list Z;
  i_table : list TableEntry;
  i_stack : list Z;
  i_sys : sys H;
  i_w : W;
}.
Arguments mk_ist {H W}.
Arguments i_mem {H W}.
Arguments i_globals {H W}.
Arguments i_table {H W}.
Arguments i_stack {H W}.
Arguments i_sys {H W}.
Arguments i_w {H W}.

(** ** Computations *)

(** A value, an error, or no answer within the rounds given. *)
Inductive ans (A : Type) := Val (a : A) | Fail (e : WasmError) | Wait.
Arguments Val {A}.
Arguments Fail {A}.
Arguments Wait {A}.

Definition I (H W A : Type) : Type := ist H W -> outcome (ans A * ist H W).
#[export] Instance I_ret H W : MRet (I H W) := fun A a s => Done (Val a, s).
#[export] Instance I_bind H W : MBind (I H W) := fun A B f m s =>
  match m s with
  | Done (Val a, s') => f a s'
  | Done (Fail e, s') => Done (Fail e, s')
  | Done (Wait, s') => Done (Wait, s')
  | Panic => Panic
  end.

Section Interpreter.
Context {H W : Type} `{!GlobalAlloc H} `{!WasmHost W}.
(** The executing core and the module of the interpreter. *)
Variable cpu : Z.
Variable module : WasmModule.

Local Abbreviation M := (I H W).

Definition fail {A} (e : WasmError) : M A := fun s => Done (Fail e, s).
Definition trap {A} (why : string) : M A := fail (Trap why).
Definition wait {A} : M A := fun s => Done (Wait, s).
Definition geti {A} (f : ist H W -> A) : M A := fun s => Done (Val (f s), s).
Definition modi (f : ist H W -> ist H W) : M unit := fun s => Done (Val tt, f s).
(** [o.ok_or(e)?] *)
Definition ok_or {A} (o : option A) (e : WasmError) : M A := match o with Some a => mret a | None => fail e end.
(** A pure computation that may panic. *)
Definition lift {A} (o : outcome A) : M A := fun s => match o with Done a => Done (Val a, s) | Panic => Panic end.
Definition of_result {A} (r : result A WasmError) : M A := match r with Ok a => mret a | Err e => fail e end.

Definition with_mem (l : LinearMemory) (s : ist H W) : ist H W :=
  mk_ist l (i_globals s) (i_table s) (i_stack s) (i_sys s) (i_w s).
Definition with_globals (g : list Z) (s : ist H W) : ist H W :=
  mk_ist (i_mem s) g (i_table s) (i_stack s) (i_sys s) (i_w s).
Definition with_stack (l : list Z) (s : ist H W) : ist H W :=
  mk_ist (i_mem s) (i_globals s) (i_table s) l (i_sys s) (i_w s).
Definition with_sys (x : sys H) (s : ist H W) : ist H W :=
  mk_ist (i_mem s) (i_globals s) (i_table s) (i_stack s) x (i_w s).
Definition with_w (w : W) (s : ist H W) : ist H W :=
  mk_ist (i_mem s) (i_globals s) (i_table s) (i_stack s) (i_sys s) w.

Definition i_kernel (s : ist H W) : kernel := sk (i_sys s).
Definition i_ram (s : ist H W) : gmap Z Z := ram (mach (i_kernel s)).
Definition with_kernel (k : kernel) (s : ist H W) : ist H W := with_sys (mk_sys k (sh (i_sys s))) s.
Definition with_iram (r : gmap Z Z) (s : ist H W) : ist H W := with_kernel (with_ram r (i_kernel s)) s.

(** A request to the rest of the kernel, and a kernel operation. *)
Definition host {A} (f : W -> A * W) : M A := fun s => let '(a, w) := f (i_w s) in Done (Val a, with_w w s).
Definition kernel_op {A} (f : kernel -> outcome (A * kernel)) : M A := fun s =>
  match f (i_kernel s) with Done (a, k) => Done (Val a, with_kernel k s) | Panic => Panic end.

(** ** Stack helpers *)

Definition push (v : Z) : M unit := fun s =>
  if (MAX_STACK_DEPTH <=? length (i_stack s))%nat then Done (Fail StackOverflow, s)
  else Done (Val tt, with_stack (v :: i_stack s) s).

Definition pop : M Z := fun s =>
  match i_stack s with
  | v :: l => Done (Val v, with_stack l s)
  | [] => Done (Fail (Trap "stack underflow"), s)
  end.

Definition pop2 : M (Z * Z) := b ← pop; a ← pop; mret (b, a).

(** [stack.truncate(n)] *)
Definition truncate (n : nat) : M unit :=
  modi (fun s => with_stack (drop (length (i_stack s) - n) (i_stack s)) s).

(** [stack[len - n ..].to_vec()] *)
Definition top (n : nat) (l : list Z) : list Z := rev (take n l).

Definition pop_n (n : nat) : M (list Z) :=
  l ← geti i_stack;
  if (length l <? n)%nat then trap "pop_n underflow"
  else _ ← truncate (length l - n); mret (top n l).

(** [for v in vals { push(v)?; }] *)
Fixpoint push_all (l : list Z) : M unit :=
  match l with
  | [] => mret tt
  | v :: l' => _ ← push v; push_all l'
  end.

Definition trim_stack (base_sp keep : nat) : M unit :=
  l ← geti i_stack;
  let sp := length l in
  if (sp <? base_sp)%nat then trap "trim_stack underflow"
  else if (0 <? keep)%nat && (keep <=? sp)%nat then _ ← truncate base_sp; push_all (top keep l)
  else truncate base_sp.

Definition collect_results (fr : Frame) : M (list Z) :=
  ft ← ok_or (func_type module (fr_func_idx fr)) (Trap "collect_results: no type");
  l ← geti i_stack;
  let n := length (results ft) in
  if (length l <? fr_base_sp fr + n)%nat then trap "missing results"
  else _ ← truncate (length l - n); mret (top n l).

(** The frame after a branch to the label at [depth]. *)
Definition do_br (fr : Frame) (depth : Z) : M Frame :=
  match vec_get (fr_labels fr) depth with
  | None => trap "br depth too large"
  | Some lbl =>
      _ ← trim_stack (lb_base_sp lbl) (lb_arity lbl);
      let d := Z.to_nat depth in
      let keep := match lb_kind lbl with KLoop => drop d (fr_labels fr) | _ => drop (S d) (fr_labels fr) end in
      mret (with_labels keep (with_pc (lb_br_target lbl) fr))
  end.

(** ** Immediates *)

(** [read(code, pc).ok_or(Trap(why))?]: the value and the position behind it. *)
Definition imm (read : list Z -> nat -> outcome (option (Z * nat))) (why : string) (code : list Z) (pc : nat)
  : M (Z * nat) :=
  r ← lift (read code pc);
  match r with Some (v, n) => mret (v, (pc + n)%nat) | None => trap why end.
Definition imm_u32 := imm read_leb128_u32.

Definition mem_ea (code : list Z) (pc : nat) : M (Z * nat) :=
  '(_, pc) ← imm_u32 "memarg align" code pc;
  '(offset, pc) ← imm_u32 "memarg offset" code pc;
  base ← pop;
  mret (as_u32 (as_u32 base + offset), pc).

Definition skip_memarg (code : list Z) (pc : nat) : M nat :=
  '(_, pc) ← imm_u32 "memarg" code pc;
  '(_, pc) ← imm_u32 "memarg2" code pc;
  mret pc.

(** The arity and the position behind the block type. *)
Definition parse_blocktype (code : list Z) (pc : nat) : M (nat * nat) :=
  if (length code <=? pc)%nat then trap "blocktype eof"
  else
    b ← lift (index code pc);
    if b =? 0x40 then mret (0%nat, S pc)
    else if in_range 0x7C b 0x7F then mret (1%nat, S pc)
    else
      '(ti, pc') ← imm read_leb128_i32 "blocktype leb" code pc;
      ft ← ok_or (vec_get (types module) (as_u64 ti)) (Trap "blocktype: no type");
      mret (length (results ft), pc').

(** [for _ in 0..n]: the targets of [br_table]. *)
Fixpoint br_targets (n : nat) (code : list Z) (pc : nat) : M (list Z * nat) :=
  match n with
  | O => mret ([], pc)
  | S n' =>
      '(t, pc) ← imm_u32 "br_table: bad leb2" code pc;
      '(ts, pc) ← br_targets n' code pc;
      mret (t :: ts, pc)
  end.

(** ** One instruction

    The arms of [step_frame]: the frame to continue with, and a result if the
    loop of [step_frame] ends here. *)

Definition next (fr : Frame) : M (Frame * option StepResult) := mret (fr, None).
Definition finish (fr : Frame) (r : StepResult) : M (Frame * option StepResult) := mret (fr, Some r).

Definition push_label (k : LabelKind) (arity br_target end_pc : nat) (pc : nat) (fr : Frame)
  : M (Frame * option StepResult) :=
  l ← geti i_stack;
  next (with_pc pc (with_labels (mk_label k arity (length l) br_target end_pc :: fr_labels fr) fr)).

Definition op_block (code : list Z) (fr : Frame) : M (Frame * option StepResult) :=
  '(arity, pc) ← parse_blocktype code (fr_pc fr);
  r ← lift (find_end code pc);
  end_pc ← of_result r;
  push_label KBlock arity (S end_pc) end_pc pc fr.

Definition op_loop (code : list Z) (fr : Frame) : M (Frame * option StepResult) :=
  '(_, pc) ← parse_blocktype code (fr_pc fr);
  r ← lift (find_end code pc);
  end_pc ← of_result r;
  push_label KLoop 0 pc end_pc pc fr.

Definition op_if (code : list Z) (fr : Frame) : M (Frame * option StepResult) :=
  '(arity, pc) ← parse_blocktype code (fr_pc fr);
  cond ← pop;
  r ← lift (find_end code pc);
  end_pc ← of_result r;
  if negb (as_i32 cond =? 0) then push_label KIf arity (S end_pc) end_pc pc fr
  else
    else_pc ← lift (find_else code pc);
    match else_pc with
    | Some ep => push_label KIf arity (S end_pc) end_pc (S ep) fr
    | None => next (with_pc (S end_pc) fr)
    end.

Definition op_else (fr : Frame) : M (Frame * option StepResult) :=
  match fr_labels fr with
  | lbl :: ls => next (with_pc (S (lb_end_pc lbl)) (with_labels ls fr))
  | [] => next fr
  end.

Definition op_end (fr : Frame) : M (Frame * option StepResult) :=
  match fr_labels fr with
  | lbl :: ls => _ ← trim_stack (lb_base_sp lbl) (lb_arity lbl); next (with_labels ls fr)
  | [] => vals ← collect_results fr; finish fr (Return vals)
  end.

Definition op_br_table (code : list Z) (fr : Frame) : M (Frame * option StepResult) :=
  '(cnt, pc) ← imm_u32 "br_table: bad leb" code (fr_pc fr);
  '(targets, pc) ← br_targets (Z.to_nat (cnt + 1)) code pc;
  idx ← pop;
  let depth := match vec_get (removelast targets) idx with Some d => d | None => List.last targets 0 end in
  fr ← do_br (with_pc pc fr) depth;
  next fr.

Definition op_call (code : list Z) (fr : Frame) : M (Frame * option StepResult) :=
  '(fidx, pc) ← imm_u32 "call: bad leb" code (fr_pc fr);
  ft ← ok_or (func_type module fidx) (Trap "call: unknown func");
  args ← pop_n (length (params ft));
  finish (with_pc pc fr) (Call fidx args).

Definition op_call_indirect (code : list Z) (fr : Frame) : M (Frame * option StepResult) :=
  '(type_idx, pc) ← imm_u32 "call_indirect: bad leb" code (fr_pc fr);
  '(_, pc) ← imm_u32 "call_indirect: bad leb2" code pc;
  tbl_idx ← pop;
  tbl ← geti i_table;
  entry ← ok_or (vec_get tbl tbl_idx) (Trap "call_indirect: table oob");
  if negb (te_valid entry) then trap "call_indirect: null ref"
  else
    actual_ft ← ok_or (func_type module (te_func_idx entry)) (Trap "call_indirect: no type");
    expected_ft ← ok_or (vec_get (types module) type_idx) (Trap "call_indirect: no type idx");
    if negb (length (params actual_ft) =? length (params expected_ft))%nat
       || negb (length (results actual_ft) =? length (results expected_ft))%nat
    then trap "call_indirect: type mismatch"
    else
      args ← pop_n (length (params expected_ft));
      finish (with_pc pc fr) (Call (te_func_idx entry) args).

(** The variable instructions 0x20 to 0x24. *)
Definition op_variable (op : Z) (code : list Z) (fr : Frame) : M (Frame * option StepResult) :=
  if op =? 0x20 then
    '(idx, pc) ← imm_u32 "local.get: bad leb" code (fr_pc fr);
    v ← ok_or (vec_get (fr_locals fr) idx) (Trap "local.get: oob");
    _ ← push v; next (with_pc pc fr)
  else if op =? 0x21 then
    '(idx, pc) ← imm_u32 "local.set: bad leb" code (fr_pc fr);
    v ← pop;
    l ← ok_or (vec_set (fr_locals fr) idx v) (Trap "local.set: oob");
    next (with_pc pc (with_locals l fr))
  else if op =? 0x22 then
    '(idx, pc) ← imm_u32 "local.tee: bad leb" code (fr_pc fr);
    st ← geti i_stack;
    v ← ok_or (hd_error st) (Trap "local.tee: empty");
    l ← ok_or (vec_set (fr_locals fr) idx v) (Trap "local.tee: oob");
    next (with_pc pc (with_locals l fr))
  else if op =? 0x23 then
    '(idx, pc) ← imm_u32 "global.get: bad leb" code (fr_pc fr);
    g ← geti i_globals;
    v ← ok_or (vec_get g idx) (Trap "global.get: oob");
    _ ← push v; next (with_pc pc fr)
  else
    '(idx, pc) ← imm_u32 "global.set: bad leb" code (fr_pc fr);
    v ← pop;
    g ← geti i_globals;
    g ← ok_or (vec_set g idx v) (Trap "global.set: oob");
    _ ← modi (with_globals g); next (with_pc pc fr).

(** The memory instructions 0x28 to 0x40. *)
Definition op_memory (op : Z) (code : list Z) (fr : Frame) : M (Frame * option StepResult) :=
  match row op loads, row op stores with
  | Some (n, ext), _ =>
      '(a, pc) ← mem_ea code (fr_pc fr);
      s ← geti id;
      v ← ok_or (load_le n (i_mem s) (i_ram s) a) (MemoryFault a);
      _ ← push (ext v); next (with_pc pc fr)
  | None, Some n =>
      '(a, pc) ← mem_ea code (fr_pc fr);
      v ← pop;
      s ← geti id;
      let '(ok, r) := store_le n (i_mem s) (i_ram s) a (wrap (8 * Z.of_nat n) v) in
      _ ← modi (with_iram r);
      if ok : bool then next (with_pc pc fr) else fail (MemoryFault a)
  | None, None =>
      if (op =? 0x2A) || (op =? 0x2B) then
        pc ← skip_memarg code (fr_pc fr); _ ← pop; _ ← push 0; next (with_pc pc fr)
      else if (op =? 0x38) || (op =? 0x39) then
        pc ← skip_memarg code (fr_pc fr); _ ← pop; next (with_pc pc fr)
      else if op =? 0x3F then
        l ← geti i_mem;
        _ ← push (size l); next (with_pc (S (fr_pc fr)) fr)
      else
        delta ← pop;
        l ← geti i_mem;
        let '(old, l) := grow l (as_u32 delta) in
        _ ← modi (with_mem l);
        _ ← push (as_u64 old); next (with_pc (S (fr_pc fr)) fr)
  end.

(** The constants 0x41 to 0x44. *)
Definition op_const (op : Z) (code : list Z) (fr : Frame) : M (Frame * option StepResult) :=
  if op =? 0x41 then
    '(v, pc) ← imm read_leb128_i32 "i32.const" code (fr_pc fr); _ ← push (as_u64 v); next (with_pc pc fr)
  else if op =? 0x42 then
    '(v, pc) ← imm read_leb128_i64 "i64.const" code (fr_pc fr); _ ← push (as_u64 v); next (with_pc pc fr)
  else if op =? 0x43 then _ ← push 0; next (with_pc (fr_pc fr + 4) fr)
  else _ ← push 0; next (with_pc (fr_pc fr + 8) fr).

(** The integer instructions, and the stubs of the floating-point ones. *)
Definition op_numeric (op : Z) (fr : Frame) : M (Frame * option StepResult) :=
  match unop op, binop op with
  | Some f, _ => a ← pop; _ ← push (f a); next fr
  | None, Some f => '(b, a) ← pop2; v ← of_result (f b a); _ ← push v; next fr
  | None, None => fail (Unimplemented "unknown opcode")
  end.

(** One round of the loop of [step_frame] at opcode [op], [fr_pc] behind it. *)
Definition instr (op : Z) (code : list Z) (fr : Frame) : M (Frame * option StepResult) :=
  if op =? 0x00 then trap "unreachable"
  else if op =? 0x01 then next fr
  else if op =? 0x02 then op_block code fr
  else if op =? 0x03 then op_loop code fr
  else if op =? 0x04 then op_if code fr
  else if op =? 0x05 then op_else fr
  else if op =? 0x0B then op_end fr
  else if op =? 0x0C then
    '(depth, pc) ← imm_u32 "br: bad leb" code (fr_pc fr);
    fr ← do_br (with_pc pc fr) depth; next fr
  else if op =? 0x0D then
    '(depth, pc) ← imm_u32 "br_if: bad leb" code (fr_pc fr);
    cond ← pop;
    if negb (as_i32 cond =? 0) then fr ← do_br (with_pc pc fr) depth; next fr else next (with_pc pc fr)
  else if op =? 0x0E then op_br_table code fr
  else if op =? 0x0F then vals ← collect_results fr; finish fr (Return vals)
  else if op =? 0x10 then op_call code fr
  else if op =? 0x11 then op_call_indirect code fr
  else if op =? 0x1A then _ ← pop; next fr
  else if op =? 0x1B then
    cond ← pop; b ← pop; a ← pop;
    _ ← push (if negb (as_i32 cond =? 0) then a else b); next fr
  else if in_range 0x20 op 0x24 then op_variable op code fr
  else if in_range 0x28 op 0x40 then op_memory op code fr
  else if in_range 0x41 op 0x44 then op_const op code fr
  else op_numeric op fr.

(** [step_frame]: instructions of one frame up to a call or a return. *)
Fixpoint step_frame (rounds : nat) (code : list Z) (fr : Frame) : M (Frame * StepResult) :=
  if (length code <=? fr_pc fr)%nat then vals ← collect_results fr; mret (fr, Return vals)
  else match rounds with
  | O => wait
  | S n =>
      op ← lift (index code (fr_pc fr));
      '(fr, r) ← instr op code (with_pc (S (fr_pc fr)) fr);
      match r with
      | Some r => mret (fr, r)
      | None => step_frame n code fr
      end
  end.

(** ** Host imports *)

(** [args.get(i).copied().unwrap_or(0)] *)
Definition arg (args : list Z) (i : nat) : Z := default 0 (args !! i).
Definition arg32 (args : list Z) (i : nat) : Z := as_u32 (arg args i).

(** Console output of bytes: a newline becomes CR LF. *)
Definition uart_bytes (l : list Z) : list Z := concat ((fun b => if b =? 10 then [13; 10] else [b]) <$> l).
Definition uart (l : list Z) : M unit := host (fun w => (tt, uart_put l w)).

(** The accessors of the linear memory as operations. *)
Definition lm_read (addr len : Z) : M (option (list Z)) := geti (fun s => read_bytes (i_mem s) (i_ram s) addr len).
Definition lm_write (addr : Z) (data : list Z) : M bool :=
  s ← geti id;
  let '(ok, r) := write_bytes (i_mem s) (i_ram s) addr data in
  _ ← modi (with_iram r); mret ok.
Definition lm_load32 (addr : Z) : M (option Z) := geti (fun s => load_u32 (i_mem s) (i_ram s) addr).
Definition lm_store32 (addr v : Z) : M bool :=
  s ← geti id;
  let '(ok, r) := store_u32 (i_mem s) (i_ram s) addr v in
  _ ← modi (with_iram r); mret ok.

(** An [i32] result. *)
Definition ret_i32 (v : Z) : M (list Z) := mret [as_u64 v].

Definition host_log (args : list Z) : M (list Z) :=
  b ← lm_read (arg32 args 0) (arg32 args 1);
  match b with Some l => _ ← uart (uart_bytes l); mret [] | None => mret [] end.

Definition host_send_ipc (args : list Z) : M (list Z) :=
  let ptr := arg32 args 1 in
  b ← lm_read ptr 32;
  data ← ok_or b (MemoryFault ptr);
  r ← kernel_op (fun k => send_message (arg args 0) (mk_msg (current_tid cpu k) data) k);
  mret [match r with Ok _ => 0 | Err _ => u64_max end].

Definition host_recv_ipc (args : list Z) : M (list Z) :=
  r ← kernel_op (recv_message cpu);
  match r with
  | Some msg =>
      ok ← lm_write (arg32 args 0) (data msg);
      mret [if ok : bool then 0 else u64_max]
  | None => mret [u64_max]
  end.

(** [args_sizes_get], [environ_sizes_get]: two zero words. *)
Definition host_sizes (args : list Z) : M (list Z) :=
  _ ← lm_store32 (arg32 args 0) 0; _ ← lm_store32 (arg32 args 1) 0; mret [0].

(** The loop of [fd_write] over [n] iovecs from number [i]. *)
Fixpoint fd_write_loop (n : nat) (iovs i total : Z) : M Z :=
  match n with
  | O => mret total
  | S n' =>
      let iov_base := as_u32 (iovs + as_u32 (i * 8)) in
      buf_ptr ← lm_load32 iov_base;
      buf_len ← lm_load32 (as_u32 (iov_base + 4));
      let buf_len := default 0 buf_len in
      b ← lm_read (default 0 buf_ptr) buf_len;
      match b with
      | Some l => _ ← uart (uart_bytes l); fd_write_loop n' iovs (i + 1) (as_u32 (total + buf_len))
      | None => fd_write_loop n' iovs (i + 1) total
      end
  end.

Definition host_fd_write (args : list Z) : M (list Z) :=
  let fd := as_i32 (arg args 0) in
  total ← (if (fd =? 1) || (fd =? 2)
           then fd_write_loop (Z.to_nat (arg32 args 2)) (arg32 args 1) 0 0 else mret 0);
  _ ← lm_store32 (arg32 args 3) total;
  mret [0].

Definition host_fd_read (args : list Z) : M (list Z) := _ ← lm_store32 (arg32 args 3) 0; mret [8].

Definition host_clock (args : list Z) : M (list Z) :=
  let time_ptr := arg32 args 2 in
  ticks ← geti (fun s => total_ticks (i_kernel s));
  let nanos := ticks *u 10000000 in
  _ ← lm_store32 time_ptr (as_u32 nanos);
  _ ← lm_store32 (as_u32 (time_ptr + 4)) (as_u32 (Z.shiftr nanos 32));
  mret [0].

Definition host_fdstat (args : list Z) : M (list Z) :=
  let fd := as_i32 (arg args 0) in
  mret [if (fd =? 0) || (fd =? 1) || (fd =? 2) then 0 else 8].

Definition host_file_open (args : list Z) : M (list Z) :=
  b ← lm_read (arg32 args 0) (arg32 args 1);
  match b with
  | Some l =>
      fd ← host (fat_open (if from_utf8_ok l then l else []));
      ret_i32 (match fd with Some fd => as_i32 fd | None => -1 end)
  | None => ret_i32 (-1)
  end.

Definition host_file_read (args : list Z) : M (list Z) :=
  let cap := Z.min (arg32 args 2) 4096 in
  '(n, tmp) ← host (fat_read (arg args 0) cap);
  if 0 <? n then
    slice ← lift (subslice tmp 0 (Z.to_nat n));
    ok ← lm_write (arg32 args 1) slice;
    ret_i32 (if ok : bool then as_i32 n else -1)
  else ret_i32 (as_i32 n).

Definition host_file_write (args : list Z) : M (list Z) :=
  b ← lm_read (arg32 args 1) (arg32 args 2);
  match b with
  | Some owned => n ← host (fat_write (arg args 0) owned); ret_i32 (as_i32 n)
  | None => ret_i32 (-1)
  end.

Definition host_close (rets : list Z) (args : list Z) : M (list Z) :=
  _ ← host (fun w => (tt, fat_close (arg args 0) w)); mret rets.

Definition host_yield (rets : list Z) (args : list Z) : M (list Z) :=
  _ ← kernel_op (fun k => Done (tt, yield_cpu cpu k)); mret rets.

(** [prompt_bytes.to_vec()] on the kernel heap: its address.  An empty vector
    does not allocate; a failed allocation aborts. *)
Definition vec_alloc (l : list Z) : M Z := fun s =>
  match l with
  | [] => Done (Val 1, s)
  | _ =>
      let '(p, h) := ga_alloc (sh (i_sys s)) (Z.of_nat (length l)) 1 in
      if p =? 0 then Panic
      else Done (Val p, with_sys (mk_sys (with_ram (kcopy (i_ram s) p l) (i_kernel s)) h) s)
  end.

Definition vec_drop (p : Z) (l : list Z) : M unit := fun s =>
  match l with
  | [] => Done (Val tt, s)
  | _ => Done (Val tt, with_sys (mk_sys (i_kernel s) (ga_dealloc (sh (i_sys s)) p (Z.of_nat (length l)) 1)) s)
  end.

(** The bytes the reply of the AI service points at, copied to the module. *)
Definition ai_reply (out_ptr out_max : Z) (reply : Message) : M Z :=
  let resp_ptr := le_bytes (take 8 (drop 8 (data reply))) in
  let resp_len := le_bytes (take 8 (drop 16 (data reply))) in
  if negb (resp_ptr =? 0) && (0 <? resp_len) then
    let n := Z.min resp_len out_max in
    bytes ← geti (fun s => load_bytes (Z.to_nat n) (i_ram s) (to_dma_addr resp_ptr));
    ok ← lm_write out_ptr bytes;
    mret (if ok : bool then as_i32 n else -1)
  else mret 0.

(** The spin loop that waits for task 1; the other cores run while it yields. *)
Fixpoint ai_wait (rounds : nat) (out_ptr out_max : Z) : M Z :=
  match rounds with
  | O => wait
  | S n =>
      r ← kernel_op (recv_message cpu);
      match r with
      | Some reply => if sender reply =? 1 then ai_reply out_ptr out_max reply else ai_wait n out_ptr out_max
      | None =>
          _ ← kernel_op (fun k => Done (tt, yield_cpu cpu k));
          _ ← (fun s => let '(k, w) := others (i_kernel s) (i_w s) in Done (Val tt, with_w w (with_kernel k s)));
          ai_wait n out_ptr out_max
      end
  end.

Definition host_ai_infer (rounds : nat) (args : list Z) : M (list Z) :=
  b ← lm_read (arg32 args 0) (arg32 args 1);
  match b with
  | Some prompt =>
      owned ← vec_alloc prompt;
      let msg := to_le_bytes 8 2 ++ to_le_bytes 8 owned ++ to_le_bytes 8 (Z.of_nat (length prompt)) ++ replicate 8 0 in
      r ← kernel_op (fun k => send_message 1 (mk_msg (current_tid cpu k) msg) k);
      n ← match r with
          | Ok _ => ai_wait rounds (arg32 args 2) (arg args 3)
          | Err _ => mret (-1)
          end;
      _ ← vec_drop owned prompt;
      ret_i32 n
  | None => ret_i32 (-1)
  end.

Definition host_http_get (args : list Z) : M (list Z) :=
  b ← lm_read (arg32 args 0) (arg32 args 1);
  match b with
  | Some url =>
      match parse_url (if from_utf8_ok url then url else []) with
      | Some (https, hst, port, path) =>
          if https : bool then ret_i32 (-6)
          else
            let cap := Z.min (arg32 args 3) 8192 in
            '(r, tmp) ← host (http_get hst path port cap);
            match r with
            | HttpOk n =>
                slice ← lift (subslice tmp 0 (Z.to_nat n));
                ok ← lm_write (arg32 args 2) slice;
                ret_i32 (if ok : bool then as_i32 n else -1)
            | DnsError => ret_i32 (-1)
            | TcpError => ret_i32 (-2)
            | HttpError _ => ret_i32 (-3)
            | Timeout => ret_i32 (-4)
            | BufferTooSmall => ret_i32 (-5)
            end
      | None => ret_i32 (-1)
      end
  | None => ret_i32 (-1)
  end.

(** The linear congruential generator of [random_get]. *)
Fixpoint lcg (n : nat) (seed : Z) : list Z :=
  match n with
  | O => []
  | S n' => let seed := seed *u 6364136223846793005 +u 1442695040888963407 in Z.shiftr seed 56 :: lcg n' seed
  end.

Definition host_random_get (args : list Z) : M (list Z) :=
  seed ← host cntpct;
  ok ← lm_write (arg32 args 0) (lcg (Z.to_nat (Z.min (arg32 args 1) 65536)) seed);
  mret [if ok : bool then 0 else 8].

Definition host_poll (args : list Z) : M (list Z) := _ ← lm_store32 (arg32 args 3) 0; mret [0].

Definition host_const (rets : list Z) (args : list Z) : M (list Z) := mret rets.
Definition host_trap (why : string) (args : list Z) : M (list Z) := trap why.

(** The match of [dispatch_host_import]. *)
Definition host_imports (rounds : nat) : list (string * string * (list Z -> M (list Z))) :=
  let wasi := "wasi_snapshot_preview1"%string in
  [ ("aeglos", "log", host_log);
    ("aeglos", "send_ipc", host_send_ipc);
    ("aeglos", "recv_ipc", host_recv_ipc);
    ("env", "abort", host_trap "wasm abort");
    ("env", "__assert_fail", host_trap "wasm abort");
    (wasi, "args_get", host_const [0]);
    (wasi, "args_sizes_get", host_sizes);
    (wasi, "environ_get", host_const [0]);
    (wasi, "environ_sizes_get", host_sizes);
    (wasi, "fd_write", host_fd_write);
    (wasi, "fd_read", host_fd_read);
    (wasi, "proc_exit", host_trap "proc_exit");
    (wasi, "clock_time_get", host_clock);
    (wasi, "fd_close", host_close [0]);
    (wasi, "fd_seek", host_const [8]);
    (wasi, "fd_fdstat_get", host_fdstat);
    (wasi, "fd_prestat_get", host_const [8]);
    (wasi, "fd_prestat_dir_name", host_const [8]);
    (wasi, "path_open", host_const [8]);
    ("aeglos", "file_open", host_file_open);
    ("aeglos", "file_read", host_file_read);
    ("aeglos", "file_write", host_file_write);
    ("aeglos", "file_close", host_close []);
    ("aeglos", "yield", host_yield []);
    ("aeglos", "ai_infer", host_ai_infer rounds);
    ("aeglos", "http_get", host_http_get);
    (wasi, "random_get", host_random_get);
    (wasi, "poll_oneoff", host_poll);
    (wasi, "sched_yield", host_yield [0]);
    (wasi, "sock_accept", host_const [58]);
    (wasi, "sock_recv", host_const [58]);
    (wasi, "sock_send", host_const [58]);
    (wasi, "sock_shutdown", host_const [58]) ]%string.

Fixpoint find_import (mo na : list Z) (l : list (string * string * (list Z -> M (list Z))))
  : option (list Z -> M (list Z)) :=
  match l with
  | [] => None
  | (m', n', h) :: l' => if bool_decide (mo = str m' /\ na = str n') then Some h else find_import mo na l'
  end.

Definition dispatch_host_import (rounds : nat) (mo na args : list Z) : M (list Z) :=
  match find_import mo na (host_imports rounds) with
  | Some h => h args
  | None =>
      _ ← uart (str "[wasm] unknown import: " ++ mo ++ str "::" ++ na ++ [13; 10]);
      mret [0]
  end.

(** The [idx]-th imported function. *)
Fixpoint import_func (l : list Import) (fi idx : Z) : option Import :=
  match l with
  | [] => None
  | imp :: l' =>
      if is_func_import imp then (if fi =? idx then Some imp else import_func l' (fi + 1) idx)
      else import_func l' fi idx
  end.

Definition call_host (rounds : nat) (import_idx : Z) (args : list Z) : M (list Z) :=
  match import_func (imports module) 0 import_idx with
  | Some imp => dispatch_host_import rounds (imp_module imp) (imp_name imp) args
  | None => trap "unknown host import"
  end.

(** ** Calls *)

Definition n_imports : Z := Z.of_nat (import_func_count module).

(** The locals of a call: the parameters, then the declared variables as zeros. *)
Definition call_locals (ft : FuncType) (body : FuncBody) (args : list Z) : list Z :=
  ((fun i => default 0 (args !! i)) <$> seq 0 (length (params ft))) ++
  concat ((fun g => replicate (Z.to_nat g.1) 0) <$> body_locals body).

(** [self.module.code[i]], which panics out of range. *)
Definition code_at (i : Z) : outcome FuncBody :=
  match vec_get (code module) i with Some b => Done b | None => Panic end.

(** What [call] does with the result of a step: the frames to continue with. *)
Definition after_step (rounds : nat) (frames : list Frame) (fr : Frame) (r : StepResult) : M (list Frame) :=
  match r with
  | Continue => mret (fr :: frames)
  | Return vals => _ ← truncate (fr_base_sp fr); _ ← push_all vals; mret frames
  | Call callee_idx call_args =>
      if callee_idx <? n_imports then
        rets ← call_host rounds callee_idx call_args;
        _ ← push_all rets; mret (fr :: frames)
      else
        body ← lift (code_at (callee_idx - n_imports));
        ft ← ok_or (func_type module callee_idx) (Trap "bad callee type");
        l ← geti i_stack;
        mret (mk_frame callee_idx 0 (call_locals ft body call_args) (length l) [] :: fr :: frames)
  end.

(** The loop of [call] over the frames. *)
Fixpoint run (rounds : nat) (frames : list Frame) : M unit :=
  match frames with
  | [] => mret tt
  | fr :: rest =>
      if (MAX_CALL_DEPTH <? length frames)%nat then fail StackOverflow
      else match rounds with
      | O => wait
      | S n =>
          body ← lift (code_at (fr_func_idx fr - n_imports));
          '(fr, r) ← step_frame n (body_code body) fr;
          frames ← after_step n rest fr r;
          run n frames
      end
  end.

Definition call (rounds : nat) (func_idx : Z) (args : list Z) : M (list Z) :=
  if func_idx <? n_imports then call_host rounds func_idx args
  else
    body ← ok_or (vec_get (code module) (func_idx - n_imports)) (Trap "bad func idx");
    ft ← ok_or (func_type module func_idx) (Trap "no func type");
    base ← geti (fun s => length (i_stack s));
    _ ← push_all args;
    l ← geti i_stack;
    if (length l <? base + length (params ft))%nat then trap "not enough args"
    else
      _ ← truncate base;
      _ ← run rounds [mk_frame func_idx 0 (call_locals ft body args) base []];
      l ← geti i_stack;
      let n := length (results ft) in
      if (length l <? base + n)%nat then trap "missing return values"
      else _ ← truncate (length l - n); mret (top n l).

(** ** Instantiation *)

Definition set_entry (t : list TableEntry) (i : nat) (fi : Z) : list TableEntry := <[i := mk_entry fi true]> t.

(** One element segment; entries beyond the table are dropped. *)
Definition apply_elem (t : list TableEntry) (seg : ElemSegment) : list TableEntry :=
  foldl (fun t '(i, fi) => set_entry t (Z.to_nat (elem_offset seg) + i)%nat fi) t (imap pair (elem_funcs seg)).

Definition init_table : list TableEntry :=
  foldl apply_elem (replicate (Z.to_nat (Z.max (table_size module) 1)) (mk_entry 0 false)) (elem module).

Fixpoint apply_data (l : list DataSegment) : M unit :=
  match l with
  | [] => mret tt
  | seg :: l' =>
      if data_mem seg =? 0 then
        ok ← lm_write (data_offset seg) (data_bytes seg);
        if ok : bool then apply_data l' else fail (MemoryFault (data_offset seg))
      else apply_data l'
  end.

(** The interpreter [Interpreter::new] builds around its memory. *)
Definition interpreter (l : LinearMemory) (x : sys H) (w : W) : ist H W :=
  mk_ist l (gl_init <$> globals module) init_table [] x w.

(** The data segments and the start function. *)
Definition instantiate (rounds : nat) : M unit :=
  _ ← apply_data (mdata module);
  match start module with
  | Some idx => _ ← call rounds idx []; mret tt
  | None => mret tt
  end.

(** [WasmModule::call_export], with [Interpreter::new] inlined. *)
Definition call_export (rounds : nat) (name args : list Z) (x : sys H) (w : W)
  : outcome (ans (list Z) * (sys H * W)) :=
  match find_export module name with
  | None => Done (Fail ExportNotFound, (x, w))
  | Some idx =>
      '(r, m) ← LinearMemory_new (mach (sk x)) (Z.max (mem_min module) 1);
      let x := mk_sys (with_mach m (sk x)) (sh x) in
      match r with
      | None => Done (Fail OutOfMemory, (x, w))
      | Some l =>
          '(a, s) ← (_ ← instantiate rounds; call rounds idx args) (interpreter l x w);
          Done (a, (i_sys s, i_w s))
      end
  end.

End Interpreter.
