(* ===== verification/WasmSafe.v ===== *)
(** * Safety of the WASM interpreter

    Whatever bytecode a module holds, running it never panics the kernel (given
    that every declared function has a body and the heap has room), keeps the
    kernel's invariant, and writes only its linear memory and heap blocks. *)

From stdpp Require Import base numbers list gmap strings.
From Stdlib Require Import ZArith Lia.
From S2P Require Import Prelude Machine PageAlloc Vmm VmmProofs Ipc Task Sched SchedInv SchedProps Heap Elf Syscall.
From S2P Require Import WasmParse WasmParseProofs WasmMem WasmNum WasmScan WasmInterp.

(** What the code relies on in the parts that are not modelled: a read returns at
    most as many bytes as the buffer holds, and the other cores keep the kernel's
    invariant and the protected addresses. *)
Class WasmHostSpec (W : Type) `{!WasmHost W} (Prot : Z -> Prop) := {
  fat_read_bound fd cap w : 0 <= cap ->
    (fat_read fd cap w).1.1 <= cap /\ length (fat_read fd cap w).1.2 = Z.to_nat cap;
  http_get_bound hst path port cap w n tmp w' : 0 <= cap ->
    http_get hst path port cap w = (HttpOk n, tmp, w') -> n <= cap /\ length tmp = Z.to_nat cap;
  others_ok k w : sched_wf k -> sched_wf (others k w).1 /\
    forall a, Prot a -> ldb (ram (mach (others k w).1)) a = ldb (ram (mach k)) a;
}.

(** The heap has room, and its blocks are not protected memory. *)
Class HeapRoom (H : Type) `{!GlobalAlloc H} (Prot : Z -> Prop) := {
  heap_room h n p h' : ga_alloc h n 1 = (p, h') ->
    p <> 0 /\ forall a, to_dma_addr p <= a < to_dma_addr p + n -> ~ Prot a;
}.

Create HintDb isafe discriminated.
#[export] Hint Constants Opaque : isafe.

Section Safety.
Context {H W : Type} `{!GlobalAlloc H} `{!WasmHost W}.
Context (Prot : Z -> Prop) `{!WasmHostSpec W Prot} `{!HeapRoom H Prot}.
Context (cpu : Z) (module : WasmModule).
Hypothesis cpu_ok : 0 <= cpu.

Local Abbreviation M := (I H W).

(** ** Invariant *)

Record iwf (s : ist H W) : Prop := {
  iw_kernel : sched_wf (i_kernel s);
  iw_mem : lmem_wf (i_mem s);
  iw_stack : (length (i_stack s) <= MAX_STACK_DEPTH)%nat;
  iw_prot : forall a, base (i_mem s) <= a < base (i_mem s) + cap_pages (i_mem s) * WASM_PAGE_SIZE -> ~ Prot a;
}.

(** The memory stays where it is, and protected bytes keep their value. *)
Record ext (s s' : ist H W) : Prop := {
  ex_base : base (i_mem s') = base (i_mem s);
  ex_cap : cap_pages (i_mem s') = cap_pages (i_mem s);
  ex_ram : forall a, Prot a -> ldb (i_ram s') a = ldb (i_ram s) a;
}.

Lemma ext_refl s : ext s s.
Proof. by constructor. Qed.

Lemma ext_trans s1 s2 s3 : ext s1 s2 -> ext s2 s3 -> ext s1 s3.
Proof. intros [] []. constructor; [congruence..|]. intros a Ha. by rewrite ex_ram1, ex_ram0. Qed.

(** [m] returns from every good state to a good state, with [Q] of its value. *)
Definition isafe {A} (m : M A) (Q : A -> Prop) : Prop :=
  forall s, iwf s -> exists r s', m s = Done (r, s') /\ iwf s' /\ ext s s' /\
    match r with Val a => Q a | _ => True end.

Definition any {A} (_ : A) : Prop := True.

Lemma isafe_weaken {A} (m : M A) (Q Q' : A -> Prop) : isafe m Q -> (forall a, Q a -> Q' a) -> isafe m Q'.
Proof. intros Hm HQ s Hs. destruct (Hm s Hs) as (r & s' & E & Hs' & He & Hr). exists r, s'. destruct r; auto. Qed.

Lemma isafe_bind {A B} (m : M A) (f : A -> M B) (Q : A -> Prop) (R : B -> Prop) :
  isafe m Q -> (forall a, Q a -> isafe (f a) R) -> isafe (m ≫= f) R.
Proof.
  intros Hm Hf s Hs. destruct (Hm s Hs) as (r & s1 & E & Hs1 & He & Hr). unfold mbind, I_bind. rewrite E.
  destruct r as [a|e|]; [|by exists (Fail e), s1|by exists Wait, s1].
  destruct (Hf a Hr s1 Hs1) as (r2 & s2 & -> & Hs2 & He2 & Hr2). exists r2, s2. eauto using ext_trans.
Qed.

Lemma isafe_ret {A} (a : A) (Q : A -> Prop) : Q a -> isafe (mret a) Q.
Proof. intros Ha s Hs. exists (Val a), s. eauto using ext_refl. Qed.

Lemma isafe_fail {A} e (Q : A -> Prop) : isafe (fail e) Q.
Proof. intros s Hs. exists (Fail e), s. eauto using ext_refl. Qed.

Lemma isafe_trap {A} w (Q : A -> Prop) : isafe (trap w) Q.
Proof. apply isafe_fail. Qed.

Lemma isafe_wait {A} (Q : A -> Prop) : isafe wait Q.
Proof. intros s Hs. exists Wait, s. eauto using ext_refl. Qed.

Lemma isafe_ok_or {A} (o : option A) e (Q : A -> Prop) : (forall a, o = Some a -> Q a) -> isafe (ok_or o e) Q.
Proof. destruct o as [a|]; intros Ho; [apply isafe_ret; auto|apply isafe_fail]. Qed.

Lemma isafe_of_result {A} (r : result A WasmError) (Q : A -> Prop) : (forall a, r = Ok a -> Q a) -> isafe (of_result r) Q.
Proof. destruct r as [a|e]; intros Hr; [apply isafe_ret; auto|apply isafe_fail]. Qed.

Lemma isafe_lift {A} (o : outcome A) (Q : A -> Prop) : (exists a, o = Done a /\ Q a) -> isafe (lift o) Q.
Proof. intros (a & -> & Ha). exact (isafe_ret a Q Ha). Qed.

(** Reading the state. *)
Lemma isafe_geti {A} (f : ist H W -> A) (Q : A -> Prop) : (forall s, iwf s -> Q (f s)) -> isafe (geti f) Q.
Proof. intros Hf s Hs. exists (Val (f s)), s. eauto using ext_refl. Qed.

(** A step that keeps the kernel and the placement of the memory. *)
Lemma isafe_modi f (Q : unit -> Prop) : Q tt -> (forall s, iwf s -> iwf (f s) /\ ext s (f s)) -> isafe (modi f) Q.
Proof. intros HQ Hf s Hs. destruct (Hf s Hs). by exists (Val tt), (f s). Qed.

Lemma with_stack_ok s l : iwf s -> (length l <= MAX_STACK_DEPTH)%nat -> iwf (with_stack l s) /\ ext s (with_stack l s).
Proof. intros [] Hl. split; by constructor. Qed.

Lemma with_globals_ok s g : iwf s -> iwf (with_globals g s) /\ ext s (with_globals g s).
Proof. intros []. split; by constructor. Qed.

Lemma with_w_ok s w : iwf s -> iwf (with_w w s) /\ ext s (with_w w s).
Proof. intros []. split; by constructor. Qed.

(** A new kernel state that keeps the invariant and protected memory. *)
Lemma with_kernel_ok s k : iwf s -> sched_wf k -> (forall a, Prot a -> ldb (ram (mach k)) a = ldb (i_ram s) a) ->
  iwf (with_kernel k s) /\ ext s (with_kernel k s).
Proof. intros [] Hk Hr. split; by constructor. Qed.

Lemma with_iram_ok s r : iwf s -> (forall a, Prot a -> ldb r a = ldb (i_ram s) a) ->
  iwf (with_iram r s) /\ ext s (with_iram r s).
Proof.
  intros Hs Hr. apply with_kernel_ok; [done| |done].
  apply wf_with_mach; [apply Hs|]. apply (wf_pages _ (iw_kernel _ Hs)).
Qed.

(** ** Stack operations *)

Lemma isafe_push v : isafe (push v) any.
Proof.
  intros s Hs. unfold push. destruct (Nat.leb_spec MAX_STACK_DEPTH (length (i_stack s))).
  - exists (Fail StackOverflow), s. eauto using ext_refl.
  - destruct (with_stack_ok s (v :: i_stack s) Hs) as [H1 H2]; [cbn [length]; lia|]. by exists (Val tt), (with_stack (v :: i_stack s) s).
Qed.

Lemma isafe_pop : isafe pop any.
Proof.
  intros s Hs. unfold pop. destruct (i_stack s) as [|v l] eqn:E.
  - exists (Fail (Trap "stack underflow")), s. eauto using ext_refl.
  - pose proof (iw_stack _ Hs) as Hl. rewrite E in Hl. cbn [length] in Hl.
    destruct (with_stack_ok s l Hs) as [H1 H2]; [lia|]. by exists (Val v), (with_stack l s).
Qed.

Lemma isafe_truncate n : isafe (truncate n) any.
Proof.
  apply isafe_modi; [done|]. intros s Hs. apply with_stack_ok; [done|].
  pose proof (iw_stack _ Hs). rewrite length_drop. lia.
Qed.

Lemma isafe_read {A} (f : ist H W -> A) : isafe (geti f) any.
Proof. by apply isafe_geti. Qed.

Lemma isafe_set_globals g : isafe (modi (with_globals g)) any.
Proof. apply isafe_modi; [done|]. intros s Hs. by apply with_globals_ok. Qed.

Lemma isafe_host {A} (f : W -> A * W) (Q : A -> Prop) : (forall w, Q (f w).1) -> isafe (host f) Q.
Proof.
  intros Hf s Hs. unfold host. specialize (Hf (i_w s)). destruct (f (i_w s)) as [a w].
  destruct (with_w_ok s w Hs). by exists (Val a), (with_w w s).
Qed.

Lemma isafe_kernel_op {A} (f : kernel -> outcome (A * kernel)) :
  (forall k, sched_wf k -> exists r k', f k = Done (r, k') /\ sched_wf k' /\ ram (mach k') = ram (mach k)) ->
  isafe (kernel_op f) any.
Proof.
  intros Hf s Hs. unfold kernel_op. destruct (Hf (i_kernel s) (iw_kernel _ Hs)) as (r & k' & -> & Hk & Hr).
  destruct (with_kernel_ok s k' Hs Hk) as [H1 H2]; [intros a _; by rewrite Hr|]. by exists (Val r), (with_kernel k' s).
Qed.

Lemma isafe_imm read why code pc : reads read -> isafe (imm read why code pc) any.
Proof.
  intros Hr. eapply isafe_bind; [apply (isafe_lift _ any); destruct (Hr code pc) as (r & -> & _); by exists r|].
  intros [[v n]|] _; [by apply isafe_ret|apply isafe_trap].
Qed.

Lemma isafe_imm_u32 why code pc : isafe (imm_u32 why code pc) any.
Proof. apply isafe_imm, reads_u32. Qed.

Lemma isafe_find_end code pc : isafe (lift (find_end code pc)) any.
Proof. apply isafe_lift. destruct (find_end_total code pc) as [r ->]. by exists r. Qed.

Lemma isafe_find_else code pc : isafe (lift (find_else code pc)) any.
Proof. apply isafe_lift. destruct (find_else_total code pc) as [r ->]. by exists r. Qed.

Lemma isafe_ok_eq {A} (o : option A) e : isafe (ok_or o e) (fun a => o = Some a).
Proof. apply isafe_ok_or. auto. Qed.

Lemma isafe_ok_any {A} (o : option A) e : isafe (ok_or o e) any.
Proof. by apply isafe_ok_or. Qed.

Lemma isafe_result_any {A} (r : result A WasmError) : isafe (of_result r) any.
Proof. by apply isafe_of_result. Qed.

#[local] Hint Resolve isafe_push isafe_pop isafe_truncate isafe_read isafe_set_globals isafe_imm_u32
  isafe_find_end isafe_find_else isafe_ok_any isafe_result_any isafe_fail isafe_trap isafe_wait : isafe.

(** One structural step, or a leaf from the hint database. *)
Ltac isafe_step := lazymatch goal with
  | |- isafe (mret _) _ => apply isafe_ret
  | |- isafe (if ?b then _ else _) _ => destruct b eqn:?
  | |- isafe (match ?x with _ => _ end) _ => destruct x eqn:?
  | |- isafe (let '(_, _) := ?x in _) _ => destruct x eqn:?
  | |- isafe (_ ≫= _) _ => eapply isafe_bind; [solve [auto with isafe nocore]|intros ? ?]
  | |- isafe _ _ => solve [auto with isafe nocore]
  end.
Ltac isafe_solve := intros; repeat isafe_step; try done.

Lemma isafe_pop2 : isafe pop2 any.
Proof. unfold pop2. isafe_solve. Qed.

Lemma isafe_pop_n n : isafe (pop_n n) any.
Proof. unfold pop_n. isafe_solve. Qed.

Lemma isafe_push_all l : isafe (push_all l) any.
Proof. induction l as [|v l IH]; cbn [push_all]; isafe_solve. Qed.

#[local] Hint Resolve isafe_pop2 isafe_pop_n isafe_push_all : isafe.

Lemma isafe_trim_stack b k : isafe (trim_stack b k) any.
Proof. unfold trim_stack. isafe_solve. Qed.

Lemma isafe_collect fr : isafe (collect_results module fr) any.
Proof. unfold collect_results. isafe_solve. Qed.

#[local] Hint Resolve isafe_trim_stack isafe_collect : isafe.

Lemma isafe_do_br fr d : isafe (do_br fr d) (fun fr' => fr_func_idx fr' = fr_func_idx fr).
Proof. unfold do_br. isafe_solve. Qed.

Lemma isafe_mem_ea code pc : isafe (mem_ea code pc) (fun r => 0 <= r.1).
Proof. unfold mem_ea. isafe_solve. cbn [fst]. apply as_u32_range. Qed.

Lemma isafe_skip_memarg code pc : isafe (skip_memarg code pc) any.
Proof. unfold skip_memarg. isafe_solve. Qed.

Lemma isafe_blocktype code pc : isafe (parse_blocktype module code pc) any.
Proof.
  unfold parse_blocktype. destruct (Nat.leb_spec (length code) pc) as [Hl|Hl]; [apply isafe_trap|].
  eapply isafe_bind; [apply (isafe_lift _ any); destruct (index_ok code pc Hl) as [b ->]; by exists b|intros b _].
  do 2 (isafe_step; [by isafe_step|]).
  eapply isafe_bind; [apply isafe_imm, reads_i32|]. isafe_solve.
Qed.

Lemma isafe_br_targets n code pc : isafe (br_targets n code pc) any.
Proof. revert pc. induction n as [|n IH]; intros pc; cbn [br_targets]; isafe_solve. Qed.

#[local] Hint Resolve isafe_mem_ea isafe_skip_memarg isafe_blocktype isafe_br_targets : isafe.

(** ** Memory *)

(** Protected addresses are not in the visible memory. *)
Lemma prot_lmem s a : iwf s -> Prot a -> ~ in_lmem (i_mem s) a.
Proof.
  intros Hs Ha Hin. apply (iw_prot _ Hs a); [|done]. pose proof (lm_pages _ (iw_mem _ Hs)).
  unfold in_lmem, WASM_PAGE_SIZE in *. lia.
Qed.

(** An update of memory computed from the present state. *)
Lemma isafe_update {A B} (f : ist H W -> A * gmap Z Z) (k : A -> M B) (Q : B -> Prop) :
  (forall s, iwf s -> forall a, Prot a -> ldb (f s).2 a = ldb (i_ram s) a) -> (forall x, isafe (k x) Q) ->
  isafe (s ← geti id; let '(x, r) := f s in _ ← modi (with_iram r); k x) Q.
Proof.
  intros Hf Hk s Hs. specialize (Hf s Hs). destruct (f s) as [x r] eqn:E. cbn [snd] in Hf.
  destruct (with_iram_ok s r Hs Hf) as [H1 H2]. destruct (Hk x _ H1) as (rr & s' & E' & Hs' & He & Hr).
  exists rr, s'. split; [unfold mbind, I_bind, geti, modi, id; by rewrite E|]. eauto using ext_trans.
Qed.

Lemma isafe_store {B} n a v (k : bool -> M B) (Q : B -> Prop) : 0 <= a -> (forall x, isafe (k x) Q) ->
  isafe (s ← geti id; let '(ok, r) := store_le n (i_mem s) (i_ram s) a v in _ ← modi (with_iram r); k ok) Q.
Proof.
  intros Ha Hk. apply (isafe_update (fun s => store_le n (i_mem s) (i_ram s) a v)); [|done].
  intros s Hs x Hx. destruct (store_le _ _ _ _ _) as [b r] eqn:E.
  apply (store_le_frame _ _ _ _ _ _ _ _ (iw_mem _ Hs) Ha E). by apply prot_lmem.
Qed.

Lemma isafe_lm_write a l : 0 <= a -> isafe (lm_write a l) any.
Proof.
  intros Ha. apply (isafe_update (fun s => write_bytes (i_mem s) (i_ram s) a l) (fun ok => mret ok)); [|by intros; apply isafe_ret].
  intros s Hs x Hx. destruct (write_bytes _ _ _ _) as [b r] eqn:E.
  apply (write_bytes_frame _ _ _ _ _ _ _ (iw_mem _ Hs) Ha E). by apply prot_lmem.
Qed.

Lemma isafe_lm_store32 a v : 0 <= a -> isafe (lm_store32 a v) any.
Proof. intros Ha. apply (isafe_store 4 a v (fun ok => mret ok)); [done|]. intros x. by apply isafe_ret. Qed.

Lemma isafe_grow {B} delta (k : Z -> M B) (Q : B -> Prop) : 0 <= delta -> (forall x, isafe (k x) Q) ->
  isafe (l ← geti i_mem; let '(old, l) := grow l delta in _ ← modi (with_mem l); k old) Q.
Proof.
  intros Hd Hk s Hs. destruct (grow (i_mem s) delta) as [old l] eqn:E.
  assert (Hl : iwf (with_mem l s) /\ ext s (with_mem l s)).
  { unfold grow in E. pose proof (iw_mem _ Hs) as [? ? ? ?]. pose proof (as_u64_range (lpages (i_mem s) + delta)) as Hr.
    destruct (cap_pages (i_mem s) <? lpages (i_mem s) +u delta) eqn:Ec; znorm; injection E as <- <-; [by destruct s, Hs|].
    destruct Hs as [H1 H2 H3 H4]. unfold is_u64 in Hr. split; constructor; try done. split; cbn; lia. }
  destruct Hl as [H1 H2]. destruct (Hk old _ H1) as (rr & s' & E' & Hs' & He & Hr).
  exists rr, s'. split; [unfold mbind, I_bind, geti, modi, id; by rewrite E|]. eauto using ext_trans.
Qed.

(** ** One instruction *)

Definition step_post (fr : Frame) (x : Frame * option StepResult) : Prop :=
  fr_func_idx x.1 = fr_func_idx fr /\
  match x.2 with Some (Call idx _) => exists ft, func_type module idx = Some ft | _ => True end.

Lemma isafe_next fr fr' : fr_func_idx fr' = fr_func_idx fr -> isafe (next fr') (step_post fr).
Proof. intros E. by apply isafe_ret. Qed.

Lemma isafe_finish fr fr' vals : fr_func_idx fr' = fr_func_idx fr -> isafe (finish fr' (Return vals)) (step_post fr).
Proof. intros E. by apply isafe_ret. Qed.

Lemma isafe_push_label k a t e pc fr : isafe (push_label k a t e pc fr) (step_post fr).
Proof. unfold push_label. isafe_step. by apply isafe_next. Qed.

#[local] Hint Resolve isafe_push_label : isafe.
#[local] Hint Extern 1 (isafe (next _) _) => (apply isafe_next; done) : isafe.
#[local] Hint Extern 1 (isafe (finish _ (Return _)) _) => (apply isafe_finish; done) : isafe.

Lemma isafe_branch fr pc d : isafe (fr ← do_br (with_pc pc fr) d; next fr) (step_post fr).
Proof. eapply isafe_bind; [apply isafe_do_br|]. intros fr' E. by apply isafe_next. Qed.

#[local] Hint Resolve isafe_branch : isafe.

Lemma isafe_op_block code fr : isafe (op_block module code fr) (step_post fr).
Proof. unfold op_block. isafe_solve. Qed.

Lemma isafe_op_loop code fr : isafe (op_loop module code fr) (step_post fr).
Proof. unfold op_loop. isafe_solve. Qed.

Lemma isafe_op_if code fr : isafe (op_if module code fr) (step_post fr).
Proof. unfold op_if. isafe_solve. Qed.

Lemma isafe_op_else fr : isafe (op_else fr) (step_post fr).
Proof. unfold op_else. isafe_solve. Qed.

Lemma isafe_op_end fr : isafe (op_end module fr) (step_post fr).
Proof. unfold op_end. isafe_solve. Qed.

Lemma isafe_op_br_table code fr : isafe (op_br_table code fr) (step_post fr).
Proof. unfold op_br_table. do 5 isafe_step. apply isafe_branch. Qed.

Lemma isafe_call_result fr pc idx args ft : func_type module idx = Some ft ->
  isafe (finish (with_pc pc fr) (Call idx args)) (step_post fr).
Proof. intros Hf. apply isafe_ret. split; [done|]. by exists ft. Qed.

Lemma isafe_op_call code fr : isafe (op_call module code fr) (step_post fr).
Proof.
  unfold op_call. do 2 isafe_step. eapply isafe_bind; [apply isafe_ok_eq|cbn beta; intros ft Hft].
  isafe_step. by eapply isafe_call_result.
Qed.

Lemma isafe_op_call_indirect code fr : isafe (op_call_indirect module code fr) (step_post fr).
Proof.
  unfold op_call_indirect. do 8 isafe_step; [isafe_step|].
  eapply isafe_bind; [apply isafe_ok_eq|cbn beta; intros ft Hft].
  isafe_step. isafe_step; [isafe_step|]. isafe_step. by eapply isafe_call_result.
Qed.

#[local] Hint Resolve isafe_op_block isafe_op_loop isafe_op_if isafe_op_else isafe_op_end isafe_op_br_table
  isafe_op_call isafe_op_call_indirect : isafe.

Lemma isafe_op_variable op code fr : isafe (op_variable op code fr) (step_post fr).
Proof. unfold op_variable. isafe_solve. Qed.

Lemma isafe_op_memory op code fr : isafe (op_memory op code fr) (step_post fr).
Proof.
  unfold op_memory. destruct (row op loads) as [[n e]|]; [isafe_solve|].
  destruct (row op stores) as [n|].
  - eapply isafe_bind; [apply isafe_mem_ea|intros [a pc] Ha]. isafe_step.
    apply (isafe_store n a _ (fun ok : bool => if ok then next (with_pc pc fr) else fail (MemoryFault a))); [done|].
    intros ok. isafe_solve.
  - repeat (isafe_step; [isafe_solve|]). isafe_step.
    apply (isafe_grow _ (fun old => _ ← push (as_u64 old); next (with_pc (S (fr_pc fr)) fr))); [apply as_u32_range|].
    isafe_solve.
Qed.

Lemma isafe_op_const op code fr : isafe (op_const op code fr) (step_post fr).
Proof.
  unfold op_const. repeat isafe_step; (eapply isafe_bind; [apply isafe_imm; first [apply reads_i32|apply reads_i64]|]); isafe_solve.
Qed.

Lemma isafe_op_numeric op fr : isafe (op_numeric op fr) (step_post fr).
Proof. unfold op_numeric. isafe_solve. Qed.

#[local] Hint Resolve isafe_op_variable isafe_op_memory isafe_op_const isafe_op_numeric : isafe.

Lemma isafe_instr op code fr : isafe (instr module op code fr) (step_post fr).
Proof. unfold instr. isafe_solve; apply isafe_branch. Qed.

Lemma isafe_step_frame rounds code fr :
  isafe (step_frame module rounds code fr) (fun x => step_post fr (x.1, Some x.2)).
Proof.
  revert fr. induction rounds as [|n IH]; intros fr; cbn [step_frame];
    destruct (Nat.leb_spec (length code) (fr_pc fr)) as [Hl|Hl].
  1, 3: eapply isafe_bind; [apply isafe_collect|]; intros vals _; by apply isafe_ret.
  - apply isafe_wait.
  - eapply isafe_bind; [apply (isafe_lift _ any); destruct (index_ok code _ Hl) as [b ->]; by exists b|intros op _].
    eapply isafe_bind; [apply isafe_instr|]. intros [fr' [r|]] [E Hr]; [by apply isafe_ret|].
    eapply isafe_weaken; [apply IH|]. intros [fr2 r2] [E2 Hr2]. cbn in E, E2. split; [cbn; congruence|done].
Qed.

(** ** Host imports *)

Lemma arg32_nonneg args i : 0 <= arg32 args i.
Proof. apply as_u32_range. Qed.

Lemma as_u32_nonneg x : 0 <= as_u32 x.
Proof. apply as_u32_range. Qed.

Lemma isafe_uart l : isafe (uart l) any.
Proof. by apply isafe_host. Qed.

Lemma isafe_lm_read a n : isafe (lm_read a n) any.
Proof. apply isafe_read. Qed.

Lemma isafe_lm_load32 a : isafe (lm_load32 a) any.
Proof. apply isafe_read. Qed.

Lemma isafe_host_any {A} (f : W -> A * W) : isafe (host f) any.
Proof. by apply isafe_host. Qed.

Lemma ram_put_task k i o : ram (mach (put_task i o k)) = ram (mach k).
Proof. done. Qed.

Lemma isafe_send target (f : kernel -> Message) : isafe (kernel_op (fun k => send_message target (f k) k)) any.
Proof.
  apply isafe_kernel_op. intros k Hk. destruct (send_message_ok target (f k) k Hk) as (r & k' & E & Hk').
  exists r, k'. split_and!; [done..|]. revert E. unfold send_message. destruct (find_task k target) as [[i t]|]; [|by intros [= _ <-]].
  destruct (fifo_push _ _) as [[[|] mb]|]; cbn [mbind outcome_bind]; by intros [= _ <-] || done.
Qed.

Lemma isafe_recv : isafe (kernel_op (recv_message cpu)) any.
Proof.
  apply isafe_kernel_op. intros k Hk. destruct (proj1 (recv_ok cpu k Hk cpu_ok)) as (r & k' & E & Hk').
  exists r, k'. split_and!; [done..|]. revert E. unfold recv_message. destruct (current_task k cpu) as [[i t]|]; [|by intros [= _ <-]].
  destruct (fifo_pop _) as [[[|] mb]|]; cbn [mbind outcome_bind]; by intros [= _ <-] || done.
Qed.

Lemma isafe_yield : isafe (kernel_op (fun k => Done (tt, yield_cpu cpu k))) any.
Proof.
  apply isafe_kernel_op. intros k Hk. exists tt, (yield_cpu cpu k). split_and!; [done|by apply wf_update_current|].
  unfold yield_cpu, update_current. by destruct (current_task k cpu) as [[i t]|].
Qed.

Lemma isafe_ret_i32 v : isafe (ret_i32 v) any.
Proof. by apply isafe_ret. Qed.

#[local] Hint Resolve isafe_ret_i32 isafe_uart isafe_lm_read isafe_lm_load32 isafe_host_any isafe_send isafe_recv isafe_yield : isafe.
#[local] Hint Extern 1 (isafe (lm_write _ _) _) => (apply isafe_lm_write; apply as_u32_range) : isafe.
#[local] Hint Extern 1 (isafe (lm_store32 _ _) _) => (apply isafe_lm_store32; apply as_u32_range) : isafe.

Lemma isafe_fd_write_loop n iovs i total : isafe (fd_write_loop n iovs i total) any.
Proof. revert i total. induction n as [|n IH]; intros i total; cbn [fd_write_loop]; isafe_solve; apply IH. Qed.

#[local] Hint Resolve isafe_fd_write_loop : isafe.

Lemma isafe_host_fd_write args : isafe (host_fd_write args) any.
Proof. unfold host_fd_write. eapply isafe_bind; [isafe_step; [isafe_step|by isafe_step]|]. isafe_solve. Qed.

(** A slice of a buffer of [cap] bytes that is no longer than the buffer. *)
Lemma isafe_subslice tmp n cap : n <= cap -> length tmp = Z.to_nat cap -> isafe (lift (subslice tmp 0 (Z.to_nat n))) any.
Proof. intros Hn Hl. apply isafe_lift. rewrite subslice_ok by lia. by eexists. Qed.

Lemma isafe_host_file_read args : isafe (host_file_read args) any.
Proof.
  unfold host_file_read. set (cap := Z.min (arg32 args 2) 4096).
  assert (Hc : 0 <= cap) by (pose proof (arg32_nonneg args 2); lia).
  eapply isafe_bind; [apply (isafe_host _ (fun x => x.1 <= cap /\ length x.2 = Z.to_nat cap)); intros w; by apply fat_read_bound|].
  intros [n tmp] [Hn Hl]. isafe_step; [|by isafe_step].
  eapply isafe_bind; [by apply (isafe_subslice tmp n cap)|]. isafe_solve.
Qed.

Lemma isafe_host_http_get args : isafe (host_http_get args) any.
Proof.
  unfold host_http_get. do 7 (isafe_step; try (by isafe_step)). set (cap := Z.min (arg32 args 3) 8192).
  assert (Hc : 0 <= cap) by (pose proof (arg32_nonneg args 3); lia).
  eapply isafe_bind; [apply (isafe_host _ (fun x => forall n, x.1 = HttpOk n -> n <= cap /\ length x.2 = Z.to_nat cap))|].
  { intros w n. destruct (http_get _ _ _ _ _) as [[r tmp] w'] eqn:E. intros [= ->]. by eapply http_get_bound. }
  intros [r tmp] Hr. cbn [fst snd] in Hr. destruct r as [n| | | | |]; [|by isafe_step..].
  destruct (Hr n eq_refl). eapply isafe_bind; [by apply (isafe_subslice tmp n cap)|]. isafe_solve.
Qed.

Lemma isafe_vec_alloc l : isafe (vec_alloc l) any.
Proof.
  intros s Hs. unfold vec_alloc; destruct l as [|b l]; [by exists (Val 1), s; split_and!; try apply ext_refl|].
  destruct (ga_alloc _ _ 1) as [p h] eqn:E. destruct (heap_room _ _ _ _ E) as [Hp Hb].
  rewrite (proj2 (Z.eqb_neq _ _) Hp). set (k' := with_ram _ _).
  destruct (with_kernel_ok s k' Hs) as [[H1 H2 H3 H4] [E1 E2 E3]].
  - apply wf_with_mach; [apply Hs|]. apply (wf_pages _ (iw_kernel _ Hs)).
  - intros a Ha. unfold k', kcopy. cbn -[store_bytes length]. rewrite ldb_store_bytes.
    case_decide as Hd; [|done]. by destruct (Hb a Hd).
  - eexists (Val p), _. split; [reflexivity|]. split; [by constructor|]. split; [by constructor|done].
Qed.

Lemma isafe_vec_drop p l : isafe (vec_drop p l) any.
Proof.
  intros s Hs. unfold vec_drop; destruct l as [|b l]; [by exists (Val tt), s; split_and!; try apply ext_refl|].
  eexists (Val tt), _. split; [reflexivity|]. destruct Hs. split; [by constructor|]. split; [by constructor|done].
Qed.

Lemma isafe_others : isafe (fun s => let '(k, w) := others (i_kernel s) (i_w s) in Done (Val tt, with_w w (with_kernel k s))) any.
Proof.
  intros s Hs. destruct (others_ok (i_kernel s) (i_w s) (iw_kernel _ Hs)) as [Hk Hr].
  destruct (others (i_kernel s) (i_w s)) as [k w]. cbn [fst] in *.
  destruct (with_kernel_ok s k Hs Hk Hr) as [H1 H2]. destruct (with_w_ok _ w H1) as [H3 H4].
  eexists (Val tt), _. split; [reflexivity|]. split; [done|]. split; [by eapply ext_trans|done].
Qed.

Lemma isafe_ai_reply out_ptr out_max reply : 0 <= out_ptr -> isafe (ai_reply out_ptr out_max reply) any.
Proof.
  intros Ho. unfold ai_reply. isafe_step; [|by isafe_step]. isafe_step.
  eapply isafe_bind; [by apply isafe_lm_write|]. isafe_solve.
Qed.

Lemma isafe_ai_wait rounds out_ptr out_max : 0 <= out_ptr -> isafe (ai_wait cpu rounds out_ptr out_max) any.
Proof.
  intros Ho. induction rounds as [|n IH]; cbn [ai_wait]; [apply isafe_wait|].
  isafe_step. isafe_step; [isafe_step; [by apply isafe_ai_reply|done]|].
  isafe_step. eapply isafe_bind; [apply isafe_others|]. done.
Qed.

Lemma isafe_host_ai_infer rounds args : isafe (host_ai_infer cpu rounds args) any.
Proof.
  unfold host_ai_infer. isafe_step. isafe_step; [|by isafe_step].
  eapply isafe_bind; [apply isafe_vec_alloc|intros owned _]. isafe_step.
  eapply isafe_bind; [isafe_step; [apply isafe_ai_wait, arg32_nonneg|by isafe_step]|intros n _].
  eapply isafe_bind; [apply isafe_vec_drop|]. isafe_solve.
Qed.

#[local] Hint Resolve isafe_host_fd_write isafe_host_file_read isafe_host_http_get isafe_host_ai_infer : isafe.

Lemma find_import_safe mo na l h args : Forall (fun x => forall args, isafe (x.2 args) any) l ->
  find_import mo na l = Some h -> isafe (h args) any.
Proof.
  induction 1 as [|[[m' n'] h'] l Hh _ IH]; cbn [find_import]; [done|].
  case_bool_decide; [intros [= <-]; apply Hh|apply IH].
Qed.

Lemma host_imports_safe rounds : Forall (fun x => forall args, isafe (x.2 args) any) (host_imports cpu rounds).
Proof.
  unfold host_imports. repeat constructor; cbn [snd]; intros args; try solve [auto with isafe nocore];
    unfold host_log, host_send_ipc, host_recv_ipc, host_sizes, host_fd_read, host_clock, host_fdstat,
      host_file_open, host_file_write, host_close, host_yield, host_random_get, host_poll, host_const, host_trap;
    isafe_solve.
Qed.

Lemma isafe_call_host rounds idx args : isafe (call_host cpu module rounds idx args) any.
Proof.
  unfold call_host, dispatch_host_import. isafe_step; [|apply isafe_trap].
  destruct (find_import _ _ _) as [h|] eqn:E; [by eapply find_import_safe; [apply host_imports_safe|]|isafe_solve].
Qed.

(** ** Calls *)

(** Every declared function has a body. *)
Definition bodies_ok : Prop := (length (func_types module) <= length (code module))%nat.

Definition frame_ok (fr : Frame) : Prop := exists body, code_at module (fr_func_idx fr - n_imports module) = Done body.

Lemma body_of idx ft : bodies_ok -> n_imports module <= idx -> func_type module idx = Some ft ->
  exists body, code_at module (idx - n_imports module) = Done body.
Proof.
  unfold bodies_ok, func_type, code_at, vec_get, n_imports. intros Hb Hi. rewrite (proj2 (Z.ltb_ge _ _)) by lia.
  destruct (func_types module !! _) as [ti|] eqn:E; [|done]. apply lookup_lt_Some in E. intros _.
  rewrite (proj2 (Z.ltb_lt _ _)) by lia. destruct (lookup_lt_is_Some_2 (code module) (Z.to_nat (idx - Z.of_nat (import_func_count module)))) as [b ->]; [lia|by eexists].
Qed.

Lemma isafe_after_step rounds frames fr r : bodies_ok -> Forall frame_ok (fr :: frames) ->
  match r with Call idx _ => exists ft, func_type module idx = Some ft | _ => True end ->
  isafe (after_step cpu module rounds frames fr r) (Forall frame_ok).
Proof.
  intros Hb Hf Hr. unfold after_step. destruct r as [|vals|idx args]; [by apply isafe_ret|..].
  - do 2 isafe_step. apply isafe_ret. by apply Forall_cons in Hf as [_ ?].
  - destruct (Z.ltb_spec idx (n_imports module)).
    + eapply isafe_bind; [apply isafe_call_host|intros rets _]. isafe_step. by apply isafe_ret.
    + destruct Hr as [ft Hft]. destruct (body_of idx ft Hb) as [body Hbody]; [done..|].
      eapply isafe_bind; [apply (isafe_lift _ any); by exists body|intros b _]. do 2 isafe_step.
      apply isafe_ret. apply Forall_cons. split; [by exists body|done].
Qed.

Lemma isafe_run rounds frames : bodies_ok -> Forall frame_ok frames -> isafe (run cpu module rounds frames) any.
Proof.
  intros Hb. revert frames. induction rounds as [|n IH]; intros frames Hf; destruct frames as [|fr rest]; cbn [run];
    try (by apply isafe_ret); (isafe_step; [isafe_step|]); [apply isafe_wait|].
  apply Forall_cons in Hf as [[body Hbody] Hrest].
  eapply isafe_bind; [apply (isafe_lift _ any); by exists body|intros b _].
  eapply isafe_bind; [apply isafe_step_frame|]. intros [fr' r] [E Hr]. cbn in E, Hr.
  eapply isafe_bind; [apply isafe_after_step; [done| |done]|apply IH].
  apply Forall_cons. split; [|done]. exists body. by rewrite E.
Qed.

Lemma isafe_call rounds idx args : bodies_ok -> isafe (call cpu module rounds idx args) any.
Proof.
  intros Hb. unfold call. isafe_step; [apply isafe_call_host|].
  eapply isafe_bind; [apply isafe_ok_eq|cbn beta; intros body Hbody]. do 4 isafe_step. isafe_step; [isafe_step|]. isafe_step.
  eapply isafe_bind; [apply isafe_run; [done|]|isafe_solve].
  apply Forall_singleton. exists body. unfold code_at. cbn [fr_func_idx]. by rewrite Hbody.
Qed.

Lemma isafe_apply_data l : Forall (fun seg => 0 <= data_offset seg) l -> isafe (apply_data l) any.
Proof.
  induction 1 as [|seg l Hs _ IH]; cbn [apply_data]; [by apply isafe_ret|]. isafe_step; [|done].
  eapply isafe_bind; [by apply isafe_lm_write|]. intros ok _. isafe_step; [done|isafe_step].
Qed.

Lemma isafe_instantiate rounds : bodies_ok -> Forall (fun seg => 0 <= data_offset seg) (mdata module) ->
  isafe (instantiate cpu module rounds) any.
Proof.
  intros Hb Hd. unfold instantiate. eapply isafe_bind; [by apply isafe_apply_data|intros _ _].
  isafe_step; [|by isafe_step]. eapply isafe_bind; [by apply isafe_call|isafe_solve].
Qed.

Lemma page_of p s n a : page_addr p s <= a < page_addr p s + n * PAGE_SIZE ->
  exists j, s <= j < s + n /\ page_addr p j <= a < page_addr p j + PAGE_SIZE.
Proof.
  unfold page_addr, PAGE_SIZE. intros Ha. exists (s + (a - (PAGE_BASE p + s * 4096)) / 4096).
  pose proof (Z.div_mod (a - (PAGE_BASE p + s * 4096)) 4096). pose proof (Z.mod_pos_bound (a - (PAGE_BASE p + s * 4096)) 4096). lia.
Qed.


End Safety.

(** ** A concrete kernel *)

(** A host with an empty file system, no network and idle cores. *)
#[export] Instance quiet_host : WasmHost unit := {
  uart_put := fun _ w => w;
  fat_open := fun _ w => (None, w);
  fat_read := fun _ cap w => ((0, replicate (Z.to_nat cap) 0), w);
  fat_write := fun _ _ w => (-1, w);
  fat_close := fun _ w => w;
  parse_url := fun _ => None;
  http_get := fun _ _ _ _ w => ((DnsError, []), w);
  cntpct := fun w => (1, w);
  others := fun k w => (k, w);
}.

(** A heap that hands out one fixed block. *)
#[export] Instance fixed_heap : GlobalAlloc unit := {
  ga_alloc := fun h _ _ => (KERNEL_VA_OFFSET + 0x50000000, h);
  ga_dealloc := fun h _ _ _ => h;
}.

(** Everything below RAM is protected. *)
Definition below_ram (a : Z) : Prop := a < 0x40000000.

#[export] Instance quiet_host_spec : WasmHostSpec unit below_ram.
Proof.
  split; [|done|by intros].
  intros fd cap w Hc. cbn. split; [done|]. by rewrite length_replicate.
Qed.

#[export] Instance fixed_heap_room : HeapRoom unit below_ram.
Proof. split. intros h n p h' [= <- <-]. split; [done|]. intros a Ha. unfold below_ram. vm_compute (to_dma_addr _) in Ha. lia. Qed.

(** One exported function [run] of the given type and body, no imports. *)
Definition one_func (ps rs : list ValType) (body : list Z) : WasmModule :=
  mk_module [mk_functype ps rs] [] [0] 0 1 None [] [mk_export (str "run") EFunc 0] None [] [mk_body [] body] []
    WASM_DEFAULT_CAPS.

Definition demo_system : sys unit := mk_sys (init (kernel0 big_vmm)) tt.

(** [call_export] of [run] on that kernel: the answer only. *)
Definition run_demo (m : WasmModule) (rounds : nat) (args : list Z) : outcome (ans (list Z)) :=
  '(a, _) ← call_export 0 m rounds (str "run") args demo_system tt; Done a.

(** [run(a, b)] returns [a - b]. *)
Definition sub_module : WasmModule := one_func [I32; I32] [I32] [0x20; 0; 0x20; 1; 0x6B; 0x0B].

