(* ===== verification/WasmRuns.v ===== *)
(** * Where the WASM interpreter departs from the standard

    The operand order of stores, proved for every operand, and small modules
    whose runs show the other departures. *)

From stdpp Require Import base numbers list gmap strings.
From Stdlib Require Import ZArith Lia.
From S2P Require Import Prelude Machine PageAlloc Vmm VmmProofs Ipc Task Sched SchedInv SchedProps Heap Elf Syscall.
From S2P Require Import WasmParse WasmParseProofs WasmLoad WasmMem WasmNum WasmScan WasmInterp WasmSafe.

Lemma imm_ok {H W} read why code pc v (l : list Z) (s : ist H W) : read code pc = Done (Some (v, length l)) ->
  imm read why code pc s = Done (Val (v, (pc + length l)%nat), s).
Proof. intros E. unfold imm, mbind, I_bind, lift. by rewrite E. Qed.

Lemma memarg_ok {H W} code pc align offset (s : ist H W) : is_u32 align -> is_u32 offset ->
  at_pos code pc (uleb_encode 5 align ++ uleb_encode 5 offset) ->
  mem_ea code pc s =
  (b ← pop; mret (as_u32 (as_u32 b + offset), (pc + length (uleb_encode 5 align ++ uleb_encode 5 offset))%nat)) s.
Proof.
  intros Ha Ho [H1 H2]%at_pos_app. unfold mem_ea, imm_u32. unfold mbind at 1, I_bind at 1.
  rewrite (imm_ok _ _ _ _ _ _ _ (read_u32_ok _ _ _ Ha H1)). unfold mbind at 1, I_bind at 1.
  rewrite (imm_ok _ _ _ _ _ _ _ (read_u32_ok _ _ _ Ho H2)). by rewrite length_app, Nat.add_assoc.
Qed.

Lemma stores_not_loads op n : row op stores = Some n -> row op loads = None.
Proof.
  cbv [row stores]. intros Hop. repeat match type of Hop with context [op =? ?k] =>
    destruct (Z.eqb_spec op k) as [->|_]; [reflexivity|] end. done.
Qed.

(** every store swaps its operands.  The standard pushes the address and
    then the value; the interpreter takes the top of the stack, the value, as
    the address and stores the address below it.  For each of the seven integer
    stores, on any operands in range, the bytes at address [value + offset] become
    the low bytes of the operand that should have been the address. *)
Theorem store_operands_swapped {H W} op n code (fr : Frame) align offset address value rest (s : ist H W) :
  row op stores = Some n -> is_u32 align -> is_u32 offset ->
  at_pos code (fr_pc fr) (uleb_encode 5 align ++ uleb_encode 5 offset) ->
  i_stack s = value :: address :: rest -> lmem_wf (i_mem s) -> 0 <= value -> 
  value + offset + Z.of_nat n <= lpages (i_mem s) * WASM_PAGE_SIZE ->
  exists fr' s', op_memory op code fr s = Done (Val (fr', None), s') /\ i_stack s' = rest /\
    i_ram s' = st n (i_ram s) (base (i_mem s) + value + offset) (wrap (8 * Z.of_nat n) address).
Proof.
  intros Hop Ha Ho Hat Hst Hw Hv Hr. unfold op_memory. rewrite Hop.
  assert (Hl : row op loads = None) by (by eapply stores_not_loads).
  rewrite Hl. unfold mbind at 1, I_bind at 1. rewrite (memarg_ok _ _ _ _ _ Ha Ho Hat).
  unfold mbind, I_bind, pop, geti, modi, next, mret, I_ret, id, with_stack. rewrite Hst. cbn [i_stack i_mem i_sys i_w i_globals i_table].
  pose proof Hw as [? [? ?] [? ?] ?]. unfold WASM_PAGE_SIZE, WASM_MAX_PAGES, MAX_RAM_END in *.
  rewrite (as_u32_small value), (as_u32_small (value + offset)) by (unfold is_u32 in *; lia).
  assert (Hvo : 0 <= value + offset) by (unfold is_u32 in Ho; lia).
  assert (Hc : check (i_mem s) (value + offset) (Z.of_nat n) = true)
    by (apply (check_spec _ _ (Z.of_nat n) Hw Hvo ltac:(lia)); unfold WASM_PAGE_SIZE; lia).
  unfold store_le. rewrite Hc. cbn [negb]. eexists _, _. split; [reflexivity|]. split; [done|].
  destruct (lmem_addr _ _ (Z.of_nat n) Hw Hvo ltac:(lia) Hc) as [E _].
  cbn. unfold kst. rewrite E. by rewrite Z.add_assoc.
Qed.

Definition demo_ist (stack : list Z) : ist unit unit :=
  mk_ist (mk_lmem 0x41000000 1 1) [] [] stack demo_system tt.

(** [i32.store] of the value 8 to the address 100 writes 100 to address 8. *)
Lemma store_operands_swapped_witness :
  exists fr' s', op_memory 0x36 [2; 0] (mk_frame 0 0 [] 0 []) (demo_ist [8; 100]) = Done (Val (fr', None), s') /\
    i_stack s' = [] /\ i_ram s' = st 4 ∅ (0x41000000 + 8 + 0) (wrap 32 100).
Proof.
  apply (store_operands_swapped 0x36 4 [2; 0] (mk_frame 0 0 [] 0 []) 2 0 100 8 [] (demo_ist [8; 100]));
    [done|unfold is_u32; lia..|exists [], []; done|done| |lia|vm_compute; congruence].
  split; cbn; unfold WASM_MAX_PAGES, WASM_PAGE_SIZE, MAX_RAM_END; lia.
Defined.

(** ** Runs *)

(** A loop that leaves a value loses it at its [end]. *)
Lemma loop_result_dropped :
  run_demo (one_func [] [I32] [0x03; 0x7F; 0x41; 7; 0x0B; 0x0B]) 20 [] = Done (Fail (Trap "missing results")).
Proof. vm_compute. reflexivity. Qed.

(** A branch to the outermost label, a return in the standard, traps. *)
Lemma outer_branch_traps :
  run_demo (one_func [] [I32] [0x41; 5; 0x0C; 0; 0x0B]) 20 [] = Done (Fail (Trap "br depth too large")).
Proof. vm_compute. reflexivity. Qed.

(** The quotient of the least integer and -1, which has no [i32] value, is returned. *)
Lemma division_overflow_accepted :
  run_demo (one_func [I32; I32] [I32] [0x20; 0; 0x20; 1; 0x6D; 0x0B]) 20 [2 ^ 31; 2 ^ 32 - 1] =
  Done (Val [2 ^ 64 - 2 ^ 31]).
Proof. vm_compute. reflexivity. Qed.

(** Floating-point code runs and computes zeros instead of trapping. *)
Lemma floats_compute_zero :
  run_demo (one_func [] [F32] [0x43; 0; 0; 128; 63; 0x0B]) 20 [] = Done (Val [0]).
Proof. vm_compute. reflexivity. Qed.

(** The memory never grows: the ceiling is the initial size. *)
Lemma grow_always_fails m n l m' : 1 <= n < 2 ^ 32 -> LinearMemory_new m n = Done (Some l, m') ->
  forall delta, 0 < delta < 2 ^ 32 -> (grow l delta).1 = -1.
Proof.
  intros Hn E delta Hd. unfold LinearMemory_new in E. destruct (alloc_pages _ _) as [[[b|] m1]|]; [|done..].
  cbn [mbind outcome_bind] in E. injection E as <- _. unfold grow. cbn [lpages cap_pages base] in *.
  unfold WASM_MAX_PAGES. rewrite as_u64_small by (unfold is_u64; lia). rewrite (proj2 (Z.ltb_lt _ _)); [done|]. lia.
Qed.

(** A module that declares a function without a body panics the kernel when it is called. *)
Definition headless_module : WasmModule :=
  set_func_types [0; 0] (one_func [] [] [0x10; 1; 0x0B]).

Lemma missing_body_panics : run_demo headless_module 20 [] = Panic.
Proof. vm_compute. reflexivity. Qed.

(** A void import the kernel does not know leaves a value on the stack. *)
Lemma unknown_import_pushes :
  run_demo (set_imports [mk_import (str "env") (str "nop") (IFunc 1)]
    (set_exports [mk_export (str "run") EFunc 1]
      (set_types [mk_functype [] [I32]; mk_functype [] []] (one_func [] [I32] [0x10; 0; 0x0B])))) 20 [] =
  Done (Val [0]).
Proof. vm_compute. reflexivity. Qed.

(** The import [send_ipc] asks for no capability: a task stripped of all of them
    sends a message (here to itself). *)
Definition sender_module : WasmModule :=
  set_imports [mk_import (str "aeglos") (str "send_ipc") (IFunc 1)]
    (set_exports [mk_export (str "run") EFunc 1]
      (set_types [mk_functype [] [I32]; mk_functype [I32; I32] [I32]]
        (one_func [] [I32] [0x41; 0; 0x41; 0; 0x10; 0; 0x0B]))).

Definition powerless : sys unit := mk_sys (set_task_caps 0 0 (init (kernel0 big_vmm))).2 tt.

Lemma send_ipc_ungated : exists x', current_caps 0 (sk powerless) = 0 /\
  call_export 0 sender_module 20 (str "run") [] powerless tt = Done (Val [0], (x', tt)) /\
  option_map (fun t => count (mailbox t)) (task_at (sk x') 0) = Some 1.
Proof. eexists. split; [|split]; [vm_compute; reflexivity..|]. vm_compute. reflexivity. Qed.
