(* ===== verification/WasmStruct.v ===== *)
(** * Structured execution of WASM code

    The reference is an evaluator over the syntax tree: a block is evaluated, a
    branch leaves as many blocks as it says, a loop starts over.  The interpreter
    works on flat bytecode with a program counter and a label stack; it computes
    what the evaluator says. *)

From stdpp Require Import base numbers list gmap strings.
From Stdlib Require Import ZArith Lia.
From S2P Require Import Prelude Machine PageAlloc Vmm Ipc Task Sched Heap Elf Syscall.
From S2P Require Import WasmParse WasmParseProofs WasmLoad WasmMem WasmNum WasmScan WasmInterp WasmSafe WasmRuns.

(** ** Syntax *)

Inductive bty := BEmpty | BVal (b : Z) | BIdx (v : Z).

(** Instructions of a function that makes no calls. *)
#[local] Unset Elimination Schemes.
Inductive ins :=
| Plain (op : Z) (im : list Z)
| Blk (bt : bty) (body : list ins)
| Lop (bt : bty) (body : list ins)
| If1 (bt : bty) (body : list ins)
| If2 (bt : bty) (body body' : list ins)
| Br (d : Z)
| BrIf (d : Z)
| BrTbl (ts : list Z)
| Ret.
#[local] Set Elimination Schemes.

Definition enc_bty (b : bty) : list Z :=
  match b with BEmpty => [0x40] | BVal b => [b] | BIdx v => sleb_encode 5 v end.

Fixpoint enc (i : ins) : list Z :=
  match i with
  | Plain op im => op :: im
  | Blk bt body => 0x02 :: enc_bty bt ++ concat (map enc body) ++ [0x0B]
  | Lop bt body => 0x03 :: enc_bty bt ++ concat (map enc body) ++ [0x0B]
  | If1 bt body => 0x04 :: enc_bty bt ++ concat (map enc body) ++ [0x0B]
  | If2 bt body body' => 0x04 :: enc_bty bt ++ concat (map enc body) ++ 0x05 :: concat (map enc body') ++ [0x0B]
  | Br d => 0x0C :: uleb_encode 5 d
  | BrIf d => 0x0D :: uleb_encode 5 d
  | BrTbl ts => 0x0E :: uleb_encode 5 (Z.of_nat (length ts) - 1) ++ concat (uleb_encode 5 <$> ts)
  | Ret => [0x0F]
  end.
Definition encs (l : list ins) : list Z := concat (map enc l).

Definition bty_ok (b : bty) : Prop :=
  match b with BEmpty => True | BVal b => 0x7C <= b <= 0x7F | BIdx v => 0 <= v < 2 ^ 31 end.

(** Instructions without control flow. *)
Definition plain (op : Z) (im : list Z) : Prop :=
  immediates op im /\ ~ 0x0C <= op <= 0x0F /\ ~ 0x10 <= op <= 0x11.

Inductive wf_code : list ins -> Prop :=
| wf_nil : wf_code []
| wf_plain op im l : plain op im -> wf_code l -> wf_code (Plain op im :: l)
| wf_blk bt b l : bty_ok bt -> wf_code b -> wf_code l -> wf_code (Blk bt b :: l)
| wf_lop bt b l : bty_ok bt -> wf_code b -> wf_code l -> wf_code (Lop bt b :: l)
| wf_if1 bt b l : bty_ok bt -> wf_code b -> wf_code l -> wf_code (If1 bt b :: l)
| wf_if2 bt b b' l : bty_ok bt -> wf_code b -> wf_code b' -> wf_code l -> wf_code (If2 bt b b' :: l)
| wf_br d l : is_u32 d -> wf_code l -> wf_code (Br d :: l)
| wf_brif d l : is_u32 d -> wf_code l -> wf_code (BrIf d :: l)
| wf_brtbl ts l : 0 < Z.of_nat (length ts) <= 2 ^ 32 -> Forall is_u32 ts -> wf_code l -> wf_code (BrTbl ts :: l)
| wf_ret l : wf_code l -> wf_code (Ret :: l).

Lemma bty_blocktype bt : bty_ok bt -> blocktype (enc_bty bt).
Proof. destruct bt; intros Hb; cbn in *; by constructor. Qed.

Lemma encs_structured l : wf_code l -> structured (encs l).
Proof.
  induction 1; unfold encs in *; cbn [map concat enc]; rewrite <- ?app_assoc, <- ?app_comm_cons; rewrite <- ?app_assoc.
  - constructor.
  - constructor; [by destruct H|done].
  - apply st_block; auto using bty_blocktype.
  - apply st_block; auto using bty_blocktype.
  - apply st_block; auto using bty_blocktype.
  - rewrite <- app_comm_cons, <- app_assoc. apply st_else; auto using bty_blocktype.
  - apply st_plain; [apply im_index; auto|done].
  - apply st_plain; [apply im_index; auto|done].
  - rewrite app_assoc. apply st_plain; [by apply im_table|done].
  - apply (st_plain 0x0F []); [|done]. apply im_none; unfold is_block, in_range; lia || done.
Qed.

(** ** The reference evaluator *)

(** How a sequence ends: by reaching its end, by a branch out of [d] blocks more
    than its own, or by a return. *)
Inductive res :=
| Normal (ls : list Z)
| Brk (d : nat) (ls : list Z)
| Retn (vals : list Z).

Section Struct.
Context {H W : Type}.
(** The module, the function and the stack height below its frame. *)
Context (module : WasmModule) (fidx : Z) (bsp : nat).

Local Abbreviation M := (I H W).

Definition fr_at (pc : nat) (ls : list Z) (L : list Label) : Frame := mk_frame fidx pc ls bsp L.

Definition block_arity (b : bty) : M nat :=
  match b with
  | BEmpty => mret O
  | BVal _ => mret 1%nat
  | BIdx v => ft ← ok_or (vec_get (types module) v) (Trap "blocktype: no type"); mret (length (results ft))
  end.

Definition height : M nat := geti (fun s => length (i_stack s)).

(** The end of a block entered at height [sp]. *)
Definition leave (sp arity : nat) (r : res) : M res :=
  match r with
  | Normal ls | Brk O ls => _ ← trim_stack sp arity; mret (Normal ls)
  | Brk (S d) ls => mret (Brk d ls)
  | Retn vals => mret r
  end.

(** The same for a branch of [if] that an [else] closes: reaching the [else]
    leaves the stack as it is. *)
Definition leave_then (sp arity : nat) (r : res) : M res :=
  match r with
  | Normal ls => mret r
  | _ => leave sp arity r
  end.

(** The target [br_table] selects. *)
Definition table_target (ts : list Z) (idx : Z) : Z :=
  match vec_get (removelast ts) idx with Some d => d | None => List.last ts 0 end.

(** One instruction, with [ev] for the instructions inside it. *)
Definition eval_ins (ev : list ins -> list Z -> M res) (i : ins) (ls : list Z) : M res :=
  match i with
  | Plain op im => '(fr, _) ← instr module op im (fr_at 0 ls []); mret (Normal (fr_locals fr))
  | Blk bt b => arity ← block_arity bt; sp ← height; r ← ev b ls; leave sp arity r
  | Lop bt b =>
      _ ← block_arity bt; sp ← height; r ← ev b ls;
      match r with
      | Brk O ls' => _ ← trim_stack sp 0; ev [Lop bt b] ls'
      | _ => leave sp 0 r
      end
  | If1 bt b =>
      arity ← block_arity bt; c ← pop;
      if negb (as_i32 c =? 0) then sp ← height; r ← ev b ls; leave sp arity r
      else mret (Normal ls)
  | If2 bt b b' =>
      arity ← block_arity bt; c ← pop;
      if negb (as_i32 c =? 0) then sp ← height; r ← ev b ls; leave_then sp arity r
      else sp ← height; r ← ev b' ls; leave sp arity r
  | Br d => mret (Brk (Z.to_nat d) ls)
  | BrIf d => c ← pop; if negb (as_i32 c =? 0) then mret (Brk (Z.to_nat d) ls) else mret (Normal ls)
  | BrTbl ts => idx ← pop; mret (Brk (Z.to_nat (table_target ts idx)) ls)
  | Ret => vals ← collect_results module (fr_at 0 ls []); mret (Retn vals)
  end.

Fixpoint eval (n : nat) (l : list ins) (ls : list Z) : M res :=
  match n with
  | O => wait
  | S n =>
      match l with
      | [] => mret (Normal ls)
      | i :: l' =>
          r ← eval_ins (eval n) i ls;
          match r with
          | Normal ls' => eval n l' ls'
          | _ => mret r
          end
      end
  end.

(** A function body: its results. *)
Definition run_body (n : nat) (l : list ins) (ls : list Z) : M (list Z) :=
  r ← eval n l ls;
  match r with
  | Normal _ => collect_results module (fr_at 0 ls [])
  | Brk _ _ => trap "br depth too large"
  | Retn vals => mret vals
  end.

(** ** Plain instructions do not depend on where they stand *)

(** [m1] does what [m2] does and ends at [pc] with labels [L]. *)
Definition shifts (pc : nat) (L : list Label) (m1 m2 : M (Frame * option StepResult)) : Prop :=
  forall s, m1 s = match m2 s with
                   | Done (Val (fr', _), s') => Done (Val (fr_at pc (fr_locals fr') L, None), s')
                   | Done (Fail e, s') => Done (Fail e, s')
                   | Done (Wait, s') => Done (Wait, s')
                   | Panic => Panic
                   end.

Lemma shifts_bind {A} pc L (m : M A) k1 k2 : (forall a, shifts pc L (k1 a) (k2 a)) ->
  shifts pc L (m ≫= k1) (m ≫= k2).
Proof. intros Hk s. unfold mbind, I_bind. destruct (m s) as [[[a|e|] s']|]; [apply Hk|done..]. Qed.

Lemma shifts_next pc L fr1 fr2 : fr1 = fr_at pc (fr_locals fr2) L -> shifts pc L (next fr1) (next fr2).
Proof. by intros ->. Qed.

Lemma shifts_fail pc L e : shifts pc L (fail e) (fail e).
Proof. done. Qed.

(** Both read the same immediate. *)
Lemma shifts_imm read why code p im q v l pc L k1 k2 :
  read code p = Done (Some (v, l)) -> read im q = Done (Some (v, l)) ->
  shifts pc L (k1 (v, (p + l)%nat)) (k2 (v, (q + l)%nat)) ->
  shifts pc L (imm read why code p ≫= k1) (imm read why im q ≫= k2).
Proof.
  intros E1 E2 Hk s. unfold mbind at 1 2, I_bind at 1 2.
  unfold imm, mbind at 1 2, I_bind at 1 2, lift. rewrite E1, E2. apply Hk.
Qed.

Lemma shifts_u32 why code p im q v pc L k1 k2 : is_u32 v ->
  at_pos code p (uleb_encode 5 v) -> at_pos im q (uleb_encode 5 v) ->
  shifts pc L (k1 (v, (p + length (uleb_encode 5 v))%nat)) (k2 (v, (q + length (uleb_encode 5 v))%nat)) ->
  shifts pc L (imm_u32 why code p ≫= k1) (imm_u32 why im q ≫= k2).
Proof. intros Hv H1 H2. apply shifts_imm; by apply read_u32_ok. Qed.

Ltac shifts_step := lazymatch goal with
  | |- shifts _ _ (next _) _ => apply shifts_next; reflexivity
  | |- shifts _ _ (fail _) _ => apply shifts_fail
  | |- shifts _ _ (trap _) _ => apply shifts_fail
  | |- shifts _ _ (if ?b then _ else _) _ => destruct b
  | |- shifts _ _ (match ?x with _ => _ end) _ => destruct x
  | |- shifts _ _ (_ ≫= _) _ => apply shifts_bind; intros ?
  end.
Ltac shifts_solve := repeat shifts_step.

Lemma numeric_shifts op p ls L : shifts p L (op_numeric op (fr_at p ls L)) (op_numeric op (fr_at 0 ls [])).
Proof. unfold op_numeric. shifts_solve. Qed.

Lemma variable_shifts op v code p ls L : is_u32 v -> at_pos code p (uleb_encode 5 v) ->
  shifts (p + length (uleb_encode 5 v)) L (op_variable op code (fr_at p ls L))
    (op_variable op (uleb_encode 5 v) (fr_at 0 ls [])).
Proof.
  intros Hv Hat. unfold op_variable. cbn [fr_pc fr_at]. repeat case_if; (apply (shifts_u32 _ _ _ _ _ v); [done|done|apply at_pos_new|]);
    cbn [fr_locals fr_at]; shifts_solve.
Qed.

Definition float_memarg_ok (op : Z) : bool :=
  match row op loads, row op stores with
  | None, None => ((op =? 0x2A) || (op =? 0x2B)) || ((op =? 0x38) || (op =? 0x39))
  | _, _ => true
  end.

Lemma float_memarg op : 0x28 <= op <= 0x3E -> row op loads = None -> row op stores = None ->
  ((op =? 0x2A) || (op =? 0x2B)) || ((op =? 0x38) || (op =? 0x39)) = true.
Proof.
  intros Hop El Es. assert (forallb float_memarg_ok (seqZ 0x28 23) = true) as Hall by (vm_compute; reflexivity).
  rewrite forallb_forall in Hall. specialize (Hall op). rewrite <- list_elem_of_In in Hall.
  unfold float_memarg_ok in Hall. rewrite El, Es in Hall. apply Hall, elem_of_seqZ. lia.
Qed.

Section Memarg.
Context (align offset : Z) (code : list Z) (p : nat).
Context (Ha : is_u32 align) (Ho : is_u32 offset).
Let im := uleb_encode 5 align ++ uleb_encode 5 offset.
Hypothesis Hat : at_pos code p im.

Lemma shifts_ea pc L k1 k2 : (forall a, shifts pc L (k1 (a, (p + length im)%nat)) (k2 (a, (0 + length im)%nat))) ->
  shifts pc L (mem_ea code p ≫= k1) (mem_ea im 0 ≫= k2).
Proof.
  intros Hk s. unfold mbind at 1 2, I_bind at 1 2.
  rewrite (memarg_ok code p align offset s Ha Ho Hat), (memarg_ok im 0 align offset s Ha Ho (at_pos_new _)).
  unfold mbind, I_bind, mret, I_ret. destruct (pop s) as [[[b|e|] s']|]; [apply Hk|done..].
Qed.

Lemma skip_memarg_ok c q (s : ist H W) : at_pos c q im -> skip_memarg c q s = Done (Val (q + length im)%nat, s).
Proof.
  intros [H1 H2]%at_pos_app. unfold skip_memarg, imm_u32. unfold mbind at 1, I_bind at 1.
  rewrite (imm_ok _ _ _ _ _ _ _ (read_u32_ok _ _ _ Ha H1)). unfold mbind at 1, I_bind at 1.
  rewrite (imm_ok _ _ _ _ _ _ _ (read_u32_ok _ _ _ Ho H2)). unfold im. by rewrite length_app, Nat.add_assoc.
Qed.

Lemma shifts_skip pc L k1 k2 : shifts pc L (k1 (p + length im)%nat) (k2 (0 + length im)%nat) ->
  shifts pc L (skip_memarg code p ≫= k1) (skip_memarg im 0 ≫= k2).
Proof.
  intros Hk s. unfold mbind, I_bind. rewrite (skip_memarg_ok code p s Hat), (skip_memarg_ok im 0 s (at_pos_new _)). apply Hk.
Qed.

Lemma memory_shifts op ls L : 0x28 <= op <= 0x3E ->
  shifts (p + length im) L (op_memory op code (fr_at p ls L)) (op_memory op im (fr_at 0 ls [])).
Proof.
  intros Hop. unfold op_memory. cbn [fr_pc fr_at]. destruct (row op loads) as [[n e]|] eqn:El;
    [apply shifts_ea; intros a; shifts_solve|].
  destruct (row op stores) as [n|] eqn:Es; [apply shifts_ea; intros a; shifts_solve|].
  apply (float_memarg op Hop El), orb_true_iff in Es.
  case_if; [apply shifts_skip; shifts_solve|]. destruct Es as [Es|Es]; [congruence|]. rewrite Es. apply shifts_skip. shifts_solve.
Qed.
End Memarg.

Lemma reserved_shifts op b code p ls L : op = 0x3F \/ op = 0x40 ->
  shifts (p + 1) L (op_memory op code (fr_at p ls L)) (op_memory op [b] (fr_at 0 ls [])).
Proof.
  intros Hop. rewrite Nat.add_1_r. unfold op_memory.
  assert (row op loads = None /\ row op stores = None) as [-> ->] by (destruct Hop as [-> | ->]; split; reflexivity).
  destruct Hop as [-> | ->]; cbn [Z.eqb Pos.eqb orb]; shifts_solve.
Qed.

Lemma const_shifts op im code p ls L : immediates op im -> 0x41 <= op <= 0x44 -> at_pos code p im ->
  shifts (p + length im) L (op_const op code (fr_at p ls L)) (op_const op im (fr_at 0 ls [])).
Proof.
  intros Him Hop Hat. destruct Him; try lia; unfold op_const; cbn [fr_pc fr_at]; cbn [Z.eqb Pos.eqb].
  - eapply shifts_imm; [by apply read_i32_ok|apply read_i32_ok; [done|apply at_pos_new]|]. shifts_solve.
  - eapply shifts_imm; [by apply read_i64_ok|apply read_i64_ok; [done|apply at_pos_new]|]. shifts_solve.
  - rewrite H0. shifts_solve.
  - rewrite H0. shifts_solve.
Qed.

Lemma in_range_spec a b c : in_range a b c = true <-> a <= b <= c.
Proof. unfold in_range. rewrite andb_true_iff, !Z.leb_le. lia. Qed.

(** The arm of an opcode is found by ruling out the ones before it. *)
Ltac instr_skip := repeat lazymatch goal with
  | |- shifts _ _ (if ?op =? ?c then _ else _) _ =>
      first [replace (op =? c) with false by (symmetry; apply Z.eqb_neq; lia)
            |destruct (op =? c) eqn:?; [solve [shifts_solve]|]]
  | |- shifts _ _ (if in_range ?a ?op ?b then _ else _) _ =>
      first [replace (in_range a op b) with true by (symmetry; apply in_range_spec; lia)
            |replace (in_range a op b) with false by (symmetry; apply not_true_iff_false; rewrite in_range_spec; lia)]
  end.

Lemma plain_shifts op im code p ls L : plain op im -> at_pos code p im ->
  shifts (p + length im) L (instr module op code (fr_at p ls L)) (instr module op im (fr_at 0 ls [])).
Proof.
  intros (Him & Hop & Hop') Hat. unfold instr. pose proof (immediates_plain _ _ Him) as (Hb & H5 & HB).
  assert (~ 0x02 <= op <= 0x04) as H24 by (unfold is_block in Hb; apply not_true_iff_false in Hb; by rewrite in_range_spec in Hb).
  destruct Him; try lia; [cbn [length]; rewrite Nat.add_0_r|..]; instr_skip.
  - apply numeric_shifts.
  - by apply variable_shifts.
  - apply memory_shifts; auto. lia.
  - by apply reserved_shifts.
  - apply const_shifts; [by constructor|lia|done].
  - apply const_shifts; [by constructor|lia|done].
  - apply const_shifts; [by constructor|lia|done].
  - apply const_shifts; [by constructor|lia|done].
Qed.

(** ** Runs of the interpreter *)

Section Sim.
Context (code : list Z) (Hcode : Z.of_nat (length code) < 2 ^ 63).

(** From [fr] in [s], [step_frame] answers [o] given enough rounds. *)
Definition goes (fr : Frame) (s : ist H W) (o : outcome (ans StepResult * ist H W)) : Prop :=
  exists k, forall rounds, (k <= rounds)%nat -> ('(_, r) ← step_frame module rounds code fr; mret r) s = o.

(** What is left to do after one instruction answers [o]. *)
Definition then_goes (x : outcome (ans (Frame * option StepResult) * ist H W))
  (o : outcome (ans StepResult * ist H W)) : Prop :=
  match x with
  | Done (Val (fr', None), s') => goes fr' s' o
  | Done (Val (fr', Some r), s') => o = Done (Val r, s')
  | Done (Fail e, s') => o = Done (Fail e, s')
  | Done (Wait, s') => o = Done (Wait, s')
  | Panic => o = Panic
  end.

(** What is left to do when the evaluator is done, at position [q] under labels [L]. *)
Definition after (q : nat) (L : list Label) (x : outcome (ans res * ist H W))
  (o : outcome (ans StepResult * ist H W)) : Prop :=
  match x with
  | Done (Val (Normal ls'), s') => goes (fr_at q ls' L) s' o
  | Done (Val (Brk d ls'), s') =>
      forall pc, then_goes ((fr ← do_br (fr_at pc ls' L) (Z.of_nat d); next fr) s') o
  | Done (Val (Retn vals), s') => o = Done (Val (Return vals), s')
  | Done (Fail e, s') => o = Done (Fail e, s')
  | Done (Wait, _) => False
  | Panic => o = Panic
  end.

(** Running from [fr] is doing [m] and going on at [q] under [L]; the same for
    one instruction. *)
Definition sim (fr : Frame) (q : nat) (L : list Label) (m : M res) : Prop :=
  forall s o, after q L (m s) o -> goes fr s o.
Definition sim1 (f : M (Frame * option StepResult)) (q : nat) (L : list Label) (m : M res) : Prop :=
  forall s o, after q L (m s) o -> then_goes (f s) o.

Lemma goes_instr p op ls L s o : at_pos code p [op] ->
  goes (fr_at p ls L) s o <-> then_goes (instr module op code (fr_at (S p) ls L) s) o.
Proof.
  intros [El Ei]%at_pos_index.
  assert (forall n, ('(_, r) ← step_frame module (S n) code (fr_at p ls L); mret r) s =
    match instr module op code (fr_at (S p) ls L) s with
    | Done (Val (fr', None), s') => ('(_, r) ← step_frame module n code fr'; mret r) s'
    | Done (Val (fr', Some r), s') => Done (Val r, s')
    | Done (Fail e, s') => Done (Fail e, s')
    | Done (Wait, s') => Done (Wait, s')
    | Panic => Panic
    end) as Hstep.
  { intros n. cbn [step_frame fr_pc fr_at]. rewrite El, Ei. unfold mbind, I_bind, lift, with_pc. cbn [fr_func_idx fr_locals fr_base_sp fr_labels].
    fold (fr_at (S p) ls L). by destruct (instr _ _ _ _ _) as [[[[fr' [r|]]|e|] s']|]. }
  unfold goes, then_goes.
  destruct (instr _ _ _ _ _) as [[[[fr' [r|]]|e|] s']|]; (split; [intros [k Hk]|]).
  all: try (rewrite <- (Hk (S k)), Hstep by lia; done).
  all: try (intros ->; exists 1%nat; intros [|n] Hn; [lia|apply Hstep]).
  - exists k. intros n Hn. rewrite <- Hstep. apply Hk. lia.
  - intros [k Hk]. exists (S k). intros [|n] Hn; [lia|]. rewrite Hstep. apply Hk. lia.
Qed.

Lemma sim_instr p op ls q L L' m : at_pos code p [op] ->
  sim1 (instr module op code (fr_at (S p) ls L)) q L' m -> sim (fr_at p ls L) q L' m.
Proof. intros Hat Hm s o Ho. apply (goes_instr _ op); auto. Qed.

Lemma sim1_bind {A} (m : M A) f g q L : (forall a, sim1 (f a) q L (g a)) -> sim1 (m ≫= f) q L (m ≫= g).
Proof. intros Hf s o. unfold mbind, I_bind. destruct (m s) as [[[a|e|] s']|]; [apply Hf|done..]. Qed.

Lemma sim1_next fr q L m : sim fr q L m -> sim1 (next fr) q L m.
Proof. intros Hm s o Ho. by apply Hm. Qed.

Lemma sim_ret q ls L : sim (fr_at q ls L) q L (mret (Normal ls)).
Proof. by intros s o Ho. Qed.

Lemma sim1_ext f f' q L m : (forall s, f s = f' s) -> sim1 f' q L m -> sim1 f q L m.
Proof. intros E Hf s o Ho. rewrite E. by apply Hf. Qed.

Lemma sim_seq fr q q' L m (k : list Z -> M res) : sim fr q L m -> (forall ls, sim (fr_at q ls L) q' L (k ls)) ->
  sim fr q' L (r ← m; match r with Normal ls => k ls | _ => mret r end).
Proof.
  intros Hm Hk s o Ho. apply Hm. unfold mbind, I_bind in Ho.
  destruct (m s) as [[[[ls|d ls|vals]|e|] s']|]; [|done..]. by apply Hk.
Qed.

Lemma sim_plain op im p ls L : plain op im -> at_pos code p (op :: im) ->
  sim (fr_at p ls L) (p + length (op :: im)) L
    ('(fr, _) ← instr module op im (fr_at 0 ls []); mret (Normal (fr_locals fr))).
Proof.
  intros Hop Hat. apply (at_pos_cons _ _ _ [] im) in Hat as Hat1. destruct Hat1 as [H1 H2]. cbn [length] in *.
  rewrite Nat.add_0_r in H2. rewrite <- Nat.add_succ_comm.
  apply (sim_instr _ op); [done|]. intros s o Ho. rewrite (plain_shifts _ _ _ _ _ _ Hop H2 s).
  unfold mbind, I_bind in Ho. destruct (instr _ _ im _ _) as [[[[fr' r]|e|] s']|]; done.
Qed.

(** Leaving a block through its [end], by a branch to its label, or beyond it. *)
Lemma do_br_outer pc ls lbl L d s :
  do_br (fr_at pc ls (lbl :: L)) (Z.of_nat (S d)) s = do_br (fr_at pc ls L) (Z.of_nat d) (s : ist H W).
Proof.
  unfold do_br, vec_get. cbn [fr_labels fr_at length]. rewrite !Nat2Z.id.
  replace (Z.of_nat (S d) <? Z.of_nat (S (length L))) with (Z.of_nat d <? Z.of_nat (length L)) by
    (apply eq_true_iff_eq; rewrite !Z.ltb_lt; lia).
  done.
Qed.

Lemma do_br_here pc ls lbl L s : lb_kind lbl <> KLoop ->
  (fr ← do_br (fr_at pc ls (lbl :: L)) 0; next fr) s =
  (_ ← trim_stack (lb_base_sp lbl) (lb_arity lbl); next (fr_at (lb_br_target lbl) ls L)) (s : ist H W).
Proof.
  intros Hk. unfold do_br, vec_get. cbn [fr_labels fr_at length]. rewrite (proj2 (Z.ltb_lt _ _)) by lia.
  change ((lbl :: L) !! Z.to_nat 0) with (Some lbl). cbn [Z.to_nat]. unfold mbind, I_bind.
  destruct (trim_stack _ _ s) as [[[u|e|] s']|]; [|done..].
  by destruct (lb_kind lbl).
Qed.

Section Leave.
Context (k : LabelKind) (a sp e : nat) (L : list Label) (Hk : k <> KLoop).
Let lbl := mk_label k a sp (S e) e.

Lemma after_leave q r s o : (forall ls, r <> Normal ls) ->
  after (S e) L (leave sp a r s) o -> after q (lbl :: L) (Done (Val r, s)) o.
Proof.
  intros Hr Ho. destruct r as [ls|[|d] ls|vals]; [by edestruct Hr|..|done]; cbn [after]; intros pc.
  - rewrite do_br_here by done. revert Ho. apply (sim1_bind (trim_stack sp a)). intros _. apply sim1_next, sim_ret.
  - unfold mbind, I_bind. rewrite do_br_outer. apply Ho.
Qed.

Lemma sim_leave fr m : at_pos code e [0x0B] -> sim fr e (lbl :: L) m -> sim fr (S e) L (r ← m; leave sp a r).
Proof.
  intros Hat Hm s o Ho. apply Hm. unfold mbind at 1, I_bind at 1 in Ho.
  destruct (m s) as [[[[ls|d ls|vals]|err|] s']|]; [|by apply after_leave..|done|done|done].
  apply (goes_instr _ 0x0B); [done|]. revert Ho. apply (sim1_bind (trim_stack sp a)). intros _. apply sim1_next, sim_ret.
Qed.

Lemma sim_leave_then fr ep m : at_pos code ep [0x05] -> sim fr ep (lbl :: L) m ->
  sim fr (S e) L (r ← m; leave_then sp a r).
Proof.
  intros Hat Hm s o Ho. apply Hm. unfold mbind at 1, I_bind at 1 in Ho.
  destruct (m s) as [[[[ls|d ls|vals]|err|] s']|]; [|by apply after_leave..|done|done|done].
  by apply (goes_instr _ 0x05).
Qed.
End Leave.

(** ** Blocks *)

Lemma parse_blocktype_ok bt p (s : ist H W) : bty_ok bt -> at_pos code p (enc_bty bt) ->
  parse_blocktype module code p s = (a ← block_arity bt; mret (a, (p + length (enc_bty bt))%nat)) s.
Proof.
  intros Hbt Hat. unfold parse_blocktype. destruct bt as [|b|v]; cbn [enc_bty bty_ok block_arity length] in *.
  1, 2: destruct (at_pos_index _ _ _ _ Hat) as [-> ->]; unfold mbind, I_bind, lift; rewrite Nat.add_1_r.
  - done.
  - rewrite (proj2 (Z.eqb_neq _ _)), (proj2 (in_range_spec _ _ _)) by lia. done.
  - destruct (type_index_head v) as (b & l & E & H1 & H2); [lia|].
    pose proof Hat as Hat'. rewrite E in Hat'. destruct (at_pos_index _ _ _ _ Hat') as [-> ->].
    unfold mbind at 1, I_bind at 1, lift. rewrite H1, H2. unfold mbind at 1, I_bind at 1.
    rewrite (imm_ok _ _ _ _ _ _ _ (read_i32_ok _ _ v ltac:(lia) Hat)).
    rewrite as_u64_small by (unfold is_u64; lia). unfold mbind, I_bind. by destruct (ok_or _ _ s) as [[[ft|e|] s']|].
Qed.

Lemma bind_ext {A B} (m : M A) (f g : A -> M B) s : (forall a s, f a s = g a s) -> (m ≫= f) s = (m ≫= g) s.
Proof. intros E. unfold mbind, I_bind. destruct (m s) as [[[a|e|] s']|]; auto. Qed.

Section Entry.
Context (bt : bty) (b : list ins) (p : nat) (ls : list Z) (L : list Label).
Context (Hbt : bty_ok bt) (Hb : wf_code b).
Let pb := (p + length (enc_bty bt))%nat.

Lemma blocktype_bind {B} (k : nat * nat -> M B) s : at_pos code p (enc_bty bt) ->
  (x ← parse_blocktype module code p; k x) s = (a ← block_arity bt; k (a, pb)) s.
Proof.
  intros Hat. unfold mbind at 1, I_bind at 1. rewrite (parse_blocktype_ok bt) by done.
  unfold mbind, I_bind. by destruct (block_arity bt s) as [[[a|e|] s']|].
Qed.

Lemma body_len l l' i : at_pos code i (l ++ l') -> Z.of_nat (length l) < 2 ^ 63.
Proof. intros [Hat _]%at_pos_app. apply at_pos_len in Hat. lia. Qed.

Section End_.
Let e := (pb + length (encs b))%nat.
Hypothesis Hat : at_pos code p (enc_bty bt ++ encs b ++ [0x0B]).

Lemma end_found : find_end code pb = Done (Ok e).
Proof.
  apply at_pos_app in Hat as [_ Hat']. apply find_end_at; [by apply encs_structured|by eapply body_len|done].
Qed.

Lemma op_block_ok s : op_block module code (fr_at p ls L) s =
  (a ← block_arity bt; sp ← height; next (fr_at pb ls (mk_label KBlock a sp (S e) e :: L))) s.
Proof.
  unfold op_block. rewrite blocktype_bind by (by apply at_pos_app in Hat as [? _]). apply bind_ext. intros a s'.
  unfold lift. rewrite end_found. done.
Qed.

Lemma op_loop_ok s : op_loop module code (fr_at p ls L) s =
  (a ← block_arity bt; sp ← height; next (fr_at pb ls (mk_label KLoop 0 sp pb e :: L))) s.
Proof.
  unfold op_loop. rewrite blocktype_bind by (by apply at_pos_app in Hat as [? _]). apply bind_ext. intros a s'.
  unfold lift. rewrite end_found. done.
Qed.

Lemma op_if_ok s : op_if module code (fr_at p ls L) s =
  (a ← block_arity bt; c ← pop;
   if negb (as_i32 c =? 0) then sp ← height; next (fr_at pb ls (mk_label KIf a sp (S e) e :: L))
   else next (fr_at (S e) ls L)) s.
Proof.
  unfold op_if. rewrite blocktype_bind by (by apply at_pos_app in Hat as [? _]). apply bind_ext. intros a s'.
  apply bind_ext. intros c s''. unfold lift. rewrite end_found.
  apply at_pos_app in Hat as [_ Hat']. rewrite (find_else_none _ _ (encs b)) by (first [by apply encs_structured|by eapply body_len|done]).
  by destruct (negb _).
Qed.
End End_.

Lemma op_if_else_ok b' s : wf_code b' ->
  at_pos code p (enc_bty bt ++ encs b ++ 0x05 :: encs b' ++ [0x0B]) ->
  let ep := (pb + length (encs b))%nat in
  let e := (S ep + length (encs b'))%nat in
  op_if module code (fr_at p ls L) s =
  (a ← block_arity bt; c ← pop;
   if negb (as_i32 c =? 0) then sp ← height; next (fr_at pb ls (mk_label KIf a sp (S e) e :: L))
   else sp ← height; next (fr_at (S ep) ls (mk_label KIf a sp (S e) e :: L))) s.
Proof.
  intros Hb' [H1 H2]%at_pos_app ep e.
  unfold op_if. rewrite blocktype_bind by done. apply bind_ext. intros a s'.
  apply bind_ext. intros c s''. unfold lift. fold pb in H2. pose proof H2 as H3.
  rewrite (app_comm_cons (encs b')), app_assoc in H3.
  rewrite (find_end_over _ _ (encs b) (encs b')) by (first [by apply encs_structured|by eapply body_len|done]).
  change (0x05 :: encs b' ++ [0x0B]) with ([0x05] ++ encs b' ++ [0x0B]) in H2. rewrite app_assoc in H2.
  apply at_pos_app in H2 as [H4 _].
  rewrite (find_else_at _ _ (encs b)) by (first [by apply encs_structured|by eapply body_len|done]).
  by destruct (negb _).
Qed.
End Entry.

(** ** One instruction *)

Section Ev.
Context (ev : list ins -> list Z -> M res).
Hypothesis Hev : forall l p ls L, wf_code l -> at_pos code p (encs l) ->
  sim (fr_at p ls L) (p + length (encs l)) L (ev l ls).

(** The instruction [i] stands at [p]. *)
Definition simulated (i : ins) : Prop := forall p ls L, at_pos code p (enc i) ->
  sim (fr_at p ls L) (p + length (enc i)) L (eval_ins ev i ls).

Lemma at_pos_block op bt b p : at_pos code p (op :: enc_bty bt ++ encs b ++ [0x0B]) ->
  at_pos code p [op] /\ at_pos code (S p) (enc_bty bt ++ encs b ++ [0x0B]) /\
  at_pos code (S p + length (enc_bty bt)) (encs b) /\
  at_pos code (S p + length (enc_bty bt) + length (encs b)) [0x0B] /\
  (p + length (op :: enc_bty bt ++ encs b ++ [0x0B%Z]) = S (S p + length (enc_bty bt) + length (encs b)))%nat.
Proof.
  intros Hat. apply (at_pos_cons _ _ _ []) in Hat as [H1 H2]. cbn [length] in H2. rewrite Nat.add_0_r in H2.
  pose proof H2 as [_ [H3 H4]%at_pos_app]%at_pos_app. split_and!; auto.
  repeat (rewrite ?length_app; cbn [length]). lia.
Qed.

Lemma sim_blk bt b : bty_ok bt -> wf_code b -> simulated (Blk bt b).
Proof.
  intros Hbt Hb p ls L (H1 & H2 & H3 & H4 & E)%at_pos_block. cbn [enc]. fold (encs b). rewrite E.
  apply (sim_instr _ 0x02); [done|]. eapply sim1_ext; [intros s; by apply (op_block_ok bt b)|].
  do 2 (apply sim1_bind; intros ?). apply sim1_next. eapply sim_leave; [|done|by apply Hev]. done.
Qed.

Lemma sim_if1 bt b : bty_ok bt -> wf_code b -> simulated (If1 bt b).
Proof.
  intros Hbt Hb p ls L (H1 & H2 & H3 & H4 & E)%at_pos_block. cbn [enc]. fold (encs b). rewrite E.
  apply (sim_instr _ 0x04); [done|]. eapply sim1_ext; [intros s; by apply (op_if_ok bt b)|].
  do 2 (apply sim1_bind; intros ?). case_if; [apply sim1_bind; intros ?|]; apply sim1_next; [|apply sim_ret].
  eapply sim_leave; [|done|by apply Hev]. done.
Qed.

Lemma sim_if2 bt b b' : bty_ok bt -> wf_code b -> wf_code b' -> simulated (If2 bt b b').
Proof.
  intros Hbt Hb Hb' p ls L Hat. cbn [enc] in Hat |- *. fold (encs b) (encs b') in Hat |- *.
  apply (at_pos_cons _ _ _ []) in Hat as [H1 H2]. cbn [length] in H2. rewrite Nat.add_0_r in H2.
  pose proof H2 as [_ [H3 H4]%at_pos_app]%at_pos_app. apply (at_pos_cons _ _ _ []) in H4 as [H4 H5].
  cbn [length] in H5. rewrite Nat.add_0_r in H5. apply at_pos_app in H5 as [H5 H6].
  replace (p + _)%nat with (S (S (S p + length (enc_bty bt) + length (encs b)) + length (encs b'))) by
    (repeat (rewrite ?length_app; cbn [length]); lia).
  apply (sim_instr _ 0x04); [done|]. eapply sim1_ext; [intros s; by apply (op_if_else_ok bt b)|].
  do 2 (apply sim1_bind; intros ?). case_if; apply sim1_bind; intros ?; apply sim1_next.
  - eapply sim_leave_then; [|done|by apply Hev]. done.
  - eapply sim_leave; [|done|by apply Hev]. done.
Qed.

(** After a branch to a loop the stack has the height it had at the entry. *)
Lemma trim_height sp (s s' : ist H W) u : trim_stack sp 0 s = Done (Val u, s') -> length (i_stack s') = sp.
Proof.
  unfold trim_stack, truncate, geti, modi, mbind, I_bind. destruct (_ <? sp)%nat eqn:E; [done|].
  cbn. intros [= _ <-]. cbn. rewrite length_drop. apply Nat.ltb_ge in E. lia.
Qed.

Lemma block_arity_pure bt s s' a : block_arity bt s = Done (Val a, s') ->
  s' = s /\ forall t, block_arity bt t = Done (Val a, t).
Proof.
  destruct bt as [|b|v]; cbn; [by intros [= <- <-]..|]. unfold mbind, I_bind.
  destruct (vec_get (types module) v); cbn; [by intros [= <- <-]|done].
Qed.

(** A branch to the loop is entering the loop again. *)
Lemma reenter bt b p ls L s o : bty_ok bt -> wf_code b -> at_pos code p (enc (Lop bt b)) ->
  let pb := (S p + length (enc_bty bt))%nat in
  let e := (pb + length (encs b))%nat in
  forall a, (forall t, block_arity bt t = Done (Val a, t)) ->
  goes (fr_at p ls L) s o ->
  goes (fr_at pb ls (mk_label KLoop 0 (length (i_stack s)) pb e :: L)) s o.
Proof.
  intros Hbt Hb (H1 & H2 & _)%at_pos_block pb e a Ha Hg. apply (goes_instr _ 0x03) in Hg; [|done].
  change (instr module 0x03 code) with (op_loop (H := H) (W := W) module code) in Hg.
  rewrite (op_loop_ok bt b) in Hg by done. unfold mbind at 1, I_bind at 1 in Hg. by rewrite Ha in Hg.
Qed.

Lemma do_br_loop pc ls sp pb e L (s : ist H W) :
  (fr ← do_br (fr_at pc ls (mk_label KLoop 0 sp pb e :: L)) 0; next fr) s =
  (_ ← trim_stack sp 0; next (fr_at pb ls (mk_label KLoop 0 sp pb e :: L))) s.
Proof.
  unfold do_br, vec_get. cbn [fr_labels fr_at length]. rewrite (proj2 (Z.ltb_lt _ _)) by lia.
  change ((_ :: L) !! Z.to_nat 0) with (Some (mk_label KLoop 0 sp pb e)). unfold mbind, I_bind.
  cbn [lb_base_sp lb_arity]. by destruct (trim_stack _ _ s) as [[[u|err|] s']|].
Qed.

Lemma sim_lop bt b : bty_ok bt -> wf_code b -> simulated (Lop bt b).
Proof.
  intros Hbt Hb p ls L Hat. pose proof Hat as (H1 & H2 & H3 & H4 & E)%at_pos_block.
  apply (sim_instr _ 0x03); [done|]. eapply sim1_ext; [intros s; by apply (op_loop_ok bt b)|].
  intros s o Ho. cbn [eval_ins] in Ho. unfold mbind at 1, I_bind at 1 in Ho. unfold mbind at 1, I_bind at 1.
  destruct (block_arity bt s) as [[[a|err|] s1]|] eqn:Ea; [|done..]. apply block_arity_pure in Ea as [-> Ea].
  apply (Hev b); [done..|]. unfold mbind at 1, I_bind at 1, height, geti in Ho. unfold mbind at 1, I_bind at 1 in Ho.
  destruct (ev b ls s) as [[[[ls'|[|d] ls'|vals]|err|] s']|]; [..|done|done|done|done]; cbn [after].
  - apply (goes_instr _ 0x0B); [done|]. cbn [enc] in Ho. fold (encs b) in Ho. rewrite E in Ho. revert Ho.
    apply (sim1_bind (trim_stack _ 0)). intros _. apply sim1_next, sim_ret.
  - intros pc. rewrite do_br_loop. unfold mbind, I_bind in Ho |- *.
    destruct (trim_stack _ 0 s') as [[[u|err|] s'']|] eqn:Et; [|done..]. apply trim_height in Et. rewrite <- Et.
    eapply reenter; [done..|]. apply (Hev [Lop bt b]); [by constructor; [..|constructor]|unfold encs; cbn [map concat]; by rewrite app_nil_r|].
    unfold encs. cbn [map concat]. by rewrite app_nil_r.
  - intros pc. unfold mbind, I_bind. rewrite do_br_outer. apply Ho.
Qed.

Lemma imm_bind {B} why v p (k : Z * nat -> M B) s : is_u32 v -> at_pos code p (uleb_encode 5 v) ->
  (x ← imm_u32 why code p; k x) s = k (v, (p + length (uleb_encode 5 v))%nat) s.
Proof.
  intros Hv Hat. unfold imm_u32, mbind at 1, I_bind at 1. by rewrite (imm_ok _ _ _ _ _ _ _ (read_u32_ok _ _ _ Hv Hat)).
Qed.

Lemma sim1_br pc d ls q L : 0 <= d ->
  sim1 (fr ← do_br (fr_at pc ls L) d; next fr) q L (mret (Brk (Z.to_nat d) ls)).
Proof. intros Hd s o Ho. specialize (Ho pc). by rewrite Z2Nat.id in Ho. Qed.

Lemma at_pos_tail op l p : at_pos code p (op :: l) ->
  at_pos code p [op] /\ at_pos code (S p) l /\ (p + length (op :: l) = S p + length l)%nat.
Proof. intros Hat. apply (at_pos_cons _ _ _ []) in Hat as [H1 H2]. cbn [length] in *. rewrite Nat.add_0_r in H2. auto with lia. Qed.

Lemma sim_br d : is_u32 d -> simulated (Br d).
Proof.
  intros Hd p ls L (H1 & H2 & E)%at_pos_tail. cbn [enc]. rewrite E. apply (sim_instr _ 0x0C); [done|].
  eapply sim1_ext; [intros s; by apply (imm_bind _ d)|]. apply sim1_br. unfold is_u32 in Hd. lia.
Qed.

Lemma sim_brif d : is_u32 d -> simulated (BrIf d).
Proof.
  intros Hd p ls L (H1 & H2 & E)%at_pos_tail. cbn [enc]. rewrite E. apply (sim_instr _ 0x0D); [done|].
  eapply sim1_ext; [intros s; by apply (imm_bind _ d)|]. cbn [eval_ins]. apply sim1_bind. intros c.
  case_if; [apply sim1_br; unfold is_u32 in Hd; lia|]. apply sim1_next, sim_ret.
Qed.

Lemma br_targets_ok ts p (s : ist H W) : Forall is_u32 ts -> at_pos code p (concat (uleb_encode 5 <$> ts)) ->
  br_targets (length ts) code p s = Done (Val (ts, (p + length (concat (uleb_encode 5 <$> ts)))%nat), s).
Proof.
  intros Hts. revert p. induction Hts as [|t ts Ht _ IH]; intros p Hat; cbn [fmap list_fmap concat length br_targets] in *;
    [by rewrite Nat.add_0_r|].
  apply at_pos_app in Hat as [H1 H2]. rewrite (imm_bind _ t) by done. unfold mbind, I_bind. rewrite (IH _ H2).
  unfold mret, I_ret. by rewrite length_app, Nat.add_assoc.
Qed.

Lemma table_target_u32 ts idx : Forall is_u32 ts -> ts <> [] -> is_u32 (table_target ts idx).
Proof.
  intros Hts Hne. rewrite (app_removelast_last 0 Hne) in Hts. apply Forall_app in Hts as [Hr Hl].
  unfold table_target, vec_get. case_if; [|by inversion Hl].
  destruct (removelast ts !! _) eqn:E; [exact (Forall_lookup_1 _ _ _ _ Hr E)|by inversion Hl].
Qed.

Lemma sim_brtbl ts : 0 < Z.of_nat (length ts) <= 2 ^ 32 -> Forall is_u32 ts -> simulated (BrTbl ts).
Proof.
  intros Hn Hts p ls L (H1 & [H2 H3]%at_pos_app & E)%at_pos_tail. cbn [enc]. rewrite E. apply (sim_instr _ 0x0E); [done|].
  eapply sim1_ext; [intros s; apply (imm_bind _ (Z.of_nat (length ts) - 1)); [unfold is_u32; lia|done]|].
  cbn beta iota. replace (Z.to_nat _) with (length ts) by lia. intros s o Ho. unfold mbind at 1, I_bind at 1.
  rewrite (br_targets_ok ts) by done. revert Ho. apply (sim1_bind pop). intros idx. apply sim1_br.
  apply (table_target_u32 ts idx Hts). intros ->. cbn in Hn. lia.
Qed.

Lemma sim_ins_ret : simulated Ret.
Proof.
  intros p ls L (H1 & H2 & E)%at_pos_tail. cbn [enc]. rewrite E. apply (sim_instr _ 0x0F); [done|].
  apply (sim1_bind (collect_results module (fr_at 0 ls []))). by intros vals s o ->.
Qed.

Lemma sim_cons i l p ls L n : simulated i -> at_pos code p (encs (i :: l)) ->
  (forall p ls L, at_pos code p (encs l) -> sim (fr_at p ls L) (p + length (encs l)) L (eval n l ls)) ->
  sim (fr_at p ls L) (p + length (encs (i :: l))) L
    (r ← eval_ins ev i ls; match r with Normal ls' => eval n l ls' | _ => mret r end).
Proof.
  intros Hi [H1 H2]%at_pos_app Hl. unfold encs. cbn [map concat]. rewrite length_app, Nat.add_assoc. fold (encs l).
  eapply sim_seq; [by apply Hi|]. intros ls'. by apply Hl.
Qed.
End Ev.

Lemma eval_sim n l p ls L : wf_code l -> at_pos code p (encs l) ->
  sim (fr_at p ls L) (p + length (encs l)) L (eval n l ls).
Proof.
  revert l p ls L. induction n as [|n IH]; intros l p ls L Hl Hat; [by intros s o|]. destruct Hl; cbn [eval].
  { cbn. rewrite Nat.add_0_r. apply sim_ret. }
  all: apply sim_cons; [|done|by auto].
  - intros p' ls' L' Hat'. by apply sim_plain.
  - by apply sim_blk.
  - by apply sim_lop.
  - by apply sim_if1.
  - by apply sim_if2.
  - by apply sim_br.
  - by apply sim_brif.
  - by apply sim_brtbl.
  - by apply sim_ins_ret.
Qed.
End Sim.

End Struct.

(** The sum of 1 to [n] in a loop, [if n = 0 then 0 else ...] around it. *)
Definition sum_body : list ins :=
  [Plain 0x20 [0];
   If2 (BVal 0x7F)
     [Blk BEmpty
        [Lop BEmpty
           [Plain 0x20 [0]; Plain 0x45 []; BrIf 1;
            Plain 0x20 [1]; Plain 0x20 [0]; Plain 0x6A []; Plain 0x21 [1];
            Plain 0x20 [0]; Plain 0x41 [1]; Plain 0x6B []; Plain 0x21 [0];
            Br 0]];
      Plain 0x20 [1]]
     [Plain 0x41 [0]; Ret]].

Definition sum_module : WasmModule := one_func [I32; I32] [I32] (encs sum_body ++ [0x0B]).

Lemma sum_wf : wf_code sum_body.
Proof.
  assert (forall i op, 0x20 <= op <= 0x24 -> 0 <= i < 128 -> plain op [i]) as Hvar.
  { intros i op Hop Hi. split; [|lia]. replace [i] with (uleb_encode 5 i); [apply im_index; unfold is_u32; lia|].
    cbn [uleb_encode]. by rewrite (proj2 (Z.ltb_lt _ _)) by lia. }
  assert (forall i, 0 <= i < 64 -> plain 0x41 [i]) as Hconst.
  { intros i Hi. split; [|lia]. replace [i] with (sleb_encode 5 i); [apply im_i32; lia|].
    cbn [sleb_encode]. rewrite (proj2 (Z.leb_le _ _)), (proj2 (Z.ltb_lt _ _)), Z.mod_small by lia. done. }
  assert (forall op, 0x45 <= op -> plain op []) as Hnum.
  { intros op Hop. split; [|lia]. apply im_none; unfold is_block, in_range; lia. }
  repeat first [apply Hvar; lia|apply Hconst; lia|apply Hnum; lia|unfold is_u32; lia|constructor].
Qed.

